(* ===== verification/_CoqProject ===== *)
-Q . S2P
Prelude.v
FloatMath.v
PyData.v
ClockText.v
Calendar.v
TripSchema.v
TaskModels.v
TaskTables.v
SqliteTaskStore.v
MysqlTaskStore.v
TaskLifecycle.v
SqliteTaskProofs.v
MysqlTaskProofs.v
TaskStoreTheorems.v
OrderedDict.v
TaskBus.v
TaskBusTheorems.v
TaskRuntime.v
TaskWorker.v
TaskRuntimeTheorems.v
AmapModels.v
PlanReports.v
ToolModels.v
Circuit.v
PlanRoutes.v
PlanContent.v
AgentState.v
Convergence.v
AgentDecision.v
AgentAnalysis.v
AgentPhases.v
CheckpointPolicy.v
Acceptance.v
ExecutionPolicy.v
AgentActions.v
AgentLoop.v
AgentDemo.v
AgentFrames.v
AgentLoopTheorems.v
AgentDelivery.v
ConvergenceBounds.v
AgentRollback.v
PlanEdits.v
RouteScoring.v
RouteOptimizer.v
Timeline.v
TimelineTheorems.v
ScheduleOptimizer.v
Commute.v
Candidates.v
CommuteRepair.v
RestaurantHours.v
Rebuilder.v
Constraints.v
ConstraintOptimizer.v
ContentRefill.v
Validator.v
ValidatorTheorems.v
TripVersions.v
SessionStore.v
TripDrafts.v
TripHistory.v
SharedGuides.v
SharedStore.v
SharedLifecycle.v
SharedStoreProofs.v
SharedLater.v
SharedEffects.v
SharedWorker.v
SharedClaims.v
SharedWorkerRuns.v
SharedService.v
SharedListing.v
SharedTheorems.v
TripDraftProofs.v
TripDraftClaims.v
Analytics.v
AnalyticsTheorems.v
AmapCache.v
AmapClient.v
