(* ===== verification/Prelude.v ===== *)
(** * The travel planning agent: a model of its core and what it guarantees

    The program (src/app) takes a trip request, queues it as a durable task, and
    a worker runs an agent on it: the agent calls tools (attractions, weather,
    hotels, routes, restaurants, a language model that drafts the plan), then
    evaluates the draft, improves it step by step under budgets, validates it
    and delivers it.  This library models that core and proves what makes it
    correct.  A Rocq definition keeps the name of its Python counterpart where
    it can; the parts below name their source files.

    ** Parts and files

    - Foundations.  [Prelude]: results with exceptions, list, option, order and
      rational lemmas shared by all files, tactics.  [PyData]: UTF-8 text, JSON
      values and their canonical text.  [FloatMath]: [round] and the functions of
      [math].  [ClockText]: "HH:MM" texts and opening ranges.  [Calendar]: ISO
      dates.  [OrderedDict]: insertion-ordered dictionaries.
    - Data.  [TripSchema] (schemas/trip_schema.py), [AmapModels]
      (providers/amap/models.py), [PlanReports] (the reports and candidates of
      routing, commute, scheduling, constraints, validation), [TaskModels]
      (task_runtime/models.py), [AgentState] (agent_runtime/state.py); [PlanEdits]
      has the edits of plans and a small trip for the examples.
    - Task queue.  [TaskTables], [SqliteTaskStore] (task_runtime/store.py) and
      [MysqlTaskStore] (persistence/mysql_trip_task_store.py) are the two stores;
      [TaskLifecycle] is their abstract specification, [SqliteTaskProofs] and
      [MysqlTaskProofs] the refinements, [TaskRuntimeTheorems] has the class both
      implement, [TaskStoreTheorems] the pages of events and the consequences.
    - Wake-ups and the worker.  [TaskBus] and [TaskBusTheorems]
      (infrastructure/notifications, infrastructure/redis/task_notifications.py);
      [TaskRuntime], [TaskWorker] and [TaskRuntimeTheorems]
      (task_runtime/notifying_store.py, context.py, worker.py).
    - Tools and limits.  [ToolModels] (tools/registry.py), [Circuit] and
      [ExecutionPolicy] (agent_runtime/execution_policy.py), [CheckpointPolicy],
      [Acceptance].
    - Evaluation of a plan.  [PlanRoutes] and [RouteScoring] (routing), [Commute]
      (commute/evaluator.py), [Timeline] and [TimelineTheorems]
      (scheduling/timeline.py), [RestaurantHours], [Constraints]
      (constraints/evaluator.py), [Validator] and [ValidatorTheorems]
      (validation/trip_validator.py).
    - Improvement of a plan.  [PlanEdits], [PlanContent], [Candidates],
      [CommuteRepair] (commute/optimizer.py, supplement.py), [RouteOptimizer],
      [ScheduleOptimizer], [ConstraintOptimizer], [ContentRefill],
      [Rebuilder] (plan_content/rebuilder.py).
    - The agent (agent_runtime/orchestrator.py, convergence.py).  [Convergence]:
      fingerprints.  [AgentDecision]: the next action as ordered rules.
      [AgentAnalysis]: what a change invalidates.  [AgentPhases]: the
      optimisation phases with acceptance and rollback.  [AgentActions]: single
      actions.  [AgentLoop]: the loop, [run] and [resume].  [AgentFrames],
      [AgentLoopTheorems], [AgentDelivery], [ConvergenceBounds] and
      [AgentRollback]: proofs.  [AgentDemo]: a closed world to run it in.
    - Editing of a stored trip.  [TripVersions]
      (memory/sqlite_trip_version_store.py,
      persistence/mysql_trip_version_store.py): drafts and versions in both
      stores; [SessionStore] (memory/sqlite_store.py,
      persistence/mysql_agent_state_store.py): the checkpoints of the sessions;
      [TripDrafts] (services/trip_draft_service.py): the draft service;
      [TripHistory]: the contract of the version stores and the invariant of the
      history; [TripDraftProofs] and [TripDraftClaims]: what follows.
    - Sharing of guides (sharing/).  [SharedGuides] (models.py) and [SharedStore]
      (mysql_store.py): the tables and their operations; [SharedLifecycle]:
      their abstract specification and invariant; [SharedStoreProofs]: the
      refinement; [SharedLater], [SharedClaims], [SharedTheorems]: its
      consequences.  [SharedListing]: the paged lists.
      [SharedEffects]: programs over the store, the embedding provider and the
      vector index (rag/qdrant_index.py), which may fail and interleave;
      [SharedWorker] (worker.py) and [SharedService] (service.py) are such
      programs, with proofs in [SharedWorkerRuns] and [SharedService].

    - Reports.  [Analytics] and [AnalyticsTheorems]
      (memory/execution_analytics.py, memory/quality_analytics.py,
      evaluation/fixed_baseline.py): the baselines over stored sessions.
    - Map routes.  [AmapCache] (infrastructure/cache, redis/cache_store.py,
      memory/sqlite_route_cache.py, providers/amap/layered_cache.py and
      business_cache.py): the two levels of cache, with what Redis, the database
      and the clock do as arguments of each call; [AmapClient]
      (providers/amap/errors.py, client.py, normalizers.py, route_cache.py): the
      estimation of the legs of a trip over that cache, which is the tool behind
      the route estimates of the agent and of the draft service.

    ** How the parts meet

    The agent sees the outside world through two classes: [AgentEnv] (clock,
    tools, store, cancellation) and [PlanningServices] (evaluators, optimisers,
    validator); theorems on runs hold for every instance, so they do not depend
    on what a tool or a service answers.  The evaluators and optimisers are then
    modelled one by one; the optimisers call the evaluators as the code does.
    The worker uses a task store through the class whose instances [TaskRuntimeTheorems] gives, which
    both stores implement; the draft service uses [VersionStore] and [StateStore],
    with the contracts [VersionStoreLaws] and [StateStoreLaws] that both backends
    meet, and the evaluators through [PlanningServices].  Hashes, [exp] and the trigonometric functions, and
    the validation of provider entries are the classes [HashEnv], [MathEnv] and
    [CandidateModel]; a theorem that needs a fact about them names it.

    ** What is shown

    - Delivery ([AgentDelivery]): a run that returns a plan has a validated, or
      explicitly accepted, current plan, and the store holds that state.
    - Limits and termination ([AgentLoopTheorems], [ConvergenceBounds],
      [ExecutionPolicy], [Circuit]): every run ends, no session exceeds its
      budgets, no input repeats for ever; the circuit breaker is the abstract
      closed/open/half-open machine.
    - Acceptance of candidates ([AgentRollback]): a candidate is kept whole or
      the baseline comes back whole.
    - Task queue ([TaskStoreTheorems], [TaskBusTheorems], [TaskRuntimeTheorems]):
      one live lease per task, frozen results, well-formed tables, a refinement
      of one lifecycle by both stores, no lost wake-up, a worker ends its task.
    - Evaluators: the timeline accounts for every minute, lunch stays in its
      window, the commute and constraint reports say exactly which rule breaks,
      scores keep their bounds.
    - Validation ([ValidatorTheorems]): a plan is valid exactly when it is the
      consistent trip of the request, and repairable exactly when only the plan
      is at fault.
    - Optimisers: what a candidate changes and what it must keep, that it
      improves on its baseline, how many plans are tried, that loops end.
    - Content: the rebuild changes only derived content and keeps the routes
      (with the one case where it does not), the pool of candidates has no
      duplicates, duplicate attractions are removed.
    - Editing ([TripDraftClaims]): whatever the calls and the failures, versions
      keep their content and the confirmed number never decreases; a
      confirmation succeeds for one draft per confirmed version and shows its
      plan; only the changed legs are asked for again.  What interleaved
      confirmations and a failure between two writes can do is shown as well.
    - Sharing ([SharedTheorems], [SharedClaims], [SharedWorkerRuns],
      [SharedService], [SharedListing]): every operation refines the
      specification and keeps the tables well formed; only the holder of a lease
      publishes; a retired version never returns; a search reads public guides
      only; claims end and take the oldest due job; under any interleaving
      the index worker deletes retired versions only; alone, the worker and the
      service publish or record the retry; the pages of a list are the list.
      A publication that outlives its lease can hide a public guide.
    - Reports ([AnalyticsTheorems]): every execution, transition, cycle and
      session is counted once where it belongs, rankings keep the largest
      counts, a fixed scenario is judged by its newest session and passes
      exactly when that session meets its conditions.
    - Map routes ([AmapCache], [AmapClient]): every selected leg gets one estimate
      of its own, the counters add up, only errors of the provider are raised
      whatever the caches do; a cached route is an answer for the same query and
      no older than its time to live, but for a slack that is stated.
    - Texts: clocks and dates are read back as they were written.

    ** Fuel and bounds

    [run_loop] takes fuel and [runs_terminate] proves that the steps left are
    enough.  [refill_loop] takes the number of sources, [reduce] the number of
    candidates, [claim_loop] the number of jobs; their theorems prove that this
    suffices.  All other recursions are structural.

    ** Idealisations

    Floats are rationals and [round] is exact on them.  Integers are unbounded as
    in Python.  Lower-casing and [strip] cover ASCII letters and the white space
    of Unicode; digits of other scripts are not read.  Provider fields are text
    or numbers where the code applies [str].  Objects that the code deep-copies
    are values; the places where it shares an object are written as one value
    that is updated once.  A database transaction is one atomic step.  The
    append-only histories that no decision reads are left out of the state.  The
    demonstration world hashes everything to one constant, which only makes the
    convergence limits stricter.

    ** Not modelled

    HTTP routes and wiring (main.py), authentication (hashing and tokens of
    libraries), the searches of places and weather of the map provider, prompts and
    model calls, retrieval over the vector index and the preparation of a shared
    draft, the connection handling of Redis, metrics, configuration and the evaluation harnesses that
    drive the real program: each is I/O, a call into a library, or reads only. *)

From Stdlib Require Import ZArith QArith Qround Lia Lqa Ascii String Sorted.
From stdpp Require Import base tactics option list gmap strings pretty sorting.

Open Scope Z_scope.

(** ** Results and exceptions *)

(** Exceptions that cross component boundaries, one constructor per class
    raised by the modelled code; the payload is the message. *)
Inductive exn :=
| ValueError (msg : string)
| TripTaskNotFoundError (msg : string)
| TaskIdempotencyConflictError (msg : string)
| TaskLeaseLostError (msg : string)
| SessionNotFoundError (msg : string)
| StoreUnavailable (msg : string)
| ValidationError
| IndexError (msg : string)
| TypeError (msg : string)
| IntegrityError
| MultipleResultsFound
| RuntimeError (msg : string)
| DraftConflictError (msg : string)
| DraftNotFoundError (msg : string)
| VersionNotFoundError (msg : string).

#[export] Instance exn_eq_dec : EqDecision exn.
Proof. solve_decision. Defined.

Inductive result (E A : Type) :=
| Ok (a : A)
| Err (e : E).
Arguments Ok {E A} a.
Arguments Err {E A} e.

#[export] Instance result_ret (E : Type) : MRet (result E) := fun A a => Ok a.
#[export] Instance result_bind (E : Type) : MBind (result E) :=
  fun A B k m => match m with Ok a => k a | Err e => Err e end.

#[export] Instance Q_eq_dec : EqDecision Q.
Proof. solve_decision. Defined.

(** A database transaction: the body computes on the tables it read when it
    began; an exception rolls every write back. *)
Definition commit_or_rollback {D E A : Type} (body : D → result E (A * D))
    (db : D) : result E A * D :=
  match body db with
  | Ok (a, db') => (Ok a, db')
  | Err e => (Err e, db)
  end.

(** ** Record update *)

Class Rebuild (R : Type) := rebuild : R → R.
Class Field {R T : Type} (proj : R → T) := overwrite : (T → T) → R → R.
Arguments overwrite {R T} proj {_} _ _ /.

Ltac solve_field :=
  match goal with
  | |- @Field ?R ?T ?proj =>
      let i := constr:(_ : Rebuild R) in
      let e := eval hnf in i in
      match (eval pattern proj in e) with
      | ?g _ =>
          let body := constr:(fun (f : T → T) (r : R) => g (fun x => f (proj x)) r) in
          let body := eval cbv beta in body in
          exact body
      end
  end.
#[export] Hint Extern 1 (Field _) => solve_field : typeclass_instances.

Declare Scope record_scope.
Delimit Scope record_scope with record.
Notation "r <| p := v |>" := (overwrite p (fun _ => v) r)
  (at level 1, left associativity, p at level 10,
   format "r  <| p  :=  v |>") : record_scope.
Open Scope record_scope.

(** ** Time *)

(** An aware UTC [datetime] is its number of microseconds since the epoch. *)
Definition datetime := Z.

(** The readings of the clock during one operation: [clk i] is what the
    [i]-th call of [utc_now()] made by the operation returns. *)
Definition clock := nat → datetime.

(** Python's [round(x)]: to the nearest integer, halves to the even one. *)
Definition py_round (q : Q) : Z :=
  let f := Qfloor q in
  match Qcompare (q - inject_Z f) (1 # 2) with
  | Lt => f
  | Gt => f + 1
  | Eq => if Z.even f then f else f + 1
  end.

(** [timedelta(seconds=s)], in microseconds. *)
Definition timedelta_seconds (s : Q) : Z := py_round (s * inject_Z 1000000).

(** [max(a, b)] and [min(a, b)] on floats: Python returns the first argument
    unless the second one is strictly better. *)
Definition Qlt_bool (a b : Q) : bool := negb (Qle_bool b a).
Definition fmax (a b : Q) : Q := if Qlt_bool a b then b else a.
Definition fmin (a b : Q) : Q := if Qlt_bool b a then b else a.

Lemma Qlt_bool_iff (a b : Q) : Qlt_bool a b = true ↔ (a < b)%Q.
Proof.
  unfold Qlt_bool. rewrite negb_true_iff. split; intros H.
  - apply Qnot_le_lt. intros Hle%Qle_bool_iff. congruence.
  - apply not_true_is_false. rewrite Qle_bool_iff. by apply Qlt_not_le.
Qed.

Lemma Qlt_bool_false (a b : Q) : Qlt_bool a b = false ↔ (b <= a)%Q.
Proof. unfold Qlt_bool. rewrite negb_false_iff. apply Qle_bool_iff. Qed.

(** Splits on the float comparisons of a goal and closes it by linear arithmetic. *)
Ltac float_cases :=
  unfold fmax, fmin in *;
  repeat match goal with
  | |- context [Qlt_bool ?a ?b] =>
      let E := fresh "E" in
      destruct (Qlt_bool a b) eqn:E;
      [apply Qlt_bool_iff in E | apply Qlt_bool_false in E]
  end; try lra.

Lemma fmax_l (a b : Q) : (a <= fmax a b)%Q.
Proof. float_cases. Qed.
Lemma fmax_r (a b : Q) : (b <= fmax a b)%Q.
Proof. float_cases. Qed.
Lemma fmin_l (a b : Q) : (fmin a b <= a)%Q.
Proof. float_cases. Qed.
Lemma fmin_r (a b : Q) : (fmin a b <= b)%Q.
Proof. float_cases. Qed.
Lemma fmax_lub (a b c : Q) : (a <= c → b <= c → fmax a b <= c)%Q.
Proof. intros. float_cases. Qed.

Lemma py_round_bounds (q : Q) :
  (inject_Z (py_round q) <= q + (1 # 2))%Q ∧ (q - (1 # 2) <= inject_Z (py_round q))%Q.
Proof.
  unfold py_round. pose proof (Qfloor_le q). pose proof (Qlt_floor q) as Hlt.
  assert (Hp : (inject_Z (Qfloor q + 1) == inject_Z (Qfloor q) + 1)%Q)
    by (rewrite inject_Z_plus; reflexivity).
  rewrite Hp in Hlt.
  destruct (Qcompare _ _) eqn:E; [apply Qeq_alt in E | apply Qlt_alt in E | apply Qgt_alt in E];
    try destruct (Z.even _); rewrite ?Hp; lra.
Qed.

Lemma py_round_mono_Z (z : Z) (q : Q) : (inject_Z z <= q)%Q → z <= py_round q.
Proof.
  intros H. unfold py_round.
  assert (z <= Qfloor q) as Hz.
  { rewrite <- (Qfloor_Z z). by apply Qfloor_resp_le. }
  destruct (Qcompare _ _); try destruct (Z.even _); lia.
Qed.

(** ** Queries *)

Lemma py_round_mono_Z_upper (z : Z) (q : Q) : (q <= inject_Z z)%Q → py_round q <= z.
Proof.
  intros H. unfold py_round.
  pose proof (Qfloor_le q) as Hf.
  assert (Hz : Qfloor q <= z) by (rewrite Zle_Qle; lra).
  destruct (Z.eq_dec (Qfloor q) z) as [Heq|Hne].
  - assert (Hq : (q == inject_Z z)%Q) by (rewrite Heq in Hf; lra).
    rewrite Heq. destruct (Qcompare_spec (q - inject_Z z) (1 # 2)) as [Hc|Hc|Hc]; lra || lia.
  - destruct (_ ?= _)%Q; [destruct (Z.even _)| |]; lia.
Qed.

(** [ORDER BY key ASC LIMIT 1]: a row with the least key (the first one the
    scan meets when several tie). *)
Fixpoint order_limit1 {A} (key : A → Z) (l : list A) : option A :=
  match l with
  | [] => None
  | x :: xs =>
      match order_limit1 key xs with
      | None => Some x
      | Some y => if key x <=? key y then Some x else Some y
      end
  end.

Lemma order_limit1_None {A} (key : A → Z) l : order_limit1 key l = None ↔ l = [].
Proof. destruct l; simpl; [done|]. repeat case_match; naive_solver. Qed.

Lemma order_limit1_Some {A} (key : A → Z) l x :
  order_limit1 key l = Some x → x ∈ l ∧ ∀ y, y ∈ l → key x <= key y.
Proof.
  revert x. induction l as [|a l IH]; intros x; simpl; [done|].
  destruct (order_limit1 key l) as [z|] eqn:E.
  - destruct (IH z eq_refl) as [Hin Hmin].
    destruct (Z.leb_spec (key a) (key z)); intros [= <-];
      (split; [set_solver|]); intros y [->|Hy]%elem_of_cons;
      try specialize (Hmin y Hy); lia.
  - apply order_limit1_None in E as ->. intros [= <-].
    split; [set_solver|]. intros y [->|?]%elem_of_cons; [lia|set_solver].
Qed.

(** ** Sorting *)

(** [sorted(l, key=...)]: a stable sort by a total order on the keys. *)
Section PySorted.
Context {A : Type} (le : A → A → bool).

Fixpoint insert_sorted (x : A) (l : list A) : list A :=
  match l with
  | [] => [x]
  | y :: rest => if le x y then x :: l else y :: insert_sorted x rest
  end.

Definition py_sorted (l : list A) : list A := foldr insert_sorted [] l.

Lemma insert_sorted_perm x l : insert_sorted x l ≡ₚ x :: l.
Proof.
  induction l as [|y l IH]; simpl; [done|]. destruct (le x y); [done|].
  rewrite IH. apply Permutation_swap.
Qed.

Lemma py_sorted_perm l : py_sorted l ≡ₚ l.
Proof. induction l as [|x l IH]; simpl; [done|]. by rewrite insert_sorted_perm, IH. Qed.

Context (le_total : ∀ x y, le x y = true ∨ le y x = true).
Context (le_trans : ∀ x y z, le x y = true → le y z = true → le x z = true).

Lemma insert_sorted_sorted x l :
  StronglySorted (fun a b => le a b = true) l →
  StronglySorted (fun a b => le a b = true) (insert_sorted x l).
Proof.
  induction 1 as [|y l Hl IH Hy]; simpl; [repeat constructor|].
  destruct (le x y) eqn:E.
  - constructor; [by constructor|]. constructor; [done|].
    eapply Forall_impl; [exact Hy|]. simpl. eauto.
  - constructor; [done|]. rewrite insert_sorted_perm. constructor; [|done].
    destruct (le_total x y); congruence.
Qed.

Lemma py_sorted_sorted l : StronglySorted (fun a b => le a b = true) (py_sorted l).
Proof. induction l as [|x l IH]; simpl; [constructor|]. by apply insert_sorted_sorted. Qed.

(** [sorted(...)[0]], [min(..., key=...)], or [ORDER BY ... LIMIT 1] on several keys. *)
Lemma py_sorted_head l x : head (py_sorted l) = Some x → x ∈ l ∧ ∀ y, y ∈ l → le x y = true.
Proof.
  intros Hh. pose proof (py_sorted_sorted l) as Hs. pose proof (py_sorted_perm l) as Hp.
  destruct (py_sorted l) as [|z rest]; [done|]. injection Hh as ->. apply StronglySorted_inv in Hs as [_ Hs].
  split; [rewrite <- Hp; left|]. intros y Hy. rewrite <- Hp in Hy. apply elem_of_cons in Hy as [->|Hy].
  - by destruct (le_total x x).
  - rewrite Forall_forall in Hs. by apply Hs.
Qed.
End PySorted.

Lemma leb_trans_str x y z : String.leb x y = true → String.leb y z = true → String.leb x z = true.
Proof.
  unfold String.leb. revert x z. induction y as [|b y IH]; intros [|a x] [|d z]; cbn [String.compare]; try done.
  unfold Ascii.compare. destruct (N.compare_spec (N_of_ascii a) (N_of_ascii b)) as [E1|E1|E1],
    (N.compare_spec (N_of_ascii b) (N_of_ascii d)) as [E2|E2|E2]; try done;
    destruct (N.compare_spec (N_of_ascii a) (N_of_ascii d)) as [E3|E3|E3]; try done; try lia.
  apply IH.
Qed.

(** One level of a lexicographic comparison of tuples: [k] compares the rest. *)
Definition lexZ (x y : Z) (k : bool) : bool := (x <? y) || ((x =? y) && k).

Definition lexQ (x y : Q) (k : bool) : bool := Qlt_bool x y || (Qeq_bool x y && k).

Lemma lexZ_total x y k k' :
  k = true ∨ k' = true → lexZ x y k = true ∨ lexZ y x k' = true.
Proof.
  unfold lexZ. rewrite !orb_true_iff, !andb_true_iff, !Z.ltb_lt, !Z.eqb_eq.
  intros Hk. destruct (Z.lt_trichotomy x y) as [?|[->|?]]; naive_solver.
Qed.
Lemma lexZ_trans x y z k k' k'' :
  (k = true → k' = true → k'' = true) →
  lexZ x y k = true → lexZ y z k' = true → lexZ x z k'' = true.
Proof.
  unfold lexZ. rewrite !orb_true_iff, !andb_true_iff, !Z.ltb_lt, !Z.eqb_eq.
  intros Hk [H1|[H1 H1']] [H2|[H2 H2']]; [left; lia..|right]. split; [lia|auto].
Qed.

Lemma lexQ_total x y k k' :
  k = true ∨ k' = true → lexQ x y k = true ∨ lexQ y x k' = true.
Proof.
  unfold lexQ. rewrite !orb_true_iff, !andb_true_iff, !Qlt_bool_iff, !Qeq_bool_iff.
  intros Hk. destruct (Q_dec x y) as [[?|?]|?]; [left; by left|right; by left|].
  destruct Hk; [left|right]; right; (split; [|done]); [done|by symmetry].
Qed.
Lemma lexQ_trans x y z k k' k'' :
  (k = true → k' = true → k'' = true) →
  lexQ x y k = true → lexQ y z k' = true → lexQ x z k'' = true.
Proof.
  unfold lexQ. rewrite !orb_true_iff, !andb_true_iff, !Qlt_bool_iff, !Qeq_bool_iff.
  intros Hk [H1|[H1 H1']] [H2|[H2 H2']]; [left; lra..|right]. split; [lra|auto].
Qed.

(** ** Sequences of computations *)

(** A sequence that does not raise returns the result of each of its parts. *)
Lemma mapM_Ok {E A B} (f : A → result E B) l k :
  mapM f l = Ok k ↔ Forall2 (fun a b => f a = Ok b) l k.
Proof.
  revert k. induction l as [|a l IH]; intros k; simpl.
  - split; [intros [= <-]; constructor|]. by inversion 1.
  - destruct (f a) as [b|e] eqn:Ha; cbn.
    + destruct (mapM f l) as [bs|e] eqn:Hl; cbn; split; try done.
      * intros [= <-]. constructor; [done|]. by apply IH.
      * intros Hk. inversion Hk as [|? b' ? bs' Hb Hbs]; simplify_eq. apply IH in Hbs. rewrite Ha in Hb. by simplify_eq/=.
      * intros Hk. inversion Hk as [|? b' ? bs' Hb Hbs]; simplify_eq. apply IH in Hbs. rewrite Ha in Hb. by simplify_eq/=.
    + split; [done|]. intros Hk. inversion Hk as [|? b' ? bs' Hb Hbs]; congruence.
Qed.

Lemma mapM_error {E A B} (f : A → result E B) l e :
  mapM f l = Err e → ∃ a, a ∈ l ∧ f a = Err e.
Proof.
  induction l as [|a l IH]; [done|]. cbn [mapM]. destruct (f a) as [b|e1] eqn:Hf; cbn [mbind result_bind].
  - destruct (mapM f l) as [bs|e2]; [done|]. cbn. intros [= <-].
    destruct IH as (x & Hx & He); [done|]. exists x. split; [by right|done].
  - intros [= <-]. exists a. split; [left|done].
Qed.
(** ** Filters *)

Lemma filter_all {A} (P : A → Prop) `{∀ x, Decision (P x)} l :
  Forall P l → filter P l = l.
Proof. induction 1; [done|]. rewrite filter_cons_True by done. by f_equal. Qed.

Lemma filter_none {A} (P : A → Prop) `{∀ x, Decision (P x)} l :
  Forall (fun x => ¬ P x) l → filter P l = [].
Proof. induction 1; [done|]. by rewrite filter_cons_False by done. Qed.

Lemma filter_same {A} (P Q : A → Prop) `{∀ x, Decision (P x)} `{∀ x, Decision (Q x)} (l : list A) :
  (∀ x, P x ↔ Q x) → filter P l = filter Q l.
Proof. intros H1. by apply list_filter_iff. Qed.

Lemma StronglySorted_filter {A} (R : relation A) (P : A → Prop) `{∀ x, Decision (P x)} l :
  StronglySorted R l → StronglySorted R (filter P l).
Proof.
  induction 1 as [|x l Hl IH Hx]; [constructor|].
  destruct (decide (P x)).
  - rewrite filter_cons_True by done. constructor; [done|].
    apply Forall_forall. intros y [_ Hy]%list_elem_of_filter.
    rewrite Forall_forall in Hx. auto.
  - by rewrite filter_cons_False by done.
Qed.

Lemma filter_existsb {A} (f : A → bool) l :
  length (filter (fun x => f x = true) l) = 0%nat ↔ existsb f l = false.
Proof.
  induction l as [|x l IH]; simpl; [done|]. rewrite orb_false_iff.
  destruct (f x) eqn:E.
  - rewrite filter_cons_True by done. simpl. naive_solver.
  - rewrite filter_cons_False by congruence. naive_solver.
Qed.
