(* ===== verification/FloatMath.v ===== *)
(** Python's [round(x, n)] and the functions of its [math] module that the
    planning components use.  A float is a rational here, so the transcendental
    functions are the class [MathEnv]; their domain errors are the code's. *)

From S2P Require Import Prelude.
From Stdlib Require Import ZArith QArith Qabs Qround Lia Lqa String.
From stdpp Require Import base tactics option list strings.

Open Scope string_scope.
Open Scope Z_scope.

(** ** [round(x, n)] *)

Definition round_n (n : nat) (q : Q) : Q :=
  (inject_Z (py_round (q * inject_Z (10 ^ Z.of_nat n))) / inject_Z (10 ^ Z.of_nat n))%Q.

Section Round.
Context (n : nat).
Let scale : Q := inject_Z (10 ^ Z.of_nat n).

Lemma scale_pos : (0 < scale)%Q.
Proof.
  unfold scale. change 0%Q with (inject_Z 0). rewrite <- Zlt_Qlt. lia.
Qed.

Lemma round_n_mono_Z (z : Z) (q : Q) : (inject_Z z <= q)%Q → (inject_Z z <= round_n n q)%Q.
Proof.
  intros H. pose proof scale_pos as Hs. unfold round_n. fold scale.
  apply Qle_shift_div_l; [done|]. unfold scale. rewrite <- inject_Z_mult, <- Zle_Qle.
  apply py_round_mono_Z. rewrite inject_Z_mult. fold scale. apply Qmult_le_compat_r; [done|lra].
Qed.

Lemma round_n_mono_Z_upper (z : Z) (q : Q) : (q <= inject_Z z)%Q → (round_n n q <= inject_Z z)%Q.
Proof.
  intros H. pose proof scale_pos as Hs. unfold round_n. fold scale.
  apply Qle_shift_div_r; [done|]. unfold scale. rewrite <- inject_Z_mult, <- Zle_Qle.
  apply py_round_mono_Z_upper. rewrite inject_Z_mult. fold scale. apply Qmult_le_compat_r; [done|lra].
Qed.

(** Rounding moves a float by at most half a unit of its last digit. *)
Lemma round_n_close (q : Q) :
  (round_n n q - q <= (1 # 2) / scale)%Q ∧ (q - round_n n q <= (1 # 2) / scale)%Q.
Proof.
  pose proof scale_pos as Hs. destruct (py_round_bounds (q * scale)) as [Hu Hl].
  unfold round_n. fold scale. set (r := inject_Z (py_round (q * scale))) in *.
  assert (Hq : (q == q * scale / scale)%Q) by (field; lra).
  assert (Hd : ∀ a b, (a <= b → a / scale <= b / scale)%Q).
  { intros a b Hab. unfold Qdiv. apply Qmult_le_compat_r; [done|]. apply Qinv_le_0_compat. lra. }
  pose proof (Hd _ _ Hu) as H1. pose proof (Hd _ _ Hl) as H2.
  assert (E1 : ((q * scale + (1 # 2)) / scale == q + (1 # 2) / scale)%Q) by (field; lra).
  assert (E2 : ((q * scale - (1 # 2)) / scale == q - (1 # 2) / scale)%Q) by (field; lra).
  rewrite E1 in H1. rewrite E2 in H2.
  split; lra.
Qed.
End Round.

Lemma round_n_nonneg n q : (0 <= q)%Q → (0 <= round_n n q)%Q.
Proof. apply (round_n_mono_Z n 0). Qed.

Lemma round_n_range n q (z z' : Z) :
  (inject_Z z <= q)%Q → (q <= inject_Z z')%Q → (inject_Z z <= round_n n q <= inject_Z z')%Q.
Proof. intros. split; [by apply round_n_mono_Z|by apply round_n_mono_Z_upper]. Qed.

(** [max(lo, min(hi, x))] on floats *)
Definition clamp (lo hi x : Q) : Q := fmax lo (fmin hi x).

Lemma clamp_range lo hi x : (lo <= hi)%Q → (lo <= clamp lo hi x <= hi)%Q.
Proof.
  intros H. unfold clamp. split; [apply fmax_l|]. apply fmax_lub; [done|]. apply fmin_l.
Qed.

(** [sum] of floats, from the left. *)
Definition qsum (l : list Q) : Q := foldl Qplus 0%Q l.

Lemma foldl_Qplus_nonneg l a :
  (0 <= a)%Q → Forall (fun q => (0 <= q)%Q) l → (0 <= foldl Qplus a l)%Q.
Proof.
  intros Ha Hl. revert a Ha. induction Hl as [|q l Hq _ IH]; intros a Ha; simpl; [done|].
  apply IH. lra.
Qed.

Lemma qsum_nonneg l : Forall (fun q => (0 <= q)%Q) l → (0 <= qsum l)%Q.
Proof. by apply foldl_Qplus_nonneg. Qed.

(** The mean of numbers between two integers lies between them. *)
Lemma mean_between l (lo hi : Z) :
  l ≠ [] → Forall (fun q => (inject_Z lo <= q <= inject_Z hi)%Q) l →
  (inject_Z lo <= qsum l / inject_Z (Z.of_nat (length l)) <= inject_Z hi)%Q.
Proof.
  intros Hne Hl.
  assert (Hpos : (0 < inject_Z (Z.of_nat (length l)))%Q).
  { change 0%Q with (inject_Z 0). rewrite <- Zlt_Qlt. destruct l; [done|]. simpl. lia. }
  assert (Hboth : ∀ a,
    (a + inject_Z (Z.of_nat (length l)) * inject_Z lo <= foldl Qplus a l
     <= a + inject_Z (Z.of_nat (length l)) * inject_Z hi)%Q).
  { clear Hne Hpos. induction Hl as [|q l [Hq Hq'] _ IH]; intros a; simpl.
    - change (inject_Z (Z.of_nat 0)) with 0%Q. split; lra.
    - destruct (IH (a + q)%Q) as [IH1 IH2]. rewrite Nat2Z.inj_succ, <- Z.add_1_r, inject_Z_plus.
      set (k := inject_Z (Z.of_nat (length l))) in *. change (inject_Z 1) with 1%Q.
      assert (Hr : ∀ u, ((k + 1) * u == k * u + u)%Q) by (intros; ring). rewrite !Hr. split; lra. }
  destruct (Hboth 0%Q) as [H1 H2]. split.
  - apply Qle_shift_div_l; [done|]. unfold qsum. lra.
  - apply Qle_shift_div_r; [done|]. unfold qsum. lra.
Qed.

Definition zsum (l : list Z) : Z := foldr Z.add 0 l.

Lemma zsum_cons z l : zsum (z :: l) = z + zsum l.
Proof. reflexivity. Qed.

Lemma zsum_app l k : zsum (l ++ k)%list = zsum l + zsum k.
Proof. induction l; simpl; [done|]. rewrite IHl. lia. Qed.

Lemma zsum_nonneg l : Forall (fun z => 0 <= z) l → 0 <= zsum l.
Proof. induction 1; simpl; lia. Qed.

(** [any] and sums over a list of records *)
Lemma zsum_map_add {A} (f g : A → Z) l :
  zsum (map (fun a => f a + g a) l) = zsum (map f l) + zsum (map g l).
Proof. induction l; simpl; lia. Qed.

(** ** The [math] module *)

Class MathEnv := {
  math_sin : Q → Q;
  math_cos : Q → Q;
  math_exp : Q → Q;
  math_radians : Q → Q;
  sqrt_of : Q → Q;
  asin_of : Q → Q;
  math_atan2 : Q → Q → Q
}.

(** [math.sqrt] and [math.asin] raise outside their domains. *)
Definition math_sqrt `{MathEnv} (q : Q) : result exn Q :=
  if Qlt_bool q 0 then Err (ValueError "math domain error") else Ok (sqrt_of q).
Definition math_asin `{MathEnv} (q : Q) : result exn Q :=
  if Qlt_bool q (-1) || Qlt_bool 1 q then Err (ValueError "math domain error")
  else Ok (asin_of q).

(** [math.ceil] *)
Definition math_ceil (q : Q) : Z := Qceiling q.

(** What the documentation of the module promises of the results. *)
Class MathLaws `{MathEnv} : Prop := {
  sqrt_nonneg : ∀ q, (0 <= q)%Q → (0 <= sqrt_of q)%Q;
  atan2_nonneg : ∀ y x, (0 <= y)%Q → (0 <= math_atan2 y x)%Q;
  asin_nonneg : ∀ q, (0 <= q)%Q → (0 <= asin_of q)%Q
}.

(** Polynomial stand-ins on which the models can be run. *)
Definition demo_math : MathEnv :=
  {| math_sin := fun q => q; math_cos := fun _ => 1%Q;
     math_exp := fun q => (1 / (1 + Qabs q))%Q;
     math_radians := fun q => (q * (314 # 18000))%Q;
     sqrt_of := fun q => (inject_Z (Z.sqrt (Qfloor (q * 1000000000000))) / 1000000)%Q;
     asin_of := fun q => q;
     math_atan2 := fun y x => y |}.

Lemma demo_math_laws : @MathLaws demo_math.
Proof.
  constructor; simpl; [|done|done]. intros q Hq.
  apply Qle_shift_div_l; [lra|]. rewrite Qmult_0_l. change 0%Q with (inject_Z 0).
  rewrite <- Zle_Qle. apply Z.sqrt_nonneg.
Qed.
