(* ===== verification/PyData.v ===== *)
(** Python text and JSON values as the program uses them.

    A [str] is its UTF-8 encoding: the order of UTF-8 byte strings is the
    order of the code points, and the functions below ([py_len], [py_split])
    work on code points.  [json] is the type of the values [json.dumps] and
    [model_dump(mode="json")] handle; [json_dumps_canonical] is
    [json.dumps(_, ensure_ascii=False, sort_keys=True, separators=(",", ":"))].
    The shortest decimal representation of a float is the parameter
    [float_repr] (CPython's [float.__repr__]). *)

From S2P Require Import Prelude.
From Stdlib Require Import ZArith QArith Lia Ascii String.
From stdpp Require Import base tactics option list gmap strings pretty sorting.

Open Scope string_scope.
Open Scope Z_scope.

(** ** Text *)

Definition byte_of (c : ascii) : N := N_of_ascii c.

(** The number of bytes of the white-space code point at the head of [s]
    ([str.isspace]), 0 when it does not start with one. *)
Definition ws_len (s : string) : nat :=
  match s with
  | EmptyString => 0
  | String a s1 =>
      let n := byte_of a in
      if ((9 <=? n)%N && (n <=? 13)%N) || ((28 <=? n)%N && (n <=? 32)%N) then 1
      else match s1 with
      | EmptyString => 0
      | String b s2 =>
          let m := byte_of b in
          if (n =? 194)%N && ((m =? 133)%N || (m =? 160)%N) then 2
          else match s2 with
          | EmptyString => 0
          | String c _ =>
              let p := byte_of c in
              if ((n =? 225)%N && (m =? 154)%N && (p =? 128)%N)
                 || ((n =? 226)%N && (m =? 128)%N &&
                     (((128 <=? p)%N && (p <=? 138)%N) || (p =? 168)%N
                      || (p =? 169)%N || (p =? 175)%N))
                 || ((n =? 226)%N && (m =? 129)%N && (p =? 159)%N)
                 || ((n =? 227)%N && (m =? 128)%N && (p =? 128)%N)
              then 3 else 0
          end
      end
  end%nat.

Definition flush (cur : string) : list string :=
  if String.eqb cur "" then [] else [cur].

Fixpoint py_split_go (skip : nat) (cur s : string) : list string :=
  match s with
  | EmptyString => flush cur
  | String c rest =>
      match skip with
      | S k => py_split_go k cur rest
      | O =>
          match ws_len s with
          | O => py_split_go O (cur ++ String c "") rest
          | S k => (flush cur ++ py_split_go k "" rest)%list
          end
      end
  end.

(** [s.split()] *)
Definition py_split (s : string) : list string := py_split_go 0 "" s.

(** [" ".join(s.split())] *)
Definition squeeze (s : string) : string := String.concat " " (py_split s).

(** [len(s)]: the bytes that are not UTF-8 continuation bytes. *)
Fixpoint py_len (s : string) : Z :=
  match s with
  | EmptyString => 0
  | String c rest =>
      (if ((128 <=? byte_of c)%N && (byte_of c <? 192)%N)%bool then 0 else 1) + py_len rest
  end.

(** [s[:n]], in code points. *)
Fixpoint py_take (n : nat) (s : string) : string :=
  match s with
  | EmptyString => ""
  | String c rest =>
      if ((128 <=? byte_of c)%N && (byte_of c <? 192)%N)%bool then String c (py_take n rest)
      else match n with O => "" | S n => String c (py_take n rest) end
  end.

(** [s.lower()] on the ASCII letters. *)
Fixpoint ascii_lower (s : string) : string :=
  match s with
  | EmptyString => ""
  | String c rest =>
      let n := byte_of c in
      String (if ((65 <=? n)%N && (n <=? 90)%N)%bool then ascii_of_N (n + 32)%N else c)
        (ascii_lower rest)
  end.

(** [sub in s] *)
Definition str_contains (sub s : string) : bool :=
  match String.index 0 sub s with Some _ => true | None => false end.

(** [s[n:]] and [s[:n]] at a byte offset found by [find]. *)
Fixpoint str_drop (n : nat) (s : string) : string :=
  match n, s with
  | O, _ => s
  | S n, String _ rest => str_drop n rest
  | S _, EmptyString => ""
  end.

(** [s.split(sep, 1)[0]] *)
Definition str_before (sep s : string) : string :=
  match String.index 0 sep s with Some i => String.substring 0 i s | None => s end.

(** Only white space. *)
Definition is_blank (s : string) : bool := match py_split s with [] => true | _ => false end.

Fixpoint py_rstrip (s : string) : string :=
  match s with
  | EmptyString => ""
  | String c rest => if is_blank s then "" else String c (py_rstrip rest)
  end.
Fixpoint lstrip_go (skip : nat) (s : string) : string :=
  match s with
  | EmptyString => ""
  | String _ rest =>
      match skip with
      | S k => lstrip_go k rest
      | O => match ws_len s with O => s | S k => lstrip_go k rest end
      end
  end.
(** [s.strip()] *)
Definition py_strip (s : string) : string := py_rstrip (lstrip_go 0 s).

(** [s.lstrip(chars)], the characters given as strings. *)
Fixpoint lstrip_chars (chars : list string) (fuel : nat) (s : string) : string :=
  match fuel with
  | O => s
  | S fuel =>
      match find (fun c => String.prefix c s) chars with
      | Some c => lstrip_chars chars fuel (str_drop (String.length c) s)
      | None => s
      end
  end.

(** ["".join(s.split())] *)
Definition squash (s : string) : string := String.concat "" (py_split s).

(** [int] as [str]. *)
Definition str_of_Z (z : Z) : string := pretty z.

(** [f"{x:.1f}"] of a number that is not negative *)
Definition format_1f (q : Q) : string :=
  let n := py_round (q * 10) in str_of_Z (n / 10) ++ "." ++ str_of_Z (n mod 10).

(** ** JSON *)

Inductive json :=
| JNull
| JBool (b : bool)
| JInt (z : Z)
| JFloat (q : Q)
| JStr (s : string)
| JArr (l : list json)
| JObj (kvs : list (string * json)).

Definition json_opt {A} (f : A → json) (o : option A) : json :=
  match o with Some a => f a | None => JNull end.

Definition jstr_opt : option string → json := json_opt JStr.

(** [d.get(key)] on an object. *)
Fixpoint obj_get (key : string) (kvs : list (string * json)) : option json :=
  match kvs with
  | [] => None
  | (k, v) :: rest => if String.eqb key k then Some v else obj_get key rest
  end.

Definition hex_digit (n : N) : string :=
  String (ascii_of_N (if (n <? 10)%N then 48 + n else 87 + n)%N) "".

(** The escapes of [json.encoder] with [ensure_ascii=False]. *)
Definition escape_char (c : ascii) : string :=
  let n := byte_of c in
  if (n =? 34)%N then String "\"%char (String c "")
  else if (n =? 92)%N then String c (String c "")
  else if (n =? 10)%N then "\n"
  else if (n =? 13)%N then "\r"
  else if (n =? 9)%N then "\t"
  else if (n =? 12)%N then "\f"
  else if (n =? 8)%N then "\b"
  else if (n <? 32)%N then "\u00" ++ hex_digit (N.div n 16) ++ hex_digit (N.modulo n 16)
  else String c "".

Fixpoint escape_string (s : string) : string :=
  match s with
  | EmptyString => ""
  | String c rest => escape_char c ++ escape_string rest
  end.

Definition dquote : string := String (ascii_of_nat 34) "".
Definition json_string (s : string) : string := dquote ++ escape_string s ++ dquote.

(** [sorted] on strings: by code point, which is the order of their UTF-8 bytes. *)
Definition str_le (x y : string) : Prop := String.leb x y = true.
#[export] Instance str_le_dec x y : Decision (str_le x y).
Proof. unfold str_le. apply _. Defined.
Definition sorted_strings (l : list string) : list string := merge_sort str_le l.

Definition key_le {A} (x y : string * A) : Prop := String.leb x.1 y.1 = true.
#[export] Instance key_le_dec {A} (x y : string * A) : Decision (key_le x y).
Proof. unfold key_le. apply _. Defined.

Section Dumps.
Context (float_repr : Q → string).

Fixpoint json_dumps_canonical (v : json) : string :=
  match v with
  | JNull => "null"
  | JBool true => "true"
  | JBool false => "false"
  | JInt z => str_of_Z z
  | JFloat q => float_repr q
  | JStr s => json_string s
  | JArr l => "[" ++ String.concat "," (map json_dumps_canonical l) ++ "]"
  | JObj kvs =>
      "{" ++ String.concat ","
        (map (fun kv => json_string kv.1 ++ ":" ++ kv.2)
           (merge_sort key_le
              (map (fun kv => (kv.1, json_dumps_canonical kv.2)) kvs))) ++ "}"
  end.
End Dumps.

Example json_dumps_example :
  json_dumps_canonical (fun _ => "1.5")
    (JObj [("b", JArr [JInt 1; JNull]); ("a", JStr "x
y"); ("c", JFloat (3 # 2))])
  = "{" ++ dquote ++ "a" ++ dquote ++ ":" ++ dquote ++ "x\ny" ++ dquote ++ ","
    ++ dquote ++ "b" ++ dquote ++ ":[1,null]," ++ dquote ++ "c" ++ dquote ++ ":1.5}".
Proof. vm_compute. reflexivity. Qed.

Example squeeze_example : squeeze "  旅行  key  1 " = "旅行 key 1".
Proof. vm_compute. reflexivity. Qed.

Example py_len_example : py_len "旅行 key" = 6.
Proof. vm_compute. reflexivity. Qed.

Example py_strip_example : py_strip "  公交 出行 " = "公交 出行".
Proof. vm_compute. reflexivity. Qed.

Example lstrip_example : lstrip_chars [" "; ":"; "："] 20 "： : 驾车" = "驾车".
Proof. vm_compute. reflexivity. Qed.
