(* ===== verification/ClockText.v ===== *)
(** Clock texts: [int(text)], the "HH:MM" texts of timelines
    (src/app/scheduling/timeline.py, src/app/plan_content/restaurant_hours.py,
    src/app/constraints/evaluator.py) and the opening ranges found in a text.

    Texts are UTF-8; Python's [int] and the regular expressions also accept
    non-ASCII decimal digits, which no provider of the program writes. *)

From S2P Require Import Prelude PyData.
From Stdlib Require Import ZArith Lia Ascii String.
From stdpp Require Import base tactics option list strings pretty.

Open Scope string_scope.
Open Scope Z_scope.

(** ** [int(text)] *)

Definition digit_of (c : ascii) : option Z :=
  let n := byte_of c in
  if ((48 <=? n)%N && (n <=? 57)%N)%bool then Some (Z.of_N n - 48) else None.

(** Digits, with single underscores between them. *)
Fixpoint digits_value (acc : Z) (after_digit : bool) (s : string) : option Z :=
  match s with
  | EmptyString => if after_digit then Some acc else None
  | String c rest =>
      match digit_of c with
      | Some d => digits_value (10 * acc + d) true rest
      | None =>
          if Ascii.eqb c "_"%char && after_digit then digits_value acc false rest else None
      end
  end.

Definition py_int (s : string) : result exn Z :=
  let text := py_strip s in
  let value :=
    match text with
    | String "-" rest => option_map Z.opp (digits_value 0 false rest)
    | String "+" rest => digits_value 0 false rest
    | _ => digits_value 0 false text
    end in
  match value with
  | Some z => Ok z
  | None => Err (ValueError ("invalid literal for int() with base 10: '" ++ s ++ "'"))
  end.

(** [text.split(":", 1)] as the part before the separator and, if there is
    one, the rest. *)
Definition split_once (sep s : string) : string * option string :=
  match String.index 0 sep s with
  | Some i => (String.substring 0 i s, Some (str_drop (i + String.length sep) s))
  | None => (s, None)
  end.

(** ** Formatting *)

(** [f"{n:02d}"] of a number that is not negative. *)
Definition pad2 (n : Z) : string :=
  if n <? 10 then "0" ++ str_of_Z n else str_of_Z n.

(** [timeline._format_clock], [restaurant_hours.format_clock] *)
Definition format_clock (total_minutes : Z) : string :=
  let m := Z.max 0 total_minutes in
  pad2 (m / 60) ++ ":" ++ pad2 (m mod 60).

(** ** Parsing *)

Definition invalid_clock (value : string) : exn :=
  ValueError ("Invalid clock value: '" ++ value ++ "'").

(** [timeline._parse_clock]: a time of day. *)
Definition parse_day_clock (value : string) : result exn Z :=
  match split_once ":" (py_strip value) with
  | (hour_text, Some minute_text) =>
      if str_contains ":" minute_text then Err (invalid_clock value)
      else
        hour ← py_int hour_text;
        minute ← py_int minute_text;
        if (0 <=? hour) && (hour <=? 23) && (0 <=? minute) && (minute <=? 59)
        then mret (hour * 60 + minute) else Err (invalid_clock value)
  | (_, None) => Err (invalid_clock value)
  end.

(** [restaurant_hours.parse_clock]: hours past midnight are allowed. *)
Definition parse_clock (value : string) : result exn Z :=
  match split_once ":" (py_strip value) with
  | (hour_text, Some minute_text) =>
      hour ← py_int hour_text;
      minute ← py_int minute_text;
      if (hour <? 0) || negb ((0 <=? minute) && (minute <=? 59)) then Err (invalid_clock value)
      else mret (hour * 60 + minute)
  | (_, None) => Err (invalid_clock value)
  end.

(** [constraints.evaluator._timeline_clock]: no check at all; without a
    separator the second part does not exist. *)
Definition timeline_clock (value : string) : result exn Z :=
  match split_once ":" value with
  | (hour_text, Some minute_text) =>
      hour ← py_int hour_text;
      minute ← py_int minute_text;
      mret (hour * 60 + minute)
  | (hour_text, None) =>
      _ ← py_int hour_text;
      Err (IndexError "list index out of range")
  end.

(** ** Opening ranges in a text: [_CLOCK_RANGE.finditer] *)

Definition digit_pair (s : string) : option (Z * string) :=
  match s with
  | String a (String b rest) =>
      match digit_of a, digit_of b with
      | Some x, Some y => Some (10 * x + y, rest)
      | _, _ => None
      end
  | _ => None
  end.

(** [:([0-5]\d)] after an hour. *)
Definition minute_after (h : Z) (rest : string) : option (Z * Z * string) :=
  match rest with
  | String ":" rest =>
      match digit_pair rest with
      | Some (m, rest) => if m <? 60 then Some (h, m, rest) else None
      | None => None
      end
  | _ => None
  end.

(** [([0-2]?\d):([0-5]\d)]: hour, minute and the rest of the text. *)
Definition clock_at (s : string) : option (Z * Z * string) :=
  match digit_pair s with
  | Some (h, rest) => if h <? 30 then minute_after h rest else None
  | None =>
      match s with
      | String a rest => match digit_of a with Some h => minute_after h rest | None => None end
      | EmptyString => None
      end
  end.

Definition range_marks : list string := ["-"; "~"; "～"; "—"; "–"; "至"].

(** One match of the range at the start of the text. *)
Definition clock_range_at (s : string) : option ((Z * Z) * (Z * Z) * string) :=
  match clock_at s with
  | None => None
  | Some (h, m, rest) =>
      let rest := lstrip_go 0 rest in
      match find (fun mark => String.prefix mark rest) range_marks with
      | None => None
      | Some mark =>
          match clock_at (lstrip_go 0 (str_drop (String.length mark) rest)) with
          | Some (h', m', rest) => Some ((h, m), (h', m'), rest)
          | None => None
          end
      end
  end.

(** All matches from the left, none overlapping; the fuel is the length of the
    text, which a step always shortens. *)
Fixpoint clock_ranges (fuel : nat) (s : string) : list ((Z * Z) * (Z * Z)) :=
  match fuel with
  | O => []
  | S fuel =>
      match clock_range_at s with
      | Some (start, stop, rest) => (start, stop) :: clock_ranges fuel rest
      | None => match s with String _ rest => clock_ranges fuel rest | EmptyString => [] end
      end
  end.

Definition find_clock_ranges (s : string) : list ((Z * Z) * (Z * Z)) :=
  clock_ranges (String.length s) s.

Example find_clock_ranges_example :
  find_clock_ranges "周一 09:30 - 17:00，夏季 8:00～29:59 x" = [((9, 30), (17, 0)); ((8, 0), (29, 59))].
Proof. vm_compute. reflexivity. Qed.

(** ** Numbers read back *)

Lemma digits_value_pretty_go (x : N) s :
  (0 < x)%N → digits_value 0 false (pretty_N_go x s) = digits_value (Z.of_N x) true s.
Proof.
  revert s. induction x as [x IH] using (well_founded_induction N.lt_wf_0). intros s Hx.
  rewrite pretty_N_go_step by done.
  assert (Hmod : (x mod 10 < 10)%N) by (apply N.mod_lt; done).
  assert (Hd : digit_of (pretty_N_char (x mod 10)) = Some (Z.of_N (x mod 10))).
  { revert Hmod. generalize (x mod 10)%N. intros d Hd.
    do 10 (destruct d as [|d]; [reflexivity|]; try (exfalso; lia)) || idtac.
    destruct d as [d|d|]; [destruct d as [d|d|]; [destruct d|destruct d|]
                          |destruct d as [d|d|]; [destruct d|destruct d|]|];
      try reflexivity; try (exfalso; lia).
    all: destruct d; try reflexivity; exfalso; lia. }
  assert (Hdiv : (x = 10 * (x / 10) + x mod 10)%N) by (apply N.div_mod; done).
  destruct (decide (x / 10 = 0)%N) as [Hz|Hz].
  - rewrite Hz, pretty_N_go_0. cbn [digits_value]. rewrite Hd. f_equal. lia.
  - rewrite IH; [|apply N.div_lt; lia|lia]. cbn [digits_value]. rewrite Hd. f_equal. lia.
Qed.

Lemma digits_value_str (z : Z) : 0 <= z → digits_value 0 false (str_of_Z z) = Some z.
Proof.
  intros Hz. destruct z as [|x|x]; [reflexivity| |lia].
  change (str_of_Z (Zpos x)) with (pretty (Npos x)). unfold pretty, pretty_N.
  case_decide; [done|]. by rewrite digits_value_pretty_go.
Qed.

(** ASCII texts without white space. *)
Definition plain_char (c : ascii) : bool := ((33 <=? byte_of c)%N && (byte_of c <? 128)%N)%bool.
Fixpoint all_chars (f : ascii → bool) (s : string) : bool :=
  match s with EmptyString => true | String c rest => f c && all_chars f rest end.
Definition is_digit (c : ascii) : bool := match digit_of c with Some _ => true | None => false end.

Lemma append_cons c s t : String c s ++ t = String c (s ++ t).
Proof. reflexivity. Qed.
Lemma append_empty_r s : s ++ "" = s.
Proof. induction s as [|c s IH]; [done|]. by rewrite ?append_cons, IH. Qed.
Lemma append_assoc_str s t u : s ++ (t ++ u) = (s ++ t) ++ u.
Proof. induction s as [|c s IH]; [done|]. by rewrite ?append_cons, IH. Qed.

Lemma all_chars_app f s t : all_chars f (s ++ t) = all_chars f s && all_chars f t.
Proof. induction s as [|c s IH]; [done|]. rewrite append_cons. cbn [all_chars]. by rewrite IH, andb_assoc. Qed.

Lemma all_chars_impl (f g : ascii → bool) s :
  (∀ c, f c = true → g c = true) → all_chars f s = true → all_chars g s = true.
Proof.
  intros Hi. induction s as [|c s IH]; simpl; [done|].
  rewrite !andb_true_iff. intros [H1 H2]. auto.
Qed.

Lemma digit_plain c : is_digit c = true → plain_char c = true.
Proof.
  unfold is_digit, plain_char, digit_of. destruct (_ && _) eqn:E; [|done]. intros _.
  apply andb_true_iff in E as [E1 E2]. apply N.leb_le in E1, E2.
  apply andb_true_iff. split; [apply N.leb_le|apply N.ltb_lt]; lia.
Qed.

Lemma plain_ws_len c s : plain_char c = true → ws_len (String c s) = 0%nat.
Proof.
  unfold plain_char. intros [E1 E2]%andb_true_iff. apply N.leb_le in E1. apply N.ltb_lt in E2.
  unfold ws_len. set (n := byte_of c) in *.
  assert ((n <=? 13)%N = false) as -> by (apply N.leb_gt; lia).
  assert ((n <=? 32)%N = false) as -> by (apply N.leb_gt; lia).
  assert ((n =? 194)%N = false) as -> by (apply N.eqb_neq; lia).
  assert ((n =? 225)%N = false) as -> by (apply N.eqb_neq; lia).
  assert ((n =? 226)%N = false) as -> by (apply N.eqb_neq; lia).
  assert ((n =? 227)%N = false) as -> by (apply N.eqb_neq; lia).
  rewrite !andb_false_r. simpl. destruct s as [|b [|d s]]; reflexivity.
Qed.

Lemma plain_split cur s :
  all_chars plain_char s = true → py_split_go 0 cur s = flush (cur ++ s).
Proof.
  revert cur. induction s as [|c s IH]; intros cur; simpl all_chars.
  - intros _. cbn [py_split_go]. by rewrite append_empty_r.
  - intros [Hc Hs]%andb_true_iff. cbn [py_split_go]. rewrite plain_ws_len, IH by done.
    by rewrite <- append_assoc_str.
Qed.

Lemma plain_strip s : all_chars plain_char s = true → py_strip s = s.
Proof.
  intros Hs. unfold py_strip.
  assert (lstrip_go 0 s = s) as ->.
  { destruct s as [|c s]; [done|]. simpl in Hs. apply andb_true_iff in Hs as [Hc _].
    cbn [lstrip_go]. by rewrite plain_ws_len. }
  induction s as [|c s IH]; [done|]. cbn [py_rstrip]. unfold is_blank, py_split.
  rewrite plain_split by done. cbn [String.append flush String.eqb].
  simpl in Hs. apply andb_true_iff in Hs as [_ Hs]. by rewrite IH.
Qed.

Lemma py_int_digits s z :
  all_chars is_digit s = true → digits_value 0 false s = Some z → py_int s = Ok z.
Proof.
  intros Hd Hz. unfold py_int. rewrite plain_strip by (by eapply all_chars_impl, Hd; apply digit_plain).
  destruct s as [|c s]; [done|]. simpl in Hd. apply andb_true_iff in Hd as [Hc _].
  assert (Hv : match digits_value 0 false (String c s) with
               | Some z => Ok z
               | None => Err (ValueError ("invalid literal for int() with base 10: '" ++ String c s ++ "'"))
               end = Ok z) by (by rewrite Hz).
  destruct c as [[] [] [] [] [] [] [] []]; try discriminate Hc; exact Hv.
Qed.

Lemma pretty_go_digits (x : N) s :
  all_chars is_digit s = true → all_chars is_digit (pretty_N_go x s) = true.
Proof.
  revert s. induction x as [x IH] using (well_founded_induction N.lt_wf_0). intros s Hs.
  destruct (decide (x = 0)%N) as [->|Hx]; [by rewrite pretty_N_go_0|].
  rewrite pretty_N_go_step by lia. apply IH; [apply N.div_lt; lia|].
  simpl. rewrite Hs, andb_true_r. unfold pretty_N_char. by repeat case_match.
Qed.

Lemma str_of_Z_digits z : 0 <= z → all_chars is_digit (str_of_Z z) = true.
Proof.
  intros Hz. destruct z as [|x|x]; [reflexivity| |lia].
  change (str_of_Z (Zpos x)) with (pretty (Npos x)). unfold pretty, pretty_N.
  case_decide; [done|]. by apply pretty_go_digits.
Qed.

Lemma pad2_digits z : 0 <= z → all_chars is_digit (pad2 z) = true.
Proof.
  intros Hz. unfold pad2. destruct (z <? 10); [|by apply str_of_Z_digits].
  cbn. by apply str_of_Z_digits.
Qed.

Lemma py_int_pad2 z : 0 <= z → py_int (pad2 z) = Ok z.
Proof.
  intros Hz. apply py_int_digits; [by apply pad2_digits|].
  pose proof (digits_value_str z Hz) as Hv. unfold pad2. destruct (z <? 10); [|done].
  change ("0" ++ str_of_Z z) with (String "0" (str_of_Z z)).
  cbn [digits_value]. change (digit_of "0") with (Some 0).
  destruct (str_of_Z z) as [|c s]; [done|]. cbn [digits_value] in *.
  destruct (digit_of c); [exact Hv|]. by rewrite andb_false_r in Hv.
Qed.

(** ** Clocks read back *)

Lemma prefix_colon c s : is_digit c = true → String.prefix ":" (String c s) = false.
Proof.
  intros Hc. unfold String.prefix. destruct (ascii_dec ":" c) as [<-|]; [by vm_compute in Hc|done].
Qed.

Lemma index_colon s t :
  all_chars is_digit s = true → String.index 0 ":" (s ++ ":" ++ t) = Some (String.length s).
Proof.
  induction s as [|c s IH]; [intros _; by destruct t|].
  simpl all_chars. intros [Hc Hs]%andb_true_iff.
  change (String c s ++ ":" ++ t) with (String c (s ++ ":" ++ t)).
  cbn [String.index]. rewrite prefix_colon by done. by rewrite IH.
Qed.

Lemma index_colon_none s : all_chars is_digit s = true → String.index 0 ":" s = None.
Proof.
  induction s as [|c s IH]; [done|]. simpl all_chars. intros [Hc Hs]%andb_true_iff.
  cbn [String.index]. rewrite prefix_colon by done. by rewrite IH.
Qed.

Lemma substring_app s t : String.substring 0 (String.length s) (s ++ t) = s.
Proof.
  induction s as [|c s IH]; [by destruct t|]. rewrite append_cons.
  cbn [String.length String.substring]. by rewrite IH.
Qed.

Lemma str_drop_app s t : str_drop (String.length s) (s ++ t) = t.
Proof. induction s as [|c s IH]; [by destruct t|]. exact IH. Qed.

Lemma split_clock s t :
  all_chars is_digit s = true → split_once ":" (s ++ ":" ++ t) = (s, Some t).
Proof.
  intros Hs. unfold split_once. rewrite index_colon by done. rewrite substring_app.
  f_equal. f_equal. replace (s ++ ":" ++ t) with ((s ++ ":") ++ t)
    by (by rewrite <- append_assoc_str).
  replace (String.length s + String.length ":")%nat with (String.length (s ++ ":")).
  - apply str_drop_app.
  - induction s as [|c s IH]; [done|]. simpl in Hs. apply andb_true_iff in Hs as [_ Hs].
    rewrite append_cons. cbn [String.length]. by rewrite IH.
Qed.

Lemma clock_parts m :
  0 <= Z.max 0 m / 60 ∧ 0 <= Z.max 0 m mod 60 < 60
  ∧ Z.max 0 m / 60 * 60 + Z.max 0 m mod 60 = Z.max 0 m.
Proof.
  pose proof (Z.mod_pos_bound (Z.max 0 m) 60 ltac:(lia)).
  pose proof (Z.div_mod (Z.max 0 m) 60 ltac:(lia)).
  pose proof (Z.div_pos (Z.max 0 m) 60 ltac:(lia) ltac:(lia)). lia.
Qed.

Lemma format_clock_split m :
  split_once ":" (format_clock m)
  = (pad2 (Z.max 0 m / 60), Some (pad2 (Z.max 0 m mod 60))).
Proof. apply split_clock, pad2_digits, clock_parts. Qed.

Lemma pad2_plain z : 0 <= z → all_chars plain_char (pad2 z) = true.
Proof. intros Hz. by eapply all_chars_impl, pad2_digits; [apply digit_plain|]. Qed.

Lemma format_clock_strip m : py_strip (format_clock m) = format_clock m.
Proof.
  destruct (clock_parts m) as (H1 & H2 & _).
  apply plain_strip. unfold format_clock. by rewrite !all_chars_app, !pad2_plain by lia.
Qed.

Lemma timeline_clock_format m : timeline_clock (format_clock m) = Ok (Z.max 0 m).
Proof.
  destruct (clock_parts m) as (H1 & H2 & H3). unfold timeline_clock.
  rewrite format_clock_split, !py_int_pad2 by lia. cbn [mbind result_bind mret result_ret]. by rewrite H3.
Qed.

Lemma parse_clock_format m : parse_clock (format_clock m) = Ok (Z.max 0 m).
Proof.
  destruct (clock_parts m) as (H1 & H2 & H3). unfold parse_clock.
  rewrite format_clock_strip, format_clock_split, !py_int_pad2 by lia.
  cbn [mbind result_bind mret result_ret].
  destruct (Z.ltb_spec (Z.max 0 m / 60) 0); [lia|].
  destruct (Z.leb_spec 0 (Z.max 0 m mod 60)); [|lia].
  destruct (Z.leb_spec (Z.max 0 m mod 60) 59); [|lia]. cbn. by rewrite H3.
Qed.

Lemma parse_day_clock_format m : 0 <= m < 1440 → parse_day_clock (format_clock m) = Ok m.
Proof.
  intros Hm. destruct (clock_parts m) as (H1 & H2 & H3). unfold parse_day_clock.
  rewrite format_clock_strip, format_clock_split. unfold str_contains.
  rewrite index_colon_none by (apply pad2_digits; lia).
  rewrite !py_int_pad2 by lia. cbn [mbind result_bind mret result_ret].
  assert (Z.max 0 m / 60 < 24) by (apply Z.div_lt_upper_bound; lia).
  destruct (Z.leb_spec 0 (Z.max 0 m / 60)); [|lia].
  destruct (Z.leb_spec (Z.max 0 m / 60) 23); [|lia].
  destruct (Z.leb_spec 0 (Z.max 0 m mod 60)); [|lia].
  destruct (Z.leb_spec (Z.max 0 m mod 60) 59); [|lia]. cbn. f_equal. lia.
Qed.

(** C33: the clock texts of a timeline are read back exactly by every reader
    of the program, hours past midnight included; the reader of times of day
    accepts precisely the minutes of one day. *)
Theorem clocks_roundtrip m :
  0 <= m →
  timeline_clock (format_clock m) = Ok m
  ∧ parse_clock (format_clock m) = Ok m
  ∧ (parse_day_clock (format_clock m) = Ok m ↔ m < 1440).
Proof.
  intros Hm. rewrite timeline_clock_format, parse_clock_format, Z.max_r by done.
  split_and!; try done. split; [|intros; apply parse_day_clock_format; lia].
  unfold parse_day_clock. rewrite format_clock_strip, format_clock_split. unfold str_contains.
  destruct (clock_parts m) as (H1 & H2 & H3).
  rewrite index_colon_none by (apply pad2_digits; lia).
  rewrite !py_int_pad2 by lia. cbn [mbind result_bind mret result_ret].
  destruct (Z.leb_spec (Z.max 0 m / 60) 23); [lia|]. rewrite andb_false_r. done.
Qed.

(** A dinner that ends at 01:30 of the next day. *)
Lemma clocks_roundtrip_witness :
  format_clock 1530 = "25:30" ∧ parse_clock (format_clock 1530) = Ok 1530.
Proof. split; [vm_compute; reflexivity|]. apply (clocks_roundtrip 1530). lia. Defined.
