(* ===== verification/Calendar.v ===== *)
(** Dates of the proleptic Gregorian calendar: [date.fromisoformat],
    [isoformat] and the arithmetic the validator uses
    (src/app/validation/trip_validator.py).

    [iso_dates_roundtrip] states that a date is read back from its text and that
    the consecutive dates of a trip are what their ordinals say. *)

From S2P Require Import Prelude PyData ClockText.
From Stdlib Require Import ZArith Lia Ascii String.
From stdpp Require Import base tactics option list strings.

Open Scope string_scope.
Open Scope Z_scope.

Record date := mkDate { d_year : Z; d_month : Z; d_day : Z }.
#[export] Instance date_eq_dec : EqDecision date.
Proof. solve_decision. Defined.

Definition is_leap (y : Z) : bool :=
  (y mod 4 =? 0) && (negb (y mod 100 =? 0) || (y mod 400 =? 0)).

Definition days_in_month (y m : Z) : Z :=
  if m =? 2 then (if is_leap y then 29 else 28)
  else if (m =? 4) || (m =? 6) || (m =? 9) || (m =? 11) then 30 else 31.

(** Days of the year before the first of a month. *)
Definition days_before_month (y m : Z) : Z :=
  nth (Z.to_nat m) [0; 0; 31; 59; 90; 120; 151; 181; 212; 243; 273; 304; 334] 0
  + (if (2 <? m) && is_leap y then 1 else 0).

Definition days_before_year (y : Z) : Z :=
  let y := y - 1 in y * 365 + y / 4 - y / 100 + y / 400.

(** [date.toordinal()] *)
Definition ordinal (d : date) : Z :=
  days_before_year (d_year d) + days_before_month (d_year d) (d_month d) + d_day d.

Definition date_ok (d : date) : bool :=
  (1 <=? d_year d) && (d_year d <=? 9999) && (1 <=? d_month d) && (d_month d <=? 12)
  && (1 <=? d_day d) && (d_day d <=? days_in_month (d_year d) (d_month d)).

(** [date + timedelta(days=1)] *)
Definition next_day (d : date) : date :=
  if d_day d <? days_in_month (d_year d) (d_month d) then mkDate (d_year d) (d_month d) (d_day d + 1)
  else if d_month d <? 12 then mkDate (d_year d) (d_month d + 1) 1
  else mkDate (d_year d + 1) 1 1.

Fixpoint add_days (n : nat) (d : date) : date :=
  match n with O => d | S n => next_day (add_days n d) end.

(** ** Texts *)

(** [n] decimal digits at the start of the text. *)
Fixpoint digits (n : nat) (acc : Z) (s : string) : option (Z * string) :=
  match n, s with
  | O, _ => Some (acc, s)
  | S n, String a rest =>
      match digit_of a with Some x => digits n (10 * acc + x) rest | None => None end
  | S _, EmptyString => None
  end.

(** Monday of the first ISO week, as an ordinal; 1 January 0001 is a Monday. *)
Definition iso_week1_monday (year : Z) : Z :=
  let first := days_before_year year + 1 in
  let weekday := (first + 6) mod 7 in
  let monday := first - weekday in
  if 3 <? weekday then monday + 7 else monday.

Definition iso_weeks (year : Z) : Z := (iso_week1_monday (year + 1) - iso_week1_monday year) / 7.

(** The date of an ordinal, searched from the first of January. *)
Definition from_ordinal (year n : Z) : date :=
  if n <? days_before_year year + 1
  then add_days (Z.to_nat (n - (days_before_year (year - 1) + 1))) (mkDate (year - 1) 1 1)
  else add_days (Z.to_nat (n - (days_before_year year + 1))) (mkDate year 1 1).

Definition from_isocalendar (year week day : Z) : option date :=
  if (1 <=? year) && (year <=? 9999) && (1 <=? week) && (week <=? iso_weeks year) && (1 <=? day) && (day <=? 7)
  then
    let d := from_ordinal year (iso_week1_monday year + (week - 1) * 7 + (day - 1)) in
    if date_ok d then Some d else None
  else None.

Definition strip_dash (s : string) : option string :=
  match s with String "-" rest => Some rest | _ => None end.

Definition strip_week (s : string) : option string :=
  match s with String "W" rest => Some rest | _ => None end.

(** [date.fromisoformat] on a text of 7, 8 or 10 bytes: a calendar date or a
    week date, with or without separators. *)
Definition fromisoformat (s : string) : option date :=
  let len := String.length s in
  if negb ((len =? 7) || (len =? 8) || (len =? 10))%nat then None
  else
    '(year, rest) ← digits 4 0 s;
    let separated := match strip_dash rest with Some _ => true | None => false end in
    let rest := default rest (strip_dash rest) in
    match strip_week rest with
    | Some rest =>
        '(week, rest) ← digits 2 0 rest;
        match rest with
        | EmptyString => from_isocalendar year week 1
        | _ =>
            rest ← (if separated then strip_dash rest else Some rest);
            '(day, _) ← digits 1 0 rest;
            from_isocalendar year week day
        end
    | None =>
        '(month, rest) ← digits 2 0 rest;
        rest ← (if separated then strip_dash rest else Some rest);
        '(day, _) ← digits 2 0 rest;
        let d := mkDate year month day in
        if date_ok d then Some d else None
    end.

(** [f"{n:04d}"] of a year *)
Definition pad4 (n : Z) : string :=
  (if n <? 1000 then "0" else "") ++ (if n <? 100 then "0" else "") ++ pad2 n.

(** [date.isoformat()] *)
Definition isoformat (d : date) : string :=
  pad4 (d_year d) ++ "-" ++ pad2 (d_month d) ++ "-" ++ pad2 (d_day d).

Example fromisoformat_examples :
  map fromisoformat ["2024-02-29"; "2025-02-29"; "20250601"; "2025-W01-1"; "2025W53"; "2020-W53"; "2025-6-1"]
  = [Some (mkDate 2024 2 29); None; Some (mkDate 2025 6 1); Some (mkDate 2024 12 30); None;
     Some (mkDate 2020 12 28); None].
Proof. vm_compute. reflexivity. Qed.

(** ** Ordinals *)

Lemma div_step n y : 0 < n → y / n = (y - 1) / n + (if y mod n =? 0 then 1 else 0).
Proof.
  intros Hn. destruct (Z.eqb_spec (y mod n) 0) as [E|E].
  - apply Z.mod_divide in E as [k ->]; [|lia]. rewrite Z.div_mul by lia.
    rewrite <- (Z.div_unique (k * n - 1) n (k - 1) (n - 1)); [ring|lia|ring].
  - rewrite Z.add_0_r.
    apply (Z.div_unique _ _ _ (y mod n - 1)); [pose proof (Z.mod_pos_bound y n Hn); lia|].
    pose proof (Z.div_mod y n ltac:(lia)). lia.
Qed.

Lemma leap_days y : days_before_year (y + 1) = days_before_year y + 365 + (if is_leap y then 1 else 0).
Proof.
  unfold days_before_year, is_leap. replace (y + 1 - 1) with y by lia.
  pose proof (div_step 4 y). pose proof (div_step 100 y). pose proof (div_step 400 y).
  assert (H4 : y mod 100 = 0 → y mod 4 = 0) by (rewrite !Z.mod_divide by lia; intros [k ->]; exists (k * 25); lia).
  assert (H100 : y mod 400 = 0 → y mod 100 = 0) by (rewrite !Z.mod_divide by lia; intros [k ->]; exists (k * 4); lia).
  destruct (Z.eqb_spec (y mod 4) 0), (Z.eqb_spec (y mod 100) 0), (Z.eqb_spec (y mod 400) 0); cbn [negb andb orb]; lia.
Qed.

Lemma month_cases m : 1 <= m <= 12 →
  m = 1 ∨ m = 2 ∨ m = 3 ∨ m = 4 ∨ m = 5 ∨ m = 6 ∨ m = 7 ∨ m = 8 ∨ m = 9 ∨ m = 10 ∨ m = 11 ∨ m = 12.
Proof. lia. Qed.

Ltac months Hm := destruct (month_cases _ Hm) as [->|[->|[->|[->|[->|[->|[->|[->|[->|[->|[->| ->]]]]]]]]]]].

Lemma month_length y m : 1 <= m < 12 → days_before_month y (m + 1) = days_before_month y m + days_in_month y m.
Proof.
  intros Hm. assert (Hm' : 1 <= m <= 12) by lia. revert Hm.
  months Hm'; intros ?; try lia; unfold days_before_month, days_in_month; destruct (is_leap y); simpl; lia.
Qed.

Lemma year_length y : days_before_month y 12 + days_in_month y 12 = 365 + (if is_leap y then 1 else 0).
Proof. unfold days_before_month, days_in_month. destruct (is_leap y); simpl; lia. Qed.

Lemma date_ok_iff d : date_ok d = true ↔
  1 <= d_year d <= 9999 ∧ 1 <= d_month d <= 12 ∧ 1 <= d_day d <= days_in_month (d_year d) (d_month d).
Proof. unfold date_ok. rewrite !andb_true_iff, !Z.leb_le. lia. Qed.

Lemma days_in_month_range y m : 1 <= m <= 12 → 28 <= days_in_month y m <= 31.
Proof. intros Hm. months Hm; unfold days_in_month; destruct (is_leap y); simpl; lia. Qed.

(** The next day is one later. *)
Lemma next_day_ordinal d : date_ok d = true → ordinal (next_day d) = ordinal d + 1.
Proof.
  rewrite date_ok_iff. intros (Hy & Hm & Hd). unfold next_day, ordinal.
  destruct (Z.ltb_spec (d_day d) (days_in_month (d_year d) (d_month d))); cbn [d_year d_month d_day]; [lia|].
  destruct (Z.ltb_spec (d_month d) 12); cbn [d_year d_month d_day].
  - pose proof (month_length (d_year d) (d_month d)). lia.
  - assert (Hm12 : d_month d = 12) by lia. rewrite Hm12 in *. pose proof (year_length (d_year d)) as Hl.
    rewrite leap_days. change (days_before_month (d_year d + 1) 1) with 0. lia.
Qed.

Lemma next_day_ok d : date_ok d = true → d_year (next_day d) <= 9999 → date_ok (next_day d) = true.
Proof.
  rewrite !date_ok_iff. intros (Hy & Hm & Hd). unfold next_day.
  destruct (Z.ltb_spec (d_day d) (days_in_month (d_year d) (d_month d))); cbn [d_year d_month d_day]; [lia|].
  destruct (Z.ltb_spec (d_month d) 12); cbn [d_year d_month d_day]; intros Hn.
  - pose proof (days_in_month_range (d_year d) (d_month d + 1)). lia.
  - split; [lia|]. split; [lia|]. change (days_in_month (d_year d + 1) 1) with 31. lia.
Qed.

Lemma next_day_year d : d_year d <= d_year (next_day d).
Proof. unfold next_day. destruct (_ <? _); cbn; [lia|]. destruct (_ <? _); cbn; lia. Qed.

Lemma add_days_ok n d :
  date_ok d = true → d_year (add_days n d) <= 9999 →
  date_ok (add_days n d) = true ∧ ordinal (add_days n d) = ordinal d + Z.of_nat n.
Proof.
  intros Hd. induction n as [|n IH]; intros Hy; [split; [done|simpl; lia]|]. cbn [add_days] in *.
  destruct IH as [Hok Ho]; [pose proof (next_day_year (add_days n d)); lia|].
  split; [by apply next_day_ok|]. rewrite next_day_ordinal by done. lia.
Qed.

(** Earlier dates have smaller ordinals, and the other way round. *)
Definition date_before (a b : date) : bool :=
  lexZ (d_year a) (d_year b) (lexZ (d_month a) (d_month b) (d_day a <? d_day b)).

Lemma day_of_year y m d : 1 <= m <= 12 → 1 <= d <= days_in_month y m →
  1 <= days_before_month y m + d <= 365 + (if is_leap y then 1 else 0).
Proof. intros Hm. months Hm; unfold days_in_month, days_before_month; destruct (is_leap y); simpl; lia. Qed.

Lemma days_before_year_mono y y' : y < y' → days_before_year (y + 1) <= days_before_year y'.
Proof. intros Hy. unfold days_before_year. Z.to_euclidean_division_equations. lia. Qed.

Lemma days_before_month_mono y m m' : 1 <= m → m < m' → m' <= 12 →
  days_before_month y m + days_in_month y m <= days_before_month y m'.
Proof.
  intros Hm Hlt Hm'. assert (H1 : 1 <= m <= 12) by lia. assert (H2 : 1 <= m' <= 12) by lia.
  revert Hlt. months H1; months H2; intros ?; try lia; unfold days_in_month, days_before_month;
    destruct (is_leap y); simpl; lia.
Qed.

Lemma ordinal_lt a b : date_ok a = true → date_ok b = true → date_before a b = true → ordinal a < ordinal b.
Proof.
  rewrite !date_ok_iff. intros (Hy & Hm & Hd) (Hy' & Hm' & Hd'). unfold date_before, lexZ, ordinal.
  pose proof (day_of_year _ _ _ Hm Hd). pose proof (day_of_year _ _ _ Hm' Hd').
  repeat rewrite ?orb_true_iff, ?andb_true_iff. rewrite !Z.ltb_lt, !Z.eqb_eq. intros [Hlt|[Heq [Hlt|[Heq' Hlt]]]].
  - pose proof (days_before_year_mono _ _ Hlt). rewrite leap_days in *. lia.
  - rewrite Heq in *. pose proof (days_before_month_mono (d_year b) (d_month a) (d_month b)). lia.
  - rewrite Heq, Heq' in *. lia.
Qed.

Lemma date_trichotomy a b : date_before a b = true ∨ a = b ∨ date_before b a = true.
Proof.
  unfold date_before, lexZ. repeat rewrite ?orb_true_iff, ?andb_true_iff. rewrite !Z.ltb_lt, !Z.eqb_eq.
  destruct a as [y m d], b as [y' m' d']; cbn.
  destruct (Z.lt_trichotomy y y') as [?|[->|?]]; [tauto| |tauto].
  destruct (Z.lt_trichotomy m m') as [?|[->|?]]; [tauto| |tauto].
  destruct (Z.lt_trichotomy d d') as [?|[->|?]]; tauto.
Qed.

Lemma ordinal_order a b : date_ok a = true → date_ok b = true →
  (date_before a b = true ↔ ordinal a < ordinal b) ∧ (ordinal a = ordinal b ↔ a = b).
Proof.
  intros Ha Hb. split; split.
  - by apply ordinal_lt.
  - intros Hlt. destruct (date_trichotomy a b) as [?|[->|Hba]]; [done|lia|].
    apply ordinal_lt in Hba; [lia|done|done].
  - intros He. destruct (date_trichotomy a b) as [Hab|[->|Hba]]; [|done|].
    + apply ordinal_lt in Hab; [lia|done|done].
    + apply ordinal_lt in Hba; [lia|done|done].
  - by intros ->.
Qed.

(** ** Reading the text of a date back *)

#[local] Arguments String.append !_ _ /.

Lemma digits_app n acc s z r rest : digits n acc s = Some (z, r) → digits n acc (s ++ rest) = Some (z, r ++ rest).
Proof.
  revert acc s. induction n as [|n IH]; intros acc s; [by intros [= <- <-]|].
  destruct s as [|a s]; [done|]. cbn. destruct (digit_of a); [apply IH|done].
Qed.

Lemma string_length_app s t : String.length (s ++ t) = (String.length s + String.length t)%nat.
Proof. induction s as [|a s IH]; [done|]. cbn. by rewrite IH. Qed.

Definition reads_back (n len : nat) (text : Z → string) : bool :=
  forallb (fun k => let z := Z.of_nat k in
    bool_decide (digits len 0 (text z) = Some (z, "")) && (String.length (text z) =? len)%nat) (seq 1 n).

Lemma reads_back_spec n len text z : reads_back n len text = true → 1 <= z <= Z.of_nat n →
  digits len 0 (text z) = Some (z, "") ∧ String.length (text z) = len.
Proof.
  intros Hf Hz. unfold reads_back in Hf. rewrite forallb_forall in Hf.
  specialize (Hf (Z.to_nat z)). cbv zeta in Hf. rewrite Z2Nat.id in Hf by lia.
  rewrite andb_true_iff, bool_decide_eq_true, Nat.eqb_eq in Hf. apply Hf, List.in_seq. lia.
Qed.

Lemma pad4_reads y : 1 <= y <= 9999 → digits 4 0 (pad4 y) = Some (y, "") ∧ String.length (pad4 y) = 4%nat.
Proof. apply (reads_back_spec (Z.to_nat 9999)). vm_compute. reflexivity. Qed.

Lemma pad2_reads d : 1 <= d <= 99 → digits 2 0 (pad2 d) = Some (d, "") ∧ String.length (pad2 d) = 2%nat.
Proof. apply (reads_back_spec 99). vm_compute. reflexivity. Qed.

Lemma isoformat_length d : date_ok d = true → String.length (isoformat d) = 10%nat.
Proof.
  rewrite date_ok_iff. intros (Hy & Hm & Hd). pose proof (days_in_month_range (d_year d) _ Hm).
  unfold isoformat. rewrite !string_length_app.
  destruct (pad4_reads _ Hy) as [_ ->].
  destruct (pad2_reads (d_month d)) as [_ ->]; [lia|]. by destruct (pad2_reads (d_day d)) as [_ ->]; [lia|].
Qed.

Lemma digits_not_week n acc s r : digits (S n) acc s = Some r → strip_week s = None.
Proof. destruct s as [|a s]; [done|]. by destruct a as [[] [] [] [] [] [] [] []]. Qed.

Lemma fromisoformat_isoformat d : date_ok d = true → fromisoformat (isoformat d) = Some d.
Proof.
  intros Hok. pose proof (isoformat_length d Hok) as Hlen. pose proof Hok as Hr. rewrite date_ok_iff in Hr.
  destruct Hr as (Hy & Hm & Hd). pose proof (days_in_month_range (d_year d) _ Hm).
  unfold fromisoformat. rewrite Hlen. cbn [Nat.eqb orb negb].
  unfold isoformat. destruct (pad4_reads _ Hy) as [Dy _]. rewrite (digits_app _ _ _ _ _ _ Dy).
  destruct (pad2_reads (d_month d)) as [Dm _]; [lia|]. destruct (pad2_reads (d_day d)) as [Dd _]; [lia|].
  cbn [mbind option_bind String.append strip_dash]. cbv zeta. cbn [default id].
  rewrite (digits_not_week 1 0 (pad2 (d_month d) ++ _) _ (digits_app _ _ _ _ _ _ Dm)), (digits_app _ _ _ _ _ _ Dm).
  cbn [mbind option_bind String.append strip_dash]. rewrite Dd. cbn [mbind option_bind]. cbv zeta.
  destruct d as [y m dd]. cbn [d_year d_month d_day] in *. by rewrite Hok.
Qed.

(** A result built behind a chain of binds, matches and a final guard. *)
Ltac bind_cases H :=
  repeat match type of H with
  | context [mbind _ ?x] => destruct x as [?|] eqn:?; cbn [mbind option_bind] in H; [|discriminate]
  | context [match ?x with (_, _) => _ end] => is_var x; destruct x
  end.

Lemma guarded_date_ok e d : (if date_ok e then Some e else None) = Some d → date_ok d = true.
Proof. destruct (date_ok e) eqn:E; [by intros [= <-]|done]. Qed.

Lemma from_isocalendar_ok y w k d : from_isocalendar y w k = Some d → date_ok d = true.
Proof. unfold from_isocalendar. destruct (_ && _); [apply guarded_date_ok|done]. Qed.

Lemma fromisoformat_ok s d : fromisoformat s = Some d → date_ok d = true.
Proof.
  unfold fromisoformat. destruct (negb _); [done|]. cbv zeta. intros H. bind_cases H.
  destruct (strip_week _) as [rest|]; bind_cases H; [|by apply guarded_date_ok in H].
  match type of H with context [match ?x with EmptyString => _ | String _ _ => _ end] => destruct x end;
    bind_cases H; by apply from_isocalendar_ok in H.
Qed.

(** A calendar date read back from its ISO text is that date, every text the reader accepts (calendar or week date) is a real date, and the consecutive days of a trip are real dates one ordinal apart whose order is the order of their ordinals. *)
Theorem iso_dates_roundtrip (d : date) (n : nat) :
  date_ok d = true → d_year (add_days n d) <= 9999 →
  fromisoformat (isoformat d) = Some d
  ∧ (∀ s e, fromisoformat s = Some e → date_ok e = true ∧ fromisoformat (isoformat e) = Some e)
  ∧ date_ok (add_days n d) = true
  ∧ ordinal (add_days n d) = ordinal d + Z.of_nat n
  ∧ (∀ e, date_ok e = true → (date_before d e = true ↔ ordinal d < ordinal e) ∧ (ordinal d = ordinal e ↔ d = e)).
Proof.
  intros Hok Hy. destruct (add_days_ok n d Hok Hy) as [Ha Ho].
  split; [by apply fromisoformat_isoformat|]. split.
  { intros s e He. apply fromisoformat_ok in He. split; [done|by apply fromisoformat_isoformat]. }
  split; [done|]. split; [done|]. intros e He. by apply ordinal_order.
Qed.

Lemma iso_dates_roundtrip_witness :
  date_ok (mkDate 2024 2 27) = true
  ∧ isoformat (mkDate 2024 2 27) = "2024-02-27"
  ∧ add_days 3 (mkDate 2024 2 27) = mkDate 2024 3 1
  ∧ fromisoformat "2024-02-27" = Some (mkDate 2024 2 27)
  ∧ ordinal (add_days 3 (mkDate 2024 2 27)) = ordinal (mkDate 2024 2 27) + 3.
Proof.
  destruct (iso_dates_roundtrip (mkDate 2024 2 27) 3 eq_refl ltac:(vm_compute; congruence)) as (Hr & _ & _ & Ho & _).
  split; [reflexivity|]. split; [reflexivity|]. split; [reflexivity|]. split; [exact Hr|exact Ho].
Defined.
