(* ===== verification/TripSchema.v ===== *)
(** The trip data model (src/app/schemas/trip_schema.py): the request, the
    plan with its days, places, meals and hotels, and their
    [model_dump(mode="json")]. *)

From S2P Require Import Prelude PyData.
From Stdlib Require Import ZArith QArith String.
From stdpp Require Import base tactics option list strings.

Open Scope string_scope.
Open Scope Z_scope.

Record TripRequest := mkTripRequest {
  req_city : string;
  req_start_date : string;
  req_end_date : string;
  req_travel_days : Z;
  req_transportation : string;
  req_accommodation : string;
  req_preferences : list string;
  req_free_text_input : option string
}.

Record Location := mkLocation { longitude : Q; latitude : Q }.

Record Attraction := mkAttraction {
  at_name : string;
  at_address : string;
  at_location : Location;
  at_visit_duration : Z;
  at_description : string;
  at_category : option string;
  at_rating : option Q;
  at_photos : option (list string);
  at_poi_id : option string;
  at_image_url : option string;
  at_ticket_price : Z
}.

Record Meal := mkMeal {
  meal_type : string;
  meal_name : string;
  meal_address : option string;
  meal_location : option Location;
  meal_description : option string;
  meal_estimated_cost : Z;
  meal_poi_id : string;
  meal_rating : option Q;
  meal_telephone : string;
  meal_category : string;
  meal_opening_hours : string;
  meal_source : string;
  meal_planned_start_time : string;
  meal_planned_end_time : string;
  meal_opening_status : string
}.

Record Hotel := mkHotel {
  hotel_name : string;
  hotel_address : string;
  hotel_location : option Location;
  hotel_price_range : string;
  hotel_rating : string;
  hotel_distance : string;
  hotel_type : string;
  hotel_estimated_cost : Z
}.

Record DayPlan := mkDayPlan {
  day_date : string;
  day_index : Z;
  day_description : string;
  day_transportation : string;
  day_accommodation : string;
  day_hotel : option Hotel;
  day_attractions : list Attraction;
  day_meals : list Meal
}.

(** [Union[int, str]] *)
Inductive Temperature := TempInt (z : Z) | TempStr (s : string).

Record WeatherInfo := mkWeatherInfo {
  wi_date : string;
  wi_day_weather : string;
  wi_night_weather : string;
  wi_day_temp : Temperature;
  wi_night_temp : Temperature;
  wi_wind_direction : string;
  wi_wind_power : string
}.

Record Budget := mkBudget {
  total_attractions : Z;
  total_hotels : Z;
  total_meals : Z;
  total_transportation : Z;
  total : Z
}.

Record TripPlan := mkTripPlan {
  plan_city : string;
  plan_start_date : string;
  plan_end_date : string;
  plan_days : list DayPlan;
  plan_weather_info : list WeatherInfo;
  plan_overall_suggestions : string;
  plan_budget : option Budget
}.

#[export] Instance TripRequest_eq_dec : EqDecision TripRequest.
Proof. solve_decision. Defined.
#[export] Instance Location_eq_dec : EqDecision Location.
Proof. solve_decision. Defined.
#[export] Instance Attraction_eq_dec : EqDecision Attraction.
Proof. solve_decision. Defined.
#[export] Instance Meal_eq_dec : EqDecision Meal.
Proof. solve_decision. Defined.
#[export] Instance Hotel_eq_dec : EqDecision Hotel.
Proof. solve_decision. Defined.
#[export] Instance DayPlan_eq_dec : EqDecision DayPlan.
Proof. solve_decision. Defined.
#[export] Instance Temperature_eq_dec : EqDecision Temperature.
Proof. solve_decision. Defined.
#[export] Instance WeatherInfo_eq_dec : EqDecision WeatherInfo.
Proof. solve_decision. Defined.
#[export] Instance Budget_eq_dec : EqDecision Budget.
Proof. solve_decision. Defined.
#[export] Instance TripPlan_eq_dec : EqDecision TripPlan.
Proof. solve_decision. Defined.

(** ** [model_dump(mode="json")] *)

Definition dump_request (r : TripRequest) : json :=
  JObj [("city", JStr (req_city r));
        ("start_date", JStr (req_start_date r));
        ("end_date", JStr (req_end_date r));
        ("travel_days", JInt (req_travel_days r));
        ("transportation", JStr (req_transportation r));
        ("accommodation", JStr (req_accommodation r));
        ("preferences", JArr (map JStr (req_preferences r)));
        ("free_text_input", jstr_opt (req_free_text_input r))].

Definition dump_location (l : Location) : json :=
  JObj [("longitude", JFloat (longitude l)); ("latitude", JFloat (latitude l))].

Definition dump_attraction (a : Attraction) : json :=
  JObj [("name", JStr (at_name a));
        ("address", JStr (at_address a));
        ("location", dump_location (at_location a));
        ("visit_duration", JInt (at_visit_duration a));
        ("description", JStr (at_description a));
        ("category", jstr_opt (at_category a));
        ("rating", json_opt JFloat (at_rating a));
        ("photos", json_opt (fun l => JArr (map JStr l)) (at_photos a));
        ("poi_id", jstr_opt (at_poi_id a));
        ("image_url", jstr_opt (at_image_url a));
        ("ticket_price", JInt (at_ticket_price a))].

Definition dump_meal (m : Meal) : json :=
  JObj [("type", JStr (meal_type m));
        ("name", JStr (meal_name m));
        ("address", jstr_opt (meal_address m));
        ("location", json_opt dump_location (meal_location m));
        ("description", jstr_opt (meal_description m));
        ("estimated_cost", JInt (meal_estimated_cost m));
        ("poi_id", JStr (meal_poi_id m));
        ("rating", json_opt JFloat (meal_rating m));
        ("telephone", JStr (meal_telephone m));
        ("category", JStr (meal_category m));
        ("opening_hours", JStr (meal_opening_hours m));
        ("source", JStr (meal_source m));
        ("planned_start_time", JStr (meal_planned_start_time m));
        ("planned_end_time", JStr (meal_planned_end_time m));
        ("opening_status", JStr (meal_opening_status m))].

Definition dump_hotel (h : Hotel) : json :=
  JObj [("name", JStr (hotel_name h));
        ("address", JStr (hotel_address h));
        ("location", json_opt dump_location (hotel_location h));
        ("price_range", JStr (hotel_price_range h));
        ("rating", JStr (hotel_rating h));
        ("distance", JStr (hotel_distance h));
        ("type", JStr (hotel_type h));
        ("estimated_cost", JInt (hotel_estimated_cost h))].

Definition dump_day (d : DayPlan) : json :=
  JObj [("date", JStr (day_date d));
        ("day_index", JInt (day_index d));
        ("description", JStr (day_description d));
        ("transportation", JStr (day_transportation d));
        ("accommodation", JStr (day_accommodation d));
        ("hotel", json_opt dump_hotel (day_hotel d));
        ("attractions", JArr (map dump_attraction (day_attractions d)));
        ("meals", JArr (map dump_meal (day_meals d)))].

Definition dump_temperature (t : Temperature) : json :=
  match t with TempInt z => JInt z | TempStr s => JStr s end.

Definition dump_weather (w : WeatherInfo) : json :=
  JObj [("date", JStr (wi_date w));
        ("day_weather", JStr (wi_day_weather w));
        ("night_weather", JStr (wi_night_weather w));
        ("day_temp", dump_temperature (wi_day_temp w));
        ("night_temp", dump_temperature (wi_night_temp w));
        ("wind_direction", JStr (wi_wind_direction w));
        ("wind_power", JStr (wi_wind_power w))].

Definition dump_budget (b : Budget) : json :=
  JObj [("total_attractions", JInt (total_attractions b));
        ("total_hotels", JInt (total_hotels b));
        ("total_meals", JInt (total_meals b));
        ("total_transportation", JInt (total_transportation b));
        ("total", JInt (total b))].

Definition dump_plan (p : TripPlan) : json :=
  JObj [("city", JStr (plan_city p));
        ("start_date", JStr (plan_start_date p));
        ("end_date", JStr (plan_end_date p));
        ("days", JArr (map dump_day (plan_days p)));
        ("weather_info", JArr (map dump_weather (plan_weather_info p)));
        ("overall_suggestions", JStr (plan_overall_suggestions p));
        ("budget", json_opt dump_budget (plan_budget p))].
