(* ===== verification/TaskModels.v ===== *)
(** Asynchronous planning tasks (src/app/task_runtime/models.py and
    progress.py): statuses, events, the task snapshot with the field
    constraints pydantic checks when a snapshot is read back, the stage names
    and the progress of each action. *)

From S2P Require Import Prelude PyData TripSchema.
From Stdlib Require Import ZArith QArith Lia Lqa String.
From stdpp Require Import base tactics option list strings.

Open Scope string_scope.
Open Scope Z_scope.

Inductive TaskStatus :=
| Queued | Running | Retrying | Succeeded | Failed | Cancelled | TimedOut.

#[export] Instance TaskStatus_eq_dec : EqDecision TaskStatus.
Proof. solve_decision. Defined.

Inductive TaskEventType :=
| task_queued | task_started | task_recovered
| action_started | action_completed | action_retrying
| cancellation_requested
| task_succeeded | task_failed | task_cancelled | task_timed_out.

#[export] Instance TaskEventType_eq_dec : EqDecision TaskEventType.
Proof. solve_decision. Defined.

Record TaskFailureReport := mkTaskFailureReport {
  fr_code : string;
  fr_message : string;
  fr_stage : string;
  fr_stage_name : string;
  fr_action : option string;
  fr_retryable : bool;
  fr_provider_code : option string;
  fr_provider_message : option string;
  fr_session_id : string;
  fr_current_step : Z;
  fr_max_steps : Z;
  fr_exception_type : string;
  fr_occurred_at : datetime;
  fr_details : list (string * json)
}.

Record TripPlanningTask := mkTask {
  task_id : string;
  session_id : string;
  user_id : option string;
  idempotency_key : string;
  request_fingerprint : string;
  request : TripRequest;
  status : TaskStatus;
  current_stage : string;
  stage_name : string;
  current_action : option string;
  progress_percent : Q;
  current_step : Z;
  max_steps : Z;
  attempt : Z;
  recovery_count : Z;
  message : string;
  cancel_requested : bool;
  worker_id : option string;
  lease_expires_at : option datetime;
  heartbeat_at : option datetime;
  result_session_id : option string;
  failure_report : option TaskFailureReport;
  created_at : datetime;
  started_at : option datetime;
  updated_at : datetime;
  finished_at : option datetime
}.

#[export] Instance task_rebuild : Rebuild TripPlanningTask := fun t =>
  mkTask (task_id t) (session_id t) (user_id t) (idempotency_key t)
    (request_fingerprint t) (request t) (status t) (current_stage t)
    (stage_name t) (current_action t) (progress_percent t) (current_step t)
    (max_steps t) (attempt t) (recovery_count t) (message t)
    (cancel_requested t) (worker_id t) (lease_expires_at t) (heartbeat_at t)
    (result_session_id t) (failure_report t) (created_at t) (started_at t)
    (updated_at t) (finished_at t).

(** [TripPlanningTask.terminal] *)
Definition terminal_status (s : TaskStatus) : bool :=
  match s with
  | Succeeded | Failed | Cancelled | TimedOut => true
  | Queued | Running | Retrying => false
  end.
Definition terminal (t : TripPlanningTask) : bool := terminal_status (status t).

(** The constructor call of [create_task]: everything else has its default. *)
Definition new_task (tid sid key fp : string) (req : TripRequest)
    (uid : option string) (created updated : datetime) : TripPlanningTask :=
  mkTask tid sid uid key fp req Queued "queued" "等待执行" None 0%Q 0 0 0 0
    "任务已进入队列" false None None None None None created None updated None.

(** The [Field] constraints ([ge], [le]) that [model_validate_json] checks. *)
Definition report_fields_ok (r : TaskFailureReport) : bool :=
  (0 <=? fr_current_step r) && (0 <=? fr_max_steps r).

Definition request_fields_ok (r : TripRequest) : bool :=
  (1 <=? req_travel_days r) && (req_travel_days r <=? 30).

Definition percent_ok (q : Q) : bool := Qle_bool 0 q && Qle_bool q 100.

Definition task_fields_ok (t : TripPlanningTask) : bool :=
  percent_ok (progress_percent t)
  && (0 <=? current_step t) && (0 <=? max_steps t)
  && (0 <=? attempt t) && (0 <=? recovery_count t)
  && request_fields_ok (request t)
  && match failure_report t with Some r => report_fields_ok r | None => true end.

Record TripTaskEvent := mkEvent {
  ev_id : Z;
  ev_task_id : string;
  ev_type : TaskEventType;
  ev_stage : string;
  ev_stage_name : string;
  ev_progress_percent : Q;
  ev_current_step : Z;
  ev_message : string;
  ev_data : list (string * json);
  ev_created_at : datetime
}.

Definition event_fields_ok (e : TripTaskEvent) : bool :=
  (1 <=? ev_id e) && percent_ok (ev_progress_percent e) && (0 <=? ev_current_step e).

Definition terminal_event (ty : TaskEventType) : bool :=
  match ty with
  | task_succeeded | task_failed | task_cancelled | task_timed_out => true
  | _ => false
  end.

(** ** Stage names and progress (progress.py) *)

Definition STAGE_NAMES : list (string * string) :=
  [("queued", "等待执行"); ("running", "准备执行");
   ("search_attractions", "景点搜索"); ("get_weather", "天气查询");
   ("search_hotels", "酒店搜索"); ("generate_plan", "行程生成");
   ("estimate_routes", "路线查询"); ("evaluate_commute", "单段通勤评估");
   ("replace_remote_attraction", "过远景点替换");
   ("supplement_attractions", "高德候选补充"); ("optimize_routes", "路线优化");
   ("evaluate_schedule", "时间轴评估"); ("optimize_schedule", "日程优化");
   ("search_restaurants", "餐饮查询");
   ("evaluate_constraints", "可执行性约束评估");
   ("optimize_constraints", "约束冲突优化"); ("refill_attractions", "最低景点保障");
   ("rebuild_plan_content", "行程内容一致性重建"); ("validate_plan", "行程校验");
   ("repair_plan", "行程修复"); ("finish", "完成"); ("cancelled", "已取消");
   ("failed", "执行失败"); ("timed_out", "执行超时")].

Definition ACTION_PROGRESS : list (string * Q) :=
  [("search_attractions", 4%Q); ("get_weather", 10%Q); ("search_hotels", 16%Q);
   ("generate_plan", 27%Q); ("estimate_routes", 40%Q); ("optimize_routes", 49%Q);
   ("evaluate_commute", 54%Q); ("replace_remote_attraction", 57%Q);
   ("supplement_attractions", 58%Q); ("evaluate_schedule", 64%Q);
   ("optimize_schedule", 69%Q); ("search_restaurants", 74%Q);
   ("evaluate_constraints", 81%Q); ("optimize_constraints", 85%Q);
   ("refill_attractions", 87%Q); ("rebuild_plan_content", 90%Q);
   ("validate_plan", 94%Q); ("repair_plan", 91%Q); ("finish", 99%Q)].

Fixpoint dict_get {A} (key : string) (d : list (string * A)) (default : A) : A :=
  match d with
  | [] => default
  | (k, v) :: rest => if String.eqb k key then v else dict_get key rest default
  end.

(** [stage_name(action)] of progress.py *)
Definition stage_name_of (action : string) : string := dict_get action STAGE_NAMES action.

Definition action_progress (action : string) (completed : bool) : Q :=
  let base := dict_get action ACTION_PROGRESS 1%Q in
  if String.eqb action "finish" && completed then 100%Q
  else fmin 99 (base + (if completed then 2 else 0)).

(** ** Lemmas *)

Lemma percent_ok_iff (q : Q) : percent_ok q = true ↔ (0 <= q <= 100)%Q.
Proof. unfold percent_ok. rewrite andb_true_iff, !Qle_bool_iff. done. Qed.

Lemma dict_get_cases {A} (P : A → Prop) key d (default : A) :
  Forall (fun kv => P kv.2) d → P default → P (dict_get key d default).
Proof. induction 1 as [|[k v] d Hv _ IH]; simpl; [done|]. by destruct (String.eqb k key); auto. Qed.

Lemma action_progress_range action completed :
  (1 <= action_progress action completed <= 100)%Q.
Proof.
  unfold action_progress.
  assert (1 <= dict_get action ACTION_PROGRESS 1%Q <= 99)%Q as [H1 H2].
  { apply (dict_get_cases (fun q => 1 <= q <= 99)%Q); [|lra].
    repeat constructor; simpl; lra. }
  destruct (_ && completed); [lra|].
  destruct completed; float_cases.
Qed.
