(* ===== verification/TaskTables.v ===== *)
(** The two tables behind the task queue and the statements both stores
    issue against them (src/app/task_runtime/store.py and
    src/app/persistence/mysql_trip_task_store.py).

    [TaskRow] is a row of [trip_planning_tasks]: its columns and, for
    [task_json], the task snapshot the JSON text decodes to.  [row_user_id] is
    a column of the MySQL table only; the SQLite store leaves it [None] and
    never reads it.  The table is keyed by its primary key [task_id].  Time
    columns are compared as instants: both ISO-8601 text of aware UTC values
    (SQLite) and [DATETIME(6)] (MySQL) order as the instants do. *)

From S2P Require Import Prelude PyData TripSchema TaskModels.
From Stdlib Require Import ZArith QArith Lia String.
From stdpp Require Import base tactics option list gmap strings sorting.

Open Scope string_scope.
Open Scope Z_scope.

Record TaskRow := mkRow {
  row_user_id : option string;
  row_session_id : string;
  row_idempotency_key : string;
  row_request_fingerprint : string;
  row_status : TaskStatus;
  row_cancel_requested : bool;
  row_worker_id : option string;
  row_lease_expires_at : option datetime;
  row_heartbeat_at : option datetime;
  row_task : TripPlanningTask;
  row_created_at : datetime;
  row_updated_at : datetime
}.

#[export] Instance row_rebuild : Rebuild TaskRow := fun r =>
  mkRow (row_user_id r) (row_session_id r) (row_idempotency_key r)
    (row_request_fingerprint r) (row_status r) (row_cancel_requested r)
    (row_worker_id r) (row_lease_expires_at r) (row_heartbeat_at r)
    (row_task r) (row_created_at r) (row_updated_at r).

Record TaskDb := mkDb {
  db_tasks : gmap string TaskRow;
  db_events : list TripTaskEvent;
  db_event_seq : Z
}.

#[export] Instance db_rebuild : Rebuild TaskDb := fun d =>
  mkDb (db_tasks d) (db_events d) (db_event_seq d).

Definition empty_db : TaskDb := mkDb ∅ [] 0.

(** The rows in the order the scan yields them. *)
Definition task_rows (db : TaskDb) : list TaskRow := (map_to_list (db_tasks db)).*2.

(** [_task_from_row]: decoding checks the field constraints. *)
Definition task_from_row (r : TaskRow) : result exn TripPlanningTask :=
  if task_fields_ok (row_task r) then Ok (row_task r) else Err ValidationError.

(** [_save_task]: stamps the task and rewrites its mutable columns. *)
Definition save_columns (t : TripPlanningTask) (r : TaskRow) : TaskRow :=
  r <| row_status := status t |>
    <| row_cancel_requested := cancel_requested t |>
    <| row_worker_id := worker_id t |>
    <| row_lease_expires_at := lease_expires_at t |>
    <| row_heartbeat_at := heartbeat_at t |>
    <| row_task := t |>
    <| row_updated_at := updated_at t |>.

Definition save_task (now : datetime) (t : TripPlanningTask) (db : TaskDb)
    : TripPlanningTask * TaskDb :=
  let t := t <| updated_at := now |> in
  (t, db <| db_tasks := alter (save_columns t) (task_id t) (db_tasks db) |>).

(** [_insert_event]: [event_id] is the next value of the sequence. *)
Definition insert_event (now : datetime) (t : TripPlanningTask) (ty : TaskEventType)
    (msg : string) (data : option (list (string * json))) (db : TaskDb) : Z * TaskDb :=
  let eid := db_event_seq db + 1 in
  let e := mkEvent eid (task_id t) ty (current_stage t) (stage_name t)
             (progress_percent t) (current_step t) msg (default [] data) now in
  (eid, db <| db_events := (db_events db ++ [e])%list |> <| db_event_seq := eid |>).

(** The [INSERT INTO trip_planning_tasks] of [create_task]. *)
Definition row_of_new_task (column_user_id : option string) (t : TripPlanningTask) : TaskRow :=
  mkRow column_user_id (session_id t) (idempotency_key t) (request_fingerprint t)
    (status t) false None None None t (created_at t) (updated_at t).

(** The filter of [list_events]: event rows of a task after an id, in id order. *)
Definition event_id_le (x y : TripTaskEvent) : Prop := ev_id x <= ev_id y.
#[export] Instance event_id_le_dec x y : Decision (event_id_le x y).
Proof. unfold event_id_le. apply _. Defined.

Definition select_events (tid : string) (after limit : Z) (db : TaskDb) : list TripTaskEvent :=
  take (Z.to_nat limit)
    (merge_sort event_id_le
       (filter (fun e => ev_task_id e = tid ∧ after < ev_id e) (db_events db))).

(** The normalisation and the checks of [create_task]'s key. *)
Definition normalize_idempotency_key (key : string) : result exn string :=
  let key := squeeze key in
  if String.eqb key "" then Err (ValueError "Idempotency-Key 不能为空")
  else if 200 <? py_len key then Err (ValueError "Idempotency-Key 长度不能超过 200")
  else Ok key.

(** The update of [record_progress]. *)
Record ProgressUpdate := mkProgressUpdate {
  pu_event_type : TaskEventType;
  pu_stage : string;
  pu_stage_name : string;
  pu_progress_percent : Q;
  pu_current_step : Z;
  pu_max_steps : Z;
  pu_message : string;
  pu_current_action : option string;
  pu_data : option (list (string * json))
}.

Definition apply_progress (pu : ProgressUpdate) (t : TripPlanningTask) : TripPlanningTask :=
  t <| current_stage := pu_stage pu |>
    <| stage_name := pu_stage_name pu |>
    <| current_action := pu_current_action pu |>
    <| progress_percent := fmax (progress_percent t) (fmin 99 (pu_progress_percent pu)) |>
    <| current_step := Z.max (current_step t) (pu_current_step pu) |>
    <| max_steps := Z.max (max_steps t) (pu_max_steps pu) |>
    <| message := pu_message pu |>.

(** The fields [claim_next] sets on the task it takes. *)
Definition apply_claim (wid : string) (now lease : datetime) (t : TripPlanningTask)
    : TripPlanningTask * TaskEventType :=
  let recovering := bool_decide (status t = Running) in
  let t := t <| status := Running |>
             <| worker_id := Some wid |>
             <| lease_expires_at := Some lease |>
             <| heartbeat_at := Some now |>
             <| started_at := Some (default now (started_at t)) |>
             <| attempt := attempt t + 1 |> in
  let '(t, ty) :=
    if recovering
    then (t <| recovery_count := recovery_count t + 1 |>
            <| message := "检测到过期租约，正在从最近检查点恢复" |>, task_recovered)
    else (t <| message := "后台 Worker 已开始执行" |>, task_started) in
  (t <| current_stage := "running" |>
     <| stage_name := "准备执行" |>
     <| progress_percent := fmax (progress_percent t) 1 |>, ty).

(** The lease length [claim_next] and [heartbeat] grant. *)
Definition lease_until (now : datetime) (lease_seconds : Q) : datetime :=
  now + timedelta_seconds (fmax 1 lease_seconds).

(** The fields [heartbeat] renews. *)
Definition apply_heartbeat (now : datetime) (lease_seconds : Q) (t : TripPlanningTask)
    : TripPlanningTask :=
  t <| heartbeat_at := Some now |>
    <| lease_expires_at := Some (lease_until now lease_seconds) |>.

(** The rows [claim_next] may take at [now]. *)
Definition claimable (now : datetime) (r : TaskRow) : bool :=
  negb (row_cancel_requested r) &&
  match row_status r with
  | Queued | Retrying => true
  | Running => match row_lease_expires_at r with
               | Some lease => lease <? now
               | None => false
               end
  | _ => false
  end.

(** [_has_valid_lease] and the inline test of the SQLite store. *)
Definition has_valid_lease (t : TripPlanningTask) (wid : string) (now : datetime) : bool :=
  bool_decide (status t = Running) && bool_decide (worker_id t = Some wid)
  && match lease_expires_at t with Some lease => now <? lease | None => false end.

(** The two branches of [request_cancel] for a task that has not ended: it
    waits for a worker, or one is running it. *)
Definition cancel_waiting (now : datetime) (t : TripPlanningTask) : TripPlanningTask :=
  t <| cancel_requested := true |>
    <| status := Cancelled |>
    <| current_stage := "cancelled" |>
    <| stage_name := "已取消" |>
    <| message := "任务在等待执行时已取消" |>
    <| finished_at := Some now |>
    <| worker_id := None |>
    <| lease_expires_at := None |>.

Definition cancel_running (t : TripPlanningTask) : TripPlanningTask :=
  t <| cancel_requested := true |>
    <| message := "已收到取消请求，正在安全停止当前调用" |>.

(** What the three [mark_*] methods hand to [_mark_terminal]. *)
Record Outcome := mkOutcome {
  oc_status : TaskStatus;
  oc_event_type : TaskEventType;
  oc_stage : string;
  oc_stage_name : string;
  oc_message : string;
  oc_progress_percent : option Q;
  oc_result_session_id : option string;
  oc_failure_report : option TaskFailureReport;
  oc_event_data : option (list (string * json))
}.

Definition outcome_succeeded (sid : string) : Outcome :=
  mkOutcome Succeeded task_succeeded "finish" "完成" "旅行计划生成完成"
    (Some 100%Q) (Some sid) None None.

Definition outcome_cancelled (msg : string) : Outcome :=
  mkOutcome Cancelled task_cancelled "cancelled" "已取消" msg None None None None.

(** [report.model_dump(mode="json")]; [dump_datetime] is pydantic's rendering
    of an aware datetime. *)
Definition dump_failure_report (dump_datetime : datetime → string)
    (r : TaskFailureReport) : json :=
  JObj [("code", JStr (fr_code r)); ("message", JStr (fr_message r));
        ("stage", JStr (fr_stage r)); ("stage_name", JStr (fr_stage_name r));
        ("action", jstr_opt (fr_action r)); ("retryable", JBool (fr_retryable r));
        ("provider_code", jstr_opt (fr_provider_code r));
        ("provider_message", jstr_opt (fr_provider_message r));
        ("session_id", JStr (fr_session_id r));
        ("current_step", JInt (fr_current_step r)); ("max_steps", JInt (fr_max_steps r));
        ("exception_type", JStr (fr_exception_type r));
        ("occurred_at", JStr (dump_datetime (fr_occurred_at r))); ("details", JObj (fr_details r))].

Definition outcome_failed (dump_datetime : datetime → string) (r : TaskFailureReport)
    (timed_out : bool) : Outcome :=
  mkOutcome (if timed_out then TimedOut else Failed)
    (if timed_out then task_timed_out else task_failed)
    (if timed_out then "timed_out" else "failed")
    (if timed_out then "执行超时" else "执行失败")
    (fr_message r) None None (Some r) (Some [("failure_report", dump_failure_report dump_datetime r)]).

Definition apply_outcome (oc : Outcome) (now : datetime) (t : TripPlanningTask)
    : TripPlanningTask :=
  t <| status := oc_status oc |>
    <| current_stage := oc_stage oc |>
    <| stage_name := oc_stage_name oc |>
    <| message := oc_message oc |>
    <| current_action := None |>
    <| progress_percent := default (progress_percent t) (oc_progress_percent oc) |>
    <| result_session_id := oc_result_session_id oc |>
    <| failure_report := oc_failure_report oc |>
    <| finished_at := Some now |>
    <| worker_id := None |>
    <| lease_expires_at := None |>
    <| heartbeat_at := None |>.

(** ** Writes as data, to speak about runs of a store *)

Inductive TaskOp :=
| OpCreate (req : TripRequest) (key : string) (uid : option string) (tid sid : string)
| OpProgress (tid wid : string) (pu : ProgressUpdate)
| OpClaim (locked : string → bool) (wid : string) (lease_seconds : Q)
| OpHeartbeat (tid wid : string) (lease_seconds : Q)
| OpCancel (tid : string) (uid : option string)
| OpSucceed (tid wid sid : string)
| OpMarkCancelled (tid wid msg : string)
| OpFail (tid wid : string) (report : TaskFailureReport) (timed_out : bool).

Inductive TaskResponse :=
| RTask (t : TripPlanningTask)
| RCreated (t : TripPlanningTask) (reused : bool)
| RClaimed (o : option TripPlanningTask)
| RBool (b : bool).

(** Who performs the write: a worker, or [None] for a client. *)
Definition op_actor (op : TaskOp) : option string :=
  match op with
  | OpCreate _ _ _ _ _ | OpCancel _ _ => None
  | OpProgress _ wid _ | OpClaim _ wid _ | OpHeartbeat _ wid _
  | OpSucceed _ wid _ | OpMarkCancelled _ wid _ | OpFail _ wid _ _ => Some wid
  end.

(** What the callers guarantee: requests and reports are validated models, and
    progress is reported for actions only (context.py). *)
Definition op_ok (op : TaskOp) : bool :=
  match op with
  | OpCreate req _ _ _ _ => request_fields_ok req
  | OpProgress _ _ pu =>
      match pu_event_type pu with
      | action_started | action_completed | action_retrying => true
      | _ => false
      end
  | OpFail _ _ report _ => report_fields_ok report
  | _ => true
  end.

Definition respond {A} (f : A → TaskResponse) (r : result exn (A * TaskDb))
    : result exn (TaskResponse * TaskDb) :=
  match r with Ok (a, db) => Ok (f a, db) | Err e => Err e end.
