(* ===== verification/SqliteTaskStore.v ===== *)
(** [SQLiteTripTaskStore] (src/app/task_runtime/store.py).

    Each method is a function of the tables and of the clock readings it
    makes, in order ([clk 0], [clk 1], ...); [uuid4()] results are arguments.
    A method body that raises is rolled back by [_connection]
    ([commit_or_rollback]). *)

From S2P Require Import Prelude PyData TripSchema TaskModels TaskTables.
From Stdlib Require Import ZArith QArith Lia String.
From stdpp Require Import base tactics option list gmap strings sorting.

Open Scope string_scope.
Open Scope Z_scope.

Module Sqlite.
Section Store.
Context (sha256_hex : string → string) (float_repr : Q → string)
  (dump_datetime : datetime → string).

(** [request_fingerprint] *)
Definition request_fingerprint_of (req : TripRequest) : string :=
  sha256_hex (json_dumps_canonical float_repr (dump_request req)).

Definition get_row (tid msg : string) (db : TaskDb) : result exn TaskRow :=
  match db_tasks db !! tid with
  | Some r => Ok r
  | None => Err (TripTaskNotFoundError msg)
  end.

Definition not_found_msg (tid : string) : string := "未找到异步旅行规划任务: " ++ tid.
Definition lease_lost_msg (wid tid : string) : string :=
  "Worker " ++ wid ++ " 已失去任务 " ++ tid ++ " 的有效租约".

Definition create_task (req : TripRequest) (idem : string) (uid : option string)
    (new_task_id new_session_id : string) (clk : clock) (db : TaskDb)
    : result exn (TripPlanningTask * bool * TaskDb) :=
  key ← normalize_idempotency_key idem;
  let fingerprint := request_fingerprint_of req in
  match list_find (fun r => row_idempotency_key r = key) (task_rows db) with
  | Some (_, existing) =>
      if String.eqb (row_request_fingerprint existing) fingerprint
      then task ← task_from_row existing; Ok (task, true, db)
      else Err (TaskIdempotencyConflictError "相同 Idempotency-Key 已用于另一份旅行规划请求")
  | None =>
      match order_limit1 (fun r => - row_created_at r)
              (filter (fun r => row_request_fingerprint r = fingerprint
                                ∧ row_status r ∈ [Queued; Running; Retrying])
                 (task_rows db)) with
      | Some active => task ← task_from_row active; Ok (task, true, db)
      | None =>
          let task := new_task new_task_id new_session_id key fingerprint req uid
                        (clk 0%nat) (clk 1%nat) in
          if bool_decide (is_Some (db_tasks db !! new_task_id))
             || existsb (fun r => String.eqb (row_session_id r) new_session_id)
                  (task_rows db)
          then Err IntegrityError
          else
            let db := db <| db_tasks := <[new_task_id := row_of_new_task None task]>
                                          (db_tasks db) |> in
            let '(_, db) := insert_event (clk 2%nat) task task_queued (message task) None db in
            Ok (task, false, db)
      end
  end.

Definition get_task (tid : string) (uid : option string) (db : TaskDb)
    : result exn TripPlanningTask :=
  row ← get_row tid (not_found_msg tid) db;
  task ← task_from_row row;
  match uid with
  | Some u => if bool_decide (user_id task = Some u) then Ok task
              else Err (TripTaskNotFoundError (not_found_msg tid))
  | None => Ok task
  end.

Definition list_events (tid : string) (after_event_id limit : Z) (db : TaskDb)
    : result exn (list TripTaskEvent) :=
  _ ← get_task tid None db;
  let rows := select_events tid (Z.max 0 after_event_id)
                (Z.max 1 (Z.min limit 1000)) db in
  if forallb event_fields_ok rows then Ok rows else Err ValidationError.

Definition assert_worker_owns_task (tid wid : string) (clk : clock) (db : TaskDb)
    : result exn TripPlanningTask :=
  row ← get_row tid tid db;
  task ← task_from_row row;
  if has_valid_lease task wid (clk 0%nat) then Ok task
  else Err (TaskLeaseLostError (lease_lost_msg wid tid)).

Definition record_progress (tid wid : string) (pu : ProgressUpdate) (clk : clock)
    (db : TaskDb) : result exn (TripPlanningTask * TaskDb) :=
  row ← get_row tid tid db;
  task ← task_from_row row;
  if has_valid_lease task wid (clk 0%nat) then
    let '(task, db) := save_task (clk 1%nat) (apply_progress pu task) db in
    let '(_, db) := insert_event (clk 2%nat) task (pu_event_type pu) (pu_message pu)
                      (pu_data pu) db in
    Ok (task, db)
  else Err (TaskLeaseLostError (lease_lost_msg wid tid)).

(** The conditional [UPDATE] re-tests the row that the [SELECT] of the same
    immediate transaction chose, so exactly one row matches it. *)
Definition claim_next (wid : string) (lease_seconds : Q) (clk : clock) (db : TaskDb)
    : result exn (option TripPlanningTask * TaskDb) :=
  let now := clk 0%nat in
  let lease := lease_until now lease_seconds in
  match order_limit1 row_created_at (filter (fun r => claimable now r = true) (task_rows db)) with
  | None => Ok (None, db)
  | Some row =>
      task ← task_from_row row;
      if match db_tasks db !! task_id task with
         | Some r => claimable now r
         | None => false
         end then
        let db := db <| db_tasks :=
                     alter (fun r => r <| row_worker_id := Some wid |>
                                       <| row_lease_expires_at := Some lease |>
                                       <| row_heartbeat_at := Some now |>)
                       (task_id task) (db_tasks db) |> in
        let '(task, ty) := apply_claim wid now lease task in
        let '(task, db) := save_task (clk 1%nat) task db in
        let '(_, db) := insert_event (clk 2%nat) task ty (message task)
            (Some [("worker_id", JStr wid); ("attempt", JInt (attempt task))]) db in
        Ok (Some task, db)
      else Ok (None, db)
  end.

Definition heartbeat (tid wid : string) (lease_seconds : Q) (clk : clock) (db : TaskDb)
    : result exn (bool * TaskDb) :=
  let now := clk 0%nat in
  match db_tasks db !! tid with
  | Some row =>
      if bool_decide (row_status row = Running ∧ row_worker_id row = Some wid) then
        task ← task_from_row row;
        let '(_, db) := save_task (clk 1%nat) (apply_heartbeat now lease_seconds task) db in
        Ok (true, db)
      else Ok (false, db)
  | None => Ok (false, db)
  end.

Definition is_cancel_requested (tid : string) (db : TaskDb) : result exn bool :=
  row ← get_row tid tid db;
  Ok (row_cancel_requested row || bool_decide (row_status row = Cancelled)).

Definition request_cancel (tid : string) (uid : option string) (clk : clock) (db : TaskDb)
    : result exn (TripPlanningTask * TaskDb) :=
  row ← get_row tid (not_found_msg tid) db;
  task ← task_from_row row;
  if match uid with Some u => negb (bool_decide (user_id task = Some u)) | None => false end
  then Err (TripTaskNotFoundError (not_found_msg tid))
  else if terminal task then Ok (task, db)
  else
    match status task with
    | Queued | Retrying =>
        let task := cancel_waiting (clk 0%nat) task in
        let '(task, db) := save_task (clk 1%nat) task db in
        let '(_, db) := insert_event (clk 2%nat) task task_cancelled (message task) None db in
        Ok (task, db)
    | _ =>
        let task := cancel_running task in
        let '(task, db) := save_task (clk 0%nat) task db in
        let '(_, db) := insert_event (clk 1%nat) task cancellation_requested
                          (message task) None db in
        Ok (task, db)
    end.

Definition mark_terminal (tid wid : string) (oc : Outcome) (clk : clock) (db : TaskDb)
    : result exn (TripPlanningTask * TaskDb) :=
  row ← get_row tid tid db;
  task ← task_from_row row;
  if terminal task then Ok (task, db)
  else if bool_decide (worker_id task = Some wid) then
    let '(task, db) := save_task (clk 1%nat) (apply_outcome oc (clk 0%nat) task) db in
    let '(_, db) := insert_event (clk 2%nat) task (oc_event_type oc) (oc_message oc)
                      (oc_event_data oc) db in
    Ok (task, db)
  else Err (TaskLeaseLostError ("Worker " ++ wid ++ " 已失去任务 " ++ tid ++ " 的租约")).

Definition mark_succeeded (tid wid sid : string) :=
  mark_terminal tid wid (outcome_succeeded sid).
Definition mark_cancelled (tid wid msg : string) :=
  mark_terminal tid wid (outcome_cancelled msg).
Definition mark_failed (tid wid : string) (report : TaskFailureReport) (timed_out : bool) :=
  mark_terminal tid wid (outcome_failed dump_datetime report timed_out).

(** One write, committed or rolled back, and a sequence of writes. *)
Definition perform (op : TaskOp) (clk : clock) (db : TaskDb)
    : result exn (TaskResponse * TaskDb) :=
  match op with
  | OpCreate req key uid tid sid =>
      respond (fun x => RCreated x.1 x.2) (create_task req key uid tid sid clk db)
  | OpProgress tid wid pu => respond RTask (record_progress tid wid pu clk db)
  | OpClaim _ wid lease_seconds => respond RClaimed (claim_next wid lease_seconds clk db)
  | OpHeartbeat tid wid lease_seconds =>
      respond RBool (heartbeat tid wid lease_seconds clk db)
  | OpCancel tid uid => respond RTask (request_cancel tid uid clk db)
  | OpSucceed tid wid sid => respond RTask (mark_succeeded tid wid sid clk db)
  | OpMarkCancelled tid wid msg => respond RTask (mark_cancelled tid wid msg clk db)
  | OpFail tid wid report timed_out =>
      respond RTask (mark_failed tid wid report timed_out clk db)
  end.

Definition exec (op : TaskOp) (clk : clock) : TaskDb → result exn TaskResponse * TaskDb :=
  commit_or_rollback (perform op clk).

Definition run (ops : list (TaskOp * clock)) (db : TaskDb) : TaskDb :=
  foldl (fun db oc => (exec oc.1 oc.2 db).2) db ops.
End Store.
End Sqlite.
