(* ===== verification/MysqlTaskStore.v ===== *)
(** [MySQLTripTaskStore] (src/app/persistence/mysql_trip_task_store.py).

    Same conventions as the SQLite store.  What MySQL itself decides is a
    parameter: [key_eq], the collation [utf8mb4_unicode_ci] on
    [idempotency_key]; [known_user], the rows of [users] the foreign key
    refers to; [locked], the rows other transactions hold when [claim_next]
    skips them.  [GET_LOCK] serialises the creations with the same key or
    fingerprint, so a creation is one atomic step. *)

From S2P Require Import Prelude PyData TripSchema TaskModels TaskTables.
From Stdlib Require Import ZArith QArith Lia String.
From stdpp Require Import base tactics option list gmap strings sorting.

Open Scope string_scope.
Open Scope Z_scope.

Module Mysql.
Section Store.
Context (sha256_hex : string → string) (float_repr : Q → string)
  (dump_datetime : datetime → string)
  (key_eq : string → string → bool) (known_user : string → bool).

(** [request_fingerprint] *)
Definition request_fingerprint_of (req : TripRequest) : string :=
  sha256_hex (json_dumps_canonical float_repr (dump_request req)).

Definition get_row (tid msg : string) (db : TaskDb) : result exn TaskRow :=
  match db_tasks db !! tid with
  | Some r => Ok r
  | None => Err (TripTaskNotFoundError msg)
  end.

(** The lookups that also filter on the [user_id] column when one is given. *)
Definition get_owned_row (tid : string) (uid : option string) (db : TaskDb)
    : result exn TaskRow :=
  let missing := Err (TripTaskNotFoundError ("未找到异步旅行规划任务: " ++ tid)) in
  match db_tasks db !! tid, uid with
  | Some r, None => Ok r
  | Some r, Some u => if bool_decide (row_user_id r = Some u) then Ok r else missing
  | None, _ => missing
  end.

Definition lease_lost {A} (wid tid : string) : result exn A :=
  Err (TaskLeaseLostError ("Worker " ++ wid ++ " 已失去任务 " ++ tid ++ " 的有效租约")).

Definition find_reusable_task (key fingerprint : string) (uid : option string) (db : TaskDb)
    : result exn (option TripPlanningTask) :=
  match filter (fun r => key_eq (row_idempotency_key r) key = true ∧ row_user_id r = uid)
          (task_rows db) with
  | [existing] =>
      if String.eqb (row_request_fingerprint existing) fingerprint
      then task ← task_from_row existing; Ok (Some task)
      else Err (TaskIdempotencyConflictError "相同 Idempotency-Key 已用于另一份旅行规划请求")
  | [] =>
      match order_limit1 (fun r => - row_created_at r)
              (filter (fun r => row_request_fingerprint r = fingerprint ∧ row_user_id r = uid
                                ∧ row_status r ∈ [Queued; Running; Retrying])
                 (task_rows db)) with
      | Some active => task ← task_from_row active; Ok (Some task)
      | None => Ok None
      end
  | _ => Err MultipleResultsFound
  end.

(** The constraints of the table: primary key, unique [session_id], unique
    [(user_id, idempotency_key)] for a non-null user, foreign key to [users]. *)
Definition insert_allowed (t : TripPlanningTask) (db : TaskDb) : bool :=
  negb (bool_decide (is_Some (db_tasks db !! task_id t)))
  && negb (existsb (fun r => String.eqb (row_session_id r) (session_id t)) (task_rows db))
  && match user_id t with
     | None => true
     | Some u =>
         known_user u
         && negb (existsb (fun r => bool_decide (row_user_id r = Some u)
                                    && key_eq (row_idempotency_key r) (idempotency_key t))
                    (task_rows db))
     end.

Definition create_task (req : TripRequest) (idem : string) (uid : option string)
    (new_task_id new_session_id : string) (clk : clock) (db : TaskDb)
    : result exn (TripPlanningTask * bool * TaskDb) :=
  key ← normalize_idempotency_key idem;
  let fingerprint := request_fingerprint_of req in
  found ← find_reusable_task key fingerprint uid db;
  match found with
  | Some existing => Ok (existing, true, db)
  | None =>
      let task := new_task new_task_id new_session_id key fingerprint req uid
                    (clk 0%nat) (clk 1%nat) in
      if insert_allowed task db then
        let db := db <| db_tasks := <[new_task_id := row_of_new_task uid task]>
                                      (db_tasks db) |> in
        let '(_, db) := insert_event (clk 2%nat) task task_queued (message task) None db in
        Ok (task, false, db)
      else
        (* except IntegrityError: the tables are read again after the rollback *)
        again ← find_reusable_task key fingerprint uid db;
        match again with
        | Some existing => Ok (existing, true, db)
        | None => Err IntegrityError
        end
  end.

Definition get_task (tid : string) (uid : option string) (db : TaskDb)
    : result exn TripPlanningTask :=
  row ← get_owned_row tid uid db;
  task_from_row row.

Definition list_events (tid : string) (after_event_id limit : Z) (db : TaskDb)
    : result exn (list TripTaskEvent) :=
  _ ← get_task tid None db;
  let rows := select_events tid (Z.max 0 after_event_id)
                (Z.max 1 (Z.min limit 1000)) db in
  if forallb event_fields_ok rows then Ok rows else Err ValidationError.

Definition assert_worker_owns_task (tid wid : string) (clk : clock) (db : TaskDb)
    : result exn TripPlanningTask :=
  task ← get_task tid None db;
  if has_valid_lease task wid (clk 0%nat) then Ok task else lease_lost wid tid.

Definition record_progress (tid wid : string) (pu : ProgressUpdate) (clk : clock)
    (db : TaskDb) : result exn (TripPlanningTask * TaskDb) :=
  row ← get_row tid tid db;
  task ← task_from_row row;
  if has_valid_lease task wid (clk 0%nat) then
    let '(task, db) := save_task (clk 1%nat) (apply_progress pu task) db in
    let '(_, db) := insert_event (clk 2%nat) task (pu_event_type pu) (pu_message pu)
                      (pu_data pu) db in
    Ok (task, db)
  else lease_lost wid tid.

Definition claim_next (locked : string → bool) (wid : string) (lease_seconds : Q)
    (clk : clock) (db : TaskDb) : result exn (option TripPlanningTask * TaskDb) :=
  let now := clk 0%nat in
  let lease := lease_until now lease_seconds in
  match order_limit1 row_created_at
          (filter (fun r => claimable now r = true ∧ locked (task_id (row_task r)) = false)
             (task_rows db)) with
  | None => Ok (None, db)
  | Some row =>
      task ← task_from_row row;
      let '(task, ty) := apply_claim wid now lease task in
      let '(task, db) := save_task (clk 1%nat) task db in
      let '(_, db) := insert_event (clk 2%nat) task ty (message task)
          (Some [("worker_id", JStr wid); ("attempt", JInt (attempt task))]) db in
      Ok (Some task, db)
  end.

Definition heartbeat (tid wid : string) (lease_seconds : Q) (clk : clock) (db : TaskDb)
    : result exn (bool * TaskDb) :=
  let now := clk 0%nat in
  match db_tasks db !! tid with
  | None => Ok (false, db)
  | Some row =>
      task ← task_from_row row;
      if has_valid_lease task wid (clk 1%nat) then
        let '(_, db) := save_task (clk 2%nat) (apply_heartbeat now lease_seconds task) db in
        Ok (true, db)
      else Ok (false, db)
  end.

Definition is_cancel_requested (tid : string) (db : TaskDb) : result exn bool :=
  row ← get_row tid tid db;
  Ok (row_cancel_requested row || bool_decide (row_status row = Cancelled)).

Definition request_cancel (tid : string) (uid : option string) (clk : clock) (db : TaskDb)
    : result exn (TripPlanningTask * TaskDb) :=
  row ← get_owned_row tid uid db;
  task ← task_from_row row;
  if terminal task then Ok (task, db)
  else
    match status task with
    | Queued | Retrying =>
        let task := (cancel_waiting (clk 0%nat) task) <| heartbeat_at := None |> in
        let '(task, db) := save_task (clk 1%nat) task db in
        let '(_, db) := insert_event (clk 2%nat) task task_cancelled (message task) None db in
        Ok (task, db)
    | _ =>
        let task := cancel_running task in
        let '(task, db) := save_task (clk 0%nat) task db in
        let '(_, db) := insert_event (clk 1%nat) task cancellation_requested
                          (message task) None db in
        Ok (task, db)
    end.

Definition mark_terminal (tid wid : string) (oc : Outcome) (clk : clock) (db : TaskDb)
    : result exn (TripPlanningTask * TaskDb) :=
  row ← get_row tid tid db;
  task ← task_from_row row;
  if terminal task then Ok (task, db)
  else if has_valid_lease task wid (clk 0%nat) then
    let '(task, db) := save_task (clk 2%nat) (apply_outcome oc (clk 1%nat) task) db in
    let '(_, db) := insert_event (clk 3%nat) task (oc_event_type oc) (oc_message oc)
                      (oc_event_data oc) db in
    Ok (task, db)
  else lease_lost wid tid.

Definition mark_succeeded (tid wid sid : string) :=
  mark_terminal tid wid (outcome_succeeded sid).
Definition mark_cancelled (tid wid msg : string) :=
  mark_terminal tid wid (outcome_cancelled msg).
Definition mark_failed (tid wid : string) (report : TaskFailureReport) (timed_out : bool) :=
  mark_terminal tid wid (outcome_failed dump_datetime report timed_out).

(** One write, committed or rolled back, and a sequence of writes. *)
Definition perform (op : TaskOp) (clk : clock) (db : TaskDb)
    : result exn (TaskResponse * TaskDb) :=
  match op with
  | OpCreate req key uid tid sid =>
      respond (fun x => RCreated x.1 x.2) (create_task req key uid tid sid clk db)
  | OpProgress tid wid pu => respond RTask (record_progress tid wid pu clk db)
  | OpClaim locked wid lease_seconds =>
      respond RClaimed (claim_next locked wid lease_seconds clk db)
  | OpHeartbeat tid wid lease_seconds =>
      respond RBool (heartbeat tid wid lease_seconds clk db)
  | OpCancel tid uid => respond RTask (request_cancel tid uid clk db)
  | OpSucceed tid wid sid => respond RTask (mark_succeeded tid wid sid clk db)
  | OpMarkCancelled tid wid msg => respond RTask (mark_cancelled tid wid msg clk db)
  | OpFail tid wid report timed_out =>
      respond RTask (mark_failed tid wid report timed_out clk db)
  end.

Definition exec (op : TaskOp) (clk : clock) : TaskDb → result exn TaskResponse * TaskDb :=
  commit_or_rollback (perform op clk).

Definition run (ops : list (TaskOp * clock)) (db : TaskDb) : TaskDb :=
  foldl (fun db oc => (exec oc.1 oc.2 db).2) db ops.
End Store.
End Mysql.
