(* ===== verification/TaskLifecycle.v ===== *)
(** The abstract specification of the task queue.

    [transition] is the lifecycle of one task, labelled with the worker that
    acts ([None] for a client) and the instant its guard reads; [db_step]
    lifts it to the tables, where every write also appends its event.
    [db_wf] is the invariant of the tables.  Both stores are shown to take
    only [db_step]s (SqliteTaskProofs.v, MysqlTaskProofs.v), so what is proved
    here holds of both. *)

From S2P Require Import Prelude PyData TripSchema TaskModels TaskTables.
From Stdlib Require Import ZArith QArith Lia Lqa String.
From stdpp Require Import base tactics option list gmap strings sorting relations.

Open Scope string_scope.
Open Scope Z_scope.
Open Scope list_scope.

(** ** Lifecycle of one task *)

(** The outcomes the [mark_*] methods pass on. *)
Inductive outcome_ok (dump_datetime : datetime → string) : Outcome → Prop :=
| oc_ok_succeeded sid : outcome_ok dump_datetime (outcome_succeeded sid)
| oc_ok_cancelled msg : outcome_ok dump_datetime (outcome_cancelled msg)
| oc_ok_failed r b :
    report_fields_ok r = true → outcome_ok dump_datetime (outcome_failed dump_datetime r b).

(** A progress report is about an action, never about the task's end. *)
Definition progress_event (ty : TaskEventType) : bool :=
  match ty with action_started | action_completed | action_retrying => true | _ => false end.

Lemma task_fields_ok_iff t :
  task_fields_ok t = true ↔
  (0 <= progress_percent t <= 100)%Q ∧ 0 <= current_step t ∧ 0 <= max_steps t
  ∧ 0 <= attempt t ∧ 0 <= recovery_count t ∧ request_fields_ok (request t) = true
  ∧ match failure_report t with Some r => report_fields_ok r = true | None => True end.
Proof.
  unfold task_fields_ok. rewrite !andb_true_iff, percent_ok_iff, !Z.leb_le.
  destruct (failure_report t); tauto.
Qed.

Lemma has_valid_lease_iff t wid now :
  has_valid_lease t wid now = true ↔
  status t = Running ∧ worker_id t = Some wid ∧
  ∃ lease, lease_expires_at t = Some lease ∧ now < lease.
Proof.
  unfold has_valid_lease. rewrite !andb_true_iff, !bool_decide_eq_true.
  destruct (lease_expires_at t) as [l|]; rewrite ?Z.ltb_lt; naive_solver.
Qed.

(** [apply_claim] without its case analysis. *)
Lemma apply_claim_spec wid now lease t :
  let t' := (apply_claim wid now lease t).1 in
  status t' = Running ∧ worker_id t' = Some wid ∧ lease_expires_at t' = Some lease
  ∧ started_at t' = Some (default now (started_at t)) ∧ attempt t' = attempt t + 1
  ∧ finished_at t' = finished_at t
  ∧ progress_percent t' = fmax (progress_percent t) 1
  ∧ recovery_count t <= recovery_count t' <= recovery_count t + 1
  ∧ current_step t' = current_step t ∧ max_steps t' = max_steps t
  ∧ request t' = request t ∧ failure_report t' = failure_report t
  ∧ task_id t' = task_id t ∧ session_id t' = session_id t
  ∧ idempotency_key t' = idempotency_key t
  ∧ request_fingerprint t' = request_fingerprint t
  ∧ created_at t' = created_at t ∧ user_id t' = user_id t
  ∧ cancel_requested t' = cancel_requested t
  ∧ terminal_event (apply_claim wid now lease t).2 = false.
Proof. unfold apply_claim. case_bool_decide; simpl; repeat split; try done; lia. Qed.

(** [owned] says whether the table has the [user_id] column; [same_slot], on
    the [user_id] column and the key of two rows, that they may not coexist. *)
Section Lifecycle.
Context (dump_datetime : datetime → string) (owned : bool)
  (same_slot : option string * string → option string * string → bool).

Definition slot_of (r : TaskRow) : option string * string :=
  (row_user_id r, row_idempotency_key r).

Inductive transition (actor : option string) (now : datetime)
    : TripPlanningTask → option TaskEventType → TripPlanningTask → Prop :=
| tr_progress t wid pu :
    actor = Some wid → has_valid_lease t wid now = true →
    progress_event (pu_event_type pu) = true →
    transition actor now t (Some (pu_event_type pu)) (apply_progress pu t)
| tr_claim t wid lease :
    actor = Some wid → cancel_requested t = false →
    (status t = Queued ∨ status t = Retrying ∨
     status t = Running ∧ ∃ old, lease_expires_at t = Some old ∧ old < now) →
    transition actor now t (Some (apply_claim wid now lease t).2) (apply_claim wid now lease t).1
| tr_heartbeat t wid lease_seconds :
    actor = Some wid → status t = Running → worker_id t = Some wid →
    transition actor now t None (apply_heartbeat now lease_seconds t)
| tr_cancel_waiting t t' :
    actor = None → status t = Queued ∨ status t = Retrying →
    t' = cancel_waiting now t ∨ t' = (cancel_waiting now t) <| heartbeat_at := None |> →
    transition actor now t (Some task_cancelled) t'
| tr_cancel_running t :
    actor = None → status t = Running →
    transition actor now t (Some cancellation_requested) (cancel_running t)
| tr_end t wid oc at_ :
    actor = Some wid → terminal t = false → worker_id t = Some wid →
    outcome_ok dump_datetime oc →
    transition actor now t (Some (oc_event_type oc)) (apply_outcome oc at_ t).

(** ** Steps of the tables *)

Definition update_db (saved : datetime) (t : TripPlanningTask)
    (ev : option (datetime * TaskEventType * string * option (list (string * json))))
    (db : TaskDb) : TaskDb :=
  let '(t, db) := save_task saved t db in
  match ev with
  | Some (now, ty, msg, data) => (insert_event now t ty msg data db).2
  | None => db
  end.

Definition event_of (ev : option (datetime * TaskEventType * string * option (list (string * json))))
    : option TaskEventType := (fun e => e.1.1.2) <$> ev.

Definition insert_db (now : datetime) (column : option string) (t : TripPlanningTask)
    (db : TaskDb) : TaskDb :=
  (insert_event now t task_queued (message t) None
     (db <| db_tasks := <[task_id t := row_of_new_task column t]> (db_tasks db) |>)).2.

Inductive db_step (actor : option string) (now : datetime) : TaskDb → TaskDb → Prop :=
| ds_same db : db_step actor now db db
| ds_insert db column tid sid key fp req uid created updated at_ :
    actor = None → column = (if owned then uid else None) →
    db_tasks db !! tid = None →
    (∀ k r, db_tasks db !! k = Some r → row_session_id r ≠ sid) →
    (∀ k r, db_tasks db !! k = Some r → same_slot (slot_of r) (column, key) = false) →
    request_fields_ok req = true →
    db_step actor now db
      (insert_db at_ column (new_task tid sid key fp req uid created updated) db)
| ds_update db tid r t saved ev :
    db_tasks db !! tid = Some r →
    transition actor now (row_task r) (event_of ev) t →
    db_step actor now db (update_db saved t ev db).

(** A run of the queue: who acted, and when, at each step. *)
Inductive db_run : list (option string * datetime) → TaskDb → TaskDb → Prop :=
| run_nil db : db_run [] db db
| run_cons actor now lbls db db' db'' :
    db_step actor now db db' → db_run lbls db' db'' →
    db_run ((actor, now) :: lbls) db db''.

Definition db_reachable (db : TaskDb) : Prop := ∃ lbls, db_run lbls empty_db db.

(** ** The invariant *)

Definition lifecycle_ok (t : TripPlanningTask) : Prop :=
  match status t with
  | Queued => worker_id t = None ∧ lease_expires_at t = None ∧ finished_at t = None
              ∧ attempt t = 0 ∧ cancel_requested t = false
  | Running => is_Some (worker_id t) ∧ is_Some (lease_expires_at t) ∧ finished_at t = None
               ∧ is_Some (started_at t) ∧ 1 <= attempt t
  | Retrying => False
  | Succeeded => worker_id t = None ∧ lease_expires_at t = None ∧ is_Some (finished_at t)
                 ∧ is_Some (result_session_id t) ∧ (progress_percent t == 100)%Q
  | Cancelled => worker_id t = None ∧ lease_expires_at t = None ∧ is_Some (finished_at t)
  | Failed | TimedOut => worker_id t = None ∧ lease_expires_at t = None
                         ∧ is_Some (finished_at t) ∧ is_Some (failure_report t)
  end ∧ (status t ≠ Succeeded → (progress_percent t <= 99)%Q)
      ∧ 0 <= recovery_count t <= attempt t.

Record row_wf (tid : string) (r : TaskRow) : Prop := {
  rw_id : task_id (row_task r) = tid;
  rw_session : row_session_id r = session_id (row_task r);
  rw_key : row_idempotency_key r = idempotency_key (row_task r);
  rw_fingerprint : row_request_fingerprint r = request_fingerprint (row_task r);
  rw_status : row_status r = status (row_task r);
  rw_cancel : row_cancel_requested r = cancel_requested (row_task r);
  rw_worker : row_worker_id r = worker_id (row_task r);
  rw_lease : row_lease_expires_at r = lease_expires_at (row_task r);
  rw_created : row_created_at r = created_at (row_task r);
  rw_fields : task_fields_ok (row_task r) = true;
  rw_life : lifecycle_ok (row_task r)
}.

Definition event_types (tid : string) (db : TaskDb) : list TaskEventType :=
  ev_type <$> filter (fun e => ev_task_id e = tid) (db_events db).

Definition final_event (s : TaskStatus) (ty : TaskEventType) : Prop :=
  match s with
  | Succeeded => ty = task_succeeded
  | Failed => ty = task_failed
  | Cancelled => ty = task_cancelled
  | TimedOut => ty = task_timed_out
  | _ => False
  end.

(** What a subscriber sees: the log of a task opens with [task_queued]; its
    terminal event is unique, last, and the one its status calls for. *)
Definition log_ok (s : TaskStatus) (tys : list TaskEventType) : Prop :=
  ∃ l, Forall (fun ty => terminal_event ty = false) l ∧
    if terminal_status s then ∃ ty, final_event s ty ∧ tys = (task_queued :: l) ++ [ty]
    else tys = task_queued :: l.

Record db_wf (db : TaskDb) : Prop := {
  wf_rows : ∀ tid r, db_tasks db !! tid = Some r → row_wf tid r;
  wf_sessions : ∀ i j ri rj, db_tasks db !! i = Some ri → db_tasks db !! j = Some rj →
    row_session_id ri = row_session_id rj → i = j;
  wf_ids : ev_id <$> db_events db = seqZ 1 (db_event_seq db);
  wf_seq : 0 <= db_event_seq db;
  wf_events : Forall (fun e => event_fields_ok e = true
                               ∧ is_Some (db_tasks db !! ev_task_id e)) (db_events db);
  wf_logs : ∀ tid r, db_tasks db !! tid = Some r →
    log_ok (status (row_task r)) (event_types tid db)
}.

(** ** Transitions keep tasks well formed *)

Lemma transition_fields actor now t ty t' :
  transition actor now t ty t' → task_fields_ok t = true → task_fields_ok t' = true.
Proof.
  rewrite !task_fields_ok_iff.
  intros [u wid pu Ha Hl Hp|u wid lease Ha Hc Hs|u wid lease Ha Hs Hw|u u' Ha Hs [-> | ->]|u Ha Hs|u wid oc at_ Ha Ht Hw Hoc]
    (Hq & Hcs & Hm & Hat & Hr & Hreq & Hf); simpl; try tauto.
  - repeat split; try tauto; try lia.
    + pose proof (fmax_l (progress_percent u) (fmin 99 (pu_progress_percent pu))). lra.
    + apply fmax_lub; [lra|]. pose proof (fmin_l 99 (pu_progress_percent pu)). lra.
  - destruct (apply_claim_spec wid now lease u)
      as (_&_&_&_&->&_&->&?&->&->&->&->&_).
    repeat split; try tauto; try lia.
    + pose proof (fmax_l (progress_percent u) 1). lra.
    + apply fmax_lub; lra.
  - destruct Hoc; simpl; repeat split; try tauto; try lia; lra.
Qed.

Lemma transition_lifecycle actor now t ty t' :
  transition actor now t ty t' → lifecycle_ok t → lifecycle_ok t'.
Proof.
  intros [u wid pu Ha Hl Hp|u wid lease Ha Hc Hs|u wid lease Ha Hs Hw|u u' Ha Hs [-> | ->]|u Ha Hs|u wid oc at_ Ha Ht Hw Hoc].
  - apply has_valid_lease_iff in Hl as (Hs & _).
    unfold lifecycle_ok; simpl. rewrite Hs. intros (? & Hp' & ?). repeat split; try tauto.
    intros _. apply fmax_lub; [by apply Hp'|]. apply fmin_l.
  - destruct (apply_claim_spec wid now lease u)
      as (Hs'&Hw'&Hl'&Hst&Hat&Hfin&Hp'&Hrc&_).
    unfold lifecycle_ok. rewrite Hs', Hw', Hl', Hst, Hat, Hfin, Hp'.
    destruct Hs as [->|[->|[-> _]]]; intros (H1 & H2 & H3); [| |];
      repeat split; try done; try tauto; try lia; try (by eexists);
      intros _; apply fmax_lub; try lra; by apply H2.
  - unfold lifecycle_ok; simpl. rewrite Hs, Hw. naive_solver.
  - unfold lifecycle_ok; simpl. destruct Hs as [-> | ->]; naive_solver.
  - unfold lifecycle_ok; simpl. destruct Hs as [-> | ->]; naive_solver.
  - unfold lifecycle_ok; simpl. rewrite Hs. naive_solver.
  - intros (Hst & Hp & Hrc). unfold terminal in Ht.
    assert (Hne : status u ≠ Succeeded) by (intros E; rewrite E in Ht; done).
    specialize (Hp Hne).
    destruct Hoc as [| |r b]; [| |destruct b]; unfold lifecycle_ok; simpl;
      repeat split; try done; try lia; try (by eexists); intros; try done; lra.
Qed.

(** What no transition changes. *)
Lemma transition_identity actor now t ty t' :
  transition actor now t ty t' →
  task_id t' = task_id t ∧ session_id t' = session_id t
  ∧ idempotency_key t' = idempotency_key t
  ∧ request_fingerprint t' = request_fingerprint t ∧ request t' = request t
  ∧ created_at t' = created_at t ∧ user_id t' = user_id t.
Proof.
  destruct 1 as [|u wid lease| |u u' _ _ [-> | ->]| |]; try done.
  destruct (apply_claim_spec wid now lease u)
    as (_&_&_&_&_&_&_&_&_&_&->&_&->&->&->&->&->&->&_). done.
Qed.

Lemma transition_not_terminal actor now t ty t' :
  transition actor now t ty t' → terminal t = false.
Proof.
  unfold terminal.
  destruct 1 as [u wid pu _ Hl _|u wid lease _ _ Hs|u wid lease _ Hs _|u u' _ Hs _|u _ Hs|];
    try done.
  - by apply has_valid_lease_iff in Hl as (-> & _).
  - by destruct Hs as [->|[->|[-> _]]].
  - by rewrite Hs.
  - by destruct Hs as [-> | ->].
  - by rewrite Hs.
Qed.

Lemma transition_log actor now t ty t' tys :
  transition actor now t ty t' → log_ok (status t) tys →
  log_ok (status t') (tys ++ option_list ty).
Proof.
  intros Htr (l & Hl & Htys).
  rewrite (transition_not_terminal _ _ _ _ _ Htr : terminal_status (status t) = false) in Htys.
  subst tys.
  assert (Happ : ∀ e, terminal_event e = false →
            Forall (fun ty => terminal_event ty = false) (l ++ [e])) by (intros; by apply Forall_app_2; [|constructor]).
  destruct Htr as [u wid pu _ Hv Hp|u wid lease _ _ _|u wid lease _ Hs _|u u' _ _ [-> | ->]|u _ Hs|u wid oc at_ _ _ _ Hoc]; simpl.
  - exists (l ++ [pu_event_type pu]). apply has_valid_lease_iff in Hv as (-> & _).
    simpl. split; [|done]. apply Happ. by destruct (pu_event_type pu).
  - destruct (apply_claim_spec wid now lease u)
      as (->&_&_&_&_&_&_&_&_&_&_&_&_&_&_&_&_&_&_&He).
    exists (l ++ [(apply_claim wid now lease u).2]). split; [by apply Happ|done].
  - exists l. rewrite Hs, app_nil_r. done.
  - exists l. split; [done|]. by exists task_cancelled.
  - exists l. split; [done|]. by exists task_cancelled.
  - exists (l ++ [cancellation_requested]). rewrite Hs. split; [by apply Happ|done].
  - exists l. split; [done|].
    destruct Hoc as [| |r b]; [| |destruct b]; simpl; eexists; (split; [|done]); done.
Qed.

(** ** The tables after a step *)

Lemma update_db_tasks saved t ev db :
  db_tasks (update_db saved t ev db)
  = alter (save_columns (t <| updated_at := saved |>)) (task_id t) (db_tasks db).
Proof. destruct ev as [[[[??]?]?]|]; done. Qed.

Lemma update_db_seq saved t ev db :
  db_event_seq (update_db saved t ev db)
  = db_event_seq db + (if ev is Some _ then 1 else 0).
Proof. destruct ev as [[[[??]?]?]|]; simpl; lia. Qed.

Lemma update_db_events saved t ev db :
  ∃ new, db_events (update_db saved t ev db) = db_events db ++ new
    ∧ ev_id <$> new = (if ev is Some _ then [db_event_seq db + 1] else [])
    ∧ ev_type <$> new = option_list (event_of ev)
    ∧ Forall (fun e => ev_task_id e = task_id t
                       ∧ ev_progress_percent e = progress_percent t
                       ∧ ev_current_step e = current_step t) new.
Proof.
  destruct ev as [[[[now ty] msg] data]|]; simpl.
  - eexists. split; [done|]. simpl. repeat split; try done. by constructor.
  - exists []. by rewrite app_nil_r.
Qed.

Lemma event_types_app tid evs evs' t seq seq' :
  event_types tid (mkDb t (evs ++ evs') seq) =
  event_types tid (mkDb t evs seq') ++ (ev_type <$> filter (fun e => ev_task_id e = tid) evs').
Proof. unfold event_types. simpl. by rewrite filter_app, fmap_app. Qed.

(** A step that appends [new], all about [tid], to the log. *)
Lemma event_types_own db db' new tid :
  db_events db' = db_events db ++ new → Forall (fun e => ev_task_id e = tid) new →
  event_types tid db' = event_types tid db ++ (ev_type <$> new).
Proof.
  intros He Hf. unfold event_types. rewrite He, filter_app, fmap_app. by rewrite (filter_all _ new).
Qed.

Lemma event_types_other db db' new tid tid' :
  db_events db' = db_events db ++ new → Forall (fun e => ev_task_id e = tid) new →
  tid ≠ tid' → event_types tid' db' = event_types tid' db.
Proof.
  intros He Hf Hne. unfold event_types. rewrite He, filter_app, fmap_app.
  rewrite (filter_none _ new), app_nil_r; [done|].
  eapply Forall_impl; [done|]. naive_solver.
Qed.

Lemma row_wf_save t saved r tid oty actor now :
  row_wf tid r → transition actor now (row_task r) oty t →
  row_wf tid (save_columns (t <| updated_at := saved |>) r).
Proof.
  intros [] Htr. destruct (transition_identity _ _ _ _ _ Htr) as (?&?&?&?&?&?&?).
  split; simpl; try congruence.
  - by rewrite <- (transition_fields _ _ _ _ _ Htr rw_fields0).
  - apply (transition_lifecycle _ _ _ _ _ Htr rw_life0).
Qed.

Lemma new_task_wf tid sid key fp req uid created updated column :
  request_fields_ok req = true →
  row_wf tid (row_of_new_task column (new_task tid sid key fp req uid created updated)).
Proof.
  intros Hreq. split; try done. unfold task_fields_ok; simpl. by rewrite Hreq.
Qed.

Lemma event_fields_of_task t e :
  task_fields_ok t = true → 1 <= ev_id e → ev_progress_percent e = progress_percent t →
  ev_current_step e = current_step t → event_fields_ok e = true.
Proof.
  rewrite task_fields_ok_iff. intros (?&?&_) ? Hp Hc. unfold event_fields_ok.
  rewrite !andb_true_iff, percent_ok_iff, !Z.leb_le, Hp, Hc. done.
Qed.

Lemma seqZ_snoc n : 0 <= n → seqZ 1 (n + 1) = seqZ 1 n ++ [n + 1].
Proof. intros. rewrite seqZ_app by lia. f_equal. rewrite Z.add_comm. done. Qed.

Lemma db_wf_empty : db_wf empty_db.
Proof. split; try done; simpl; try lia; by constructor. Qed.

Lemma db_wf_insert at_ column tid sid key fp req uid created updated db :
  db_wf db → db_tasks db !! tid = None →
  (∀ k r, db_tasks db !! k = Some r → row_session_id r ≠ sid) →
  request_fields_ok req = true →
  db_wf (insert_db at_ column (new_task tid sid key fp req uid created updated) db).
Proof.
  intros [Hr Hs Hi Hq He Hl] Hfresh Hsid Hreq.
  set (t := new_task _ _ _ _ _ _ _ _).
  pose proof (new_task_wf tid sid key fp req uid created updated column Hreq) as Hrow.
  assert (Hnone : event_types tid db = []).
  { unfold event_types. rewrite filter_none; [done|].
    eapply Forall_impl; [exact He|]. intros e [_ [? ?]] Heq. congruence. }
  split; simpl.
  - intros k r [[<- <-]|[? ?]]%lookup_insert_Some; [done|by apply Hr].
  - intros i j ri rj [[<- <-]|[? Hri]]%lookup_insert_Some [[<- <-]|[? Hrj]]%lookup_insert_Some E.
    + done.
    + simpl in E. by destruct (Hsid _ _ Hrj).
    + simpl in E. by destruct (Hsid _ _ Hri).
    + by eapply Hs.
  - rewrite fmap_app, Hi, seqZ_snoc by done. done.
  - lia.
  - apply Forall_app_2.
    + eapply Forall_impl; [exact He|]. intros e [? ?]. split; [done|].
      rewrite lookup_insert_is_Some'. by right.
    + constructor; [|done]. split; [|simpl; by rewrite lookup_insert_eq].
      apply (event_fields_of_task t); simpl; try done; [apply Hrow|lia].
  - intros k r [[<- <-]|[Hne Hk]]%lookup_insert_Some.
    + erewrite event_types_own with (db := db); [|done|by constructor].
      rewrite Hnone. by exists [].
    + erewrite event_types_other with (db := db); [by apply Hl|done|by constructor|done].
Qed.

Lemma db_wf_update actor now db tid r t saved ev :
  db_wf db → db_tasks db !! tid = Some r →
  transition actor now (row_task r) (event_of ev) t → db_wf (update_db saved t ev db).
Proof.
  intros [Hr Hs Hi Hq He Hl] Hlk Htr.
  pose proof (Hr _ _ Hlk) as Hwf.
  destruct (transition_identity _ _ _ _ _ Htr) as (Hid & Hsess & _).
  rewrite (rw_id _ _ Hwf) in Hid.
  pose proof (row_wf_save t saved r tid _ _ _ Hwf Htr) as Hwf'.
  destruct (update_db_events saved t ev db) as (new & Hev & Hids & Htys & Hnew).
  assert (Hlook : ∀ k r', db_tasks (update_db saved t ev db) !! k = Some r' →
    k = tid ∧ r' = save_columns (t <| updated_at := saved |>) r ∨
    k ≠ tid ∧ db_tasks db !! k = Some r').
  { intros k r'. rewrite update_db_tasks, Hid.
    intros [[<- (r0 & E & ->)]|[? ?]]%lookup_alter_Some; [left|right; auto].
    by simplify_eq. }
  split.
  - intros k r' [[-> ->]|[_ ?]]%Hlook; [done|by apply Hr].
  - intros i j ri rj [[-> ->]|[? Hri]]%Hlook [[-> ->]|[? Hrj]]%Hlook E.
    + done.
    + simpl in E. eapply Hs; eauto.
    + simpl in E. eapply Hs; eauto.
    + by eapply Hs.
  - rewrite Hev, fmap_app, Hi, Hids, update_db_seq. destruct ev; simpl.
    + by rewrite seqZ_snoc.
    + by rewrite app_nil_r, Z.add_0_r.
  - rewrite update_db_seq. destruct ev; simpl; lia.
  - rewrite Hev. apply Forall_app_2.
    + eapply Forall_impl; [exact He|]. intros e [? ?]. split; [done|].
      rewrite update_db_tasks, lookup_alter_is_Some. done.
    + apply Forall_forall. intros e Hin.
      pose proof (proj1 (Forall_forall _ _) Hnew e Hin) as (Ht & Hp & Hc). split.
      * apply (event_fields_of_task t); try done; [by eapply transition_fields, rw_fields|].
        assert (ev_id e ∈ ev_id <$> new) as Hie by (by apply list_elem_of_fmap_2).
        rewrite Hids in Hie. destruct ev; simpl in Hie; set_unfold; [lia|done].
      * rewrite update_db_tasks, lookup_alter_is_Some, Ht, Hid. by eexists.
  - assert (Hown : Forall (fun e => ev_task_id e = tid) new).
    { eapply Forall_impl; [exact Hnew|]. intros e (-> & _). done. }
    intros k r' [[-> ->]|[Hne Hk]]%Hlook.
    + rewrite (event_types_own _ _ _ _ Hev Hown), Htys. simpl.
      eapply transition_log; [exact Htr|]. by apply Hl.
    + rewrite (event_types_other _ _ _ _ _ Hev Hown (not_eq_sym Hne)). by apply Hl.
Qed.

Lemma db_wf_step actor now db db' : db_step actor now db db' → db_wf db → db_wf db'.
Proof. destruct 1; eauto using db_wf_insert, db_wf_update. Qed.

Lemma db_wf_run lbls db db' : db_run lbls db db' → db_wf db → db_wf db'.
Proof. induction 1; eauto using db_wf_step. Qed.

Lemma db_wf_reachable db : db_reachable db → db_wf db.
Proof. intros [lbls H]. eapply db_wf_run; eauto using db_wf_empty. Qed.

(** ** Following one task through a run *)

(** What a step does to a given row: nothing, or one transition. *)
Lemma db_step_row actor now db db' tid r :
  db_step actor now db db' → db_wf db → db_tasks db !! tid = Some r →
  ∃ r', db_tasks db' !! tid = Some r' ∧
    (r' = r ∧ event_types tid db' = event_types tid db ∨
     ∃ ty t saved, transition actor now (row_task r) ty t
       ∧ row_task r' = t <| updated_at := saved |>).
Proof.
  intros Hstep Hwf Hr.
  destruct Hstep as [db|db column tid0 sid key fp req uid created updated at_ _ _ Hfresh _ _ _
                    |db tid0 r0 t saved ev Hr0 Htr].
  - eauto.
  - assert (Hne : tid0 ≠ tid) by (intros Heq; rewrite Heq, Hr in Hfresh; done).
    exists r. split.
    + simpl. by rewrite lookup_insert_ne.
    + left. split; [done|].
      eapply event_types_other; [done|by constructor|exact Hne].
  - pose proof (transition_identity _ _ _ _ _ Htr) as (Hid & _).
    rewrite (rw_id _ _ (wf_rows _ Hwf _ _ Hr0)) in Hid.
    rewrite update_db_tasks, Hid.
    destruct (decide (tid0 = tid)) as [->|Hne].
    + assert (r0 = r) as -> by congruence. rewrite lookup_alter_eq, Hr. eexists. split; [done|].
      right. by exists (event_of ev), t, saved.
    + rewrite lookup_alter_ne by done. exists r. split; [done|]. left. split; [done|].
      destruct (update_db_events saved t ev db) as (new & Hev & _ & _ & Hnew).
      eapply event_types_other; [exact Hev| |exact Hne].
      eapply Forall_impl; [exact Hnew|]. intros e (-> & _). done.
Qed.

(** Induction on runs for a property [P] of one task's snapshot that the
    transitions with labels in [G] preserve. *)
Lemma db_run_task (G : option string → datetime → Prop) (P : TripPlanningTask → Prop)
    lbls db db' tid r :
  (∀ t saved, P t → P (t <| updated_at := saved |>)) →
  (∀ actor now t ty t', G actor now → task_fields_ok t = true → lifecycle_ok t →
     transition actor now t ty t' → P t → P t') →
  db_run lbls db db' → db_wf db → Forall (fun l => G l.1 l.2) lbls →
  db_tasks db !! tid = Some r → P (row_task r) →
  ∃ r', db_tasks db' !! tid = Some r' ∧ P (row_task r').
Proof.
  intros Hup Hstep Hrun. revert r.
  induction Hrun as [db|actor now lbls db db1 db2 Hs Hrun IH]; intros r Hwf HG Hr HP; [by eauto|].
  apply Forall_cons in HG as [HG1 HG2].
  destruct (db_step_row _ _ _ _ _ _ Hs Hwf Hr) as (r1 & Hr1 & Hcase).
  apply (IH r1); [by eapply db_wf_step|done|done|].
  destruct Hcase as [[-> _]|(ty & t & saved & Htr & ->)]; [done|].
  apply Hup. pose proof (wf_rows _ Hwf _ _ Hr) as Hrow.
  eapply Hstep; [exact HG1|apply Hrow..|exact Htr|done].
Qed.

(** A finished task is frozen: neither its row nor its log changes again. *)
Lemma terminal_frozen lbls db db' tid r :
  db_run lbls db db' → db_wf db → db_tasks db !! tid = Some r →
  terminal (row_task r) = true →
  db_tasks db' !! tid = Some r ∧ event_types tid db' = event_types tid db.
Proof.
  induction 1 as [db|actor now lbls db db1 db2 Hs Hrun IH]; intros Hwf Hr Ht; [done|].
  destruct (db_step_row _ _ _ _ _ _ Hs Hwf Hr) as (r1 & Hr1 & Hcase).
  destruct Hcase as [[-> Hev]|(ty & t & saved & Htr & _)].
  - rewrite <- Hev. apply IH; [by eapply db_wf_step|done|done].
  - apply transition_not_terminal in Htr. congruence.
Qed.

(** Held by [w] until [L]. *)
Definition held (w : string) (L : datetime) (t : TripPlanningTask) : Prop :=
  status t = Running ∧ worker_id t = Some w ∧ lease_expires_at t = Some L.

Lemma held_by_others actor now t ty t' w L :
  transition actor now t ty t' → actor ≠ Some w → now <= L → held w L t → held w L t'.
Proof.
  intros Htr Ha Hnow (Hs & Hw & Hl).
  destruct Htr as [u wid pu -> Hv Hp|u wid lease -> _ Hst|u wid lease -> _ Hw' |u u' _ Hst _|u _ _|u wid oc at_ -> _ Hw' _];
    try (by rewrite Hw in Hw'; simplify_eq).
  - done.
  - destruct Hst as [?|[?|[_ (old & Ho & Hlt)]]]; [congruence..|]. simplify_eq. lia.
  - destruct Hst; congruence.
  - done.
Qed.

Lemma lease_exclusive lbls db db' tid r w L :
  db_run lbls db db' → db_wf db →
  Forall (fun l => l.1 ≠ Some w ∧ l.2 <= L) lbls →
  db_tasks db !! tid = Some r → held w L (row_task r) →
  ∃ r', db_tasks db' !! tid = Some r' ∧ held w L (row_task r').
Proof.
  intros. eapply (db_run_task (fun a n => a ≠ Some w ∧ n <= L) (held w L)); try done.
  intros a n t ty t' [? ?] _ _ Htr. by eapply held_by_others.
Qed.

(** A cancelled run whose worker is gone: nobody else ever ends it. *)
Definition orphaned (w : string) (t : TripPlanningTask) : Prop :=
  status t = Running ∧ worker_id t = Some w ∧ cancel_requested t = true.

Lemma orphan_stays lbls db db' tid r w :
  db_run lbls db db' → db_wf db → Forall (fun l => l.1 ≠ Some w) lbls →
  db_tasks db !! tid = Some r → orphaned w (row_task r) →
  ∃ r', db_tasks db' !! tid = Some r' ∧ orphaned w (row_task r').
Proof.
  intros Hrun Hwf HG Hr Ho.
  eapply (db_run_task (fun a _ => a ≠ Some w) (orphaned w)); try done; [].
  intros a n t ty t' Ha _ _ Htr (Hs & Hw & Hc).
  destruct Htr as [u wid pu -> Hv Hp|u wid lease -> ? Hst|u wid lease -> _ Hw' |u u' _ Hst _|u _ _|u wid oc at_ -> _ Hw' _];
    try (by rewrite Hw in Hw'; simplify_eq).
  - done.
  - congruence.
  - destruct Hst; congruence.
  - done.
Qed.

(** The counters and the progress of a task only grow. *)
Definition grows (t t' : TripPlanningTask) : Prop :=
  (progress_percent t <= progress_percent t')%Q ∧ current_step t <= current_step t'
  ∧ max_steps t <= max_steps t' ∧ attempt t <= attempt t'
  ∧ recovery_count t <= recovery_count t'
  ∧ (cancel_requested t = true → cancel_requested t' = true).

Lemma transition_grows actor now t ty t' :
  transition actor now t ty t' → task_fields_ok t = true → grows t t'.
Proof.
  rewrite task_fields_ok_iff. unfold grows.
  intros [u wid pu Ha Hl Hp|u wid lease Ha Hc Hs|u wid lease Ha Hs Hw|u u' Ha Hs [-> | ->]|u Ha Hs|u wid oc at_ Ha Ht Hw Hoc]
    (Hq & _); simpl; try (repeat split; try lia; try done; lra).
  - repeat split; try lia; try done; apply fmax_l.
  - destruct (apply_claim_spec wid now lease u)
      as (_&_&_&_&->&_&->&?&->&->&_&_&_&_&_&_&_&_&->&_).
    repeat split; try lia; try done; apply fmax_l.
  - destruct Hoc; simpl; repeat split; try lia; try lra; done.
Qed.

Lemma run_grows lbls db db' tid r :
  db_run lbls db db' → db_wf db → db_tasks db !! tid = Some r →
  ∃ r', db_tasks db' !! tid = Some r' ∧ grows (row_task r) (row_task r').
Proof.
  intros Hrun Hwf Hr.
  eapply (db_run_task (fun _ _ => True) (grows (row_task r))); try done; [| |].
  - intros a n t ty t' _ Hf _ Htr (?&?&?&?&?&?).
    destruct (transition_grows _ _ _ _ _ Htr Hf) as (?&?&?&?&?&?).
    repeat split; try lia; try tauto; lra.
  - by apply Forall_true.
  - repeat split; try lia; try done; lra.
Qed.

(** With a [user_id] column, it always names the owner of the task. *)
Definition owner_columns (db : TaskDb) : Prop :=
  ∀ tid r, db_tasks db !! tid = Some r → row_user_id r = user_id (row_task r).

Lemma owner_columns_step actor now db db' :
  owned = true → db_step actor now db db' → db_wf db → owner_columns db → owner_columns db'.
Proof.
  intros Ho Hs Hwf Hown.
  destruct Hs as [db|db column tid0 sid key fp req uid created updated at_ _ Hcol _ _ _ _
                 |db tid0 r0 t saved ev Hr0 Htr]; [done|..]; intros tid r.
  - simpl. intros [[<- <-]|[? ?]]%lookup_insert_Some; [|by eapply Hown].
    simpl. by rewrite Hcol, Ho.
  - pose proof (transition_identity _ _ _ _ _ Htr) as (Hid & _ & _ & _ & _ & _ & Hu).
    rewrite update_db_tasks. intros [[<- (r1 & E & ->)]|[? ?]]%lookup_alter_Some; [|by eapply Hown].
    rewrite Hid, (rw_id _ _ (wf_rows _ Hwf _ _ Hr0)), Hr0 in E. injection E as <-.
    simpl. rewrite Hu. by eapply Hown.
Qed.

Lemma owner_columns_run lbls db db' :
  owned = true → db_run lbls db db' → db_wf db → owner_columns db → owner_columns db'.
Proof.
  induction 2 as [|actor now lbls db db1 db2 Hs _ IH]; [done|].
  intros Hwf Hown. apply IH; [by eapply db_wf_step|by eapply owner_columns_step].
Qed.

(** Rows never collide on their slot. *)
Definition slots_unique (db : TaskDb) : Prop :=
  ∀ i j ri rj, db_tasks db !! i = Some ri → db_tasks db !! j = Some rj → i ≠ j →
    same_slot (slot_of ri) (slot_of rj) = false ∨ same_slot (slot_of rj) (slot_of ri) = false.

Lemma slots_unique_step actor now db db' :
  db_step actor now db db' → db_wf db → slots_unique db → slots_unique db'.
Proof.
  intros Hs Hwf Hu.
  destruct Hs as [db|db column tid0 sid key fp req uid created updated at_ _ _ Hfresh _ Hslot _
                 |db tid0 r0 t saved ev Hr0 Htr]; [done|..].
  - intros i j ri rj. simpl.
    intros [[<- <-]|[? Hi]]%lookup_insert_Some [[<- <-]|[? Hj]]%lookup_insert_Some Hne.
    + done.
    + right. by apply (Hslot _ _ Hj).
    + left. by apply (Hslot _ _ Hi).
    + by eapply Hu.
  - assert (Hlook : ∀ k r, db_tasks (update_db saved t ev db) !! k = Some r →
              ∃ r1, db_tasks db !! k = Some r1 ∧ slot_of r = slot_of r1).
    { intros k r. rewrite update_db_tasks.
      intros [[<- (r1 & E & ->)]|[? ?]]%lookup_alter_Some; eauto. }
    intros i j ri rj (ri1 & Hi & ->)%Hlook (rj1 & Hj & ->)%Hlook. by apply Hu.
Qed.

Lemma slots_unique_run lbls db db' :
  db_run lbls db db' → db_wf db → slots_unique db → slots_unique db'.
Proof.
  induction 1 as [|actor now lbls db db1 db2 Hs _ IH]; [done|].
  intros Hwf Hu. apply IH; [by eapply db_wf_step|by eapply slots_unique_step].
Qed.

(** What identifies a task never changes. *)
Definition same_identity (t t' : TripPlanningTask) : Prop :=
  task_id t' = task_id t ∧ idempotency_key t' = idempotency_key t
  ∧ request_fingerprint t' = request_fingerprint t ∧ user_id t' = user_id t
  ∧ session_id t' = session_id t ∧ request t' = request t.

Lemma run_identity lbls db db' tid r :
  db_run lbls db db' → db_wf db → db_tasks db !! tid = Some r →
  ∃ r', db_tasks db' !! tid = Some r' ∧ same_identity (row_task r) (row_task r').
Proof.
  intros Hrun Hwf Hr.
  eapply (db_run_task (fun _ _ => True) (same_identity (row_task r))); try done; [|].
  - intros a n t ty t' _ _ _ Htr (?&?&?&?&?&?).
    destruct (transition_identity _ _ _ _ _ Htr) as (?&?&?&?&?&?&?).
    unfold same_identity. repeat split; congruence.
  - by apply Forall_true.
Qed.
End Lifecycle.

(** ** Shared by the two stores *)

Lemma task_rows_elem db r : r ∈ task_rows db ↔ ∃ tid, db_tasks db !! tid = Some r.
Proof.
  unfold task_rows. rewrite list_elem_of_fmap. split.
  - intros ([k x] & -> & Hin). apply elem_of_map_to_list in Hin. by exists k.
  - intros [k Hk]. exists (k, r). split; [done|]. by apply elem_of_map_to_list.
Qed.

Lemma task_from_row_wf tid r : row_wf tid r → task_from_row r = Ok (row_task r).
Proof. intros Hw. unfold task_from_row. by rewrite (rw_fields _ _ Hw). Qed.

(** The columns the claim query tests say what the lifecycle requires. *)
Lemma claimable_guard now tid r :
  row_wf tid r → claimable now r = true →
  cancel_requested (row_task r) = false ∧
  (status (row_task r) = Queued ∨ status (row_task r) = Retrying ∨
   status (row_task r) = Running ∧
     ∃ old, lease_expires_at (row_task r) = Some old ∧ old < now).
Proof.
  intros Hrow. unfold claimable.
  rewrite (rw_cancel _ _ Hrow), (rw_status _ _ Hrow), (rw_lease _ _ Hrow).
  rewrite andb_true_iff, negb_true_iff. intros [-> Hs]. split; [done|].
  destruct (status (row_task r)); try done; [by left| |by right; left].
  destruct (lease_expires_at (row_task r)) as [old|]; [|done].
  apply Z.ltb_lt in Hs. naive_solver.
Qed.

Lemma respond_Ok {A} (f : A → TaskResponse) m x db :
  respond f m = Ok (x, db) → ∃ a, m = Ok (a, db) ∧ x = f a.
Proof. destruct m as [[a d]|e]; simpl; [|done]. intros [= <- <-]. eauto. Qed.

(** The label of a write in the abstract run. *)
Definition op_label (oc : TaskOp * clock) : option string * datetime :=
  (op_actor oc.1, oc.2 0%nat).
