(* ===== verification/SqliteTaskProofs.v ===== *)
(** The SQLite store refines the abstract task queue. *)

From S2P Require Import Prelude PyData TripSchema TaskModels TaskTables SqliteTaskStore TaskLifecycle.
From Stdlib Require Import ZArith QArith Lia Lqa String.
From stdpp Require Import base tactics option list gmap strings sorting relations.

Open Scope string_scope.
Open Scope Z_scope.
Open Scope list_scope.

Import Sqlite.

(** Saving over columns that an [UPDATE] of the same transaction already set. *)
Lemma alter_save_alter t g m k :
  (∀ r, save_columns t (g r) = save_columns t r) →
  alter (save_columns t) k (alter g k m) = alter (save_columns t) k (m : gmap string TaskRow).
Proof.
  intros H. rewrite alter_alter_eq. apply alter_ext. intros r _. apply H.
Qed.

Section Refinement.
Context (sha256_hex : string → string) (float_repr : Q → string)
  (dump_datetime : datetime → string).

(** The idempotency key is unique in the whole table. *)
Definition same_slot (x y : option string * string) : bool := String.eqb x.2 y.2.

Notation step := (db_step dump_datetime false same_slot).

Lemma sqlite_get_row_Ok tid msg db r : get_row tid msg db = Ok r ↔ db_tasks db !! tid = Some r.
Proof. unfold get_row. destruct (db_tasks db !! tid); naive_solver. Qed.

Lemma sqlite_create_task_step req key uid tid sid clk db t b db' :
  request_fields_ok req = true →
  create_task sha256_hex float_repr req key uid tid sid clk db = Ok (t, b, db') →
  step None (clk 0%nat) db db'.
Proof.
  intros Hreq. unfold create_task.
  destruct (normalize_idempotency_key key) as [k|]; simpl; [|done].
  destruct (list_find _ _) as [[i r]|] eqn:Hkey.
  { destruct (String.eqb _ _); [|done].
    destruct (task_from_row r); simpl; intros; simplify_eq. apply ds_same. }
  destruct (order_limit1 _ _) as [r|].
  { destruct (task_from_row r); simpl; intros; simplify_eq. apply ds_same. }
  destruct (_ || _) eqn:E; [done|]. intros [= <- <- <-].
  apply orb_false_iff in E as [Hf Hs]. apply bool_decide_eq_false, eq_None_not_Some in Hf.
  eapply (ds_insert _ _ _ _ _ _ None tid sid); try done; [|].
  - intros j r Hj E. rewrite <- not_true_iff_false, existsb_exists in Hs.
    apply Hs. exists r. split; [|by apply String.eqb_eq].
    apply list_elem_of_In, task_rows_elem. eauto.
  - intros j r Hj. apply list_find_None in Hkey. rewrite Forall_forall in Hkey.
    unfold same_slot; simpl. apply String.eqb_neq, Hkey, task_rows_elem. eauto.
Qed.

Lemma sqlite_record_progress_step tid wid pu clk db t db' :
  progress_event (pu_event_type pu) = true →
  record_progress tid wid pu clk db = Ok (t, db') →
  db_wf db → step (Some wid) (clk 0%nat) db db'.
Proof.
  intros Hpu H Hwf. revert H. unfold record_progress.
  destruct (get_row tid tid db) as [r|] eqn:Hr; simpl; [|done].
  apply sqlite_get_row_Ok in Hr. rewrite (task_from_row_wf _ _ (wf_rows _ Hwf _ _ Hr)); simpl.
  destruct (has_valid_lease _ _ _) eqn:Hv; [|done]. intros [= <- <-].
  apply (ds_update _ _ _ _ _ _ tid r (apply_progress pu (row_task r)) (clk 1%nat)
    (Some (clk 2%nat, pu_event_type pu, pu_message pu, pu_data pu))); [done|].
  by eapply tr_progress.
Qed.

Lemma sqlite_claim_candidate now db r :
  order_limit1 row_created_at (filter (fun r => claimable now r = true) (task_rows db)) = Some r →
  claimable now r = true ∧ (∃ tid, db_tasks db !! tid = Some r) ∧
  ∀ tid r', db_tasks db !! tid = Some r' → claimable now r' = true →
    row_created_at r <= row_created_at r'.
Proof.
  intros [Hin Hmin]%order_limit1_Some.
  apply list_elem_of_filter in Hin as [Hc Hin]. apply task_rows_elem in Hin.
  split; [done|]. split; [done|].
  intros tid r' Hr' Hc'. apply Hmin, list_elem_of_filter. split; [done|].
  apply task_rows_elem. eauto.
Qed.

Lemma sqlite_claim_next_step wid lease_seconds clk db o db' :
  claim_next wid lease_seconds clk db = Ok (o, db') →
  db_wf db → step (Some wid) (clk 0%nat) db db'.
Proof.
  intros H Hwf. revert H. unfold claim_next.
  destruct (order_limit1 _ _) as [r|] eqn:Hsel; [|intros [= <- <-]; apply ds_same].
  destruct (sqlite_claim_candidate _ _ _ Hsel) as (Hc & [tid Hr] & _).
  pose proof (wf_rows _ Hwf _ _ Hr) as Hrow.
  rewrite (task_from_row_wf _ _ Hrow); simpl. rewrite (rw_id _ _ Hrow), Hr, Hc.
  destruct (apply_claim wid _ _ (row_task r)) as [t' ty] eqn:Ht.
  intros [= <- <-].
  match goal with |- step _ _ _ ?d =>
    assert (Hd : d = update_db (clk 1%nat) t'
       (Some (clk 2%nat, ty, message t',
              Some [("worker_id", JStr wid); ("attempt", JInt (attempt t'))])) db) end.
  { unfold update_db, save_task, insert_event; simpl. f_equal.
    replace (task_id t') with tid; [by apply alter_save_alter|].
    pose proof (apply_claim_spec wid (clk 0%nat) (lease_until (clk 0%nat) lease_seconds) (row_task r))
      as Hs. rewrite Ht in Hs. destruct Hs as (_&_&_&_&_&_&_&_&_&_&_&_&Hid&_).
    simpl in Hid. by rewrite Hid, (rw_id _ _ Hrow). }
  rewrite Hd. eapply ds_update; [exact Hr|]. simpl.
  replace t' with (apply_claim wid (clk 0%nat) (lease_until (clk 0%nat) lease_seconds) (row_task r)).1
    by (by rewrite Ht).
  replace ty with (apply_claim wid (clk 0%nat) (lease_until (clk 0%nat) lease_seconds) (row_task r)).2
    by (by rewrite Ht).
  destruct (claimable_guard _ _ _ Hrow Hc). by apply tr_claim.
Qed.

Lemma sqlite_heartbeat_step tid wid lease_seconds clk db b db' :
  heartbeat tid wid lease_seconds clk db = Ok (b, db') →
  db_wf db → step (Some wid) (clk 0%nat) db db'.
Proof.
  intros H Hwf. revert H. unfold heartbeat.
  destruct (db_tasks db !! tid) as [r|] eqn:Hr; [|intros [= <- <-]; apply ds_same].
  pose proof (wf_rows _ Hwf _ _ Hr) as Hrow.
  case_bool_decide as Hg; [|intros [= <- <-]; apply ds_same].
  rewrite (task_from_row_wf _ _ Hrow); simpl. intros [= <- <-].
  destruct Hg as [Hs Hw]. rewrite (rw_status _ _ Hrow) in Hs. rewrite (rw_worker _ _ Hrow) in Hw.
  apply (ds_update _ _ _ _ _ _ tid r (apply_heartbeat (clk 0%nat) lease_seconds (row_task r))
    (clk 1%nat) None); [done|]. by eapply tr_heartbeat.
Qed.

Lemma sqlite_request_cancel_step tid uid clk db t db' :
  request_cancel tid uid clk db = Ok (t, db') → db_wf db → step None (clk 0%nat) db db'.
Proof.
  intros H Hwf. revert H. unfold request_cancel.
  destruct (get_row _ _ db) as [r|] eqn:Hr; cbn [mbind result_bind]; [|done].
  apply sqlite_get_row_Ok in Hr. pose proof (wf_rows _ Hwf _ _ Hr) as Hrow.
  rewrite (task_from_row_wf _ _ Hrow); cbn [mbind result_bind].
  case_match; [done|]. destruct (terminal (row_task r)) eqn:Ht; [intros [= <- <-]; apply ds_same|].
  remember (cancel_waiting (clk 0%nat) (row_task r)) as tw eqn:Ew.
  remember (cancel_running (row_task r)) as tr eqn:Er.
  destruct (status (row_task r)) eqn:Hs; unfold terminal in Ht; rewrite Hs in Ht; try done;
    intros [= <- <-].
  - apply (ds_update _ _ _ _ _ _ tid r tw (clk 1%nat)
      (Some (clk 2%nat, task_cancelled, message tw, None))); [done|].
    apply tr_cancel_waiting; [done|left; exact Hs|left; exact Ew].
  - apply (ds_update _ _ _ _ _ _ tid r tr (clk 0%nat)
      (Some (clk 1%nat, cancellation_requested, message tr, None))); [done|].
    subst tr. by apply tr_cancel_running.
  - apply (ds_update _ _ _ _ _ _ tid r tw (clk 1%nat)
      (Some (clk 2%nat, task_cancelled, message tw, None))); [done|].
    apply tr_cancel_waiting; [done|right; exact Hs|left; exact Ew].
Qed.

Lemma sqlite_mark_terminal_step tid wid oc clk db t db' :
  outcome_ok dump_datetime oc →
  mark_terminal tid wid oc clk db = Ok (t, db') →
  db_wf db → step (Some wid) (clk 0%nat) db db'.
Proof.
  intros Hoc H Hwf. revert H. unfold mark_terminal.
  destruct (get_row _ _ db) as [r|] eqn:Hr; simpl; [|done].
  apply sqlite_get_row_Ok in Hr. pose proof (wf_rows _ Hwf _ _ Hr) as Hrow.
  rewrite (task_from_row_wf _ _ Hrow); simpl.
  destruct (terminal (row_task r)) eqn:Ht; [intros [= <- <-]; apply ds_same|].
  case_bool_decide as Hw; [|done]. intros [= <- <-].
  apply (ds_update _ _ _ _ _ _ tid r (apply_outcome oc (clk 0%nat) (row_task r)) (clk 1%nat)
    (Some (clk 2%nat, oc_event_type oc, oc_message oc, oc_event_data oc))); [done|].
  by eapply tr_end.
Qed.

Notation perform' := (perform sha256_hex float_repr dump_datetime).
Notation exec' := (exec sha256_hex float_repr dump_datetime).
Notation run' := (run sha256_hex float_repr dump_datetime).

Lemma sqlite_perform_step op clk db x db' :
  op_ok op = true → perform' op clk db = Ok (x, db') → db_wf db →
  step (op_actor op) (clk 0%nat) db db'.
Proof.
  intros Hop H Hwf.
  destruct op; apply respond_Ok in H as (a & H & _); cbn [op_actor op_ok] in *.
  - destruct a as [t b]. exact (sqlite_create_task_step _ _ _ _ _ _ _ _ _ _ Hop H).
  - exact (sqlite_record_progress_step _ _ _ _ _ _ _ Hop H Hwf).
  - exact (sqlite_claim_next_step _ _ _ _ _ _ H Hwf).
  - exact (sqlite_heartbeat_step _ _ _ _ _ _ _ H Hwf).
  - exact (sqlite_request_cancel_step _ _ _ _ _ _ H Hwf).
  - exact (sqlite_mark_terminal_step _ _ _ _ _ _ _ (oc_ok_succeeded _ _) H Hwf).
  - exact (sqlite_mark_terminal_step _ _ _ _ _ _ _ (oc_ok_cancelled _ _) H Hwf).
  - exact (sqlite_mark_terminal_step _ _ _ _ _ _ _ (oc_ok_failed _ _ _ Hop) H Hwf).
Qed.

Lemma sqlite_exec_step op clk db :
  op_ok op = true → db_wf db → step (op_actor op) (clk 0%nat) db (exec' op clk db).2.
Proof.
  intros Hop Hwf. unfold exec, commit_or_rollback.
  destruct (perform' op clk db) as [[x db']|e] eqn:E; simpl; [|apply ds_same].
  by eapply sqlite_perform_step.
Qed.

Lemma sqlite_run_refines ops db :
  Forall (fun oc => op_ok oc.1 = true) ops → db_wf db →
  db_run dump_datetime false same_slot (map op_label ops) db (run' ops db).
Proof.
  revert db. induction ops as [|[op clk] ops IH]; intros db Hops Hwf; simpl; [constructor|].
  apply Forall_cons in Hops as [Hop Hops].
  pose proof (sqlite_exec_step op clk db Hop Hwf) as Hs.
  econstructor; [exact Hs|]. apply IH; [done|]. by eapply db_wf_step.
Qed.
End Refinement.
