(* ===== verification/MysqlTaskProofs.v ===== *)
(** The MySQL store refines the abstract task queue. *)

From S2P Require Import Prelude PyData TripSchema TaskModels TaskTables MysqlTaskStore TaskLifecycle.
From Stdlib Require Import ZArith QArith Lia Lqa String.
From stdpp Require Import base tactics option list gmap strings sorting relations.

Open Scope string_scope.
Open Scope Z_scope.
Open Scope list_scope.

Import Mysql.

Section Refinement.
Context (sha256_hex : string → string) (float_repr : Q → string)
  (dump_datetime : datetime → string) (key_eq : string → string → bool)
  (known_user : string → bool).

(** The idempotency key is unique per user, up to the collation. *)
Definition same_slot (x y : option string * string) : bool :=
  bool_decide (x.1 = y.1) && key_eq x.2 y.2.

Notation step := (db_step dump_datetime true same_slot).

Lemma mysql_get_row_Ok tid msg db r : get_row tid msg db = Ok r ↔ db_tasks db !! tid = Some r.
Proof. unfold get_row. destruct (db_tasks db !! tid); naive_solver. Qed.

Lemma get_owned_row_Ok tid uid db r :
  get_owned_row tid uid db = Ok r → db_tasks db !! tid = Some r.
Proof.
  unfold get_owned_row. destruct (db_tasks db !! tid), uid; try case_bool_decide; naive_solver.
Qed.

(** When nothing can be reused, the slot of the new row is free. *)
Lemma find_reusable_None key fp uid db j r :
  find_reusable_task key_eq key fp uid db = Ok None → db_tasks db !! j = Some r →
  same_slot (slot_of r) (uid, key) = false.
Proof.
  intros H Hj. unfold same_slot; simpl.
  destruct (bool_decide (row_user_id r = uid) && key_eq (row_idempotency_key r) key) eqn:E; [|done].
  apply andb_true_iff in E as [Hu%bool_decide_eq_true Hk].
  assert (Hin : r ∈ filter (fun r => key_eq (row_idempotency_key r) key = true ∧ row_user_id r = uid)
                      (task_rows db)).
  { apply list_elem_of_filter. split; [done|]. apply task_rows_elem. eauto. }
  unfold find_reusable_task in H.
  destruct (filter (fun r => key_eq (row_idempotency_key r) key = true ∧ row_user_id r = uid)
              (task_rows db)) as [|r1 [|? ?]]; [set_solver| |done].
  destruct (String.eqb _ _); [|done]. destruct (task_from_row r1); done.
Qed.

Lemma mysql_create_task_step req key uid tid sid clk db t b db' :
  request_fields_ok req = true →
  create_task sha256_hex float_repr key_eq known_user req key uid tid sid clk db = Ok (t, b, db') →
  step None (clk 0%nat) db db'.
Proof.
  intros Hreq. unfold create_task.
  destruct (normalize_idempotency_key key) as [k|]; simpl; [|done].
  destruct (find_reusable_task _ _ _ _ _) as [[t0|]|] eqn:Hkey; simpl; [|..|done];
    [intros; simplify_eq; apply ds_same|].
  destruct (insert_allowed _ _ _ _) eqn:E; [|done]. intros [= <- <- <-].
  unfold insert_allowed in E. rewrite !andb_true_iff, !negb_true_iff in E.
  destruct E as [[Hf Hs] _]. apply bool_decide_eq_false, eq_None_not_Some in Hf.
  eapply (ds_insert _ _ _ _ _ _ uid tid sid); try done; [|].
  - intros j r Hj E. rewrite <- not_true_iff_false, existsb_exists in Hs.
    apply Hs. exists r. split; [|by apply String.eqb_eq].
    apply list_elem_of_In, task_rows_elem. eauto.
  - intros j r Hj. by eapply find_reusable_None.
Qed.

Lemma mysql_record_progress_step tid wid pu clk db t db' :
  progress_event (pu_event_type pu) = true →
  record_progress tid wid pu clk db = Ok (t, db') →
  db_wf db → step (Some wid) (clk 0%nat) db db'.
Proof.
  intros Hpu H Hwf. revert H. unfold record_progress.
  destruct (get_row tid tid db) as [r|] eqn:Hr; simpl; [|done].
  apply mysql_get_row_Ok in Hr. rewrite (task_from_row_wf _ _ (wf_rows _ Hwf _ _ Hr)); simpl.
  destruct (has_valid_lease _ _ _) eqn:Hv; [|done]. intros [= <- <-].
  apply (ds_update _ _ _ _ _ _ tid r (apply_progress pu (row_task r)) (clk 1%nat)
    (Some (clk 2%nat, pu_event_type pu, pu_message pu, pu_data pu))); [done|].
  by eapply tr_progress.
Qed.

Lemma mysql_claim_candidate locked now db r :
  order_limit1 row_created_at
    (filter (fun r => claimable now r = true ∧ locked (task_id (row_task r)) = false)
       (task_rows db)) = Some r →
  claimable now r = true ∧ (∃ tid, db_tasks db !! tid = Some r).
Proof.
  intros [Hin _]%order_limit1_Some.
  apply list_elem_of_filter in Hin as [[Hc _] Hin]. by apply task_rows_elem in Hin.
Qed.

Lemma mysql_claim_next_step locked wid lease_seconds clk db o db' :
  claim_next locked wid lease_seconds clk db = Ok (o, db') →
  db_wf db → step (Some wid) (clk 0%nat) db db'.
Proof.
  intros H Hwf. revert H. unfold claim_next.
  destruct (order_limit1 _ _) as [r|] eqn:Hsel; [|intros [= <- <-]; apply ds_same].
  destruct (mysql_claim_candidate _ _ _ _ Hsel) as (Hc & [tid Hr]).
  pose proof (wf_rows _ Hwf _ _ Hr) as Hrow.
  rewrite (task_from_row_wf _ _ Hrow); cbn [mbind result_bind].
  pose proof (claimable_guard _ _ _ Hrow Hc) as [Hcancel Hst].
  pose proof (tr_claim dump_datetime (Some wid) (clk 0%nat) (row_task r) wid
    (lease_until (clk 0%nat) lease_seconds) eq_refl Hcancel Hst) as Htr.
  destruct (apply_claim wid _ _ (row_task r)) as [t' ty]; cbn [fst snd] in Htr.
  intros [= <- <-].
  by apply (ds_update _ _ _ _ _ _ tid r t' (clk 1%nat)
    (Some (clk 2%nat, ty, message t',
           Some [("worker_id", JStr wid); ("attempt", JInt (attempt t'))]))).
Qed.

Lemma mysql_heartbeat_step tid wid lease_seconds clk db b db' :
  heartbeat tid wid lease_seconds clk db = Ok (b, db') →
  db_wf db → step (Some wid) (clk 0%nat) db db'.
Proof.
  intros H Hwf. revert H. unfold heartbeat.
  destruct (db_tasks db !! tid) as [r|] eqn:Hr; [|intros [= <- <-]; apply ds_same].
  rewrite (task_from_row_wf _ _ (wf_rows _ Hwf _ _ Hr)); cbn [mbind result_bind].
  destruct (has_valid_lease _ _ _) eqn:Hv; [|intros [= <- <-]; apply ds_same].
  apply has_valid_lease_iff in Hv as (Hs & Hw & _). intros [= <- <-].
  apply (ds_update _ _ _ _ _ _ tid r (apply_heartbeat (clk 0%nat) lease_seconds (row_task r))
    (clk 2%nat) None); [done|]. by eapply tr_heartbeat.
Qed.

Lemma mysql_request_cancel_step tid uid clk db t db' :
  request_cancel tid uid clk db = Ok (t, db') → db_wf db → step None (clk 0%nat) db db'.
Proof.
  intros H Hwf. revert H. unfold request_cancel.
  destruct (get_owned_row _ _ db) as [r|] eqn:Hr; cbn [mbind result_bind]; [|done].
  apply get_owned_row_Ok in Hr. pose proof (wf_rows _ Hwf _ _ Hr) as Hrow.
  rewrite (task_from_row_wf _ _ Hrow); cbn [mbind result_bind].
  destruct (terminal (row_task r)) eqn:Ht; [intros [= <- <-]; apply ds_same|].
  remember ((cancel_waiting (clk 0%nat) (row_task r)) <| heartbeat_at := None |>) as tw eqn:Ew.
  remember (cancel_running (row_task r)) as tr eqn:Er.
  destruct (status (row_task r)) eqn:Hs; unfold terminal in Ht; rewrite Hs in Ht; try done;
    intros [= <- <-].
  - apply (ds_update _ _ _ _ _ _ tid r tw (clk 1%nat)
      (Some (clk 2%nat, task_cancelled, message tw, None))); [done|].
    apply tr_cancel_waiting; [done|left; exact Hs|right; exact Ew].
  - apply (ds_update _ _ _ _ _ _ tid r tr (clk 0%nat)
      (Some (clk 1%nat, cancellation_requested, message tr, None))); [done|].
    subst tr. by apply tr_cancel_running.
  - apply (ds_update _ _ _ _ _ _ tid r tw (clk 1%nat)
      (Some (clk 2%nat, task_cancelled, message tw, None))); [done|].
    apply tr_cancel_waiting; [done|right; exact Hs|right; exact Ew].
Qed.

Lemma mysql_mark_terminal_step tid wid oc clk db t db' :
  outcome_ok dump_datetime oc →
  mark_terminal tid wid oc clk db = Ok (t, db') →
  db_wf db → step (Some wid) (clk 0%nat) db db'.
Proof.
  intros Hoc H Hwf. revert H. unfold mark_terminal.
  destruct (get_row _ _ db) as [r|] eqn:Hr; simpl; [|done].
  apply mysql_get_row_Ok in Hr. pose proof (wf_rows _ Hwf _ _ Hr) as Hrow.
  rewrite (task_from_row_wf _ _ Hrow); simpl.
  destruct (terminal (row_task r)) eqn:Ht; [intros [= <- <-]; apply ds_same|].
  destruct (has_valid_lease _ _ _) eqn:Hv; [|done].
  apply has_valid_lease_iff in Hv as (_ & Hw & _). intros [= <- <-].
  apply (ds_update _ _ _ _ _ _ tid r (apply_outcome oc (clk 1%nat) (row_task r)) (clk 2%nat)
    (Some (clk 3%nat, oc_event_type oc, oc_message oc, oc_event_data oc))); [done|].
  by eapply tr_end.
Qed.

Notation perform' := (perform sha256_hex float_repr dump_datetime key_eq known_user).
Notation exec' := (exec sha256_hex float_repr dump_datetime key_eq known_user).
Notation run' := (run sha256_hex float_repr dump_datetime key_eq known_user).

Lemma mysql_perform_step op clk db x db' :
  op_ok op = true → perform' op clk db = Ok (x, db') → db_wf db →
  step (op_actor op) (clk 0%nat) db db'.
Proof.
  intros Hop H Hwf.
  destruct op; apply respond_Ok in H as (a & H & _); cbn [op_actor op_ok] in *.
  - destruct a as [t b]. exact (mysql_create_task_step _ _ _ _ _ _ _ _ _ _ Hop H).
  - exact (mysql_record_progress_step _ _ _ _ _ _ _ Hop H Hwf).
  - exact (mysql_claim_next_step _ _ _ _ _ _ _ H Hwf).
  - exact (mysql_heartbeat_step _ _ _ _ _ _ _ H Hwf).
  - exact (mysql_request_cancel_step _ _ _ _ _ _ H Hwf).
  - exact (mysql_mark_terminal_step _ _ _ _ _ _ _ (oc_ok_succeeded _ _) H Hwf).
  - exact (mysql_mark_terminal_step _ _ _ _ _ _ _ (oc_ok_cancelled _ _) H Hwf).
  - exact (mysql_mark_terminal_step _ _ _ _ _ _ _ (oc_ok_failed _ _ _ Hop) H Hwf).
Qed.

Lemma mysql_exec_step op clk db :
  op_ok op = true → db_wf db → step (op_actor op) (clk 0%nat) db (exec' op clk db).2.
Proof.
  intros Hop Hwf. unfold exec, commit_or_rollback.
  destruct (perform' op clk db) as [[x db']|e] eqn:E; simpl; [|apply ds_same].
  by eapply mysql_perform_step.
Qed.

Lemma mysql_run_refines ops db :
  Forall (fun oc => op_ok oc.1 = true) ops → db_wf db →
  db_run dump_datetime true same_slot (map op_label ops) db (run' ops db).
Proof.
  revert db. induction ops as [|[op clk] ops IH]; intros db Hops Hwf; simpl; [constructor|].
  apply Forall_cons in Hops as [Hop Hops].
  pose proof (mysql_exec_step op clk db Hop Hwf) as Hs.
  econstructor; [exact Hs|]. apply IH; [done|]. by eapply db_wf_step.
Qed.
End Refinement.
