(* ===== verification/TaskStoreTheorems.v ===== *)
(** Pages of the event log: [select_events] on a well-formed log, and why a
    subscriber that resumes from the last id it saw misses and repeats
    nothing. *)

From S2P Require Import Prelude PyData TripSchema TaskModels TaskTables SqliteTaskStore MysqlTaskStore TaskLifecycle SqliteTaskProofs MysqlTaskProofs.
From Stdlib Require Import ZArith Lia String Sorted QArith Lqa.
From stdpp Require Import base tactics option list gmap strings sorting relations.

Open Scope Z_scope.
Open Scope list_scope.

Definition event_lt (x y : TripTaskEvent) : Prop := ev_id x < ev_id y.

(** Where the next page starts. *)
Definition resume_after (after : Z) (page : list TripTaskEvent) : Z :=
  match last page with Some e => ev_id e | None => after end.

Lemma seqZ_sorted m n : StronglySorted Z.lt (seqZ m n).
Proof.
  destruct (Z.le_gt_cases 0 n) as [Hn|Hn].
  - revert m. pattern n. apply natlike_ind; [|clear n Hn; intros n Hn IH|done]; intros m.
    { rewrite seqZ_nil by lia. constructor. }
    rewrite seqZ_cons, Z.pred_succ by lia.
    constructor; [by apply IH|]. apply Forall_forall. intros x Hx%elem_of_seqZ. lia.
  - rewrite seqZ_nil by lia. constructor.
Qed.

Lemma events_sorted db : db_wf db → StronglySorted event_lt (db_events db).
Proof.
  intros Hwf. pose proof (seqZ_sorted 1 (db_event_seq db)) as H.
  rewrite <- (wf_ids _ Hwf) in H. clear Hwf.
  induction (db_events db) as [|e l IH]; [constructor|].
  rewrite fmap_cons in H. apply StronglySorted_inv in H as [Hl Hx].
  rewrite Forall_fmap in Hx. constructor; [by apply IH|exact Hx].
Qed.

Lemma merge_sort_sorted l : StronglySorted event_lt l → merge_sort event_id_le l = l.
Proof.
  intros Hs.
  assert (Hle : StronglySorted event_id_le l).
  { clear -Hs. induction Hs as [|x l _ IH Hx]; constructor; [done|].
    eapply Forall_impl; [exact Hx|]. unfold event_lt, event_id_le. lia. }
  assert (Htot : Total event_id_le) by (intros x y; unfold event_id_le; lia).
  assert (Htrans : Transitive event_id_le) by (intros x y z; unfold event_id_le; lia).
  eapply StronglySorted_unique_strong; [| |exact Hle|apply merge_sort_Permutation].
  - intros x1 x2 H1 H2 H12 H21. rewrite merge_sort_Permutation in H1.
    assert (Heq : ev_id x1 = ev_id x2) by (unfold event_id_le in *; lia).
    clear -Hs H1 H2 Heq. induction Hs as [|x l _ IH Hx]; [set_solver|].
    rewrite Forall_forall in Hx.
    apply elem_of_cons in H1 as [->|H1], H2 as [->|H2]; auto.
    + specialize (Hx _ H2). unfold event_lt in Hx. lia.
    + specialize (Hx _ H1). unfold event_lt in Hx. lia.
  - by apply StronglySorted_merge_sort.
Qed.

(** The events of a task after an id, in order. *)
Definition events_after (tid : string) (after : Z) (db : TaskDb) : list TripTaskEvent :=
  filter (fun e => ev_task_id e = tid ∧ after < ev_id e) (db_events db).

Lemma select_events_take tid after limit db :
  db_wf db → select_events tid after limit db = take (Z.to_nat limit) (events_after tid after db).
Proof.
  intros Hwf. unfold select_events. rewrite merge_sort_sorted; [done|].
  by apply StronglySorted_filter, events_sorted.
Qed.

Lemma filter_after_split l p e r :
  StronglySorted event_lt l → l = p ++ e :: r →
  filter (fun x => ev_id e < ev_id x) l = r.
Proof.
  intros Hs ->. rewrite filter_app, filter_none, filter_cons_False; simpl.
  - apply filter_all. apply StronglySorted_app_1_r in Hs.
    inversion Hs as [|? ? _ Hx]; subst. exact Hx.
  - lia.
  - apply Forall_forall. intros x Hx.
    pose proof (StronglySorted_app_1_elem_of _ _ _ x e Hs Hx ltac:(set_solver)) as Hlt.
    unfold event_lt in Hlt. lia.
Qed.

(** The rest of the log after the first [n] events is the log after their last id. *)
Lemma events_after_resume tid after n db :
  db_wf db →
  events_after tid (resume_after after (take n (events_after tid after db))) db
  = drop n (events_after tid after db).
Proof.
  intros Hwf. set (l := events_after tid after db).
  assert (Hl : StronglySorted event_lt l) by (by apply StronglySorted_filter, events_sorted).
  unfold resume_after. destruct (last (take n l)) as [e|] eqn:He.
  - apply last_Some in He as [p Hp].
    assert (Hsplit : l = p ++ e :: drop n l).
    { rewrite <- (take_drop n l) at 1. rewrite Hp, <- app_assoc. done. }
    rewrite <- (filter_after_split l p e (drop n l) Hl Hsplit).
    unfold l, events_after. rewrite list_filter_filter. apply list_filter_iff.
    assert (after < ev_id e) as Hae.
    { assert (e ∈ l) as Hin by (rewrite Hsplit; set_solver).
      by apply list_elem_of_filter in Hin as [[_ ?] _]. }
    intros x. intuition lia.
  - apply last_None in He. fold l.
    rewrite <- (take_drop n l) at 1. by rewrite He.
Qed.

Lemma event_pages tid after n m db :
  db_wf db → 0 <= n → 0 <= m →
  select_events tid after (n + m) db
  = select_events tid after n db
    ++ select_events tid (resume_after after (select_events tid after n db)) m db.
Proof.
  intros Hwf Hn Hm. rewrite !select_events_take by done.
  rewrite events_after_resume by done.
  rewrite Z2Nat.inj_add by done. by rewrite take_take_drop.
Qed.

(** What the two task stores guarantee, for every sequence of writes from the
    empty tables: the invariant of the tables, exclusive leases, frozen
    results, monotone progress, idempotent creation, first-in-first-out
    claims, resumable event pages; and where the two stores differ. *)

Open Scope string_scope.
Open Scope Z_scope.
Open Scope list_scope.

(** ** A concrete run, used by the witnesses *)

Definition demo_request : TripRequest :=
  mkTripRequest "北京" "2025-06-01" "2025-06-03" 3 "公共交通" "经济型酒店" ["美食"] (Some "").

Definition demo_clock (t : Z) : clock := fun i => t + Z.of_nat i.

Definition demo_progress : ProgressUpdate :=
  mkProgressUpdate action_started "get_weather" "天气查询" 10 2 24 "正在执行：天气查询"
    (Some "get_weather") None.

Definition demo_ops : list (TaskOp * clock) :=
  [(OpCreate demo_request "key 1" None "t1" "s1", demo_clock 100);
   (OpClaim (fun _ => false) "w1" 30, demo_clock 200);
   (OpProgress "t1" "w1" demo_progress, demo_clock 300)].

Definition dt_text (d : datetime) : string := str_of_Z d.
Definition q_text (q : Q) : string := str_of_Z (Qnum q).

(** Later writes: another worker, a client, then the worker itself. *)
Definition demo_others : list (TaskOp * clock) :=
  [(OpClaim (fun _ => false) "w2" 30, demo_clock 400);
   (OpHeartbeat "t1" "w2" 30, demo_clock 500);
   (OpSucceed "t1" "w2" "s1", demo_clock 600);
   (OpCancel "t1" None, demo_clock 700)].
Definition demo_finish : list (TaskOp * clock) :=
  demo_ops ++ [(OpSucceed "t1" "w1" "s1", demo_clock 400)].
Definition demo_lease : datetime := lease_until 200 30.

Definition sq_run := Sqlite.run (fun s => s) q_text dt_text.
Definition my_run := Mysql.run (fun s => s) q_text dt_text String.eqb (fun _ => true).
Definition demo_db : TaskDb := sq_run demo_ops empty_db.
Definition demo_row (ops : list (TaskOp * clock)) : TaskRow :=
  default (row_of_new_task None (new_task "" "" "" "" demo_request None 0 0))
    (db_tasks (sq_run ops empty_db) !! "t1").


(** ** Stores over arbitrary library parameters *)

Section Stores.
Context (sha256_hex : string → string) (float_repr : Q → string)
  (dump_datetime : datetime → string) (key_eq : string → string → bool)
  (known_user : string → bool).

Notation sqlite_run := (Sqlite.run sha256_hex float_repr dump_datetime).
Notation mysql_run := (Mysql.run sha256_hex float_repr dump_datetime key_eq known_user).
Notation sqlite_exec := (Sqlite.exec sha256_hex float_repr dump_datetime).
Notation mysql_exec := (Mysql.exec sha256_hex float_repr dump_datetime key_eq known_user).
Notation sqlite_create := (Sqlite.create_task sha256_hex float_repr).
Notation mysql_create := (Mysql.create_task sha256_hex float_repr key_eq known_user).

Definition ops_ok (ops : list (TaskOp * clock)) : Prop := Forall (fun oc => op_ok oc.1 = true) ops.

Lemma sqlite_run_wf ops : ops_ok ops → db_wf (sqlite_run ops empty_db).
Proof.
  intros H. eapply db_wf_run; [|exact db_wf_empty].
  apply SqliteTaskProofs.sqlite_run_refines; [exact H|exact db_wf_empty].
Qed.

Lemma mysql_run_wf ops : ops_ok ops → db_wf (mysql_run ops empty_db).
Proof.
  intros H. eapply db_wf_run; [|exact db_wf_empty].
  apply MysqlTaskProofs.mysql_run_refines; [exact H|exact db_wf_empty].
Qed.

Lemma sqlite_run_app ops1 ops2 db :
  sqlite_run (ops1 ++ ops2) db = sqlite_run ops2 (sqlite_run ops1 db).
Proof. unfold Sqlite.run. apply foldl_app. Qed.

Lemma mysql_run_app ops1 ops2 db :
  mysql_run (ops1 ++ ops2) db = mysql_run ops2 (mysql_run ops1 db).
Proof. unfold Mysql.run. apply foldl_app. Qed.


(** What "only other actors, no later than [L]" means for a list of writes. *)
Definition others_before (w : string) (L : datetime) (ops : list (TaskOp * clock)) : Prop :=
  Forall (fun oc => op_actor oc.1 ≠ Some w ∧ oc.2 0%nat <= L) ops.

Lemma labels_Forall (P : option string → datetime → Prop) ops :
  Forall (fun oc : TaskOp * clock => P (op_actor oc.1) (oc.2 0%nat)) ops →
  Forall (fun l => P l.1 l.2) (map op_label ops).
Proof. intros H. apply Forall_fmap. eapply Forall_impl; [exact H|]. done. Qed.

(** C6: a lease is exclusive: while it has not expired, no write of another
    worker or of a client takes the task from its holder, in either store. *)
Theorem task_lease_exclusive ops more tid r w L :
  ops_ok ops → ops_ok more → others_before w L more →
  (db_tasks (sqlite_run ops empty_db) !! tid = Some r → held w L (row_task r) →
   ∃ r', db_tasks (sqlite_run (ops ++ more) empty_db) !! tid = Some r' ∧ held w L (row_task r'))
  ∧ (db_tasks (mysql_run ops empty_db) !! tid = Some r → held w L (row_task r) →
     ∃ r', db_tasks (mysql_run (ops ++ more) empty_db) !! tid = Some r' ∧ held w L (row_task r')).
Proof.
  intros Hops Hmore Hoth.
  apply (labels_Forall (fun a n => a ≠ Some w ∧ n <= L)) in Hoth.
  rewrite sqlite_run_app, mysql_run_app. split; intros Hr Hheld.
  - pose proof (sqlite_run_wf ops Hops) as Hwf.
    eapply lease_exclusive; [by apply SqliteTaskProofs.sqlite_run_refines|done..].
  - pose proof (mysql_run_wf ops Hops) as Hwf.
    eapply lease_exclusive; [by apply MysqlTaskProofs.mysql_run_refines|done..].
Qed.


(** retries, recoveries and repairs never move a task backwards: its
    progress, step counters, attempts and recoveries only grow, and a
    cancellation request is never forgotten. *)
Theorem task_progress_monotone ops more tid r :
  ops_ok ops → ops_ok more →
  (db_tasks (sqlite_run ops empty_db) !! tid = Some r →
   ∃ r', db_tasks (sqlite_run (ops ++ more) empty_db) !! tid = Some r'
         ∧ grows (row_task r) (row_task r'))
  ∧ (db_tasks (mysql_run ops empty_db) !! tid = Some r →
     ∃ r', db_tasks (mysql_run (ops ++ more) empty_db) !! tid = Some r'
           ∧ grows (row_task r) (row_task r')).
Proof.
  intros Hops Hmore. rewrite sqlite_run_app, mysql_run_app. split; intros Hr.
  - pose proof (sqlite_run_wf ops Hops) as Hwf.
    eapply run_grows; [by apply SqliteTaskProofs.sqlite_run_refines|done..].
  - pose proof (mysql_run_wf ops Hops) as Hwf.
    eapply run_grows; [by apply MysqlTaskProofs.mysql_run_refines|done..].
Qed.

(** *** Idempotent creation *)

Lemma slots_unique_empty same_slot : slots_unique same_slot empty_db.
Proof. intros i j ri rj H. simpl in H. by rewrite lookup_empty in H. Qed.

Lemma sqlite_run_slots ops :
  ops_ok ops → slots_unique SqliteTaskProofs.same_slot (sqlite_run ops empty_db).
Proof.
  intros H. eapply slots_unique_run;
    [apply (SqliteTaskProofs.sqlite_run_refines); [exact H|exact db_wf_empty]
    |exact db_wf_empty|apply slots_unique_empty].
Qed.

Lemma mysql_run_slots ops :
  ops_ok ops → slots_unique (MysqlTaskProofs.same_slot key_eq) (mysql_run ops empty_db).
Proof.
  intros H. eapply slots_unique_run;
    [apply (MysqlTaskProofs.mysql_run_refines); [exact H|exact db_wf_empty]
    |exact db_wf_empty|apply slots_unique_empty].
Qed.

(** The key and the fingerprint the row of a new task gets. *)
Lemma sqlite_created req key uid tid sid clk db t db' :
  sqlite_create req key uid tid sid clk db = Ok (t, false, db') →
  ∃ k, normalize_idempotency_key key = Ok k
    ∧ t = new_task tid sid k (Sqlite.request_fingerprint_of sha256_hex float_repr req) req uid
            (clk 0%nat) (clk 1%nat)
    ∧ db_tasks db' !! tid = Some (row_of_new_task None t).
Proof.
  unfold Sqlite.create_task.
  destruct (normalize_idempotency_key key) as [k|]; simpl; [|done].
  destruct (list_find _ _) as [[i r]|].
  { destruct (String.eqb _ _); [|done]. by destruct (task_from_row r). }
  destruct (order_limit1 _ _) as [r|]; [by destruct (task_from_row r)|].
  destruct (_ || _); [done|]. intros [= <- <-]. exists k. split; [done|]. split; [done|].
  simpl. apply lookup_insert_eq.
Qed.

Lemma mysql_created req key uid tid sid clk db t db' :
  mysql_create req key uid tid sid clk db = Ok (t, false, db') →
  ∃ k, normalize_idempotency_key key = Ok k
    ∧ t = new_task tid sid k (Mysql.request_fingerprint_of sha256_hex float_repr req) req uid
            (clk 0%nat) (clk 1%nat)
    ∧ db_tasks db' !! tid = Some (row_of_new_task uid t).
Proof.
  unfold Mysql.create_task.
  destruct (normalize_idempotency_key key) as [k|]; simpl; [|done].
  destruct (Mysql.find_reusable_task _ _ _ _ _) as [[?|]|]; simpl; [done| |done].
  destruct (Mysql.insert_allowed _ _ _ _); [|done].
  intros [= <- <-]. exists k. split; [done|]. split; [done|]. simpl. apply lookup_insert_eq.
Qed.

Lemma normalize_same key key' :
  squeeze key' = squeeze key → normalize_idempotency_key key' = normalize_idempotency_key key.
Proof. intros H. unfold normalize_idempotency_key. by rewrite H. Qed.

(** The keyed lookup of the SQLite store finds the row that holds the key. *)
Lemma sqlite_find_key db k tid r :
  slots_unique SqliteTaskProofs.same_slot db → db_tasks db !! tid = Some r →
  row_idempotency_key r = k →
  ∃ i, list_find (fun r => row_idempotency_key r = k) (task_rows db) = Some (i, r).
Proof.
  intros Hu Hr Hk.
  destruct (list_find_elem_of (fun r => row_idempotency_key r = k) (task_rows db) r)
    as [[i r0] Hf]; [apply task_rows_elem; eauto|done|].
  exists i. rewrite Hf. f_equal. f_equal.
  apply list_find_Some in Hf as (Hi & Hk0 & _).
  apply list_elem_of_lookup_2, task_rows_elem in Hi as [j Hj].
  destruct (decide (j = tid)) as [->|Hne]; [congruence|].
  destruct (Hu _ _ _ _ Hj Hr Hne) as [H|H]; unfold SqliteTaskProofs.same_slot, slot_of in H;
    simpl in H; apply String.eqb_neq in H; congruence.
Qed.

(** creating twice is creating once (SQLite): after a creation, whatever
    happened since, the same request under the same key up to white space
    returns the task already created and writes nothing. *)
Theorem sqlite_create_idempotent ops more req key key' uid uid' tid tid' sid sid' clk clk' t db1 :
  ops_ok ops → ops_ok more → request_fields_ok req = true →
  sqlite_create req key uid tid sid clk (sqlite_run ops empty_db) = Ok (t, false, db1) →
  squeeze key' = squeeze key →
  let db := sqlite_run more db1 in
  ∃ t', sqlite_create req key' uid' tid' sid' clk' db = Ok (t', true, db)
        ∧ same_identity t t'.
Proof.
  intros Hops Hmore Hreq Hc Hkey db.
  destruct (sqlite_created _ _ _ _ _ _ _ _ _ Hc) as (k & Hk & Ht & Hrow).
  pose proof (sqlite_run_wf ops Hops) as Hwf.
  pose proof (SqliteTaskProofs.sqlite_create_task_step _ _ dump_datetime _ _ _ _ _ _ _ _ _ _ Hreq Hc) as Hstep.
  pose proof (db_wf_step _ _ _ _ _ _ _ Hstep Hwf) as Hwf1.
  pose proof (slots_unique_step _ _ _ _ _ _ _ Hstep Hwf (sqlite_run_slots ops Hops)) as Hu1.
  pose proof (SqliteTaskProofs.sqlite_run_refines sha256_hex float_repr dump_datetime more db1 Hmore Hwf1) as Hrun.
  destruct (run_identity _ _ _ _ _ _ _ _ Hrun Hwf1 Hrow) as (r & Hr & Hsame).
  pose proof (db_wf_run _ _ _ _ _ _ Hrun Hwf1) as Hwf2.
  pose proof (slots_unique_run _ _ _ _ _ _ Hrun Hwf1 Hu1) as Hu2.
  pose proof (wf_rows _ Hwf2 _ _ Hr) as Hrw.
  pose proof Hsame as (Hid & Hki & Hfp & _). simpl in Hki, Hfp.
  destruct (sqlite_find_key _ k tid r Hu2 Hr) as [i Hfind].
  { rewrite (rw_key _ _ Hrw), Hki, Ht. done. }
  exists (row_task r). split; [|done].
  unfold Sqlite.create_task. rewrite (normalize_same _ _ Hkey), Hk. cbn [mbind result_bind].
  unfold db in *. rewrite Hfind.
  rewrite (rw_fingerprint _ _ Hrw), Hfp, Ht. simpl. rewrite String.eqb_refl.
  by rewrite (task_from_row_wf _ _ Hrw).
Qed.

(** *** Ownership *)

Lemma mysql_run_owners ops : ops_ok ops → owner_columns (mysql_run ops empty_db).
Proof.
  intros H. eapply owner_columns_run; [done| |exact db_wf_empty|].
  - apply MysqlTaskProofs.mysql_run_refines; [exact H|exact db_wf_empty].
  - intros tid r Hr. simpl in Hr. by rewrite lookup_empty in Hr.
Qed.

(** Every row the MySQL lookup may reuse belongs to the caller. *)
Lemma find_reusable_owner key fp uid db t :
  db_wf db → owner_columns db →
  Mysql.find_reusable_task key_eq key fp uid db = Ok (Some t) → user_id t = uid.
Proof.
  intros Hwf Hown. unfold Mysql.find_reusable_task.
  assert (Hrow : ∀ r, r ∈ task_rows db → row_user_id r = uid → task_from_row r = Ok (row_task r)
                  ∧ user_id (row_task r) = uid).
  { intros r [tid Hr]%task_rows_elem <-. split; [by eapply task_from_row_wf, (wf_rows _ Hwf)|].
    symmetry. by eapply Hown. }
  destruct (filter _ (task_rows db)) as [|r [|? ?]] eqn:E; [| |done].
  - destruct (order_limit1 _ _) as [r|] eqn:Eo; [|done].
    apply order_limit1_Some in Eo as [Hin _].
    apply list_elem_of_filter in Hin as [(_ & Hu & _) Hin].
    destruct (Hrow r Hin Hu) as [-> ?]. simpl. by intros [= <-].
  - assert (Hin : r ∈ filter (fun r => key_eq (row_idempotency_key r) key = true
                                      ∧ row_user_id r = uid) (task_rows db)) by (rewrite E; set_solver).
    apply list_elem_of_filter in Hin as [[_ Hu] Hin].
    destruct (String.eqb _ _); [|done]. destruct (Hrow r Hin Hu) as [-> ?]. simpl. by intros [= <-].
Qed.

(** the MySQL store never hands one user's task to another: what a
    creation returns, new or reused, belongs to the caller. *)
Theorem mysql_create_isolated ops req key uid tid sid clk t reused db' :
  ops_ok ops →
  mysql_create req key uid tid sid clk (mysql_run ops empty_db) = Ok (t, reused, db') →
  user_id t = uid.
Proof.
  intros Hops Hc. destruct reused.
  - revert Hc. unfold Mysql.create_task.
    destruct (normalize_idempotency_key key) as [k|]; cbn [mbind result_bind]; [|done].
    destruct (Mysql.find_reusable_task _ _ _ _ _) as [[t0|]|] eqn:Hf;
      cbn [mbind result_bind]; [| |done].
    + intros [= <- <-]. eapply find_reusable_owner; [..|exact Hf];
        [by apply mysql_run_wf|by apply mysql_run_owners].
    + by destruct (Mysql.insert_allowed _ _ _ _).
  - destruct (mysql_created _ _ _ _ _ _ _ _ _ Hc) as (k & _ & -> & _). done.
Qed.

(** *** Claims *)

Lemma mysql_claim_spec locked wid lease_seconds clk db :
  db_wf db →
  match Mysql.claim_next locked wid lease_seconds clk db with
  | Ok (Some t, db') =>
      ∃ r, db_tasks db !! task_id t = Some r ∧ claimable (clk 0%nat) r = true
        ∧ (∀ tid r', db_tasks db !! tid = Some r' → claimable (clk 0%nat) r' = true →
             locked tid = false → created_at (row_task r) <= created_at (row_task r'))
        ∧ held wid (lease_until (clk 0%nat) lease_seconds) t
        ∧ attempt t = attempt (row_task r) + 1
        ∧ ∃ r', db_tasks db' !! task_id t = Some r' ∧ row_task r' = t
  | Ok (None, db') =>
      db' = db ∧ ∀ tid r, db_tasks db !! tid = Some r → claimable (clk 0%nat) r = true →
        locked tid = true
  | Err _ => False
  end.
Proof.
  intros Hwf. unfold Mysql.claim_next.
  destruct (order_limit1 _ _) as [r|] eqn:Hsel.
  - apply order_limit1_Some in Hsel as [Hin Hmin].
    apply list_elem_of_filter in Hin as [[Hc Hl] [tid Hr]%task_rows_elem].
    pose proof (wf_rows _ Hwf _ _ Hr) as Hrow.
    rewrite (task_from_row_wf _ _ Hrow); cbn [mbind result_bind].
    pose proof (apply_claim_spec wid (clk 0%nat) (lease_until (clk 0%nat) lease_seconds) (row_task r))
      as (Hs & Hw & Hle & _ & Hat & _ & _ & _ & _ & _ & _ & _ & Hid & _).
    destruct (apply_claim wid _ _ (row_task r)) as [t ty]; cbn [fst snd] in *. simpl.
    rewrite (rw_id _ _ Hrow) in Hid.
    exists r. rewrite Hid. split; [done|]. split; [done|]. split; [|split; [done|split; [done|]]].
    + intros tid' r' Hr' Hc' Hl'. pose proof (wf_rows _ Hwf _ _ Hr') as Hrow'.
      rewrite <- (rw_created _ _ Hrow), <- (rw_created _ _ Hrow').
      apply Hmin, list_elem_of_filter. rewrite (rw_id _ _ Hrow').
      split; [done|]. apply task_rows_elem. eauto.
    + rewrite lookup_alter_eq, Hr. simpl. eauto.
  - apply order_limit1_None in Hsel. split; [done|].
    intros tid r Hr Hc. apply not_false_iff_true. intros Hl.
    pose proof (wf_rows _ Hwf _ _ Hr) as Hrow.
    assert (r ∈ ([] : list TaskRow)); [|set_solver]. rewrite <- Hsel.
    apply list_elem_of_filter. rewrite (rw_id _ _ Hrow). split; [done|]. apply task_rows_elem. eauto.
Qed.

(** claiming is first-in first-out and never fails: [claim_next] returns
    the oldest claimable task no other transaction holds, now leased to the
    caller with one more attempt; it returns nothing, and writes nothing,
    only when every claimable task is locked. *)
Theorem claim_oldest_first ops locked wid lease_seconds clk :
  ops_ok ops →
  let db := mysql_run ops empty_db in
  match Mysql.claim_next locked wid lease_seconds clk db with
  | Ok (Some t, db') =>
      ∃ r, db_tasks db !! task_id t = Some r ∧ claimable (clk 0%nat) r = true
        ∧ (∀ tid r', db_tasks db !! tid = Some r' → claimable (clk 0%nat) r' = true →
             locked tid = false → created_at (row_task r) <= created_at (row_task r'))
        ∧ held wid (lease_until (clk 0%nat) lease_seconds) t
        ∧ attempt t = attempt (row_task r) + 1
        ∧ ∃ r', db_tasks db' !! task_id t = Some r' ∧ row_task r' = t
  | Ok (None, db') =>
      db' = db ∧ ∀ tid r, db_tasks db !! tid = Some r → claimable (clk 0%nat) r = true →
        locked tid = true
  | Err _ => False
  end.
Proof. intros Hops. by apply mysql_claim_spec, mysql_run_wf. Qed.

(** on claims and on progress reports the two stores are the same
    function of the tables, whichever store wrote them. *)
Theorem stores_agree_on_running ops tid wid pu lease_seconds clk :
  ops_ok ops →
  Sqlite.claim_next wid lease_seconds clk (sqlite_run ops empty_db)
  = Mysql.claim_next (fun _ => false) wid lease_seconds clk (sqlite_run ops empty_db)
  ∧ Sqlite.record_progress tid wid pu clk (mysql_run ops empty_db)
    = Mysql.record_progress tid wid pu clk (mysql_run ops empty_db).
Proof.
  intros Hops. split.
  - pose proof (sqlite_run_wf ops Hops) as Hwf.
    unfold Sqlite.claim_next, Mysql.claim_next.
    rewrite (filter_same (fun r => claimable (clk 0%nat) r = true ∧ false = false)
               (fun r => claimable (clk 0%nat) r = true)) by naive_solver.
    destruct (order_limit1 _ _) as [r|] eqn:Hsel; [|done].
    destruct (SqliteTaskProofs.sqlite_claim_candidate _ _ _ Hsel) as (Hc & [k Hr] & _).
    pose proof (wf_rows _ Hwf _ _ Hr) as Hrow.
    rewrite (task_from_row_wf _ _ Hrow); cbn [mbind result_bind].
    rewrite (rw_id _ _ Hrow), Hr, Hc.
    pose proof (apply_claim_spec wid (clk 0%nat) (lease_until (clk 0%nat) lease_seconds) (row_task r))
      as (_&_&_&_&_&_&_&_&_&_&_&_&Hid&_).
    destruct (apply_claim wid _ _ (row_task r)) as [t ty]; cbn [fst snd] in *.
    rewrite (rw_id _ _ Hrow) in Hid. unfold save_task. simpl. rewrite Hid.
    by rewrite alter_save_alter.
  - done.
Qed.

(** *** Event pages *)

(** The answer of [list_events], the same in both stores. *)
Lemma list_events_ok tid after limit db t :
  db_wf db → Sqlite.get_task tid None db = Ok t → 0 <= after → 1 <= limit <= 1000 →
  Sqlite.list_events tid after limit db = Ok (select_events tid after limit db)
  ∧ Mysql.list_events tid after limit db = Ok (select_events tid after limit db).
Proof.
  intros Hwf Ht Ha Hl.
  assert (Hm : Mysql.get_task tid None db = Ok t).
  { revert Ht. unfold Sqlite.get_task, Mysql.get_task, Sqlite.get_row, Mysql.get_owned_row.
    destruct (db_tasks db !! tid) as [r|]; cbn [mbind result_bind]; [|done].
    by destruct (task_from_row r). }
  unfold Sqlite.list_events, Mysql.list_events. rewrite Ht, Hm. cbn [mbind result_bind].
  rewrite Z.max_r, (Z.max_r 1), Z.min_l by lia.
  assert (Hok : forallb event_fields_ok (select_events tid after limit db) = true); [|by rewrite Hok].
  rewrite select_events_take by done. apply forallb_forall. intros e He%list_elem_of_In.
  apply subseteq_take in He. apply list_elem_of_filter in He as [_ He].
  pose proof (wf_events _ Hwf) as Hev. rewrite Forall_forall in Hev. by apply Hev.
Qed.

Lemma resume_after_bound tid after limit db :
  db_wf db → after <= resume_after after (select_events tid after limit db).
Proof.
  intros Hwf. rewrite select_events_take by done. unfold resume_after.
  destruct (last _) as [e|] eqn:He; [|lia].
  apply last_Some in He as [l He].
  assert (Hin : e ∈ take (Z.to_nat limit) (events_after tid after db)) by (rewrite He; set_solver).
  apply subseteq_take in Hin. apply list_elem_of_filter in Hin as [[_ ?] _]. lia.
Qed.

(** a subscriber that reads a page of a task's events and resumes after
    the last id it saw misses and repeats nothing: the two pages are the one
    page of their total size, in either store. *)
Theorem event_pages_resume ops tid after n m t :
  ops_ok ops → 0 <= after → 1 <= n → 1 <= m → n + m <= 1000 →
  let db := sqlite_run ops empty_db in
  Sqlite.get_task tid None db = Ok t →
  ∃ p1 p2,
    Sqlite.list_events tid after n db = Ok p1
    ∧ Sqlite.list_events tid (resume_after after p1) m db = Ok p2
    ∧ Sqlite.list_events tid after (n + m) db = Ok (p1 ++ p2)
    ∧ Mysql.list_events tid after n db = Ok p1
    ∧ Mysql.list_events tid (resume_after after p1) m db = Ok p2.
Proof.
  intros Hops Ha Hn Hm Hnm db Ht. pose proof (sqlite_run_wf ops Hops) as Hwf.
  pose proof (resume_after_bound tid after n db Hwf) as Hres.
  destruct (list_events_ok tid after n db t) as [H1 H1']; [done..|lia|].
  destruct (list_events_ok tid (resume_after after (select_events tid after n db)) m db t)
    as [H2 H2']; [done|done|lia|lia|].
  destruct (list_events_ok tid after (n + m) db t) as [H3 _]; [done..|lia|].
  eexists _, _. split; [exact H1|]. split; [exact H2|].
  rewrite <- event_pages by (done || lia). auto.
Qed.

(** *** Cancellation of a running task *)

Lemma orphan_not_claimable tid r w now :
  row_wf tid r → orphaned w (row_task r) → claimable now r = false.
Proof.
  intros Hrow (_ & _ & Hc). unfold claimable. by rewrite (rw_cancel _ _ Hrow), Hc.
Qed.

(** a task whose cancellation was requested while it ran is ended by its
    own worker only: if that worker never writes again, the task is running,
    and no claim may take it, after any writes of anyone else, at any time. *)
Theorem cancelled_task_needs_its_worker ops more tid r w :
  ops_ok ops → ops_ok more → Forall (fun oc => op_actor oc.1 ≠ Some w) more →
  orphaned w (row_task r) →
  (db_tasks (sqlite_run ops empty_db) !! tid = Some r →
   ∃ r', db_tasks (sqlite_run (ops ++ more) empty_db) !! tid = Some r'
         ∧ status (row_task r') = Running ∧ ∀ now, claimable now r' = false)
  ∧ (db_tasks (mysql_run ops empty_db) !! tid = Some r →
     ∃ r', db_tasks (mysql_run (ops ++ more) empty_db) !! tid = Some r'
           ∧ status (row_task r') = Running ∧ ∀ now, claimable now r' = false).
Proof.
  intros Hops Hmore Hoth Ho.
  apply (labels_Forall (fun a _ => a ≠ Some w)) in Hoth.
  pose proof (sqlite_run_wf (ops ++ more)) as Hwf1. pose proof (mysql_run_wf (ops ++ more)) as Hwf2.
  assert (ops_ok (ops ++ more)) as Hall by (by apply Forall_app).
  specialize (Hwf1 Hall). specialize (Hwf2 Hall).
  rewrite sqlite_run_app in *. rewrite mysql_run_app in *. split; intros Hr.
  - pose proof (sqlite_run_wf ops Hops) as Hwf.
    eapply orphan_stays in Hoth as (r' & Hr' & Ho');
      [|by apply SqliteTaskProofs.sqlite_run_refines|done..].
    exists r'. split; [done|]. split; [apply Ho'|]. intros now.
    exact (orphan_not_claimable _ _ _ _ (wf_rows _ Hwf1 _ _ Hr') Ho').
  - pose proof (mysql_run_wf ops Hops) as Hwf.
    eapply orphan_stays in Hoth as (r' & Hr' & Ho');
      [|by apply MysqlTaskProofs.mysql_run_refines|done..].
    exists r'. split; [done|]. split; [apply Ho'|]. intros now.
    exact (orphan_not_claimable _ _ _ _ (wf_rows _ Hwf2 _ _ Hr') Ho').
Qed.

(** *** Where the stores differ *)

(** a worker that comes back after its lease ran out: the SQLite store
    revives the lease and accepts the result; the MySQL store refuses both and
    changes nothing. *)
Theorem late_worker_divergence ops tid r w L lease_seconds sid clk :
  ops_ok ops →
  let db := sqlite_run ops empty_db in
  db_tasks db !! tid = Some r → held w L (row_task r) → L <= clk 0%nat → L <= clk 1%nat →
  ((sqlite_exec (OpHeartbeat tid w lease_seconds) clk db).1 = Ok (RBool true)
   ∧ ∃ t, (sqlite_exec (OpSucceed tid w sid) clk db).1 = Ok (RTask t) ∧ status t = Succeeded)
  ∧ mysql_exec (OpHeartbeat tid w lease_seconds) clk db = (Ok (RBool false), db)
  ∧ ∃ msg, mysql_exec (OpSucceed tid w sid) clk db = (Err (TaskLeaseLostError msg), db).
Proof.
  intros Hops db Hr (Hs & Hw & Hl) Hlt0 Hlt1.
  pose proof (sqlite_run_wf ops Hops) as Hwf.
  pose proof (wf_rows _ Hwf _ _ Hr) as Hrow.
  pose proof (task_from_row_wf _ _ Hrow) as Hdec.
  assert (Ht : terminal (row_task r) = false) by (unfold terminal; by rewrite Hs).
  assert (Hlease : ∀ i, L <= clk i → has_valid_lease (row_task r) w (clk i) = false).
  { intros i Hi. unfold has_valid_lease. rewrite Hl, (proj2 (Z.ltb_ge _ _) Hi).
    by rewrite andb_false_r. }
  split; [split|split].
  - unfold Sqlite.exec, commit_or_rollback, Sqlite.perform, Sqlite.heartbeat.
    fold db in Hwf. rewrite Hr, (rw_status _ _ Hrow), (rw_worker _ _ Hrow).
    rewrite bool_decide_true by done. by rewrite Hdec.
  - unfold Sqlite.exec, commit_or_rollback, Sqlite.perform, Sqlite.mark_succeeded,
      Sqlite.mark_terminal, Sqlite.get_row.
    rewrite Hr. cbn [mbind result_bind]. rewrite Hdec. cbn [mbind result_bind].
    rewrite Ht, bool_decide_true by done. by eexists.
  - unfold Mysql.exec, commit_or_rollback, Mysql.perform, Mysql.heartbeat.
    rewrite Hr, Hdec. cbn [mbind result_bind]. by rewrite Hlease by done.
  - unfold Mysql.exec, commit_or_rollback, Mysql.perform, Mysql.mark_succeeded,
      Mysql.mark_terminal, Mysql.get_row.
    rewrite Hr. cbn [mbind result_bind]. rewrite Hdec. cbn [mbind result_bind].
    rewrite Ht, Hlease by done. by eexists.
Qed.
End Stores.

(** ** Witnesses *)

Ltac demo :=
  lazymatch goal with
  | |- ops_ok _ => unfold ops_ok; demo
  | |- held _ _ _ => unfold held; demo
  | |- orphaned _ _ => unfold orphaned; demo
  | |- others_before _ _ _ => unfold others_before; demo
  | |- Forall _ _ =>
      unfold demo_finish, demo_ops, demo_others; simpl app;
      repeat (apply List.Forall_cons || apply List.Forall_nil); demo
  | |- _ ∧ _ => split; demo
  | |- _ => vm_compute; first [reflexivity | discriminate | intros; discriminate]
  end.


Lemma task_lease_exclusive_witness :
  ∃ r', db_tasks (sq_run (demo_ops ++ demo_others) empty_db) !! "t1" = Some r'
        ∧ held "w1" demo_lease (row_task r').
Proof.
  refine (proj1 (task_lease_exclusive (fun s => s) q_text dt_text String.eqb (fun _ => true)
            demo_ops demo_others "t1" (demo_row demo_ops) "w1" demo_lease _ _ _) _ _); demo.
Defined.


Lemma task_progress_monotone_witness :
  ∃ r', db_tasks (sq_run (demo_ops ++ demo_others) empty_db) !! "t1" = Some r'
        ∧ grows (row_task (demo_row demo_ops)) (row_task r').
Proof.
  refine (proj1 (task_progress_monotone (fun s => s) q_text dt_text String.eqb (fun _ => true)
           demo_ops demo_others "t1" (demo_row demo_ops) _ _) _); demo.
Defined.

Lemma sqlite_create_idempotent_witness :
  let t := new_task "t1" "s1" "key 1"
             (Sqlite.request_fingerprint_of (fun s => s) q_text demo_request) demo_request None 5 6 in
  ∃ t', (Sqlite.exec (fun s => s) q_text dt_text
           (OpCreate demo_request "  key   1 " (Some "u2") "t9" "s9") (demo_clock 800)
           (sq_run demo_others (Sqlite.exec (fun s => s) q_text dt_text
              (OpCreate demo_request "key 1" None "t1" "s1") (demo_clock 5) empty_db).2)).1
         = Ok (RCreated t' true) ∧ same_identity t t'.
Proof.
  destruct (sqlite_create_idempotent (fun s => s) q_text dt_text [] demo_others demo_request
              "key 1" "  key   1 " None (Some "u2") "t1" "t9" "s1" "s9" (demo_clock 5) (demo_clock 800)
              (new_task "t1" "s1" "key 1"
                 (Sqlite.request_fingerprint_of (fun s => s) q_text demo_request) demo_request None 5 6)
              (Sqlite.exec (fun s => s) q_text dt_text
                 (OpCreate demo_request "key 1" None "t1" "s1") (demo_clock 5) empty_db).2)
    as (t' & Hc & Hs); [demo..|].
  exists t'. split; [|exact Hs].
  unfold sq_run, Sqlite.exec at 1, commit_or_rollback, Sqlite.perform. by rewrite Hc.
Defined.

Lemma mysql_create_isolated_witness :
  ∃ t db', Mysql.create_task (fun s => s) q_text String.eqb (fun _ => true) demo_request "key 1"
             (Some "u2") "t2" "s2" (demo_clock 900) (my_run demo_ops empty_db) = Ok (t, false, db')
           ∧ user_id t = Some "u2".
Proof.
  eexists _, _. split; [vm_compute; reflexivity|].
  eapply (mysql_create_isolated (fun s => s) q_text dt_text String.eqb (fun _ => true)
            demo_ops demo_request "key 1" (Some "u2") "t2" "s2" (demo_clock 900)); demo.
Defined.

Lemma claim_oldest_first_witness :
  let db := my_run demo_ops empty_db in
  match Mysql.claim_next (fun _ => false) "w2" 30 (demo_clock 40000000) db with
  | Ok (Some t, db') =>
      ∃ r, db_tasks db !! task_id t = Some r ∧ attempt t = attempt (row_task r) + 1
  | _ => False
  end.
Proof.
  pose proof (claim_oldest_first (fun s => s) q_text dt_text String.eqb (fun _ => true)
    demo_ops (fun _ => false) "w2" 30 (demo_clock 40000000) ltac:(demo)) as H.
  cbv zeta in H |- *. unfold my_run.
  destruct (Mysql.claim_next _ _ _ _ _) as [[[t|] db']|] eqn:E in H |- *.
  - destruct H as (r & Hr & _ & _ & _ & Ha & _). eauto.
  - exfalso. revert E. vm_compute. discriminate.
  - exact H.
Defined.

Lemma stores_agree_on_running_witness :
  Sqlite.claim_next "w2" 30 (demo_clock 40000000) (sq_run demo_ops empty_db)
  = Mysql.claim_next (fun _ => false) "w2" 30 (demo_clock 40000000) (sq_run demo_ops empty_db).
Proof.
  refine (proj1 (stores_agree_on_running (fun s => s) q_text dt_text String.eqb (fun _ => true)
           demo_ops "t1" "w2" demo_progress 30 (demo_clock 40000000) _)). demo.
Defined.

Lemma event_pages_resume_witness :
  ∃ p1 p2, Sqlite.list_events "t1" 0 2 (sq_run demo_finish empty_db) = Ok p1
    ∧ Sqlite.list_events "t1" (resume_after 0 p1) 5 (sq_run demo_finish empty_db) = Ok p2
    ∧ length p1 = 2%nat ∧ length p2 = 2%nat.
Proof.
  destruct (event_pages_resume (fun s => s) q_text dt_text String.eqb (fun _ => true) demo_finish "t1" 0 2 5
              (row_task (demo_row demo_finish))) as (p1 & p2 & H1 & H2 & _); [demo..|].
  exists p1, p2. split; [exact H1|]. split; [exact H2|].
  revert H1 H2. vm_compute. intros [= <-] [= <-]. split; reflexivity.
Defined.

Lemma cancelled_task_needs_its_worker_witness :
  ∃ r', db_tasks (my_run ((demo_ops ++ [(OpCancel "t1" None, demo_clock 350)])
                          ++ [(OpClaim (fun _ => false) "w2" 30, demo_clock 90000000)]) empty_db) !! "t1"
        = Some r' ∧ status (row_task r') = Running.
Proof.
  destruct (proj2 (cancelled_task_needs_its_worker (fun s => s) q_text dt_text String.eqb (fun _ => true)
    (demo_ops ++ [(OpCancel "t1" None, demo_clock 350)])
    [(OpClaim (fun _ => false) "w2" 30, demo_clock 90000000)] "t1"
    (demo_row (demo_ops ++ [(OpCancel "t1" None, demo_clock 350)])) "w1"
    ltac:(demo) ltac:(demo) ltac:(demo) ltac:(demo)))
    as (r' & Hr & Hs & _); [demo|].
  exists r'. split; [exact Hr|exact Hs].
Defined.

Lemma late_worker_divergence_witness :
  (Sqlite.exec (fun s => s) q_text dt_text (OpHeartbeat "t1" "w1" 30) (demo_clock 40000000)
     (sq_run demo_ops empty_db)).1 = Ok (RBool true).
Proof.
  refine (proj1 (proj1 (late_worker_divergence (fun s => s) q_text dt_text String.eqb (fun _ => true)
           demo_ops "t1" (demo_row demo_ops) "w1" demo_lease 30 "s1" (demo_clock 40000000) _ _ _ _ _)));
    demo.
Defined.
