(* ===== verification/OrderedDict.v ===== *)
(** Python's [OrderedDict] (and [dict], which keeps insertion order too): an
    association list without duplicate keys, oldest entry first. *)

From S2P Require Import Prelude.
From Stdlib Require Import ZArith Lia String.
From stdpp Require Import base tactics option list gmap strings.

Create HintDb odict.

Section OrderedDict.
Context {V : Type}.

Local Notation odict := (list (string * V)).

(** [d.get(k)] *)
Fixpoint od_get (k : string) (d : odict) : option V :=
  match d with
  | [] => None
  | (k', v) :: d => if String.eqb k k' then Some v else od_get k d
  end.

(** [d.pop(k, None)] *)
Definition od_pop (k : string) (d : odict) : odict := filter (fun e => e.1 ≠ k) d.

(** [d[k] = v]: an existing key keeps its place. *)
Fixpoint od_set (k : string) (v : V) (d : odict) : odict :=
  match d with
  | [] => [(k, v)]
  | (k', v') :: d => if String.eqb k k' then (k, v) :: d else (k', v') :: od_set k v d
  end.

(** [d.move_to_end(k)] on a key of [d] *)
Definition od_move_to_end (k : string) (d : odict) : odict :=
  match od_get k d with Some v => od_pop k d ++ [(k, v)] | None => d end.

(** [while len(d) > limit: d.popitem(last=False)] *)
Definition od_trim (limit : nat) (d : odict) : odict := drop (length d - limit) d.

Definition od_wf (d : odict) : Prop := NoDup d.*1.

(** ** Laws *)

Lemma od_get_elem k v d : od_get k d = Some v → (k, v) ∈ d.
Proof.
  induction d as [|[k' v'] d IH]; simpl; [done|].
  destruct (String.eqb_spec k k') as [->|_]; [intros [= ->]; left|intros H; right; auto].
Qed.

Lemma od_get_None k d : od_get k d = None ↔ k ∉ d.*1.
Proof.
  induction d as [|[k' v'] d IH]; simpl; [set_solver|].
  destruct (String.eqb_spec k k') as [->|Hne]; [set_solver|].
  rewrite IH, not_elem_of_cons. naive_solver.
Qed.

Lemma od_elem_get k v d : od_wf d → (k, v) ∈ d → od_get k d = Some v.
Proof.
  unfold od_wf. induction d as [|[k' v'] d IH]; simpl; [set_solver|].
  intros [Hni Hd]%NoDup_cons [[= -> ->]|H]%elem_of_cons.
  - by rewrite String.eqb_refl.
  - destruct (String.eqb_spec k k') as [->|_]; [|auto].
    destruct Hni. apply list_elem_of_fmap. by exists (k', v).
Qed.

Lemma od_get_app k d1 d2 :
  od_get k (d1 ++ d2) = match od_get k d1 with Some v => Some v | None => od_get k d2 end.
Proof. induction d1 as [|[k' v'] d IH]; simpl; [done|]. by destruct (String.eqb k k'). Qed.

Lemma od_get_set k k' v d :
  od_get k (od_set k' v d) = if String.eqb k k' then Some v else od_get k d.
Proof.
  induction d as [|[k0 v0] d IH]; simpl; [done|].
  destruct (String.eqb_spec k' k0) as [->|Hne]; simpl.
  - by destruct (String.eqb k k0).
  - rewrite IH. destruct (String.eqb_spec k k0), (String.eqb_spec k k'); congruence.
Qed.

Lemma od_pop_cons k k0 v0 d :
  od_pop k ((k0, v0) :: d) = if String.eqb k k0 then od_pop k d else (k0, v0) :: od_pop k d.
Proof.
  unfold od_pop. destruct (String.eqb_spec k k0) as [->|Hne].
  - by rewrite filter_cons_False by (simpl; tauto).
  - by rewrite filter_cons_True by (simpl; congruence).
Qed.

Lemma od_get_pop k k' d :
  od_get k (od_pop k' d) = if String.eqb k k' then None else od_get k d.
Proof.
  induction d as [|[k0 v0] d IH]; [by destruct (String.eqb k k')|].
  rewrite od_pop_cons. destruct (String.eqb_spec k' k0) as [He|Hne]; cbn [od_get]; rewrite IH;
    destruct (String.eqb_spec k k0), (String.eqb_spec k k'); congruence.
Qed.

Lemma od_get_move k k' d : od_wf d → od_get k (od_move_to_end k' d) = od_get k d.
Proof.
  intros Hwf. unfold od_move_to_end. destruct (od_get k' d) as [v|] eqn:E; [|done].
  rewrite od_get_app, od_get_pop. simpl.
  destruct (String.eqb_spec k k') as [->|]; [done|]. by destruct (od_get k d).
Qed.

Lemma od_keys_set k v d :
  (od_set k v d).*1 = if decide (k ∈ d.*1) then d.*1 else d.*1 ++ [k].
Proof.
  induction d as [|[k0 v0] d IH]; [done|]. cbn [od_set].
  destruct (String.eqb_spec k k0) as [->|Hne]; rewrite !fmap_cons; cbn [fst].
  - by rewrite decide_True by set_solver.
  - rewrite IH. destruct (decide (k ∈ d.*1)).
    + by rewrite decide_True by set_solver.
    + by rewrite decide_False by set_solver.
Qed.

Lemma od_wf_set k v d : od_wf d → od_wf (od_set k v d).
Proof.
  unfold od_wf. intros H. rewrite od_keys_set. destruct (decide _); [done|].
  apply NoDup_app. repeat split; [done|set_solver|apply NoDup_singleton].
Qed.

Lemma od_pop_keys k d : (od_pop k d).*1 = filter (fun x => x ≠ k) d.*1.
Proof.
  induction d as [|[k0 v0] d IH]; [done|]. rewrite od_pop_cons, fmap_cons. cbn [fst].
  destruct (String.eqb_spec k k0) as [->|Hne].
  - by rewrite filter_cons_False by tauto.
  - by rewrite filter_cons_True, fmap_cons, IH by congruence.
Qed.

Lemma od_wf_pop k d : od_wf d → od_wf (od_pop k d).
Proof. unfold od_wf. rewrite od_pop_keys. apply NoDup_filter. Qed.

Lemma od_wf_move k d : od_wf d → od_wf (od_move_to_end k d).
Proof.
  intros H. unfold od_move_to_end. destruct (od_get k d); [|done].
  unfold od_wf. rewrite fmap_app, od_pop_keys. simpl. apply NoDup_app.
  split; [by apply NoDup_filter|]. split; [|apply NoDup_singleton].
  intros x [Hx _]%list_elem_of_filter. set_solver.
Qed.

Lemma od_move_length k d : od_wf d → length (od_move_to_end k d) = length d.
Proof.
  intros Hwf. unfold od_move_to_end. destruct (od_get k d) as [v|] eqn:E; [|done].
  apply od_get_elem in E. rewrite length_app. simpl. unfold od_wf in Hwf.
  induction d as [|[k0 v0] d IH]; [set_solver|].
  simpl in Hwf. apply NoDup_cons in Hwf as [Hni Hd].
  rewrite od_pop_cons. destruct (String.eqb_spec k k0) as [->|Hne]; simpl.
  - enough (od_pop k0 d = d) as -> by lia. apply filter_all, Forall_forall.
    intros [k' v'] Hin. simpl. intros ->. apply Hni, list_elem_of_fmap. by exists (k0, v').
  - enough (length (od_pop k d) + 1 = length d)%nat by lia. apply IH; [done|].
    apply elem_of_cons in E as [[= -> ->]|E]; [done|exact E].
Qed.

Lemma od_set_length k v d : (length (od_set k v d) <= S (length d))%nat.
Proof.
  induction d as [|[k0 v0] d IH]; simpl; [lia|]. destruct (String.eqb k k0); simpl; lia.
Qed.

(** The entry just written, moved to the end, is last. *)
Lemma od_set_move_end k v d :
  od_wf d → od_move_to_end k (od_set k v d) = od_pop k d ++ [(k, v)].
Proof.
  intros Hwf. unfold od_move_to_end. rewrite od_get_set, String.eqb_refl. f_equal.
  induction d as [|[k0 v0] d IH]; cbn [od_set].
  - by rewrite od_pop_cons, String.eqb_refl.
  - unfold od_wf in *. simpl in Hwf. apply NoDup_cons in Hwf as [Hni Hd].
    destruct (String.eqb_spec k k0) as [->|Hne]; rewrite !od_pop_cons.
    + by rewrite !String.eqb_refl.
    + rewrite !(proj2 (String.eqb_neq k k0)) by done. f_equal. auto.
Qed.

Lemma od_wf_drop n d : od_wf d → od_wf (drop n d).
Proof.
  unfold od_wf. rewrite fmap_drop. intros H. rewrite <- (take_drop n d.*1) in H.
  by apply NoDup_app in H as (_ & _ & H).
Qed.

Lemma od_get_drop k v n d : od_wf d → od_get k (drop n d) = Some v → od_get k d = Some v.
Proof.
  intros Hwf H. apply od_elem_get; [done|]. apply od_get_elem in H.
  rewrite <- (take_drop n d). set_solver.
Qed.

Lemma od_trim_length limit d : (length (od_trim limit d) <= limit)%nat.
Proof. unfold od_trim. rewrite length_drop. lia. Qed.

Lemma od_wf_trim limit d : od_wf d → od_wf (od_trim limit d).
Proof. apply od_wf_drop. Qed.

Lemma od_trim_id limit d : (length d <= limit)%nat → od_trim limit d = d.
Proof. intros H. unfold od_trim. by replace (length d - limit)%nat with 0%nat by lia. Qed.
End OrderedDict.

Notation odict V := (list (string * V)).

#[export] Hint Resolve od_wf_set od_wf_pop od_wf_move od_wf_trim od_wf_drop : odict.
