(* ===== verification/TaskBus.v ===== *)
(** The in-process wake-up coordinator and the notification buses
    (src/app/infrastructure/notifications/bus.py and
    src/app/infrastructure/redis/task_notifications.py).

    Every method runs under the coordinator's lock, so a method is one step of
    [Wake].  A reading of the monotonic clock is an argument (seconds).  The
    two [wait_for_*] methods block on a condition: the model has the predicate
    they wait for, [worker_ready] and [task_ready]. *)

From S2P Require Import Prelude OrderedDict.
From Stdlib Require Import ZArith QArith Lia Lqa String Sorted.
From stdpp Require Import base tactics option list gmap strings.

Open Scope string_scope.
Open Scope Z_scope.
Open Scope list_scope.

(** ** [TaskWakeCoordinator] *)

Record Wake := mkWake {
  worker_revision : Z;
  task_revisions : odict Z;
  cancelled_at : odict Q;
  max_tracked_tasks : Z;
  cancellation_ttl_seconds : Q
}.

#[export] Instance wake_rebuild : Rebuild Wake := fun w =>
  mkWake (worker_revision w) (task_revisions w) (cancelled_at w)
    (max_tracked_tasks w) (cancellation_ttl_seconds w).

Definition new_coordinator (max_tracked : Z) (ttl : Q) : Wake :=
  mkWake 0 [] [] (Z.max 100 max_tracked) (fmax 1 ttl).

Definition worker_cursor (w : Wake) : Z := worker_revision w.
Definition task_cursor (tid : string) (w : Wake) : Z := default 0 (od_get tid (task_revisions w)).

Definition signal_worker (w : Wake) : Wake := w <| worker_revision := worker_revision w + 1 |>.

(** The loop of [_prune_cancellations_locked]. *)
Fixpoint prune_until (cutoff : Q) (d : odict Q) : odict Q :=
  match d with
  | (tid, signalled_at) :: rest =>
      if Qle_bool cutoff signalled_at then d else prune_until cutoff rest
  | [] => []
  end.

Definition prune_cancellations (now : Q) (w : Wake) : Wake :=
  w <| cancelled_at := prune_until (now - cancellation_ttl_seconds w) (cancelled_at w) |>.

Definition trim_locked (now : Q) (w : Wake) : Wake :=
  let w := prune_cancellations now w in
  w <| task_revisions := od_trim (Z.to_nat (max_tracked_tasks w)) (task_revisions w) |>
    <| cancelled_at := od_trim (Z.to_nat (max_tracked_tasks w)) (cancelled_at w) |>.

(** [revision = get(tid, 0) + 1; d[tid] = revision; d.move_to_end(tid)] *)
Definition bump_task (tid : string) (w : Wake) : Wake :=
  w <| task_revisions :=
         od_move_to_end tid (od_set tid (task_cursor tid w + 1) (task_revisions w)) |>.

Definition signal_task (tid : string) (now : Q) (w : Wake) : Wake :=
  trim_locked now (bump_task tid w).

Definition signal_cancellation (tid : string) (now later : Q) (w : Wake) : Wake :=
  let w := w <| cancelled_at := od_move_to_end tid (od_set tid now (cancelled_at w)) |> in
  trim_locked later (signal_worker (bump_task tid w)).

Definition worker_ready (cursor : Z) (w : Wake) : bool := negb (worker_revision w =? cursor).
Definition task_ready (tid : string) (cursor : Z) (w : Wake) : bool :=
  negb (task_cursor tid w =? cursor).

Definition is_cancel_signalled (tid : string) (now : Q) (w : Wake) : bool * Wake :=
  let w := prune_cancellations now w in
  (bool_decide (is_Some (od_get tid (cancelled_at w))), w).

Definition clear_cancellation (tid : string) (w : Wake) : Wake :=
  w <| cancelled_at := od_pop tid (cancelled_at w) |>.

(** ** [NoOpTaskNotificationBus] and [RedisTaskNotificationBus] *)

Definition metric_names : list string :=
  ["published_task_available"; "published_task_events"; "published_cancellations";
   "publish_degraded"; "received_task_available"; "received_task_events";
   "received_cancellations"; "invalid_messages"; "subscriber_reconnects";
   "worker_notification_wakeups"; "worker_poll_timeouts"; "sse_notification_wakeups";
   "sse_poll_timeouts"; "cancel_fast_path_hits"; "mysql_poll_fallbacks"].

Record Bus := mkBus { bus_wake : Wake; bus_metrics : gmap string Z }.

#[export] Instance bus_rebuild : Rebuild Bus := fun b => mkBus (bus_wake b) (bus_metrics b).

Definition new_bus (w : Wake) : Bus :=
  mkBus w (list_to_map ((fun n => (n, 0)) <$> metric_names)).

(** [_increment] *)
Definition increment (name : string) (b : Bus) : Bus :=
  b <| bus_metrics := alter (Z.add 1) name (bus_metrics b) |>.

Definition on_wake (f : Wake → Wake) (b : Bus) : Bus := b <| bus_wake := f (bus_wake b) |>.

Definition publish_task_available (tid : string) (now : Q) (b : Bus) : Bus :=
  on_wake (fun w => signal_worker (signal_task tid now w)) (increment "published_task_available" b).
Definition publish_task_event (tid : string) (now : Q) (b : Bus) : Bus :=
  on_wake (signal_task tid now) (increment "published_task_events" b).
Definition publish_cancellation (tid : string) (now later : Q) (b : Bus) : Bus :=
  on_wake (signal_cancellation tid now later) (increment "published_cancellations" b).
Definition wake_worker_local (b : Bus) : Bus := on_wake signal_worker b.

(** The counter [wait_for_worker] and [wait_for_task] bump when they return. *)
Definition waited_for_worker (notified : bool) : Bus → Bus :=
  increment (if notified then "worker_notification_wakeups" else "worker_poll_timeouts").
Definition waited_for_task (notified : bool) : Bus → Bus :=
  increment (if notified then "sse_notification_wakeups" else "sse_poll_timeouts").

(** [TaskNotificationMessage] and the checks of its constructor. *)
Record TaskNotificationMessage := mkMessage {
  msg_kind : string;
  msg_task_id : string;
  msg_event_id : option Z;
  msg_event_type : option string;
  msg_schema_version : Z
}.

Definition safe_task_id_char (c : Ascii.ascii) : bool :=
  let n := Z.of_nat (Ascii.nat_of_ascii c) in
  ((65 <=? n) && (n <=? 90)) || ((97 <=? n) && (n <=? 122)) || ((48 <=? n) && (n <=? 57))
  || (n =? 46) || (n =? 95) || (n =? 45).

Definition safe_task_id (s : string) : bool :=
  let l := list_ascii_of_string s in
  forallb safe_task_id_char l && (1 <=? Z.of_nat (length l)) && (Z.of_nat (length l) <=? 128).

Definition message_checked (m : TaskNotificationMessage) : result exn TaskNotificationMessage :=
  if negb (msg_schema_version m =? 1) then Err (ValueError "不支持的任务通知 schema_version")
  else if negb (safe_task_id (msg_task_id m)) then Err (ValueError "任务通知 task_id 格式无效")
  else if match msg_event_id m with Some i => i <? 1 | None => false end
  then Err (ValueError "任务通知 event_id 必须大于 0")
  else if negb (existsb (String.eqb (msg_kind m)) ["task_available"; "task_event"; "cancellation"])
  then Err (ValueError "任务通知 kind 无效")
  else Ok m.

(** [_publish]: [sent] is what the Redis client answers ([false]: the fallback). *)
Definition redis_publish (enabled sent : bool) (b : Bus) : Bus :=
  if negb enabled then b else if sent then b else increment "publish_degraded" b.

(** The three [publish_*] methods of the Redis bus: the local wake-up first,
    then the message, whose constructor may raise. *)
Definition redis_publish_message (enabled sent : bool) (m : TaskNotificationMessage) (b : Bus)
    : result exn unit * Bus :=
  match message_checked m with
  | Err e => (Err e, b)
  | Ok _ => (Ok tt, redis_publish enabled sent b)
  end.
Definition redis_task_available (enabled sent : bool) (tid : string) (now : Q) (b : Bus) :=
  redis_publish_message enabled sent (mkMessage "task_available" tid None None 1)
    (publish_task_available tid now b).
Definition redis_task_event (enabled sent : bool) (tid : string) (ty : option string) (now : Q)
    (b : Bus) :=
  redis_publish_message enabled sent (mkMessage "task_event" tid None ty 1)
    (publish_task_event tid now b).
Definition redis_cancellation (enabled sent : bool) (tid : string) (now later : Q) (b : Bus) :=
  redis_publish_message enabled sent (mkMessage "cancellation" tid None None 1)
    (publish_cancellation tid now later b).

(** [_handle_message] on the decoded message ([None]: it does not decode). *)
Definition handle_message (m : option TaskNotificationMessage) (now later : Q) (b : Bus) : Bus :=
  match m with
  | None => increment "invalid_messages" b
  | Some m =>
      if String.eqb (msg_kind m) "task_available" then
        on_wake (fun w => signal_worker (signal_task (msg_task_id m) now w))
          (increment "received_task_available" b)
      else if String.eqb (msg_kind m) "task_event" then
        on_wake (signal_task (msg_task_id m) now) (increment "received_task_events" b)
      else if String.eqb (msg_kind m) "cancellation" then
        on_wake (signal_cancellation (msg_task_id m) now later)
          (increment "received_cancellations" b)
      else b
  end.

(** ** Runs of the coordinator *)

Inductive WakeOp :=
| SignalWorker
| SignalTask (tid : string) (now : Q)
| SignalCancellation (tid : string) (now later : Q)
| AskCancelled (tid : string) (now : Q)
| ClearCancellation (tid : string).

Definition wake_step (w : Wake) (op : WakeOp) : Wake :=
  match op with
  | SignalWorker => signal_worker w
  | SignalTask tid now => signal_task tid now w
  | SignalCancellation tid now later => signal_cancellation tid now later w
  | AskCancelled tid now => (is_cancel_signalled tid now w).2
  | ClearCancellation tid => clear_cancellation tid w
  end.

Definition wake_run (ops : list WakeOp) (w : Wake) : Wake := foldl wake_step w ops.

Definition signals_worker (op : WakeOp) : bool :=
  match op with SignalWorker | SignalCancellation _ _ _ => true | _ => false end.
Definition signals_task (tid : string) (op : WakeOp) : bool :=
  match op with
  | SignalTask t _ | SignalCancellation t _ _ => String.eqb t tid
  | _ => false
  end.

(** The tasks a list of operations signals. *)
Definition op_tasks (op : WakeOp) : list string :=
  match op with SignalTask t _ | SignalCancellation t _ _ => [t] | _ => [] end.
Definition ops_tasks (ops : list WakeOp) : list string := ops ≫= op_tasks.

(** The clock readings of a list of operations, in order. *)
Definition op_times (op : WakeOp) : list Q :=
  match op with
  | SignalTask _ now | AskCancelled _ now => [now]
  | SignalCancellation _ now later => [now; later]
  | _ => []
  end.
Definition ops_times (ops : list WakeOp) : list Q := ops ≫= op_times.

(** When the cancellation of [tid] was last signalled and not cleared since. *)
Definition since_step (tid : string) (s : option Q) (op : WakeOp) : option Q :=
  match op with
  | SignalCancellation t now _ => if String.eqb t tid then Some now else s
  | ClearCancellation t => if String.eqb t tid then None else s
  | _ => s
  end.
Definition cancelled_since (tid : string) (ops : list WakeOp) : option Q :=
  foldl (since_step tid) None ops.
