(* ===== verification/TaskBusTheorems.v ===== *)
(** What the wake-up coordinator guarantees: a worker's wake-up is never lost,
    a task's wake-up is not lost while the task is tracked, the cancellation
    flag is exactly "signalled, not cleared, within its time to live", and
    both tables stay within their bound. *)

From S2P Require Import Prelude OrderedDict TaskBus.
From Stdlib Require Import ZArith QArith Lia Lqa String Sorted.
From stdpp Require Import base tactics option list gmap strings sorting pretty.

Open Scope string_scope.
Open Scope Z_scope.
Open Scope list_scope.

(** ** Well-formed coordinators *)

Record wake_wf (w : Wake) : Prop := {
  ww_tasks : od_wf (task_revisions w);
  ww_cancelled : od_wf (cancelled_at w);
  ww_tasks_bound : Z.of_nat (length (task_revisions w)) <= max_tracked_tasks w;
  ww_cancelled_bound : Z.of_nat (length (cancelled_at w)) <= max_tracked_tasks w;
  ww_max : 0 <= max_tracked_tasks w
}.

Lemma new_coordinator_wf mx ttl : wake_wf (new_coordinator mx ttl).
Proof. split; simpl; try apply NoDup_nil; lia. Qed.

Lemma prune_until_drop cutoff d : ∃ n, prune_until cutoff d = drop n d.
Proof.
  induction d as [|[t s] d [n IH]]; simpl; [by exists 0%nat|].
  destruct (Qle_bool cutoff s); [by exists 0%nat|by exists (S n)].
Qed.

Lemma trim_wf now w :
  od_wf (task_revisions w) → od_wf (cancelled_at w) → 0 <= max_tracked_tasks w →
  wake_wf (trim_locked now w).
Proof.
  intros Ht Hc Hm. unfold trim_locked, prune_cancellations.
  destruct (prune_until_drop (now - cancellation_ttl_seconds w) (cancelled_at w)) as [n Hn].
  split; simpl; rewrite ?Hn; auto with odict.
  - pose proof (od_trim_length (Z.to_nat (max_tracked_tasks w)) (task_revisions w)). lia.
  - pose proof (od_trim_length (Z.to_nat (max_tracked_tasks w)) (drop n (cancelled_at w))). lia.
Qed.

Lemma wake_step_wf w op : wake_wf w → wake_wf (wake_step w op).
Proof.
  intros [Ht Hc Hbt Hbc Hm].
  destruct op as [|tid now|tid now later|tid now|tid]; simpl.
  - by split.
  - apply trim_wf; simpl; auto with odict.
  - apply trim_wf; simpl; auto with odict.
  - destruct (prune_until_drop (now - cancellation_ttl_seconds w) (cancelled_at w)) as [n Hn].
    split; simpl; rewrite ?Hn; auto with odict. rewrite length_drop. lia.
  - split; simpl; auto with odict.
    assert (length (od_pop tid (cancelled_at w)) ≤ length (cancelled_at w))%nat
      by apply length_filter. lia.
Qed.

Lemma wake_run_wf ops w : wake_wf w → wake_wf (wake_run ops w).
Proof.
  revert w. induction ops as [|op ops IH]; intros w H; [done|]. apply IH. by apply wake_step_wf.
Qed.

Lemma wake_step_config w op :
  max_tracked_tasks (wake_step w op) = max_tracked_tasks w
  ∧ cancellation_ttl_seconds (wake_step w op) = cancellation_ttl_seconds w.
Proof. by destruct op. Qed.

Lemma wake_run_ttl ops w : cancellation_ttl_seconds (wake_run ops w) = cancellation_ttl_seconds w.
Proof.
  revert w. induction ops as [|op ops IH]; intros w; [done|].
  transitivity (cancellation_ttl_seconds (wake_step w op)); [apply IH|apply wake_step_config].
Qed.

(** ** Workers *)

Lemma wake_step_worker w op :
  worker_revision (wake_step w op) = worker_revision w + (if signals_worker op then 1 else 0).
Proof. destruct op; simpl; lia. Qed.

Lemma wake_run_worker ops w :
  worker_revision w <= worker_revision (wake_run ops w)
  ∧ (worker_revision (wake_run ops w) = worker_revision w ↔ existsb signals_worker ops = false).
Proof.
  revert w. induction ops as [|op ops IH]; intros w; simpl; [split; [lia|done]|].
  destruct (IH (wake_step w op)) as [Hle Hiff]. rewrite wake_step_worker in *.
  fold (wake_run ops (wake_step w op)). rewrite orb_false_iff.
  destruct (signals_worker op); [split; [lia|]|split; [lia|]].
  - split; [lia|intros [? _]; discriminate].
  - rewrite <- Hiff. split; [intros; split; [done|lia]|intros [_ ?]; lia].
Qed.

(** no lost wake-up: a worker that reads its cursor, then finds the queue
    empty, then waits, returns at once exactly when a task was announced (or a
    cancellation signalled) since it read the cursor, whatever else happened
    in between. *)
Theorem worker_wakeup_not_lost ops w :
  worker_ready (worker_cursor w) (wake_run ops w) = existsb signals_worker ops.
Proof.
  unfold worker_ready, worker_cursor. destruct (wake_run_worker ops w) as [_ H].
  destruct (existsb signals_worker ops); [|by rewrite (proj2 H), Z.eqb_refl].
  apply negb_true_iff, Z.eqb_neq. intros E%H. discriminate.
Qed.

(** ** Subscribers of one task *)

(** Nothing is evicted while at most [max_tracked_tasks] tasks are in play. *)
Definition tracked (w : Wake) : gset string :=
  list_to_set ((task_revisions w).*1 ++ (cancelled_at w).*1).
Definition fits (ops : list WakeOp) (w : Wake) : Prop :=
  Z.of_nat (size (tracked w ∪ list_to_set (ops_tasks ops))) <= max_tracked_tasks w.

Lemma keys_fit {V} (d : odict V) (X : gset string) n :
  od_wf d → (∀ t, t ∈ d.*1 → t ∈ X) → Z.of_nat (size X) <= n → (length d <= Z.to_nat n)%nat.
Proof.
  intros Hd HX Hn. rewrite <- (length_fmap fst), <- (size_list_to_set (C := gset string) _ Hd).
  assert (Hs : list_to_set (C := gset string) d.*1 ⊆ X) by (intros t; rewrite elem_of_list_to_set; auto).
  apply subseteq_size in Hs. lia.
Qed.

Lemma od_keys_bump {V} k (v : V) d t :
  t ∈ (od_move_to_end k (od_set k v d)).*1 → t = k ∨ t ∈ d.*1.
Proof.
  unfold od_move_to_end. rewrite od_get_set, String.eqb_refl, fmap_app, od_pop_keys, od_keys_set.
  intros [[_ H]%list_elem_of_filter| ->%list_elem_of_singleton]%elem_of_app; [|by left].
  destruct (decide (k ∈ d.*1)); [by right|].
  apply elem_of_app in H as [H| ->%list_elem_of_singleton]; auto.
Qed.

Lemma drop_keys {V} n (d : odict V) t : t ∈ (drop n d).*1 → t ∈ d.*1.
Proof. rewrite fmap_drop. intros H. rewrite <- (take_drop n d.*1). set_solver. Qed.

(** The effect of a step that evicts nothing. *)
Lemma trim_fits now w (X : gset string) :
  od_wf (task_revisions w) → od_wf (cancelled_at w) →
  (∀ t, t ∈ (task_revisions w).*1 → t ∈ X) → (∀ t, t ∈ (cancelled_at w).*1 → t ∈ X) →
  Z.of_nat (size X) <= max_tracked_tasks w →
  trim_locked now w = prune_cancellations now w.
Proof.
  intros Ht Hc HtX HcX Hs. unfold trim_locked.
  destruct (prune_until_drop (now - cancellation_ttl_seconds w) (cancelled_at w)) as [n Hn].
  destruct w as [wr tr ca mx ttl]. unfold prune_cancellations; simpl in *. rewrite Hn.
  rewrite (od_trim_id _ tr) by (by eapply keys_fit).
  rewrite od_trim_id; [done|]. eapply keys_fit; [by apply od_wf_drop| |done].
  intros t H%drop_keys. auto.
Qed.

Definition keys_in (X : gset string) (w : Wake) : Prop :=
  (∀ t, t ∈ (task_revisions w).*1 → t ∈ X) ∧ (∀ t, t ∈ (cancelled_at w).*1 → t ∈ X).

Lemma prune_keys_in X now w : keys_in X w → keys_in X (prune_cancellations now w).
Proof.
  intros [H1 H2]. split; [done|]. simpl.
  destruct (prune_until_drop (now - cancellation_ttl_seconds w) (cancelled_at w)) as [n ->].
  intros t H%drop_keys. auto.
Qed.

Lemma bump_keys_in X tid w : tid ∈ X → keys_in X w → keys_in X (bump_task tid w).
Proof. intros Ht [H1 H2]. split; [|done]. simpl. intros t [->|H]%od_keys_bump; auto. Qed.

(** What a step does to a coordinator of well-formed tables whose tasks, and
    those of the step, are in a small enough set. *)
Lemma wake_step_untrimmed w op (X : gset string) :
  wake_wf w → keys_in X w → (∀ t, t ∈ op_tasks op → t ∈ X) →
  Z.of_nat (size X) <= max_tracked_tasks w →
  wake_step w op =
    match op with
    | SignalWorker => signal_worker w
    | SignalTask tid now => prune_cancellations now (bump_task tid w)
    | SignalCancellation tid now later =>
        prune_cancellations later (signal_worker (bump_task tid
          (w <| cancelled_at := od_move_to_end tid (od_set tid now (cancelled_at w)) |>)))
    | AskCancelled tid now => prune_cancellations now w
    | ClearCancellation tid => clear_cancellation tid w
    end
  ∧ keys_in X (wake_step w op).
Proof.
  intros [Ht Hc _ _ _] HX Hop Hs. destruct op as [|tid now|tid now later|tid now|tid]; simpl.
  - done.
  - assert (tid ∈ X) as Htid by (apply Hop; set_solver).
    pose proof (bump_keys_in X tid w Htid HX) as HX'. unfold signal_task.
    rewrite (trim_fits now _ X); [split; [done|by apply prune_keys_in]|..]; simpl; auto with odict;
      apply HX'.
  - assert (tid ∈ X) as Htid by (apply Hop; set_solver).
    unfold signal_cancellation.
    set (w1 := w <| cancelled_at := od_move_to_end tid (od_set tid now (cancelled_at w)) |>).
    assert (HX1 : keys_in X w1).
    { split; simpl; [apply HX|]. intros t [->|H]%od_keys_bump; [done|by apply HX]. }
    pose proof (bump_keys_in X tid w1 Htid HX1) as HX'.
    rewrite (trim_fits later _ X); [split; [done|by apply prune_keys_in]|..]; simpl; auto with odict;
      apply HX'.
  - split; [done|by apply prune_keys_in].
  - split; [done|]. destruct HX as [H1 H2]. split; [done|]. simpl. intros t.
    rewrite od_pop_keys. intros [_ H]%list_elem_of_filter. auto.
Qed.

Lemma task_cursor_bump tid t w :
  od_wf (task_revisions w) →
  task_cursor t (bump_task tid w) = task_cursor t w + (if String.eqb tid t then 1 else 0).
Proof.
  intros Hwf. unfold task_cursor at 1, bump_task. simpl.
  rewrite od_get_move, od_get_set by auto with odict. rewrite (String.eqb_sym t tid).
  destruct (String.eqb_spec tid t) as [->|_]; [done|]. unfold task_cursor. lia.
Qed.

Lemma task_run_cursor tid ops w (X : gset string) :
  wake_wf w → keys_in X w → (∀ t, t ∈ ops_tasks ops → t ∈ X) →
  Z.of_nat (size X) <= max_tracked_tasks w →
  task_cursor tid (wake_run ops w)
  = task_cursor tid w + Z.of_nat (length (filter (fun op => signals_task tid op = true) ops)).
Proof.
  revert w. induction ops as [|op ops IH]; intros w Hwf HX Hops Hs; simpl; [lia|].
  destruct (wake_step_untrimmed w op X Hwf HX) as [Heq HX']; [set_solver|done|].
  fold (wake_run ops (wake_step w op)).
  rewrite IH; [|by apply wake_step_wf|done|set_solver|by rewrite (proj1 (wake_step_config w op))].
  assert (Hc : task_cursor tid (wake_step w op)
               = task_cursor tid w + (if signals_task tid op then 1 else 0)).
  { rewrite Heq. destruct op as [|t now|t now later|t now|t]; simpl; try (unfold task_cursor; simpl; lia).
    - by apply (task_cursor_bump t tid w), ww_tasks.
    - by apply (task_cursor_bump t tid w), ww_tasks. }
  rewrite Hc. destruct (signals_task tid op) eqn:E.
  - rewrite filter_cons_True by done. simpl. lia.
  - rewrite filter_cons_False by congruence. lia.
Qed.

(** C35: a subscriber of one task misses nothing either, as long as no more
    tasks are in play than the coordinator tracks: it returns at once exactly
    when its task was signalled since it read its cursor. *)
Theorem task_wakeup_not_lost ops tid w :
  wake_wf w → fits ops w →
  task_ready tid (task_cursor tid w) (wake_run ops w) = existsb (signals_task tid) ops.
Proof.
  intros Hwf Hfit. unfold task_ready.
  rewrite (task_run_cursor tid ops w (tracked w ∪ list_to_set (ops_tasks ops)));
    [|done|split; unfold tracked; set_solver|set_solver|done].
  pose proof (filter_existsb (signals_task tid) ops) as Hlen.
  destruct (existsb (signals_task tid) ops).
  - apply negb_true_iff, Z.eqb_neq. intros E. assert (true = false); [|done]. apply Hlen. lia.
  - rewrite (proj2 Hlen) by done. apply negb_false_iff, Z.eqb_eq. lia.
Qed.

(** ** Cancellation flags *)

Definition older (x y : string * Q) : Prop := (x.2 <= y.2)%Q.

(** [f] says when each task was cancelled; the table holds these entries, in
    the order of their times, less some that have expired at [last_time]. *)
Record cancel_ok (f : string → option Q) (last_time : Q) (w : Wake) : Prop := {
  co_sorted : StronglySorted older (cancelled_at w);
  co_past : Forall (fun e => (e.2 <= last_time)%Q) (cancelled_at w);
  co_sound : ∀ t s, od_get t (cancelled_at w) = Some s → f t = Some s;
  co_complete : ∀ t s, f t = Some s →
    od_get t (cancelled_at w) = Some s ∨ (s < last_time - cancellation_ttl_seconds w)%Q
}.

Lemma prune_keeps cutoff d t s :
  (t, s) ∈ d → (cutoff <= s)%Q → (t, s) ∈ prune_until cutoff d.
Proof.
  intros Hin Hle. induction d as [|[t0 s0] d IH]; simpl; [set_solver|].
  destruct (Qle_bool cutoff s0) eqn:E; [done|].
  apply elem_of_cons in Hin as [[= -> ->]|Hin]; [|auto].
  apply Qle_bool_iff in Hle. congruence.
Qed.

Lemma prune_fresh cutoff d t s :
  StronglySorted older d → (t, s) ∈ prune_until cutoff d → (cutoff <= s)%Q.
Proof.
  induction 1 as [|[t0 s0] d _ IH Hx]; simpl; [set_solver|].
  destruct (Qle_bool cutoff s0) eqn:E; [|auto]. apply Qle_bool_iff in E.
  rewrite Forall_forall in Hx. intros [[= -> ->]|Hin]%elem_of_cons; [done|].
  specialize (Hx _ Hin). unfold older in Hx. simpl in Hx. lra.
Qed.

Lemma StronglySorted_drop {A} (R : relation A) n l :
  StronglySorted R l → StronglySorted R (drop n l).
Proof.
  revert l. induction n as [|n IH]; intros [|x l] H; try done.
  inversion H; subst. by apply IH.
Qed.

Lemma cancel_ok_prune f last_time now w :
  od_wf (cancelled_at w) → cancel_ok f last_time w → (last_time <= now)%Q →
  cancel_ok f now (prune_cancellations now w).
Proof.
  intros Hc [Hs Hp Hsound Hcomp] Hle. unfold prune_cancellations.
  pose proof (prune_until_drop (now - cancellation_ttl_seconds w) (cancelled_at w)) as [n Hn].
  split; simpl.
  - rewrite Hn. by apply StronglySorted_drop.
  - rewrite Hn. apply Forall_drop. eapply Forall_impl; [exact Hp|]. simpl. intros; lra.
  - intros t s. rewrite Hn. intros H%od_get_drop; auto.
  - intros t s Hf. destruct (Qlt_le_dec s (now - cancellation_ttl_seconds w)) as [?|Hge]; [by right|].
    left. destruct (Hcomp t s Hf) as [Hg|?]; [|lra].
    apply od_elem_get; [rewrite Hn; by apply od_wf_drop|].
    apply prune_keeps; [by apply od_get_elem|done].
Qed.

(** A fresh signal is the newest entry. *)
Lemma cancel_ok_signal f last_time now tid w :
  od_wf (cancelled_at w) → cancel_ok f last_time w → (last_time <= now)%Q →
  cancel_ok (fun t => if String.eqb tid t then Some now else f t) now
    (w <| cancelled_at := od_move_to_end tid (od_set tid now (cancelled_at w)) |>).
Proof.
  intros Hc [Hs Hp Hsound Hcomp] Hle.
  split; simpl; rewrite ?od_set_move_end by done.
  - apply StronglySorted_app_2; [|by apply StronglySorted_filter|repeat constructor].
    intros x y Hx ->%list_elem_of_singleton. apply list_elem_of_filter in Hx as [_ Hx].
    rewrite Forall_forall in Hp. specialize (Hp _ Hx). unfold older. simpl. lra.
  - apply Forall_app. split; [|repeat constructor; simpl; lra].
    apply Forall_forall. intros x Hx. apply list_elem_of_filter in Hx as [_ Hx].
    rewrite Forall_forall in Hp. specialize (Hp _ Hx). lra.
  - intros t s. rewrite od_get_app, od_get_pop. simpl. rewrite (String.eqb_sym t tid).
    destruct (String.eqb tid t); [done|]. destruct (od_get t (cancelled_at w)) eqn:E; [|done].
    intros [= <-]. auto.
  - intros t s. rewrite od_get_app, od_get_pop. simpl. rewrite (String.eqb_sym t tid).
    destruct (String.eqb tid t); [by left|]. intros Hf.
    destruct (Hcomp t s Hf) as [->|?]; [by left|right; lra].
Qed.

Lemma cancel_ok_wake f last_time w w' :
  cancelled_at w' = cancelled_at w → cancellation_ttl_seconds w' = cancellation_ttl_seconds w →
  cancel_ok f last_time w → cancel_ok f last_time w'.
Proof. intros H1 H2 [? ? ? ?]. split; rewrite ?H1, ?H2; done. Qed.

Lemma cancel_ok_clear f last_time tid w :
  cancel_ok f last_time w →
  cancel_ok (fun t => if String.eqb tid t then None else f t) last_time (clear_cancellation tid w).
Proof.
  intros [Hs Hp Hsound Hcomp]. split; simpl.
  - by apply StronglySorted_filter.
  - apply Forall_forall. intros x Hx. apply list_elem_of_filter in Hx as [_ Hx].
    rewrite Forall_forall in Hp. auto.
  - intros t s. rewrite od_get_pop, (String.eqb_sym t tid). destruct (String.eqb tid t); [done|auto].
  - intros t s. rewrite od_get_pop, (String.eqb_sym t tid). destruct (String.eqb tid t); [done|auto].
Qed.

Lemma cancel_ok_ext f g last_time w :
  (∀ t, f t = g t) → cancel_ok f last_time w → cancel_ok g last_time w.
Proof. intros H [? ? ? ?]. split; intros; rewrite <- ?H in *; auto. Qed.

(** The last of a list of clock readings. *)
Definition time_after (last_time : Q) (times : list Q) : Q := default last_time (last times).

Lemma cancel_ok_step f last_time w op (X : gset string) :
  wake_wf w → keys_in X w → (∀ t, t ∈ op_tasks op → t ∈ X) →
  Z.of_nat (size X) <= max_tracked_tasks w →
  Sorted Qle (last_time :: op_times op) → cancel_ok f last_time w →
  cancel_ok (fun t => since_step t (f t) op) (time_after last_time (op_times op)) (wake_step w op).
Proof.
  intros Hwf HX Hop Hs Hord Hok.
  destruct (wake_step_untrimmed w op X Hwf HX Hop Hs) as [-> _].
  destruct op as [|tid now|tid now later|tid now|tid]; cbn [op_times since_step] in *;
    unfold time_after; cbn [last].
  - by apply (cancel_ok_wake _ _ w).
  - inversion Hord as [|? ? _ Hhd]; subst. inversion Hhd; subst.
    eapply cancel_ok_prune; [apply (ww_cancelled _ Hwf)|by apply (cancel_ok_wake _ _ w)|done].
  - inversion Hord as [|? ? Hord' Hhd]; subst. inversion Hhd; subst.
    inversion Hord' as [|? ? _ Hhd']; subst. inversion Hhd'; subst.
    eapply cancel_ok_prune;
      [simpl; apply od_wf_move, od_wf_set, (ww_cancelled _ Hwf)| |done].
    eapply cancel_ok_wake; [..|by apply (cancel_ok_signal f last_time now tid w (ww_cancelled _ Hwf))];
      done.
  - inversion Hord as [|? ? _ Hhd]; subst. inversion Hhd; subst.
    eapply cancel_ok_prune; [apply (ww_cancelled _ Hwf)|done..].
  - by apply cancel_ok_clear.
Qed.

Lemma Sorted_times l1 l2 last_time :
  Sorted Qle (last_time :: l1 ++ l2) →
  Sorted Qle (last_time :: l1) ∧ Sorted Qle (time_after last_time l1 :: l2).
Proof.
  revert last_time. induction l1 as [|x l1 IH]; intros t0 H; [split; [repeat constructor|exact H]|].
  inversion H as [|? ? H' Hhd]; subst. inversion Hhd; subst. destruct (IH _ H') as [Hl Hr].
  split; [constructor; [done|by constructor]|].
  unfold time_after in *. rewrite last_cons. by destruct (last l1).
Qed.

Lemma cancel_ok_run f last_time ops w (X : gset string) now :
  wake_wf w → keys_in X w → (∀ t, t ∈ ops_tasks ops → t ∈ X) →
  Z.of_nat (size X) <= max_tracked_tasks w →
  Sorted Qle (last_time :: ops_times ops ++ [now]) → cancel_ok f last_time w →
  ∃ t1, (t1 <= now)%Q ∧ cancel_ok (fun t => foldl (since_step t) (f t) ops) t1 (wake_run ops w).
Proof.
  revert f last_time w. induction ops as [|op ops IH]; intros f t0 w Hwf HX Hops Hs Hord Hok.
  - inversion Hord as [|? ? _ Hhd]; subst. inversion Hhd; subst. by exists t0.
  - unfold ops_times in Hord. simpl in Hord. rewrite <- app_assoc in Hord.
    apply Sorted_times in Hord as [H1 H2].
    assert (Hop : ∀ t, t ∈ op_tasks op → t ∈ X) by set_solver.
    pose proof (cancel_ok_step f t0 w op X Hwf HX Hop Hs H1 Hok) as Hok'.
    destruct (wake_step_untrimmed w op X Hwf HX Hop Hs) as [_ HX'].
    eapply IH; [by apply wake_step_wf|done|set_solver| |exact H2|exact Hok'].
    by rewrite (proj1 (wake_step_config w op)).
Qed.

(** the cancellation flag is exact: under a clock that never goes back, and
    as long as no more tasks are in play than the coordinator tracks, a task
    is flagged exactly when its last cancellation signal was not cleared and
    is at most the time to live old. *)
Theorem cancel_flag_exact mx ttl ops tid now :
  Sorted Qle (ops_times ops ++ [now]) → fits ops (new_coordinator mx ttl) →
  (is_cancel_signalled tid now (wake_run ops (new_coordinator mx ttl))).1
  = match cancelled_since tid ops with
    | Some s => Qle_bool (now - fmax 1 ttl) s
    | None => false
    end.
Proof.
  intros Hord Hfit. set (w0 := new_coordinator mx ttl).
  pose proof (new_coordinator_wf mx ttl) as Hwf. fold w0 in Hwf, Hfit.
  assert (∃ t0, Sorted Qle (t0 :: ops_times ops ++ [now])) as [t0 Hord0].
  { destruct (ops_times ops ++ [now]) as [|t l]; [exists 0%Q; repeat constructor|].
    exists t. constructor; [done|]. constructor. apply Qle_refl. }
  assert (Hok0 : cancel_ok (fun _ => None) t0 w0) by (split; [apply SSorted_nil|apply Forall_nil_2|done|done]).
  pose proof (cancel_ok_run (fun _ => None) t0 ops w0 (tracked w0 ∪ list_to_set (ops_tasks ops)) now)
    as Hrun.
  destruct Hrun as (t1 & Ht1 & Hok);
    [done|split; unfold tracked; set_solver|set_solver|done|done|done|].
  pose proof (wake_run_wf ops w0 Hwf) as Hwf'.
  pose proof (cancel_ok_prune _ _ _ _ (ww_cancelled _ Hwf') Hok Ht1) as [_ _ Hsound Hcomp].
  unfold is_cancel_signalled. cbn [fst].
  assert (Httl : cancellation_ttl_seconds (wake_run ops w0) = fmax 1 ttl).
  { rewrite wake_run_ttl. done. }
  unfold cancelled_since. specialize (Hsound tid). specialize (Hcomp tid).
  change (cancellation_ttl_seconds (prune_cancellations now (wake_run ops w0)))
    with (cancellation_ttl_seconds (wake_run ops w0)) in Hcomp.
  rewrite Httl in Hcomp.
  destruct (od_get tid (cancelled_at (prune_cancellations now (wake_run ops w0)))) as [s|] eqn:E.
  - rewrite (Hsound s eq_refl). rewrite bool_decide_true by eauto. symmetry.
    apply Qle_bool_iff. rewrite <- Httl. apply od_get_elem in E.
    unfold prune_cancellations in E. cbn [cancelled_at overwrite] in E.
    eapply prune_fresh; [|exact E]. apply (co_sorted _ _ _ Hok).
  - rewrite bool_decide_false by (intros [? ?]; discriminate).
    destruct (foldl _ _ _) as [s|] eqn:Ef; [|done].
    destruct (Hcomp s eq_refl) as [?|Hlt]; [discriminate|].
    symmetry. apply not_true_iff_false. rewrite Qle_bool_iff. lra.
Qed.

(** ** Witnesses *)

Definition demo_wake_ops : list WakeOp :=
  [SignalTask "t1" 1; SignalCancellation "t2" 2 2; AskCancelled "t1" 3; SignalWorker;
   SignalCancellation "t1" 5 6; ClearCancellation "t2"].

Lemma task_wakeup_not_lost_witness :
  let w := new_coordinator 10 60 in
  task_ready "t1" (task_cursor "t1" w) (wake_run demo_wake_ops w) = true.
Proof.
  refine (task_wakeup_not_lost demo_wake_ops "t1" (new_coordinator 10 60)
            (new_coordinator_wf 10 60) _).
  vm_compute. discriminate.
Defined.

Lemma cancel_flag_exact_witness :
  (is_cancel_signalled "t1" 65 (wake_run demo_wake_ops (new_coordinator 10 60))).1 = true
  ∧ (is_cancel_signalled "t1" 66 (wake_run demo_wake_ops (new_coordinator 10 60))).1 = false.
Proof.
  split;
    (rewrite cancel_flag_exact;
      [vm_compute; reflexivity
      |repeat (apply Sorted_cons || apply HdRel_cons || apply HdRel_nil || apply Sorted_nil);
       vm_compute; discriminate
      |vm_compute; discriminate]).
Defined.

(** Past the bound a wake-up can be lost: the revision of an evicted task
    starts again from zero and may come back to the subscriber's cursor. *)
Example task_wakeup_lost_after_eviction :
  let w0 := wake_run [SignalTask "t" 0] (new_coordinator 100 60) in
  let others := (fun i => SignalTask (String.append "x" (pretty (Z.of_nat i))) 0) <$> seq 0 100 in
  let w1 := wake_run (others ++ [SignalTask "t" 0]) w0 in
  task_ready "t" (task_cursor "t" w0) w1 = false.
Proof. vm_compute. reflexivity. Qed.
