(* ===== verification/TaskRuntime.v ===== *)
(** The world a worker acts on, and the store interface it acts through.

    A worker, its heartbeat thread, other workers and the web handlers share
    the tables, the notification bus and the snapshot cache.  [TaskIO] is the
    monad of one thread: before its [n]-th access to the shared tables,
    [env_db n] and [env_bus n] apply what everyone else did since the last
    one, and the access reads the clock [clk n].

    [TripTaskStore] is the protocol of src/app/persistence/interfaces.py that
    the runtime relies on, with the laws its clients need; the SQLite and the
    MySQL stores are its instances (TaskRuntimeTheorems.v). *)

From S2P Require Import Prelude PyData TripSchema TaskModels TaskTables TaskLifecycle TaskBus.
From Stdlib Require Import ZArith QArith Lia String Qround.
From stdpp Require Import base tactics option list gmap strings.

Open Scope string_scope.
Open Scope Z_scope.

(** ** The store interface *)

(** The outcome an operation that ends a task asks for. *)
Definition finishing_status (op : TaskOp) (tid wid : string) : option TaskStatus :=
  match op with
  | OpSucceed t w _ => if bool_decide (t = tid ∧ w = wid) then Some Succeeded else None
  | OpMarkCancelled t w _ => if bool_decide (t = tid ∧ w = wid) then Some Cancelled else None
  | OpFail t w _ timed_out =>
      if bool_decide (t = tid ∧ w = wid)
      then Some (if timed_out then TimedOut else Failed) else None
  | _ => None
  end.

Class TripTaskStore := {
  ts_exec : TaskOp → clock → TaskDb → result exn TaskResponse * TaskDb;
  ts_assert_worker_owns_task : string → string → clock → TaskDb → result exn TripPlanningTask;
  ts_is_cancel_requested : string → TaskDb → result exn bool;
  ts_get_task : string → option string → TaskDb → result exn TripPlanningTask
}.

Class TripTaskStoreLaws `{TripTaskStore} := {
  law_dump : datetime → string;
  law_owned : bool;
  law_same_slot : option string * string → option string * string → bool;
  law_exec_step op clk db :
    op_ok op = true → db_wf db →
    db_step law_dump law_owned law_same_slot (op_actor op) (clk 0%nat) db (ts_exec op clk db).2;
  law_owns tid wid clk db t :
    db_wf db →
    ts_assert_worker_owns_task tid wid clk db = Ok t ↔
    ∃ r, db_tasks db !! tid = Some r ∧ t = row_task r ∧ has_valid_lease t wid (clk 0%nat) = true;
  law_cancel_requested tid db r :
    db_wf db → db_tasks db !! tid = Some r →
    ts_is_cancel_requested tid db
    = Ok (cancel_requested (row_task r) || bool_decide (status (row_task r) = Cancelled));
  law_finish op tid wid s clk db r :
    db_wf db → finishing_status op tid wid = Some s →
    db_tasks db !! tid = Some r → has_valid_lease (row_task r) wid (clk 0%nat) = true →
    ∃ t r', (ts_exec op clk db).1 = Ok (RTask t)
      ∧ db_tasks (ts_exec op clk db).2 !! tid = Some r' ∧ row_task r' = t ∧ status t = s;
  law_progress tid wid pu clk db r :
    db_wf db → db_tasks db !! tid = Some r → has_valid_lease (row_task r) wid (clk 0%nat) = true →
    ∃ t r', (ts_exec (OpProgress tid wid pu) clk db).1 = Ok (RTask t)
      ∧ db_tasks (ts_exec (OpProgress tid wid pu) clk db).2 !! tid = Some r' ∧ row_task r' = t
      ∧ status t = status (row_task r) ∧ worker_id t = worker_id (row_task r)
      ∧ lease_expires_at t = lease_expires_at (row_task r)
}.

(** ** The agent behind a worker (orchestrator, state store) *)

(** What the runtime reads of an [AgentState]. *)
Record StateView := mkStateView {
  sv_session_id : string;
  sv_status : string;
  sv_current_step : Z;
  sv_max_steps : Z;
  sv_history : list (string * bool);
  sv_tool_calls : Z;
  sv_llm_calls : Z
}.

#[export] Instance state_view_rebuild : Rebuild StateView := fun s =>
  mkStateView (sv_session_id s) (sv_status s) (sv_current_step s) (sv_max_steps s)
    (sv_history s) (sv_tool_calls s) (sv_llm_calls s).

(** The classes [_build_failure_report] tells apart. *)
Inductive agent_error_kind :=
| AgentActionError | AgentMaxStepsError | AgentConvergenceError | AgentBudgetExceededError
| OtherError.

#[export] Instance agent_error_kind_eq_dec : EqDecision agent_error_kind.
Proof. solve_decision. Defined.

(** What [getattr] finds on [exc.state] and its [last_action_result]. *)
Record ErrorState := mkErrorState {
  es_session_id : string;
  es_current_step : Z;
  es_max_steps : Z;
  es_provider_code : option string;
  es_provider_message : option string;
  es_retryable : bool
}.

Record AgentFailure := mkAgentFailure {
  af_kind : agent_error_kind;
  af_class : string;
  af_text : string;
  af_state : option ErrorState;
  af_action : option string;
  af_attempt : option Z
}.

(** What a run may raise: the cooperative cancellation signal, an error of the
    stores, or an error of the agent. *)
Inductive run_exn :=
| TaskCancellationRequested (msg : string)
| StoreError (e : exn)
| AgentError (f : AgentFailure).

(** ** The world and its monad *)

Record World (C S : Type) := mkWorld {
  w_db : TaskDb;
  w_bus : Bus;
  w_cache : C;
  w_states : S;
  w_history_start : nat;
  w_tick : nat
}.
Arguments mkWorld {C S} _ _ _ _ _ _.
Arguments w_db {C S} _.
Arguments w_bus {C S} _.
Arguments w_cache {C S} _.
Arguments w_states {C S} _.
Arguments w_history_start {C S} _.
Arguments w_tick {C S} _.

#[export] Instance world_rebuild C S : Rebuild (World C S) := fun w =>
  mkWorld (w_db w) (w_bus w) (w_cache w) (w_states w) (w_history_start w) (w_tick w).

Definition TaskIO (C S A : Type) : Type := World C S → result run_exn A * World C S.

#[export] Instance io_ret C S : MRet (TaskIO C S) := fun A a w => (Ok a, w).
#[export] Instance io_bind C S : MBind (TaskIO C S) := fun A B k m w =>
  match m w with
  | (Ok a, w) => k a w
  | (Err e, w) => (Err e, w)
  end.

Definition raise {C S A} (e : run_exn) : TaskIO C S A := fun w => (Err e, w).

(** [try: body except: handler] *)
Definition try_except {C S A} (body : TaskIO C S A) (handler : run_exn → TaskIO C S A)
    : TaskIO C S A := fun w =>
  match body w with
  | (Err e, w) => handler e w
  | ok => ok
  end.

Definition on_bus {C S} (f : Bus → Bus) : TaskIO C S unit :=
  fun w => (Ok tt, w <| w_bus := f (w_bus w) |>).

(** What the environment does, what the clocks read, and which rows other
    transactions lock, at each access. *)
Class Environment := {
  env_db : nat → TaskDb → TaskDb;
  env_bus : nat → Bus → Bus;
  env_clock : nat → clock;
  env_locked : nat → string → bool;
  env_monotonic : nat → nat → Q
}.

Section Access.
Context {C S : Type} `{Environment} `{TripTaskStore}.

(** One access to the shared tables. *)
Definition access {A} (f : clock → TaskDb → result exn A * TaskDb) : TaskIO C S A := fun w =>
  let n := w_tick w in
  let '(r, db) := f (env_clock n) (env_db n (w_db w)) in
  (match r with Ok a => Ok a | Err e => Err (StoreError e) end,
   w <| w_db := db |> <| w_bus := env_bus n (w_bus w) |> <| w_tick := (n + 1)%nat |>).

Definition io_exec (op : TaskOp) : TaskIO C S TaskResponse := access (ts_exec op).
Definition io_assert_worker_owns_task (tid wid : string) : TaskIO C S TripPlanningTask :=
  access (fun clk db => (ts_assert_worker_owns_task tid wid clk db, db)).
Definition io_is_cancel_requested (tid : string) : TaskIO C S bool :=
  access (fun _ db => (ts_is_cancel_requested tid db, db)).
Definition io_get_task (tid : string) (uid : option string) : TaskIO C S TripPlanningTask :=
  access (fun _ db => (ts_get_task tid uid db, db)).
End Access.

(** Between the stores and the agent (src/app/task_runtime/notifying_store.py
    and context.py): the decorator that notifies after a committed write, and
    the execution context that gives the synchronous agent its cancellation
    points and its progress reports. *)

(** ** The store as its clients see it *)

Class TaskStoreIO (C S : Type) := {
  sio_exec : TaskOp → TaskIO C S TaskResponse;
  sio_assert_worker_owns_task : string → string → TaskIO C S TripPlanningTask;
  sio_is_cancel_requested : string → TaskIO C S bool;
  sio_get_task : string → option string → TaskIO C S TripPlanningTask
}.

(** Equal but for the bus and the cache, which are only accelerators. *)
Definition same_persistent {C S} (w w' : World C S) : Prop :=
  w_db w = w_db w' ∧ w_states w = w_states w' ∧ w_history_start w = w_history_start w'
  ∧ w_tick w = w_tick w'.

Definition transparent {C S A} (f g : TaskIO C S A) : Prop :=
  ∀ w, (f w).1 = (g w).1 ∧ same_persistent (f w).2 (g w).2.

(** The law of a decorator: it changes no answer and no persistent state. *)
Class TaskStoreIOLaws (C S : Type) `{Environment} `{TripTaskStore} `{!TaskStoreIO C S} := {
  sio_exec_transparent op : transparent (sio_exec op) (io_exec op);
  sio_owns_transparent tid wid :
    transparent (sio_assert_worker_owns_task tid wid) (io_assert_worker_owns_task tid wid);
  sio_cancel_transparent tid :
    transparent (sio_is_cancel_requested tid) (io_is_cancel_requested tid)
}.

Section DirectStore.
Context {C S : Type} `{Environment} `{TripTaskStore}.

#[local] Instance direct_store_io : TaskStoreIO C S := {|
  sio_exec := io_exec;
  sio_assert_worker_owns_task := io_assert_worker_owns_task;
  sio_is_cancel_requested := io_is_cancel_requested;
  sio_get_task := io_get_task
|}.
End DirectStore.

(** ** [NotifyingTripTaskStore] *)

(** The interface of [ReadModelSnapshotCache]: lookups and writes never raise. *)
Class SnapshotCache (C : Type) := {
  sc_get_task_progress : string → option string → nat → C → option TripPlanningTask * C;
  sc_set_task_progress : TripPlanningTask → nat → C → C
}.

(** The wire names of the event types. *)
Definition event_type_name (ty : TaskEventType) : string :=
  match ty with
  | task_queued => "task_queued" | task_started => "task_started"
  | task_recovered => "task_recovered" | action_started => "action_started"
  | action_completed => "action_completed" | action_retrying => "action_retrying"
  | cancellation_requested => "cancellation_requested" | task_succeeded => "task_succeeded"
  | task_failed => "task_failed" | task_cancelled => "task_cancelled"
  | task_timed_out => "task_timed_out"
  end.

Module Notifying.
Section Notifying.
(** [backend]: [None] is the local bus, [Some sent] the Redis one, where
    [sent n] tells whether Redis took the message published at tick [n];
    [cached]: whether a snapshot cache is configured. *)
Context {C S : Type} `{Environment} `{TripTaskStore} `{SnapshotCache C}.
Context (backend : option (nat → bool)) (cached : bool).

Notation IO := (TaskIO C S).

(** [_safe_notify]: an error of the bus is swallowed. *)
Definition safe_notify (callback : nat → Bus → result exn unit * Bus) : IO unit :=
  fun w => (Ok tt, w <| w_bus := (callback (w_tick w) (w_bus w)).2 |>).

Definition publish_available (tid : string) (n : nat) (b : Bus) : result exn unit * Bus :=
  match backend with
  | None => (Ok tt, publish_task_available tid (env_monotonic n 0) b)
  | Some sent => redis_task_available true (sent n) tid (env_monotonic n 0) b
  end.
Definition publish_event (tid : string) (ty : TaskEventType) (n : nat) (b : Bus)
    : result exn unit * Bus :=
  match backend with
  | None => (Ok tt, publish_task_event tid (env_monotonic n 0) b)
  | Some sent => redis_task_event true (sent n) tid (Some (event_type_name ty)) (env_monotonic n 0) b
  end.
Definition publish_cancel (tid : string) (n : nat) (b : Bus) : result exn unit * Bus :=
  match backend with
  | None => (Ok tt, publish_cancellation tid (env_monotonic n 0) (env_monotonic n 1) b)
  | Some sent => redis_cancellation true (sent n) tid (env_monotonic n 0) (env_monotonic n 1) b
  end.

Definition notify_event (tid : string) (ty : TaskEventType) : IO unit :=
  safe_notify (publish_event tid ty).

(** [_cache_task] *)
Definition cache_task (t : TripPlanningTask) : IO unit := fun w =>
  (Ok tt, if cached
          then w <| w_cache := sc_set_task_progress t (w_tick w) (w_cache w) |> else w).

(** What each method does once the delegate has returned. *)
Definition after_exec (op : TaskOp) (resp : TaskResponse) : IO unit :=
  match op, resp with
  | OpCreate _ _ _ _ _, RCreated t reused =>
      _ ← cache_task t;
      if reused then mret tt else safe_notify (publish_available (task_id t))
  | OpProgress tid _ pu, RTask t => _ ← notify_event tid (pu_event_type pu); cache_task t
  | OpClaim _ _ _, RClaimed (Some t) =>
      _ ← cache_task t;
      notify_event (task_id t) (if recovery_count t =? 0 then task_started else task_recovered)
  | OpCancel tid _, RTask t =>
      _ ← cache_task t;
      if cancel_requested t then
        _ ← safe_notify (publish_cancel tid);
        notify_event tid (if terminal t then task_cancelled else cancellation_requested)
      else mret tt
  | OpSucceed tid _ _, RTask t => _ ← notify_event tid task_succeeded; cache_task t
  | OpMarkCancelled tid _ _, RTask t => _ ← notify_event tid task_cancelled; cache_task t
  | OpFail tid _ _ timed_out, RTask t =>
      _ ← notify_event tid (if timed_out then task_timed_out else task_failed); cache_task t
  | _, _ => mret tt
  end.

Definition exec (op : TaskOp) : IO TaskResponse :=
  resp ← io_exec op; _ ← after_exec op resp; mret resp.

Definition get_task (tid : string) (uid : option string) : IO TripPlanningTask := fun w =>
  let '(hit, w) :=
    if cached then
      let '(hit, c) := sc_get_task_progress tid uid (w_tick w) (w_cache w) in
      (hit, w <| w_cache := c |>)
    else (None, w) in
  match hit with
  | Some t => (Ok t, w)
  | None => (t ← io_get_task tid uid; _ ← cache_task t; mret t) w
  end.

#[local] Instance notifying_store_io : TaskStoreIO C S := {|
  sio_exec := exec;
  sio_assert_worker_owns_task := io_assert_worker_owns_task;
  sio_is_cancel_requested := io_is_cancel_requested;
  sio_get_task := get_task
|}.
End Notifying.
End Notifying.

(** ** [TaskExecutionContext] *)

Module Context.
Section Context.
Context {C S : Type} `{Environment} `{TaskStoreIO C S}.
Context (tid wid : string).

Notation IO := (TaskIO C S).

Definition cancel_message : string := "用户已取消旅行规划任务".

Definition check_ownership : IO unit :=
  _ ← sio_assert_worker_owns_task tid wid; mret tt.

(** [notification_bus.is_cancel_signalled] *)
Definition bus_cancel_signalled : IO bool := fun w =>
  let '(b, wk) := is_cancel_signalled tid (env_monotonic (w_tick w) 0) (bus_wake (w_bus w)) in
  (Ok b, w <| w_bus := (w_bus w) <| bus_wake := wk |> |>).

Definition check_cancelled : IO unit :=
  _ ← check_ownership;
  signalled ← bus_cancel_signalled;
  if (signalled : bool) then
    _ ← on_bus (increment "cancel_fast_path_hits");
    raise (TaskCancellationRequested cancel_message)
  else
    _ ← on_bus (increment "mysql_poll_fallbacks");
    requested ← sio_is_cancel_requested tid;
    if (requested : bool) then raise (TaskCancellationRequested cancel_message) else mret tt.

Definition started_update (st : StateView) (action : string) : ProgressUpdate :=
  mkProgressUpdate action_started action (stage_name_of action) (action_progress action false)
    (sv_current_step st + 1) (sv_max_steps st) ("正在执行：" ++ stage_name_of action)
    (Some action) (Some [("action", JStr action)]).

Definition action_started (st : StateView) (action : string) : IO unit :=
  _ ← check_cancelled;
  _ ← (fun w => (Ok tt, w <| w_history_start := length (sv_history st) |>));
  _ ← sio_exec (OpProgress tid wid (started_update st action));
  mret tt.

(** The last record of [action] in the part of the history this step added. *)
Definition step_success (start : nat) (st : StateView) (action : string) : bool :=
  match list_find (fun h => h.1 = action) (reverse (drop start (sv_history st))) with
  | Some (_, (_, success)) => success
  | None => false
  end.

Definition completed_update (st : StateView) (action : string) (success : bool)
    : ProgressUpdate :=
  mkProgressUpdate (if success then action_completed else action_retrying) action
    (stage_name_of action) (action_progress action success)
    (sv_current_step st) (sv_max_steps st)
    (if success then "已完成：" ++ stage_name_of action
     else stage_name_of action ++ " 未完成，等待重试或恢复")
    None
    (Some [("action", JStr action); ("success", JBool success);
           ("tool_calls", JInt (sv_tool_calls st)); ("llm_calls", JInt (sv_llm_calls st))]).

Definition action_completed (st : StateView) (action : string) : IO unit :=
  success ← (fun w => (Ok (step_success (w_history_start w) st action), w));
  _ ← sio_exec (OpProgress tid wid (completed_update st action success));
  check_cancelled.

(** The slices [sleep_with_task_cancellation] cuts a delay into. *)
Fixpoint sleep_slices (fuel : nat) (remaining : Q) : list Q :=
  match fuel with
  | O => []
  | Datatypes.S fuel =>
      if Qlt_bool 0 remaining then
        let interval := fmin (1 # 5) remaining in
        interval :: sleep_slices fuel (remaining - interval)
      else []
  end.

(** Enough fuel: one slice per started fifth of a second. *)
Definition sleep_fuel (delay_seconds : Q) : nat := Z.to_nat (Qceiling (delay_seconds * 5)).

Fixpoint check_between (slices : list Q) : IO unit :=
  match slices with
  | [] => check_cancelled
  | _ :: slices => _ ← check_cancelled; check_between slices
  end.

Definition sleep_with_task_cancellation (delay_seconds : Q) : IO unit :=
  let remaining := fmax 0 delay_seconds in
  check_between (sleep_slices (sleep_fuel remaining) remaining).
End Context.
End Context.
