(* ===== verification/TaskWorker.v ===== *)
(** [TripTaskWorker] (src/app/task_runtime/worker.py): claiming a task, running
    the agent on it under the execution context, and ending it. *)

From S2P Require Import Prelude PyData TripSchema TaskModels TaskTables TaskLifecycle TaskBus TaskRuntime.
From Stdlib Require Import ZArith QArith Qround Lia String.
From stdpp Require Import base tactics option list gmap strings.

Open Scope string_scope.
Open Scope Z_scope.

(** [AgentStateStore] and [TripOrchestrator], as the worker calls them. *)
Class AgentStateStore (S : Type) := {
  as_get_state : string → option string → S → result exn StateView;
  as_save_state : StateView → S → result exn unit * S
}.

Class TripOrchestrator (C S : Type) := {
  orch_run : TripRequest → string → option string → TaskIO C S StateView;
  orch_resume : StateView → TaskIO C S StateView
}.

Record WorkerSettings := mkWorkerSettings {
  poll_interval_seconds : Q;
  lease_seconds : Q;
  heartbeat_interval_seconds : Q;
  shutdown_timeout_seconds : Q
}.

Definition default_settings : WorkerSettings := mkWorkerSettings (1 # 2) 30 5 3.

(** The class name and the text of a store error, as [str(exc)] shows them. *)
Definition exn_class (e : exn) : string :=
  match e with
  | ValueError _ => "ValueError"
  | TripTaskNotFoundError _ => "TripTaskNotFoundError"
  | TaskIdempotencyConflictError _ => "TaskIdempotencyConflictError"
  | TaskLeaseLostError _ => "TaskLeaseLostError"
  | SessionNotFoundError _ => "SessionNotFoundError"
  | StoreUnavailable _ => "OperationalError"
  | ValidationError => "ValidationError"
  | IndexError _ => "IndexError"
  | TypeError _ => "TypeError"
  | IntegrityError => "IntegrityError"
  | MultipleResultsFound => "MultipleResultsFound"
  | RuntimeError _ => "RuntimeError" | DraftConflictError _ => "DraftConflictError"
  | DraftNotFoundError _ => "DraftNotFoundError" | VersionNotFoundError _ => "VersionNotFoundError"
  end.

Definition exn_text (e : exn) : string :=
  match e with
  | ValueError m | TripTaskNotFoundError m | TaskIdempotencyConflictError m
  | TaskLeaseLostError m | SessionNotFoundError m | StoreUnavailable m | IndexError m | TypeError m
  | RuntimeError m | DraftConflictError m | DraftNotFoundError m | VersionNotFoundError m => m
  | _ => ""
  end.

Definition failure_of_exn (e : exn) : AgentFailure :=
  mkAgentFailure OtherError (exn_class e) (exn_text e) None None None.

(** ** [_build_failure_report] *)

Definition failure_code (k : agent_error_kind) : string :=
  match k with
  | AgentActionError => "agent_action_failed"
  | AgentMaxStepsError => "agent_max_steps_reached"
  | AgentConvergenceError => "agent_convergence_stopped"
  | AgentBudgetExceededError => "agent_execution_budget_exceeded"
  | OtherError => "trip_task_execution_failed"
  end.

(** [a or b] on strings. *)
Definition str_or (a b : string) : string := if String.eqb a "" then b else a.

Definition failure_message (f : AgentFailure) : string := str_or (squeeze (af_text f)) (af_class f).

Definition failure_timed_out (f : AgentFailure) : bool :=
  bool_decide (af_kind f = AgentBudgetExceededError)
  && existsb (fun marker => str_contains marker (ascii_lower (failure_message f)))
       ["duration"; "deadline"; "时长"; "超时"].

(** [exc.state]'s fields, or the task's when the exception carries no state. *)
Definition error_state_of (t : TripPlanningTask) (f : AgentFailure) : ErrorState :=
  default (mkErrorState (session_id t) (current_step t) (max_steps t) None None false) (af_state f).

Definition build_failure_report (t : TripPlanningTask) (f : AgentFailure) (now : datetime)
    : result exn (TaskFailureReport * bool) :=
  let es := error_state_of t f in
  let action_value := af_action f in
  let report := mkTaskFailureReport (failure_code (af_kind f)) (py_take 2000 (failure_message f))
     (str_or (default "" action_value) (str_or (current_stage t) "执行循环"))
     (match action_value with
      | Some a => if String.eqb a "" then stage_name t else stage_name_of a
      | None => stage_name t
      end)
     action_value (es_retryable es) (es_provider_code es) (es_provider_message es)
     (es_session_id es) (es_current_step es) (es_max_steps es) (af_class f) now
     [("attempt", json_opt JInt (af_attempt f)); ("task_attempt", JInt (attempt t));
      ("recovery_count", JInt (recovery_count t))] in
  if report_fields_ok report then Ok (report, failure_timed_out f) else Err ValidationError.

(** ** Executing a task *)

Module Worker.
Section Worker.
Context {C S : Type} `{Environment} `{TaskStoreIO C S} `{AgentStateStore S}
  `{TripOrchestrator C S}.
Context (settings : WorkerSettings) (wid : string).

Notation IO := (TaskIO C S).

(** [_load_or_start] *)
Definition load_or_start (t : TripPlanningTask) : IO StateView := fun w =>
  match as_get_state (session_id t) (user_id t) (w_states w) with
  | Ok st => orch_resume st w
  | Err (SessionNotFoundError _) => orch_run (request t) (session_id t) (user_id t) w
  | Err e => (Err (StoreError e), w)
  end.

(** [_mark_agent_state_cancelled] *)
Definition mark_agent_state_cancelled (t : TripPlanningTask) : IO unit := fun w =>
  match as_get_state (session_id t) (user_id t) (w_states w) with
  | Ok st =>
      let '(r, s) := as_save_state (st <| sv_status := "cancelled" |>) (w_states w) in
      (match r with Ok _ => Ok tt | Err e => Err (StoreError e) end, w <| w_states := s |>)
  | Err (SessionNotFoundError _) => (Ok tt, w)
  | Err e => (Err (StoreError e), w)
  end.

(** [except TaskLeaseLostError: pass] *)
Definition ignore_lease_lost (m : IO unit) : IO unit :=
  try_except m (fun e =>
    match e with StoreError (TaskLeaseLostError _) => mret tt | _ => raise e end).

Definition safe_mark_cancelled (t : TripPlanningTask) (msg : string) : IO unit :=
  ignore_lease_lost (_ ← sio_exec (OpMarkCancelled (task_id t) wid msg); mret tt).

(** The body of the [try]: it runs with the task's context bound. *)
Definition run_agent (t : TripPlanningTask) : IO unit :=
  _ ← Context.check_cancelled (task_id t) wid;
  st ← load_or_start t;
  _ ← Context.check_cancelled (task_id t) wid;
  _ ← sio_exec (OpSucceed (task_id t) wid (sv_session_id st));
  mret tt.

(** The two [except] clauses. *)
Definition on_cancelled (t : TripPlanningTask) (msg : string) : IO unit :=
  _ ← mark_agent_state_cancelled t;
  safe_mark_cancelled t (str_or msg Context.cancel_message).

Definition on_failure (t : TripPlanningTask) (f : AgentFailure) : IO unit := fun w =>
  match build_failure_report t f (env_clock (w_tick w) 9%nat) with
  | Ok (report, timed_out) =>
      ignore_lease_lost (_ ← sio_exec (OpFail (task_id t) wid report timed_out); mret tt) w
  | Err e => (Err (StoreError e), w)
  end.

Definition on_exception (t : TripPlanningTask) (e : run_exn) : IO unit :=
  match e with
  | TaskCancellationRequested msg => on_cancelled t msg
  | StoreError e => on_failure t (failure_of_exn e)
  | AgentError f => on_failure t f
  end.

(** [_execute_task], without the heartbeat thread, which is part of the
    environment. *)
Definition execute_task (t : TripPlanningTask) : IO unit :=
  try_except (run_agent t) (on_exception t).

(** [run_once] *)
Definition run_once : IO bool :=
  claimed ← (fun w => sio_exec (OpClaim (env_locked (w_tick w)) wid (lease_seconds settings)) w);
  match claimed with
  | RClaimed (Some t) => _ ← execute_task t; mret true
  | _ => mret false
  end.

(** One turn of [_run_loop]: whether it goes on to wait for a notification,
    and the cursor it waits on, read before the claim. *)
Definition loop_turn : IO (option (Z * Q)) := fun w =>
  let cursor := worker_cursor (bus_wake (w_bus w)) in
  let '(r, w) := run_once w in
  match r with
  | Ok true => (Ok None, w)
  | _ => (Ok (Some (cursor, fmax (1 # 20) (poll_interval_seconds settings))), w)
  end.

(** One turn of [_heartbeat_loop]: whether the thread goes on. *)
Definition heartbeat_turn (tid : string) : IO bool :=
  try_except
    (alive ← sio_exec (OpHeartbeat tid wid (lease_seconds settings));
     mret (match alive with RBool false => false | _ => true end))
    (fun _ => mret true).
End Worker.
End Worker.
