(* ===== verification/TaskRuntimeTheorems.v ===== *)
(** The SQLite and the MySQL store as instances of the [TripTaskStore]
    interface: their operations and the laws their clients rely on. *)

From S2P Require Import Prelude PyData TripSchema TaskModels TaskTables SqliteTaskStore MysqlTaskStore TaskLifecycle SqliteTaskProofs MysqlTaskProofs TaskStoreTheorems OrderedDict TaskBus TaskBusTheorems TaskRuntime TaskWorker.
From Stdlib Require Import ZArith QArith Lia String Qround Lqa.
From stdpp Require Import base tactics option list gmap strings.

Open Scope string_scope.
Open Scope Z_scope.

(** A valid lease belongs to a task that has not ended. *)
Lemma lease_not_terminal t wid now : has_valid_lease t wid now = true → terminal t = false.
Proof. intros (Hs & _)%has_valid_lease_iff. unfold terminal. by rewrite Hs. Qed.

Section Instances.
Context (sha256_hex : string → string) (float_repr : Q → string)
  (dump_datetime : datetime → string) (key_eq : string → string → bool)
  (known_user : string → bool).

Definition sqlite_store : TripTaskStore := {|
  ts_exec := Sqlite.exec sha256_hex float_repr dump_datetime;
  ts_assert_worker_owns_task := Sqlite.assert_worker_owns_task;
  ts_is_cancel_requested := Sqlite.is_cancel_requested;
  ts_get_task := Sqlite.get_task
|}.

Definition mysql_store : TripTaskStore := {|
  ts_exec := Mysql.exec sha256_hex float_repr dump_datetime key_eq known_user;
  ts_assert_worker_owns_task := Mysql.assert_worker_owns_task;
  ts_is_cancel_requested := Mysql.is_cancel_requested;
  ts_get_task := Mysql.get_task
|}.

(** Reading a row of well-formed tables never fails. *)
Lemma row_read db tid r :
  db_wf db → db_tasks db !! tid = Some r → task_from_row r = Ok (row_task r).
Proof. intros Hwf Hr. eapply task_from_row_wf, (wf_rows _ Hwf), Hr. Qed.

Lemma save_columns_task t r : row_task (save_columns t r) = t.
Proof. done. Qed.

Lemma saved_row later t r db tid :
  db_tasks db !! tid = Some r → task_id t = tid →
  ∃ r', db_tasks (save_task later t db).2 !! tid = Some r'
        ∧ row_task r' = (save_task later t db).1.
Proof.
  intros Hr Hid. exists (save_columns (save_task later t db).1 r).
  split; [|apply save_columns_task].
  change (db_tasks (save_task later t db).2)
    with (alter (save_columns (save_task later t db).1) (task_id t) (db_tasks db)).
  by rewrite Hid, lookup_alter_eq, Hr.
Qed.

Lemma apply_outcome_id oc now t : task_id (apply_outcome oc now t) = task_id t.
Proof. done. Qed.

Lemma saved_status later t db : status (save_task later t db).1 = status t.
Proof. done. Qed.

Lemma mark_answer oc s now later at_ ty msg data t r db tid :
  db_tasks db !! tid = Some r → task_id t = tid → oc_status oc = s →
  let '(t', db1) := save_task later (apply_outcome oc now t) db in
  let '(_, db2) := insert_event at_ t' ty msg data db1 in
  ∃ r', db_tasks db2 !! tid = Some r' ∧ row_task r' = t' ∧ status t' = s.
Proof.
  intros Hr Hid Hs. rewrite <- (apply_outcome_id oc now) in Hid.
  assert (Hst : status (apply_outcome oc now t) = s) by exact Hs.
  revert Hid Hst. generalize (apply_outcome oc now t). intros t0 Hid Hst.
  pose proof (saved_row later t0 r db tid Hr Hid) as (r' & Hr' & Ht').
  pose proof (saved_status later t0 db) as Hst'. rewrite Hst in Hst'.
  destruct (save_task later t0 db) as [t' db1]. cbn [fst snd] in *. simpl. eauto.
Qed.

(** The outcome behind an operation that ends a task. *)
Lemma finishing_outcome op tid wid s :
  finishing_status op tid wid = Some s →
  ∃ oc, oc_status oc = s
    ∧ (∀ clk db, Sqlite.perform sha256_hex float_repr dump_datetime op clk db
                 = respond RTask (Sqlite.mark_terminal tid wid oc clk db))
    ∧ (∀ clk db, Mysql.perform sha256_hex float_repr dump_datetime key_eq known_user op clk db
                 = respond RTask (Mysql.mark_terminal tid wid oc clk db)).
Proof.
  destruct op as [| | | | |t w sid|t w msg|t w rep to]; simpl; try done;
    (case_bool_decide as E; [destruct E as [-> ->]|done]); intros [= <-].
  - by exists (outcome_succeeded sid).
  - by exists (outcome_cancelled msg).
  - by exists (outcome_failed dump_datetime rep to).
Qed.

(** The answer of the ownership check on a row. *)
Lemma lease_answer {e : exn} r wid now t :
  (if has_valid_lease (row_task r) wid now then Ok (row_task r) else Err e) = Ok t ↔
  ∃ r', Some r = Some r' ∧ t = row_task r' ∧ has_valid_lease t wid now = true.
Proof.
  destruct (has_valid_lease (row_task r) wid now) eqn:E; split.
  - intros [= <-]. by exists r.
  - intros (r' & [= <-] & -> & _). done.
  - done.
  - intros (r' & [= <-] & -> & H). congruence.
Qed.

#[local] Instance sqlite_store_laws : TripTaskStoreLaws (H := sqlite_store).
Proof.
  unshelve econstructor; [exact dump_datetime|exact false|exact SqliteTaskProofs.same_slot|..].
  - intros op clk db Hop Hwf. by apply sqlite_exec_step.
  - intros tid wid clk db t Hwf. simpl. unfold Sqlite.assert_worker_owns_task, Sqlite.get_row.
    destruct (db_tasks db !! tid) as [r|] eqn:Hr; cbn [mbind result_bind];
      [|split; [done|intros (? & ? & _); done]].
    rewrite (row_read _ _ _ Hwf Hr). cbn [mbind result_bind].
    apply lease_answer.
  - intros tid db r Hwf Hr. simpl. unfold Sqlite.is_cancel_requested, Sqlite.get_row.
    rewrite Hr. cbn [mbind result_bind]. pose proof (wf_rows _ Hwf _ _ Hr) as Hrow.
    by rewrite (rw_cancel _ _ Hrow), (rw_status _ _ Hrow).
  - intros op tid wid s clk db r Hwf Hop Hr Hlease. simpl.
    destruct (finishing_outcome _ _ _ _ Hop) as (oc & Hoc & Hperf & _).
    unfold Sqlite.exec, commit_or_rollback. rewrite Hperf. unfold Sqlite.mark_terminal, Sqlite.get_row.
    rewrite Hr. cbn [mbind result_bind]. rewrite (row_read _ _ _ Hwf Hr). cbn [mbind result_bind].
    rewrite (lease_not_terminal _ _ _ Hlease).
    apply has_valid_lease_iff in Hlease as (_ & Hw & _). rewrite bool_decide_true by done.
    pose proof (mark_answer oc s (clk 0%nat) (clk 1%nat) (clk 2%nat) (oc_event_type oc) (oc_message oc)
      (oc_event_data oc) (row_task r) r db tid Hr (rw_id _ _ (wf_rows _ Hwf _ _ Hr)) Hoc) as Hans.
    destruct (save_task _ _ _) as [t' db1]. destruct (insert_event _ _ _ _ _ _) as [i db2].
    destruct Hans as (r' & Hr' & Ht' & Hs). simpl. eauto 10.
  - intros tid wid pu clk db r Hwf Hr Hlease. simpl.
    unfold Sqlite.exec, commit_or_rollback, Sqlite.perform, Sqlite.record_progress, Sqlite.get_row.
    rewrite Hr. cbn [mbind result_bind]. rewrite (row_read _ _ _ Hwf Hr). cbn [mbind result_bind].
    rewrite Hlease. unfold save_task.
    pose proof (rw_id _ _ (wf_rows _ Hwf _ _ Hr)) as Hid.
    eexists _, _. cbn. rewrite Hid, lookup_alter_eq, Hr. done.
Qed.

#[local] Instance mysql_store_laws : TripTaskStoreLaws (H := mysql_store).
Proof.
  unshelve econstructor; [exact dump_datetime|exact true|exact (MysqlTaskProofs.same_slot key_eq)|..].
  - intros op clk db Hop Hwf. by apply mysql_exec_step.
  - intros tid wid clk db t Hwf. simpl.
    unfold Mysql.assert_worker_owns_task, Mysql.get_task, Mysql.get_owned_row.
    destruct (db_tasks db !! tid) as [r|] eqn:Hr; cbn [mbind result_bind];
      [|split; [done|intros (? & ? & _); done]].
    rewrite (row_read _ _ _ Hwf Hr). cbn [mbind result_bind].
    apply lease_answer.
  - intros tid db r Hwf Hr. simpl. unfold Mysql.is_cancel_requested, Mysql.get_row.
    rewrite Hr. cbn [mbind result_bind]. pose proof (wf_rows _ Hwf _ _ Hr) as Hrow.
    by rewrite (rw_cancel _ _ Hrow), (rw_status _ _ Hrow).
  - intros op tid wid s clk db r Hwf Hop Hr Hlease. simpl.
    destruct (finishing_outcome _ _ _ _ Hop) as (oc & Hoc & _ & Hperf).
    unfold Mysql.exec, commit_or_rollback. rewrite Hperf. unfold Mysql.mark_terminal, Mysql.get_row.
    rewrite Hr. cbn [mbind result_bind]. rewrite (row_read _ _ _ Hwf Hr). cbn [mbind result_bind].
    rewrite (lease_not_terminal _ _ _ Hlease), Hlease.
    pose proof (mark_answer oc s (clk 1%nat) (clk 2%nat) (clk 3%nat) (oc_event_type oc) (oc_message oc)
      (oc_event_data oc) (row_task r) r db tid Hr (rw_id _ _ (wf_rows _ Hwf _ _ Hr)) Hoc) as Hans.
    destruct (save_task _ _ _) as [t' db1]. destruct (insert_event _ _ _ _ _ _) as [i db2].
    destruct Hans as (r' & Hr' & Ht' & Hs). simpl. eauto 10.
  - intros tid wid pu clk db r Hwf Hr Hlease. simpl.
    unfold Mysql.exec, commit_or_rollback, Mysql.perform, Mysql.record_progress, Mysql.get_row.
    rewrite Hr. cbn [mbind result_bind]. rewrite (row_read _ _ _ Hwf Hr). cbn [mbind result_bind].
    rewrite Hlease. unfold save_task.
    pose proof (rw_id _ _ (wf_rows _ Hwf _ _ Hr)) as Hid.
    eexists _, _. cbn. rewrite Hid, lookup_alter_eq, Hr. done.
Qed.
End Instances.

(** What the runtime around the stores guarantees: the notifying decorator is
    transparent and wakes the workers, a worker that keeps its lease always
    ends its task as its run deserves, and backing off stays cancellable. *)

(** ** The notifying store *)

Section Notifying.
Context {C S : Type} `{Environment} `{TripTaskStore} `{SnapshotCache C}.
Context (backend : option (nat → bool)) (cached : bool).

(** Actions on the bus and the cache only. *)
Definition accelerates {A} (m : TaskIO C S A) : Prop :=
  ∀ w, (∃ a, (m w).1 = Ok a) ∧ same_persistent (m w).2 w.

Lemma accelerates_ret {A} (a : A) : accelerates (mret a).
Proof. intros w. split; [by exists a|done]. Qed.

Lemma accelerates_bind {A B} (m : TaskIO C S A) (k : A → TaskIO C S B) :
  accelerates m → (∀ a, accelerates (k a)) → accelerates (m ≫= k).
Proof.
  intros Hm Hk w. destruct (Hm w) as [[a Ha] Hp]. unfold mbind, io_bind.
  destruct (m w) as [r w1]. simpl in *. subst. destruct (Hk a w1) as [Hr Hp'].
  split; [done|]. unfold same_persistent in *. destruct Hp as (?&?&?&?), Hp' as (?&?&?&?).
  repeat split; congruence.
Qed.

Lemma accelerates_notify cb : accelerates (Notifying.safe_notify (C := C) (S := S) cb).
Proof. intros w. split; [by exists tt|done]. Qed.

Lemma accelerates_cache t : accelerates (Notifying.cache_task (S := S) cached t).
Proof. intros w. split; [by exists tt|]. unfold Notifying.cache_task. by destruct cached. Qed.

Lemma accelerates_after op resp :
  accelerates (Notifying.after_exec (S := S) backend cached op resp).
Proof.
  destruct op, resp as [t|t reused|[t|]|b]; simpl; try apply accelerates_ret;
    try (destruct (cancel_requested t)); try (destruct reused);
    repeat first [apply accelerates_bind; [|intros ?] | apply accelerates_ret
                 | apply accelerates_cache | apply accelerates_notify].
Qed.

#[export] Instance notifying_store_laws :
  TaskStoreIOLaws C S (TaskStoreIO0 := Notifying.notifying_store_io backend cached).
Proof.
  split; [|by split|by split]. intros op w. simpl. unfold Notifying.exec, mbind, io_bind, mret, io_ret.
  destruct (io_exec op w) as [[resp|e] w1]; [|done].
  destruct (accelerates_after op resp w1) as [[u Hu] Hp].
  destruct (Notifying.after_exec backend cached op resp w1) as [r w2]. simpl in *. by subst.
Qed.

#[export] Instance direct_store_laws :
  TaskStoreIOLaws C S (TaskStoreIO0 := direct_store_io).
Proof. split; by split. Qed.

(** the decorator changes no answer and no table, and it speaks only after
    a commit: when the delegate raises, neither the bus nor the cache is
    touched. *)
Theorem notifying_store_transparent op (w : World C S) :
  let plain := io_exec op w in
  let notified := Notifying.exec backend cached op w in
  notified.1 = plain.1 ∧ w_db notified.2 = w_db plain.2
  ∧ match plain.1 with Err _ => notified.2 = plain.2 | Ok _ => True end.
Proof.
  cbv zeta. destruct (sio_exec_transparent (TaskStoreIOLaws := notifying_store_laws) op w) as [Hr (Hdb & _)].
  simpl in *. split; [done|]. split; [done|].
  unfold Notifying.exec, mbind, io_bind. by destruct (io_exec op w) as [[resp|e] w1].
Qed.

(** The environment only signals; it never takes a wake-up back. *)
Definition env_only_signals : Prop :=
  ∀ n b, ∃ ops, bus_wake (env_bus n b) = wake_run ops (bus_wake b).

Lemma worker_revision_mono ops w : worker_revision w <= worker_revision (wake_run ops w).
Proof. apply wake_run_worker. Qed.

Lemma publish_available_wakes tid n b :
  worker_revision (bus_wake (Notifying.publish_available backend tid n b).2)
  = worker_revision (bus_wake b) + 1.
Proof.
  unfold Notifying.publish_available, redis_task_available, redis_publish_message, redis_publish.
  destruct backend as [sent|]; [|done].
  destruct (message_checked _); [|done]. by destruct (sent n).
Qed.

(** a new task wakes the workers of this process: a worker that read its
    cursor before the task was created does not sleep on it, whether Redis is
    used or not, whatever Redis answers. *)
Theorem new_task_wakes_worker req key uid tid sid (w w' : World C S) t :
  env_only_signals →
  Notifying.exec backend cached (OpCreate req key uid tid sid) w = (Ok (RCreated t false), w') →
  worker_ready (worker_cursor (bus_wake (w_bus w))) (bus_wake (w_bus w')) = true.
Proof.
  intros Henv. unfold Notifying.exec, mbind, io_bind, io_exec, access.
  destruct (Henv (w_tick w) (w_bus w)) as [ops Hops].
  pose proof (worker_revision_mono ops (bus_wake (w_bus w))) as Hmono. rewrite <- Hops in Hmono.
  destruct (ts_exec _ _ _) as [[resp|e] db]; [|done].
  destruct resp as [t0|t0 reused|o|b]; cbn -[Notifying.cache_task]; try (intros [= ]; fail).
  unfold Notifying.cache_task, mbind, io_bind.
  destruct reused; [destruct cached; intros [= ]; discriminate|].
  unfold Notifying.safe_notify. intros [= _ <-].
  unfold worker_ready, worker_cursor. apply negb_true_iff, Z.eqb_neq.
  destruct cached; cbn [w_bus w_tick overwrite]; simpl; rewrite publish_available_wakes; simpl; lia.
Qed.
End Notifying.

(** ** Backing off *)

Definition Qsum (l : list Q) : Q := foldr Qplus 0%Q l.

Lemma sleep_slices_sum fuel r :
  (0 <= r)%Q → (r <= inject_Z (Z.of_nat fuel) * (1 # 5))%Q →
  (Qsum (Context.sleep_slices fuel r) == r)%Q
  ∧ Forall (fun x => 0 < x ∧ x <= 1 # 5)%Q (Context.sleep_slices fuel r).
Proof.
  revert r. induction fuel as [|fuel IH]; intros r H0 Hr; simpl.
  - assert (r == 0)%Q by (change (inject_Z (Z.of_nat 0)) with 0%Q in Hr; lra). split; [lra|constructor].
  - destruct (Qlt_bool 0 r) eqn:E; [apply Qlt_bool_iff in E|apply Qlt_bool_false in E; simpl].
    + rewrite Nat2Z.inj_succ, <- Z.add_1_r, inject_Z_plus in Hr.
      destruct (Qlt_le_dec r (1 # 5)) as [Hlt|Hge].
      * assert (Hm : fmin (1 # 5) r = r) by (unfold fmin; by rewrite (proj2 (Qlt_bool_iff _ _) Hlt)).
        rewrite Hm. destruct (IH (r - r)%Q) as [Hs Hf]; [lra| |].
        { assert (0 <= inject_Z (Z.of_nat fuel))%Q by (unfold Qle; simpl; lia). lra. }
        simpl. split; [lra|]. constructor; [lra|done].
      * assert (Hm : fmin (1 # 5) r = (1 # 5)%Q) by (unfold fmin; by rewrite (proj2 (Qlt_bool_false _ _) Hge)).
        rewrite Hm. destruct (IH (r - (1 # 5))%Q) as [Hs Hf]; [lra| |].
        { change (inject_Z 1) with 1%Q in Hr. lra. }
        simpl. split; [lra|]. constructor; [lra|done].
    + split; [lra|constructor].
Qed.

(** backing off stays cancellable: the loop of the interruptible sleep ends,
    it sleeps exactly the delay asked for, and it checks for cancellation at
    least every fifth of a second. *)
Theorem sleep_slices_exact delay :
  let slices := Context.sleep_slices (Context.sleep_fuel (fmax 0 delay)) (fmax 0 delay) in
  (Qsum slices == fmax 0 delay)%Q ∧ Forall (fun x => 0 < x ∧ x <= 1 # 5)%Q slices.
Proof.
  cbv zeta. apply sleep_slices_sum; [apply fmax_l|].
  unfold Context.sleep_fuel. pose proof (Qle_ceiling (fmax 0 delay * 5)) as Hc.
  pose proof (fmax_l 0 delay) as H0.
  assert (0 <= Qceiling (fmax 0 delay * 5)) as Hz.
  { rewrite Zle_Qle. change (inject_Z 0) with 0%Q. lra. }
  rewrite Z2Nat.id by done. lra.
Qed.

(** ** The worker *)

Section Worker.
Context {C S : Type} `{Environment} `{TripTaskStoreLaws} `{!TaskStoreIO C S}.
Context `{!TaskStoreIOLaws C S} `{AgentStateStore S} `{TripOrchestrator C S}.
Context (wid tid : string) (L : datetime).

(** The tables are well formed and the worker holds the task until [L]. *)
Definition holds (w : World C S) : Prop :=
  db_wf (w_db w) ∧ ∃ r, db_tasks (w_db w) !! tid = Some r ∧ held wid L (row_task r).

(** What others do meanwhile: any writes of other workers and of clients,
    at times up to [L]; and all clocks read before [L]. *)
Class LeaseLasts := {
  env_others n db : db_wf db →
    ∃ lbls, db_run law_dump law_owned law_same_slot lbls db (env_db n db)
            ∧ Forall (fun l => l.1 ≠ Some wid ∧ l.2 <= L) lbls;
  env_before n i : env_clock n i < L
}.

(** Errors carry field values the report accepts. *)
Definition failure_ok (f : AgentFailure) : Prop :=
  match af_state f with
  | Some es => 0 <= es_current_step es ∧ 0 <= es_max_steps es
  | None => True
  end.

(** An action on the world that does not give the task away. *)
Definition keeps_lease {A} (m : TaskIO C S A) : Prop :=
  ∀ w, holds w → holds (m w).2
    ∧ match (m w).1 with Err (AgentError f) => failure_ok f | _ => True end.

Class OrchestratorLaws := {
  orch_run_keeps req sid uid : keeps_lease (orch_run req sid uid);
  orch_resume_keeps st : keeps_lease (orch_resume st)
}.

Context `{!LeaseLasts}.

Lemma holds_env n w : holds w → db_wf (env_db n (w_db w)) ∧
  ∃ r, db_tasks (env_db n (w_db w)) !! tid = Some r ∧ held wid L (row_task r).
Proof.
  intros [Hwf (r & Hr & Hh)]. destruct (env_others n (w_db w) Hwf) as (lbls & Hrun & Hl).
  split; [by eapply db_wf_run|]. eapply lease_exclusive; try done.
Qed.

Lemma held_valid t now : held wid L t → now < L → has_valid_lease t wid now = true.
Proof. intros (Hs & Hw & Hl) Hn. apply has_valid_lease_iff. eauto. Qed.

Lemma holds_same w w' : same_persistent w w' → holds w' → holds w.
Proof. intros (Hdb & _) Hh. unfold holds. by rewrite Hdb. Qed.

Lemma owns_keeps w :
  holds w →
  (∃ t, (sio_assert_worker_owns_task tid wid w).1 = Ok t)
  ∧ holds (sio_assert_worker_owns_task tid wid w).2.
Proof.
  intros Hh. destruct (sio_owns_transparent tid wid w) as [Hr Hp].
  destruct (holds_env (w_tick w) w Hh) as (Hwf & r & Hrow & Hheld).
  unfold io_assert_worker_owns_task, access in Hr, Hp. simpl in Hr, Hp.
  pose proof (law_owns tid wid (env_clock (w_tick w)) (env_db (w_tick w) (w_db w)) (row_task r) Hwf) as Hl.
  rewrite (proj2 Hl) in Hr; [|exists r; split; [done|]; split; [done|]; by apply held_valid, env_before].
  split; [by exists (row_task r)|]. eapply holds_same; [exact Hp|]. split; simpl; eauto.
Qed.

Lemma cancel_keeps w :
  holds w →
  (∃ b, (sio_is_cancel_requested tid w).1 = Ok b)
  ∧ holds (sio_is_cancel_requested tid w).2.
Proof.
  intros Hh. destruct (sio_cancel_transparent tid w) as [Hr Hp].
  destruct (holds_env (w_tick w) w Hh) as (Hwf & r & Hrow & Hheld).
  unfold io_is_cancel_requested, access in Hr, Hp. simpl in Hr, Hp.
  rewrite (law_cancel_requested tid _ r Hwf Hrow) in Hr.
  split; [by eexists|]. eapply holds_same; [exact Hp|]. split; simpl; eauto.
Qed.

(** A cancellation point returns or raises the cancellation signal, nothing else. *)
Lemma check_cancelled_keeps w :
  holds w →
  holds (Context.check_cancelled tid wid w).2
  ∧ ((Context.check_cancelled tid wid w).1 = Ok tt
     ∨ (Context.check_cancelled tid wid w).1
       = Err (TaskCancellationRequested Context.cancel_message)).
Proof.
  intros Hh. unfold Context.check_cancelled, Context.check_ownership, mbind, io_bind.
  destruct (owns_keeps w Hh) as [[t Ht] Hh1].
  destruct (sio_assert_worker_owns_task tid wid w) as [r1 w1]. simpl in *. subst.
  simpl. case_bool_decide; simpl; [split; [done|by right]|].
  match goal with |- context [sio_is_cancel_requested tid ?w2] =>
    destruct (cancel_keeps w2 Hh1) as [[b Hb] Hh2];
    destruct (sio_is_cancel_requested tid w2) as [r3 w3]
  end. simpl in *. subst.
  destruct b; simpl; split; auto.
Qed.

(** Ending the task while holding it. *)
Lemma finish_ends op s w :
  finishing_status op tid wid = Some s → holds w →
  ∃ t r', (sio_exec op w).1 = Ok (RTask t)
    ∧ db_tasks (w_db (sio_exec op w).2) !! tid = Some r' ∧ status (row_task r') = s.
Proof.
  intros Hop Hh. destruct (sio_exec_transparent op w) as [Hr (Hdb & _)].
  destruct (holds_env (w_tick w) w Hh) as (Hwf & r & Hrow & Hheld).
  unfold io_exec, access in Hr, Hdb.
  destruct (law_finish op tid wid s (env_clock (w_tick w)) _ r Hwf Hop Hrow) as (t & r' & Ht & Hr' & Hrt & Hs).
  { by apply held_valid, env_before. }
  destruct (ts_exec op _ _) as [res db]. simpl in *. subst res.
  exists t, r'. rewrite Hr, Hdb. split; [done|]. split; [done|]. by rewrite Hrt.
Qed.

(** The progress reports of the context keep the lease too. *)
Lemma progress_keeps pu w :
  op_ok (OpProgress tid wid pu) = true → holds w →
  holds (sio_exec (OpProgress tid wid pu) w).2
  ∧ ∃ t, (sio_exec (OpProgress tid wid pu) w).1 = Ok (RTask t).
Proof.
  intros Hop Hh. destruct (sio_exec_transparent (OpProgress tid wid pu) w) as [Hr Hp].
  destruct (holds_env (w_tick w) w Hh) as (Hwf & r & Hrow & Hheld).
  unfold io_exec, access in Hr, Hp.
  destruct (law_progress tid wid pu (env_clock (w_tick w)) _ r Hwf Hrow)
    as (t & r' & Ht & Hr' & Hrt & Hs & Hw & Hl); [by apply held_valid, env_before|].
  pose proof (law_exec_step _ (env_clock (w_tick w)) _ Hop Hwf) as Hstep.
  pose proof (db_wf_step _ _ _ _ _ _ _ Hstep Hwf) as Hwf'.
  destruct (ts_exec _ _ _) as [res db]. simpl in *. subst res.
  split; [|by exists t]. eapply holds_same; [exact Hp|]. split; [exact Hwf'|].
  exists r'. split; [done|]. rewrite Hrt. destruct Hheld as (Hs0 & Hw0 & Hl0). split; [congruence|].
  split; congruence.
Qed.

Lemma keeps_bind {A B} (m : TaskIO C S A) (k : A → TaskIO C S B) :
  keeps_lease m → (∀ a, keeps_lease (k a)) → keeps_lease (m ≫= k).
Proof.
  intros Hm Hk w Hh. unfold mbind, io_bind. destruct (Hm w Hh) as [Hh1 Hf].
  destruct (m w) as [[a|e] w1]; [by apply Hk|done].
Qed.

Lemma keeps_ret {A} (a : A) : keeps_lease (mret a).
Proof. by split. Qed.

Lemma keeps_check : keeps_lease (Context.check_cancelled tid wid).
Proof.
  intros w Hh. destruct (check_cancelled_keeps w Hh) as [Hh1 Hr]. split; [done|].
  by destruct Hr as [-> | ->].
Qed.

Lemma keeps_progress pu :
  op_ok (OpProgress tid wid pu) = true → keeps_lease (sio_exec (OpProgress tid wid pu)).
Proof. intros Hop w Hh. destruct (progress_keeps pu w Hop Hh) as [Hh1 [t ->]]. done. Qed.

Lemma keeps_action_started st action : keeps_lease (Context.action_started tid wid st action).
Proof.
  unfold Context.action_started. apply keeps_bind; [apply keeps_check|intros _].
  apply keeps_bind; [by intros w Hh|intros _].
  apply keeps_bind; [by apply keeps_progress|intros _; apply keeps_ret].
Qed.

Lemma keeps_action_completed st action : keeps_lease (Context.action_completed tid wid st action).
Proof.
  unfold Context.action_completed. apply keeps_bind; [by intros w Hh|intros success].
  apply keeps_bind; [apply keeps_progress; by destruct success|intros _; apply keeps_check].
Qed.

Lemma keeps_sleep delay : keeps_lease (Context.sleep_with_task_cancellation tid wid delay).
Proof.
  unfold Context.sleep_with_task_cancellation. generalize (Context.sleep_slices (Context.sleep_fuel (fmax 0 delay)) (fmax 0 delay)).
  intros l. induction l as [|x l IH]; simpl; [apply keeps_check|].
  apply keeps_bind; [apply keeps_check|done].
Qed.

Context `{!OrchestratorLaws}.

Lemma load_or_start_keeps t : keeps_lease (Worker.load_or_start t).
Proof.
  intros w Hh. unfold Worker.load_or_start.
  destruct (as_get_state _ _ _) as [st|e]; [by apply orch_resume_keeps|].
  destruct e; try (by split); by apply orch_run_keeps.
Qed.

(** The row of the task at the end, and its status. *)
Definition ended (s : TaskStatus) (w : World C S) : Prop :=
  ∃ r, db_tasks (w_db w) !! tid = Some r ∧ status (row_task r) = s.

Lemma run_agent_spec t w :
  task_id t = tid → holds w →
  match Worker.run_agent wid t w with
  | (Ok _, w') => ended Succeeded w'
  | (Err (AgentError f), w') => holds w' ∧ failure_ok f
  | (Err _, w') => holds w'
  end.
Proof.
  intros Hid Hh. unfold Worker.run_agent, mbind, io_bind. rewrite Hid.
  destruct (check_cancelled_keeps w Hh) as [Hh1 Hr1].
  destruct (Context.check_cancelled tid wid w) as [r1 w1]. simpl in *.
  destruct Hr1 as [-> | ->]; [|done].
  destruct (load_or_start_keeps t w1 Hh1) as [Hh2 Hf].
  destruct (Worker.load_or_start t w1) as [[st|e] w2]; simpl in *; [|by destruct e].
  destruct (check_cancelled_keeps w2 Hh2) as [Hh3 Hr3].
  destruct (Context.check_cancelled tid wid w2) as [r3 w3]. simpl in *.
  destruct Hr3 as [-> | ->]; [|done].
  destruct (finish_ends (OpSucceed tid wid (sv_session_id st)) Succeeded w3) as (t' & r' & Ht' & Hr' & Hs);
    [by simpl; rewrite bool_decide_true|done|].
  destruct (sio_exec _ w3) as [r4 w4]. simpl in *. subst. simpl. by exists r'.
Qed.

Lemma report_ok t f now :
  task_fields_ok t = true → failure_ok f →
  ∃ report, build_failure_report t f now = Ok (report, failure_timed_out f).
Proof.
  intros Ht%task_fields_ok_iff Hf. unfold build_failure_report, report_fields_ok. simpl.
  assert (Hes : 0 <= es_current_step (error_state_of t f) ∧ 0 <= es_max_steps (error_state_of t f)).
  { unfold error_state_of, failure_ok in *. destruct (af_state f); simpl; tauto. }
  rewrite !(proj2 (Z.leb_le _ _)) by tauto. simpl. by eexists.
Qed.

Lemma ignore_finish op s w :
  finishing_status op tid wid = Some s → holds w →
  ∃ w', Worker.ignore_lease_lost (_ ← sio_exec op; mret tt) w = (Ok tt, w') ∧ ended s w'.
Proof.
  intros Hop Hh. destruct (finish_ends op s w Hop Hh) as (t & r' & Ht & Hr' & Hs).
  unfold Worker.ignore_lease_lost, try_except, mbind, io_bind.
  destruct (sio_exec op w) as [r1 w1]. simpl in *. subst. simpl. eexists. split; [done|]. by exists r'.
Qed.

Definition failure_status (f : AgentFailure) : TaskStatus :=
  if failure_timed_out f then TimedOut else Failed.

Lemma on_failure_ends t f w :
  task_id t = tid → task_fields_ok t = true → failure_ok f → holds w →
  ∃ w', Worker.on_failure wid t f w = (Ok tt, w') ∧ ended (failure_status f) w'.
Proof.
  intros Hid Ht Hf Hh. unfold Worker.on_failure.
  destruct (report_ok t f (env_clock (w_tick w) 9%nat) Ht Hf) as [report ->]. rewrite Hid.
  apply ignore_finish; [|done]. simpl. by rewrite bool_decide_true.
Qed.

End Worker.

(** ** Witnesses *)

(** A world of its own for one worker: nobody else writes, the agent does one
    action, and no agent state is stored yet. *)
#[local] Instance demo_environment : Environment := {|
  env_db _ db := db;
  env_bus _ b := b;
  env_clock _ _ := 1000;
  env_locked _ _ := false;
  env_monotonic n _ := inject_Z (Z.of_nat n)
|}.

#[local] Instance demo_store : TripTaskStore := sqlite_store (fun s => s) q_text dt_text.
#[local] Instance demo_store_laws : TripTaskStoreLaws := 
  sqlite_store_laws (fun s => s) q_text dt_text String.eqb (fun _ => true).
#[local] Instance demo_store_io : TaskStoreIO unit unit := direct_store_io.
#[local] Instance demo_store_io_laws : TaskStoreIOLaws unit unit := direct_store_laws.

#[local] Instance demo_states : AgentStateStore unit := {|
  as_get_state _ _ _ := Err (SessionNotFoundError "");
  as_save_state _ s := (Ok tt, s)
|}.

Definition demo_view : StateView := mkStateView "s1" "running" 0 24 [] 0 0.

#[local] Instance demo_orchestrator : TripOrchestrator unit unit := {|
  orch_run _ _ _ :=
    _ ← Context.action_started "t1" "w1" demo_view "get_weather";
    _ ← Context.action_completed "t1" "w1"
          (demo_view <| sv_history := [("get_weather", true)] |>) "get_weather";
    mret demo_view;
  orch_resume st := mret st
|}.

Definition demo_world : World unit unit :=
  mkWorld demo_db (new_bus (new_coordinator 100 60)) tt tt 0 0.

#[local] Instance demo_lease_lasts : LeaseLasts "w1" demo_lease.
Proof.
  split.
  - intros n db Hwf. exists []. split; constructor.
  - done.
Qed.

#[local] Instance demo_orchestrator_laws : OrchestratorLaws "w1" "t1" demo_lease.
Proof.
  split.
  - intros req sid uid. simpl.
    apply keeps_bind; [apply (keeps_action_started "w1" "t1" demo_lease)|intros _].
    apply keeps_bind; [apply (keeps_action_completed "w1" "t1" demo_lease)|intros _].
    apply keeps_ret.
  - intros st. apply keeps_ret.
Qed.

Lemma demo_holds : holds "w1" "t1" demo_lease demo_world.
Proof.
  split; [apply sqlite_run_wf; repeat (apply List.Forall_cons || apply List.Forall_nil); reflexivity|].
  exists (demo_row demo_ops). split; [vm_compute; reflexivity|].
  split; [vm_compute; reflexivity|split; vm_compute; reflexivity].
Qed.


#[local] Instance demo_cache : SnapshotCache unit := {|
  sc_get_task_progress _ _ _ c := (None, c);
  sc_set_task_progress _ _ c := c
|}.

Lemma new_task_wakes_worker_witness :
  let w := mkWorld empty_db (new_bus (new_coordinator 100 60)) tt tt 0 0 in
  ∃ w', (Notifying.exec (Some (fun _ => false)) true (OpCreate demo_request "key 1" None "t1" "s1") w).2 = w'
    ∧ worker_ready (worker_cursor (bus_wake (w_bus w))) (bus_wake (w_bus w')) = true.
Proof.
  cbv zeta. eexists. split; [reflexivity|].
  eapply (new_task_wakes_worker (Some (fun _ => false)) true demo_request "key 1" None "t1" "s1"
            (mkWorld empty_db (new_bus (new_coordinator 100 60)) tt tt 0 0)).
  - intros n b. by exists [].
  - vm_compute. reflexivity.
Defined.
