(* ===== verification/AmapModels.v ===== *)
(** The provider-independent route and place models
    (src/app/providers/amap/models.py) the planning components exchange, with
    their [model_dump(mode="json")]. *)

From S2P Require Import Prelude PyData TripSchema.
From Stdlib Require Import ZArith QArith String.
From stdpp Require Import base tactics option list strings.

Open Scope string_scope.
Open Scope Z_scope.

Inductive RouteMode := walking | driving | transit.
Inductive RouteLegType := hotel_departure | between_attractions | hotel_return.

#[export] Instance RouteMode_eq_dec : EqDecision RouteMode.
Proof. solve_decision. Defined.
#[export] Instance RouteLegType_eq_dec : EqDecision RouteLegType.
Proof. solve_decision. Defined.

Definition mode_value (m : RouteMode) : string :=
  match m with walking => "walking" | driving => "driving" | transit => "transit" end.
Definition leg_type_value (t : RouteLegType) : string :=
  match t with
  | hotel_departure => "hotel_departure" | between_attractions => "between_attractions"
  | hotel_return => "hotel_return"
  end.

(** A [GeoPoint] is a [Location]. *)
Record RoutePoint := mkRoutePoint {
  rp_name : string; rp_location : Location; rp_poi_id : string; rp_city_code : string
}.

Record RouteLegRequest := mkLegRequest {
  lr_day_index : Z; lr_leg_index : Z; lr_leg_type : RouteLegType; lr_date : string;
  lr_origin : RoutePoint; lr_destination : RoutePoint; lr_mode : RouteMode
}.

Record RouteEstimate := mkRouteEstimate {
  re_day_index : Z; re_leg_index : Z; re_leg_type : RouteLegType; re_date : string;
  re_origin_name : string; re_destination_name : string; re_mode : RouteMode;
  re_available : bool; re_distance_meters : option Z; re_duration_seconds : option Z;
  re_error_code : option string; re_error_message : option string; re_cache_hit : bool
}.

(** [rr_metrics]: the cache and provider counters of the result. *)
Record RouteEstimateResult := mkRouteResult {
  rr_plan_fingerprint : string;
  rr_requested_legs : Z; rr_evaluated_legs : Z; rr_truncated_legs : Z; rr_failed_legs : Z;
  rr_metrics : list (string * json);
  rr_routes : list RouteEstimate
}.

#[export] Instance RoutePoint_eq_dec : EqDecision RoutePoint.
Proof. solve_decision. Defined.

(** ** Field constraints *)

Definition geo_ok (l : Location) : bool :=
  Qle_bool (-180) (longitude l) && Qle_bool (longitude l) 180
  && Qle_bool (-90) (latitude l) && Qle_bool (latitude l) 90.

Definition route_point_ok (p : RoutePoint) : bool :=
  negb (String.eqb (rp_name p) "") && geo_ok (rp_location p).

Definition leg_request_ok (l : RouteLegRequest) : bool :=
  (0 <=? lr_day_index l) && (0 <=? lr_leg_index l)
  && route_point_ok (lr_origin l) && route_point_ok (lr_destination l).

(** ** Restaurant anchors and nearby searches *)

Record RestaurantSearchAnchor := mkAnchor {
  an_anchor_id : string; an_day_index : Z; an_meal_type : string; an_name : string;
  an_location : Location
}.

Definition dump_anchor (a : RestaurantSearchAnchor) : json :=
  JObj [("anchor_id", JStr (an_anchor_id a)); ("day_index", JInt (an_day_index a));
        ("meal_type", JStr (an_meal_type a)); ("name", JStr (an_name a));
        ("location", dump_location (an_location a))].

(** What the agent reads of a [NearbyAttractionSearchResult]. *)
Record NearbySearchResult := mkNearby {
  nb_center : Location; nb_radius_meters : Z; nb_page : Z; nb_data : json
}.

Definition dump_route_point (p : RoutePoint) : json :=
  JObj [("name", JStr (rp_name p)); ("location", dump_location (rp_location p));
        ("poi_id", JStr (rp_poi_id p)); ("city_code", JStr (rp_city_code p))].

Definition dump_leg_request (l : RouteLegRequest) : json :=
  JObj [("day_index", JInt (lr_day_index l)); ("leg_index", JInt (lr_leg_index l));
        ("leg_type", JStr (leg_type_value (lr_leg_type l))); ("date", JStr (lr_date l));
        ("origin", dump_route_point (lr_origin l));
        ("destination", dump_route_point (lr_destination l));
        ("mode", JStr (mode_value (lr_mode l)))].

Definition dump_route (r : RouteEstimate) : json :=
  JObj [("provider", JStr "amap");
        ("day_index", JInt (re_day_index r)); ("leg_index", JInt (re_leg_index r));
        ("leg_type", JStr (leg_type_value (re_leg_type r))); ("date", JStr (re_date r));
        ("origin_name", JStr (re_origin_name r));
        ("destination_name", JStr (re_destination_name r));
        ("mode", JStr (mode_value (re_mode r))); ("available", JBool (re_available r));
        ("distance_meters", json_opt JInt (re_distance_meters r));
        ("duration_seconds", json_opt JInt (re_duration_seconds r));
        ("error_code", jstr_opt (re_error_code r)); ("error_message", jstr_opt (re_error_message r));
        ("cache_hit", JBool (re_cache_hit r))].

Definition dump_route_result (r : RouteEstimateResult) : json :=
  JObj ([("provider", JStr "amap"); ("plan_fingerprint", JStr (rr_plan_fingerprint r));
         ("requested_legs", JInt (rr_requested_legs r));
         ("evaluated_legs", JInt (rr_evaluated_legs r));
         ("truncated_legs", JInt (rr_truncated_legs r))]
        ++ rr_metrics r
        ++ [("failed_legs", JInt (rr_failed_legs r));
            ("routes", JArr (map dump_route (rr_routes r)))])%list.
