(* ===== verification/PlanReports.v ===== *)
(** The reports the evaluators write and the candidates the optimisers propose
    (src/app/routing/quality.py, src/app/commute/models.py,
    src/app/scheduling/models.py, src/app/constraints/models.py,
    src/app/validation/models.py), with their dumps. *)

From S2P Require Import Prelude PyData TripSchema AmapModels.
From Stdlib Require Import ZArith QArith Lia String.
From stdpp Require Import base tactics option list strings.

Open Scope string_scope.
Open Scope Z_scope.

(** ** Reports *)

Record RouteDayQuality := mkRouteDay {
  rd_day_index : Z; rd_date : string; rd_attraction_count : Z; rd_leg_count : Z;
  rd_available_legs : Z; rd_unavailable_legs : Z;
  rd_total_distance_meters : Z; rd_total_duration_seconds : Z;
  rd_longest_leg_index : option Z; rd_longest_duration_seconds : option Z;
  rd_excessive_duration_legs : Z; rd_long_distance_legs : Z;
  rd_optimization_cost : Q; rd_quality_score : Q; rd_optimization_recommended : bool
}.

Record RouteQualityReport := mkRouteQuality {
  rq_plan_fingerprint : string;
  rq_total_legs : Z; rq_available_legs : Z; rq_unavailable_legs : Z;
  rq_total_distance_meters : Z; rq_total_duration_seconds : Z;
  rq_excessive_duration_legs : Z; rq_long_distance_legs : Z;
  rq_optimization_cost : Q; rq_quality_score : Q;
  rq_optimization_recommended : bool;
  rq_days : list RouteDayQuality
}.

Record CommuteSegmentIssue := mkSegmentIssue {
  ci_day_index : Z; ci_leg_index : Z; ci_leg_type : RouteLegType;
  ci_origin_name : string; ci_destination_name : string; ci_mode : RouteMode;
  ci_duration_seconds : Z; ci_distance_meters : Z; ci_limit_seconds : Z; ci_excess_seconds : Z;
  ci_target_attraction_name : string; ci_target_attraction_index : Z
}.

Record DayCommuteReport := mkDayCommute {
  dc_day_index : Z; dc_segment_count : Z; dc_excessive_segment_count : Z;
  dc_max_duration_seconds : Z; dc_issues : list CommuteSegmentIssue
}.

Record CommuteConstraintReport := mkCommuteReport {
  cm_plan_fingerprint : string;
  cm_total_segments : Z; cm_excessive_segment_count : Z;
  cm_max_duration_seconds : Z; cm_total_excess_seconds : Z;
  cm_optimization_recommended : bool;
  cm_issues : list CommuteSegmentIssue; cm_days : list DayCommuteReport
}.

Record TimelineItem := mkTimelineItem {
  ti_item_type : string; ti_name : string; ti_start_time : string; ti_end_time : string;
  ti_duration_minutes : Z; ti_day_index : Z; ti_source_index : option Z;
  ti_transportation_time_source : option string
}.

Record DayScheduleQuality := mkDaySchedule {
  ds_day_index : Z; ds_date : string; ds_available_minutes : Z; ds_attraction_minutes : Z;
  ds_transportation_minutes : Z; ds_meal_minutes : Z; ds_break_minutes : Z;
  ds_total_required_minutes : Z; ds_free_minutes : Z; ds_overtime_minutes : Z;
  ds_fallback_route_legs : Z; ds_optimization_cost : Q; ds_quality_score : Q;
  ds_feasible : bool; ds_timeline : list TimelineItem
}.

Record ScheduleQualityReport := mkScheduleQuality {
  sq_plan_fingerprint : string;
  sq_feasible_days : Z; sq_infeasible_days : Z; sq_total_overtime_minutes : Z;
  sq_fallback_route_legs : Z; sq_total_transportation_minutes : Z;
  sq_optimization_cost : Q; sq_quality_score : Q;
  sq_optimization_recommended : bool;
  sq_days : list DayScheduleQuality
}.

Record ConstraintIssue := mkConstraintIssue {
  xi_code : string; xi_severity : string; xi_path : string; xi_message : string;
  xi_repair_hint : string; xi_repairable : bool; xi_day_index : Z; xi_source_index : option Z;
  xi_attraction_name : option string; xi_penalty : Q; xi_expected : json; xi_actual : json
}.

Record DayConstraintReport := mkDayConstraint {
  dx_day_index : Z; dx_date : string; dx_error_count : Z; dx_warning_count : Z;
  dx_optimization_cost : Q; dx_feasible : bool; dx_issues : list ConstraintIssue
}.

Record TripConstraintReport := mkConstraintReport {
  ct_plan_fingerprint : string;
  ct_error_count : Z; ct_warning_count : Z; ct_repairable_issue_count : Z;
  ct_optimization_cost : Q; ct_quality_score : Q;
  ct_feasible : bool; ct_optimization_recommended : bool;
  ct_days : list DayConstraintReport; ct_issues : list ConstraintIssue
}.

Inductive ValidationSeverity := SevError | SevWarning.

#[export] Instance ValidationSeverity_eq_dec : EqDecision ValidationSeverity.
Proof. solve_decision. Defined.

Record ValidationIssue := mkIssue {
  vi_code : string; vi_severity : ValidationSeverity; vi_path : string; vi_message : string;
  vi_repair_hint : string; vi_repairable : bool; vi_expected : json; vi_actual : json
}.

Record TripValidationResult := mkValidation {
  vr_valid : bool; vr_repairable : bool; vr_error_count : Z; vr_warning_count : Z;
  vr_issues : list ValidationIssue; vr_checked_at : datetime
}.

(** [TripValidationResult.from_issues] *)
Definition validation_errors (issues : list ValidationIssue) : list ValidationIssue :=
  filter (fun i => vi_severity i = SevError) issues.
Definition validation_warnings (issues : list ValidationIssue) : list ValidationIssue :=
  filter (fun i => vi_severity i = SevWarning) issues.

Definition from_issues (issues : list ValidationIssue) (now : datetime) : TripValidationResult :=
  let errors := validation_errors issues in
  let warnings := validation_warnings issues in
  mkValidation (bool_decide (errors = []))
    (negb (bool_decide (errors = [])) && forallb vi_repairable errors)
    (Z.of_nat (length errors)) (Z.of_nat (length warnings)) issues now.

(** ** Candidates of the optimisers *)

(** A candidate plan; [cand_names] and [cand_ids] are the attractions it adds
    (the replacement of a commute candidate, the additions of a refill
    candidate), [cand_fields] all its other fields as they dump. *)
Record PlanCandidate := mkCandidate {
  cand_plan : TripPlan;
  cand_names : list string;
  cand_ids : list string;
  cand_fields : list (string * json)
}.

Record CommuteSupplementQuery := mkSupplementQuery {
  sp_city : string; sp_keywords : string; sp_center : Location; sp_radius_meters : Z;
  sp_page : Z; sp_page_size : Z; sp_day_index : Z; sp_attraction_index : Z;
  sp_target_attraction_name : string; sp_anchor_names : list string
}.

(** [CandidatePoolMergeResult] *)
Record CandidatePoolMergeResult := mkMerge {
  mg_pool : json; mg_received_candidates : Z; mg_added_candidates : Z;
  mg_duplicate_candidates : Z; mg_final_candidates : Z
}.

(** ** Dumps *)

Definition dump_route_day (d : RouteDayQuality) : json :=
  JObj [("day_index", JInt (rd_day_index d)); ("date", JStr (rd_date d));
        ("attraction_count", JInt (rd_attraction_count d)); ("leg_count", JInt (rd_leg_count d));
        ("available_legs", JInt (rd_available_legs d));
        ("unavailable_legs", JInt (rd_unavailable_legs d));
        ("total_distance_meters", JInt (rd_total_distance_meters d));
        ("total_duration_seconds", JInt (rd_total_duration_seconds d));
        ("longest_leg_index", json_opt JInt (rd_longest_leg_index d));
        ("longest_duration_seconds", json_opt JInt (rd_longest_duration_seconds d));
        ("excessive_duration_legs", JInt (rd_excessive_duration_legs d));
        ("long_distance_legs", JInt (rd_long_distance_legs d));
        ("optimization_cost", JFloat (rd_optimization_cost d));
        ("quality_score", JFloat (rd_quality_score d));
        ("optimization_recommended", JBool (rd_optimization_recommended d))].

Definition dump_route_quality (r : RouteQualityReport) : json :=
  JObj [("plan_fingerprint", JStr (rq_plan_fingerprint r)); ("total_legs", JInt (rq_total_legs r));
        ("available_legs", JInt (rq_available_legs r));
        ("unavailable_legs", JInt (rq_unavailable_legs r));
        ("total_distance_meters", JInt (rq_total_distance_meters r));
        ("total_duration_seconds", JInt (rq_total_duration_seconds r));
        ("excessive_duration_legs", JInt (rq_excessive_duration_legs r));
        ("long_distance_legs", JInt (rq_long_distance_legs r));
        ("optimization_cost", JFloat (rq_optimization_cost r));
        ("quality_score", JFloat (rq_quality_score r));
        ("optimization_recommended", JBool (rq_optimization_recommended r));
        ("days", JArr (map dump_route_day (rq_days r)))].

Definition dump_segment_issue (i : CommuteSegmentIssue) : json :=
  JObj [("code", JStr "route.segment_too_long"); ("day_index", JInt (ci_day_index i));
        ("leg_index", JInt (ci_leg_index i)); ("leg_type", JStr (leg_type_value (ci_leg_type i)));
        ("origin_name", JStr (ci_origin_name i)); ("destination_name", JStr (ci_destination_name i));
        ("mode", JStr (mode_value (ci_mode i))); ("duration_seconds", JInt (ci_duration_seconds i));
        ("distance_meters", JInt (ci_distance_meters i)); ("limit_seconds", JInt (ci_limit_seconds i));
        ("excess_seconds", JInt (ci_excess_seconds i));
        ("target_attraction_name", JStr (ci_target_attraction_name i));
        ("target_attraction_index", JInt (ci_target_attraction_index i))].

Definition dump_day_commute (d : DayCommuteReport) : json :=
  JObj [("day_index", JInt (dc_day_index d)); ("segment_count", JInt (dc_segment_count d));
        ("excessive_segment_count", JInt (dc_excessive_segment_count d));
        ("max_duration_seconds", JInt (dc_max_duration_seconds d));
        ("issues", JArr (map dump_segment_issue (dc_issues d)))].

Definition dump_commute_report (r : CommuteConstraintReport) : json :=
  JObj [("plan_fingerprint", JStr (cm_plan_fingerprint r));
        ("total_segments", JInt (cm_total_segments r));
        ("excessive_segment_count", JInt (cm_excessive_segment_count r));
        ("max_duration_seconds", JInt (cm_max_duration_seconds r));
        ("total_excess_seconds", JInt (cm_total_excess_seconds r));
        ("optimization_recommended", JBool (cm_optimization_recommended r));
        ("issues", JArr (map dump_segment_issue (cm_issues r)));
        ("days", JArr (map dump_day_commute (cm_days r)))].

Definition dump_timeline_item (i : TimelineItem) : json :=
  JObj [("item_type", JStr (ti_item_type i)); ("name", JStr (ti_name i));
        ("start_time", JStr (ti_start_time i)); ("end_time", JStr (ti_end_time i));
        ("duration_minutes", JInt (ti_duration_minutes i)); ("day_index", JInt (ti_day_index i));
        ("source_index", json_opt JInt (ti_source_index i));
        ("transportation_time_source", jstr_opt (ti_transportation_time_source i))].

Definition dump_day_schedule (d : DayScheduleQuality) : json :=
  JObj [("day_index", JInt (ds_day_index d)); ("date", JStr (ds_date d));
        ("available_minutes", JInt (ds_available_minutes d));
        ("attraction_minutes", JInt (ds_attraction_minutes d));
        ("transportation_minutes", JInt (ds_transportation_minutes d));
        ("meal_minutes", JInt (ds_meal_minutes d)); ("break_minutes", JInt (ds_break_minutes d));
        ("total_required_minutes", JInt (ds_total_required_minutes d));
        ("free_minutes", JInt (ds_free_minutes d));
        ("overtime_minutes", JInt (ds_overtime_minutes d));
        ("fallback_route_legs", JInt (ds_fallback_route_legs d));
        ("optimization_cost", JFloat (ds_optimization_cost d));
        ("quality_score", JFloat (ds_quality_score d)); ("feasible", JBool (ds_feasible d));
        ("timeline", JArr (map dump_timeline_item (ds_timeline d)))].

Definition dump_schedule_report (r : ScheduleQualityReport) : json :=
  JObj [("plan_fingerprint", JStr (sq_plan_fingerprint r));
        ("feasible_days", JInt (sq_feasible_days r)); ("infeasible_days", JInt (sq_infeasible_days r));
        ("total_overtime_minutes", JInt (sq_total_overtime_minutes r));
        ("fallback_route_legs", JInt (sq_fallback_route_legs r));
        ("total_transportation_minutes", JInt (sq_total_transportation_minutes r));
        ("optimization_cost", JFloat (sq_optimization_cost r));
        ("quality_score", JFloat (sq_quality_score r));
        ("optimization_recommended", JBool (sq_optimization_recommended r));
        ("days", JArr (map dump_day_schedule (sq_days r)))].

Definition dump_constraint_issue (i : ConstraintIssue) : json :=
  JObj [("code", JStr (xi_code i)); ("severity", JStr (xi_severity i)); ("path", JStr (xi_path i));
        ("message", JStr (xi_message i)); ("repair_hint", JStr (xi_repair_hint i));
        ("repairable", JBool (xi_repairable i)); ("day_index", JInt (xi_day_index i));
        ("source_index", json_opt JInt (xi_source_index i));
        ("attraction_name", jstr_opt (xi_attraction_name i)); ("penalty", JFloat (xi_penalty i));
        ("expected", xi_expected i); ("actual", xi_actual i)].

Definition dump_day_constraint (d : DayConstraintReport) : json :=
  JObj [("day_index", JInt (dx_day_index d)); ("date", JStr (dx_date d));
        ("error_count", JInt (dx_error_count d)); ("warning_count", JInt (dx_warning_count d));
        ("optimization_cost", JFloat (dx_optimization_cost d)); ("feasible", JBool (dx_feasible d));
        ("issues", JArr (map dump_constraint_issue (dx_issues d)))].

Definition dump_constraint_report (r : TripConstraintReport) : json :=
  JObj [("plan_fingerprint", JStr (ct_plan_fingerprint r));
        ("error_count", JInt (ct_error_count r)); ("warning_count", JInt (ct_warning_count r));
        ("repairable_issue_count", JInt (ct_repairable_issue_count r));
        ("optimization_cost", JFloat (ct_optimization_cost r));
        ("quality_score", JFloat (ct_quality_score r)); ("feasible", JBool (ct_feasible r));
        ("optimization_recommended", JBool (ct_optimization_recommended r));
        ("days", JArr (map dump_day_constraint (ct_days r)));
        ("issues", JArr (map dump_constraint_issue (ct_issues r)))].

Definition severity_value (s : ValidationSeverity) : string :=
  match s with SevError => "error" | SevWarning => "warning" end.

Definition dump_validation_issue (i : ValidationIssue) : json :=
  JObj [("code", JStr (vi_code i)); ("severity", JStr (severity_value (vi_severity i)));
        ("path", JStr (vi_path i)); ("message", JStr (vi_message i));
        ("repair_hint", JStr (vi_repair_hint i)); ("repairable", JBool (vi_repairable i));
        ("expected", vi_expected i); ("actual", vi_actual i)].

(** [dump_datetime]: the ISO text of an aware timestamp. *)
Definition dump_validation (dump_datetime : datetime → string) (v : TripValidationResult) : json :=
  JObj [("valid", JBool (vr_valid v)); ("repairable", JBool (vr_repairable v));
        ("error_count", JInt (vr_error_count v)); ("warning_count", JInt (vr_warning_count v));
        ("issues", JArr (map dump_validation_issue (vr_issues v)));
        ("checked_at", JStr (dump_datetime (vr_checked_at v)))].

Definition dump_candidate (c : PlanCandidate) : json :=
  JObj (("plan", dump_plan (cand_plan c)) :: cand_fields c).

Definition dump_supplement_query (q : CommuteSupplementQuery) : json :=
  JObj [("city", JStr (sp_city q)); ("keywords", JStr (sp_keywords q));
        ("center", dump_location (sp_center q)); ("radius_meters", JInt (sp_radius_meters q));
        ("page", JInt (sp_page q)); ("page_size", JInt (sp_page_size q));
        ("day_index", JInt (sp_day_index q)); ("attraction_index", JInt (sp_attraction_index q));
        ("target_attraction_name", JStr (sp_target_attraction_name q));
        ("anchor_names", JArr (map JStr (sp_anchor_names q)))].

(** [TripValidationResult.error_summary] *)
Definition error_summary (v : TripValidationResult) : string :=
  let errors := validation_errors (vr_issues v) in
  match errors with
  | [] => "行程校验通过"
  | _ =>
      let shown := take 8 errors in
      let remaining := (Z.of_nat (length errors) - Z.of_nat (length shown))%Z in
      String.concat "; " (map (fun i => vi_path i ++ ": " ++ vi_message i) shown)
      ++ (if 0 <? remaining then "; 另有 " ++ str_of_Z remaining ++ " 个错误" else "")
  end.
