(* ===== verification/ToolModels.v ===== *)
(** Tools: the standard result, the registry that runs only registered tools,
    and the classification of their errors (src/app/tools/models.py and
    src/app/tools/registry.py).

    A tool's handler, result validator and output model are the callables the
    definition carries; what running them ends in is a [HandlerOutcome]. *)

From S2P Require Import Prelude PyData OrderedDict.
From Stdlib Require Import ZArith QArith Lia String.
From stdpp Require Import base tactics option list strings.

Open Scope string_scope.
Open Scope Z_scope.

Inductive ToolErrorType :=
| TOOL_NOT_FOUND | INVALID_INPUT | INVALID_OUTPUT | AUTHORIZATION | RATE_LIMIT | TIMEOUT
| UPSTREAM | EXECUTION | CIRCUIT_OPEN | BUDGET_EXCEEDED | CANCELLED.

#[export] Instance ToolErrorType_eq_dec : EqDecision ToolErrorType.
Proof. solve_decision. Defined.

Record ActionResult := mkActionResult {
  ar_tool_name : string;
  ar_success : bool;
  ar_data : option json;
  ar_error : option string;
  ar_error_type : option ToolErrorType;
  ar_retryable : bool;
  ar_duration_ms : Z;
  ar_retry_after_ms : Z;
  ar_circuit_state : option string;
  ar_provider_code : option string;
  ar_provider_message : option string
}.

#[export] Instance action_result_rebuild : Rebuild ActionResult := fun r =>
  mkActionResult (ar_tool_name r) (ar_success r) (ar_data r) (ar_error r) (ar_error_type r)
    (ar_retryable r) (ar_duration_ms r) (ar_retry_after_ms r) (ar_circuit_state r)
    (ar_provider_code r) (ar_provider_message r).

(** ** The registry *)

(** An exception a handler raises: its class, as far as the classification
    looks at it, and its text. *)
Inductive raised_class := ClsTimeoutError | ClsPermissionError | ClsOther (name : string).

(** The control signals of the task runtime, which are never wrapped. *)
Inductive control_signal := SignalCancelled | SignalLeaseLost.

Inductive HandlerOutcome :=
| HandlerReturned (output : json)
| HandlerToolError (msg : string) (ty : ToolErrorType) (retryable : bool)
    (provider_code provider_message : option string)
| HandlerInvalidOutput (msg : string)
| HandlerRaised (cls : raised_class) (msg : string)
| HandlerSignal (s : control_signal).

Record ToolDefinition := mkToolDefinition {
  td_name : string;
  (** [input_model.model_validate] and the whole call on a valid input *)
  td_validate_input : json → result string json;
  td_call : json → HandlerOutcome;
  td_invalid_output_retryable : bool;
  td_llm_call_cost : Z
}.

Definition ToolRegistry := odict ToolDefinition.

Definition register (d : ToolDefinition) (reg : ToolRegistry) : result exn ToolRegistry :=
  if String.eqb (squeeze (td_name d)) "" then Err (ValueError "tool name cannot be empty")
  else if match od_get (td_name d) reg with Some _ => true | None => false end
  then Err (ValueError ("tool already registered: " ++ td_name d))
  else if td_llm_call_cost d <? 0 then Err (ValueError "llm_call_cost cannot be negative")
  else Ok (od_set (td_name d) d reg).

Definition llm_call_cost (name : string) (reg : ToolRegistry) : Z :=
  match od_get name reg with Some d => Z.max 0 (td_llm_call_cost d) | None => 0 end.

(** [_safe_message] on an exception of class [cls]. *)
Definition safe_message (limit : nat) (cls msg : string) : string :=
  py_take limit (let m := squeeze msg in if String.eqb m "" then cls else m).

Definition class_name (c : raised_class) : string :=
  match c with
  | ClsTimeoutError => "TimeoutError"
  | ClsPermissionError => "PermissionError"
  | ClsOther n => n
  end.

Definition mentions (markers : list string) (msg : string) : bool :=
  existsb (fun m => str_contains m msg) markers.

(** [_classify_exception] *)
Definition classify_exception (cls : raised_class) (msg : string) : ToolErrorType * bool :=
  match cls with
  | ClsTimeoutError => (TIMEOUT, true)
  | ClsPermissionError => (AUTHORIZATION, false)
  | ClsOther _ =>
      let m := ascii_lower msg in
      if mentions ["401"; "403"; "unauthorized"; "forbidden"; "无权"; "令牌无效"] m
      then (AUTHORIZATION, false)
      else if mentions ["429"; "rate limit"; "too many requests"; "限流"] m
      then (RATE_LIMIT, true)
      else if mentions ["timeout"; "timed out"; "超时"] m then (TIMEOUT, true)
      else if mentions ["500"; "502"; "503"; "504"; "upstream"; "上游"] m then (UPSTREAM, true)
      else if mentions ["400"; "bad request"; "unsupported"; "不支持"] m
      then (INVALID_INPUT, false)
      else (EXECUTION, true)
  end.

Definition tool_failure (name msg : string) (ty : ToolErrorType) (retryable : bool)
    (elapsed_ms : Z) (code message : option string) : ActionResult :=
  mkActionResult name false None (Some msg) (Some ty) retryable elapsed_ms 0 None code message.

(** [execute]: [signals i] tells whether the [i]-th cancellation check of the
    call raises; [elapsed_ms] is the measured duration. *)
Definition registry_execute (reg : ToolRegistry) (signals : nat → option control_signal)
    (elapsed_ms : Z) (name : string) (payload : json) : result control_signal ActionResult :=
  match od_get name reg with
  | None =>
      Ok (tool_failure name ("工具未注册或不在白名单中: " ++ name) TOOL_NOT_FOUND false elapsed_ms
            None None)
  | Some d =>
      match signals 0%nat with
      | Some s => Err s
      | None =>
          match td_validate_input d payload with
          | Err msg =>
              Ok (tool_failure name (safe_message 1000 "ValidationError" msg) INVALID_INPUT false
                    elapsed_ms None None)
          | Ok input =>
              match signals 1%nat with
              | Some s => Err s
              | None =>
                  match td_call d input with
                  | HandlerSignal s => Err s
                  | HandlerReturned output =>
                      Ok (mkActionResult name true (Some output) None None false elapsed_ms 0
                            None None None)
                  | HandlerToolError msg ty retryable code message =>
                      Ok (tool_failure name (safe_message 1000 "ToolResultError" msg) ty retryable
                            elapsed_ms code message)
                  | HandlerInvalidOutput msg =>
                      Ok (tool_failure name (safe_message 1000 "ValidationError" msg) INVALID_OUTPUT
                            (td_invalid_output_retryable d) elapsed_ms None None)
                  | HandlerRaised cls msg =>
                      let '(ty, retryable) := classify_exception cls msg in
                      Ok (tool_failure name (safe_message 1000 (class_name cls) msg) ty retryable
                            elapsed_ms None None)
                  end
              end
          end
      end
  end.

(** A result names the tool that was asked for, and a success is never retryable. *)
Lemma registry_execute_shape reg signals ms name payload r :
  registry_execute reg signals ms name payload = Ok r →
  ar_tool_name r = name ∧ (ar_success r = true → ar_retryable r = false ∧ ar_error_type r = None)
  ∧ (ar_success r = false → is_Some (ar_error_type r) ∧ is_Some (ar_error r)).
Proof.
  unfold registry_execute. destruct (od_get name reg) as [d|].
  2: { intros [= <-]. simpl. repeat split; eauto; done. }
  destruct (signals 0%nat); [done|]. destruct (td_validate_input d payload) as [input|m].
  2: { intros [= <-]. simpl. repeat split; eauto; done. }
  destruct (signals 1%nat); [done|].
  destruct (td_call d input) as [output|m ty rt c pm|m|cls m|s]; [| | | |done].
  - intros [= <-]. simpl. repeat split; done.
  - intros [= <-]. simpl. repeat split; eauto; done.
  - intros [= <-]. simpl. repeat split; eauto; done.
  - destruct (classify_exception cls m) as [ty rt]. intros [= <-]. simpl. repeat split; eauto; done.
Qed.
