(* ===== verification/Circuit.v ===== *)
(** [CircuitBreaker] (src/app/agent_runtime/execution_policy.py): one
    closed / open / half-open state machine per tool, shared by every session
    of the process.  Each method runs under the breaker's lock and reads the
    monotonic clock (in seconds) at most once; the reading is an argument. *)

From S2P Require Import Prelude PyData OrderedDict ToolModels.
From Stdlib Require Import ZArith QArith Lia Lqa String.
From stdpp Require Import base tactics option list gmap strings.

Open Scope string_scope.
Open Scope Z_scope.

Inductive CircuitState := CLOSED | OPEN | HALF_OPEN.

#[export] Instance CircuitState_eq_dec : EqDecision CircuitState.
Proof. solve_decision. Defined.

Definition circuit_value (s : CircuitState) : string :=
  match s with CLOSED => "closed" | OPEN => "open" | HALF_OPEN => "half_open" end.

Record CircuitEntry := mkEntry {
  ce_state : CircuitState;
  ce_consecutive_failures : Z;
  ce_opened_at : option Q;
  ce_half_open_in_flight : bool
}.

Definition new_entry : CircuitEntry := mkEntry CLOSED 0 None false.

Record CircuitPermit := mkPermit {
  permit_allowed : bool;
  permit_state : CircuitState;
  permit_retry_after_seconds : Q
}.

Record CircuitBreaker := mkBreaker {
  failure_threshold : Z;
  recovery_timeout_seconds : Q;
  entries : gmap string CircuitEntry
}.

Definition new_breaker (threshold : Z) (recovery : Q) : result exn CircuitBreaker :=
  if threshold <? 1 then Err (ValueError "failure_threshold must be at least 1")
  else if Qlt_bool recovery 0 then Err (ValueError "recovery_timeout_seconds cannot be negative")
  else Ok (mkBreaker threshold recovery ∅).

Definition tracked_error (ty : option ToolErrorType) : bool :=
  match ty with
  | Some RATE_LIMIT | Some TIMEOUT | Some UPSTREAM | Some EXECUTION => true
  | _ => false
  end.

(** [_open] and [_close] *)
Definition open_entry (now : Q) (e : CircuitEntry) : CircuitEntry :=
  mkEntry OPEN (ce_consecutive_failures e) (Some now) false.
Definition close_entry (e : CircuitEntry) : CircuitEntry := mkEntry CLOSED 0 None false.

(** [before_call] on an entry. *)
Definition entry_before_call (recovery now : Q) (e : CircuitEntry)
    : CircuitPermit * CircuitEntry :=
  match ce_state e with
  | CLOSED => (mkPermit true CLOSED 0, e)
  | s =>
      let remaining := fmax 0 (recovery - (now - default now (ce_opened_at e))) in
      if bool_decide (s = OPEN) && Qlt_bool 0 remaining
      then (mkPermit false OPEN remaining, e)
      else
        let e := match s with
                 | OPEN => mkEntry HALF_OPEN (ce_consecutive_failures e) (ce_opened_at e) false
                 | _ => e
                 end in
        if ce_half_open_in_flight e then (mkPermit false HALF_OPEN recovery, e)
        else (mkPermit true HALF_OPEN 0,
              mkEntry (ce_state e) (ce_consecutive_failures e) (ce_opened_at e) true)
  end.

(** [record_result] on an entry. *)
Definition entry_record_result (threshold : Z) (now : Q) (r : ActionResult) (e : CircuitEntry)
    : CircuitEntry :=
  if ar_success r then close_entry e
  else
    let tracked := ar_retryable r && tracked_error (ar_error_type r) in
    match ce_state e with
    | HALF_OPEN => if tracked then open_entry now e else close_entry e
    | _ =>
        if tracked then
          let e := mkEntry (ce_state e) (ce_consecutive_failures e + 1) (ce_opened_at e)
                     (ce_half_open_in_flight e) in
          if threshold <=? ce_consecutive_failures e then open_entry now e else e
        else e
    end.

(** [self._entries.setdefault(tool_name, _CircuitEntry())] *)
Definition entry_of (tool : string) (b : CircuitBreaker) : CircuitEntry :=
  default new_entry (entries b !! tool).

Definition set_entry (tool : string) (e : CircuitEntry) (b : CircuitBreaker) : CircuitBreaker :=
  mkBreaker (failure_threshold b) (recovery_timeout_seconds b) (<[tool := e]> (entries b)).

Definition before_call (tool : string) (now : Q) (b : CircuitBreaker)
    : CircuitPermit * CircuitBreaker :=
  let '(permit, e) := entry_before_call (recovery_timeout_seconds b) now (entry_of tool b) in
  (permit, set_entry tool e b).

Definition record_result (tool : string) (r : ActionResult) (now : Q) (b : CircuitBreaker)
    : CircuitState * CircuitBreaker :=
  let e := entry_record_result (failure_threshold b) now r (entry_of tool b) in
  (ce_state e, set_entry tool e b).

Definition state_for (tool : string) (b : CircuitBreaker) : CircuitState := ce_state (entry_of tool b).

Definition reset (tool : option string) (b : CircuitBreaker) : CircuitBreaker :=
  mkBreaker (failure_threshold b) (recovery_timeout_seconds b)
    (match tool with None => ∅ | Some t => delete t (entries b) end).

(** ** Runs *)

Inductive CircuitOp :=
| BeforeCall (tool : string) (now : Q)
| RecordResult (tool : string) (r : ActionResult) (now : Q)
| Reset (tool : option string).

Definition circuit_step (b : CircuitBreaker) (op : CircuitOp) : CircuitBreaker :=
  match op with
  | BeforeCall tool now => (before_call tool now b).2
  | RecordResult tool r now => (record_result tool r now b).2
  | Reset tool => reset tool b
  end.
Definition circuit_run (ops : list CircuitOp) (b : CircuitBreaker) : CircuitBreaker :=
  foldl circuit_step b ops.

(** ** What a breaker promises for one tool *)

(** The abstract machine: how many tracked failures in a row, open since when,
    or waiting for the result of the one probe. *)
Inductive Spec :=
| SClosed (failures : Z)
| SOpen (failures : Z) (since : Q)
| SProbing (failures : Z) (since : Q).

Definition spec_before (recovery now : Q) (s : Spec) : bool * Spec :=
  match s with
  | SClosed n => (true, SClosed n)
  | SOpen n since =>
      if Qlt_bool (now - since) recovery then (false, SOpen n since) else (true, SProbing n since)
  | SProbing n since => (false, SProbing n since)
  end.

(** Whether a result counts against the tool. *)
Definition counts (r : ActionResult) : bool :=
  negb (ar_success r) && ar_retryable r && tracked_error (ar_error_type r).

Definition spec_record (threshold : Z) (now : Q) (r : ActionResult) (s : Spec) : Spec :=
  if ar_success r then SClosed 0
  else match s, counts r with
       | SProbing n since, true => SOpen n now
       | SProbing _ _, false => SClosed 0
       | SClosed n, true => if threshold <=? n + 1 then SOpen (n + 1) now else SClosed (n + 1)
       | SOpen n since, true => if threshold <=? n + 1 then SOpen (n + 1) now else SOpen (n + 1) since
       | s, false => s
       end.

Definition spec_step (threshold : Z) (recovery : Q) (tool : string) (s : Spec) (op : CircuitOp)
    : Spec :=
  match op with
  | BeforeCall t now => if String.eqb t tool then (spec_before recovery now s).2 else s
  | RecordResult t r now => if String.eqb t tool then spec_record threshold now r s else s
  | Reset None => SClosed 0
  | Reset (Some t) => if String.eqb t tool then SClosed 0 else s
  end.

(** The entry of a tool represents an abstract state. *)
Definition represents (e : CircuitEntry) (s : Spec) : Prop :=
  match s with
  | SClosed n => e = mkEntry CLOSED n None false
  | SOpen n since => e = mkEntry OPEN n (Some since) false
  | SProbing n since => e = mkEntry HALF_OPEN n (Some since) true
  end.

Lemma before_represents recovery now e s :
  represents e s →
  permit_allowed (entry_before_call recovery now e).1 = (spec_before recovery now s).1
  ∧ represents (entry_before_call recovery now e).2 (spec_before recovery now s).2.
Proof.
  destruct s as [n|n since|n since]; simpl; intros ->; unfold entry_before_call; simpl; [done| |done].
  destruct (Qlt_bool (now - since) recovery) eqn:E.
  - apply Qlt_bool_iff in E.
    assert (Hr : Qlt_bool 0 (fmax 0 (recovery - (now - since))) = true).
    { apply Qlt_bool_iff. pose proof (fmax_r 0 (recovery - (now - since))). lra. }
    by rewrite Hr.
  - apply Qlt_bool_false in E.
    assert (Hr : Qlt_bool 0 (fmax 0 (recovery - (now - since))) = false).
    { apply Qlt_bool_false. float_cases. }
    by rewrite Hr.
Qed.

Lemma record_represents threshold now r e s :
  represents e s → represents (entry_record_result threshold now r e) (spec_record threshold now r s).
Proof.
  unfold entry_record_result, spec_record, counts.
  destruct (ar_success r) eqn:Es; [done|]. simpl.
  destruct s as [n|n since|n since]; simpl; intros ->; simpl;
    destruct (ar_retryable r && tracked_error (ar_error_type r)); simpl; try done;
    by destruct (threshold <=? n + 1).
Qed.

Lemma entry_of_set tool tool' e b :
  entry_of tool (set_entry tool' e b) = if String.eqb tool' tool then e else entry_of tool b.
Proof.
  unfold entry_of, set_entry. simpl. destruct (String.eqb_spec tool' tool) as [->|Hne].
  - by rewrite lookup_insert_eq.
  - by rewrite lookup_insert_ne.
Qed.

Lemma step_config b op :
  failure_threshold (circuit_step b op) = failure_threshold b
  ∧ recovery_timeout_seconds (circuit_step b op) = recovery_timeout_seconds b.
Proof.
  destruct op as [t now|t r now|t]; simpl; [|done|done].
  unfold before_call. by destruct (entry_before_call _ _ _).
Qed.

Lemma run_recovery ops b :
  recovery_timeout_seconds (circuit_run ops b) = recovery_timeout_seconds b.
Proof.
  revert b. induction ops as [|op ops IH]; intros b; [done|].
  transitivity (recovery_timeout_seconds (circuit_step b op)); [apply IH|apply step_config].
Qed.

Lemma step_represents tool b op s :
  represents (entry_of tool b) s →
  represents (entry_of tool (circuit_step b op))
    (spec_step (failure_threshold b) (recovery_timeout_seconds b) tool s op).
Proof.
  intros Hr. destruct op as [t now|t r now|[t|]]; simpl.
  - unfold before_call. destruct (entry_before_call _ _ _) as [p e] eqn:E. simpl.
    rewrite entry_of_set. destruct (String.eqb_spec t tool) as [->|_]; [|done].
    pose proof (before_represents (recovery_timeout_seconds b) now _ _ Hr) as [_ H].
    by rewrite E in H.
  - rewrite entry_of_set. destruct (String.eqb_spec t tool) as [->|_]; [|done].
    by apply record_represents.
  - unfold reset, entry_of. simpl. destruct (String.eqb_spec t tool) as [->|Hne].
    + by rewrite lookup_delete_eq.
    + by rewrite lookup_delete_ne.
  - unfold entry_of. simpl. by rewrite lookup_empty.
Qed.

Lemma run_represents tool ops b s :
  represents (entry_of tool b) s →
  represents (entry_of tool (circuit_run ops b))
    (foldl (spec_step (failure_threshold b) (recovery_timeout_seconds b) tool) s ops).
Proof.
  revert b s. induction ops as [|op ops IH]; intros b s Hr; [done|]. simpl.
  destruct (step_config b op) as [Ht Hrec].
  pose proof (IH (circuit_step b op) _ (step_represents tool b op s Hr)) as H.
  by rewrite Ht, Hrec in H.
Qed.

(** C36: each tool's breaker is the three-state machine: for every sequence of
    calls on all tools, whether a call of one tool is let through is what the
    abstract machine of that tool alone answers. *)
Theorem circuit_refines_machine threshold recovery b ops tool now :
  new_breaker threshold recovery = Ok b →
  permit_allowed (before_call tool now (circuit_run ops b)).1
  = (spec_before recovery now (foldl (spec_step threshold recovery tool) (SClosed 0) ops)).1.
Proof.
  unfold new_breaker. destruct (threshold <? 1); [done|]. destruct (Qlt_bool recovery 0); [done|].
  intros [= <-]. set (b := mkBreaker threshold recovery ∅).
  assert (H0 : represents (entry_of tool b) (SClosed 0)) by (unfold entry_of; simpl; by rewrite lookup_empty).
  pose proof (run_represents tool ops b (SClosed 0) H0) as Hr. simpl in Hr.
  assert (Hc : recovery_timeout_seconds (circuit_run ops b) = recovery)
    by (by rewrite run_recovery).
  unfold before_call. rewrite Hc.
  pose proof (before_represents recovery now _ _ Hr) as [Ha _].
  by destruct (entry_before_call recovery now (entry_of tool (circuit_run ops b))).
Qed.

(** Results and resets of a tool, the only operations that end a probe. *)
Definition touches (tool : string) (op : CircuitOp) : bool :=
  match op with
  | BeforeCall _ _ => false
  | RecordResult t _ _ => String.eqb t tool
  | Reset None => true
  | Reset (Some t) => String.eqb t tool
  end.

(** A half-open probe that reports no result blocks its tool for good: once
    the probe was let through, until a result of that tool is recorded (or the
    breaker is reset, which no code of the application does) every call of the
    tool is refused, at any time. *)
Lemma lost_probe_blocks_tool b tool now ops later :
  permit_state (before_call tool now b).1 = HALF_OPEN →
  existsb (touches tool) ops = false →
  permit_allowed (before_call tool later (circuit_run ops (before_call tool now b).2)).1 = false.
Proof.
  intros Hp Hops.
  assert (Hprobe : ∃ n since, entry_of tool (before_call tool now b).2 = mkEntry HALF_OPEN n since true).
  { revert Hp. unfold before_call, entry_before_call.
    destruct (entry_of tool b) as [[| |] n since fl]; simpl; [done| |].
    - destruct (Qlt_bool _ _); simpl; [done|]. intros _. rewrite entry_of_set, String.eqb_refl. eauto.
    - destruct fl; simpl; intros _; rewrite entry_of_set, String.eqb_refl; eauto. }
  revert Hprobe. generalize (before_call tool now b).2. clear Hp.
  induction ops as [|op ops IH]; intros b' (n & since & He); simpl.
  - unfold before_call. rewrite He. done.
  - simpl in Hops. apply orb_false_iff in Hops as [Hop Hops]. apply (IH Hops).
    destruct op as [t now'|t r now'|[t|]]; simpl in *; [| | |done].
    + unfold before_call. destruct (String.eqb_spec t tool) as [->|Hne].
      * rewrite He. simpl. rewrite entry_of_set, String.eqb_refl. eauto.
      * destruct (entry_before_call _ _ _). simpl. rewrite entry_of_set.
        rewrite (proj2 (String.eqb_neq t tool)) by done. eauto.
    + rewrite entry_of_set, Hop. eauto.
    + unfold entry_of in *. simpl. rewrite lookup_delete_ne; [eauto|].
      by apply String.eqb_neq.
Qed.

(** Three time-outs open the breaker of [get_weather]; after the recovery time
    one probe is let through. *)
Definition timed_out : ActionResult :=
  mkActionResult "get_weather" false None (Some "timeout") (Some TIMEOUT) true 5 0 None None None.
Definition outage : list CircuitOp :=
  [RecordResult "get_weather" timed_out 1; RecordResult "get_weather" timed_out 2;
   RecordResult "search_hotels" timed_out 2; RecordResult "get_weather" timed_out 3].

Lemma circuit_refines_machine_witness :
  permit_allowed (before_call "get_weather" 20 (circuit_run outage (mkBreaker 3 30 ∅))).1 = false
  ∧ permit_allowed (before_call "get_weather" 33 (circuit_run outage (mkBreaker 3 30 ∅))).1 = true.
Proof.
  split.
  - rewrite (circuit_refines_machine 3 30 (mkBreaker 3 30 ∅) outage "get_weather" 20 eq_refl).
    vm_compute. reflexivity.
  - rewrite (circuit_refines_machine 3 30 (mkBreaker 3 30 ∅) outage "get_weather" 33 eq_refl).
    vm_compute. reflexivity.
Defined.
