(* ===== verification/PlanRoutes.v ===== *)
(** Route legs of a plan (src/app/routing/plan_routes.py): the route mode a
    free text asks for, the fingerprint of everything the routes depend on, the
    hotels a day starts from and returns to, and the legs a provider is asked
    for. *)

From S2P Require Import Prelude FloatMath PyData TripSchema AmapModels OrderedDict.
From Stdlib Require Import ZArith QArith Lia Ascii String.
From stdpp Require Import base tactics option list strings.

Open Scope string_scope.
Open Scope Z_scope.

(** ** Transportation mode *)

Definition MODE_MARKERS : list (RouteMode * list string) :=
  [(transit, ["公共交通"; "公交"; "地铁"; "轨道"; "轻轨"; "public"; "transit"; "metro"; "subway"; "bus"]);
   (driving, ["自驾"; "驾车"; "开车"; "汽车"; "打车"; "出租车"; "driving"; "drive"; "car"; "taxi"]);
   (walking, ["步行"; "徒步"; "walking"; "walk"; "hiking"])].

Definition match_transportation_mode (text : string) : option RouteMode :=
  fst <$> find (fun m => existsb (fun marker => str_contains marker text) m.2) MODE_MARKERS.

Definition mode_prefixes : list string := ["出行方式"; "交通方式"; "travel mode"; "transportation"].

(** The mode declared right after a prefix, when the text has one. *)
Definition declared_mode (text prefix : string) : option RouteMode :=
  match String.index 0 prefix text with
  | None => None
  | Some i =>
      let declared := str_drop (i + String.length prefix) text in
      let declared :=
        lstrip_chars [" "; String (ascii_of_nat 9) ""; ":"; "："] (String.length declared) declared in
      match_transportation_mode (str_before "。" (str_before ";" (str_before "；" declared)))
  end.

Fixpoint first_some {A B} (f : A → option B) (l : list A) : option B :=
  match l with
  | [] => None
  | x :: l => match f x with Some y => Some y | None => first_some f l end
  end.

Definition normalize_transportation_mode (value : string) : RouteMode :=
  let text := ascii_lower (py_strip value) in
  match first_some (declared_mode text) mode_prefixes with
  | Some m => m
  | None => default transit (match_transportation_mode text)
  end.

(** [day.transportation or request.transportation] *)
Definition str_or (a b : string) : string := if String.eqb a "" then b else a.

(** ** The route fingerprint *)

(** [round(x, 6)] *)
Definition round6 (q : Q) : Q := round_n 6 q.

Definition hotel_fingerprint (h : option Hotel) : json :=
  match h with
  | None => JNull
  | Some h =>
      JObj [("name", JStr (hotel_name h));
            ("longitude", json_opt (fun l => JFloat (round6 (longitude l))) (hotel_location h));
            ("latitude", json_opt (fun l => JFloat (round6 (latitude l))) (hotel_location h))]
  end.

Definition attraction_fingerprint (a : Attraction) : json :=
  JObj [("name", JStr (at_name a)); ("poi_id", JStr (default "" (at_poi_id a)));
        ("longitude", JFloat (round6 (longitude (at_location a))));
        ("latitude", JFloat (round6 (latitude (at_location a))))].

Definition day_mode (req : TripRequest) (d : DayPlan) : RouteMode :=
  normalize_transportation_mode (str_or (day_transportation d) (req_transportation req)).

Definition plan_route_payload (req : TripRequest) (p : TripPlan) : json :=
  JObj [("request_transportation_mode",
         JStr (mode_value (normalize_transportation_mode (req_transportation req))));
        ("days", JArr (map (fun d =>
           JObj [("date", JStr (day_date d)); ("day_index", JInt (day_index d));
                 ("transportation_mode", JStr (mode_value (day_mode req d)));
                 ("hotel", hotel_fingerprint (day_hotel d));
                 ("attractions", JArr (map attraction_fingerprint (day_attractions d)))])
           (plan_days p)))].

Section Fingerprint.
Context (sha256_hex : string → string) (float_repr : Q → string).

Definition plan_route_fingerprint (req : TripRequest) (p : TripPlan) : string :=
  sha256_hex (json_dumps_canonical float_repr (plan_route_payload req p)).
End Fingerprint.

(** ** Hotels of a day *)

Definition located (h : option Hotel) : option Hotel :=
  match h with
  | Some h => match hotel_location h with Some _ => Some h | None => None end
  | None => None
  end.

(** [resolve_day_hotels]: the days before the position, last one first. *)
Definition resolve_day_hotels (days : list DayPlan) (position : nat) : option Hotel * option Hotel :=
  let current := match days !! position with Some d => located (day_hotel d) | None => None end in
  (match current with
   | Some h => Some h
   | None => first_some (fun d => located (day_hotel d)) (reverse (take position days))
   end, current).

(** [day.day_index if day.day_index >= 0 else day_position] *)
Definition effective_day_index (position : nat) (d : DayPlan) : Z :=
  if 0 <=? day_index d then day_index d else Z.of_nat position.

(** ** Expected legs *)

Definition RouteLegKey : Type := Z * RouteLegType * Z.

Definition is_some {A} (o : option A) : bool := match o with Some _ => true | None => false end.

Definition day_leg_keys (days : list DayPlan) (position : nat) (d : DayPlan) : list RouteLegKey :=
  let day_index := effective_day_index position d in
  let '(start_hotel, return_hotel) := resolve_day_hotels days position in
  let nonempty := negb (bool_decide (day_attractions d = [])) in
  ((if nonempty && is_some start_hotel then [(day_index, hotel_departure, 0)] else [])
   ++ map (fun i => (day_index, between_attractions, Z.of_nat i))
        (seq 0 (length (day_attractions d) - 1))
   ++ (if nonempty && is_some return_hotel then [(day_index, hotel_return, 0)] else []))%list.

Definition expected_route_leg_keys (p : TripPlan) : list RouteLegKey :=
  concat (imap (day_leg_keys (plan_days p)) (plan_days p)).

(** ** Leg requests *)

(** [str(value or "")] of a provider field, which holds a text or a number
    code; other JSON values have no text here. *)
Definition text_of (v : option json) : string :=
  match v with
  | Some (JStr s) => s
  | Some (JInt z) => if z =? 0 then "" else str_of_Z z
  | _ => ""
  end.

Definition normalized_text (s : string) : string := squash (ascii_lower (py_strip s)).

Definition objects_of (l : list json) : list (list (string * json)) :=
  omap (fun v => match v with JObj kvs => Some kvs | _ => None end) l.

Definition source_candidates (payload : option json) : list (list (string * json)) :=
  match payload with
  | Some (JObj kvs) =>
      match obj_get "candidates" kvs with
      | Some (JArr l) => objects_of l
      | _ => match obj_get "pois" kvs with Some (JArr l) => objects_of l | _ => [] end
      end
  | _ => []
  end.

(** [item.get(key, item.get(fallback))] *)
Definition get_or (key fallback : string) (item : list (string * json)) : option json :=
  match obj_get key item with Some v => Some v | None => obj_get fallback item end.

Record SourceIndexes := mkIndexes {
  by_id : odict (list (string * json));
  by_name : odict (list (string * json));
  city_code : string
}.

Definition setdefault {V} (k : string) (v : V) (d : odict V) : odict V :=
  match od_get k d with Some _ => d | None => od_set k v d end.

Definition index_item (ix : SourceIndexes) (item : list (string * json)) : SourceIndexes :=
  let poi_id := normalized_text (text_of (get_or "poi_id" "id" item)) in
  let name := normalized_text (text_of (obj_get "name" item)) in
  mkIndexes
    (if String.eqb poi_id "" then by_id ix else setdefault poi_id item (by_id ix))
    (if String.eqb name "" then by_name ix else setdefault name item (by_name ix))
    (match get_or "city_code" "citycode" item with
     | Some (JStr c) =>
         if negb (String.eqb (py_strip c) "") && String.eqb (city_code ix) "" then py_strip c
         else city_code ix
     | _ => city_code ix
     end).

Definition source_indexes (payload : option json) : SourceIndexes :=
  foldl index_item (mkIndexes [] [] "") (source_candidates payload).

(** [_route_point] of a place with a location; [place_poi_id] is [""] for a hotel. *)
Definition route_point (ix : SourceIndexes) (fallback_city : string)
    (name place_poi_id : string) (loc : Location) : RoutePoint :=
  let by_poi := if String.eqb place_poi_id "" then None
                else od_get (normalized_text place_poi_id) (by_id ix) in
  let source := default [] (match by_poi with
                            | Some item => Some item
                            | None => od_get (normalized_text name) (by_name ix)
                            end) in
  mkRoutePoint name loc
    (if String.eqb place_poi_id "" then text_of (get_or "poi_id" "id" source) else place_poi_id)
    (py_strip (match get_or "city_code" "citycode" source with
               | None => fallback_city
               | v => text_of v
               end)).

Section Legs.
Context (req : TripRequest) (aix hix : SourceIndexes) (fallback : string).

Definition attraction_point (a : Attraction) : RoutePoint :=
  route_point aix fallback (at_name a) (default "" (at_poi_id a)) (at_location a).

(** A hotel without a location is refused. *)
Definition hotel_point (h : Hotel) : result exn RoutePoint :=
  match hotel_location h with
  | None => Err (ValueError ("Route endpoint '" ++ hotel_name h ++ "' has no location"))
  | Some loc => Ok (route_point hix fallback (hotel_name h) "" loc)
  end.

(** [RouteLegRequest(...)] *)
Definition leg_request (day_index leg_index : Z) (ty : RouteLegType) (date : string)
    (origin destination : RoutePoint) (mode : RouteMode) : result exn RouteLegRequest :=
  let l := mkLegRequest day_index leg_index ty date origin destination mode in
  if leg_request_ok l then Ok l else Err ValidationError.

Fixpoint between_legs (day_index leg_index : Z) (date : string) (mode : RouteMode)
    (l : list Attraction) : result exn (list RouteLegRequest) :=
  match l with
  | a :: (b :: _) as rest =>
      leg ← leg_request day_index leg_index between_attractions date
              (attraction_point a) (attraction_point b) mode;
      legs ← between_legs day_index (leg_index + 1) date mode rest;
      mret (leg :: legs)
  | _ => mret []
  end.

Definition day_legs (days : list DayPlan) (position : nat) (d : DayPlan)
    : result exn (list RouteLegRequest) :=
  let mode := day_mode req d in
  let day_index := effective_day_index position d in
  let '(start_hotel, return_hotel) := resolve_day_hotels days position in
  departure ← match day_attractions d, start_hotel with
              | a :: _, Some h =>
                  origin ← hotel_point h;
                  leg ← leg_request day_index 0 hotel_departure (day_date d) origin
                          (attraction_point a) mode;
                  mret [leg]
              | _, _ => mret []
              end;
  between ← between_legs day_index 0 (day_date d) mode (day_attractions d);
  back ← match last (day_attractions d), return_hotel with
         | Some a, Some h =>
             destination ← hotel_point h;
             leg ← leg_request day_index 0 hotel_return (day_date d) (attraction_point a)
                     destination mode;
             mret [leg]
         | _, _ => mret []
         end;
  mret (departure ++ between ++ back)%list.

Fixpoint all_day_legs (days : list DayPlan) (position : nat) (l : list DayPlan)
    : result exn (list RouteLegRequest) :=
  match l with
  | [] => mret []
  | d :: l =>
      legs ← day_legs days position d;
      rest ← all_day_legs days (position + 1)%nat l;
      mret (legs ++ rest)%list
  end.
End Legs.

Definition build_route_legs (req : TripRequest) (p : TripPlan) (attractions hotels : option json)
    : result exn (list RouteLegRequest) :=
  let aix := source_indexes attractions in
  let hix := source_indexes hotels in
  all_day_legs req aix hix (str_or (city_code aix) (city_code hix)) (plan_days p) 0 (plan_days p).

(** ** What the legs promise *)

Open Scope list_scope.

Definition leg_key (l : RouteLegRequest) : RouteLegKey :=
  (lr_day_index l, lr_leg_type l, lr_leg_index l).

Definition leg_ends (l : RouteLegRequest) : RoutePoint * RoutePoint :=
  (lr_origin l, lr_destination l).

(** The stops of a day in travel order. *)
Definition hotel_stop (hix : SourceIndexes) (fallback : string) (h : option Hotel)
    : list RoutePoint :=
  match h with
  | Some h => match hotel_point hix fallback h with Ok p => [p] | Err _ => [] end
  | None => []
  end.

Definition day_stops (aix hix : SourceIndexes) (fallback : string) (days : list DayPlan)
    (position : nat) (d : DayPlan) : list RoutePoint :=
  let '(start_hotel, return_hotel) := resolve_day_hotels days position in
  match day_attractions d with
  | [] => []
  | _ => hotel_stop hix fallback start_hotel
         ++ map (attraction_point aix fallback) (day_attractions d)
         ++ hotel_stop hix fallback return_hotel
  end.

(** Consecutive pairs. *)
Fixpoint hops {A} (l : list A) : list (A * A) :=
  match l with
  | x :: (y :: _) as rest => (x, y) :: hops rest
  | _ => []
  end.

Lemma hops_app_last {A} (l : list A) (x y : A) : hops ((l ++ [x]) ++ [y]) = hops (l ++ [x]) ++ [(x, y)].
Proof.
  induction l as [|a l IH]; [done|]. destruct l as [|b l]; [done|].
  cbn [app] in *. change (hops (a :: b :: ((l ++ [x]) ++ [y])))
    with ((a, b) :: hops (b :: ((l ++ [x]) ++ [y]))). rewrite IH. done.
Qed.

Lemma leg_request_Ok di li ty date o d m l :
  leg_request di li ty date o d m = Ok l → l = mkLegRequest di li ty date o d m.
Proof. unfold leg_request. destruct (leg_request_ok _); [|done]. by intros [= <-]. Qed.

Lemma between_legs_cons aix fallback di li date mode a b l :
  between_legs aix fallback di li date mode (a :: b :: l)
  = (leg ← leg_request di li between_attractions date (attraction_point aix fallback a)
             (attraction_point aix fallback b) mode;
     legs ← between_legs aix fallback di (li + 1) date mode (b :: l);
     mret (leg :: legs)).
Proof. done. Qed.

Lemma between_legs_spec aix fallback di date mode l li legs :
  between_legs aix fallback di li date mode l = Ok legs →
  map leg_key legs = map (fun i => (di, between_attractions, li + Z.of_nat i)) (seq 0 (length l - 1))
  ∧ map leg_ends legs = hops (map (attraction_point aix fallback) l).
Proof.
  revert li legs. induction l as [|a l IH]; intros li legs; [by intros [= <-]|].
  destruct l as [|b l]; [by intros [= <-]|]. rewrite between_legs_cons.
  destruct (leg_request _ _ _ _ _ _ _) as [leg|] eqn:El; cbn [mbind result_bind]; [|done].
  destruct (between_legs aix fallback di (li + 1) date mode (b :: l)) as [rest|] eqn:Er; [|done].
  intros [= <-]. apply leg_request_Ok in El as ->. destruct (IH _ _ Er) as [Hk He].
  split; [|cbn [map hops]; rewrite He; done].
  replace (length (a :: b :: l) - 1)%nat with (Datatypes.S (length (b :: l) - 1)) by (simpl; lia).
  cbn [seq map]. rewrite Hk. unfold leg_key at 1. cbn [lr_day_index lr_leg_type lr_leg_index].
  f_equal; [f_equal; lia|]. rewrite <- seq_shift, map_map. apply map_ext. intros i. f_equal. lia.
Qed.

Lemma located_point hix fallback h h' :
  located h = Some h' → ∃ p, hotel_point hix fallback h' = Ok p.
Proof.
  unfold located, hotel_point. destruct h as [h0|]; [|done].
  destruct (hotel_location h0) eqn:E; [|done]. intros [= <-]. rewrite E. eauto.
Qed.

Lemma first_some_Some {A B} (f : A → option B) l y : first_some f l = Some y → ∃ x, x ∈ l ∧ f x = Some y.
Proof.
  induction l as [|x l IH]; simpl; [done|]. destruct (f x) eqn:E.
  - intros [= <-]. exists x. split; [left|done].
  - intros H. destruct (IH H) as (z & ? & ?). exists z. split; [by right|done].
Qed.

(** The hotels of a day have a location, so their points never fail. *)
Lemma resolve_located days i start back :
  resolve_day_hotels days i = (start, back) →
  (∀ h, start = Some h → ∃ h0, located h0 = Some h) ∧ (∀ h, back = Some h → ∃ h0, located h0 = Some h).
Proof.
  unfold resolve_day_hotels. intros [= Hs Hb].
  assert (Hback : ∀ h, back = Some h → ∃ h0, located h0 = Some h).
  { intros h Hh. subst. destruct (days !! i); [eauto|done]. }
  split; [|done]. intros h Hh. rewrite Hb in Hs. destruct back as [h1|]; [naive_solver|].
  rewrite Hh in Hs. apply first_some_Some in Hs as (d & _ & Hd). eauto.
Qed.

Lemma day_legs_spec req aix hix fallback days i d legs :
  day_legs req aix hix fallback days i d = Ok legs →
  map leg_key legs = day_leg_keys days i d
  ∧ map leg_ends legs = hops (day_stops aix hix fallback days i d).
Proof.
  unfold day_legs, day_leg_keys, day_stops.
  destruct (resolve_day_hotels days i) as [start back] eqn:Er.
  apply resolve_located in Er as [Hstart Hback].
  destruct (day_attractions d) as [|a l] eqn:Ea.
  { cbn [mbind result_bind mret result_ret between_legs last]. intros [= <-]. done. }
  rewrite bool_decide_false by done. cbn [negb andb].
  set (dep := match start with Some h => _ | None => mret [] end).
  destruct dep as [departure|] eqn:Ed; [|done]. cbn [mbind result_bind].
  destruct (between_legs _ _ _ _ _ _ (a :: l)) as [between|] eqn:Eb; [|done]. cbn [mbind result_bind].
  apply between_legs_spec in Eb as [Hbk Hbe].
  destruct (exists_last (l := a :: l)) as (l0 & z & Hz); [done|].
  assert (Hlast : last (a :: l) = Some z) by (rewrite Hz; apply last_snoc). rewrite Hlast.
  set (bk := match back with Some h => _ | None => mret [] end).
  destruct bk as [ret|] eqn:Ebk; [|done]. cbn [mbind result_bind]. intros [= <-].
  assert (Hdep : map leg_key departure = (if is_some start then [(effective_day_index i d, hotel_departure, 0)] else [])
    ∧ map leg_ends departure = match hotel_stop hix fallback start with
                               | p :: _ => [(p, attraction_point aix fallback a)] | [] => [] end).
  { unfold dep in Ed. destruct start as [h|]; [|by injection Ed as <-].
    destruct (Hstart h eq_refl) as (h0 & Hh0). destruct (located_point hix fallback h0 h Hh0) as [p Hp].
    unfold hotel_stop. rewrite Hp in *. cbn [mbind result_bind] in Ed.
    destruct (leg_request _ _ _ _ _ _ _) eqn:El; [|done]. injection Ed as <-.
    by apply leg_request_Ok in El as ->. }
  assert (Hret : map leg_key ret = (if is_some back then [(effective_day_index i d, hotel_return, 0)] else [])
    ∧ map leg_ends ret = match hotel_stop hix fallback back with
                         | p :: _ => [(attraction_point aix fallback z, p)] | [] => [] end).
  { unfold bk in Ebk. destruct back as [h|]; [|by injection Ebk as <-].
    destruct (Hback h eq_refl) as (h0 & Hh0). destruct (located_point hix fallback h0 h Hh0) as [p Hp].
    unfold hotel_stop. rewrite Hp in *. cbn [mbind result_bind] in Ebk.
    destruct (leg_request _ _ _ _ _ _ _) eqn:El; [|done]. injection Ebk as <-.
    by apply leg_request_Ok in El as ->. }
  destruct Hdep as [Hdk Hde], Hret as [Hrk Hre]. rewrite !map_app. split.
  - rewrite Hdk, Hbk, Hrk. done.
  - rewrite Hde, Hbe, Hre.
    assert (Htail : hops (map (attraction_point aix fallback) (a :: l) ++ hotel_stop hix fallback back)
      = hops (map (attraction_point aix fallback) (a :: l))
        ++ match hotel_stop hix fallback back with
           | p :: _ => [(attraction_point aix fallback z, p)] | [] => [] end).
    { unfold hotel_stop. destruct back as [h|]; [|by rewrite !app_nil_r].
      destruct (hotel_point hix fallback h); [|by rewrite !app_nil_r].
      rewrite Hz, map_app. cbn [map]. apply hops_app_last. }
    rewrite <- Htail. unfold hotel_stop at 1 3. destruct start as [h|]; [|done].
    destruct (hotel_point hix fallback h); done.
Qed.

Lemma all_day_legs_spec req aix hix fallback days l i legs :
  all_day_legs req aix hix fallback days i l = Ok legs →
  map leg_key legs = concat (imap (fun j d => day_leg_keys days (i + j) d) l)
  ∧ map leg_ends legs
    = concat (imap (fun j d => hops (day_stops aix hix fallback days (i + j) d)) l).
Proof.
  revert i legs. induction l as [|d l IH]; intros i legs; [by intros [= <-]|].
  cbn [all_day_legs mbind result_bind].
  destruct (day_legs req aix hix fallback days i d) as [dl|] eqn:Ed; [|done]. cbn [mbind result_bind].
  destruct (all_day_legs req aix hix fallback days (i + 1) l) as [rest|] eqn:Er; [|done].
  intros [= <-]. apply day_legs_spec in Ed as [Hk He]. apply IH in Er as [Hk' He'].
  rewrite !map_app, Hk, He, Hk', He'. cbn [imap concat].
  rewrite Nat.add_0_r. split; f_equal; f_equal; apply imap_ext; intros j x _; simpl;
    by replace (i + 1 + j)%nat with (i + Datatypes.S j)%nat by lia.
Qed.

(** A place a leg may start from or end at. *)
Definition place_ok (name : string) (loc : Location) : bool := negb (String.eqb name "") && geo_ok loc.

Definition hotel_ok (h : option Hotel) : bool :=
  match h with
  | Some h => match hotel_location h with Some loc => place_ok (hotel_name h) loc | None => true end
  | None => true
  end.

Definition plan_places_ok (p : TripPlan) : bool :=
  forallb (fun d => hotel_ok (day_hotel d)
                    && forallb (fun a => place_ok (at_name a) (at_location a)) (day_attractions d))
    (plan_days p).

Lemma leg_request_total di li ty date o d m :
  0 <= di → 0 <= li → route_point_ok o = true → route_point_ok d = true →
  ∃ l, leg_request di li ty date o d m = Ok l.
Proof.
  intros ? ? Ho Hd. unfold leg_request, leg_request_ok. simpl. rewrite Ho, Hd.
  rewrite (proj2 (Z.leb_le 0 di)), (proj2 (Z.leb_le 0 li)) by done. eauto.
Qed.

Lemma effective_day_index_nonneg i d : 0 <= effective_day_index i d.
Proof. unfold effective_day_index. destruct (Z.leb_spec 0 (day_index d)); lia. Qed.

Lemma between_legs_total aix fallback di date mode l li :
  0 <= di → 0 <= li → forallb (fun a => place_ok (at_name a) (at_location a)) l = true →
  ∃ legs, between_legs aix fallback di li date mode l = Ok legs.
Proof.
  intros Hdi. revert li. induction l as [|a l IH]; intros li Hli Hl; [eexists; done|].
  destruct l as [|b l]; [eexists; done|]. rewrite between_legs_cons.
  cbn [forallb] in Hl. apply andb_true_iff in Hl as [Ha Hl].
  assert (Hb := Hl). cbn [forallb] in Hb. apply andb_true_iff in Hb as [Hb _].
  destruct (leg_request_total di li between_attractions date (attraction_point aix fallback a)
              (attraction_point aix fallback b) mode Hdi Hli Ha Hb) as [leg ->].
  destruct (IH (li + 1) ltac:(lia) Hl) as [rest Hrest].
  cbn [mbind result_bind]. rewrite Hrest. eexists; done.
Qed.

Lemma located_ok h h' hix fallback :
  located h = Some h' → hotel_ok h = true →
  ∃ p, hotel_point hix fallback h' = Ok p ∧ route_point_ok p = true.
Proof.
  unfold located, hotel_ok, hotel_point. destruct h as [h0|]; [|done].
  destruct (hotel_location h0) eqn:E; [|done]. intros [= <-] Hok. rewrite E. eauto.
Qed.

Lemma resolve_ok p i start back :
  plan_places_ok p = true → resolve_day_hotels (plan_days p) i = (start, back) →
  (∀ h, start = Some h → ∃ h0, located h0 = Some h ∧ hotel_ok h0 = true)
  ∧ (∀ h, back = Some h → ∃ h0, located h0 = Some h ∧ hotel_ok h0 = true).
Proof.
  unfold plan_places_ok. intros Hp. rewrite forallb_forall in Hp.
  assert (Hd : ∀ d, d ∈ plan_days p → hotel_ok (day_hotel d) = true).
  { intros d Hd%list_elem_of_In. by apply Hp, andb_true_iff in Hd as [? _]. }
  unfold resolve_day_hotels. intros [= Hs Hb].
  assert (Hback : ∀ h, back = Some h → ∃ h0, located h0 = Some h ∧ hotel_ok h0 = true).
  { intros h Hh. subst. destruct (plan_days p !! i) as [d|] eqn:E; [|done].
    exists (day_hotel d). split; [done|]. by eapply Hd, list_elem_of_lookup_2. }
  split; [|done]. intros h Hh. rewrite Hb in Hs. destruct back as [h1|]; [naive_solver|].
  rewrite Hh in Hs. apply first_some_Some in Hs as (d & Hin & Hl).
  exists (day_hotel d). split; [done|]. apply Hd. rewrite elem_of_reverse in Hin.
  by apply (subseteq_take i) in Hin.
Qed.

Lemma day_legs_total req aix hix fallback p i d :
  plan_places_ok p = true → d ∈ plan_days p →
  ∃ legs, day_legs req aix hix fallback (plan_days p) i d = Ok legs.
Proof.
  intros Hp Hin. unfold day_legs.
  destruct (resolve_day_hotels (plan_days p) i) as [start back] eqn:Er.
  destruct (resolve_ok p i start back Hp Er) as [Hstart Hback].
  assert (Hd : forallb (fun a => place_ok (at_name a) (at_location a)) (day_attractions d) = true).
  { unfold plan_places_ok in Hp. rewrite forallb_forall in Hp.
    apply list_elem_of_In in Hin. by apply Hp, andb_true_iff in Hin as [_ ?]. }
  pose proof (effective_day_index_nonneg i d) as Hdi.
  set (dep := match day_attractions d with [] => _ | _ => _ end).
  assert (Hdep : ∃ x, dep = Ok x).
  { unfold dep. destruct (day_attractions d) as [|a l]; [by eexists|].
    destruct start as [h|]; [|by eexists]. destruct (Hstart h eq_refl) as (h0 & Hl0 & Hok0).
    destruct (located_ok h0 h hix fallback Hl0 Hok0) as (pt & -> & Hpt). cbn [mbind result_bind].
    cbn [forallb] in Hd. apply andb_true_iff in Hd as [Ha _].
    destruct (leg_request_total (effective_day_index i d) 0 hotel_departure (day_date d) pt
      (attraction_point aix fallback a) (day_mode req d) Hdi ltac:(lia) Hpt Ha) as [leg ->]. by eexists. }
  destruct Hdep as [x ->]. cbn [mbind result_bind].
  destruct (between_legs_total aix fallback (effective_day_index i d) (day_date d) (day_mode req d)
    (day_attractions d) 0 Hdi ltac:(lia) Hd) as [bl ->]. cbn [mbind result_bind].
  set (bk := match last (day_attractions d) with Some a => _ | None => _ end).
  assert (Hbk : ∃ x, bk = Ok x).
  { unfold bk. destruct (last (day_attractions d)) as [z|] eqn:Ez; [|by eexists].
    destruct back as [h|]; [|by eexists]. destruct (Hback h eq_refl) as (h0 & Hl0 & Hok0).
    destruct (located_ok h0 h hix fallback Hl0 Hok0) as (pt & -> & Hpt). cbn [mbind result_bind].
    assert (Ha : place_ok (at_name z) (at_location z) = true).
    { rewrite forallb_forall in Hd. apply Hd, list_elem_of_In.
      apply last_Some in Ez as [l' ->]. apply elem_of_app. right. left. }
    destruct (leg_request_total (effective_day_index i d) 0 hotel_return (day_date d)
      (attraction_point aix fallback z) pt (day_mode req d) Hdi ltac:(lia) Ha Hpt) as [leg ->]. by eexists. }
  destruct Hbk as [y ->]. by eexists.
Qed.

Lemma all_day_legs_total req aix hix fallback p l i :
  plan_places_ok p = true → (∀ d, d ∈ l → d ∈ plan_days p) →
  ∃ legs, all_day_legs req aix hix fallback (plan_days p) i l = Ok legs.
Proof.
  intros Hp. revert i. induction l as [|d l IH]; intros i Hl; [by eexists|].
  cbn [all_day_legs].
  destruct (day_legs_total req aix hix fallback p i d Hp) as [x ->]; [apply Hl; left|].
  cbn [mbind result_bind].
  destruct (IH (i + 1)%nat) as [y Hy]; [intros z Hz; apply Hl; by right|].
  rewrite Hy. by eexists.
Qed.

(** C38: the legs asked for are the legs expected: for a plan whose places have
    names and valid coordinates, [build_route_legs] succeeds, its legs carry
    exactly the keys of [expected_route_leg_keys] in order, and on each day they
    lead from stop to stop - the hotel the day starts from, the attractions in
    order, the hotel it returns to - with no gap. *)
Theorem route_legs_cover_the_plan req p attractions hotels :
  plan_places_ok p = true →
  let aix := source_indexes attractions in
  let hix := source_indexes hotels in
  ∃ legs,
    build_route_legs req p attractions hotels = Ok legs
    ∧ map leg_key legs = expected_route_leg_keys p
    ∧ map leg_ends legs
      = concat (imap (fun i d => hops (day_stops aix hix (str_or (city_code aix) (city_code hix))
                                         (plan_days p) i d)) (plan_days p)).
Proof.
  intros Hp aix hix.
  destruct (all_day_legs_total req aix hix (str_or (city_code aix) (city_code hix)) p (plan_days p) 0
              Hp ltac:(done)) as [legs Hlegs].
  exists legs. split; [exact Hlegs|]. exact (all_day_legs_spec _ _ _ _ _ _ _ _ Hlegs).
Qed.

(** A day trip from the hotel to two sights and back: three legs. *)
Definition sample_trip : TripPlan :=
  let sight (n id : string) := mkAttraction n "a" (mkLocation 116 39) 60 "d" None None None (Some id) None 0 in
  mkTripPlan "北京" "2025-06-01" "2025-06-01"
    [mkDayPlan "2025-06-01" 0 "" "地铁" "" (Some (mkHotel "如家" "" (Some (mkLocation 116 40)) "" "" "" "" 300))
       [sight "故宫" "B1"; sight "天坛" "B2"] []] [] "" None.

Lemma route_legs_cover_the_plan_witness :
  ∃ legs,
    build_route_legs (mkTripRequest "北京" "2025-06-01" "2025-06-01" 1 "自驾" "" [] None) sample_trip
      None None = Ok legs
    ∧ map leg_key legs = [(0, hotel_departure, 0); (0, between_attractions, 0); (0, hotel_return, 0)]
    ∧ map (fun e => (rp_name e.1, rp_name e.2)) (map leg_ends legs)
      = [("如家", "故宫"); ("故宫", "天坛"); ("天坛", "如家")].
Proof.
  destruct (route_legs_cover_the_plan (mkTripRequest "北京" "2025-06-01" "2025-06-01" 1 "自驾" "" [] None)
              sample_trip None None eq_refl) as (legs & Hok & Hk & He).
  exists legs. split; [exact Hok|]. split; [rewrite Hk; vm_compute; reflexivity|].
  rewrite He. vm_compute. reflexivity.
Defined.

(** The declared main mode wins over the legs mentioned after it. *)
Example declared_mode_wins :
  normalize_transportation_mode "出行方式：驾车；故宫至天坛乘地铁" = driving
  ∧ normalize_transportation_mode "步行 + 地铁" = transit
  ∧ normalize_transportation_mode "" = transit.
Proof. vm_compute. auto. Qed.
