(* ===== verification/PlanContent.v ===== *)
(** Content of a plan: the deterministic clean-up of a generated plan
    (src/app/validation/plan_normalizer.py), the identities of attractions
    (src/app/plan_content/optimizer.py), the restaurant anchors
    (src/app/plan_content/dining.py) and the fingerprint of everything the
    descriptions and the budget are rebuilt from
    (src/app/plan_content/rebuilder.py). *)

From S2P Require Import Prelude PyData TripSchema AmapModels PlanReports PlanRoutes.
From Stdlib Require Import ZArith QArith Lia String.
From stdpp Require Import base tactics option list strings gmap.

Open Scope string_scope.
Open Scope Z_scope.

(** ** Identities and duplicates *)

(** [attraction_identity] of the normalizer. *)
Definition normalizer_identity (a : Attraction) : string :=
  let poi_id := ascii_lower (py_strip (default "" (at_poi_id a))) in
  if String.eqb poi_id "" then "name:" ++ squash (ascii_lower (at_name a)) else "poi:" ++ poi_id.

(** [attraction_identity] of the refill optimiser. *)
Definition content_identity (poi_id : option string) (name : string) : string :=
  let normalized_id := squash (ascii_lower (py_strip (default "" poi_id))) in
  if String.eqb normalized_id "" then "name:" ++ squash (ascii_lower (py_strip name))
  else "id:" ++ normalized_id.

Definition count_attractions (p : TripPlan) : Z :=
  foldr (fun d n => Z.of_nat (length (day_attractions d)) + n) 0 (plan_days p).

(** The attractions of one day whose identity was not seen before, with the
    names and positions of the others. *)
Fixpoint dedup_day (day_position position : nat) (seen : list string) (l : list Attraction)
    : list Attraction * list (string * string) * list string :=
  match l with
  | [] => ([], [], seen)
  | a :: l =>
      let identity := normalizer_identity a in
      if existsb (String.eqb identity) seen then
        let '(unique, removed, seen) := dedup_day day_position (position + 1) seen l in
        (unique, (at_name a, "days[" ++ str_of_Z (Z.of_nat day_position) ++ "].attractions["
                               ++ str_of_Z (Z.of_nat position) ++ "]") :: removed, seen)
      else
        let '(unique, removed, seen) := dedup_day day_position (position + 1) (identity :: seen) l in
        (a :: unique, removed, seen)
  end.

Definition with_attractions (d : DayPlan) (l : list Attraction) : DayPlan :=
  mkDayPlan (day_date d) (day_index d) (day_description d) (day_transportation d)
    (day_accommodation d) (day_hotel d) l (day_meals d).

Definition with_days (p : TripPlan) (days : list DayPlan) : TripPlan :=
  mkTripPlan (plan_city p) (plan_start_date p) (plan_end_date p) days (plan_weather_info p)
    (plan_overall_suggestions p) (plan_budget p).

Fixpoint dedup_days (day_position : nat) (seen : list string) (days : list DayPlan)
    : list DayPlan * list (string * string) :=
  match days with
  | [] => ([], [])
  | d :: days =>
      let '(unique, removed, seen) := dedup_day day_position 0 seen (day_attractions d) in
      let '(days', removed') := dedup_days (day_position + 1) seen days in
      (with_attractions d unique :: days', (removed ++ removed')%list)
  end.

Definition remove_duplicate_attractions (p : TripPlan) : TripPlan * list (string * string) :=
  let '(days, removed) := dedup_days 0 [] (plan_days p) in (with_days p days, removed).

(** ** Restaurant anchors *)

(** A hotel or an attraction, as far as an anchor looks at it. *)
Definition place : Type := string * option Location.
Definition hotel_place (h : Hotel) : place := (hotel_name h, hotel_location h).
Definition attraction_place (a : Attraction) : place := (at_name a, Some (at_location a)).

Fixpoint first_place (l : list (option place)) : option place :=
  match l with
  | [] => None
  | Some p :: _ => Some p
  | None :: l => first_place l
  end.

(** [RestaurantSearchAnchor(...)] of a place, none when it has no location or name. *)
Definition anchor_at (d : DayPlan) (meal : string) (p : option place)
    : result exn (list RestaurantSearchAnchor) :=
  match p with
  | Some (name, Some loc) =>
      if String.eqb (py_strip name) "" then Ok []
      else if negb (0 <=? day_index d) || negb (geo_ok loc) then Err ValidationError
      else Ok [mkAnchor ("day-" ++ str_of_Z (day_index d) ++ "-" ++ meal) (day_index d) meal
                 (py_strip name) loc]
  | _ => Ok []
  end.

Record DayAnchors := mkDayAnchors {
  da_breakfast : list RestaurantSearchAnchor;
  da_lunch : list RestaurantSearchAnchor;
  da_dinner : list RestaurantSearchAnchor
}.

Definition day_anchors (days : list DayPlan) (position : nat) (d : DayPlan) : result exn DayAnchors :=
  let '(start_hotel, return_hotel) := resolve_day_hotels days position in
  let start := hotel_place <$> start_hotel in
  let back := hotel_place <$> return_hotel in
  let l := day_attractions d in
  let first := attraction_place <$> head l in
  let middle := attraction_place <$> l !! (length l / 2)%nat in
  let last := attraction_place <$> last l in
  breakfast ← anchor_at d "breakfast" (first_place [start; first; middle]);
  lunch ← anchor_at d "lunch" (first_place [middle; start; back]);
  dinner ← anchor_at d "dinner" (first_place [back; last; start]);
  mret (mkDayAnchors breakfast lunch dinner).

Fixpoint all_anchors (days : list DayPlan) (position : nat) (l : list DayPlan)
    : result exn DayAnchors :=
  match l with
  | [] => mret (mkDayAnchors [] [] [])
  | d :: l =>
      a ← day_anchors days position d;
      rest ← all_anchors days (position + 1)%nat l;
      mret (mkDayAnchors (da_breakfast a ++ da_breakfast rest)%list
              (da_lunch a ++ da_lunch rest)%list (da_dinner a ++ da_dinner rest)%list)
  end.

Definition build_restaurant_search_anchors (max_anchors : Z) (p : TripPlan)
    : result exn (list RestaurantSearchAnchor) :=
  if max_anchors <=? 0 then Ok []
  else
    by_type ← all_anchors (plan_days p) 0 (plan_days p);
    mret (take (Z.to_nat max_anchors)
            (da_lunch by_type ++ take 1 (da_breakfast by_type) ++ da_dinner by_type
             ++ drop 1 (da_breakfast by_type))%list).

(** ** Fingerprints *)

Definition hotel_source (h : option Hotel) : json :=
  match h with
  | None => JNull
  | Some h =>
      JObj [("name", JStr (hotel_name h)); ("address", JStr (hotel_address h));
            ("estimated_cost", JInt (hotel_estimated_cost h));
            ("longitude", json_opt (fun l => JFloat (round6 (longitude l))) (hotel_location h));
            ("latitude", json_opt (fun l => JFloat (round6 (latitude l))) (hotel_location h))]
  end.

Definition attraction_source (a : Attraction) : json :=
  JObj [("name", JStr (at_name a)); ("address", JStr (at_address a));
        ("poi_id", JStr (default "" (at_poi_id a))); ("visit_duration", JInt (at_visit_duration a));
        ("ticket_price", JInt (at_ticket_price a));
        ("longitude", JFloat (round6 (longitude (at_location a))));
        ("latitude", JFloat (round6 (latitude (at_location a))))].

Definition route_source (r : RouteEstimate) : json :=
  JObj [("day_index", JInt (re_day_index r)); ("leg_index", JInt (re_leg_index r));
        ("leg_type", JStr (leg_type_value (re_leg_type r)));
        ("origin_name", JStr (re_origin_name r));
        ("destination_name", JStr (re_destination_name r)); ("mode", JStr (mode_value (re_mode r)));
        ("available", JBool (re_available r));
        ("distance_meters", json_opt JInt (re_distance_meters r));
        ("duration_seconds", json_opt JInt (re_duration_seconds r))].

Definition schedule_source (s : ScheduleQualityReport) : json :=
  JObj [("infeasible_days", JInt (sq_infeasible_days s));
        ("total_overtime_minutes", JInt (sq_total_overtime_minutes s));
        ("total_transportation_minutes", JInt (sq_total_transportation_minutes s));
        ("days", JArr (map (fun d =>
           JObj [("day_index", JInt (ds_day_index d));
                 ("timeline", JArr (map (fun i =>
                    JObj [("item_type", JStr (ti_item_type i)); ("start_time", JStr (ti_start_time i));
                          ("end_time", JStr (ti_end_time i))]) (ds_timeline d)))]) (sq_days s)))].

Definition plan_content_payload (req : TripRequest) (p : TripPlan)
    (routes : option RouteEstimateResult) (schedule : option ScheduleQualityReport)
    (restaurants : option json) : json :=
  JObj [("request",
         JObj [("city", JStr (req_city req));
               ("transportation_mode",
                JStr (mode_value (normalize_transportation_mode (req_transportation req))));
               ("accommodation", JStr (req_accommodation req));
               ("preferences", JArr (map JStr (req_preferences req)))]);
        ("days", JArr (map (fun d =>
           JObj [("date", JStr (day_date d)); ("day_index", JInt (day_index d));
                 ("hotel", hotel_source (day_hotel d));
                 ("attractions", JArr (map attraction_source (day_attractions d)))]) (plan_days p)));
        ("routes", JArr (map route_source (match routes with Some r => rr_routes r | None => [] end)));
        ("restaurants", default JNull restaurants);
        ("schedule", match schedule with Some s => schedule_source s | None => JNull end)].

Definition constraint_plan_payload (req : TripRequest) (p : TripPlan) : json :=
  JObj [("request",
         JObj [("transportation", JStr (req_transportation req));
               ("preferences", JArr (map JStr (req_preferences req)));
               ("free_text_input", JStr (default "" (req_free_text_input req)))]);
        ("plan", dump_plan p)].

Section Fingerprints.
Context (sha256_hex : string → string) (float_repr : Q → string).

Definition hash_json (v : json) : string := sha256_hex (json_dumps_canonical float_repr v).

Definition constraint_plan_fingerprint (req : TripRequest) (p : TripPlan) : string :=
  hash_json (constraint_plan_payload req p).

Definition restaurant_search_source_fingerprint (max_anchors : Z) (p : TripPlan)
    : result exn string :=
  anchors ← build_restaurant_search_anchors max_anchors p;
  mret (hash_json (JArr (map dump_anchor anchors))).

Definition plan_content_source_fingerprint (req : TripRequest) (p : TripPlan)
    (routes : option RouteEstimateResult) (schedule : option ScheduleQualityReport)
    (restaurants : option json) : string :=
  hash_json (plan_content_payload req p routes schedule restaurants).
End Fingerprints.

Open Scope list_scope.

(** ** What the clean-up promises *)

Definition identities (l : list Attraction) : list string := map normalizer_identity l.
Definition plan_identities (days : list DayPlan) : list string :=
  concat (map (fun d => identities (day_attractions d)) days).

Lemma seen_false x seen : existsb (String.eqb x) seen = false ↔ x ∉ seen.
Proof.
  rewrite <- not_true_iff_false, existsb_exists. split.
  - intros H Hin. apply H. exists x. split; [by apply list_elem_of_In|apply String.eqb_refl].
  - intros H (y & Hin & ->%String.eqb_eq). by apply H, list_elem_of_In.
Qed.

Lemma dedup_day_spec dp pos seen l u r s :
  dedup_day dp pos seen l = (u, r, s) →
  (∀ x, x ∈ s ↔ x ∈ seen ∨ x ∈ identities u)
  ∧ NoDup (identities u) ∧ (∀ x, x ∈ identities u → x ∉ seen)
  ∧ (∀ x, x ∈ identities l ↔ x ∈ identities u ∨ (x ∈ seen ∧ x ∈ identities l))
  ∧ u `sublist_of` l ∧ (length u + length r = length l)%nat.
Proof.
  revert pos seen u r s. induction l as [|a l IH]; intros pos seen u r s; cbn [dedup_day].
  - intros [= <- <- <-]. repeat split; try (by constructor); try set_solver.
  - destruct (existsb _ seen) eqn:E.
    + destruct (dedup_day dp (pos + 1) seen l) as [[u' r'] s'] eqn:Er. intros [= <- <- <-].
      destruct (IH _ _ _ _ _ Er) as (Hs & Hnd & Hdis & Hin & Hsub & Hlen).
      assert (Ha : normalizer_identity a ∈ seen).
      { apply existsb_exists in E as (y & Hy & ->%String.eqb_eq). by apply list_elem_of_In. }
      repeat split; auto; [apply Hs|apply Hs| | | |].
      * intros [->|Hx]%elem_of_cons; [right; split; [done|left]|].
        apply Hin in Hx as [?|[? ?]]; [by left|right; split; [done|by right]].
      * intros [Hx|[? ?]]; [right; apply Hin; by left|done].
      * by apply sublist_cons.
      * simpl. lia.
    + apply seen_false in E.
      destruct (dedup_day dp (pos + 1) (normalizer_identity a :: seen) l) as [[u' r'] s'] eqn:Er.
      intros [= <- <- <-]. destruct (IH _ _ _ _ _ Er) as (Hs & Hnd & Hdis & Hin & Hsub & Hlen).
      split; [intros x; rewrite Hs; unfold identities; simpl; set_solver|].
      split; [cbn; constructor; [intros Hx; apply (Hdis _ Hx); left|done]|].
      split; [intros x [->|Hx]%elem_of_cons; [done|]; specialize (Hdis _ Hx); set_solver|].
      split; [|split; [by apply sublist_skip|simpl; lia]].
      intros x. unfold identities in *. simpl. rewrite !elem_of_cons. specialize (Hin x). set_solver.
Qed.

Lemma dedup_days_spec dp seen days days' removed :
  dedup_days dp seen days = (days', removed) →
  NoDup (plan_identities days') ∧ (∀ x, x ∈ plan_identities days' → x ∉ seen)
  ∧ (∀ x, x ∈ plan_identities days → x ∈ plan_identities days' ∨ x ∈ seen)
  ∧ Forall2 (fun d d' => day_attractions d' `sublist_of` day_attractions d
                         ∧ d' = with_attractions d (day_attractions d')) days days'
  ∧ (length (plan_identities days') + length removed = length (plan_identities days))%nat.
Proof.
  revert dp seen days' removed.
  induction days as [|d days IH]; intros dp seen days' removed; cbn [dedup_days].
  - intros [= <- <-]. repeat split; try (by constructor); set_solver.
  - destruct (dedup_day dp 0 seen (day_attractions d)) as [[u r] s] eqn:Ed.
    destruct (dedup_days (dp + 1) s days) as [ds rs] eqn:Er. intros [= <- <-].
    destruct (dedup_day_spec _ _ _ _ _ _ _ Ed) as (Hs & Hnd & Hdis & Hin & Hsub & Hlen).
    destruct (IH _ _ _ _ Er) as (Hnd' & Hdis' & Hin' & Hall & Hlen').
    unfold plan_identities in *. cbn [map concat day_attractions with_attractions].
    split; [|split; [|split; [|split]]].
    + apply NoDup_app. split; [done|]. split; [|done].
      intros x Hx Hx'. apply (Hdis' _ Hx'), Hs. by right.
    + intros x [Hx|Hx]%elem_of_app; [by apply Hdis|]. intros Hseen. apply (Hdis' _ Hx), Hs. by left.
    + intros x [Hx|Hx]%elem_of_app.
      * apply Hin in Hx as [?|[? _]]; [left; apply elem_of_app; by left|by right].
      * apply Hin' in Hx as [?|[?|?]%Hs]; [left; apply elem_of_app; by right|by right|].
        left. apply elem_of_app. by left.
    + constructor; [|done]. by cbn.
    + unfold identities in *. rewrite !length_app, !length_map in *. lia.
Qed.

Lemma dedup_day_id dp pos seen l :
  NoDup (identities l) → (∀ x, x ∈ identities l → x ∉ seen) →
  ∃ s, dedup_day dp pos seen l = (l, [], s) ∧ ∀ x, x ∈ s ↔ x ∈ seen ∨ x ∈ identities l.
Proof.
  revert pos seen. induction l as [|a l IH]; intros pos seen Hnd Hdis; cbn [dedup_day].
  - exists seen. split; [done|]. set_solver.
  - apply NoDup_cons in Hnd as [Ha Hnd].
    rewrite (proj2 (seen_false _ _)) by (apply Hdis; left).
    destruct (IH (pos + 1)%nat (normalizer_identity a :: seen) Hnd) as (s & -> & Hs).
    { intros x Hx [->|Hx']%elem_of_cons; [done|]. apply (Hdis x); [by right|done]. }
    exists s. split; [done|]. intros x. rewrite Hs. unfold identities. simpl. set_solver.
Qed.

Lemma dedup_days_id dp seen days :
  NoDup (plan_identities days) → (∀ x, x ∈ plan_identities days → x ∉ seen) →
  dedup_days dp seen days = (days, []).
Proof.
  revert dp seen. induction days as [|d days IH]; intros dp seen Hnd Hdis; [done|].
  cbn [dedup_days]. unfold plan_identities in *. cbn [map concat] in *.
  apply NoDup_app in Hnd as (Hnd & Hcross & Hnd').
  destruct (dedup_day_id dp 0 seen (day_attractions d) Hnd) as (s & -> & Hs).
  { intros x Hx. apply Hdis, elem_of_app. by left. }
  rewrite IH; [by destruct d|done|].
  intros x Hx [?|Hx']%Hs; [|by apply (Hcross x Hx')]. apply (Hdis x); [|done].
  apply elem_of_app. by right.
Qed.

(** the clean-up of a generated plan keeps exactly one attraction of each
    identity: no identity occurs twice afterwards, none is lost, the order
    inside the days and every other field stay, each removal is reported once,
    and cleaning a clean plan changes nothing. *)
Theorem duplicates_removed p :
  let '(p', removed) := remove_duplicate_attractions p in
  NoDup (plan_identities (plan_days p'))
  ∧ (∀ x, x ∈ plan_identities (plan_days p) ↔ x ∈ plan_identities (plan_days p'))
  ∧ Forall2 (fun d d' => day_attractions d' `sublist_of` day_attractions d
                         ∧ d' = with_attractions d (day_attractions d')) (plan_days p) (plan_days p')
  ∧ p' = with_days p (plan_days p')
  ∧ (length (plan_identities (plan_days p')) + length removed
     = length (plan_identities (plan_days p)))%nat
  ∧ remove_duplicate_attractions p' = (p', []).
Proof.
  unfold remove_duplicate_attractions. destruct (dedup_days 0 [] (plan_days p)) as [days removed] eqn:E.
  destruct (dedup_days_spec _ _ _ _ _ E) as (Hnd & _ & Hin & Hall & Hlen).
  cbn [with_days plan_days].
  split; [done|]. split; [|split; [done|split; [done|split; [done|]]]].
  - intros x. split; [intros Hx; apply Hin in Hx; set_solver|].
    intros Hx. clear -Hall Hx. unfold plan_identities in *.
    induction Hall as [|d d' l l' [Hsub _] _ IH]; [done|]. cbn [map concat] in *.
    apply elem_of_app in Hx as [Hx|Hx]; apply elem_of_app; [left|by right; apply IH].
    apply list_elem_of_fmap in Hx as (a & -> & Ha). apply list_elem_of_fmap. exists a. split; [done|].
    apply sublist_submseteq in Hsub. by eapply elem_of_submseteq.
  - rewrite dedup_days_id; [done|done|set_solver].
Qed.
