(* ===== verification/AgentState.v ===== *)
(** The persistent state of a planning agent (src/app/agent_runtime/state.py).

    The fields of [AgentState] are grouped by what they are about; a group is a
    record and the state holds one of each.  Provider payloads are kept as the
    JSON they are.  The append-only histories of the optimisation phases, the
    retrieval context and the creation time, which no decision of the control
    loop reads, are left out. *)

From S2P Require Import Prelude PyData TripSchema AmapModels PlanReports OrderedDict ToolModels.
From Stdlib Require Import ZArith QArith Lia String.
From stdpp Require Import base tactics option list strings.

Open Scope string_scope.
Open Scope Z_scope.

Record ExecutionBudget := mkExecutionBudget {
  eb_max_steps : Z;
  eb_max_duration_seconds : Q;
  eb_max_tool_calls : Z;
  eb_max_llm_calls : Z;
  eb_max_repair_attempts : Z;
  eb_max_route_optimization_attempts : Z;
  eb_max_schedule_optimization_attempts : Z;
  eb_max_constraint_optimization_attempts : Z;
  eb_max_content_refill_attempts : Z;
  eb_max_commute_replacement_attempts : Z;
  eb_max_commute_supplement_searches : Z;
  eb_minimum_total_attractions : Z;
  eb_max_repeated_action_inputs : Z;
  eb_max_no_progress_steps : Z;
  eb_max_local_actions_per_step : Z;
  eb_partial_acceptance_enabled : bool;
  eb_partial_acceptance_min_score : Q;
  eb_partial_acceptance_max_validation_errors : Z;
  eb_partial_acceptance_max_schedule_overtime_minutes : Z;
  eb_partial_acceptance_max_unavailable_route_legs : Z;
  eb_partial_acceptance_max_excessive_commute_segments : Z;
  eb_partial_acceptance_max_constraint_errors : Z;
  eb_partial_acceptance_min_attractions_per_day : Z;
  eb_partial_acceptance_allowed_error_codes : list string
}.

Definition default_budget : ExecutionBudget :=
  mkExecutionBudget 24 600 30 6 2 1 1 1 2 2 2 0 1 3 8 true 70 2 60 0 0 0 0
    ["plan.empty_suggestions"; "schedule.daily_overtime"].

(** The [Field] constraints of [ExecutionBudget]. *)
Definition budget_fields_ok (b : ExecutionBudget) : bool :=
  (1 <=? eb_max_steps b) && Qlt_bool 0 (eb_max_duration_seconds b)
  && forallb (fun f => 0 <=? f b)
       [eb_max_tool_calls; eb_max_llm_calls; eb_max_repair_attempts;
        eb_max_route_optimization_attempts; eb_max_schedule_optimization_attempts;
        eb_max_constraint_optimization_attempts; eb_max_content_refill_attempts;
        eb_max_commute_replacement_attempts; eb_max_commute_supplement_searches;
        eb_minimum_total_attractions; eb_partial_acceptance_max_validation_errors;
        eb_partial_acceptance_max_schedule_overtime_minutes;
        eb_partial_acceptance_max_unavailable_route_legs;
        eb_partial_acceptance_max_excessive_commute_segments;
        eb_partial_acceptance_max_constraint_errors;
        eb_partial_acceptance_min_attractions_per_day]
  && forallb (fun f => 1 <=? f b)
       [eb_max_repeated_action_inputs; eb_max_no_progress_steps; eb_max_local_actions_per_step]
  && Qle_bool 0 (eb_partial_acceptance_min_score b)
  && Qle_bool (eb_partial_acceptance_min_score b) 100.

Inductive AgentAction :=
| SEARCH_ATTRACTIONS | GET_WEATHER | SEARCH_HOTELS | SEARCH_RESTAURANTS | GENERATE_PLAN
| VALIDATE_PLAN | ESTIMATE_ROUTES | OPTIMIZE_ROUTES | EVALUATE_COMMUTE
| REPLACE_REMOTE_ATTRACTION | SUPPLEMENT_ATTRACTIONS | EVALUATE_SCHEDULE | OPTIMIZE_SCHEDULE
| EVALUATE_CONSTRAINTS | OPTIMIZE_CONSTRAINTS | REFILL_ATTRACTIONS | REBUILD_PLAN_CONTENT
| REPAIR_PLAN | FINISH.

#[export] Instance AgentAction_eq_dec : EqDecision AgentAction.
Proof. solve_decision. Defined.

Definition action_value (a : AgentAction) : string :=
  match a with
  | SEARCH_ATTRACTIONS => "search_attractions" | GET_WEATHER => "get_weather"
  | SEARCH_HOTELS => "search_hotels" | SEARCH_RESTAURANTS => "search_restaurants"
  | GENERATE_PLAN => "generate_plan" | VALIDATE_PLAN => "validate_plan"
  | ESTIMATE_ROUTES => "estimate_routes" | OPTIMIZE_ROUTES => "optimize_routes"
  | EVALUATE_COMMUTE => "evaluate_commute"
  | REPLACE_REMOTE_ATTRACTION => "replace_remote_attraction"
  | SUPPLEMENT_ATTRACTIONS => "supplement_attractions"
  | EVALUATE_SCHEDULE => "evaluate_schedule" | OPTIMIZE_SCHEDULE => "optimize_schedule"
  | EVALUATE_CONSTRAINTS => "evaluate_constraints"
  | OPTIMIZE_CONSTRAINTS => "optimize_constraints" | REFILL_ATTRACTIONS => "refill_attractions"
  | REBUILD_PLAN_CONTENT => "rebuild_plan_content" | REPAIR_PLAN => "repair_plan"
  | FINISH => "finish"
  end.

Inductive AgentStatus :=
| pending | running | completed | failed | max_steps_reached | budget_exhausted
| convergence_stopped | cancelled.

#[export] Instance AgentStatus_eq_dec : EqDecision AgentStatus.
Proof. solve_decision. Defined.

(** The statuses of the five bounded optimisations; [supplement_needed] is
    one of the commute and refill phases only. *)
Inductive OptStatus :=
| not_started | supplement_needed | candidate_pending | opt_completed | opt_skipped.

#[export] Instance OptStatus_eq_dec : EqDecision OptStatus.
Proof. solve_decision. Defined.

(** ** Reports *)

Inductive PlanQualityLevel := EXCELLENT | ACCEPTABLE | DEGRADED | UNUSABLE.

#[export] Instance PlanQualityLevel_eq_dec : EqDecision PlanQualityLevel.
Proof. solve_decision. Defined.

Record PartialAcceptanceReport := mkAcceptance {
  pa_accepted : bool; pa_partial : bool; pa_quality_level : PlanQualityLevel;
  pa_quality_score : Q; pa_reason : string; pa_core_checks : list (string * bool);
  pa_blocking_reasons : list string; pa_warnings : list string;
  pa_unresolved_issue_codes : list string
}.

(** ** Audit records *)

Record ActionRecord := mkRecord {
  rec_step : Z; rec_action : AgentAction; rec_reason : string; rec_attempt : Z;
  rec_success : bool; rec_error : option string; rec_tool_name : option string;
  rec_error_type : option ToolErrorType; rec_retryable : bool;
  rec_duration_ms : Z; rec_retry_delay_ms : Z; rec_circuit_state : option string;
  rec_provider_code : option string; rec_provider_message : option string;
  rec_validation_error_count : Z; rec_validation_warning_count : Z;
  rec_input_fingerprint : option string;
  rec_state_fingerprint_before : option string; rec_state_fingerprint_after : option string;
  rec_made_progress : option bool;
  rec_compressed : bool; rec_batch_root_action : option AgentAction; rec_batch_index : Z;
  rec_compressed_actions : list AgentAction
}.

#[export] Instance record_rebuild : Rebuild ActionRecord := fun r =>
  mkRecord (rec_step r) (rec_action r) (rec_reason r) (rec_attempt r) (rec_success r)
    (rec_error r) (rec_tool_name r) (rec_error_type r) (rec_retryable r) (rec_duration_ms r)
    (rec_retry_delay_ms r) (rec_circuit_state r) (rec_provider_code r) (rec_provider_message r)
    (rec_validation_error_count r) (rec_validation_warning_count r) (rec_input_fingerprint r)
    (rec_state_fingerprint_before r) (rec_state_fingerprint_after r) (rec_made_progress r)
    (rec_compressed r) (rec_batch_root_action r) (rec_batch_index r) (rec_compressed_actions r).

(** A record as a constructor call with defaults makes it. *)
Definition new_record (step : Z) (a : AgentAction) (reason : string) (att : Z) (success : bool)
    : ActionRecord :=
  mkRecord step a reason att success None None None false 0 0 None None None 0 0
    None None None None false None 0 [].

Record ConvergenceRecord := mkConvergence {
  cv_step : Z; cv_action : AgentAction; cv_input_fingerprint : string;
  cv_before : string; cv_after : string; cv_made_progress : bool; cv_reason : string
}.

(** ** The groups of the state *)

Record Lifecycle := mkLifecycle {
  lc_status : AgentStatus;
  lc_current_step : Z;
  lc_max_steps : Z;
  lc_max_repair_attempts : Z;
  lc_repair_count : Z;
  lc_finished : bool;
  lc_updated_at : datetime;
  lc_started_at : datetime;
  lc_deadline_at : option datetime
}.
#[export] Instance lifecycle_rebuild : Rebuild Lifecycle := fun l =>
  mkLifecycle (lc_status l) (lc_current_step l) (lc_max_steps l) (lc_max_repair_attempts l)
    (lc_repair_count l) (lc_finished l) (lc_updated_at l) (lc_started_at l) (lc_deadline_at l).

(** Budget and consumption. *)
Record Usage := mkUsage {
  us_tool_call_count : Z;
  us_llm_call_count : Z;
  us_total_retry_count : Z;
  us_total_duration_ms : Z;
  us_total_retry_delay_ms : Z;
  us_budget_exhausted_reason : option string
}.
#[export] Instance usage_rebuild : Rebuild Usage := fun u =>
  mkUsage (us_tool_call_count u) (us_llm_call_count u) (us_total_retry_count u)
    (us_total_duration_ms u) (us_total_retry_delay_ms u) (us_budget_exhausted_reason u).

(** Provider facts and the plan. *)
Record Facts := mkFacts {
  fa_attractions : option json;
  fa_weather : option json;
  fa_hotels : option json;
  fa_restaurants : option json;
  fa_restaurant_plan_fingerprint : option string;
  fa_trip_plan : option TripPlan;
  fa_route_estimates : option json;
  fa_route_plan_fingerprint : option string
}.
#[export] Instance facts_rebuild : Rebuild Facts := fun f =>
  mkFacts (fa_attractions f) (fa_weather f) (fa_hotels f) (fa_restaurants f)
    (fa_restaurant_plan_fingerprint f) (fa_trip_plan f) (fa_route_estimates f)
    (fa_route_plan_fingerprint f).

(** Derived evaluations, each with the fingerprint of the plan it is about. *)
Record Evaluations := mkEvaluations {
  ev_route_quality : option RouteQualityReport;
  ev_route_quality_fingerprint : option string;
  ev_commute : option CommuteConstraintReport;
  ev_commute_fingerprint : option string;
  ev_schedule : option ScheduleQualityReport;
  ev_schedule_fingerprint : option string;
  ev_constraints : option TripConstraintReport;
  ev_constraints_fingerprint : option string;
  ev_input_fingerprints : odict string;
  ev_plan_consistency_fingerprint : option string;
  ev_validation : option TripValidationResult;
  ev_validation_history : list TripValidationResult;
  ev_acceptance : option PartialAcceptanceReport;
  ev_completion_mode : option string;
  ev_completion_warnings : list string
}.
#[export] Instance evaluations_rebuild : Rebuild Evaluations := fun e =>
  mkEvaluations (ev_route_quality e) (ev_route_quality_fingerprint e) (ev_commute e)
    (ev_commute_fingerprint e) (ev_schedule e) (ev_schedule_fingerprint e) (ev_constraints e)
    (ev_constraints_fingerprint e) (ev_input_fingerprints e) (ev_plan_consistency_fingerprint e)
    (ev_validation e) (ev_validation_history e) (ev_acceptance e) (ev_completion_mode e)
    (ev_completion_warnings e).

(** One bounded optimisation: attempts, status, candidate and the baseline it
    is compared with and rolled back to. *)
Record Optimization := mkOptimization {
  op_count : Z;
  op_status : OptStatus;
  op_candidate : option PlanCandidate;
  op_baseline_plan : option TripPlan;
  op_baseline_routes : option json;
  op_baseline_route_quality : option RouteQualityReport;
  op_baseline_commute : option CommuteConstraintReport;
  op_baseline_schedule : option ScheduleQualityReport;
  op_baseline_constraints : option TripConstraintReport;
  op_baseline_route_fingerprint : option string;
  op_baseline_constraint_fingerprint : option string;
  op_supplement_count : Z;
  op_excluded : list string
}.
#[export] Instance optimization_rebuild : Rebuild Optimization := fun o =>
  mkOptimization (op_count o) (op_status o) (op_candidate o) (op_baseline_plan o)
    (op_baseline_routes o) (op_baseline_route_quality o) (op_baseline_commute o)
    (op_baseline_schedule o) (op_baseline_constraints o) (op_baseline_route_fingerprint o)
    (op_baseline_constraint_fingerprint o) (op_supplement_count o) (op_excluded o).
Definition new_optimization : Optimization :=
  mkOptimization 0 not_started None None None None None None None None None 0 [].

Record Optimizations := mkOptimizations {
  os_route : Optimization;
  os_commute : Optimization;
  os_schedule : Optimization;
  os_constraints : Optimization;
  os_refill : Optimization;
  os_supplement_query : option CommuteSupplementQuery
}.
#[export] Instance optimizations_rebuild : Rebuild Optimizations := fun o =>
  mkOptimizations (os_route o) (os_commute o) (os_schedule o) (os_constraints o) (os_refill o)
    (os_supplement_query o).

(** Convergence bookkeeping. *)
Record Convergence := mkConv {
  cn_successful_inputs : odict Z;
  cn_no_progress_streak : Z;
  cn_no_progress_total : Z;
  cn_history : list ConvergenceRecord;
  cn_terminated_reason : option string;
  cn_local_batches : Z;
  cn_compressed_actions : Z
}.
#[export] Instance convergence_rebuild : Rebuild Convergence := fun c =>
  mkConv (cn_successful_inputs c) (cn_no_progress_streak c) (cn_no_progress_total c)
    (cn_history c) (cn_terminated_reason c) (cn_local_batches c) (cn_compressed_actions c).

(** Attempts, the action history and the errors shown to the user. *)
Record Audit := mkAudit {
  au_attempts_by_action : odict Z;
  au_history : list ActionRecord;
  au_errors : list string;
  au_last_result : option ActionResult
}.
#[export] Instance audit_rebuild : Rebuild Audit := fun a =>
  mkAudit (au_attempts_by_action a) (au_history a) (au_errors a) (au_last_result a).

Record AgentState := mkAgentState {
  st_session_id : string;
  st_user_id : option string;
  st_request : TripRequest;
  st_budget : ExecutionBudget;
  st_life : Lifecycle;
  st_usage : Usage;
  st_facts : Facts;
  st_evals : Evaluations;
  st_opts : Optimizations;
  st_conv : Convergence;
  st_audit : Audit
}.
#[export] Instance agent_state_rebuild : Rebuild AgentState := fun s =>
  mkAgentState (st_session_id s) (st_user_id s) (st_request s) (st_budget s) (st_life s)
    (st_usage s) (st_facts s) (st_evals s) (st_opts s) (st_conv s) (st_audit s).

(** Updates of one group. *)
Definition on_life (f : Lifecycle → Lifecycle) (s : AgentState) : AgentState :=
  s <| st_life := f (st_life s) |>.
Definition on_usage (f : Usage → Usage) (s : AgentState) : AgentState :=
  s <| st_usage := f (st_usage s) |>.
Definition on_facts (f : Facts → Facts) (s : AgentState) : AgentState :=
  s <| st_facts := f (st_facts s) |>.
Definition on_evals (f : Evaluations → Evaluations) (s : AgentState) : AgentState :=
  s <| st_evals := f (st_evals s) |>.
Definition on_opts (f : Optimizations → Optimizations) (s : AgentState) : AgentState :=
  s <| st_opts := f (st_opts s) |>.
Definition on_conv (f : Convergence → Convergence) (s : AgentState) : AgentState :=
  s <| st_conv := f (st_conv s) |>.
Definition on_audit (f : Audit → Audit) (s : AgentState) : AgentState :=
  s <| st_audit := f (st_audit s) |>.

(** ** Creation and the small methods *)

(** [AgentState.create] *)
Definition create_state (req : TripRequest) (b : ExecutionBudget) (sid : string)
    (uid : option string) (now : datetime) : AgentState :=
  mkAgentState sid uid req b
    (mkLifecycle pending 0 (eb_max_steps b) (eb_max_repair_attempts b) 0 false now now
       (Some (now + timedelta_seconds (eb_max_duration_seconds b))))
    (mkUsage 0 0 0 0 0 None)
    (mkFacts None None None None None None None None)
    (mkEvaluations None None None None None None None None [] None None [] None None [])
    (mkOptimizations new_optimization new_optimization new_optimization new_optimization
       new_optimization None)
    (mkConv [] 0 0 [] None 0 0)
    (mkAudit [] [] [] None).

(** [next_attempt] *)
Definition next_attempt (a : AgentAction) (s : AgentState) : Z * AgentState :=
  let attempt := default 0 (od_get (action_value a) (au_attempts_by_action (st_audit s))) + 1 in
  (attempt,
   on_audit (fun au => au <| au_attempts_by_action :=
                              od_set (action_value a) attempt (au_attempts_by_action au) |>) s).

(** [refresh_duration]: the elapsed milliseconds never go back. *)
Definition refresh_duration (now : datetime) (s : AgentState) : AgentState :=
  let elapsed_ms := Z.max 0 (py_round (inject_Z (now - lc_started_at (st_life s)) / inject_Z 1000)) in
  on_usage (fun u => u <| us_total_duration_ms := Z.max (us_total_duration_ms u) elapsed_ms |>) s.

Definition append_error_once (reason : string) (s : AgentState) : AgentState :=
  if existsb (String.eqb reason) (au_errors (st_audit s)) then s
  else on_audit (fun a => a <| au_errors := (au_errors a ++ [reason])%list |>) s.

(** [mark_budget_exhausted] *)
Definition mark_budget_exhausted (reason : string) (s : AgentState) : AgentState :=
  append_error_once reason
    (on_usage (fun u => u <| us_budget_exhausted_reason := Some reason |>)
      (on_life (fun l => l <| lc_status := budget_exhausted |>) s)).

(** [touch] *)
Definition touch (now : datetime) (s : AgentState) : AgentState :=
  refresh_duration now (on_life (fun l => l <| lc_updated_at := now |>) s).

Definition append_record (r : ActionRecord) (s : AgentState) : AgentState :=
  on_audit (fun a => a <| au_history := (au_history a ++ [r])%list |>) s.

(** ** A small session, for the examples of the other files *)

Definition sample_request : TripRequest :=
  mkTripRequest "北京" "2025-06-01" "2025-06-01" 1 "公共交通" "经济型酒店" ["美食"] (Some "").

Definition sample_plan : TripPlan :=
  mkTripPlan "北京" "2025-06-01" "2025-06-01"
    [mkDayPlan "2025-06-01" 0 "故宫" "公共交通" "经济型酒店" None
       [mkAttraction "故宫" "景山前街4号" (mkLocation (1164 # 10) (399 # 10)) 180 "宫殿" None None None
          (Some "B000A8UIN8") None 60] []]
    [] "请提前预约" None.

Definition sample_state : AgentState := create_state sample_request default_budget "s1" None 0.
