(* ===== verification/Convergence.v ===== *)
(** Convergence of the control loop (src/app/agent_runtime/convergence.py):
    the fingerprints of an evaluation's inputs, of the business state and of
    what an action depends on. *)

From S2P Require Import Prelude PyData TripSchema AmapModels PlanReports PlanRoutes PlanContent OrderedDict ToolModels AgentState.
From Stdlib Require Import ZArith QArith Lia String.
From stdpp Require Import base tactics option list strings.

Open Scope string_scope.
Open Scope Z_scope.

Definition opt_status_value (s : OptStatus) : string :=
  match s with
  | not_started => "not_started" | supplement_needed => "supplement_needed"
  | candidate_pending => "candidate_pending" | opt_completed => "completed"
  | opt_skipped => "skipped"
  end.

Definition jopt {A} (f : A → json) (o : option A) : json := json_opt f o.

(** The library functions the fingerprints use. *)
Class HashEnv := {
  he_sha256_hex : string → string;
  he_float_repr : Q → string;
  he_dump_datetime : datetime → string
}.

Section Fingerprints.
Context `{HashEnv}.

(** [stable_fingerprint] *)
Definition stable_fingerprint (v : json) : string :=
  he_sha256_hex (json_dumps_canonical he_float_repr v).

Definition route_fingerprint (req : TripRequest) (p : TripPlan) : string :=
  plan_route_fingerprint he_sha256_hex he_float_repr req p.
Definition constraint_fingerprint (req : TripRequest) (p : TripPlan) : string :=
  constraint_plan_fingerprint he_sha256_hex he_float_repr req p.

(** The three evaluations of the route snapshot bind the same inputs. *)
Definition route_input_payload (req : TripRequest) (p : TripPlan) (routes : option json) : json :=
  JObj [("plan_fingerprint", JStr (route_fingerprint req p));
        ("route_estimates", jopt (fun j => j) routes)].

Definition route_quality_input_fingerprint (req : TripRequest) (p : TripPlan) (routes : option json)
    : string := stable_fingerprint (route_input_payload req p routes).
Definition commute_input_fingerprint (req : TripRequest) (p : TripPlan) (routes : option json)
    : string := stable_fingerprint (route_input_payload req p routes).
Definition schedule_input_fingerprint (req : TripRequest) (p : TripPlan) (routes : option json)
    : string := stable_fingerprint (route_input_payload req p routes).

Definition constraint_input_payload (req : TripRequest) (p : option TripPlan)
    (schedule : option ScheduleQualityReport) (attractions weather : option json) : json :=
  JObj [("request", dump_request req); ("plan", jopt dump_plan p);
        ("schedule_report", jopt dump_schedule_report schedule);
        ("attractions", jopt (fun j => j) attractions); ("weather", jopt (fun j => j) weather)].

Definition constraint_input_fingerprint (req : TripRequest) (p : option TripPlan)
    (schedule : option ScheduleQualityReport) (attractions weather : option json) : string :=
  stable_fingerprint (constraint_input_payload req p schedule attractions weather).

Definition validation_input_payload (req : TripRequest) (p : option TripPlan)
    (attractions weather hotels routes : option json) (schedule : option ScheduleQualityReport)
    (constraints : option TripConstraintReport) : json :=
  JObj [("request", dump_request req); ("plan", jopt dump_plan p);
        ("attractions", jopt (fun j => j) attractions); ("weather", jopt (fun j => j) weather);
        ("hotels", jopt (fun j => j) hotels); ("route_estimates", jopt (fun j => j) routes);
        ("schedule_report", jopt dump_schedule_report schedule);
        ("constraint_report", jopt dump_constraint_report constraints)].

Definition validation_input_fingerprint (req : TripRequest) (p : option TripPlan)
    (attractions weather hotels routes : option json) (schedule : option ScheduleQualityReport)
    (constraints : option TripConstraintReport) : string :=
  stable_fingerprint
    (validation_input_payload req p attractions weather hotels routes schedule constraints).

(** Of a state. *)
Definition constraint_input_of (st : AgentState) : string :=
  constraint_input_fingerprint (st_request st) (fa_trip_plan (st_facts st))
    (ev_schedule (st_evals st)) (fa_attractions (st_facts st)) (fa_weather (st_facts st)).
Definition validation_input_of (st : AgentState) : string :=
  validation_input_fingerprint (st_request st) (fa_trip_plan (st_facts st))
    (fa_attractions (st_facts st)) (fa_weather (st_facts st)) (fa_hotels (st_facts st))
    (fa_route_estimates (st_facts st)) (ev_schedule (st_evals st)) (ev_constraints (st_evals st)).

(** ** The business state *)

Definition dump_optimization (o : Optimization) : list (string * json) :=
  [("count", JInt (op_count o)); ("status", JStr (opt_status_value (op_status o)));
   ("candidate", jopt dump_candidate (op_candidate o))].

Definition commute_optimization_payload (os : Optimizations) : json :=
  let o := os_commute os in
  JObj [("replacement_count", JInt (op_count o));
        ("supplement_search_count", JInt (op_supplement_count o));
        ("status", JStr (opt_status_value (op_status o)));
        ("candidate", jopt dump_candidate (op_candidate o));
        ("supplement_query", jopt dump_supplement_query (os_supplement_query os));
        ("excluded_candidates", JArr (map JStr (op_excluded o)))].

Definition content_refill_payload (os : Optimizations) : json :=
  let o := os_refill os in
  JObj [("count", JInt (op_count o)); ("status", JStr (opt_status_value (op_status o)));
        ("candidate", jopt dump_candidate (op_candidate o));
        ("supplement_search_count", JInt (op_supplement_count o));
        ("supplement_query",
         if bool_decide (op_status o = supplement_needed)
         then jopt dump_supplement_query (os_supplement_query os) else JNull);
        ("excluded_candidates", JArr (map JStr (op_excluded o)))].

Definition business_state_payload (st : AgentState) : json :=
  let f := st_facts st in
  let e := st_evals st in
  let os := st_opts st in
  JObj [("attractions", jopt (fun j => j) (fa_attractions f));
        ("weather", jopt (fun j => j) (fa_weather f));
        ("hotels", jopt (fun j => j) (fa_hotels f));
        ("restaurants", jopt (fun j => j) (fa_restaurants f));
        ("restaurant_plan_fingerprint", jstr_opt (fa_restaurant_plan_fingerprint f));
        ("trip_plan", jopt dump_plan (fa_trip_plan f));
        ("route_estimates", jopt (fun j => j) (fa_route_estimates f));
        ("route_quality_report", jopt dump_route_quality (ev_route_quality e));
        ("route_optimization", JObj (dump_optimization (os_route os)));
        ("commute_report", jopt dump_commute_report (ev_commute e));
        ("commute_optimization", commute_optimization_payload os);
        ("schedule_quality_report", jopt dump_schedule_report (ev_schedule e));
        ("schedule_optimization", JObj (dump_optimization (os_schedule os)));
        ("constraint_report", jopt dump_constraint_report (ev_constraints e));
        ("constraint_optimization", JObj (dump_optimization (os_constraints os)));
        ("content_refill", content_refill_payload os);
        ("repair_count", JInt (lc_repair_count (st_life st)));
        ("plan_consistency_fingerprint", jstr_opt (ev_plan_consistency_fingerprint e));
        ("evaluation_input_fingerprints",
         JObj (map (fun kv => (kv.1, JStr kv.2)) (ev_input_fingerprints e)));
        ("last_validation_result", jopt (dump_validation he_dump_datetime) (ev_validation e));
        ("finished", JBool (lc_finished (st_life st)))].

Definition business_state_fingerprint (st : AgentState) : string :=
  stable_fingerprint (business_state_payload st).

(** ** Action inputs *)

Definition action_payload (st : AgentState) (a : AgentAction) : json :=
  let req := st_request st in
  let f := st_facts st in
  let plan := jopt dump_plan (fa_trip_plan f) in
  let validation := jopt (dump_validation he_dump_datetime) (ev_validation (st_evals st)) in
  let fact (o : option json) := jopt (fun j => j) o in
  (** [plan_route_fingerprint] needs a plan; the actions that use it are
      decided only when there is one. *)
  let route_input :=
    match fa_trip_plan f with
    | Some p => JStr (stable_fingerprint (route_input_payload req p (fa_route_estimates f)))
    | None => JNull
    end in
  match a with
  | SEARCH_ATTRACTIONS =>
      JObj [("city", JStr (req_city req)); ("preferences", JArr (map JStr (req_preferences req)))]
  | GET_WEATHER => JObj [("city", JStr (req_city req))]
  | SEARCH_HOTELS =>
      JObj [("city", JStr (req_city req)); ("accommodation", JStr (req_accommodation req))]
  | SEARCH_RESTAURANTS => JObj [("city", JStr (req_city req)); ("plan", plan)]
  | GENERATE_PLAN =>
      JObj [("request", dump_request req); ("attractions", fact (fa_attractions f));
            ("weather", fact (fa_weather f)); ("hotels", fact (fa_hotels f))]
  | ESTIMATE_ROUTES =>
      JObj [("request", dump_request req); ("plan", plan); ("attractions", fact (fa_attractions f));
            ("hotels", fact (fa_hotels f))]
  | EVALUATE_COMMUTE | EVALUATE_SCHEDULE => route_input
  | EVALUATE_CONSTRAINTS => JStr (constraint_input_of st)
  | VALIDATE_PLAN => JStr (validation_input_of st)
  | REPAIR_PLAN =>
      JObj [("request", dump_request req); ("plan", plan); ("validation", validation);
            ("attractions", fact (fa_attractions f)); ("weather", fact (fa_weather f));
            ("hotels", fact (fa_hotels f))]
  | SUPPLEMENT_ATTRACTIONS =>
      JObj [("query", jopt dump_supplement_query (os_supplement_query (st_opts st)));
            ("attractions", fact (fa_attractions f))]
  | REBUILD_PLAN_CONTENT =>
      JObj [("request", dump_request req); ("plan", plan); ("routes", fact (fa_route_estimates f));
            ("schedule", jopt dump_schedule_report (ev_schedule (st_evals st)));
            ("attractions", fact (fa_attractions f)); ("weather", fact (fa_weather f));
            ("hotels", fact (fa_hotels f)); ("restaurants", fact (fa_restaurants f))]
  | FINISH => JObj [("validation", validation)]
  | _ => JStr (business_state_fingerprint st)
  end.

Definition action_input_fingerprint (st : AgentState) (a : AgentAction) : string :=
  stable_fingerprint (JObj [("action", JStr (action_value a)); ("input", action_payload st a)]).
End Fingerprints.
