(* ===== verification/AgentDecision.v ===== *)
(** [TripOrchestrator.decide_next_action]
    (src/app/agent_runtime/orchestrator.py): the next action as a function of
    the state alone.  The function is a long cascade of guards; it is kept as
    lists of rules in the order of the guards, each a condition and the action
    it answers. *)

From S2P Require Import Prelude PyData TripSchema AmapModels PlanReports PlanRoutes PlanContent OrderedDict.
From S2P Require Import ToolModels AgentState Convergence.
From Stdlib Require Import ZArith QArith Lia String.
From stdpp Require Import base tactics option list strings gmap.

Open Scope string_scope.
Open Scope Z_scope.

(** The validation of a JSON value against a pydantic model of the
    application; pydantic is not part of the source. *)
Class PydanticModels := {
  pm_routes : json → result exn RouteEstimateResult;
  pm_restaurants : json → result exn json;
  pm_nearby : json → result exn NearbySearchResult;
  pm_generated : json → result exn TripPlan;
  pm_plan : json → result exn TripPlan
}.

(** The first rule whose condition holds. *)
Fixpoint first_of (rules : list (bool * AgentAction)) : option AgentAction :=
  match rules with
  | [] => None
  | (c, a) :: rules => if c then Some a else first_of rules
  end.

Definition holds {R} (f : R → bool) (o : option R) : bool :=
  match o with Some r => f r | None => false end.

Section Decide.
Context `{HashEnv} `{PydanticModels}.
(** [settings.AMAP_MAX_RESTAURANT_SEARCH_ANCHORS] *)
Context (max_anchors : Z).

Definition evaluation_is_current (st : AgentState) (key fp : string) (legacy_matches : bool) : bool :=
  match od_get key (ev_input_fingerprints (st_evals st)) with
  | Some stored => String.eqb stored fp
  | None => legacy_matches
  end.

Section State.
Context (st : AgentState) (p : TripPlan).
Let req := st_request st.
Let f := st_facts st.
Let e := st_evals st.
Let b := st_budget st.
Let os := st_opts st.

Definition current_route_fingerprint : string := route_fingerprint req p.

Definition fingerprint_is (o : option string) (fp : string) : bool := bool_decide (o = Some fp).

Definition status_is (o : Optimization) (s : OptStatus) : bool := bool_decide (op_status o = s).

Definition routes_ready : bool :=
  is_some (fa_route_estimates f)
  && fingerprint_is (fa_route_plan_fingerprint f) current_route_fingerprint.

Definition route_quality_current : bool :=
  is_some (ev_route_quality e)
  && evaluation_is_current st "route_quality"
       (route_quality_input_fingerprint req p (fa_route_estimates f))
       (fingerprint_is (ev_route_quality_fingerprint e) current_route_fingerprint).

Definition schedule_current : bool :=
  is_some (ev_schedule e)
  && evaluation_is_current st "schedule"
       (schedule_input_fingerprint req p (fa_route_estimates f))
       (fingerprint_is (ev_schedule_fingerprint e) current_route_fingerprint).

Definition commute_current : bool :=
  is_some (ev_commute e)
  && evaluation_is_current st "commute"
       (commute_input_fingerprint req p (fa_route_estimates f))
       (fingerprint_is (ev_commute_fingerprint e) current_route_fingerprint).

Definition constraints_current : bool :=
  is_some (ev_constraints e)
  && evaluation_is_current st "constraints"
       (constraint_input_fingerprint req (Some p) (ev_schedule e) (fa_attractions f) (fa_weather f))
       (fingerprint_is (ev_constraints_fingerprint e) (constraint_fingerprint req p)).

Definition validation_current : bool :=
  is_some (ev_validation e)
  && evaluation_is_current st "validation"
       (validation_input_fingerprint req (Some p) (fa_attractions f) (fa_weather f) (fa_hotels f)
          (fa_route_estimates f) (ev_schedule e) (ev_constraints e))
       (is_some (ev_validation e)).

(** Routes: estimates, pending searches, score, ordering. *)
Definition route_rules : list (bool * AgentAction) :=
  [(negb routes_ready, ESTIMATE_ROUTES);
   (status_is (os_refill os) supplement_needed, SUPPLEMENT_ATTRACTIONS);
   (negb route_quality_current, OPTIMIZE_ROUTES);
   (status_is (os_route os) candidate_pending, OPTIMIZE_ROUTES);
   (status_is (os_route os) not_started
    && holds rq_optimization_recommended (ev_route_quality e)
    && (op_count (os_route os) <? eb_max_route_optimization_attempts b), OPTIMIZE_ROUTES)].

(** Candidates of earlier phases that wait for their verification. *)
Definition pending_rules : list (bool * AgentAction) :=
  [(status_is (os_schedule os) candidate_pending && schedule_current, OPTIMIZE_SCHEDULE);
   (status_is (os_schedule os) candidate_pending, EVALUATE_SCHEDULE);
   (status_is (os_constraints os) candidate_pending && negb schedule_current, EVALUATE_SCHEDULE);
   (status_is (os_constraints os) candidate_pending && negb constraints_current,
    EVALUATE_CONSTRAINTS);
   (status_is (os_constraints os) candidate_pending, OPTIMIZE_CONSTRAINTS);
   (status_is (os_refill os) candidate_pending && negb schedule_current, EVALUATE_SCHEDULE);
   (status_is (os_refill os) candidate_pending && negb constraints_current, EVALUATE_CONSTRAINTS);
   (status_is (os_refill os) candidate_pending, REFILL_ATTRACTIONS)].

Definition commute_needs_action : bool :=
  status_is (os_commute os) candidate_pending
  || (status_is (os_commute os) not_started && holds cm_optimization_recommended (ev_commute e)).

Definition commute_rules : list (bool * AgentAction) :=
  [(negb commute_current, EVALUATE_COMMUTE);
   (negb schedule_current, EVALUATE_SCHEDULE);
   (status_is (os_commute os) supplement_needed, SUPPLEMENT_ATTRACTIONS);
   (commute_needs_action && negb constraints_current, EVALUATE_CONSTRAINTS);
   (commute_needs_action, REPLACE_REMOTE_ATTRACTION);
   (status_is (os_schedule os) not_started && holds sq_optimization_recommended (ev_schedule e),
    OPTIMIZE_SCHEDULE)].

Definition required_attractions : Z :=
  Z.min (eb_minimum_total_attractions b) (Z.max 1 (req_travel_days req)).

Definition refill_needed : bool :=
  (count_attractions p <? required_attractions)
  && negb (status_is (os_refill os) opt_completed || status_is (os_refill os) opt_skipped)
  && (op_count (os_refill os) <? eb_max_content_refill_attempts b).

Definition constraints_required_for_refill : bool :=
  status_is (os_refill os) candidate_pending || refill_needed
  || status_is (os_constraints os) candidate_pending.

Definition constraints_recommended : bool :=
  status_is (os_constraints os) not_started
  && holds ct_optimization_recommended (ev_constraints e).

Definition refill_rules : list (bool * AgentAction) :=
  [(constraints_required_for_refill && negb constraints_current, EVALUATE_CONSTRAINTS);
   (constraints_required_for_refill && status_is (os_constraints os) candidate_pending,
    OPTIMIZE_CONSTRAINTS);
   (constraints_required_for_refill && constraints_recommended, OPTIMIZE_CONSTRAINTS);
   (constraints_required_for_refill, REFILL_ATTRACTIONS)].

Definition deliverable : bool :=
  holds vr_valid (ev_validation e) || holds pa_accepted (ev_acceptance e).

(** Constraints, validation and the end. *)
Definition final_rules : list (bool * AgentAction) :=
  [(negb constraints_current, EVALUATE_CONSTRAINTS);
   (status_is (os_constraints os) candidate_pending, OPTIMIZE_CONSTRAINTS);
   (constraints_recommended, OPTIMIZE_CONSTRAINTS);
   (negb validation_current, VALIDATE_PLAN);
   (deliverable, FINISH);
   (holds vr_repairable (ev_validation e)
    && (lc_repair_count (st_life st) <? lc_max_repair_attempts (st_life st)), REPAIR_PLAN)].

(** [plan_content_source_fingerprint] on the state. *)
Definition content_fingerprint_of (routes : option json) (schedule : option ScheduleQualityReport)
    (restaurants : option json) (plan : TripPlan) : result exn string :=
  parsed_routes ← match routes with Some j => r ← pm_routes j; mret (Some r) | None => mret None end;
  parsed_restaurants ← match restaurants with
                       | Some j => r ← pm_restaurants j; mret (Some r) | None => mret None end;
  mret (plan_content_source_fingerprint he_sha256_hex he_float_repr req plan parsed_routes schedule
          parsed_restaurants).

Definition restaurant_fingerprint_of : result exn string :=
  restaurant_search_source_fingerprint he_sha256_hex he_float_repr max_anchors p.

(** Restaurants, then the descriptions and the budget, then [final_rules]. *)
Definition decide_content : result exn AgentAction :=
  restaurant_fp ← restaurant_fingerprint_of;
  if negb (is_some (fa_restaurants f)
           && fingerprint_is (fa_restaurant_plan_fingerprint f) restaurant_fp)
  then mret SEARCH_RESTAURANTS
  else
    content_fp ← content_fingerprint_of (fa_route_estimates f) (ev_schedule e) (fa_restaurants f) p;
    if negb (fingerprint_is (ev_plan_consistency_fingerprint e) content_fp)
    then mret REBUILD_PLAN_CONTENT
    else mret (default VALIDATE_PLAN (first_of final_rules)).
End State.

Definition fact_rules (st : AgentState) : list (bool * AgentAction) :=
  let f := st_facts st in
  [(negb (is_some (fa_attractions f)), SEARCH_ATTRACTIONS);
   (negb (is_some (fa_weather f)), GET_WEATHER);
   (negb (is_some (fa_hotels f)), SEARCH_HOTELS)].

Definition plan_rules (st : AgentState) (p : TripPlan) : list (bool * AgentAction) :=
  (route_rules st p ++ pending_rules st p ++ commute_rules st p ++ refill_rules st p)%list.

Definition decide_next_action (st : AgentState) : result exn AgentAction :=
  match first_of (fact_rules st) with
  | Some a => Ok a
  | None =>
      match fa_trip_plan (st_facts st) with
      | None => Ok GENERATE_PLAN
      | Some p =>
          match first_of (plan_rules st p) with
          | Some a => Ok a
          | None => decide_content st p
          end
      end
  end.

(** ** Reading a decision *)

Lemma first_of_None rules : first_of rules = None ↔ Forall (fun r => r.1 = false) rules.
Proof.
  induction rules as [|[c a] rules IH]; simpl; [done|].
  rewrite Forall_cons. destruct c; simpl; naive_solver.
Qed.

Lemma first_of_Some rules a : first_of rules = Some a → (true, a) ∈ rules.
Proof.
  induction rules as [|[[|] b] rules IH]; simpl; [done| |]; [intros [= ->]; left|].
  intros Ha. right. auto.
Qed.

(** An action answered by none of the rules before the last stage comes from it. *)
Lemma decide_last_stage st a :
  decide_next_action st = Ok a →
  (∀ c p, (c, a) ∉ (fact_rules st ++ plan_rules st p)%list) → a ≠ GENERATE_PLAN →
  ∃ p, fa_trip_plan (st_facts st) = Some p
    ∧ Forall (fun r => r.1 = false) (fact_rules st ++ plan_rules st p)%list
    ∧ decide_content st p = Ok a.
Proof.
  unfold decide_next_action. intros Hd Hno Hg.
  destruct (first_of (fact_rules st)) as [b|] eqn:E1.
  { injection Hd as ->. apply first_of_Some in E1. exfalso. apply (Hno true sample_plan).
    apply elem_of_app. by left. }
  destruct (fa_trip_plan (st_facts st)) as [p|]; [|by injection Hd as <-].
  destruct (first_of (plan_rules st p)) as [b|] eqn:E2.
  { injection Hd as ->. apply first_of_Some in E2. exfalso. apply (Hno true p).
    apply elem_of_app. by right. }
  exists p. split; [done|]. split; [|done].
  apply Forall_app. by rewrite <- !first_of_None.
Qed.

Lemma decide_content_final st p a :
  decide_content st p = Ok a → a ≠ SEARCH_RESTAURANTS → a ≠ REBUILD_PLAN_CONTENT →
  ∃ rfp cfp,
    restaurant_fingerprint_of p = Ok rfp
    ∧ is_some (fa_restaurants (st_facts st)) = true
    ∧ fa_restaurant_plan_fingerprint (st_facts st) = Some rfp
    ∧ content_fingerprint_of st (fa_route_estimates (st_facts st)) (ev_schedule (st_evals st))
        (fa_restaurants (st_facts st)) p = Ok cfp
    ∧ ev_plan_consistency_fingerprint (st_evals st) = Some cfp
    ∧ a = default VALIDATE_PLAN (first_of (final_rules st p)).
Proof.
  unfold decide_content, fingerprint_is.
  destruct (restaurant_fingerprint_of p) as [rfp|]; cbn [mbind result_bind]; [|done].
  destruct (is_some _) eqn:E1; cbn [andb negb]; [|by intros [= <-]].
  case_bool_decide as E2; cbn [negb]; [|by intros [= <-]].
  destruct (content_fingerprint_of _ _ _ _ _) as [cfp|] eqn:E3; cbn [mbind result_bind]; [|done].
  case_bool_decide as E4; cbn [negb]; [|by intros [= <-]].
  intros [= <-] _ _. exists rfp, cfp. done.
Qed.

Ltac rules_false H :=
  unfold plan_rules, fact_rules, route_rules, pending_rules, commute_rules, refill_rules,
    final_rules in H; simpl in H; repeat rewrite Forall_cons in H; simpl in H.

Ltac not_in_rules :=
  unfold plan_rules, fact_rules, route_rules, pending_rules, commute_rules, refill_rules;
  simpl; let Hin := fresh "Hin" in intros Hin; repeat (apply elem_of_cons in Hin as [Hin|Hin]; [discriminate|]);
  by apply elem_of_nil in Hin.

(** What is behind a decision to deliver. *)
Record ReadyToDeliver (st : AgentState) (p : TripPlan) : Prop := mkReady {
  rtd_plan : fa_trip_plan (st_facts st) = Some p;
  rtd_facts : is_some (fa_attractions (st_facts st)) && is_some (fa_weather (st_facts st))
              && is_some (fa_hotels (st_facts st)) && is_some (fa_restaurants (st_facts st)) = true;
  rtd_routes : routes_ready st p = true;
  rtd_evaluated : route_quality_current st p && commute_current st p && schedule_current st p
                  && constraints_current st p && validation_current st p = true;
  rtd_restaurants : ∃ fp, restaurant_fingerprint_of p = Ok fp
                      ∧ fa_restaurant_plan_fingerprint (st_facts st) = Some fp;
  rtd_content : ∃ fp, content_fingerprint_of st (fa_route_estimates (st_facts st))
                        (ev_schedule (st_evals st)) (fa_restaurants (st_facts st)) p = Ok fp
                  ∧ ev_plan_consistency_fingerprint (st_evals st) = Some fp;
  rtd_settled : Forall (fun o => op_status o ≠ candidate_pending)
                  [os_route (st_opts st); os_commute (st_opts st); os_schedule (st_opts st);
                   os_constraints (st_opts st); os_refill (st_opts st)]
                ∧ op_status (os_commute (st_opts st)) ≠ supplement_needed
                ∧ op_status (os_refill (st_opts st)) ≠ supplement_needed;
  rtd_content_size : refill_needed st p = false
}.

Lemma status_is_false o s : status_is o s = false ↔ op_status o ≠ s.
Proof. unfold status_is. apply bool_decide_eq_false. Qed.

(** The validation and the end are decided only on a settled plan. *)
Lemma late_action_ready st a :
  decide_next_action st = Ok a → a = FINISH ∨ a = REPAIR_PLAN →
  ∃ p, ReadyToDeliver st p ∧ first_of (final_rules st p) = Some a.
Proof.
  intros Hd Ha. apply decide_last_stage in Hd as (p & Hp & Hrules & Hc).
  2: { intros c q Hin. destruct Ha as [-> | ->]; revert Hin; not_in_rules. }
  2: { by destruct Ha as [-> | ->]. }
  apply decide_content_final in Hc as (rfp & cfp & Hr & Hrs & Hrf & Hcc & Hcf & Hfin);
    [|by destruct Ha as [-> | ->]|by destruct Ha as [-> | ->]].
  destruct (first_of (final_rules st p)) as [a'|] eqn:Ef; simpl in Hfin;
    [subst a'|destruct Ha; congruence].
  exists p. split; [|done].
  assert (Hfinal : constraints_current st p = true ∧ validation_current st p = true).
  { unfold final_rules in Ef. cbn [first_of] in Ef.
    destruct (constraints_current st p); cbn [negb] in Ef; [|injection Ef as <-; destruct Ha; done].
    destruct (status_is (os_constraints (st_opts st)) candidate_pending);
      [injection Ef as <-; destruct Ha; done|].
    destruct (constraints_recommended st); [injection Ef as <-; destruct Ha; done|].
    destruct (validation_current st p); cbn [negb] in Ef; [done|].
    injection Ef as <-. destruct Ha; done. }
  destruct Hfinal as [Hcons Hval].
  rules_false Hrules.
  destruct Hrules as (Ha1 & Ha2 & Ha3 & Hroutes & Hrefill_search & Hquality & Hroute & _ & _ & Hsched
    & _ & _ & Hconstr & _ & _ & Hrefill & Hcommute & Hschedule & Hcommute_search & _ & Hneeds & _
    & _ & _ & _ & Hreq & _).
  apply negb_false_iff in Ha1, Ha2, Ha3, Hroutes, Hquality, Hcommute, Hschedule.
  apply orb_false_iff in Hneeds as [Hneeds _]. unfold constraints_required_for_refill in Hreq.
  apply orb_false_iff in Hreq as [Hreq _]. apply orb_false_iff in Hreq as [_ Hreq].
  apply status_is_false in Hrefill_search, Hroute, Hsched, Hconstr, Hrefill, Hcommute_search, Hneeds.
  constructor; [done| |done| |eauto|eauto| |done].
  - by rewrite Ha1, Ha2, Ha3, Hrs.
  - by rewrite Hquality, Hcommute, Hschedule, Hcons, Hval.
  - split; [|done]. repeat (apply Forall_cons; split; [done|]). by apply Forall_nil.
Qed.

Lemma finish_ready st :
  decide_next_action st = Ok FINISH → ∃ p, ReadyToDeliver st p ∧ deliverable st = true.
Proof.
  intros Hd. destruct (late_action_ready st FINISH Hd (or_introl eq_refl)) as (p & Hready & Hf).
  exists p. split; [done|]. apply first_of_Some in Hf. unfold final_rules in Hf.
  repeat (apply elem_of_cons in Hf as [Hf|Hf]; [injection Hf as ?; congruence|]).
  by apply elem_of_nil in Hf.
Qed.

(** a plan is delivered only when it is settled and checked: whenever the
    decision is to finish, the plan exists, its routes are the routes of this
    very plan, every evaluation (route quality, commute, schedule, constraints,
    validation) was made on the current inputs, restaurants and descriptions
    were made for this plan, no optimisation candidate is waiting for its
    verification, and the validation passed or the acceptance policy accepted. *)
Theorem finish_only_when_ready st :
  decide_next_action st = Ok FINISH → ∃ p, ReadyToDeliver st p ∧ deliverable st = true.
Proof. apply finish_ready. Qed.

Lemma repair_useful st :
  decide_next_action st = Ok REPAIR_PLAN →
  ∃ p v, ReadyToDeliver st p ∧ ev_validation (st_evals st) = Some v
    ∧ vr_valid v = false ∧ vr_repairable v = true
    ∧ holds pa_accepted (ev_acceptance (st_evals st)) = false
    ∧ lc_repair_count (st_life st) < lc_max_repair_attempts (st_life st).
Proof.
  intros Hd. destruct (late_action_ready st REPAIR_PLAN Hd (or_intror eq_refl)) as (p & Hready & Hf).
  exists p. unfold final_rules in Hf. cbn [first_of] in Hf.
  destruct (negb (constraints_current st p)); [done|].
  destruct (status_is _ candidate_pending); [done|]. destruct (constraints_recommended st); [done|].
  destruct (negb (validation_current st p)); [done|].
  destruct (deliverable st) eqn:Edel; [done|].
  destruct (_ && _) eqn:E; [|done]. apply andb_true_iff in E as [Hrep Hlt].
  unfold deliverable in Edel. apply orb_false_iff in Edel as [Hv Hacc].
  destruct (ev_validation (st_evals st)) as [v|]; [|done]. simpl in *.
  exists v. do 5 (split; [done|]). by apply Z.ltb_lt.
Qed.

(** a model repair is asked for only when it can help: below the repair
    limit, for a validation of the current plan that failed, whose errors are
    all repairable and that the acceptance policy did not accept. *)
Theorem repair_only_when_useful st :
  decide_next_action st = Ok REPAIR_PLAN →
  ∃ p v, ReadyToDeliver st p ∧ ev_validation (st_evals st) = Some v
    ∧ vr_valid v = false ∧ vr_repairable v = true
    ∧ holds pa_accepted (ev_acceptance (st_evals st)) = false
    ∧ lc_repair_count (st_life st) < lc_max_repair_attempts (st_life st).
Proof. apply repair_useful. Qed.

(** ** A day numbered below zero *)

Lemma anchor_at_negative d meal name loc :
  day_index d < 0 → py_strip name ≠ "" → anchor_at d meal (Some (name, Some loc)) = Err ValidationError.
Proof.
  intros Hneg Hname. unfold anchor_at. rewrite (proj2 (String.eqb_neq _ _)) by done.
  by rewrite (proj2 (Z.leb_gt 0 (day_index d))) by lia.
Qed.

Lemma day_anchors_negative days i d a :
  day_index d < 0 → day_attractions d !! (length (day_attractions d) / 2)%nat = Some a →
  py_strip (at_name a) ≠ "" → ∀ r, day_anchors days i d ≠ Ok r.
Proof.
  intros Hneg Ha Hname r. unfold day_anchors.
  destruct (resolve_day_hotels days i) as [start back].
  destruct (anchor_at d "breakfast" _); cbn [mbind result_bind]; [|done].
  rewrite Ha. cbn [fmap option_fmap option_map first_place].
  change (attraction_place a) with (at_name a, Some (at_location a)).
  by rewrite anchor_at_negative.
Qed.

Lemma all_anchors_error days l i d :
  d ∈ l → (∀ j r, day_anchors days j d ≠ Ok r) → ∀ r, all_anchors days i l ≠ Ok r.
Proof.
  intros Hin Hd. revert i. induction l as [|d' l IH]; intros i r; [by apply elem_of_nil in Hin|].
  cbn [all_anchors].
  destruct (day_anchors days i d') as [x|] eqn:E; cbn [mbind result_bind]; [|done].
  apply elem_of_cons in Hin as [->|Hin]; [by apply Hd in E|].
  destruct (all_anchors days (i + 1) l) as [y|] eqn:E'; cbn [mbind result_bind]; [|done].
  by apply IH in E'.
Qed.

(** a generated plan that numbers one of its days below zero is never
    validated, and so never repaired or delivered, although every evaluator
    copes with such a number and the validator offers to repair it: computing
    the restaurant anchors of the plan raises first. *)
Theorem negative_day_index_never_validated st p d a :
  fa_trip_plan (st_facts st) = Some p → d ∈ plan_days p → day_index d < 0 →
  day_attractions d !! (length (day_attractions d) / 2)%nat = Some a →
  py_strip (at_name a) ≠ "" → 0 < max_anchors →
  ∀ act, decide_next_action st = Ok act → act ∉ [VALIDATE_PLAN; REPAIR_PLAN; FINISH].
Proof.
  intros Hp Hin Hneg Ha Hname Hmax act Hd Hact.
  assert (Hnone : ∀ r, restaurant_fingerprint_of p ≠ Ok r).
  { intros r. unfold restaurant_fingerprint_of, restaurant_search_source_fingerprint,
      build_restaurant_search_anchors.
    rewrite (proj2 (Z.leb_gt max_anchors 0)) by lia.
    destruct (all_anchors (plan_days p) 0 (plan_days p)) as [x|] eqn:E; [|done].
    exfalso. eapply all_anchors_error; [exact Hin| |exact E].
    intros j r'. by apply day_anchors_negative with (a := a). }
  assert (Hact' : act = VALIDATE_PLAN ∨ act = REPAIR_PLAN ∨ act = FINISH) by set_solver.
  apply decide_last_stage in Hd as (q & Hq & _ & Hc).
  - rewrite Hp in Hq. injection Hq as <-. revert Hc. unfold decide_content.
    destruct (restaurant_fingerprint_of p) as [r|]; [by destruct (Hnone r)|done].
  - intros c q Hin'. destruct Hact' as [-> | [-> | ->]]; revert Hin'; not_in_rules.
  - by destruct Hact' as [-> | [-> | ->]].
Qed.
End Decide.

(** ** Concrete states *)

(** Test doubles of the library: the hash is the text itself, and the pydantic
    models accept what they are given. *)
Definition text_hash : HashEnv :=
  {| he_sha256_hex := fun s => s; he_float_repr := fun q => str_of_Z (Qnum q);
     he_dump_datetime := fun d => str_of_Z d |}.

Definition empty_routes : RouteEstimateResult := mkRouteResult "" 0 0 0 0 [] [].

Definition permissive_models : PydanticModels :=
  {| pm_routes := fun _ => Ok empty_routes; pm_restaurants := fun j => Ok j;
     pm_nearby := fun j => Ok (mkNearby (mkLocation 0 0) 5000 1 j);
     pm_generated := fun _ => Ok sample_plan; pm_plan := fun _ => Ok sample_plan |}.

Section Concrete.
#[local] Existing Instance text_hash.
#[local] Existing Instance permissive_models.

Definition restaurants_of (p : TripPlan) : string :=
  match restaurant_search_source_fingerprint he_sha256_hex he_float_repr 8 p with
  | Ok fp => fp | Err _ => ""
  end.

(** Every fact, report and check of [p] is there; [v] is its validation. *)
Definition checked_state (p : TripPlan) (v : TripValidationResult) : AgentState :=
  let rf := route_fingerprint sample_request p in
  let sq := mkScheduleQuality rf 1 0 0 0 30 0 95 false [] in
  on_evals (fun e => e
      <| ev_route_quality := Some (mkRouteQuality rf 0 0 0 0 0 0 0 0 100 false []) |>
      <| ev_route_quality_fingerprint := Some rf |>
      <| ev_schedule := Some sq |> <| ev_schedule_fingerprint := Some rf |>
      <| ev_commute := Some (mkCommuteReport rf 0 0 0 0 false [] []) |>
      <| ev_commute_fingerprint := Some rf |>
      <| ev_constraints := Some (mkConstraintReport "" 0 0 0 0 100 true false [] []) |>
      <| ev_constraints_fingerprint := Some (constraint_fingerprint sample_request p) |>
      <| ev_plan_consistency_fingerprint :=
           Some (plan_content_source_fingerprint he_sha256_hex he_float_repr sample_request p
                   (Some empty_routes) (Some sq) (Some (JObj []))) |>
      <| ev_validation := Some v |>)
    (on_facts (fun f => f
      <| fa_attractions := Some (JObj []) |> <| fa_weather := Some (JObj []) |>
      <| fa_hotels := Some (JObj []) |> <| fa_restaurants := Some (JObj []) |>
      <| fa_restaurant_plan_fingerprint := Some (restaurants_of p) |>
      <| fa_trip_plan := Some p |> <| fa_route_estimates := Some (JObj []) |>
      <| fa_route_plan_fingerprint := Some rf |>) sample_state).

Definition overtime : ValidationIssue :=
  mkIssue "schedule.daily_overtime" SevError "days[0]" "日程超时" "" true JNull JNull.

Lemma finish_only_when_ready_witness :
  ∃ p, ReadyToDeliver 8 (checked_state sample_plan (from_issues [] 7)) p
       ∧ deliverable (checked_state sample_plan (from_issues [] 7)) = true.
Proof.
  refine (finish_only_when_ready 8 (checked_state sample_plan (from_issues [] 7)) _).
  vm_compute. reflexivity.
Defined.

Lemma repair_only_when_useful_witness :
  ∃ p v, ReadyToDeliver 8 (checked_state sample_plan (from_issues [overtime] 7)) p
    ∧ ev_validation (st_evals (checked_state sample_plan (from_issues [overtime] 7))) = Some v
    ∧ vr_valid v = false ∧ vr_repairable v = true
    ∧ holds pa_accepted (ev_acceptance (st_evals (checked_state sample_plan (from_issues [overtime] 7))))
      = false
    ∧ lc_repair_count (st_life (checked_state sample_plan (from_issues [overtime] 7)))
      < lc_max_repair_attempts (st_life (checked_state sample_plan (from_issues [overtime] 7))).
Proof.
  refine (repair_only_when_useful 8 (checked_state sample_plan (from_issues [overtime] 7)) _).
  vm_compute. reflexivity.
Defined.

(** The sample plan with its day numbered -1. *)
Definition misnumbered_plan : TripPlan :=
  with_days sample_plan
    (map (fun d => mkDayPlan (day_date d) (-1) (day_description d) (day_transportation d)
                     (day_accommodation d) (day_hotel d) (day_attractions d) (day_meals d))
       (plan_days sample_plan)).

(** Where validation was due, the decision itself raises. *)
Example misnumbered_plan_raises :
  decide_next_action 8
    (on_evals (fun e => e <| ev_validation := None |>) (checked_state sample_plan (from_issues [] 7))) = Ok VALIDATE_PLAN
  ∧ decide_next_action 8
    (on_evals (fun e => e <| ev_validation := None |>) (checked_state misnumbered_plan (from_issues [] 7))) = Err ValidationError.
Proof. split; vm_compute; reflexivity. Qed.

Lemma negative_day_index_never_validated_witness :
  decide_next_action 8 (checked_state misnumbered_plan (from_issues [] 7)) ≠ Ok VALIDATE_PLAN
  ∧ decide_next_action 8 (checked_state misnumbered_plan (from_issues [] 7)) ≠ Ok FINISH.
Proof.
  assert (Hnever : ∀ act, decide_next_action 8 (checked_state misnumbered_plan (from_issues [] 7)) = Ok act →
            act ∉ [VALIDATE_PLAN; REPAIR_PLAN; FINISH]).
  { refine (negative_day_index_never_validated 8 (checked_state misnumbered_plan (from_issues [] 7))
            misnumbered_plan
            (mkDayPlan "2025-06-01" (-1) "故宫" "公共交通" "经济型酒店" None
               (concat (map day_attractions (plan_days sample_plan))) [])
            (mkAttraction "故宫" "景山前街4号" (mkLocation (1164 # 10) (399 # 10)) 180 "宫殿" None None
               None (Some "B000A8UIN8") None 60) _ _ _ _ _ _).
    + reflexivity.
    + left.
    + reflexivity.
    + reflexivity.
    + vm_compute. discriminate.
    + reflexivity. }
  split; intros Hd; apply (Hnever _ Hd); repeat (first [left|right]).
Defined.
End Concrete.
