(* ===== verification/AgentAnalysis.v ===== *)
(** The derived data of a session and its local evaluations
    (src/app/agent_runtime/orchestrator.py): what a change of the plan
    invalidates, how a rollback restores it, and the refresh methods.

    The evaluators, optimisers and the validator are components of their own;
    the orchestrator uses them through [PlanningServices].  A method works on
    the mutable state and may raise in the middle: [Step] keeps what was
    assigned before the exception. *)

From S2P Require Import Prelude PyData TripSchema AmapModels PlanReports PlanRoutes PlanContent OrderedDict.
From S2P Require Import ToolModels AgentState Convergence AgentDecision.
From Stdlib Require Import ZArith QArith Lia String.
From stdpp Require Import base tactics option list strings.

Open Scope string_scope.
Open Scope Z_scope.

(** ** The components behind the orchestrator *)

Class PlanningServices := {
  sv_evaluate_route_quality : TripPlan → RouteEstimateResult → result exn RouteQualityReport;
  sv_evaluate_commute : TripRequest → TripPlan → json → result exn CommuteConstraintReport;
  sv_evaluate_schedule :
    TripRequest → TripPlan → RouteEstimateResult → result exn ScheduleQualityReport;
  sv_evaluate_constraints :
    TripRequest → TripPlan → ScheduleQualityReport → option json → option json →
    result exn TripConstraintReport;
  sv_validate :
    datetime → TripRequest → TripPlan → option json → option json → option json → option json →
    option ScheduleQualityReport → option TripConstraintReport → result exn TripValidationResult;
  sv_optimize_routes : TripPlan → result exn (option PlanCandidate);
  sv_optimize_schedule :
    TripRequest → TripPlan → ScheduleQualityReport → result exn (option PlanCandidate);
  sv_optimize_constraints :
    TripRequest → TripPlan → TripConstraintReport → option json → option json →
    result exn (option PlanCandidate);
  sv_optimize_commute :
    TripRequest → TripPlan → CommuteConstraintReport → option json → list string →
    result exn (option PlanCandidate);
  sv_refill : TripRequest → TripPlan → option json → list string → result exn (option PlanCandidate);
  sv_build_query :
    TripRequest → TripPlan → CommuteConstraintReport → Z →
    result exn (option CommuteSupplementQuery);
  sv_build_refill_query : TripRequest → TripPlan → Z → result exn (option CommuteSupplementQuery);
  sv_merge_pool : option json → NearbySearchResult → result exn CandidatePoolMergeResult;
  sv_rebuild :
    TripRequest → TripPlan → json → option ScheduleQualityReport → option json →
    result exn TripPlan
}.

(** The numbers of the constructor the loop uses. *)
Record OrchestratorSettings := mkOrchestratorSettings {
  oc_max_attempts_per_action : Z;
  oc_route_min_improvement_percent : Q;
  oc_schedule_min_improvement_percent : Q;
  oc_constraint_min_improvement_percent : Q
}.

(** ** State with exceptions *)

Definition Step (A : Type) : Type := AgentState → result exn A * AgentState.

#[export] Instance step_ret : MRet Step := fun A a s => (Ok a, s).
#[export] Instance step_bind : MBind Step := fun A B k m s =>
  match m s with
  | (Ok a, s') => k a s'
  | (Err e, s') => (Err e, s')
  end.

Definition fail {A} (e : exn) : Step A := fun s => (Err e, s).
Definition modify (f : AgentState → AgentState) : Step unit := fun s => (Ok tt, f s).
Definition gets {A} (f : AgentState → A) : Step A := fun s => (Ok (f s), s).
Definition lift {A} (r : result exn A) : Step A := fun s => (r, s).
Definition require {A} (o : option A) (msg : string) : Step A :=
  match o with Some a => mret a | None => fail (ValueError msg) end.

(** A step is its state change when it does not raise. *)
Lemma step_bind_Ok {A B} (m : Step A) (k : A → Step B) s b s' :
  (m ≫= k) s = (Ok b, s') ↔ ∃ a s1, m s = (Ok a, s1) ∧ k a s1 = (Ok b, s').
Proof.
  unfold mbind, step_bind. destruct (m s) as [[a|e] s1]; [naive_solver|].
  split; [done|]. intros (a & s2 & H & _). done.
Qed.

(** ** Invalidation *)

Definition invalidate_evaluation_fingerprints (keys : list string) (s : AgentState) : AgentState :=
  on_evals (fun e =>
    let e := e <| ev_input_fingerprints := foldl (fun d k => od_pop k d) (ev_input_fingerprints e) keys |> in
    if existsb (String.eqb "validation") keys
    then e <| ev_acceptance := None |> <| ev_completion_mode := None |>
           <| ev_completion_warnings := [] |>
    else e) s.

(** Candidate and baseline of an optimisation. *)
Definition clear_baseline (o : Optimization) : Optimization :=
  mkOptimization (op_count o) (op_status o) None None None None None None None None None
    (op_supplement_count o) (op_excluded o).

Definition on_route (f : Optimization → Optimization) : AgentState → AgentState :=
  on_opts (fun o => o <| os_route := f (os_route o) |>).
Definition on_commute (f : Optimization → Optimization) : AgentState → AgentState :=
  on_opts (fun o => o <| os_commute := f (os_commute o) |>).
Definition on_schedule (f : Optimization → Optimization) : AgentState → AgentState :=
  on_opts (fun o => o <| os_schedule := f (os_schedule o) |>).
Definition on_constraints (f : Optimization → Optimization) : AgentState → AgentState :=
  on_opts (fun o => o <| os_constraints := f (os_constraints o) |>).
Definition on_refill (f : Optimization → Optimization) : AgentState → AgentState :=
  on_opts (fun o => o <| os_refill := f (os_refill o) |>).

Definition set_status (s : OptStatus) (o : Optimization) : Optimization := o <| op_status := s |>.
Definition reset_count (o : Optimization) : Optimization := o <| op_count := 0 |>.

Definition clear_commute_analysis (reset_optimization_count : bool) (s : AgentState) : AgentState :=
  let s := invalidate_evaluation_fingerprints ["commute"; "validation"] s in
  let s := on_evals (fun e => e <| ev_commute := None |> <| ev_commute_fingerprint := None |>) s in
  let s := on_opts (fun o => o <| os_supplement_query := None |>) s in
  let s := on_commute (fun o => clear_baseline (set_status not_started o)) s in
  if reset_optimization_count
  then on_commute (fun o => o <| op_count := 0 |> <| op_supplement_count := 0 |>
                              <| op_excluded := [] |>) s
  else s.

Definition clear_constraint_analysis (reset_optimization_count : bool) (s : AgentState) : AgentState :=
  let s := invalidate_evaluation_fingerprints ["constraints"; "validation"] s in
  let s := on_evals (fun e => e <| ev_constraints := None |> <| ev_constraints_fingerprint := None |>) s in
  let s := on_constraints (fun o => clear_baseline (set_status not_started o)) s in
  if reset_optimization_count then on_constraints reset_count s else s.

(** The route snapshot with its score, and the schedule built on it. *)
Definition forget_routes (s : AgentState) : AgentState :=
  on_evals (fun e => e <| ev_route_quality := None |> <| ev_route_quality_fingerprint := None |>
                       <| ev_schedule := None |> <| ev_schedule_fingerprint := None |>)
    (on_facts (fun f => f <| fa_route_estimates := None |> <| fa_route_plan_fingerprint := None |>) s).

Definition forget_commute_report (s : AgentState) : AgentState :=
  on_evals (fun e => e <| ev_commute := None |> <| ev_commute_fingerprint := None |>) s.
Definition forget_constraint_report (s : AgentState) : AgentState :=
  on_evals (fun e => e <| ev_constraints := None |> <| ev_constraints_fingerprint := None |>) s.
Definition forget_content (s : AgentState) : AgentState :=
  on_evals (fun e => e <| ev_plan_consistency_fingerprint := None |>) s.
Definition forget_validation (s : AgentState) : AgentState :=
  on_evals (fun e => e <| ev_validation := None |>) s.

Definition clear_route_analysis (reset_optimization_count : bool) (s : AgentState) : AgentState :=
  let s := invalidate_evaluation_fingerprints
             ["route_quality"; "commute"; "schedule"; "constraints"; "validation"] s in
  let s := forget_routes s in
  let s := on_route (fun o => clear_baseline (set_status not_started o)) s in
  let s := clear_commute_analysis reset_optimization_count s in
  let s := on_schedule (fun o => clear_baseline (set_status not_started o)) s in
  let s := clear_constraint_analysis reset_optimization_count s in
  let s := if reset_optimization_count then on_schedule reset_count (on_route reset_count s) else s in
  forget_validation (forget_content s).

Definition set_plan (p : TripPlan) (s : AgentState) : AgentState :=
  on_facts (fun f => f <| fa_trip_plan := Some p |>) s.

(** [_record_local_*_action] *)
Definition record_local (a : AgentAction) (reason : string) (attempt : Z) (s : AgentState)
    : AgentState :=
  append_record (new_record (lc_current_step (st_life s)) a reason attempt true) s.

Section Analysis.
Context `{HashEnv} `{PydanticModels} `{PlanningServices}.

Definition bind_input (key fp : string) (s : AgentState) : AgentState :=
  on_evals (fun e => e <| ev_input_fingerprints := od_set key fp (ev_input_fingerprints e) |>) s.

(** The input fingerprints of a state with plan [p]. *)
Definition route_input_of (p : TripPlan) (s : AgentState) : string :=
  route_quality_input_fingerprint (st_request s) p (fa_route_estimates (st_facts s)).
Definition commute_input_of (p : TripPlan) (s : AgentState) : string :=
  commute_input_fingerprint (st_request s) p (fa_route_estimates (st_facts s)).
Definition schedule_input_of (p : TripPlan) (s : AgentState) : string :=
  schedule_input_fingerprint (st_request s) p (fa_route_estimates (st_facts s)).

Definition evaluation_keys : list string :=
  ["route_quality"; "commute"; "schedule"; "constraints"; "validation"].

(** [_synchronize_evaluation_fingerprints] *)
Definition synchronize_evaluation_fingerprints (s : AgentState) : AgentState :=
  let s := on_evals (fun e => e <| ev_input_fingerprints :=
             foldl (fun d k => od_pop k d) (ev_input_fingerprints e) evaluation_keys |>) s in
  match fa_trip_plan (st_facts s), fa_route_estimates (st_facts s) with
  | Some p, Some _ =>
      let fp := route_fingerprint (st_request s) p in
      let s := if is_some (ev_route_quality (st_evals s))
                  && fingerprint_is (ev_route_quality_fingerprint (st_evals s)) fp
               then bind_input "route_quality" (route_input_of p s) s else s in
      let s := if is_some (ev_commute (st_evals s))
                  && fingerprint_is (ev_commute_fingerprint (st_evals s)) fp
               then bind_input "commute" (commute_input_of p s) s else s in
      let s := if is_some (ev_schedule (st_evals s))
                  && fingerprint_is (ev_schedule_fingerprint (st_evals s)) fp
               then bind_input "schedule" (schedule_input_of p s) s else s in
      if is_some (ev_constraints (st_evals s)) && is_some (ev_schedule (st_evals s))
         && fingerprint_is (ev_constraints_fingerprint (st_evals s))
              (constraint_fingerprint (st_request s) p)
      then bind_input "constraints" (constraint_input_of s) s else s
  | _, _ => s
  end.

(** ** Refreshing the reports *)

Definition plan_and_routes (msg : string) : Step (TripPlan * json) :=
  f ← gets st_facts;
  match fa_trip_plan f, fa_route_estimates f with
  | Some p, Some routes => mret (p, routes)
  | _, _ => fail (ValueError msg)
  end.

(** The stored snapshot, checked against the current plan. *)
Definition current_routes (p : TripPlan) (routes : json) : Step RouteEstimateResult :=
  r ← lift (pm_routes routes);
  fp ← gets (fun s => route_fingerprint (st_request s) p);
  if String.eqb (rr_plan_fingerprint r) fp then mret r
  else fail (ValueError "Route estimates do not match the current trip plan").

Definition refresh_route_quality : Step RouteQualityReport :=
  '(p, routes) ← plan_and_routes "Trip plan and route estimates are required for scoring";
  r ← current_routes p routes;
  report ← lift (sv_evaluate_route_quality p r);
  _ ← modify (fun s => on_evals (fun e => e <| ev_route_quality := Some report |>
        <| ev_route_quality_fingerprint := Some (route_fingerprint (st_request s) p) |>) s);
  _ ← modify (fun s => bind_input "route_quality" (route_input_of p s) s);
  mret report.

Definition refresh_schedule_quality : Step ScheduleQualityReport :=
  '(p, routes) ← plan_and_routes "Trip plan and route estimates are required for schedule scoring";
  r ← current_routes p routes;
  req ← gets st_request;
  report ← lift (sv_evaluate_schedule req p r);
  _ ← modify (fun s => on_evals (fun e => e <| ev_schedule := Some report |>
        <| ev_schedule_fingerprint := Some (route_fingerprint (st_request s) p) |>) s);
  _ ← modify (fun s => bind_input "schedule" (schedule_input_of p s) s);
  _ ← modify (fun s =>
        if status_is (os_schedule (st_opts s)) not_started && negb (sq_optimization_recommended report)
        then on_schedule (set_status opt_skipped) s else s);
  mret report.

(** A new report on another plan reopens a closed commute phase. *)
Definition update_commute_status (report : CommuteConstraintReport) (same_plan : bool)
    (s : AgentState) : AgentState :=
  let o := os_commute (st_opts s) in
  if cm_optimization_recommended report && negb same_plan
     && (status_is o opt_completed || status_is o opt_skipped)
  then on_commute (set_status not_started) s
  else if status_is o not_started && negb (cm_optimization_recommended report)
  then on_commute (set_status opt_skipped) s
  else s.

Definition refresh_commute_report : Step CommuteConstraintReport :=
  '(p, routes) ← plan_and_routes "Trip plan and route estimates are required for commute evaluation";
  req ← gets st_request;
  let fp := route_fingerprint req p in
  report ← lift (sv_evaluate_commute req p routes);
  if negb (String.eqb (cm_plan_fingerprint report) fp)
  then fail (ValueError "Commute report does not match the current trip plan")
  else
    same_plan ← gets (fun s => fingerprint_is (ev_commute_fingerprint (st_evals s)) fp);
    _ ← modify (on_evals (fun e => e <| ev_commute := Some report |>
                                     <| ev_commute_fingerprint := Some fp |>));
    _ ← modify (fun s => bind_input "commute" (commute_input_of p s) s);
    _ ← modify (update_commute_status report same_plan);
    mret report.

Definition refresh_constraint_report : Step TripConstraintReport :=
  s ← gets (fun s => s);
  match fa_trip_plan (st_facts s), ev_schedule (st_evals s) with
  | Some p, Some schedule =>
      let fp := constraint_fingerprint (st_request s) p in
      report ← lift (sv_evaluate_constraints (st_request s) p schedule (fa_attractions (st_facts s))
                       (fa_weather (st_facts s)));
      if negb (String.eqb (ct_plan_fingerprint report) fp)
      then fail (ValueError "Constraint report does not match the current trip plan")
      else
        _ ← modify (on_evals (fun e => e <| ev_constraints := Some report |>
                                         <| ev_constraints_fingerprint := Some fp |>));
        _ ← modify (fun s => bind_input "constraints" (constraint_input_of s) s);
        _ ← modify (fun s =>
              if status_is (os_constraints (st_opts s)) not_started
                 && negb (ct_optimization_recommended report)
              then on_constraints (set_status opt_skipped) s else s);
        mret report
  | _, _ =>
      fail (ValueError "Trip plan and schedule report are required for constraint evaluation")
  end.

Definition evaluate_commute (reason : string) (attempt : Z) : Step unit :=
  _ ← refresh_commute_report; modify (record_local EVALUATE_COMMUTE reason attempt).
Definition evaluate_schedule (reason : string) (attempt : Z) : Step unit :=
  _ ← refresh_schedule_quality; modify (record_local EVALUATE_SCHEDULE reason attempt).
Definition evaluate_constraints (reason : string) (attempt : Z) : Step unit :=
  _ ← refresh_constraint_report; modify (record_local EVALUATE_CONSTRAINTS reason attempt).
End Analysis.
