(* ===== verification/AgentPhases.v ===== *)
(** The local optimisation phases (src/app/agent_runtime/orchestrator.py):
    route order, remote attractions, cross-day schedule, constraints, refill of
    attractions, and the rebuild of the derived content.

    Each optimisation has two turns.  The first one asks an optimiser for a
    candidate, keeps the current plan with its reports as the baseline and puts
    the candidate in its place; the second one, after the candidate's real
    routes and reports are in, accepts it or restores the baseline.  The
    append-only histories of the phases are not part of the modelled state. *)

From S2P Require Import Prelude FloatMath PyData TripSchema AmapModels PlanReports PlanRoutes PlanContent OrderedDict.
From S2P Require Import ToolModels AgentState Convergence AgentDecision AgentAnalysis.
From Stdlib Require Import ZArith QArith Lia String.
From stdpp Require Import base tactics option list strings.

Open Scope string_scope.
Open Scope Z_scope.

(** [round(x, 2)] *)
Definition round_2 (q : Q) : Q := round_n 2 q.

(** The three [*_improvement_percent] methods. *)
Definition improvement_percent (before after : Q) : Q :=
  if Qle_bool before 0 then 0 else round_2 ((before - after) / before * 100).

Definition is_route_quality_improvement (before after : RouteQualityReport) (minimum : Q) : bool :=
  Qlt_bool (rq_optimization_cost after) (rq_optimization_cost before)
  && Qle_bool minimum (improvement_percent (rq_optimization_cost before) (rq_optimization_cost after))
  && (rq_unavailable_legs after <=? rq_unavailable_legs before)
  && (rq_excessive_duration_legs after <=? rq_excessive_duration_legs before).

(** [bool(d)] of a dict. *)
Definition truthy (j : json) : bool :=
  match j with JObj [] | JNull => false | _ => true end.

(** Put a plan back together with its route snapshot and score. *)
Definition restore_routes (p : TripPlan) (routes : json) (fp : string) (rq : RouteQualityReport)
    (s : AgentState) : AgentState :=
  on_evals (fun e => e <| ev_route_quality := Some rq |> <| ev_route_quality_fingerprint := Some fp |>)
    (on_facts (fun f => f <| fa_trip_plan := Some p |> <| fa_route_estimates := Some routes |>
                          <| fa_route_plan_fingerprint := Some fp |>) s).
Definition restore_schedule (sq : ScheduleQualityReport) (fp : string) (s : AgentState) : AgentState :=
  on_evals (fun e => e <| ev_schedule := Some sq |> <| ev_schedule_fingerprint := Some fp |>) s.
Definition restore_commute (r : CommuteConstraintReport) (fp : string) (s : AgentState) : AgentState :=
  on_evals (fun e => e <| ev_commute := Some r |> <| ev_commute_fingerprint := Some fp |>) s.
Definition restore_constraints (r : TripConstraintReport) (fp : string) (s : AgentState) : AgentState :=
  on_evals (fun e => e <| ev_constraints := Some r |> <| ev_constraints_fingerprint := Some fp |>) s.

(** The attempt count goes up and the candidate is pending. *)
Definition count_pending (o : Optimization) : Optimization :=
  o <| op_count := op_count o + 1 |> <| op_status := candidate_pending |>.

Section Phases.
Context `{HashEnv} `{PydanticModels} `{PlanningServices}.
Context (cfg : OrchestratorSettings).

(** ** Route order *)

(** The stored report when it is about the current plan, else a fresh one. *)
Definition route_report (fp : string) : Step RouteQualityReport :=
  e ← gets st_evals;
  match ev_route_quality e with
  | Some r => if fingerprint_is (ev_route_quality_fingerprint e) fp then mret r
              else refresh_route_quality
  | None => refresh_route_quality
  end.

Definition route_baseline (o : Optimization)
    : option (TripPlan * json * RouteQualityReport * string * PlanCandidate) :=
  match op_baseline_plan o, op_baseline_routes o, op_baseline_route_quality o,
        op_baseline_route_fingerprint o, op_candidate o with
  | Some p, Some routes, Some rq, Some fp, Some c =>
      if truthy routes && negb (String.eqb fp "") then Some (p, routes, rq, fp, c) else None
  | _, _, _, _, _ => None
  end.

Definition verify_routes (report : RouteQualityReport) (reason : string) (attempt : Z) : Step unit :=
  o ← gets (fun s => os_route (st_opts s));
  '(bp, broutes, bq, bfp, c) ← require (route_baseline o)
                                  "Pending route optimization is missing baseline data";
  _ ← (if is_route_quality_improvement bq report (oc_route_min_improvement_percent cfg)
       then mret tt
       else
         _ ← modify (restore_routes bp broutes bfp bq);
         _ ← modify (fun s => bind_input "route_quality" (route_input_of bp s) s);
         _ ← modify (on_schedule (set_status not_started));
         _ ← refresh_schedule_quality;
         modify synchronize_evaluation_fingerprints);
  _ ← modify (on_route (fun o => clear_baseline (set_status opt_completed o)));
  _ ← modify forget_validation;
  modify (record_local OPTIMIZE_ROUTES reason attempt).

Definition propose_routes (p : TripPlan) (routes : json) (report : RouteQualityReport) (fp : string)
    (c : PlanCandidate) (s : AgentState) : AgentState :=
  let s := on_route (fun o => o <| op_baseline_plan := Some p |> <| op_baseline_routes := Some routes |>
             <| op_baseline_route_quality := Some report |> <| op_baseline_route_fingerprint := Some fp |>
             <| op_candidate := Some c |>) s in
  let s := set_plan (cand_plan c) s in
  let s := forget_content (clear_commute_analysis false s) in
  let s := forget_routes (on_route count_pending s) in
  let s := on_schedule (fun o => clear_baseline (set_status not_started o)) s in
  forget_validation (clear_constraint_analysis false s).

Definition optimize_routes (reason : string) (attempt : Z) : Step unit :=
  '(p, routes) ← plan_and_routes "Trip plan and route estimates are required for optimization";
  fp ← gets (fun s => route_fingerprint (st_request s) p);
  report ← route_report fp;
  s ← gets (fun s => s);
  let o := os_route (st_opts s) in
  let skip := _ ← modify (on_route (set_status opt_skipped));
              modify (record_local OPTIMIZE_ROUTES reason attempt) in
  if status_is o candidate_pending then verify_routes report reason attempt
  else if eb_max_route_optimization_attempts (st_budget s) <=? op_count o then skip
  else if negb (rq_optimization_recommended report) then skip
  else
    candidate ← lift (sv_optimize_routes p);
    match candidate with
    | None => skip
    | Some c =>
        _ ← modify (propose_routes p routes report fp c);
        modify (record_local OPTIMIZE_ROUTES reason attempt)
    end.

(** ** Remote attractions *)

(** ["".join(name.lower().split())] *)
Definition squashed_lower (s : string) : string := squash (ascii_lower s).

Definition still_excessive (replacement : string) (r : CommuteConstraintReport) : bool :=
  existsb (fun i => existsb (String.eqb (squashed_lower replacement))
                      [squashed_lower (ci_origin_name i); squashed_lower (ci_destination_name i);
                       squashed_lower (ci_target_attraction_name i)]) (cm_issues r).

Record CommuteBaseline := mkCommuteBaseline {
  cb_plan : TripPlan; cb_routes : json; cb_route_quality : RouteQualityReport;
  cb_report : CommuteConstraintReport; cb_schedule : ScheduleQualityReport;
  cb_constraints : TripConstraintReport; cb_route_fingerprint : string;
  cb_constraint_fingerprint : string; cb_candidate : PlanCandidate
}.

Definition commute_baseline (o : Optimization) : option CommuteBaseline :=
  p ← op_baseline_plan o; routes ← op_baseline_routes o; rq ← op_baseline_route_quality o;
  report ← op_baseline_commute o; sq ← op_baseline_schedule o; ct ← op_baseline_constraints o;
  rfp ← op_baseline_route_fingerprint o; cfp ← op_baseline_constraint_fingerprint o;
  c ← op_candidate o; mret (mkCommuteBaseline p routes rq report sq ct rfp cfp c).

(** The four reports of the current plan. *)
Record CurrentReports := mkReports {
  cr_route_quality : RouteQualityReport; cr_commute : CommuteConstraintReport;
  cr_schedule : ScheduleQualityReport; cr_constraints : TripConstraintReport
}.
Definition current_reports (e : Evaluations) : option CurrentReports :=
  rq ← ev_route_quality e; cm ← ev_commute e; sq ← ev_schedule e; ct ← ev_constraints e;
  mret (mkReports rq cm sq ct).

Definition commute_accepted (p : TripPlan) (b : CommuteBaseline) (r : CurrentReports) : bool :=
  (rq_unavailable_legs (cr_route_quality r) <=? rq_unavailable_legs (cb_route_quality b))
  && ((cm_excessive_segment_count (cr_commute r) <? cm_excessive_segment_count (cb_report b))
      && (cm_max_duration_seconds (cr_commute r) <? cm_max_duration_seconds (cb_report b)))
  && negb (still_excessive (default "" (head (cand_names (cb_candidate b)))) (cr_commute r))
  && ((sq_total_overtime_minutes (cr_schedule r) =? 0) && (sq_infeasible_days (cr_schedule r) =? 0))
  && (ct_error_count (cr_constraints r) =? 0)
  && (count_attractions p =? count_attractions (cb_plan b)).

(** ["not_started"] while attempts are left. *)
Definition again_or_skip (count limit : Z) : OptStatus :=
  if count <? limit then not_started else opt_skipped.

Definition exclude (identity : string) (o : Optimization) : Optimization :=
  if existsb (String.eqb identity) (op_excluded o) then o
  else o <| op_excluded := (op_excluded o ++ [identity])%list |>.

Definition candidate_identity (c : PlanCandidate) : string :=
  content_identity (head (cand_ids c)) (default "" (head (cand_names c))).

Definition restore_commute_baseline (b : CommuteBaseline) (s : AgentState) : AgentState :=
  let rfp := cb_route_fingerprint b in
  let s := restore_routes (cb_plan b) (cb_routes b) rfp (cb_route_quality b) s in
  let s := restore_schedule (cb_schedule b) rfp (restore_commute (cb_report b) rfp s) in
  synchronize_evaluation_fingerprints
    (restore_constraints (cb_constraints b) (cb_constraint_fingerprint b) s).

Definition verify_replacement (p : TripPlan) (b : CommuteBaseline) (r : CurrentReports)
    (s : AgentState) : AgentState :=
  let next := again_or_skip (op_count (os_commute (st_opts s)))
                (eb_max_commute_replacement_attempts (st_budget s)) in
  let s :=
    if commute_accepted p b r
    then on_commute (set_status (if cm_optimization_recommended (cr_commute r) then next
                                 else opt_completed)) s
    else on_commute (set_status next)
           (restore_commute_baseline b
              (on_commute (exclude (candidate_identity (cb_candidate b))) s)) in
  on_commute clear_baseline (forget_validation (forget_content s)).

Definition propose_replacement (p : TripPlan) (routes : json) (r : CurrentReports)
    (rfp cfp : string) (c : PlanCandidate) (s : AgentState) : AgentState :=
  let s := on_commute (fun o => o
             <| op_baseline_plan := Some p |> <| op_baseline_routes := Some routes |>
             <| op_baseline_route_quality := Some (cr_route_quality r) |>
             <| op_baseline_commute := Some (cr_commute r) |>
             <| op_baseline_schedule := Some (cr_schedule r) |>
             <| op_baseline_constraints := Some (cr_constraints r) |>
             <| op_baseline_route_fingerprint := Some rfp |>
             <| op_baseline_constraint_fingerprint := Some cfp |>
             <| op_candidate := Some c |>) s in
  let s := on_commute count_pending (set_plan (cand_plan c) s) in
  forget_validation (forget_content (forget_constraint_report (forget_commute_report (forget_routes s)))).

Definition replace_remote_attraction (reason : string) (attempt : Z) : Step unit :=
  '(p, routes) ← plan_and_routes "Trip plan and route estimates are required for commute replacement";
  e ← gets st_evals;
  r ← require (current_reports e) "Route, commute, schedule and constraint reports are required";
  s ← gets (fun s => s);
  let o := os_commute (st_opts s) in
  let record := modify (record_local REPLACE_REMOTE_ATTRACTION reason attempt) in
  let skip := _ ← modify (on_commute (set_status opt_skipped)); record in
  if status_is o candidate_pending then
    b ← require (commute_baseline o) "Pending commute replacement is missing verification data";
    _ ← modify (verify_replacement p b r); record
  else if eb_max_commute_replacement_attempts (st_budget s) <=? op_count o then skip
  else
    candidate ← lift (sv_optimize_commute (st_request s) p (cr_commute r) (fa_attractions (st_facts s))
                        (op_excluded o));
    match candidate with
    | Some c =>
        _ ← modify (propose_replacement p routes r (route_fingerprint (st_request s) p)
                      (constraint_fingerprint (st_request s) p) c);
        record
    | None =>
        query ← (if op_supplement_count o <? eb_max_commute_supplement_searches (st_budget s)
                 then lift (sv_build_query (st_request s) p (cr_commute r) (op_supplement_count o))
                 else mret None);
        match query with
        | Some q =>
            _ ← modify (on_opts (fun os => os <| os_supplement_query := Some q |>));
            _ ← modify (on_commute (set_status supplement_needed)); record
        | None => skip
        end
    end.

(** [_handle_failed_attraction_supplement] *)
Definition handle_failed_attraction_supplement (s : AgentState) : AgentState :=
  let counted (o : Optimization) :=
    if is_some (os_supplement_query (st_opts s))
    then o <| op_supplement_count := op_supplement_count o + 1 |> else o in
  let s' :=
    if status_is (os_refill (st_opts s)) supplement_needed
    then on_refill (fun o => set_status not_started (counted o)) s
    else on_commute (fun o => set_status opt_skipped (counted o)) s in
  on_opts (fun os => os <| os_supplement_query := None |>) s'.

(** ** Cross-day schedule *)

Definition schedule_report (fp : string) : Step ScheduleQualityReport :=
  e ← gets st_evals;
  match ev_schedule e with
  | Some r => if fingerprint_is (ev_schedule_fingerprint e) fp then mret r
              else refresh_schedule_quality
  | None => refresh_schedule_quality
  end.

Definition routes_no_worse (before after : RouteQualityReport) : bool :=
  (rq_unavailable_legs after <=? rq_unavailable_legs before)
  && (rq_excessive_duration_legs after <=? rq_excessive_duration_legs before).

Definition schedule_no_worse (before after : ScheduleQualityReport) : bool :=
  (sq_total_overtime_minutes after <=? sq_total_overtime_minutes before)
  && (sq_infeasible_days after <=? sq_infeasible_days before)
  && (sq_fallback_route_legs after <=? sq_fallback_route_legs before).

Definition schedule_accepted (before after : ScheduleQualityReport) (rq_before rq : RouteQualityReport)
    : bool :=
  Qlt_bool (sq_optimization_cost after) (sq_optimization_cost before)
  && Qle_bool (oc_schedule_min_improvement_percent cfg)
       (improvement_percent (sq_optimization_cost before) (sq_optimization_cost after))
  && schedule_no_worse before after && routes_no_worse rq_before rq.

Definition schedule_baseline (o : Optimization)
    : option (TripPlan * json * RouteQualityReport * ScheduleQualityReport * string) :=
  p ← op_baseline_plan o; routes ← op_baseline_routes o; rq ← op_baseline_route_quality o;
  sq ← op_baseline_schedule o; fp ← op_baseline_route_fingerprint o; _ ← op_candidate o;
  mret (p, routes, rq, sq, fp).

Definition verify_schedule (bp : TripPlan) (broutes : json) (brq rq : RouteQualityReport)
    (bsq sq : ScheduleQualityReport) (bfp : string) (s : AgentState) : AgentState :=
  let s := if schedule_accepted bsq sq brq rq then s
           else synchronize_evaluation_fingerprints
                  (restore_schedule bsq bfp (restore_routes bp broutes bfp brq s)) in
  forget_validation (on_schedule (fun o => clear_baseline (set_status opt_completed o)) s).

Definition propose_schedule (p : TripPlan) (routes : json) (rq : RouteQualityReport)
    (sq : ScheduleQualityReport) (fp : string) (c : PlanCandidate) (s : AgentState) : AgentState :=
  let s := on_schedule (fun o => o
             <| op_baseline_plan := Some p |> <| op_baseline_routes := Some routes |>
             <| op_baseline_route_quality := Some rq |> <| op_baseline_schedule := Some sq |>
             <| op_baseline_route_fingerprint := Some fp |> <| op_candidate := Some c |>) s in
  let s := forget_content (clear_commute_analysis false (set_plan (cand_plan c) s)) in
  forget_validation (clear_constraint_analysis false (forget_routes (on_schedule count_pending s))).

Definition optimize_schedule (reason : string) (attempt : Z) : Step unit :=
  '(p, routes) ← plan_and_routes "Trip plan and route estimates are required for schedule optimization";
  fp ← gets (fun s => route_fingerprint (st_request s) p);
  report ← schedule_report fp;
  s ← gets (fun s => s);
  let o := os_schedule (st_opts s) in
  let record := modify (record_local OPTIMIZE_SCHEDULE reason attempt) in
  let skip := _ ← modify (on_schedule (set_status opt_skipped)); record in
  if status_is o candidate_pending then
    '(bp, broutes, brq, bsq, bfp) ← require (schedule_baseline o)
                                      "Pending schedule optimization is missing baseline data";
    rq ← require (ev_route_quality (st_evals s)) "Candidate route quality is missing";
    _ ← modify (verify_schedule bp broutes brq rq bsq report bfp); record
  else if eb_max_schedule_optimization_attempts (st_budget s) <=? op_count o then skip
  else if negb (sq_optimization_recommended report) then skip
  else
    candidate ← lift (sv_optimize_schedule (st_request s) p report);
    match candidate with
    | None => skip
    | Some c =>
        rq ← require (ev_route_quality (st_evals s))
               "Baseline route quality is required for schedule optimization";
        _ ← modify (propose_schedule p routes rq report fp c); record
    end.

(** ** Constraints *)

Definition constraint_report (fp : string) : Step TripConstraintReport :=
  e ← gets st_evals;
  match ev_constraints e with
  | Some r => if fingerprint_is (ev_constraints_fingerprint e) fp then mret r
              else refresh_constraint_report
  | None => refresh_constraint_report
  end.

Definition constraints_accepted (before after : TripConstraintReport)
    (rq_before rq : RouteQualityReport) (sq_before sq : ScheduleQualityReport) : bool :=
  Qlt_bool (ct_optimization_cost after) (ct_optimization_cost before)
  && Qle_bool (oc_constraint_min_improvement_percent cfg)
       (improvement_percent (ct_optimization_cost before) (ct_optimization_cost after))
  && (ct_error_count after <=? ct_error_count before)
  && routes_no_worse rq_before rq && schedule_no_worse sq_before sq.

Definition constraint_baseline (o : Optimization)
    : option (TripPlan * json * RouteQualityReport * ScheduleQualityReport * TripConstraintReport
              * string) :=
  p ← op_baseline_plan o; routes ← op_baseline_routes o; rq ← op_baseline_route_quality o;
  sq ← op_baseline_schedule o; ct ← op_baseline_constraints o;
  fp ← op_baseline_constraint_fingerprint o; _ ← op_candidate o;
  mret (p, routes, rq, sq, ct, fp).

Definition verify_constraints (bp : TripPlan) (broutes : json) (brq rq : RouteQualityReport)
    (bsq sq : ScheduleQualityReport) (bct ct : TripConstraintReport) (bfp : string)
    (s : AgentState) : AgentState :=
  let s :=
    if constraints_accepted bct ct brq rq bsq sq then s
    else
      let rfp := route_fingerprint (st_request s) bp in
      synchronize_evaluation_fingerprints
        (restore_constraints bct bfp (restore_schedule bsq rfp (restore_routes bp broutes rfp brq s))) in
  forget_validation (on_constraints (fun o => clear_baseline (set_status opt_completed o)) s).

Definition propose_constraints (p : TripPlan) (routes : json) (rq : RouteQualityReport)
    (sq : ScheduleQualityReport) (ct : TripConstraintReport) (fp : string) (c : PlanCandidate)
    (s : AgentState) : AgentState :=
  let s := on_constraints (fun o => o
             <| op_baseline_plan := Some p |> <| op_baseline_routes := Some routes |>
             <| op_baseline_route_quality := Some rq |> <| op_baseline_schedule := Some sq |>
             <| op_baseline_constraints := Some ct |>
             <| op_baseline_constraint_fingerprint := Some fp |> <| op_candidate := Some c |>) s in
  let s := forget_content (clear_commute_analysis false (set_plan (cand_plan c) s)) in
  forget_validation (forget_constraint_report (forget_routes (on_constraints count_pending s))).

Definition optimize_constraints (reason : string) (attempt : Z) : Step unit :=
  '(p, routes) ← plan_and_routes
                   "Trip plan and route estimates are required for constraint optimization";
  e ← gets st_evals;
  rq ← require (ev_route_quality e) "Route and schedule quality are required for constraint optimization";
  sq ← require (ev_schedule e) "Route and schedule quality are required for constraint optimization";
  fp ← gets (fun s => constraint_fingerprint (st_request s) p);
  report ← constraint_report fp;
  s ← gets (fun s => s);
  let o := os_constraints (st_opts s) in
  let record := modify (record_local OPTIMIZE_CONSTRAINTS reason attempt) in
  let skip := _ ← modify (on_constraints (set_status opt_skipped)); record in
  if status_is o candidate_pending then
    '(bp, broutes, brq, bsq, bct, bfp) ← require (constraint_baseline o)
        "Pending constraint optimization is missing baseline data";
    _ ← modify (verify_constraints bp broutes brq rq bsq sq bct report bfp); record
  else if eb_max_constraint_optimization_attempts (st_budget s) <=? op_count o then skip
  else if negb (ct_optimization_recommended report) then skip
  else
    candidate ← lift (sv_optimize_constraints (st_request s) p report (fa_attractions (st_facts s))
                        (fa_weather (st_facts s)));
    match candidate with
    | None => skip
    | Some c => _ ← modify (propose_constraints p routes rq sq report fp c); record
    end.

(** ** Refill *)

Record RefillBaseline := mkRefillBaseline {
  rb_plan : TripPlan; rb_routes : json; rb_route_quality : RouteQualityReport;
  rb_schedule : ScheduleQualityReport; rb_constraints : TripConstraintReport;
  rb_route_fingerprint : string; rb_constraint_fingerprint : string; rb_candidate : PlanCandidate
}.

Definition refill_baseline (o : Optimization) : option RefillBaseline :=
  p ← op_baseline_plan o; routes ← op_baseline_routes o; rq ← op_baseline_route_quality o;
  sq ← op_baseline_schedule o; ct ← op_baseline_constraints o;
  rfp ← op_baseline_route_fingerprint o; cfp ← op_baseline_constraint_fingerprint o;
  c ← op_candidate o; mret (mkRefillBaseline p routes rq sq ct rfp cfp c).

Definition refill_reports (e : Evaluations)
    : option (RouteQualityReport * ScheduleQualityReport * TripConstraintReport) :=
  rq ← ev_route_quality e; sq ← ev_schedule e; ct ← ev_constraints e; mret (rq, sq, ct).

Definition refill_accepted (required : Z) (p : TripPlan) (b : RefillBaseline) (rq : RouteQualityReport)
    (sq : ScheduleQualityReport) (ct : TripConstraintReport) : bool :=
  routes_no_worse (rb_route_quality b) rq
  && ((sq_total_overtime_minutes sq =? 0) && (sq_infeasible_days sq =? 0))
  && (ct_error_count ct =? 0) && (required <=? count_attractions p).

(** [zip(added_attraction_names, added_attraction_ids)] *)
Definition exclude_added (c : PlanCandidate) (o : Optimization) : Optimization :=
  foldl (fun o ni => exclude (content_identity (Some ni.2) ni.1) o) o
    (zip (cand_names c) (cand_ids c)).

Definition verify_refill (required : Z) (p : TripPlan) (b : RefillBaseline) (rq : RouteQualityReport)
    (sq : ScheduleQualityReport) (ct : TripConstraintReport) (s : AgentState) : AgentState :=
  let s :=
    if refill_accepted required p b rq sq ct then on_refill (set_status opt_completed) s
    else
      let s := on_refill (exclude_added (rb_candidate b)) s in
      let rfp := rb_route_fingerprint b in
      let s := restore_schedule (rb_schedule b) rfp
                 (restore_routes (rb_plan b) (rb_routes b) rfp (rb_route_quality b) s) in
      let s := synchronize_evaluation_fingerprints
                 (restore_constraints (rb_constraints b) (rb_constraint_fingerprint b) s) in
      on_refill (set_status (again_or_skip (op_count (os_refill (st_opts s)))
                               (eb_max_content_refill_attempts (st_budget s)))) s in
  forget_validation (forget_content (on_refill clear_baseline s)).

Definition propose_refill (p : TripPlan) (routes : json) (rq : RouteQualityReport)
    (sq : ScheduleQualityReport) (ct : TripConstraintReport) (rfp cfp : string) (c : PlanCandidate)
    (s : AgentState) : AgentState :=
  let s := on_refill (fun o => o
             <| op_baseline_plan := Some p |> <| op_baseline_routes := Some routes |>
             <| op_baseline_route_quality := Some rq |> <| op_baseline_schedule := Some sq |>
             <| op_baseline_constraints := Some ct |>
             <| op_baseline_route_fingerprint := Some rfp |>
             <| op_baseline_constraint_fingerprint := Some cfp |> <| op_candidate := Some c |>) s in
  let s := on_refill count_pending (clear_commute_analysis false (set_plan (cand_plan c) s)) in
  forget_validation (forget_content (forget_constraint_report (forget_routes s))).

Definition refill_attractions (reason : string) (attempt : Z) : Step unit :=
  s ← gets (fun s => s);
  p ← require (fa_trip_plan (st_facts s)) "Trip plan is required for attraction refill";
  let required := required_attractions s in
  let o := os_refill (st_opts s) in
  let record := modify (record_local REFILL_ATTRACTIONS reason attempt) in
  let skip := _ ← modify (on_refill (set_status opt_skipped)); record in
  if status_is o candidate_pending then
    b ← require (refill_baseline o) "Pending content refill is missing verification data";
    '(rq, sq, ct) ← require (refill_reports (st_evals s))
                      "Pending content refill is missing verification data";
    _ ← modify (verify_refill required p b rq sq ct); record
  else if required <=? count_attractions p then
    _ ← modify (on_refill (set_status opt_completed)); record
  else if eb_max_content_refill_attempts (st_budget s) <=? op_count o then skip
  else
    routes ← require (fa_route_estimates (st_facts s))
               "Current route, schedule and constraint reports are required";
    '(rq, sq, ct) ← require (refill_reports (st_evals s))
                      "Current route, schedule and constraint reports are required";
    candidate ← lift (sv_refill (st_request s) p (fa_attractions (st_facts s)) (op_excluded o));
    match candidate with
    | Some c =>
        _ ← modify (propose_refill p routes rq sq ct (route_fingerprint (st_request s) p)
                      (constraint_fingerprint (st_request s) p) c);
        record
    | None =>
        query ← (if op_supplement_count o <? eb_max_commute_supplement_searches (st_budget s)
                 then lift (sv_build_refill_query (st_request s) p (op_supplement_count o))
                 else mret None);
        match query with
        | Some q =>
            _ ← modify (on_opts (fun os => os <| os_supplement_query := Some q |>));
            _ ← modify (on_refill (set_status supplement_needed)); record
        | None => skip
        end
    end.

(** ** Rebuild of the content *)

Definition rebuild_plan_content (reason : string) (attempt : Z) : Step unit :=
  '(p, routes) ← plan_and_routes "Trip plan and route estimates are required for rebuilding";
  s ← gets (fun s => s);
  let before := route_fingerprint (st_request s) p in
  rebuilt ← lift (sv_rebuild (st_request s) p routes (ev_schedule (st_evals s))
                    (fa_restaurants (st_facts s)));
  if negb (String.eqb (route_fingerprint (st_request s) rebuilt) before)
  then fail (ValueError "Consistency rebuild unexpectedly changed route inputs")
  else
    _ ← modify (set_plan rebuilt);
    content_fp ← lift (content_fingerprint_of s (Some routes) (ev_schedule (st_evals s))
                         (fa_restaurants (st_facts s)) rebuilt);
    _ ← modify (on_evals (fun e => e <| ev_plan_consistency_fingerprint := Some content_fp |>
                                     <| ev_validation := None |>));
    modify (record_local REBUILD_PLAN_CONTENT reason attempt).
End Phases.
