(* ===== verification/CheckpointPolicy.v ===== *)
(** [CheckpointPolicy] (src/app/agent_runtime/checkpoint_policy.py): saving a
    checkpoint with a bounded number of retries on SQLite lock contention.
    [save k] is the outcome of the [k]-th call of the store, [None] when it
    succeeds; the sleeps only take time. *)

From S2P Require Import Prelude PyData.
From Stdlib Require Import ZArith QArith Lia Lqa String.
From stdpp Require Import base tactics option list strings.

Open Scope string_scope.
Open Scope Z_scope.

(** An exception of the store: whether it is an [OperationalError], and its text. *)
Record SaveError := mkSaveError { se_operational : bool; se_text : string }.

Record CheckpointSettings := mkCheckpointSettings {
  cp_max_attempts : Z;
  cp_base_delay_seconds : Q;
  cp_max_delay_seconds : Q
}.

Definition checkpoint_settings_ok (c : CheckpointSettings) : bool :=
  (1 <=? cp_max_attempts c) && Qle_bool 0 (cp_base_delay_seconds c)
  && Qle_bool 0 (cp_max_delay_seconds c)
  && Qle_bool (cp_base_delay_seconds c) (cp_max_delay_seconds c).

(** [CheckpointRetryEvent] *)
Record RetryEvent := mkRetryEvent {
  ret_attempt : Z; ret_max_attempts : Z; ret_delay_seconds : Q; ret_error : string
}.

Definition is_transient_lock_error (e : SaveError) : bool :=
  se_operational e
  && (let message := squeeze (ascii_lower (se_text e)) in
      str_contains "database is locked" message || str_contains "database is busy" message).

Definition retry_delay (c : CheckpointSettings) (attempt : Z) : Q :=
  fmin (cp_max_delay_seconds c) (cp_base_delay_seconds c * inject_Z (2 ^ (attempt - 1))).

(** The loop from [attempt] on; [calls] is the number of calls that remain. *)
Fixpoint save_from (c : CheckpointSettings) (save : Z → option SaveError) (calls : nat) (attempt : Z)
    : option SaveError * list RetryEvent :=
  match calls with
  | O => (None, [])
  | S calls =>
      match save attempt with
      | None => (None, [])
      | Some e =>
          if negb (is_transient_lock_error e) || (cp_max_attempts c <=? attempt) then (Some e, [])
          else
            let event := mkRetryEvent attempt (cp_max_attempts c) (retry_delay c attempt)
                           (py_take 500 (squeeze (se_text e))) in
            let '(r, events) := save_from c save calls (attempt + 1) in
            (r, event :: events)
      end
  end.

(** [save]: the exception that leaves it, and the retries it noted. *)
Definition checkpoint_save (c : CheckpointSettings) (save : Z → option SaveError)
    : option SaveError * list RetryEvent :=
  save_from c save (Z.to_nat (cp_max_attempts c)) 1.

(** ** What the policy promises *)

Lemma save_from_spec c save calls attempt r events :
  0 < attempt → cp_max_attempts c = attempt + Z.of_nat calls - 1 → (0 < calls)%nat →
  save_from c save calls attempt = (r, events) →
  ∃ n : nat, length events = n ∧ (n < calls)%nat
    ∧ (∀ i : nat, (i < n)%nat → ∃ e, save (attempt + Z.of_nat i) = Some e
                                  ∧ is_transient_lock_error e = true)
    ∧ save (attempt + Z.of_nat n) = r
    ∧ (∀ e, r = Some e → is_transient_lock_error e = true → Z.of_nat n = Z.of_nat calls - 1)
    ∧ Forall (fun ev => ret_delay_seconds ev = retry_delay c (ret_attempt ev)) events.
Proof.
  revert attempt r events. induction calls as [|calls IH]; intros attempt r events Hpos Hmax Hcalls; [lia|].
  cbn [save_from]. destruct (save attempt) as [e|] eqn:Es.
  - destruct (is_transient_lock_error e) eqn:Et; simpl.
    + destruct (Z.leb_spec (cp_max_attempts c) attempt).
      * intros [= <- <-]. exists O. rewrite Z.add_0_r. repeat split; auto; lia.
      * destruct (save_from c save calls (attempt + 1)) as [r' events'] eqn:Er. intros [= <- <-].
        destruct (IH (attempt + 1) r' events' ltac:(lia) ltac:(lia) ltac:(lia) Er)
          as (n & Hn & Hlt & Hfail & Hlast & Hexh & Hev).
        exists (S n). split; [by rewrite <- Hn|]. split; [lia|]. split; [|split; [|split]].
        -- intros [|i] Hi; [rewrite Z.add_0_r; eauto|].
           destruct (Hfail i ltac:(lia)) as (e' & He' & Ht'). exists e'. split; [|done].
           rewrite <- He'. f_equal. lia.
        -- rewrite <- Hlast. f_equal. lia.
        -- intros e' Hr He'. specialize (Hexh e' Hr He'). lia.
        -- by constructor.
    + intros [= <- <-]. exists O. rewrite Z.add_0_r. repeat split; auto; try lia.
      intros e' [= <-]. congruence.
  - intros [= <- <-]. exists O. rewrite Z.add_0_r. repeat split; auto; try lia; done.
Qed.

(** a checkpoint is retried only while the database is locked, at most
    [max_attempts - 1] times: the save succeeds exactly when one of the allowed
    calls does and all calls before it met a lock; an error that is not a lock
    ends it at once; no wait exceeds the configured maximum. *)
Theorem checkpoint_retries_bounded c save :
  checkpoint_settings_ok c = true →
  let '(r, events) := checkpoint_save c save in
  ∃ n : nat,
    length events = n ∧ Z.of_nat n < cp_max_attempts c
    ∧ (∀ i : nat, (i < n)%nat → ∃ e, save (1 + Z.of_nat i) = Some e ∧ is_transient_lock_error e = true)
    ∧ save (1 + Z.of_nat n) = r
    ∧ (∀ e, r = Some e → is_transient_lock_error e = true → Z.of_nat n = cp_max_attempts c - 1)
    ∧ Forall (fun ev => (ret_delay_seconds ev <= cp_max_delay_seconds c)%Q) events.
Proof.
  unfold checkpoint_settings_ok. rewrite !andb_true_iff, !Qle_bool_iff, Z.leb_le.
  intros [[[Hmax _] _] _]. unfold checkpoint_save.
  destruct (save_from c save _ 1) as [r events] eqn:E.
  destruct (save_from_spec c save (Z.to_nat (cp_max_attempts c)) 1 r events ltac:(lia) ltac:(lia) ltac:(lia) E)
    as (n & Hn & Hlt & Hfail & Hlast & Hexh & Hev).
  exists n. split; [done|]. split; [lia|]. split; [done|]. split; [done|]. split.
  - intros e Hr He. specialize (Hexh e Hr He). lia.
  - eapply Forall_impl; [exact Hev|]. intros ev ->. apply fmin_l.
Qed.

(** A database that is locked twice. *)
Definition locked_twice (k : Z) : option SaveError :=
  if k <=? 2 then Some (mkSaveError true "Database  is LOCKED") else None.

Lemma checkpoint_retries_bounded_witness :
  ∃ n : nat, length (checkpoint_save (mkCheckpointSettings 3 (1 # 20) (1 # 2)) locked_twice).2 = n
    ∧ Z.of_nat n < 3 ∧ (checkpoint_save (mkCheckpointSettings 3 (1 # 20) (1 # 2)) locked_twice).1 = None.
Proof.
  pose proof (checkpoint_retries_bounded (mkCheckpointSettings 3 (1 # 20) (1 # 2)) locked_twice eq_refl) as H.
  assert (E : (checkpoint_save (mkCheckpointSettings 3 (1 # 20) (1 # 2)) locked_twice).1 = None)
    by (vm_compute; reflexivity).
  destruct (checkpoint_save _ _) as [r events]. destruct H as (n & Hn & Hlt & _).
  exists n. split; [exact Hn|]. split; [exact Hlt|exact E].
Defined.
