(* ===== verification/Acceptance.v ===== *)
(** [PartialAcceptancePolicy] (src/app/agent_runtime/acceptance.py): whether a
    plan that does not pass every check may still be delivered. *)

From S2P Require Import Prelude FloatMath PyData TripSchema AmapModels PlanReports OrderedDict ToolModels AgentState.
From Stdlib Require Import ZArith QArith Lia Lqa String.
From stdpp Require Import base tactics option list strings sorting.

Open Scope string_scope.
Open Scope Z_scope.

(** [list(dict.fromkeys(l))] *)
Fixpoint dedup_from (seen l : list string) : list string :=
  match l with
  | [] => []
  | x :: l => if existsb (String.eqb x) seen then dedup_from seen l
              else x :: dedup_from (x :: seen) l
  end.
Definition fromkeys (l : list string) : list string := dedup_from [] l.

(** [round(x, 2)] *)
Definition round2 (q : Q) : Q := round_n 2 q.

(** Whether an optional report exists and a count of it stays within a limit. *)
Definition within {R} (count : R → Z) (limit : Z) (o : option R) : bool :=
  match o with Some r => count r <=? limit | None => false end.

Section Evaluate.
Context (st : AgentState) (v : TripValidationResult).

Let b := st_budget st.
Let req := st_request st.
Let ev := st_evals st.

Definition identity_ok (plan : TripPlan) : bool :=
  String.eqb (plan_city plan) (req_city req)
  && String.eqb (plan_start_date plan) (req_start_date req)
  && String.eqb (plan_end_date plan) (req_end_date req).

Definition day_count_ok (plan : TripPlan) : bool :=
  (Z.of_nat (length (plan_days plan)) =? req_travel_days req)
  && (0 <? Z.of_nat (length (plan_days plan))).

Definition day_covered (d : DayPlan) : bool :=
  eb_partial_acceptance_min_attractions_per_day b <=? Z.of_nat (length (day_attractions d)).

Definition coverage_ok (plan : TripPlan) : bool := forallb day_covered (plan_days plan).

Definition routes_ok : bool :=
  within rq_unavailable_legs (eb_partial_acceptance_max_unavailable_route_legs b)
    (ev_route_quality ev).
Definition schedule_ok : bool :=
  within sq_total_overtime_minutes (eb_partial_acceptance_max_schedule_overtime_minutes b)
    (ev_schedule ev).
Definition commute_ok : bool :=
  within cm_excessive_segment_count (eb_partial_acceptance_max_excessive_commute_segments b)
    (ev_commute ev).
Definition constraints_ok : bool :=
  within ct_error_count (eb_partial_acceptance_max_constraint_errors b) (ev_constraints ev).

Definition disallowed_errors : list ValidationIssue :=
  filter (fun i => existsb (String.eqb (vi_code i)) (eb_partial_acceptance_allowed_error_codes b)
                   = false)
    (validation_errors (vr_issues v)).

Definition validation_ok : bool :=
  (Z.of_nat (length (validation_errors (vr_issues v)))
     <=? eb_partial_acceptance_max_validation_errors b)
  && bool_decide (disallowed_errors = []).

Definition core_checks (plan : TripPlan) : list (string * bool) :=
  [("plan_identity", identity_ok plan); ("day_count", day_count_ok plan);
   ("minimum_attractions_per_day", coverage_ok plan); ("route_availability", routes_ok);
   ("schedule_overtime", schedule_ok); ("commute_limit", commute_ok);
   ("execution_constraints", constraints_ok); ("validation_allowlist", validation_ok)].

Definition blocking_reasons (plan : TripPlan) : list string :=
  let reason (ok : bool) (msg : string) := if ok then [] else [msg] in
  (reason (identity_ok plan) "城市或起止日期与用户请求不一致"
   ++ reason (day_count_ok plan) "行程天数不完整"
   ++ reason (coverage_ok plan)
        ("至少一天少于 " ++ str_of_Z (eb_partial_acceptance_min_attractions_per_day b) ++ " 个景点")%string
   ++ reason routes_ok "不可用路线分段超过允许上限"
   ++ reason schedule_ok "日程超时超过允许上限"
   ++ reason commute_ok "过长通勤分段超过允许上限"
   ++ reason constraints_ok "仍存在阻断执行的约束错误"
   ++ reason validation_ok
        ("存在不可降级接受的校验错误："
         ++ (let codes := String.concat ", "
                            (sorted_strings (fromkeys (vi_code <$> disallowed_errors))) in
             if String.eqb codes "" then "错误数量超过上限" else codes))%string)%list.

Definition score_of {R} (f : R → Q) (o : option R) : Q :=
  match o with Some r => f r | None => 0%Q end.

Definition validation_score : Q :=
  fmax 0 (100 - inject_Z (Z.of_nat (length (validation_errors (vr_issues v)))) * 12
          - inject_Z (Z.of_nat (length (validation_warnings (vr_issues v)))) * 2).

Definition content_score (plan : TripPlan) : Q :=
  100 * inject_Z (Z.of_nat (length (filter (fun d => day_covered d = true) (plan_days plan))))
  / inject_Z (Z.max 1 (Z.of_nat (length (plan_days plan)))).

Definition quality_score (plan : TripPlan) : Q :=
  round2 ((score_of rq_quality_score (ev_route_quality ev)
           + score_of sq_quality_score (ev_schedule ev)
           + score_of ct_quality_score (ev_constraints ev)
           + validation_score + content_score plan) / 5).

Definition evaluate : PartialAcceptanceReport :=
  match fa_trip_plan (st_facts st) with
  | None =>
      mkAcceptance false false UNUSABLE 0 "尚未生成结构化行程" [] ["缺少旅行计划"] [] []
  | Some plan =>
      let checks := core_checks plan in
      let score := quality_score plan in
      let warnings := validation_warnings (vr_issues v) in
      let messages := fromkeys (vi_message <$>
                        (validation_errors (vr_issues v) ++ warnings)%list) in
      let unresolved := fromkeys (vi_code <$> vr_issues v) in
      if vr_valid v then
        mkAcceptance true false
          (if Qle_bool 90 score && bool_decide (warnings = []) then EXCELLENT else ACCEPTABLE)
          score "行程已通过完整校验" checks [] messages unresolved
      else if eb_partial_acceptance_enabled b && forallb snd checks
              && Qle_bool (eb_partial_acceptance_min_score b) score then
        mkAcceptance true true ACCEPTABLE score
          "核心可执行性约束已满足，仅保留允许降级的非关键问题" checks [] messages unresolved
      else
        mkAcceptance false false
          (if identity_ok plan && day_count_ok plan then DEGRADED else UNUSABLE) score
          "当前结果尚未达到最低可接受标准" checks (blocking_reasons plan) messages unresolved
  end.
End Evaluate.

(** ** Guarantees *)

(** The scores of the reports lie between 0 and 100, as their fields require. *)
Definition scores_ok (st : AgentState) : Prop :=
  (0 <= score_of rq_quality_score (ev_route_quality (st_evals st)) <= 100)%Q
  ∧ (0 <= score_of sq_quality_score (ev_schedule (st_evals st)) <= 100)%Q
  ∧ (0 <= score_of ct_quality_score (ev_constraints (st_evals st)) <= 100)%Q.

Lemma content_score_bounds st plan : (0 <= content_score st plan <= 100)%Q.
Proof.
  unfold content_score.
  pose proof (length_filter (fun d => day_covered st d = true) (plan_days plan)) as Hlen.
  set (k := length (filter _ _)) in *. set (n := length (plan_days plan)) in *.
  assert (Hn : (0 < inject_Z (Z.max 1 (Z.of_nat n)))%Q).
  { change 0%Q with (inject_Z 0). rewrite <- Zlt_Qlt. lia. }
  assert (Hk : (0 <= inject_Z (Z.of_nat k))%Q).
  { change 0%Q with (inject_Z 0). rewrite <- Zle_Qle. lia. }
  assert (Hkn : (inject_Z (Z.of_nat k) <= inject_Z (Z.max 1 (Z.of_nat n)))%Q).
  { rewrite <- Zle_Qle. lia. }
  split; [apply Qle_shift_div_l; [done|lra]|apply Qle_shift_div_r; [done|lra]].
Qed.

Lemma validation_score_bounds v : (0 <= validation_score v <= 100)%Q.
Proof.
  unfold validation_score.
  assert (H : ∀ n : nat, (0 <= inject_Z (Z.of_nat n))%Q).
  { intros n. change 0%Q with (inject_Z 0). rewrite <- Zle_Qle. lia. }
  pose proof (H (length (validation_errors (vr_issues v)))).
  pose proof (H (length (validation_warnings (vr_issues v)))). split; float_cases.
Qed.

Lemma quality_score_bounds st v plan : scores_ok st → (0 <= quality_score st v plan <= 100)%Q.
Proof.
  intros (H1 & H2 & H3). pose proof (content_score_bounds st plan) as H4.
  pose proof (validation_score_bounds v) as H5. unfold quality_score.
  set (s := (_ / 5)%Q).
  assert (Hs : (0 <= s <= 100)%Q).
  { unfold s. split; [apply Qle_shift_div_l; lra|apply Qle_shift_div_r; lra]. }
  split; [apply (round_n_mono_Z 2 0); apply Hs|apply (round_n_mono_Z_upper 2 100); apply Hs].
Qed.

Lemma within_true {R} (count : R → Z) limit o :
  within count limit o = true ↔ ∃ r, o = Some r ∧ count r <= limit.
Proof.
  destruct o as [r|]; simpl; [rewrite Z.leb_le|]; naive_solver.
Qed.

Lemma disallowed_errors_nil st v :
  disallowed_errors st v = [] →
  ∀ i, i ∈ validation_errors (vr_issues v) →
    vi_code i ∈ eb_partial_acceptance_allowed_error_codes (st_budget st).
Proof.
  unfold disallowed_errors. intros H i Hi.
  destruct (existsb (String.eqb (vi_code i)) (eb_partial_acceptance_allowed_error_codes (st_budget st))) eqn:E.
  - apply existsb_exists in E as (c & Hc & Heq). apply String.eqb_eq in Heq. subst.
    by apply list_elem_of_In.
  - exfalso. apply (not_elem_of_nil i). rewrite <- H.
    apply list_elem_of_filter. done.
Qed.

(** C37: what is delivered although validation failed is executable: the plan is
    the one asked for, day by day, its routes, timetable, commutes and
    constraints were all evaluated and are within the budget's limits, every
    error left is on the allow list, and the score reaches the minimum and
    stays between 0 and 100. *)
Theorem partial_acceptance_sound st v :
  scores_ok st → vr_valid v = false → pa_accepted (evaluate st v) = true →
  let b := st_budget st in
  ∃ plan rq sq cm ct,
    fa_trip_plan (st_facts st) = Some plan
    ∧ plan_city plan = req_city (st_request st)
    ∧ plan_start_date plan = req_start_date (st_request st)
    ∧ plan_end_date plan = req_end_date (st_request st)
    ∧ Z.of_nat (length (plan_days plan)) = req_travel_days (st_request st)
    ∧ Forall (fun d => eb_partial_acceptance_min_attractions_per_day b
                       <= Z.of_nat (length (day_attractions d))) (plan_days plan)
    ∧ ev_route_quality (st_evals st) = Some rq
    ∧ rq_unavailable_legs rq <= eb_partial_acceptance_max_unavailable_route_legs b
    ∧ ev_schedule (st_evals st) = Some sq
    ∧ sq_total_overtime_minutes sq <= eb_partial_acceptance_max_schedule_overtime_minutes b
    ∧ ev_commute (st_evals st) = Some cm
    ∧ cm_excessive_segment_count cm <= eb_partial_acceptance_max_excessive_commute_segments b
    ∧ ev_constraints (st_evals st) = Some ct
    ∧ ct_error_count ct <= eb_partial_acceptance_max_constraint_errors b
    ∧ (∀ i, i ∈ vr_issues v → vi_severity i = SevError →
         vi_code i ∈ eb_partial_acceptance_allowed_error_codes b)
    ∧ pa_partial (evaluate st v) = true
    ∧ (eb_partial_acceptance_min_score b <= pa_quality_score (evaluate st v) <= 100)%Q.
Proof.
  intros Hsc Hv Hacc b. unfold evaluate in *.
  destruct (fa_trip_plan (st_facts st)) as [plan|]; [|done]. rewrite Hv in *.
  destruct (_ && _ && _) eqn:E; [|done]. clear Hacc. simpl.
  apply andb_true_iff in E as [E Hmin]. apply andb_true_iff in E as [_ Hcore].
  simpl in Hcore. rewrite !andb_true_iff in Hcore.
  destruct Hcore as (Hid & Hdays & Hcov & Hr & Hs & Hc & Hct & Hval & _).
  unfold identity_ok in Hid. rewrite !andb_true_iff, !String.eqb_eq in Hid.
  unfold day_count_ok in Hdays. rewrite andb_true_iff, Z.eqb_eq in Hdays.
  apply within_true in Hr as (rq & Hrq & Hr). apply within_true in Hs as (sq & Hsq & Hs).
  apply within_true in Hc as (cm & Hcm & Hc). apply within_true in Hct as (ct & Hctr & Hct).
  unfold validation_ok in Hval. rewrite andb_true_iff, bool_decide_eq_true in Hval.
  exists plan, rq, sq, cm, ct. destruct Hid as [[? ?] ?].
  repeat (split; [first [done|tauto]|]). split.
  { unfold coverage_ok in Hcov. rewrite forallb_forall in Hcov. apply Forall_forall.
    intros d Hd%list_elem_of_In. apply Hcov in Hd. by apply Z.leb_le in Hd. }
  repeat (split; [first [done|tauto]|]). split.
  { intros i Hi Hsev. eapply disallowed_errors_nil; [apply Hval|]. by apply list_elem_of_filter. }
  split; [done|]. split; [by apply Qle_bool_iff|]. by apply quality_score_bounds.
Qed.

(** A plan with one error of the allow list left. *)
Definition overtime_issue : ValidationIssue :=
  mkIssue "schedule.daily_overtime" SevError "days[0]" "日程超时" "" true JNull JNull.

Definition degraded_state : AgentState :=
  on_evals (fun e => e
      <| ev_route_quality := Some (mkRouteQuality "f" 2 2 0 9000 1800 0 0 0 90 false []) |>
      <| ev_schedule := Some (mkScheduleQuality "f" 0 1 30 0 30 0 80 false []) |>
      <| ev_commute := Some (mkCommuteReport "f" 2 0 900 0 false [] []) |>
      <| ev_constraints := Some (mkConstraintReport "f" 0 1 0 0 85 true false [] []) |>)
    (on_facts (fun f => f <| fa_trip_plan := Some sample_plan |>) sample_state).

Lemma partial_acceptance_sound_witness :
  pa_partial (evaluate degraded_state (from_issues [overtime_issue] 0%Z)) = true
  ∧ (70 <= pa_quality_score (evaluate degraded_state (from_issues [overtime_issue] 0%Z)) <= 100)%Q.
Proof.
  refine (match partial_acceptance_sound degraded_state (from_issues [overtime_issue] 0%Z) _ _ _ with
          | ex_intro _ _ (ex_intro _ _ (ex_intro _ _ (ex_intro _ _ (ex_intro _ _ H)))) => _
          end).
  - repeat split; vm_compute; discriminate.
  - vm_compute. reflexivity.
  - vm_compute. reflexivity.
  - split; apply H.
Defined.
