(* ===== verification/ExecutionPolicy.v ===== *)
(** [ExecutionPolicy] (src/app/agent_runtime/execution_policy.py): budgets
    before a tool call, the circuit breaker around it, and the retry decision
    after it.  Clock readings, the random jitter and the answers of the tools
    are arguments; [fmt_g] and [fmt_2f] are Python's float formats [g] and
    [.2f]. *)

From S2P Require Import Prelude PyData TripSchema AmapModels PlanReports OrderedDict ToolModels Circuit AgentState.
From Stdlib Require Import ZArith QArith Lia Lqa String.
From stdpp Require Import base tactics option list gmap strings.

Open Scope string_scope.
Open Scope Z_scope.

Record RetryDecision := mkRetry {
  rd_should_retry : bool;
  rd_delay_seconds : Q;
  rd_stop_reason : option string;
  rd_budget_reason : option string
}.

Record RetrySettings := mkRetrySettings {
  retry_base_delay_seconds : Q;
  retry_max_delay_seconds : Q;
  retry_jitter_seconds : Q
}.

Definition retry_settings_ok (s : RetrySettings) : bool :=
  Qle_bool 0 (retry_base_delay_seconds s) && Qle_bool 0 (retry_max_delay_seconds s)
  && Qle_bool 0 (retry_jitter_seconds s).

Section Policy.
Context (fmt_g fmt_2f : Q → string).

(** [runtime_budget_reason]: refreshes the duration, then compares with the
    absolute deadline. *)
Definition runtime_budget_reason (now : datetime) (st : AgentState)
    : option string * AgentState :=
  let st := refresh_duration now st in
  (match lc_deadline_at (st_life st) with
   | Some deadline =>
       if deadline <=? now
       then Some ("智能体达到最大执行时长 " ++ fmt_g (eb_max_duration_seconds (st_budget st)) ++ " 秒")
       else None
   | None => None
   end, st).

(** [_pre_call_budget_reason] *)
Definition pre_call_budget_reason (now : datetime) (cost : Z) (st : AgentState)
    : option string * AgentState :=
  let '(reason, st) := runtime_budget_reason now st in
  (match reason with
   | Some r => Some r
   | None =>
       if eb_max_tool_calls (st_budget st) <? us_tool_call_count (st_usage st) + 1
       then Some ("智能体达到最大工具调用次数 " ++ str_of_Z (eb_max_tool_calls (st_budget st)))
       else if eb_max_llm_calls (st_budget st) <? us_llm_call_count (st_usage st) + cost
       then Some ("智能体达到最大 LLM 调用次数 " ++ str_of_Z (eb_max_llm_calls (st_budget st)))
       else None
   end, st).

Definition count_call (cost : Z) (st : AgentState) : AgentState :=
  on_usage (fun u => u <| us_tool_call_count := us_tool_call_count u + 1 |>
                       <| us_llm_call_count := us_llm_call_count u + cost |>) st.

Definition budget_exceeded_result (tool reason : string) : ActionResult :=
  mkActionResult tool false None (Some reason) (Some BUDGET_EXCEEDED) false 0 0 None None None.

Definition circuit_open_result (tool : string) (p : CircuitPermit) : ActionResult :=
  mkActionResult tool false None
    (Some ("工具 " ++ tool ++ " 的熔断器处于 " ++ circuit_value (permit_state p) ++ " 状态，"
           ++ "请在约 " ++ fmt_2f (permit_retry_after_seconds p) ++ " 秒后重试"))
    (Some CIRCUIT_OPEN) false 0
    (Z.max 0 (py_round (permit_retry_after_seconds p * 1000)))
    (Some (circuit_value (permit_state p))) None None.

(** [execute_once]: [call] is [registry.execute] on the payload; it answers a
    result or lets a control signal of the task runtime through. *)
Definition execute_once (cost : Z) (call : result control_signal ActionResult)
    (now : datetime) (mono mono' : Q) (tool : string) (st : AgentState) (cb : CircuitBreaker)
    : result control_signal ActionResult * AgentState * CircuitBreaker :=
  let '(reason, st) := pre_call_budget_reason now cost st in
  match reason with
  | Some r => (Ok (budget_exceeded_result tool r), mark_budget_exhausted r st, cb)
  | None =>
      let '(permit, cb) := before_call tool mono cb in
      if negb (permit_allowed permit) then (Ok (circuit_open_result tool permit), st, cb)
      else
        let st := count_call cost st in
        match call with
        | Err s => (Err s, st, cb)
        | Ok r =>
            let '(cs, cb) := record_result tool r mono' cb in
            (Ok (r <| ar_circuit_state := Some (circuit_value cs) |>), st, cb)
        end
  end.

(** [decide_retry]: [jitter] is what the random source answers. *)
Definition decide_retry (cfg : RetrySettings) (r : ActionResult) (attempt_in_run max_attempts : Z)
    (now now' : datetime) (jitter : Q) (cb : CircuitBreaker) (st : AgentState)
    : RetryDecision * AgentState :=
  let stop why := mkRetry false 0 (Some why) None in
  if negb (ar_retryable r) then (stop "result_not_retryable", st)
  else if max_attempts <=? attempt_in_run then (stop "attempt_limit_reached", st)
  else if bool_decide (state_for (ar_tool_name r) cb = OPEN) then (stop "circuit_open", st)
  else
    let '(reason, st) := runtime_budget_reason now st in
    match reason with
    | Some why => (mkRetry false 0 None (Some why), mark_budget_exhausted why st)
    | None =>
        let exponential :=
          (retry_base_delay_seconds cfg * inject_Z (2 ^ Z.max 0 (attempt_in_run - 1)))%Q in
        let delay := fmin (retry_max_delay_seconds cfg) exponential in
        let delay := if Qeq_bool (retry_jitter_seconds cfg) 0 then delay else (delay + jitter)%Q in
        if match lc_deadline_at (st_life st) with
           | Some deadline =>
               Qle_bool (inject_Z deadline / inject_Z 1000000)
                 (inject_Z now' / inject_Z 1000000 + delay)
           | None => false
           end
        then
          let why := "执行预算不足以等待下一次重试（max_duration_seconds）" in
          (mkRetry false 0 None (Some why), mark_budget_exhausted why st)
        else (mkRetry true delay None None, st)
    end.

(** ** Budgets *)

Definition within_budget (st : AgentState) : Prop :=
  us_tool_call_count (st_usage st) <= eb_max_tool_calls (st_budget st)
  ∧ us_llm_call_count (st_usage st) <= eb_max_llm_calls (st_budget st).

(** Same counters and budget. *)
Definition same_usage (st st' : AgentState) : Prop :=
  us_tool_call_count (st_usage st') = us_tool_call_count (st_usage st)
  ∧ us_llm_call_count (st_usage st') = us_llm_call_count (st_usage st)
  ∧ st_budget st' = st_budget st ∧ lc_deadline_at (st_life st') = lc_deadline_at (st_life st).

Lemma mark_budget_exhausted_usage reason st : same_usage st (mark_budget_exhausted reason st).
Proof. unfold mark_budget_exhausted, append_error_once. by destruct (existsb _ _). Qed.

Lemma runtime_reason_usage now st : same_usage st (runtime_budget_reason now st).2.
Proof. done. Qed.

Lemma pre_call_usage now cost st : same_usage st (pre_call_budget_reason now cost st).2.
Proof. done. Qed.

Lemma pre_call_none now cost st :
  (pre_call_budget_reason now cost st).1 = None →
  us_tool_call_count (st_usage st) + 1 <= eb_max_tool_calls (st_budget st)
  ∧ us_llm_call_count (st_usage st) + cost <= eb_max_llm_calls (st_budget st)
  ∧ match lc_deadline_at (st_life st) with Some deadline => now < deadline | None => True end.
Proof.
  unfold pre_call_budget_reason, runtime_budget_reason. simpl.
  destruct (lc_deadline_at (st_life st)) as [d|]; simpl.
  - destruct (Z.leb_spec d now); simpl; [done|].
    destruct (Z.ltb_spec (eb_max_tool_calls (st_budget st)) (us_tool_call_count (st_usage st) + 1)); [done|].
    destruct (Z.ltb_spec (eb_max_llm_calls (st_budget st)) (us_llm_call_count (st_usage st) + cost)); [done|].
    lia.
  - destruct (Z.ltb_spec (eb_max_tool_calls (st_budget st)) (us_tool_call_count (st_usage st) + 1)); [done|].
    destruct (Z.ltb_spec (eb_max_llm_calls (st_budget st)) (us_llm_call_count (st_usage st) + cost)); [done|].
    lia.
Qed.

(** Whether the tool was really called, and what that cost. *)
Definition calls_made (st st' : AgentState) : Z :=
  us_tool_call_count (st_usage st') - us_tool_call_count (st_usage st).

Lemma execute_once_budget cost call now mono mono' tool st cb :
  within_budget st →
  let '(r, st', cb') := execute_once cost call now mono mono' tool st cb in
  within_budget st'
  ∧ (calls_made st st' = 0 ∨ calls_made st st' = 1)
  ∧ (calls_made st st' = 0 → ∃ a, r = Ok a ∧ ar_success a = false ∧ ar_retryable a = false
       ∧ (ar_error_type a = Some BUDGET_EXCEEDED ∨ ar_error_type a = Some CIRCUIT_OPEN))
  ∧ match lc_deadline_at (st_life st) with
    | Some deadline => deadline <= now → calls_made st st' = 0 ∧ cb' = cb
    | None => True
    end.
Proof.
  intros [Ht Hl]. unfold execute_once.
  pose proof (pre_call_usage now cost st) as (Hu1 & Hu2 & Hb & Hd).
  pose proof (pre_call_none now cost st) as Hnone.
  destruct (pre_call_budget_reason now cost st) as [reason st1]. cbn [fst snd] in *.
  destruct reason as [r|].
  - pose proof (mark_budget_exhausted_usage r st1) as (Hv1 & Hv2 & Hvb & _).
    unfold within_budget, calls_made. rewrite Hv1, Hv2, Hvb, Hu1, Hu2, Hb.
    split; [done|]. split; [lia|]. split; [intros _; eexists; split; [done|]; simpl; auto|].
    destruct (lc_deadline_at (st_life st)); [|done]. split; [lia|done].
  - destruct (Hnone eq_refl) as (Hok1 & Hok2 & Hok3). clear Hnone.
    destruct (before_call tool mono cb) as [permit cb1].
    destruct (permit_allowed permit); simpl.
    + assert (Hst : within_budget (count_call cost st1) ∧ calls_made st (count_call cost st1) = 1).
      { unfold within_budget, calls_made, count_call. simpl. rewrite Hu1, Hu2, Hb. lia. }
      destruct Hst as [Hw Hc].
      destruct call as [a|s];
        [destruct (record_result tool a mono' cb1) as [cs cb2]|];
        (split; [done|]; split; [by right|]; split; [lia|];
         destruct (lc_deadline_at (st_life st)); [lia|done]).
    + unfold within_budget, calls_made. rewrite Hu1, Hu2, Hb.
      split; [done|]. split; [lia|]. split; [intros _; eexists; split; [done|]; simpl; auto|].
      destruct (lc_deadline_at (st_life st)); [lia|done].
Qed.

(** no tool call exceeds the session's budgets: whatever the tool answers or
    raises, the calls counted stay within the budget, at most one call is
    made, it is counted before it is made, and past the deadline none is. *)
Theorem execute_once_within_budget cost call now mono mono' tool st cb :
  within_budget st →
  let '(r, st', cb') := execute_once cost call now mono mono' tool st cb in
  within_budget st'
  ∧ (calls_made st st' = 0 ∨ calls_made st st' = 1)
  ∧ (calls_made st st' = 0 → ∃ a, r = Ok a ∧ ar_success a = false ∧ ar_retryable a = false
       ∧ (ar_error_type a = Some BUDGET_EXCEEDED ∨ ar_error_type a = Some CIRCUIT_OPEN))
  ∧ match lc_deadline_at (st_life st) with
    | Some deadline => deadline <= now → calls_made st st' = 0 ∧ cb' = cb
    | None => True
    end.
Proof. apply execute_once_budget. Qed.

(** a retry is bounded: it happens only after a retryable failure, below the
    attempt limit, with the circuit not open; the delay is never negative, at
    most the configured maximum plus the jitter, and it ends before the
    session's deadline. *)
Theorem retry_is_bounded cfg r attempt max_attempts now now' jitter cb st :
  retry_settings_ok cfg = true → (0 <= jitter <= retry_jitter_seconds cfg)%Q →
  let '(d, st') := decide_retry cfg r attempt max_attempts now now' jitter cb st in
  same_usage st st'
  ∧ (rd_should_retry d = true →
     ar_retryable r = true ∧ attempt < max_attempts ∧ state_for (ar_tool_name r) cb ≠ OPEN
     ∧ (0 <= rd_delay_seconds d <= retry_max_delay_seconds cfg + retry_jitter_seconds cfg)%Q
     ∧ match lc_deadline_at (st_life st) with
       | Some deadline =>
           (inject_Z now' / inject_Z 1000000 + rd_delay_seconds d < inject_Z deadline / inject_Z 1000000)%Q
       | None => True
       end).
Proof.
  intros Hcfg Hj. unfold retry_settings_ok in Hcfg.
  rewrite !andb_true_iff, !Qle_bool_iff in Hcfg. destruct Hcfg as [[Hb Hm] Hjit].
  unfold decide_retry. destruct (ar_retryable r); simpl; [|done].
  destruct (Z.leb_spec max_attempts attempt); [done|].
  case_bool_decide as Ho; [done|].
  set (reason := match lc_deadline_at (st_life st) with Some d => _ | None => _ end).
  destruct reason as [why|].
  { split; [|done]. pose proof (mark_budget_exhausted_usage why (refresh_duration now st)) as Hu. exact Hu. }
  set (exponential := (_ * inject_Z (2 ^ _))%Q).
  assert (He : (0 <= exponential)%Q).
  { unfold exponential. apply Qmult_le_0_compat; [done|].
    change 0%Q with (inject_Z 0). rewrite <- Zle_Qle. apply Z.pow_nonneg. lia. }
  set (delay := if Qeq_bool _ 0 then _ else _).
  assert (Hd : (0 <= delay <= retry_max_delay_seconds cfg + retry_jitter_seconds cfg)%Q).
  { pose proof (fmin_l (retry_max_delay_seconds cfg) exponential).
    assert (0 <= fmin (retry_max_delay_seconds cfg) exponential)%Q by float_cases.
    unfold delay. destruct (Qeq_bool _ 0); lra. }
  destruct (lc_deadline_at (st_life st)) as [deadline|] eqn:Edl.
  - destruct (Qle_bool _ _) eqn:E; simpl.
    + split; [|done].
      match goal with |- context [mark_budget_exhausted ?why _] =>
        pose proof (mark_budget_exhausted_usage why (refresh_duration now st)) as H' end. exact H'.
    + split; [done|]. intros _. repeat (split; [done|]).
      apply Qnot_le_lt. intros Hle. apply Qle_bool_iff in Hle. congruence.
  - simpl. split; [done|]. intros _. repeat (split; [done|]). done.
Qed.

(** cancelling a session during the probe of a half-open tool disables the
    tool for every session: the signal leaves [execute_once] without a result
    being recorded, and from then on, as long as nobody records one, every
    call of the tool in any session with budget left is refused as
    [CIRCUIT_OPEN], no matter how much later. *)
Theorem cancelled_probe_disables_tool cost s now mono mono' tool st cb r st' cb' :
  execute_once cost (Err s) now mono mono' tool st cb = (r, st', cb') →
  r = Err s → state_for tool cb' = HALF_OPEN →
  ∀ ops cost2 call2 now2 later later' st2,
    existsb (touches tool) ops = false →
    (pre_call_budget_reason now2 cost2 st2).1 = None →
    ∃ a st2' cb2,
      execute_once cost2 call2 now2 later later' tool st2 (circuit_run ops cb') = (Ok a, st2', cb2)
      ∧ ar_success a = false ∧ ar_retryable a = false ∧ ar_error_type a = Some CIRCUIT_OPEN
      ∧ calls_made st2 st2' = 0.
Proof.
  unfold execute_once at 1. destruct (pre_call_budget_reason now cost st) as [reason st1].
  destruct reason as [why|]; [intros [= <- _ _]; done|].
  destruct (before_call tool mono cb) as [permit cb1] eqn:Eb.
  destruct (permit_allowed permit) eqn:Ea; cbn [negb]; [|intros [= <- _ _]; done].
  intros [= <- <- <-] _ Hhalf ops cost2 call2 now2 later later' st2 Hops Hpre.
  assert (Hperm : permit_state (before_call tool mono cb).1 = HALF_OPEN).
  { rewrite Eb. simpl. revert Hhalf Ea. unfold state_for.
    revert Eb. unfold before_call, entry_before_call.
    destruct (entry_of tool cb) as [[| |] n since fl]; simpl.
    - intros [= <- <-]. rewrite entry_of_set, String.eqb_refl. done.
    - destruct (Qlt_bool _ _); intros [= <- <-]; done.
    - destruct fl; intros [= <- <-]; done. }
  pose proof (lost_probe_blocks_tool cb tool mono ops later Hperm Hops) as Hblock.
  rewrite Eb in Hblock. cbn [snd] in Hblock.
  unfold execute_once. pose proof (pre_call_usage now2 cost2 st2) as (Hu & _).
  destruct (pre_call_budget_reason now2 cost2 st2) as [reason2 st3]. cbn [fst snd] in *. subst reason2.
  destruct (before_call tool later (circuit_run ops cb1)) as [permit2 cb2]. cbn [fst] in Hblock.
  rewrite Hblock. simpl. eexists _, _, _. split; [done|]. repeat (split; [done|]).
  unfold calls_made. lia.
Qed.
End Policy.

(** ** Concrete sessions *)

Definition half_open_breaker : CircuitBreaker := circuit_run outage (mkBreaker 3 30 ∅).
Definition no_fmt (_ : Q) : string := "".

Lemma execute_once_within_budget_witness :
  within_budget (execute_once no_fmt no_fmt 1 (Ok timed_out) 5 40 41 "get_weather" sample_state
                   half_open_breaker).1.2.
Proof.
  pose proof (execute_once_within_budget no_fmt no_fmt 1 (Ok timed_out) 5 40 41 "get_weather"
                sample_state half_open_breaker) as H.
  destruct (execute_once _ _ _ _ _ _ _ _ _ _) as [[r st'] cb'].
  refine (proj1 (H _)). split; vm_compute; discriminate.
Defined.

Lemma retry_is_bounded_witness :
  let '(d, _) := decide_retry no_fmt (mkRetrySettings (1 # 2) 8 (1 # 4)) timed_out 2 3 5 6 (1 # 8)
                   (mkBreaker 3 30 ∅) sample_state in
  rd_should_retry d = true ∧ (0 <= rd_delay_seconds d <= 8 + (1 # 4))%Q.
Proof.
  pose proof (retry_is_bounded no_fmt (mkRetrySettings (1 # 2) 8 (1 # 4)) timed_out 2 3 5 6 (1 # 8)
                (mkBreaker 3 30 ∅) sample_state eq_refl) as H.
  assert (E : rd_should_retry (decide_retry no_fmt (mkRetrySettings (1 # 2) 8 (1 # 4)) timed_out 2 3
                                 5 6 (1 # 8) (mkBreaker 3 30 ∅) sample_state).1 = true)
    by (vm_compute; reflexivity).
  destruct (decide_retry _ _ _ _ _ _ _ _ _ _) as [d st']. cbn [fst] in E.
  split; [exact E|]. refine (proj1 (proj2 (proj2 (proj2 (proj2 (H _) E))))).
  split; vm_compute; discriminate.
Defined.

(** One day later the weather tool is still refused. *)
Lemma cancelled_probe_disables_tool_witness :
  ∃ a st' cb',
    execute_once no_fmt no_fmt 0 (Ok timed_out) 5 86400 86401 "get_weather" sample_state
      (circuit_run []
         (execute_once no_fmt no_fmt 0 (Err SignalCancelled) 5 40 41 "get_weather" sample_state
            half_open_breaker).2) = (Ok a, st', cb')
    ∧ ar_success a = false ∧ ar_retryable a = false ∧ ar_error_type a = Some CIRCUIT_OPEN
    ∧ calls_made sample_state st' = 0.
Proof.
  refine (cancelled_probe_disables_tool no_fmt no_fmt 0 SignalCancelled 5 40 41 "get_weather"
            sample_state half_open_breaker
            (execute_once no_fmt no_fmt 0 (Err SignalCancelled) 5 40 41 "get_weather" sample_state
               half_open_breaker).1.1
            (execute_once no_fmt no_fmt 0 (Err SignalCancelled) 5 40 41 "get_weather" sample_state
               half_open_breaker).1.2 _ _ _ _ [] 0 (Ok timed_out) 5 86400 86401 sample_state _ _);
    vm_compute; reflexivity.
Defined.
