(* ===== verification/AgentActions.v ===== *)
(** Single actions of the agent (src/app/agent_runtime/orchestrator.py): what
    a tool is given, how its answer enters the state, the final validation,
    and [execute_action] with its error paths.

    [Run] is the monad of a session: the state, the process-wide circuit
    breaker, the last checkpoint and the number of times the outside world was
    asked.  [AgentEnv] answers those questions: clocks, the runtime context
    (cancellation, lease), the tools, the random jitter and the state store. *)

From S2P Require Import Prelude PyData TripSchema AmapModels PlanReports PlanRoutes PlanContent OrderedDict.
From S2P Require Import ToolModels Circuit AgentState Convergence AgentDecision AgentAnalysis AgentPhases.
From S2P Require Import CheckpointPolicy Acceptance ExecutionPolicy.
From Stdlib Require Import ZArith QArith Lia String.
From stdpp Require Import base tactics option list strings.

Open Scope string_scope.
Open Scope Z_scope.

Inductive agent_exn :=
| RaisedExn (e : exn)
| RaisedSignal (s : control_signal)
| AgentActionError (a : AgentAction) (msg : string) (attempt : Z)
| AgentBudgetExceededError (reason : string)
| AgentConvergenceError (reason : string)
| AgentMaxStepsError (msg : string)
| AgentCheckpointError (msg : string).

(** The [n]-th question; [en_save n k] is the [k]-th call of the store for one
    checkpoint.  [en_hook] is what the runtime context raises at a check. *)
Class AgentEnv := {
  en_utc : nat → datetime;
  en_monotonic : nat → Q;
  en_hook : nat → option (exn + control_signal);
  en_tool : nat → string → json → result control_signal ActionResult;
  en_llm_call_cost : string → Z;
  en_jitter : nat → Q;
  en_save : nat → AgentState → Z → option SaveError
}.

Record AgentSettings := mkAgentSettings {
  as_orchestrator : OrchestratorSettings;
  as_retry : RetrySettings;
  as_checkpoint : CheckpointSettings;
  as_has_store : bool;
  as_max_restaurant_anchors : Z;
  as_restaurant_radius_meters : Z
}.

Record AgentWorld := mkAgentWorld {
  aw_state : AgentState;
  aw_breaker : CircuitBreaker;
  aw_saved : option AgentState;
  aw_tick : nat
}.
#[export] Instance agent_world_rebuild : Rebuild AgentWorld := fun w =>
  mkAgentWorld (aw_state w) (aw_breaker w) (aw_saved w) (aw_tick w).

Definition Run (A : Type) : Type := AgentWorld → result agent_exn A * AgentWorld.

#[export] Instance run_ret : MRet Run := fun A a w => (Ok a, w).
#[export] Instance run_bind : MBind Run := fun A B k m w =>
  match m w with
  | (Ok a, w') => k a w'
  | (Err e, w') => (Err e, w')
  end.

Definition raise {A} (e : agent_exn) : Run A := fun w => (Err e, w).
Definition update (f : AgentState → AgentState) : Run unit := fun w =>
  (Ok tt, w <| aw_state := f (aw_state w) |>).
Definition reads {A} (f : AgentState → A) : Run A := fun w => (Ok (f (aw_state w)), w).
Definition tick : Run nat := fun w => (Ok (aw_tick w), w <| aw_tick := S (aw_tick w) |>).

(** A local step; its exceptions are exceptions of the run. *)
Definition local_step {A} (m : Step A) : Run A := fun w =>
  let '(r, s) := m (aw_state w) in
  (match r with Ok a => Ok a | Err e => Err (RaisedExn e) end, w <| aw_state := s |>).

(** A local step whose exception is caught. *)
Definition try_step {A} (m : Step A) : Run (result exn A) := fun w =>
  let '(r, s) := m (aw_state w) in (Ok r, w <| aw_state := s |>).

(** [try: m finally: f] *)
Definition try_finally {A} (m : Run A) (f : Run unit) : Run A := fun w =>
  let '(r, w) := m w in
  match f w with
  | (Ok _, w) => (r, w)
  | (Err e, w) => (Err e, w)
  end.

(** [_ACTION_REASONS] *)
Definition action_reason (a : AgentAction) : string :=
  match a with
  | SEARCH_ATTRACTIONS => "景点数据尚未获取"
  | GET_WEATHER => "天气数据尚未获取"
  | SEARCH_HOTELS => "酒店数据尚未获取"
  | SEARCH_RESTAURANTS => "最终地点时间轴已稳定，需要查询真实餐饮候选"
  | GENERATE_PLAN => "基础数据已就绪，需要生成行程"
  | ESTIMATE_ROUTES => "行程已生成，需要查询相邻景点的真实路线"
  | EVALUATE_COMMUTE => "真实路线已就绪，需要评估单段通勤上限"
  | REPLACE_REMOTE_ATTRACTION => "存在过长通勤，需要用近距离未使用景点进行有界替换"
  | SUPPLEMENT_ATTRACTIONS => "本地候选不足，需要查询高德附近景点补充候选池"
  | OPTIMIZE_ROUTES => "路线质量较低，需要执行有界确定性排序优化"
  | EVALUATE_SCHEDULE => "行程路线已就绪，需要执行确定性时间轴评估"
  | OPTIMIZE_SCHEDULE => "日程存在超时，需要执行有界确定性跨日优化"
  | EVALUATE_CONSTRAINTS => "时间轴已就绪，需要评估行程可执行性约束"
  | OPTIMIZE_CONSTRAINTS => "行程存在可修复约束冲突，需要执行有界确定性优化"
  | REFILL_ATTRACTIONS => "最终景点数量不足，需要从近距离未使用候选中确定性回填"
  | REBUILD_PLAN_CONTENT => "景点与路线已经稳定，需要重建描述、餐饮、交通和预算"
  | VALIDATE_PLAN => "行程已生成，需要执行确定性语义校验"
  | REPAIR_PLAN => "行程未通过校验，需要根据结构化问题修复"
  | FINISH => "行程已通过校验，结束执行"
  end.

(** [str(exc)] and the class name, of an exception of the application. *)
Definition exn_text (e : exn) : string :=
  match e with
  | ValueError m | TripTaskNotFoundError m | TaskIdempotencyConflictError m
  | TaskLeaseLostError m | SessionNotFoundError m | StoreUnavailable m | IndexError m
  | TypeError m | RuntimeError m | DraftConflictError m | DraftNotFoundError m
  | VersionNotFoundError m => m
  | ValidationError => "ValidationError"
  | IntegrityError => "IntegrityError"
  | MultipleResultsFound => "MultipleResultsFound"
  end.

(** [_safe_error_message] *)
Definition safe_error_message (class text : string) : string :=
  py_take 1000 (let m := squeeze text in if String.eqb m "" then class else m).

Definition is_object (data : option json) : bool :=
  match data with Some (JObj _) => true | _ => false end.

Definition same_point (a b : Location) : bool :=
  Qeq_bool (longitude a) (longitude b) && Qeq_bool (latitude a) (latitude b).

Section Actions.
Context `{HashEnv} `{PydanticModels} `{PlanningServices} `{AgentEnv}.
Context (cfg : AgentSettings).
Context (fmt_g fmt_2f : Q → string).

(** ** Checkpoints *)

(** [raise_if_task_cancelled], [raise_if_task_lease_lost], [notify_*] *)
Definition hook : Run unit :=
  n ← tick;
  match en_hook n with
  | None => mret tt
  | Some (inl e) => raise (RaisedExn e)
  | Some (inr s) => raise (RaisedSignal s)
  end.

Definition append_error (msg : string) (s : AgentState) : AgentState :=
  on_audit (fun a => a <| au_errors := (au_errors a ++ [msg])%list |>) s.
Definition append_error_unless_last (msg : string) (s : AgentState) : AgentState :=
  if bool_decide (last (au_errors (st_audit s)) = Some msg) then s else append_error msg s.
Definition set_agent_status (x : AgentStatus) (s : AgentState) : AgentState :=
  on_life (fun l => l <| lc_status := x |>) s.

Definition store_class (e : SaveError) : string :=
  if se_operational e then "OperationalError" else "Exception".

Definition checkpoint : Run unit :=
  _ ← hook;
  now ← tick;
  _ ← update (touch (en_utc now));
  if negb (as_has_store cfg) then mret tt
  else
    n ← tick;
    s ← reads (fun s => s);
    match (checkpoint_save (as_checkpoint cfg) (en_save n s)).1 with
    | None => fun w => (Ok tt, w <| aw_saved := Some s |>)
    | Some e =>
        let message := "状态检查点持久化失败: " ++ safe_error_message (store_class e) (se_text e) in
        now ← tick;
        _ ← update (fun s => touch (en_utc now) (append_error_unless_last message
                               (set_agent_status failed s)));
        raise (AgentCheckpointError message)
    end.

(** [_raise_budget_exhausted] *)
Definition raise_budget_exhausted {A} (reason : string) : Run A :=
  _ ← update (mark_budget_exhausted reason);
  _ ← checkpoint;
  raise (AgentBudgetExceededError reason).

(** ** Tool payloads *)

Definition opt_json (o : option json) : json := json_opt (fun j => j) o.

Definition build_tool_payload (st : AgentState) (a : AgentAction) : result exn json :=
  let req := st_request st in
  let f := st_facts st in
  let city := ("city", JStr (req_city req)) in
  match a with
  | SEARCH_ATTRACTIONS =>
      Ok (JObj [city; ("preferences", JArr (map JStr (req_preferences req)))])
  | SUPPLEMENT_ATTRACTIONS =>
      match os_supplement_query (st_opts st) with
      | Some q => Ok (dump_supplement_query q)
      | None => Err (ValueError "Commute supplement query is required")
      end
  | GET_WEATHER | SEARCH_HOTELS => Ok (JObj [city])
  | SEARCH_RESTAURANTS =>
      match fa_trip_plan f with
      | None => Err (ValueError "Trip plan is required before restaurant search")
      | Some p =>
          anchors ← build_restaurant_search_anchors (as_max_restaurant_anchors cfg) p;
          mret (JObj [city; ("keywords", JStr "餐厅"); ("anchors", JArr (map dump_anchor anchors));
                      ("radius_meters", JInt (as_restaurant_radius_meters cfg))])
      end
  | GENERATE_PLAN =>
      Ok (JObj [("session_id", JStr (st_session_id st)); ("request", dump_request req);
                ("attractions", opt_json (fa_attractions f)); ("weather", opt_json (fa_weather f));
                ("hotels", opt_json (fa_hotels f))])
  | ESTIMATE_ROUTES =>
      match fa_trip_plan f with
      | None => Err (ValueError "Trip plan is required before route estimation")
      | Some p =>
          legs ← build_route_legs req p (fa_attractions f) (fa_hotels f);
          mret (JObj [city; ("plan_fingerprint", JStr (route_fingerprint req p));
                      ("legs", JArr (map dump_leg_request legs))])
      end
  | REPAIR_PLAN =>
      Ok (JObj [("request", dump_request req);
                ("current_plan", json_opt dump_plan (fa_trip_plan f));
                ("validation_result",
                 json_opt (dump_validation he_dump_datetime) (ev_validation (st_evals st)));
                ("attractions", opt_json (fa_attractions f)); ("weather", opt_json (fa_weather f));
                ("hotels", opt_json (fa_hotels f))])
  | _ => Err (ValueError ("action has no registered tool payload: " ++ action_value a))
  end.

(** ** Tool answers *)

Definition apply_supplement (data : option json) : Step unit :=
  s ← gets (fun s => s);
  q ← require (os_supplement_query (st_opts s)) "Attraction supplement query is required";
  nearby ← lift (pm_nearby (opt_json data));
  if negb ((nb_radius_meters nearby =? sp_radius_meters q) && (nb_page nearby =? sp_page q)
           && same_point (nb_center nearby) (sp_center q))
  then fail (ValueError "Nearby candidates do not match the pending search query")
  else
    merged ← lift (sv_merge_pool (fa_attractions (st_facts s)) nearby);
    _ ← modify (on_facts (fun f => f <| fa_attractions := Some (mg_pool merged) |>));
    _ ← modify (invalidate_evaluation_fingerprints ["constraints"; "validation"]);
    let again (o : Optimization) := o <| op_supplement_count := op_supplement_count o + 1 |>
                                      <| op_status := not_started |> in
    _ ← modify (fun s =>
          if status_is (os_refill (st_opts s)) supplement_needed then on_refill again s
          else on_commute again s);
    modify (on_opts (fun os => os <| os_supplement_query := None |>)).

Definition apply_routes (data : option json) : Step unit :=
  s ← gets (fun s => s);
  p ← require (fa_trip_plan (st_facts s)) "Trip plan is required before saving route estimates";
  r ← lift (pm_routes (opt_json data));
  let fp := rr_plan_fingerprint r in
  if negb (String.eqb fp (route_fingerprint (st_request s) p))
  then fail (ValueError "Route estimates do not match the current trip plan")
  else
    _ ← modify (on_facts (fun f => f <| fa_route_estimates := Some (dump_route_result r) |>
                                     <| fa_route_plan_fingerprint := Some fp |>));
    _ ← modify (invalidate_evaluation_fingerprints ["commute"; "constraints"; "validation"]);
    rq ← lift (sv_evaluate_route_quality p r);
    _ ← modify (on_evals (fun e => e <| ev_route_quality := Some rq |>
                                     <| ev_route_quality_fingerprint := Some fp |>));
    _ ← modify (fun s => bind_input "route_quality" (route_input_of p s) s);
    _ ← modify (fun s =>
          let o := os_route (st_opts s) in
          if status_is o not_started
             && (negb (rq_optimization_recommended rq)
                 || (eb_max_route_optimization_attempts (st_budget s) <=? op_count o))
          then on_route (set_status opt_skipped) s else s);
    sq ← lift (sv_evaluate_schedule (st_request s) p r);
    _ ← modify (on_evals (fun e => e <| ev_schedule := Some sq |>
                                     <| ev_schedule_fingerprint := Some fp |>));
    _ ← modify (fun s => bind_input "schedule" (schedule_input_of p s) s);
    _ ← modify (fun s =>
          if status_is (os_schedule (st_opts s)) not_started && negb (sq_optimization_recommended sq)
          then on_schedule (set_status opt_skipped) s else s);
    modify forget_validation.

(** The repaired plan starts over, with one more cross-day optimisation. *)
Definition install_repaired_plan (data : option json) : Step unit :=
  p ← lift (pm_plan (opt_json data));
  _ ← modify (set_plan (remove_duplicate_attractions p).1);
  _ ← modify (clear_route_analysis false);
  modify (on_schedule reset_count).

Definition count_repair : AgentState → AgentState :=
  on_life (fun l => l <| lc_repair_count := lc_repair_count l + 1 |>).

(** [_apply_tool_result] *)
Definition apply_tool_result (a : AgentAction) (data : option json) : Step unit :=
  match a with
  | SEARCH_ATTRACTIONS =>
      if is_object data then modify (on_facts (fun f => f <| fa_attractions := data |>))
      else fail (ValueError "景点工具结果必须是对象")
  | GET_WEATHER =>
      if is_object data then modify (on_facts (fun f => f <| fa_weather := data |>))
      else fail (ValueError "天气工具结果必须是对象")
  | SEARCH_HOTELS =>
      if is_object data then modify (on_facts (fun f => f <| fa_hotels := data |>))
      else fail (ValueError "酒店工具结果必须是对象")
  | SUPPLEMENT_ATTRACTIONS => apply_supplement data
  | SEARCH_RESTAURANTS =>
      f ← gets st_facts;
      p ← require (fa_trip_plan f) "Trip plan is required before saving restaurants";
      restaurants ← lift (pm_restaurants (opt_json data));
      _ ← modify (on_facts (fun f => f <| fa_restaurants := Some restaurants |>));
      fp ← lift (restaurant_fingerprint_of (as_max_restaurant_anchors cfg) p);
      _ ← modify (on_facts (fun f => f <| fa_restaurant_plan_fingerprint := Some fp |>));
      _ ← modify forget_content;
      modify (invalidate_evaluation_fingerprints ["constraints"; "validation"])
  | GENERATE_PLAN =>
      p ← lift (pm_generated (opt_json data));
      _ ← modify (set_plan (remove_duplicate_attractions p).1);
      modify (clear_route_analysis true)
  | ESTIMATE_ROUTES => apply_routes data
  | REPAIR_PLAN => _ ← install_repaired_plan data; modify count_repair
  | _ => fail (ValueError ("unsupported action result: " ++ action_value a))
  end.

(** ** Validation and the end *)

(** [_validate_plan]: the message of the [AgentActionError] it ends with, if any. *)
Definition validate_plan (now : datetime) (reason : string) (attempt : Z) : Step (option string) :=
  s ← gets (fun s => s);
  let f := st_facts s in
  p ← require (fa_trip_plan f) "没有可校验的旅行计划";
  v ← lift (sv_validate now (st_request s) p (fa_attractions f) (fa_weather f) (fa_hotels f)
              (fa_route_estimates f) (ev_schedule (st_evals s)) (ev_constraints (st_evals s)));
  _ ← modify (fun s => bind_input "validation" (validation_input_of s)
        (on_evals (fun e => e <| ev_validation := Some v |>) s));
  _ ← modify (on_evals (fun e => e <| ev_validation_history := (ev_validation_history e ++ [v])%list |>));
  report ← gets (fun s => evaluate s v);
  _ ← modify (on_evals (fun e => e <| ev_acceptance := Some report |>));
  let record success := (new_record (lc_current_step (st_life s)) VALIDATE_PLAN reason attempt success)
                          <| rec_validation_error_count := vr_error_count v |>
                          <| rec_validation_warning_count := vr_warning_count v |> in
  if vr_valid v || pa_accepted report then
    _ ← modify (append_record (record true)); mret None
  else
    let limit := lc_max_repair_attempts (st_life s) in
    let can_repair := vr_repairable v && (lc_repair_count (st_life s) <? limit) in
    let error := error_summary v in
    _ ← modify (append_error ("validate_plan: " ++ error));
    _ ← modify (append_record ((record false) <| rec_error := Some error |>
                                 <| rec_error_type := Some INVALID_OUTPUT |>
                                 <| rec_retryable := can_repair |>));
    if can_repair then mret None
    else
      _ ← modify (set_agent_status failed);
      mret (Some (if vr_repairable v && (limit <=? lc_repair_count (st_life s))
                  then "自动修复次数已达到上限 " ++ str_of_Z limit ++ ": " ++ error else error)).

(** The [FINISH] branch of [execute_action]. *)
Definition finish (attempt : Z) (s : AgentState) : AgentState :=
  let acceptance := ev_acceptance (st_evals s) in
  let partial := holds (fun r => pa_accepted r && pa_partial r) acceptance in
  let s := on_life (fun l => l <| lc_finished := true |> <| lc_status := completed |>) s in
  let s := on_evals (fun e => e
             <| ev_completion_mode := Some (if partial then "partial" else "full") |>
             <| ev_completion_warnings := match acceptance with
                                          | Some r => pa_warnings r | None => [] end |>) s in
  record_local FINISH
    (if partial then "行程达到最低可接受标准，保留非关键问题后结束执行" else action_reason FINISH)
    attempt s.

(** ** Tool actions *)

(** [_append_failed_action]; the record it makes is the last one. *)
Definition append_failed_action (a : AgentAction) (reason : string) (attempt : Z) (r : ActionResult)
    (s : AgentState) : AgentState :=
  let error := match ar_error r with
               | Some e => if String.eqb e "" then "工具执行失败" else e
               | None => "工具执行失败" end in
  append_record
    (mkRecord (lc_current_step (st_life s)) a reason attempt false (Some error)
       (Some (ar_tool_name r)) (ar_error_type r) (ar_retryable r) (ar_duration_ms r) 0
       (ar_circuit_state r) (ar_provider_code r) (ar_provider_message r) 0 0
       None None None None false None 0 [])
    (append_error (action_value a ++ ": " ++ error) s).

Definition alter_last_record (f : ActionRecord → ActionRecord) (s : AgentState) : AgentState :=
  on_audit (fun au => au <| au_history := alter f (length (au_history au) - 1)%nat (au_history au) |>) s.

Definition text_or (o : option string) (default : string) : string :=
  match o with Some e => if String.eqb e "" then default else e | None => default end.

(** [execution_policy.decide_retry] on the session. *)
Definition retry_decision (n n' : nat) (run_attempt : Z) (r : ActionResult) : Run RetryDecision :=
  fun w =>
    let '(d, s) := decide_retry fmt_g (as_retry cfg) r run_attempt
                     (oc_max_attempts_per_action (as_orchestrator cfg))
                     (en_utc n) (en_utc n') (en_jitter n) (aw_breaker w) (aw_state w) in
    (Ok d, w <| aw_state := s |>).

(** Steps 5 and 6 of [execute_action] after a failed call or an answer that
    does not fit: retry later, degrade, or give up. *)
Definition retry_or_give_up (a : AgentAction) (attempt run_attempt : Z) (r : ActionResult)
    (give_up_text : string) : Run unit :=
  n ← tick; n' ← tick;
  d ← retry_decision n n' run_attempt r;
  match rd_budget_reason d with
  | Some why => raise_budget_exhausted why
  | None =>
      if rd_should_retry d then
        let delay_ms := Z.max 0 (py_round (rd_delay_seconds d * 1000)) in
        _ ← update (alter_last_record (fun rec => rec <| rec_retry_delay_ms := delay_ms |>));
        _ ← update (on_usage (fun u => u
               <| us_total_retry_count := us_total_retry_count u + 1 |>
               <| us_total_retry_delay_ms := us_total_retry_delay_ms u + delay_ms |>));
        _ ← checkpoint;
        hook
      else if bool_decide (a = SUPPLEMENT_ATTRACTIONS) then update handle_failed_attraction_supplement
      else
        _ ← update (set_agent_status failed);
        raise (AgentActionError a (text_or (ar_error r) give_up_text) attempt)
  end.

(** [execution_policy.execute_once] on the session. *)
Definition call_tool_at (n n' : nat) (tool : string) (payload : json) : Run ActionResult := fun w =>
  let '(r, s, cb) := execute_once fmt_g fmt_2f (en_llm_call_cost tool) (en_tool n tool payload)
                       (en_utc n) (en_monotonic n) (en_monotonic n') tool (aw_state w)
                       (aw_breaker w) in
  (match r with Ok x => Ok x | Err sig => Err (RaisedSignal sig) end,
   w <| aw_state := s |> <| aw_breaker := cb |>).

Definition call_tool (a : AgentAction) (payload : json) : Run ActionResult :=
  n ← tick; n' ← tick; call_tool_at n n' (action_value a) payload.

Definition set_last_result (r : ActionResult) (s : AgentState) : AgentState :=
  on_audit (fun au => au <| au_last_result := Some r |>) s.

Definition invalid_output (r : ActionResult) (e : exn) : ActionResult :=
  mkActionResult (ar_tool_name r) false None (Some (safe_error_message "Exception" (exn_text e)))
    (Some INVALID_OUTPUT) true (ar_duration_ms r) 0 (ar_circuit_state r) None None.

Definition success_record (a : AgentAction) (reason : string) (attempt : Z) (r : ActionResult)
    (s : AgentState) : AgentState :=
  append_record ((new_record (lc_current_step (st_life s)) a reason attempt true)
                   <| rec_tool_name := Some (ar_tool_name r) |>
                   <| rec_duration_ms := ar_duration_ms r |>
                   <| rec_circuit_state := ar_circuit_state r |>) s.

Definition tool_action (a : AgentAction) (attempt run_attempt : Z) : Run unit :=
  let reason := action_reason a in
  payload ← local_step (s ← gets (fun s => s); lift (build_tool_payload s a));
  r ← call_tool a payload;
  _ ← update (set_last_result r);
  if negb (ar_success r) then
    _ ← update (append_failed_action a reason attempt r);
    if bool_decide (ar_error_type r = Some BUDGET_EXCEEDED)
    then raise_budget_exhausted (text_or (ar_error r) "执行预算已耗尽")
    else retry_or_give_up a attempt run_attempt r "工具执行失败"
  else
    applied ← try_step (apply_tool_result a (ar_data r));
    match applied with
    | Ok _ => update (success_record a reason attempt r)
    | Err e =>
        let invalid := invalid_output r e in
        _ ← update (set_last_result invalid);
        _ ← update (append_failed_action a reason attempt invalid);
        retry_or_give_up a attempt run_attempt invalid "工具输出无效"
    end.

(** [execute_action]: [attempt_in_run] of a physical step, [advance_step]. *)
Definition execute_action (a : AgentAction) (attempt_in_run : option Z) (advance_step : bool)
    : Run unit :=
  step ← reads (fun s => lc_current_step (st_life s));
  _ ← (if advance_step
       then update (on_life (fun l => l <| lc_current_step := lc_current_step l + 1 |>))
       else if step <? 1
       then raise (RaisedExn (ValueError "compressed action requires an active physical step"))
       else mret tt);
  attempt ← (fun w => let '(n, s) := next_attempt a (aw_state w) in (Ok n, w <| aw_state := s |>));
  let run_attempt := match attempt_in_run with
                     | Some n => if n =? 0 then attempt else n | None => attempt end in
  let reason := action_reason a in
  let phases := as_orchestrator cfg in
  match a with
  | FINISH => update (finish attempt)
  | VALIDATE_PLAN =>
      now ← tick;
      outcome ← local_step (validate_plan (en_utc now) reason attempt);
      match outcome with
      | None => mret tt
      | Some error => raise (AgentActionError VALIDATE_PLAN error attempt)
      end
  | OPTIMIZE_ROUTES => local_step (optimize_routes phases reason attempt)
  | EVALUATE_COMMUTE => local_step (evaluate_commute reason attempt)
  | REPLACE_REMOTE_ATTRACTION => local_step (replace_remote_attraction reason attempt)
  | EVALUATE_SCHEDULE => local_step (evaluate_schedule reason attempt)
  | OPTIMIZE_SCHEDULE => local_step (optimize_schedule phases reason attempt)
  | EVALUATE_CONSTRAINTS => local_step (evaluate_constraints reason attempt)
  | OPTIMIZE_CONSTRAINTS => local_step (optimize_constraints phases reason attempt)
  | REFILL_ATTRACTIONS => local_step (refill_attractions reason attempt)
  | REBUILD_PLAN_CONTENT => local_step (rebuild_plan_content reason attempt)
  | _ => tool_action a attempt run_attempt
  end.
End Actions.
