(* ===== verification/AgentLoop.v ===== *)
(** The control loop of the agent (src/app/agent_runtime/orchestrator.py):
    convergence checks, the batch of local actions after a physical step,
    [run] and [resume].

    [run_loop] takes fuel; [None] is out of fuel.  [AgentLoopTheorems] proves
    that [max_steps - current_step] turns are always enough. *)

From S2P Require Import Prelude PyData TripSchema AmapModels PlanReports PlanRoutes PlanContent OrderedDict.
From S2P Require Import ToolModels Circuit AgentState Convergence AgentDecision AgentAnalysis AgentPhases.
From S2P Require Import CheckpointPolicy Acceptance ExecutionPolicy AgentActions.
From Stdlib Require Import ZArith QArith Lia String.
From stdpp Require Import base tactics option list strings.

Open Scope string_scope.
Open Scope Z_scope.

(** [_COMPRESSIBLE_LOCAL_ACTIONS] *)
Definition compressible (a : AgentAction) : bool :=
  match a with
  | OPTIMIZE_ROUTES | EVALUATE_COMMUTE | REPLACE_REMOTE_ATTRACTION | EVALUATE_SCHEDULE
  | OPTIMIZE_SCHEDULE | EVALUATE_CONSTRAINTS | OPTIMIZE_CONSTRAINTS | REFILL_ATTRACTIONS
  | REBUILD_PLAN_CONTENT | VALIDATE_PLAN | FINISH => true
  | _ => false
  end.

Section Loop.
Context `{HashEnv} `{PydanticModels} `{PlanningServices} `{AgentEnv}.
Context (cfg : AgentSettings).
Context (fmt_g fmt_2f : Q → string).

Notation checkpoint := (checkpoint cfg).

(** ** Convergence *)

(** [_raise_convergence_stopped] *)
Definition mark_convergence_stopped (reason : string) (s : AgentState) : AgentState :=
  append_error_once reason
    (on_conv (fun c => c <| cn_terminated_reason := Some reason |>)
       (set_agent_status convergence_stopped s)).

Definition raise_convergence_stopped {A} (reason : string) : Run A :=
  _ ← update (mark_convergence_stopped reason);
  _ ← checkpoint;
  raise (AgentConvergenceError reason).

Definition success_key (a : AgentAction) (fp : string) : string := action_value a ++ ":" ++ fp.

(** [_prepare_convergence_action] *)
Definition prepare_convergence_action (a : AgentAction) : Run (string * string) :=
  s ← reads (fun s => s);
  let fp := action_input_fingerprint s a in
  let key := success_key a fp in
  let count := default 0 (od_get key (cn_successful_inputs (st_conv s))) in
  if eb_max_repeated_action_inputs (st_budget s) <=? count
  then raise_convergence_stopped
         ("动作 " ++ action_value a ++ " 在相同业务输入下已成功执行 " ++ str_of_Z count
          ++ " 次，拒绝重复执行")
  else mret (fp, key).

(** [_find_successful_action_record]: the position of the last successful
    record of [a] from [start] on. *)
Definition is_success_of (a : AgentAction) (r : ActionRecord) : Prop :=
  rec_action r = a ∧ rec_success r = true.
#[export] Instance is_success_of_dec a r : Decision (is_success_of a r).
Proof. unfold is_success_of. apply _. Defined.

Definition find_successful_action_record (a : AgentAction) (start : nat) (s : AgentState) : option nat :=
  let new := drop start (au_history (st_audit s)) in
  match list_find (is_success_of a) (reverse new) with
  | Some (j, _) => Some (start + (length new - 1 - j))%nat
  | None => None
  end.

Definition alter_record (i : nat) (f : ActionRecord → ActionRecord) (s : AgentState) : AgentState :=
  on_audit (fun au => au <| au_history := alter f i (au_history au) |>) s.

(** What [_record_convergence_result] writes, the streak included. *)
Definition note_result (a : AgentAction) (fp key before after : string) (record : nat)
    (s : AgentState) : AgentState :=
  let progress := negb (String.eqb before after) in
  let s := alter_record record (fun r => r
             <| rec_input_fingerprint := Some fp |> <| rec_state_fingerprint_before := Some before |>
             <| rec_state_fingerprint_after := Some after |> <| rec_made_progress := Some progress |>) s in
  on_conv (fun c =>
    let count := default 0 (od_get key (cn_successful_inputs c)) in
    let c := c
      <| cn_successful_inputs := if progress then [(key, 1)]
                                 else od_set key (count + 1) (cn_successful_inputs c) |>
      <| cn_history := (cn_history c ++
           [mkConvergence (lc_current_step (st_life s)) a fp before after progress
              (if progress then "业务状态已变化" else "业务状态未变化")])%list |> in
    if progress then c <| cn_no_progress_streak := 0 |>
    else c <| cn_no_progress_streak := cn_no_progress_streak c + 1 |>
           <| cn_no_progress_total := cn_no_progress_total c + 1 |>) s.

(** [_record_convergence_result] *)
Definition record_convergence_result (a : AgentAction) (fp key before : string) (record : nat)
    : Run unit :=
  after ← reads business_state_fingerprint;
  _ ← update (note_result a fp key before after record);
  if negb (String.eqb before after) then mret tt
  else
    streak ← reads (fun s => cn_no_progress_streak (st_conv s));
    limit ← reads (fun s => eb_max_no_progress_steps (st_budget s));
    if limit <=? streak
    then raise_convergence_stopped ("连续 " ++ str_of_Z streak ++ " 个成功动作未改变业务状态")
    else mret tt.

(** ** Batches of local actions *)

Definition choose_action : Run AgentAction := fun w =>
  (match decide_next_action (as_max_restaurant_anchors cfg) (aw_state w) with
   | Ok a => Ok a
   | Err e => Err (RaisedExn e)
   end, w).

(** [runtime_budget_reason], then [_raise_budget_exhausted] when there is one. *)
Definition check_runtime_budget : Run unit :=
  n ← tick;
  reason ← (fun w => let '(reason, s) := runtime_budget_reason fmt_g (en_utc n) (aw_state w) in
                     (Ok reason, w <| aw_state := s |>));
  match reason with
  | Some why => raise_budget_exhausted cfg why
  | None => mret tt
  end.

(** The audit metadata of the records a compressed action added. *)
Definition mark_compressed (root : AgentAction) (root_record start : nat) (index : Z)
    (a : AgentAction) (s : AgentState) : AgentState :=
  let history := au_history (st_audit s) in
  match drop start history with
  | [] => s
  | new =>
      let mark (r : ActionRecord) := r <| rec_compressed := true |>
             <| rec_batch_root_action := Some root |> <| rec_batch_index := index |> in
      let s := on_audit (fun au => au <| au_history := (take start history ++ map mark new)%list |>) s in
      let s := alter_record root_record (fun r => r <| rec_compressed_actions :=
                 (rec_compressed_actions r ++ [a])%list |>) s in
      on_conv (fun c => c <| cn_compressed_actions := cn_compressed_actions c + 1 |>) s
  end.

Definition start_batch (started : bool) (s : AgentState) : AgentState :=
  if started then s else on_conv (fun c => c <| cn_local_batches := cn_local_batches c + 1 |>) s.

(** [_drain_local_actions] from the batch index [index] on. *)
Fixpoint drain_local_actions (left_over : nat) (index : Z) (root : AgentAction)
    (root_record : nat) : Run unit :=
  match left_over with
  | O => mret tt
  | S left_over =>
      _ ← hook;
      finished ← reads (fun s => lc_finished (st_life s));
      if (finished : bool) then mret tt
      else
        _ ← check_runtime_budget;
        a ← choose_action;
        if negb (compressible a) then mret tt
        else
          _ ← update (start_batch (1 <? index));
          '(fp, key) ← prepare_convergence_action a;
          before ← reads business_state_fingerprint;
          start ← reads (fun s => length (au_history (st_audit s)));
          _ ← try_finally (execute_action cfg fmt_g fmt_2f a None false)
                (update (mark_compressed root root_record start index a));
          found ← reads (find_successful_action_record a start);
          match found with
          | None => mret tt
          | Some record =>
              _ ← record_convergence_result a fp key before record;
              drain_local_actions left_over (index + 1) root root_record
          end
  end.

(** ** The loop *)

(** The body of [while]: one physical step and the local actions after it. *)
Definition physical_step (attempts : odict Z) : Run (odict Z) :=
  _ ← hook;
  _ ← check_runtime_budget;
  a ← choose_action;
  _ ← hook;
  '(fp, key) ← prepare_convergence_action a;
  before ← reads business_state_fingerprint;
  start ← reads (fun s => length (au_history (st_audit s)));
  let attempt := default 0 (od_get (action_value a) attempts) + 1 in
  _ ← try_finally
        (_ ← execute_action cfg fmt_g fmt_2f a (Some attempt) true;
         found ← reads (find_successful_action_record a start);
         match found with
         | None => mret tt
         | Some record =>
             _ ← record_convergence_result a fp key before record;
             limit ← reads (fun s => eb_max_local_actions_per_step (st_budget s));
             drain_local_actions (Z.to_nat limit) 1 a record
         end)
        (_ ← hook; _ ← checkpoint; hook);
  mret (od_set (action_value a) attempt attempts).

(** [while not state.finished and state.current_step < state.max_steps]: the
    physical steps of one run, and how it left the loop. *)
Definition loop_goes_on (s : AgentState) : bool :=
  negb (lc_finished (st_life s)) && (lc_current_step (st_life s) <? lc_max_steps (st_life s)).

Fixpoint run_loop (fuel : nat) (attempts : odict Z) (w : AgentWorld)
    : option (result agent_exn unit * AgentWorld) :=
  if loop_goes_on (aw_state w) then
    match fuel with
    | O => None
    | S fuel =>
        match physical_step attempts w with
        | (Ok attempts, w) => run_loop fuel attempts w
        | (Err e, w) => Some (Err e, w)
        end
    end
  else Some (Ok tt, w).

(** Step 3 of [_run_state]. *)
Definition end_of_run : Run unit :=
  finished ← reads (fun s => lc_finished (st_life s));
  if (finished : bool) then mret tt
  else
    limit ← reads (fun s => lc_max_steps (st_life s));
    let reason := "智能体达到最大执行步数 " ++ str_of_Z limit in
    let message := reason ++ "，尚未生成完整结果" in
    _ ← update (fun s => append_error message
          (on_usage (fun u => u <| us_budget_exhausted_reason := Some reason |>)
             (set_agent_status max_steps_reached s)));
    _ ← checkpoint;
    raise (AgentMaxStepsError message).

(** [_run_state] *)
Definition run_state (fuel : nat) (w : AgentWorld) : option (result agent_exn unit * AgentWorld) :=
  match (_ ← update (set_agent_status running); checkpoint) w with
  | (Err e, w) => Some (Err e, w)
  | (Ok _, w) =>
      match run_loop fuel [] w with
      | None => None
      | Some (Err e, w) => Some (Err e, w)
      | Some (Ok _, w) => Some (end_of_run w)
      end
  end.

Definition steps_left (s : AgentState) : nat :=
  Z.to_nat (lc_max_steps (st_life s) - lc_current_step (st_life s)).

(** [resume] *)
Definition resume (fuel : nat) (w : AgentWorld) : option (result agent_exn unit * AgentWorld) :=
  if lc_finished (st_life (aw_state w)) || bool_decide (lc_status (st_life (aw_state w)) = completed)
  then Some (Ok tt, w) else run_state fuel w.

(** [run] on a new session *)
Definition run_session (fuel : nat) (req : TripRequest) (b : ExecutionBudget) (sid : string)
    (uid : option string) (cb : CircuitBreaker) : option (result agent_exn unit * AgentWorld) :=
  run_state fuel (mkAgentWorld (create_state req b sid uid (en_utc 0)) cb None 1).
End Loop.
