(* ===== verification/AgentDemo.v ===== *)
(** A small closed world for the loop: a constant hash, services that find
    nothing to improve, tools that answer at once.  The theorems about runs are
    evaluated in it. *)

From S2P Require Import Prelude PyData TripSchema AmapModels PlanReports PlanRoutes PlanContent OrderedDict.
From S2P Require Import ToolModels Circuit AgentState Convergence AgentDecision AgentAnalysis AgentPhases.
From S2P Require Import CheckpointPolicy Acceptance ExecutionPolicy AgentActions AgentLoop.
From Stdlib Require Import ZArith QArith Lia String Ascii.
From stdpp Require Import base tactics option list strings gmap.

Open Scope string_scope.
Open Scope Z_scope.

(** A hash without information: every fingerprint is the same, so evaluations
    count as current once they exist, and no action changes the business state. *)
Definition demo_hash : HashEnv :=
  {| he_sha256_hex := fun _ => "h"; he_float_repr := fun q => str_of_Z (Qnum q);
     he_dump_datetime := fun d => str_of_Z d |}.

Definition json_field (k : string) (j : json) : option json :=
  match j with JObj kvs => od_get k kvs | _ => None end.
Definition json_text (o : option json) : string :=
  match o with Some (JStr s) => s | _ => "" end.

Definition demo_routes (fp : string) : RouteEstimateResult := mkRouteResult fp 0 0 0 0 [] [].

(** The plan the tools of the demo return. *)
Definition demo_models : PydanticModels :=
  {| pm_routes := fun j => Ok (demo_routes (json_text (json_field "plan_fingerprint" j)));
     pm_restaurants := fun j => Ok j;
     pm_nearby := fun j => Ok (mkNearby (mkLocation 0 0) 5000 1 j);
     pm_generated := fun _ => Ok sample_plan; pm_plan := fun _ => Ok sample_plan |}.

(** [issues]: what the validation finds. *)
Definition demo_services (issues : list ValidationIssue) : PlanningServices :=
  {| sv_evaluate_route_quality := fun _ r =>
       Ok (mkRouteQuality (rr_plan_fingerprint r) 0 0 0 0 0 0 0 0 100 false []);
     sv_evaluate_commute := fun _ _ j =>
       Ok (mkCommuteReport (json_text (json_field "plan_fingerprint" j)) 0 0 0 0 false [] []);
     sv_evaluate_schedule := fun _ _ r =>
       Ok (mkScheduleQuality (rr_plan_fingerprint r) 1 0 0 0 30 0 95 false []);
     sv_evaluate_constraints := fun req p _ _ _ =>
       Ok (mkConstraintReport (@constraint_fingerprint demo_hash req p) 0 0 0 0 100 true false [] []);
     sv_validate := fun now _ _ _ _ _ _ _ _ =>
       Ok (from_issues issues now);
     sv_optimize_routes := fun _ => Ok None;
     sv_optimize_schedule := fun _ _ _ => Ok None;
     sv_optimize_constraints := fun _ _ _ _ _ => Ok None;
     sv_optimize_commute := fun _ _ _ _ _ => Ok None;
     sv_refill := fun _ _ _ _ => Ok None;
     sv_build_query := fun _ _ _ _ => Ok None;
     sv_build_refill_query := fun _ _ _ => Ok None;
     sv_merge_pool := fun _ n => Ok (mkMerge (nb_data n) 0 0 0 0);
     sv_rebuild := fun _ p _ _ _ => Ok p |}.

Definition demo_answer (tool : string) (payload : json) : ActionResult :=
  mkActionResult tool true (Some payload) None None false 5 0 (Some "closed") None None.

Definition demo_env : AgentEnv :=
  {| en_utc := fun n => Z.of_nat n * 1000; en_monotonic := fun n => inject_Z (Z.of_nat n);
     en_hook := fun _ => None;
     en_tool := fun _ tool payload => Ok (demo_answer tool payload);
     en_llm_call_cost := fun tool => if String.eqb tool "generate_plan" then 1 else 0;
     en_jitter := fun _ => 0%Q; en_save := fun _ _ _ => None |}.

Definition demo_settings : AgentSettings :=
  mkAgentSettings (mkOrchestratorSettings 3 5 5 5) (mkRetrySettings (1 # 2) 8 (1 # 4)) (mkCheckpointSettings 3 (1 # 10) 2)
    true 8 2000.

(** The limits on repetition are as wide as the steps. *)
Definition demo_budget : ExecutionBudget :=
  mkExecutionBudget 24 600 30 6 2 1 1 1 2 2 2 0 24 24 8 true 70 2 60 0 0 0 0
    ["plan.empty_suggestions"; "schedule.daily_overtime"].

(** A new session. *)
Definition new_world : AgentWorld :=
  mkAgentWorld (create_state sample_request demo_budget "s1" None 0) (mkBreaker 3 30 ∅) None 1.

Definition demo_format (q : Q) : string := str_of_Z (py_round q).

Notation demo_run issues fuel w :=
  (@run_state demo_hash demo_models (demo_services issues) demo_env demo_settings
    demo_format demo_format fuel w).

Definition actions_of (w : AgentWorld) : list AgentAction :=
  map rec_action (au_history (st_audit (aw_state w))).

(** A session whose plan has passed every check and only has to be delivered. *)
Definition settled_state : AgentState :=
  on_evals (fun e => e
      <| ev_route_quality := Some (mkRouteQuality "h" 0 0 0 0 0 0 0 0 100 false []) |>
      <| ev_route_quality_fingerprint := Some "h" |>
      <| ev_schedule := Some (mkScheduleQuality "h" 1 0 0 0 30 0 95 false []) |>
      <| ev_schedule_fingerprint := Some "h" |>
      <| ev_commute := Some (mkCommuteReport "h" 0 0 0 0 false [] []) |>
      <| ev_commute_fingerprint := Some "h" |>
      <| ev_constraints := Some (mkConstraintReport "h" 0 0 0 0 100 true false [] []) |>
      <| ev_constraints_fingerprint := Some "h" |>
      <| ev_plan_consistency_fingerprint := Some "h" |>
      <| ev_validation := Some (from_issues [] 7) |>)
    (on_facts (fun f => f
      <| fa_attractions := Some (JObj []) |> <| fa_weather := Some (JObj []) |>
      <| fa_hotels := Some (JObj []) |> <| fa_restaurants := Some (JObj []) |>
      <| fa_restaurant_plan_fingerprint := Some "h" |>
      <| fa_trip_plan := Some sample_plan |> <| fa_route_estimates := Some (JObj []) |>
      <| fa_route_plan_fingerprint := Some "h" |>) (aw_state new_world)).

Definition settled_world : AgentWorld := mkAgentWorld settled_state (mkBreaker 3 30 ∅) None 1.
