(* ===== verification/AgentFrames.v ===== *)
(** Frames of the agent's operations: what the local steps, the tool answers
    and the bookkeeping leave alone.  [respects R m] says that running [m],
    whether it returns or raises, relates the states before and after by [R];
    the relations used are preorders, so frames compose along the binds and
    one tactic proves them. *)

From S2P Require Import Prelude PyData TripSchema AmapModels PlanReports PlanRoutes PlanContent OrderedDict.
From S2P Require Import ToolModels Circuit AgentState Convergence AgentDecision AgentAnalysis AgentPhases.
From S2P Require Import CheckpointPolicy Acceptance ExecutionPolicy AgentActions AgentLoop.
From Stdlib Require Import ZArith QArith Lia String.
From stdpp Require Import base tactics option list strings.

Open Scope string_scope.
Open Scope Z_scope.

Definition respects (R : relation AgentState) {A} (m : Step A) : Prop := ∀ s, R s (m s).2.
Definition run_respects (R : relation AgentState) {A} (m : Run A) : Prop :=
  ∀ w, R (aw_state w) (aw_state (m w).2).

Section Rules.
Context (R : relation AgentState) `{!PreOrder R}.

Lemma respects_ret {A} (a : A) : respects R (mret a).
Proof. intros s. reflexivity. Qed.
Lemma respects_fail {A} e : respects R (@fail A e).
Proof. intros s. reflexivity. Qed.
Lemma respects_gets {A} (f : AgentState → A) : respects R (gets f).
Proof. intros s. reflexivity. Qed.
Lemma respects_lift {A} (r : result exn A) : respects R (lift r).
Proof. intros s. reflexivity. Qed.
Lemma respects_require {A} (o : option A) msg : respects R (require o msg).
Proof. intros s. by destruct o. Qed.
Lemma respects_modify f : (∀ s, R s (f s)) → respects R (modify f).
Proof. intros Hf s. apply Hf. Qed.
Lemma respects_bind {A B} (m : Step A) (k : A → Step B) :
  respects R m → (∀ a, respects R (k a)) → respects R (m ≫= k).
Proof.
  intros Hm Hk s. unfold mbind, step_bind. specialize (Hm s).
  destruct (m s) as [[a|e] s']; [|done]. etransitivity; [exact Hm|apply Hk].
Qed.

Lemma run_respects_ret {A} (a : A) : run_respects R (mret a).
Proof. intros w. reflexivity. Qed.
Lemma run_respects_raise {A} e : run_respects R (@raise A e).
Proof. intros w. reflexivity. Qed.
Lemma run_respects_reads {A} (f : AgentState → A) : run_respects R (reads f).
Proof. intros w. reflexivity. Qed.
Lemma run_respects_tick : run_respects R tick.
Proof. intros w. reflexivity. Qed.
Lemma run_respects_update f : (∀ s, R s (f s)) → run_respects R (update f).
Proof. intros Hf w. apply Hf. Qed.
Lemma run_respects_bind {A B} (m : Run A) (k : A → Run B) :
  run_respects R m → (∀ a, run_respects R (k a)) → run_respects R (m ≫= k).
Proof.
  intros Hm Hk w. unfold mbind, run_bind. specialize (Hm w).
  destruct (m w) as [[a|e] w']; [|done]. etransitivity; [exact Hm|apply Hk].
Qed.
Lemma run_respects_local {A} (m : Step A) : respects R m → run_respects R (local_step m).
Proof. intros Hm w. unfold local_step. specialize (Hm (aw_state w)). by destruct (m (aw_state w)). Qed.
Lemma run_respects_try {A} (m : Step A) : respects R m → run_respects R (try_step m).
Proof. intros Hm w. unfold try_step. specialize (Hm (aw_state w)). by destruct (m (aw_state w)). Qed.
Lemma run_respects_finally {A} (m : Run A) f :
  run_respects R m → run_respects R f → run_respects R (try_finally m f).
Proof.
  intros Hm Hf w. unfold try_finally. specialize (Hm w). destruct (m w) as [r w1].
  specialize (Hf w1). destruct (f w1) as [[[]|e] w2]; (etransitivity; [exact Hm|exact Hf]).
Qed.
Lemma run_respects_fun {A} (g : AgentState → A * AgentState) :
  (∀ s, R s (g s).2) →
  run_respects R (fun w => let '(a, s) := g (aw_state w) in (Ok a, w <| aw_state := s |>)).
Proof. intros Hg w. specialize (Hg (aw_state w)). by destruct (g (aw_state w)). Qed.
End Rules.

Create HintDb frames.

(** Follows the structure of a step; [leaf] closes the state changes. *)
Ltac respects_with leaf :=
  intros;
  repeat first
    [ progress intros
    | match goal with
      | |- respects _ (mbind _ _) => apply respects_bind; [apply _| |]
      | |- respects _ (mret _) => apply respects_ret; apply _
      | |- respects _ (fail _) => apply respects_fail; apply _
      | |- respects _ (gets _) => apply respects_gets; apply _
      | |- respects _ (lift _) => apply respects_lift; apply _
      | |- respects _ (require _ _) => apply respects_require; apply _
      | |- respects _ (modify _) => apply respects_modify; intros; leaf
      | |- run_respects _ (mbind _ _) => apply run_respects_bind; [apply _| |]
      | |- run_respects _ (mret _) => apply run_respects_ret; apply _
      | |- run_respects _ (raise _) => apply run_respects_raise; apply _
      | |- run_respects _ (reads _) => apply run_respects_reads; apply _
      | |- run_respects _ tick => apply run_respects_tick; apply _
      | |- run_respects _ (update _) => apply run_respects_update; intros; leaf
      | |- run_respects _ (local_step _) => apply run_respects_local
      | |- run_respects _ (try_step _) => apply run_respects_try
      | |- run_respects _ (try_finally _ _) => apply run_respects_finally; [apply _| |]
      end
    | solve [eauto with frames nocore]
    | match goal with
      | |- context [match ?x with _ => _ end] => destruct x
      end ].

(** ** What every operation of a turn leaves alone *)

(** Identity, limits, counters and the convergence record of a session. *)
Definition core_view (s : AgentState) :=
  ((st_session_id s, st_user_id s, st_request s, st_budget s),
   (lc_max_steps (st_life s), lc_max_repair_attempts (st_life s), lc_deadline_at (st_life s),
    lc_started_at (st_life s), lc_current_step (st_life s)),
   (us_tool_call_count (st_usage s), us_llm_call_count (st_usage s)), st_conv s).

Definition core_same (s s' : AgentState) : Prop := core_view s' = core_view s.

(** [core_same], with no repair counted and the session not finished. *)
Definition quiet (s s' : AgentState) : Prop :=
  core_same s s' ∧ lc_repair_count (st_life s') = lc_repair_count (st_life s)
  ∧ lc_finished (st_life s') = lc_finished (st_life s).

#[export] Instance core_same_preorder : PreOrder core_same.
Proof. split; [done|]. unfold core_same. intros ??? ??. congruence. Qed.
#[export] Instance quiet_preorder : PreOrder quiet.
Proof.
  split; [done|]. intros x y z (H1 & H2 & H3) (H4 & H5 & H6).
  split; [by etransitivity|]. split; congruence.
Qed.

Ltac quiet_leaf := repeat case_match; split_and!; reflexivity.

Lemma quiet_invalidate keys s : quiet s (invalidate_evaluation_fingerprints keys s).
Proof. unfold invalidate_evaluation_fingerprints. quiet_leaf. Qed.

Lemma quiet_clear_commute b s : quiet s (clear_commute_analysis b s).
Proof. unfold clear_commute_analysis. destruct b; quiet_leaf. Qed.
Lemma quiet_clear_constraints b s : quiet s (clear_constraint_analysis b s).
Proof. unfold clear_constraint_analysis. destruct b; quiet_leaf. Qed.
Lemma quiet_clear_routes b s : quiet s (clear_route_analysis b s).
Proof. unfold clear_route_analysis. destruct b; quiet_leaf. Qed.

Lemma quiet_if (b : bool) s s1 s2 : quiet s s1 → quiet s s2 → quiet s (if b then s1 else s2).
Proof. by destruct b. Qed.

Section Local.
Context `{HashEnv} `{PydanticModels} `{PlanningServices}.

Lemma quiet_synchronize s : quiet s (synchronize_evaluation_fingerprints s).
Proof.
  unfold synchronize_evaluation_fingerprints. cbv zeta.
  destruct (fa_trip_plan _); [|quiet_leaf]. destruct (fa_route_estimates _); [|quiet_leaf].
  repeat match goal with |- context [if ?c then _ else _] => destruct c end; split_and!; reflexivity.
Qed.

Lemma quiet_plan_and_routes msg : respects quiet (plan_and_routes msg).
Proof. unfold plan_and_routes. respects_with quiet_leaf. Qed.
Lemma quiet_current_routes p routes : respects quiet (current_routes p routes).
Proof. unfold current_routes. respects_with quiet_leaf. Qed.
#[local] Hint Resolve quiet_plan_and_routes quiet_current_routes : frames.

Lemma quiet_refresh_route_quality : respects quiet refresh_route_quality.
Proof. unfold refresh_route_quality. respects_with quiet_leaf. Qed.
Lemma quiet_refresh_schedule_quality : respects quiet refresh_schedule_quality.
Proof. unfold refresh_schedule_quality. respects_with quiet_leaf. Qed.
Lemma quiet_update_commute_status r b s : quiet s (update_commute_status r b s).
Proof. unfold update_commute_status. quiet_leaf. Qed.
Lemma quiet_refresh_commute_report : respects quiet refresh_commute_report.
Proof.
  unfold refresh_commute_report. respects_with ltac:(first [apply quiet_update_commute_status|quiet_leaf]).
Qed.
Lemma quiet_refresh_constraint_report : respects quiet refresh_constraint_report.
Proof. unfold refresh_constraint_report. respects_with quiet_leaf. Qed.
#[local] Hint Resolve quiet_refresh_route_quality quiet_refresh_schedule_quality
  quiet_refresh_commute_report quiet_refresh_constraint_report : frames.

Lemma quiet_evaluate_commute r n : respects quiet (evaluate_commute r n).
Proof. unfold evaluate_commute. respects_with quiet_leaf. Qed.
Lemma quiet_evaluate_schedule r n : respects quiet (evaluate_schedule r n).
Proof. unfold evaluate_schedule. respects_with quiet_leaf. Qed.
Lemma quiet_evaluate_constraints r n : respects quiet (evaluate_constraints r n).
Proof. unfold evaluate_constraints. respects_with quiet_leaf. Qed.

(** ** The optimisation phases *)

Context (cfg : OrchestratorSettings).

Lemma quiet_route_report fp : respects quiet (route_report fp).
Proof. unfold route_report. respects_with quiet_leaf. Qed.
Lemma quiet_schedule_report fp : respects quiet (schedule_report fp).
Proof. unfold schedule_report. respects_with quiet_leaf. Qed.
Lemma quiet_constraint_report fp : respects quiet (constraint_report fp).
Proof. unfold constraint_report. respects_with quiet_leaf. Qed.
#[local] Hint Resolve quiet_route_report quiet_schedule_report quiet_constraint_report : frames.

Lemma quiet_propose_routes p routes r fp c s : quiet s (propose_routes p routes r fp c s).
Proof. unfold propose_routes, clear_commute_analysis, clear_constraint_analysis. split_and!; reflexivity. Qed.
Lemma quiet_propose_replacement p routes r rfp cfp c s :
  quiet s (propose_replacement p routes r rfp cfp c s).
Proof. split_and!; reflexivity. Qed.
Lemma quiet_propose_schedule p routes rq sq fp c s : quiet s (propose_schedule p routes rq sq fp c s).
Proof. split_and!; reflexivity. Qed.
Lemma quiet_propose_constraints p routes rq sq ct fp c s :
  quiet s (propose_constraints p routes rq sq ct fp c s).
Proof. split_and!; reflexivity. Qed.
Lemma quiet_propose_refill p routes rq sq ct rfp cfp c s :
  quiet s (propose_refill p routes rq sq ct rfp cfp c s).
Proof. split_and!; reflexivity. Qed.

(** The rest of a rollback, once the fingerprints are synchronised. *)
Ltac quiet_after_sync s1 Hs :=
  transitivity s1; [exact Hs|];
  transitivity (synchronize_evaluation_fingerprints s1); [apply quiet_synchronize|];
  generalize (synchronize_evaluation_fingerprints s1); intros; split_and!; reflexivity.

Lemma quiet_verify_replacement p b r s : quiet s (verify_replacement p b r s).
Proof.
  unfold verify_replacement. cbv zeta. destruct (commute_accepted p b r); [split_and!; reflexivity|].
  unfold restore_commute_baseline. cbv zeta.
  set (s1 := restore_constraints _ _ _).
  assert (Hs : quiet s s1) by (unfold s1; split_and!; reflexivity). clearbody s1.
  quiet_after_sync s1 Hs.
Qed.
Lemma quiet_verify_schedule bp br brq rq bsq sq fp s :
  quiet s (verify_schedule cfg bp br brq rq bsq sq fp s).
Proof.
  unfold verify_schedule. destruct (schedule_accepted _ _ _ _ _); [split_and!; reflexivity|].
  set (s1 := restore_schedule _ _ _).
  assert (Hs : quiet s s1) by (unfold s1; split_and!; reflexivity). clearbody s1.
  quiet_after_sync s1 Hs.
Qed.
Lemma quiet_verify_constraints bp br brq rq bsq sq bct ct fp s :
  quiet s (verify_constraints cfg bp br brq rq bsq sq bct ct fp s).
Proof.
  unfold verify_constraints. destruct (constraints_accepted _ _ _ _ _ _ _); [split_and!; reflexivity|].
  cbv zeta. set (s1 := restore_constraints _ _ _).
  assert (Hs : quiet s s1) by (unfold s1; split_and!; reflexivity). clearbody s1.
  quiet_after_sync s1 Hs.
Qed.
Lemma quiet_verify_refill req p b rq sq ct s : quiet s (verify_refill req p b rq sq ct s).
Proof.
  unfold verify_refill. destruct (refill_accepted _ _ _ _ _ _); [split_and!; reflexivity|].
  cbv zeta. set (s1 := restore_constraints _ _ _).
  assert (Hs : quiet s s1) by (unfold s1; split_and!; reflexivity). clearbody s1.
  quiet_after_sync s1 Hs.
Qed.

Ltac phase_leaf := idtac;
  match goal with
  | |- quiet _ (synchronize_evaluation_fingerprints _) => apply quiet_synchronize
  | |- quiet _ (propose_routes _ _ _ _ _ _) => apply quiet_propose_routes
  | |- quiet _ (propose_replacement _ _ _ _ _ _ _) => apply quiet_propose_replacement
  | |- quiet _ (propose_schedule _ _ _ _ _ _ _) => apply quiet_propose_schedule
  | |- quiet _ (propose_constraints _ _ _ _ _ _ _ _) => apply quiet_propose_constraints
  | |- quiet _ (propose_refill _ _ _ _ _ _ _ _ _) => apply quiet_propose_refill
  | |- quiet _ (verify_replacement _ _ _ _) => apply quiet_verify_replacement
  | |- quiet _ (verify_schedule _ _ _ _ _ _ _ _ _) => apply quiet_verify_schedule
  | |- quiet _ (verify_constraints _ _ _ _ _ _ _ _ _ _ _) => apply quiet_verify_constraints
  | |- quiet _ (verify_refill _ _ _ _ _ _ _) => apply quiet_verify_refill
  | _ => quiet_leaf
  end.

Lemma quiet_verify_routes report r n : respects quiet (verify_routes cfg report r n).
Proof. unfold verify_routes. respects_with phase_leaf. Qed.
#[local] Hint Resolve quiet_verify_routes : frames.

Lemma quiet_optimize_routes r n : respects quiet (optimize_routes cfg r n).
Proof. unfold optimize_routes. respects_with phase_leaf. Qed.
Lemma quiet_replace_remote_attraction r n : respects quiet (replace_remote_attraction r n).
Proof. unfold replace_remote_attraction. respects_with phase_leaf. Qed.
Lemma quiet_optimize_schedule r n : respects quiet (optimize_schedule cfg r n).
Proof. unfold optimize_schedule. respects_with phase_leaf. Qed.
Lemma quiet_optimize_constraints r n : respects quiet (optimize_constraints cfg r n).
Proof. unfold optimize_constraints. respects_with phase_leaf. Qed.
Lemma quiet_refill_attractions r n : respects quiet (refill_attractions r n).
Proof. unfold refill_attractions. respects_with phase_leaf. Qed.
Lemma quiet_rebuild_plan_content r n : respects quiet (rebuild_plan_content r n).
Proof. unfold rebuild_plan_content. respects_with phase_leaf. Qed.
Lemma quiet_validate_plan now r n : respects quiet (validate_plan now r n).
Proof. unfold validate_plan. respects_with phase_leaf. Qed.
End Local.

#[export] Hint Resolve quiet_evaluate_commute quiet_evaluate_schedule quiet_evaluate_constraints
  quiet_optimize_routes quiet_replace_remote_attraction quiet_optimize_schedule
  quiet_optimize_constraints quiet_refill_attractions quiet_rebuild_plan_content
  quiet_validate_plan : frames.

(** ** A tool call *)

(** [execute_once] changes the counters and, when a budget is used up, the status. *)
Lemma execute_once_frame fmt_g fmt_2f cost call now mono mono' tool st cb :
  let '(_, st', _) := execute_once fmt_g fmt_2f cost call now mono mono' tool st cb in
  (st_session_id st', st_user_id st', st_request st', st_budget st',
   (lc_max_steps (st_life st'), lc_max_repair_attempts (st_life st'), lc_deadline_at (st_life st'),
    lc_started_at (st_life st')))
  = (st_session_id st, st_user_id st, st_request st, st_budget st,
     (lc_max_steps (st_life st), lc_max_repair_attempts (st_life st), lc_deadline_at (st_life st),
      lc_started_at (st_life st)))
  ∧ lc_current_step (st_life st') = lc_current_step (st_life st)
  ∧ lc_repair_count (st_life st') = lc_repair_count (st_life st)
  ∧ lc_finished (st_life st') = lc_finished (st_life st)
  ∧ st_conv st' = st_conv st ∧ st_facts st' = st_facts st ∧ st_evals st' = st_evals st
  ∧ st_opts st' = st_opts st.
Proof.
  unfold execute_once, pre_call_budget_reason, runtime_budget_reason. cbv zeta.
  match goal with |- context [match ?r with Some _ => (Ok _, _, _) | None => _ end] => destruct r end.
  - unfold mark_budget_exhausted, append_error_once. destruct (existsb _ _); split_and!; reflexivity.
  - destruct (before_call _ _ _) as [permit cb1]. destruct (negb _); [split_and!; reflexivity|].
    destruct call; [destruct (record_result _ _ _ _)|]; split_and!; reflexivity.
Qed.

(** ** Tool answers, retries and checkpoints *)

Section Tools.
Context `{HashEnv} `{PydanticModels} `{PlanningServices} `{AgentEnv}.
Context (cfg : AgentSettings).
Context (fmt_g fmt_2f : Q → string).

Lemma quiet_apply_supplement data : respects quiet (apply_supplement data).
Proof.
  unfold apply_supplement.
  respects_with ltac:(idtac; match goal with
    | |- quiet _ (invalidate_evaluation_fingerprints _ _) => apply quiet_invalidate
    | _ => quiet_leaf end).
Qed.
Lemma quiet_apply_routes data : respects quiet (apply_routes data).
Proof.
  unfold apply_routes.
  respects_with ltac:(idtac; match goal with
    | |- quiet _ (invalidate_evaluation_fingerprints _ _) => apply quiet_invalidate
    | _ => quiet_leaf end).
Qed.
#[local] Hint Resolve quiet_apply_supplement quiet_apply_routes : frames.

Lemma quiet_apply_tool_result a data : a ≠ REPAIR_PLAN → respects quiet (apply_tool_result cfg a data).
Proof.
  intros Ha. unfold apply_tool_result. destruct a; try done;
  respects_with ltac:(idtac; match goal with
    | |- quiet _ (invalidate_evaluation_fingerprints _ _) => apply quiet_invalidate
    | |- quiet _ (clear_route_analysis _ _) => apply quiet_clear_routes
    | _ => quiet_leaf end).
Qed.

Lemma quiet_install_repaired_plan data : respects quiet (install_repaired_plan data).
Proof.
  unfold install_repaired_plan.
  respects_with ltac:(idtac; match goal with
    | |- quiet _ (clear_route_analysis _ _) => apply quiet_clear_routes | _ => quiet_leaf end).
Qed.

(** A repair counts at most one repair. *)
Definition one_repair (s s' : AgentState) : Prop :=
  core_same s s' ∧ lc_finished (st_life s') = lc_finished (st_life s)
  ∧ lc_repair_count (st_life s) <= lc_repair_count (st_life s') <= lc_repair_count (st_life s) + 1.

Lemma quiet_one_repair s s' : quiet s s' → one_repair s s'.
Proof. intros (Hc & Hr & Hf). unfold one_repair. split; [done|]. split; [done|]. lia. Qed.

Lemma one_repair_apply data : respects one_repair (apply_tool_result cfg REPAIR_PLAN data).
Proof.
  intros s. change (apply_tool_result cfg REPAIR_PLAN data)
    with (_ ← install_repaired_plan data; modify count_repair).
  pose proof (quiet_install_repaired_plan data s) as Hq. revert Hq.
  unfold mbind, step_bind. destruct (install_repaired_plan data s) as [[[]|e] s1]; cbn [snd].
  - intros (Hc & Hr & Hf). unfold one_repair, modify. cbn [snd].
    split; [exact Hc|]. split; [exact Hf|]. cbn. lia.
  - apply quiet_one_repair.
Qed.

Lemma quiet_append_error_once msg s : quiet s (append_error_once msg s).
Proof. unfold append_error_once. quiet_leaf. Qed.

Lemma quiet_mark_budget why s : quiet s (mark_budget_exhausted why s).
Proof.
  unfold mark_budget_exhausted. etransitivity; [|apply quiet_append_error_once]. quiet_leaf.
Qed.

Lemma quiet_hook : run_respects quiet hook.
Proof. unfold hook. respects_with quiet_leaf. Qed.
#[local] Hint Resolve quiet_hook : frames.

Lemma quiet_save s : run_respects quiet (fun w => (Ok tt, w <| aw_saved := Some s |>)).
Proof. intros w. reflexivity. Qed.
#[local] Hint Resolve quiet_save : frames.

Lemma quiet_checkpoint : run_respects quiet (checkpoint cfg).
Proof.
  unfold checkpoint, append_error_unless_last.
  respects_with ltac:(idtac; match goal with
    | |- quiet _ (touch _ _) => quiet_leaf | _ => quiet_leaf end).
Qed.
#[local] Hint Resolve quiet_checkpoint : frames.

Lemma quiet_raise_budget {A} why : run_respects quiet (@raise_budget_exhausted _ cfg A why).
Proof. unfold raise_budget_exhausted. respects_with ltac:(apply quiet_mark_budget). Qed.
#[local] Hint Resolve quiet_raise_budget : frames.

Lemma quiet_decide_retry settings r n m now now' jitter cb s :
  quiet s (decide_retry fmt_g settings r n m now now' jitter cb s).2.
Proof.
  unfold decide_retry. destruct (negb _); [done|]. destruct (_ <=? _); [done|].
  case_bool_decide; [done|]. unfold runtime_budget_reason.
  assert (Hd : quiet s (refresh_duration now s)) by quiet_leaf.
  destruct (match lc_deadline_at _ with Some _ => _ | None => _ end);
    [etransitivity; [exact Hd|apply quiet_mark_budget]|].
  match goal with |- context [if ?c then _ else _] => destruct c end; [|exact Hd].
  etransitivity; [exact Hd|apply quiet_mark_budget].
Qed.

Lemma quiet_retry_decision n n' m r : run_respects quiet (retry_decision cfg fmt_g n n' m r).
Proof.
  intros w. unfold retry_decision.
  match goal with |- context [decide_retry ?a ?b ?c ?d ?e ?f ?g ?h ?i ?j] =>
    pose proof (quiet_decide_retry b c d e f g h i j) as Hq; destruct (decide_retry a b c d e f g h i j) end.
  exact Hq.
Qed.
#[local] Hint Resolve quiet_retry_decision : frames.

Lemma quiet_handle_failed s : quiet s (handle_failed_attraction_supplement s).
Proof. unfold handle_failed_attraction_supplement. cbv zeta. quiet_leaf. Qed.

Lemma quiet_retry_or_give_up a n m r text :
  run_respects quiet (retry_or_give_up cfg fmt_g a n m r text).
Proof.
  unfold retry_or_give_up.
  respects_with ltac:(idtac; match goal with
    | |- quiet _ (handle_failed_attraction_supplement _) => apply quiet_handle_failed
    | _ => quiet_leaf end).
Qed.

Lemma quiet_next_attempt a :
  run_respects quiet (fun w => let '(n, s) := next_attempt a (aw_state w) in (Ok n, w <| aw_state := s |>)).
Proof. intros w. split_and!; reflexivity. Qed.
End Tools.

#[export] Hint Resolve quiet_hook quiet_checkpoint quiet_raise_budget quiet_retry_or_give_up
  quiet_next_attempt : frames.

(** ** Actions *)

(** The frame of a tool call, as [execute_once_frame] states it. *)
Definition called (s s' : AgentState) : Prop :=
  st_budget s' = st_budget s ∧ lc_finished (st_life s') = lc_finished (st_life s)
  ∧ st_conv s' = st_conv s.

(** Proves [run_respects quiet] of simple runs. *)
Ltac quiet_run := respects_with quiet_leaf.

Section Actions.
Context `{HashEnv} `{PydanticModels} `{PlanningServices} `{AgentEnv}.
Context (cfg : AgentSettings).
Context (fmt_g fmt_2f : Q → string).

Lemma called_call_tool n n' tool payload :
  run_respects called (call_tool_at fmt_g fmt_2f n n' tool payload).
Proof.
  intros w. unfold call_tool_at.
  pose proof (execute_once_frame fmt_g fmt_2f (en_llm_call_cost tool) (en_tool n tool payload)
    (en_utc n) (en_monotonic n) (en_monotonic n') tool (aw_state w) (aw_breaker w)) as Hf.
  destruct (execute_once _ _ _ _ _ _ _ _ _ _) as [[x s] cb].
  destruct Hf as (Hs & _ & _ & Hfin & Hc & _). injection Hs as _ _ _ Hb _ _ _ _. done.
Qed.

(** A relation that the parts of an action respect is respected by the action. *)
Section Respects.
Context (R : relation AgentState) `{!PreOrder R}.
Context (Hquiet : ∀ s s', quiet s s' → R s s') (Hrepair : ∀ s s', one_repair s s' → R s s').
Context (Hcalled : ∀ s s', called s s' → R s s').

Lemma run_respects_quiet {A} (m : Run A) : run_respects quiet m → run_respects R m.
Proof. intros Hm w. apply Hquiet, Hm. Qed.

Lemma tool_action_respects a n k : run_respects R (tool_action cfg fmt_g fmt_2f a n k).
Proof.
  unfold tool_action.
  apply run_respects_bind; [apply _|apply run_respects_quiet; quiet_run|intros payload].
  apply run_respects_bind; [apply _| |intros r].
  { unfold call_tool. apply run_respects_bind; [apply _|apply run_respects_quiet; quiet_run|intros n1].
    apply run_respects_bind; [apply _|apply run_respects_quiet; quiet_run|intros n2].
    intros w. apply Hcalled, called_call_tool. }
  apply run_respects_bind; [apply _|apply run_respects_quiet; quiet_run|intros []].
  destruct (ar_success r); cbn [negb]; [|apply run_respects_quiet; quiet_run].
  apply run_respects_bind; [apply _| |intros [[]|e]; apply run_respects_quiet; quiet_run].
  apply run_respects_try. intros s. destruct (decide (a = REPAIR_PLAN)) as [->|Ha].
  - apply Hrepair, one_repair_apply.
  - apply Hquiet. by apply quiet_apply_tool_result.
Qed.

Lemma execute_action_respects a m advance :
  (∀ s, R s (on_life (fun l => l <| lc_current_step := lc_current_step l + 1 |>) s)) →
  (a = FINISH → ∀ n s, R s (finish n s)) →
  run_respects R (execute_action cfg fmt_g fmt_2f a m advance).
Proof.
  intros Hadvance Hfinish. unfold execute_action.
  apply run_respects_bind; [apply _|apply run_respects_quiet; quiet_run|intros step].
  apply run_respects_bind; [apply _| |intros []].
  { destruct advance; [apply run_respects_update, Hadvance|apply run_respects_quiet; quiet_run]. }
  apply run_respects_bind; [apply _|apply run_respects_quiet, quiet_next_attempt|intros attempt].
  destruct a; try apply tool_action_respects; try solve [apply run_respects_quiet; quiet_run].
  apply run_respects_update, (Hfinish eq_refl).
Qed.
End Respects.
End Actions.
