(* ===== verification/AgentLoopTheorems.v ===== *)
(** Theorems about whole runs of the agent: limits, termination, convergence,
    delivery, resumption. *)

From S2P Require Import Prelude PyData TripSchema AmapModels PlanReports PlanRoutes PlanContent OrderedDict.
From S2P Require Import ToolModels Circuit AgentState Convergence AgentDecision AgentAnalysis AgentPhases.
From S2P Require Import CheckpointPolicy Acceptance ExecutionPolicy AgentActions AgentLoop AgentDemo AgentFrames.
From Stdlib Require Import ZArith QArith Lia String.
From stdpp Require Import base tactics option list strings gmap.

Open Scope string_scope.
Open Scope Z_scope.

(** ** Limits *)

Definition is_ok_b {E A} (r : result E A) : bool := match r with Ok _ => true | Err _ => false end.
Definition is_ok {E A} (r : result E A) : Prop := match r with Ok _ => True | Err _ => False end.

Notation step_of s := (lc_current_step (st_life s)).
Notation repairs_of s := (lc_repair_count (st_life s)).

(** Who the session is and what it may use. *)
Definition static_view (s : AgentState) :=
  ((st_session_id s, st_user_id s, st_request s, st_budget s),
   (lc_max_steps (st_life s), lc_max_repair_attempts (st_life s), lc_deadline_at (st_life s),
    lc_started_at (st_life s))).

(** At most [d] physical steps and [r] repairs further, within the budgets. *)
Definition moves (d r : Z) (s s' : AgentState) : Prop :=
  static_view s' = static_view s
  ∧ step_of s <= step_of s' <= step_of s + d
  ∧ repairs_of s <= repairs_of s' <= repairs_of s + r
  ∧ (within_budget s → within_budget s').

Definition bounded (d r : Z) {A} (m : Run A) : Prop :=
  ∀ w, moves d r (aw_state w) (aw_state (m w).2)
       ∧ (is_ok (m w).1 → step_of (aw_state (m w).2) = step_of (aw_state w) + d).

Lemma moves_trans d1 r1 d2 r2 s1 s2 s3 :
  moves d1 r1 s1 s2 → moves d2 r2 s2 s3 → moves (d1 + d2) (r1 + r2) s1 s3.
Proof. intros (H1 & H2 & H3 & H4) (H5 & H6 & H7 & H8). split; [congruence|]. split; [lia|]. split; [lia|]. auto. Qed.

Lemma moves_weaken d r d' r' s s' : d <= d' → r <= r' → moves d r s s' → moves d' r' s s'.
Proof. intros Hd Hr (H1 & H2 & H3 & H4). split; [done|]. split; [lia|]. split; [lia|done]. Qed.

Lemma one_repair_moves s s' : one_repair s s' → moves 0 1 s s'.
Proof.
  intros (Hc & _ & Hr). unfold core_same, core_view in Hc. unfold moves, static_view, within_budget.
  injection Hc as -> -> -> -> -> -> -> -> -> -> -> _. split; [done|]. split; [lia|]. split; [lia|done].
Qed.

Lemma quiet_moves s s' : quiet s s' → moves 0 0 s s'.
Proof.
  intros (Hc & Hr & _). unfold core_same, core_view in Hc. unfold moves, static_view, within_budget.
  injection Hc as -> -> -> -> -> -> -> -> -> -> -> _. split; [done|]. split; [lia|]. split; [lia|done].
Qed.

Lemma bounded_quiet {A} (m : Run A) : run_respects quiet m → bounded 0 0 m.
Proof.
  intros Hm w. specialize (Hm w). apply quiet_moves in Hm. split; [done|]. intros _.
  destruct Hm as (_ & ? & _). lia.
Qed.

Lemma bounded_bind d1 r1 d2 r2 {A B} (m : Run A) (k : A → Run B) :
  0 <= d2 → 0 <= r2 → bounded d1 r1 m → (∀ a, bounded d2 r2 (k a)) →
  bounded (d1 + d2) (r1 + r2) (m ≫= k).
Proof.
  intros Hd Hr Hm Hk w. unfold mbind, run_bind. destruct (Hm w) as [Hw Hok].
  destruct (m w) as [[a|e] w1]; cbn [fst snd] in *.
  - destruct (Hk a w1) as [Hw' Hok']. split; [by eapply moves_trans|].
    intros Ho. rewrite Hok', Hok by done. lia.
  - split; [|done]. eapply moves_weaken; [| |exact Hw]; lia.
Qed.

Lemma bounded_bind_l d r {A B} (m : Run A) (k : A → Run B) :
  0 <= d → 0 <= r → bounded 0 0 m → (∀ a, bounded d r (k a)) → bounded d r (m ≫= k).
Proof. intros. replace d with (0 + d) by lia. replace r with (0 + r) by lia. by apply bounded_bind. Qed.
Lemma bounded_bind_r d r {A B} (m : Run A) (k : A → Run B) :
  bounded d r m → (∀ a, bounded 0 0 (k a)) → bounded d r (m ≫= k).
Proof.
  intros. replace d with (d + 0) by lia. replace r with (r + 0) by lia. apply bounded_bind; auto; lia.
Qed.

Lemma bounded_seq d r d1 r1 d2 r2 {A B} (m : Run A) (k : A → Run B) :
  d1 + d2 = d → r1 + r2 = r → 0 <= d2 → 0 <= r2 → bounded d1 r1 m → (∀ a, bounded d2 r2 (k a)) →
  bounded d r (m ≫= k).
Proof. intros <- <-. apply bounded_bind. Qed.

Lemma bounded_finally d r {A} (m : Run A) f :
  bounded d r m → bounded 0 0 f → bounded d r (try_finally m f).
Proof.
  intros Hm Hf w. unfold try_finally. destruct (Hm w) as [Hw Hok]. destruct (m w) as [x w1].
  destruct (Hf w1) as [Hw' Hok']. destruct (f w1) as [[[]|e] w2]; cbn [fst snd] in *.
  - split; [eapply moves_weaken; [| |eapply moves_trans; [exact Hw|exact Hw']]; lia|].
    intros Ho. rewrite Hok', Hok by done. lia.
  - split; [eapply moves_weaken; [| |eapply moves_trans; [exact Hw|exact Hw']]; lia|done].
Qed.

Lemma bounded_if d r {A} (b : bool) (m1 m2 : Run A) :
  bounded d r m1 → bounded d r m2 → bounded d r (if b then m1 else m2).
Proof. by destruct b. Qed.

Section Limits.
Context `{HashEnv} `{PydanticModels} `{PlanningServices} `{AgentEnv}.
Context (cfg : AgentSettings).
Context (fmt_g fmt_2f : Q → string).

Lemma bounded_call_tool_at n n' tool payload :
  bounded 0 0 (call_tool_at fmt_g fmt_2f n n' tool payload).
Proof.
  intros w. unfold call_tool_at.
  pose proof (execute_once_budget fmt_g fmt_2f (en_llm_call_cost tool) (en_tool n tool payload)
    (en_utc n) (en_monotonic n) (en_monotonic n') tool (aw_state w) (aw_breaker w)) as Hb.
  pose proof (execute_once_frame fmt_g fmt_2f (en_llm_call_cost tool) (en_tool n tool payload)
    (en_utc n) (en_monotonic n) (en_monotonic n') tool (aw_state w) (aw_breaker w)) as Hf.
  destruct (execute_once _ _ _ _ _ _ _ _ _ _) as [[r s] cb]. cbn [fst snd aw_state] in *.
  destruct Hf as (Hs & Hcs & Hr & _). split.
  - split; [exact Hs|]. split; [change (step_of (aw_state w) <= step_of s <= step_of (aw_state w) + 0); lia|].
    split; [change (repairs_of (aw_state w) <= repairs_of s <= repairs_of (aw_state w) + 0); lia|].
    intros Hw. by destruct (Hb Hw).
  - intros _. change (step_of s = step_of (aw_state w) + 0). lia.
Qed.

Lemma bounded_update f : (∀ s, moves 0 0 s (f s)) → bounded 0 0 (update f).
Proof. intros Hf w. cbn. specialize (Hf (aw_state w)). split; [done|]. intros _. destruct Hf as (_ & ? & _). lia. Qed.

Lemma bounded_tool_action a n m :
  bounded 0 (if bool_decide (a = REPAIR_PLAN) then 1 else 0) (tool_action cfg fmt_g fmt_2f a n m).
Proof.
  unfold tool_action. set (k := if bool_decide (a = REPAIR_PLAN) then 1 else 0).
  assert (Hk : 0 <= k) by (unfold k; case_bool_decide; lia).
  apply bounded_bind_l; [lia|done|apply bounded_quiet; quiet_run|intros payload].
  apply bounded_bind_l; [lia|done| |intros r].
  { unfold call_tool. apply bounded_bind_l; [lia|lia|apply bounded_quiet; quiet_run|intros n1].
    apply bounded_bind_l; [lia|lia|apply bounded_quiet; quiet_run|intros n2].
    apply bounded_call_tool_at. }
  apply bounded_bind_l; [lia|done|apply bounded_quiet; quiet_run|intros []].
  destruct (ar_success r); cbn [negb].
  - apply bounded_bind_r; [|intros [[]|e]; apply bounded_quiet; quiet_run].
    intros w. unfold try_step. destruct (decide (a = REPAIR_PLAN)) as [->|Ha].
    + pose proof (one_repair_apply cfg (ar_data r) (aw_state w)) as Ho.
      apply one_repair_moves in Ho. unfold k. rewrite bool_decide_true by done.
      destruct (apply_tool_result cfg REPAIR_PLAN (ar_data r) (aw_state w)) as [x s]. cbn in *.
      split; [done|]. intros _. destruct Ho as (_ & ? & _). lia.
    + pose proof (quiet_apply_tool_result cfg a (ar_data r) Ha (aw_state w)) as Hq.
      apply quiet_moves in Hq. unfold k. rewrite bool_decide_false by done.
      destruct (apply_tool_result cfg a (ar_data r) (aw_state w)) as [x s]. cbn in *.
      split; [done|]. intros _. destruct Hq as (_ & ? & _). lia.
  - intros w. eapply (bounded_bind_r 0 k); [|intros []; case_match; apply bounded_quiet; quiet_run].
    intros w'. destruct (bounded_quiet (update (append_failed_action a (action_reason a) n r)) ltac:(quiet_run) w')
      as [Hm Hok]. split; [eapply moves_weaken; [| |exact Hm]; lia|done].
Qed.

Definition step_cost (advance : bool) : Z := if advance then 1 else 0.
Definition repair_cost (a : AgentAction) : Z := if bool_decide (a = REPAIR_PLAN) then 1 else 0.

Lemma moves_advance s :
  moves 1 0 s (on_life (fun l => l <| lc_current_step := lc_current_step l + 1 |>) s).
Proof. split; [done|]. cbn. split; [lia|]. split; [lia|done]. Qed.

Lemma bounded_execute_action a m advance :
  bounded (step_cost advance) (repair_cost a) (execute_action cfg fmt_g fmt_2f a m advance).
Proof.
  assert (Hr : 0 <= repair_cost a) by (unfold repair_cost; case_bool_decide; lia).
  assert (Ha : 0 <= step_cost advance) by (destruct advance; simpl; lia).
  unfold execute_action. apply bounded_bind_l; [done|done|apply bounded_quiet; quiet_run|intros step].
  apply (bounded_seq _ _ (step_cost advance) 0 0 (repair_cost a)); [lia|lia|lia|done| |intros []].
  { destruct advance; [|apply bounded_quiet; quiet_run].
    intros w. cbn [update fst snd aw_state]. split; [apply moves_advance|done]. }
  apply bounded_bind_l; [lia|done|apply bounded_quiet, quiet_next_attempt|intros attempt].
  assert (Hquiet : ∀ r (mm : Run unit), 0 <= r → run_respects quiet mm → bounded 0 r mm).
  { intros r mm Hr' Hm w. destruct (bounded_quiet mm Hm w) as [Hw Hok].
    split; [eapply moves_weaken; [| |exact Hw]; lia|done]. }
  destruct a; try apply bounded_tool_action; try solve [apply Hquiet; [done|quiet_run]].
  apply bounded_update. intros s. split; [done|]. cbn. split; [lia|]. split; [lia|done].
Qed.

Lemma moves_note a fp key before after i s : moves 0 0 s (note_result a fp key before after i s).
Proof. split; [done|]. cbn. split; [lia|]. split; [lia|done]. Qed.
Lemma moves_mark_compressed root i n k a s : moves 0 0 s (mark_compressed root i n k a s).
Proof.
  unfold mark_compressed. destruct (drop n _); (split; [done|]); cbn; (split; [lia|]; split; [lia|done]).
Qed.
Lemma moves_start_batch b s : moves 0 0 s (start_batch b s).
Proof. unfold start_batch. destruct b; (split; [done|]); cbn; (split; [lia|]; split; [lia|done]). Qed.
Lemma moves_conv_stopped why s : moves 0 0 s (mark_convergence_stopped why s).
Proof.
  unfold mark_convergence_stopped, append_error_once. destruct (existsb _ _);
    (split; [done|]); cbn; (split; [lia|]; split; [lia|done]).
Qed.

Lemma bounded_prepare a : bounded 0 0 (prepare_convergence_action cfg a).
Proof.
  unfold prepare_convergence_action. apply bounded_bind_l; [done|done|apply bounded_quiet; quiet_run|intros s].
  apply bounded_if; [|apply bounded_quiet; quiet_run].
  unfold raise_convergence_stopped. apply bounded_bind_l; [done|done| |intros []; apply bounded_quiet; quiet_run].
  apply bounded_update, moves_conv_stopped.
Qed.

Lemma bounded_record a fp key before i :
  bounded 0 0 (record_convergence_result cfg a fp key before i).
Proof.
  unfold record_convergence_result. apply bounded_bind_l; [done|done|apply bounded_quiet; quiet_run|intros after].
  apply bounded_bind_l; [done|done|apply bounded_update, moves_note|intros []].
  apply bounded_if; [apply bounded_quiet; quiet_run|].
  apply bounded_bind_l; [done|done|apply bounded_quiet; quiet_run|intros streak].
  apply bounded_bind_l; [done|done|apply bounded_quiet; quiet_run|intros limit].
  apply bounded_if; [|apply bounded_quiet; quiet_run].
  unfold raise_convergence_stopped. apply bounded_bind_l; [done|done| |intros []; apply bounded_quiet; quiet_run].
  apply bounded_update, moves_conv_stopped.
Qed.

Lemma quiet_choose_action : run_respects quiet (choose_action cfg).
Proof. intros w. reflexivity. Qed.

Lemma quiet_check_runtime_budget : run_respects quiet (check_runtime_budget cfg fmt_g).
Proof.
  unfold check_runtime_budget. apply run_respects_bind; [apply _|quiet_run|intros n].
  apply run_respects_bind; [apply _| |intros [why|]; quiet_run].
  intros w. unfold runtime_budget_reason.
  destruct (match lc_deadline_at _ with Some _ => _ | None => _ end); split_and!; reflexivity.
Qed.

(** Only what is not compressible asks for a repair. *)
Lemma compressible_cost a : compressible a = true → repair_cost a = 0.
Proof. by destruct a. Qed.

Lemma bounded_drain n index root i : bounded 0 0 (drain_local_actions cfg fmt_g fmt_2f n index root i).
Proof.
  revert index. induction n as [|n IH]; intros index; cbn [drain_local_actions];
    [apply bounded_quiet; quiet_run|].
  apply bounded_bind_l; [done|done|apply bounded_quiet; quiet_run|intros []].
  apply bounded_bind_l; [done|done|apply bounded_quiet; quiet_run|intros finished].
  apply bounded_if; [apply bounded_quiet; quiet_run|].
  apply bounded_bind_l; [done|done|apply bounded_quiet, quiet_check_runtime_budget|intros []].
  apply bounded_bind_l; [done|done|apply bounded_quiet, quiet_choose_action|intros a].
  destruct (compressible a) eqn:Ea; cbn [negb]; [|apply bounded_quiet; quiet_run].
  apply bounded_bind_l; [done|done|apply bounded_update, moves_start_batch|intros []].
  apply bounded_bind_l; [done|done|apply bounded_prepare|intros [fp key]].
  apply bounded_bind_l; [done|done|apply bounded_quiet; quiet_run|intros before].
  apply bounded_bind_l; [done|done|apply bounded_quiet; quiet_run|intros start].
  apply bounded_bind_l; [done|done| |intros []].
  - apply bounded_finally; [|apply bounded_update, moves_mark_compressed].
    pose proof (bounded_execute_action a None false) as He. by rewrite compressible_cost in He.
  - apply bounded_bind_l; [done|done|apply bounded_quiet; quiet_run|intros [i'|];
      [|apply bounded_quiet; quiet_run]].
    apply bounded_bind_l; [done|done|apply bounded_record|intros []; apply IH].
Qed.

(** ** One physical step *)

(** What [physical_step] does once the action is chosen. *)
Definition after_choice (attempts : odict Z) (a : AgentAction) : Run (odict Z) :=
  _ ← hook;
  '(fp, key) ← prepare_convergence_action cfg a;
  before ← reads business_state_fingerprint;
  start ← reads (fun s => length (au_history (st_audit s)));
  let attempt := default 0 (od_get (action_value a) attempts) + 1 in
  _ ← try_finally
        (_ ← execute_action cfg fmt_g fmt_2f a (Some attempt) true;
         found ← reads (find_successful_action_record a start);
         match found with
         | None => mret tt
         | Some record =>
             _ ← record_convergence_result cfg a fp key before record;
             limit ← reads (fun s => eb_max_local_actions_per_step (st_budget s));
             drain_local_actions cfg fmt_g fmt_2f (Z.to_nat limit) 1 a record
         end)
        (_ ← hook; _ ← checkpoint cfg; hook);
  mret (od_set (action_value a) attempt attempts).

Lemma physical_step_eq attempts :
  physical_step cfg fmt_g fmt_2f attempts
  = (_ ← hook; _ ← check_runtime_budget cfg fmt_g; a ← choose_action cfg; after_choice attempts a).
Proof. reflexivity. Qed.

Lemma bounded_after_choice attempts a : bounded 1 (repair_cost a) (after_choice attempts a).
Proof.
  assert (Hr : 0 <= repair_cost a) by (unfold repair_cost; case_bool_decide; lia).
  unfold after_choice.
  apply bounded_bind_l; [done|done|apply bounded_quiet; quiet_run|intros []].
  apply bounded_bind_l; [done|done|apply bounded_prepare|intros [fp key]].
  apply bounded_bind_l; [done|done|apply bounded_quiet; quiet_run|intros before].
  apply bounded_bind_l; [done|done|apply bounded_quiet; quiet_run|intros start].
  apply bounded_bind_r; [|intros []; apply bounded_quiet; quiet_run].
  apply bounded_finally; [|apply bounded_quiet; quiet_run].
  apply bounded_bind_r; [apply (bounded_execute_action a (Some _) true)|intros []].
  apply bounded_bind_l; [done|done|apply bounded_quiet; quiet_run|intros [i'|];
    [|apply bounded_quiet; quiet_run]].
  apply bounded_bind_l; [done|done|apply bounded_record|intros []].
  apply bounded_bind_l; [done|done|apply bounded_quiet; quiet_run|intros limit].
  apply bounded_drain.
Qed.

(** A physical step is one step and stays under the repair limit. *)
Definition step_moves (s s' : AgentState) : Prop :=
  moves 1 1 s s' ∧ (repairs_of s <= lc_max_repair_attempts (st_life s) →
                    repairs_of s' <= lc_max_repair_attempts (st_life s)).

Lemma quiet_step_moves s s' : quiet s s' → step_moves s s'.
Proof.
  intros Hq. pose proof (quiet_moves _ _ Hq) as Hm. destruct Hq as (_ & Hr & _).
  split; [eapply moves_weaken; [| |exact Hm]; lia|lia].
Qed.

Lemma chosen_repair_useful w :
  (choose_action cfg w).1 = Ok REPAIR_PLAN →
  repairs_of (aw_state w) < lc_max_repair_attempts (st_life (aw_state w)).
Proof.
  unfold choose_action. cbn [fst].
  destruct (decide_next_action (as_max_restaurant_anchors cfg) (aw_state w)) as [a|] eqn:E; [|done].
  intros [= ->]. apply repair_useful in E. by destruct E as (p & v & _ & _ & _ & _ & _ & ?).
Qed.

Lemma physical_step_moves attempts w :
  let '(r, w') := physical_step cfg fmt_g fmt_2f attempts w in
  step_moves (aw_state w) (aw_state w') ∧ (is_ok r → step_of (aw_state w') = step_of (aw_state w) + 1).
Proof.
  rewrite physical_step_eq. unfold mbind, run_bind at 1.
  pose proof (quiet_hook w) as Q1. destruct (hook w) as [[[]|e] w1]; cbn [snd] in Q1;
    [|by split; [apply quiet_step_moves|]].
  unfold run_bind at 1. pose proof (quiet_check_runtime_budget w1) as Q2.
  destruct (check_runtime_budget cfg fmt_g w1) as [[[]|e] w2]; cbn [snd] in Q2;
    [|split; [apply quiet_step_moves; by etransitivity|done]].
  assert (Q : quiet (aw_state w) (aw_state w2)) by (by etransitivity). clear Q1 Q2.
  unfold run_bind at 1. pose proof (chosen_repair_useful w2) as Hrep.
  pose proof (quiet_choose_action w2) as Q3.
  destruct (choose_action cfg w2) as [[a|e] w3] eqn:Ec; cbn [fst snd] in *;
    [|by split; [apply quiet_step_moves; etransitivity|]].
  assert (Q' : quiet (aw_state w) (aw_state w3)) by (by etransitivity).
  assert (Hw : aw_state w3 = aw_state w2) by (unfold choose_action in Ec; by injection Ec as _ <-).
  destruct (bounded_after_choice attempts a w3) as [Hm Hok].
  destruct (after_choice attempts a w3) as [r w4]. cbn [fst snd] in *.
  pose proof (quiet_moves _ _ Q') as Hq.
  assert (Hrm : moves 1 (repair_cost a) (aw_state w) (aw_state w4)).
  { eapply moves_weaken; [| |eapply moves_trans; [exact Hq|exact Hm]]; lia. }
  split; [split|].
  - eapply moves_weaken; [| |exact Hrm]; [lia|]. unfold repair_cost. case_bool_decide; lia.
  - destruct Hrm as (Hs & _ & Hr & _). unfold repair_cost in Hr. case_bool_decide as Ea; [|lia].
    subst a. specialize (Hrep eq_refl). destruct Q as (Hc & Hrs & _).
    assert (lc_max_repair_attempts (st_life (aw_state w2)) = lc_max_repair_attempts (st_life (aw_state w)))
      by (by injection Hc). lia.
  - intros Ho. rewrite (Hok Ho). destruct Hq as (_ & ? & _). lia.
Qed.

(** ** A whole run *)

Record InLimits (s : AgentState) : Prop := mkInLimits {
  il_budget : within_budget s;
  il_steps : step_of s <= lc_max_steps (st_life s);
  il_repairs : repairs_of s <= lc_max_repair_attempts (st_life s)
}.

Lemma in_limits_step s s' :
  InLimits s → step_of s < lc_max_steps (st_life s) → step_moves s s' →
  InLimits s' ∧ static_view s' = static_view s.
Proof.
  intros [Hb Hs Hr] Hlt [(Hstat & Hst & _ & Hbud) Hrep].
  split; [|done]. unfold static_view in Hstat. injection Hstat as _ _ _ _ Hmax Hmaxr _ _.
  split; [by apply Hbud|lia|]. rewrite Hmaxr. by apply Hrep.
Qed.

Lemma in_limits_quiet s s' : InLimits s → quiet s s' → InLimits s' ∧ static_view s' = static_view s.
Proof.
  intros [Hb Hs Hr] Hq. destruct (quiet_moves _ _ Hq) as (Hstat & Hst & Hrep & Hbud).
  split; [|done]. unfold static_view in Hstat. injection Hstat as _ _ _ _ Hmax Hmaxr _ _.
  split; [by apply Hbud|lia|lia].
Qed.

Lemma run_loop_in_limits fuel attempts w r w' :
  InLimits (aw_state w) → run_loop cfg fmt_g fmt_2f fuel attempts w = Some (r, w') →
  InLimits (aw_state w') ∧ static_view (aw_state w') = static_view (aw_state w).
Proof.
  revert attempts w. induction fuel as [|fuel IH]; intros attempts w Hin; cbn [run_loop];
    destruct (loop_goes_on (aw_state w)) eqn:Eg; [done|by intros [= <- <-]| |by intros [= <- <-]].
  unfold loop_goes_on in Eg. apply andb_true_iff in Eg as [_ Hlt]. apply Z.ltb_lt in Hlt.
  pose proof (physical_step_moves attempts w) as Hp.
  destruct (physical_step cfg fmt_g fmt_2f attempts w) as [[attempts1|e] w1]; destruct Hp as [Hm _];
    destruct (in_limits_step _ _ Hin Hlt Hm) as [Hin1 Hs1].
  - intros Hrun. destruct (IH attempts1 w1 Hin1 Hrun) as [Hin' Hs']. split; [done|congruence].
  - by intros [= <- <-].
Qed.

Lemma run_loop_terminates fuel attempts w :
  (steps_left (aw_state w) <= fuel)%nat → run_loop cfg fmt_g fmt_2f fuel attempts w ≠ None.
Proof.
  revert attempts w. induction fuel as [|fuel IH]; intros attempts w Hf; cbn [run_loop];
    destruct (loop_goes_on (aw_state w)) eqn:Eg; try done;
    unfold loop_goes_on in Eg; apply andb_true_iff in Eg as [_ Hlt]; apply Z.ltb_lt in Hlt;
    unfold steps_left in *; [lia|].
  pose proof (physical_step_moves attempts w) as Hp.
  destruct (physical_step cfg fmt_g fmt_2f attempts w) as [[attempts1|e] w1]; [|done].
  destruct Hp as [[(Hstat & _) _] Hok]. specialize (Hok I). apply IH.
  unfold static_view in Hstat. injection Hstat as _ _ _ _ Hmax _ _ _. lia.
Qed.

Lemma quiet_end_of_run : run_respects quiet (end_of_run cfg).
Proof. unfold end_of_run. quiet_run. Qed.

Lemma quiet_start_of_run :
  run_respects quiet (_ ← update (set_agent_status running); checkpoint cfg).
Proof. quiet_run. Qed.

(** What happens before the loop and after it. *)
Lemma run_state_cases fuel w :
  ∃ w1 start, (_ ← update (set_agent_status running); checkpoint cfg) w = (start, w1)
    ∧ quiet (aw_state w) (aw_state w1)
    ∧ (∀ out, run_state cfg fmt_g fmt_2f fuel w = Some out ↔
        match start with
        | Err e => out = (Err e, w1)
        | Ok _ => ∃ r w2, run_loop cfg fmt_g fmt_2f fuel [] w1 = Some (r, w2)
                          ∧ out = match r with Err e => (Err e, w2) | Ok _ => end_of_run cfg w2 end
        end).
Proof.
  pose proof (quiet_start_of_run w) as Hq. unfold run_state.
  destruct ((_ ← update (set_agent_status running); checkpoint cfg) w) as [[a|e] w1] eqn:E;
    exists w1; eexists; (split; [done|]); (split; [exact Hq|]); intros out.
  - destruct (run_loop cfg fmt_g fmt_2f fuel [] w1) as [[[[]|e] w2]|]; split.
    + intros [= <-]. by exists (Ok tt), w2.
    + by intros (r & w3 & [= <- <-] & ->).
    + intros [= <-]. by exists (Err e), w2.
    + by intros (r & w3 & [= <- <-] & ->).
    + done.
    + by intros (r & w3 & [=] & _).
  - split; [by intros [= <-]|by intros ->].
Qed.

Lemma run_state_in_limits fuel w r w' :
  InLimits (aw_state w) → run_state cfg fmt_g fmt_2f fuel w = Some (r, w') →
  InLimits (aw_state w') ∧ static_view (aw_state w') = static_view (aw_state w).
Proof.
  intros Hin. destruct (run_state_cases fuel w) as (w1 & start & _ & Hq & Hcases).
  rewrite Hcases. destruct (in_limits_quiet _ _ Hin Hq) as [Hin1 Hs1].
  destruct start as [[]|e]; [|by intros [= -> ->]].
  intros (r1 & w2 & Hrun & Hout).
  destruct (run_loop_in_limits _ _ _ _ _ Hin1 Hrun) as [Hin2 Hs2].
  destruct r1 as [[]|e]; [|injection Hout as -> ->; split; [done|congruence]].
  pose proof (quiet_end_of_run w2) as Hq2. rewrite <- Hout in Hq2.
  destruct (in_limits_quiet _ _ Hin2 Hq2) as [Hin3 Hs3]. split; [done|]. cbn [fst snd] in *. congruence.
Qed.

Lemma run_loop_fuel fuel attempts w out :
  run_loop cfg fmt_g fmt_2f fuel attempts w = Some out →
  ∀ fuel', (fuel <= fuel')%nat → run_loop cfg fmt_g fmt_2f fuel' attempts w = Some out.
Proof.
  revert attempts w. induction fuel as [|fuel IH]; intros attempts w Hrun [|fuel'] Hle; try lia;
    cbn [run_loop] in *; destruct (loop_goes_on (aw_state w)); try done.
  destruct (physical_step _ _ _ _ _) as [[a|e] w1]; [|done]. apply IH; [done|lia].
Qed.

Lemma run_state_terminates w :
  ∃ out, ∀ fuel, (steps_left (aw_state w) <= fuel)%nat → run_state cfg fmt_g fmt_2f fuel w = Some out.
Proof.
  destruct (run_state_cases 0 w) as (w1 & start & Hstart & Hq & _).
  assert (Hleft : steps_left (aw_state w1) = steps_left (aw_state w)).
  { destruct (quiet_moves _ _ Hq) as (Hstat & Hst & _). unfold static_view in Hstat.
    injection Hstat as _ _ _ _ Hmax _ _ _. unfold steps_left. lia. }
  unfold run_state. rewrite Hstart. destruct start as [[]|e]; [|by eexists].
  destruct (run_loop cfg fmt_g fmt_2f (steps_left (aw_state w1)) [] w1) as [[[[]|e] w2]|] eqn:Hrun;
    [| |by apply run_loop_terminates in Hrun].
  all: eexists; intros fuel Hf; rewrite (run_loop_fuel _ _ _ _ Hrun fuel) by lia; reflexivity.
Qed.

(** C2: a run of the agent always ends: whatever the tools, the services, the
    store and the clock answer, the [max_steps - current_step] physical steps
    left are enough turns of the loop, and a longer bound gives the same
    outcome. *)
Theorem runs_terminate w :
  ∃ out, ∀ fuel, (steps_left (aw_state w) <= fuel)%nat → run_state cfg fmt_g fmt_2f fuel w = Some out.
Proof. apply run_state_terminates. Qed.

(** a run that is resumed keeps its limits on every exit, normal or by an
    exception: tool calls, model calls, physical steps and repairs stay within
    the budget the session was created with, and the session, its request, its
    budget, its limits and its deadline are what they were. *)
Theorem resumed_runs_stay_in_limits w :
  InLimits (aw_state w) →
  ∃ r w', resume cfg fmt_g fmt_2f (steps_left (aw_state w)) w = Some (r, w')
    ∧ InLimits (aw_state w') ∧ static_view (aw_state w') = static_view (aw_state w).
Proof.
  intros Hin. unfold resume. destruct (_ || _); [by exists (Ok tt), w|].
  destruct (run_state_terminates w) as [[r w'] Hout]. specialize (Hout _ (le_n _)).
  exists r, w'. split; [done|]. by eapply run_state_in_limits.
Qed.

Lemma create_in_limits req b sid uid now :
  budget_fields_ok b = true → InLimits (create_state req b sid uid now).
Proof.
  intros Hb. unfold budget_fields_ok in Hb. repeat (apply andb_true_iff in Hb as [Hb ?]).
  apply Z.leb_le in Hb. match goal with H : forallb (fun f => 0 <=? f b) _ = true |- _ => rename H into Hall end. rewrite forallb_forall in Hall.
  assert (Hpos : ∀ f, f ∈ [eb_max_tool_calls; eb_max_llm_calls; eb_max_repair_attempts] → 0 <= f b).
  { intros f Hf. apply Z.leb_le, Hall. apply list_elem_of_In in Hf. simpl in *. intuition. }
  split; [split; apply Hpos; simpl; set_solver|cbn; lia|apply Hpos; set_solver].
Qed.

(** C3: a new session with a valid budget ends with at most [max_tool_calls]
    tool calls, [max_llm_calls] model calls, [max_steps] physical steps and
    [max_repair_attempts] model repairs, however it ends; [max_steps] turns of
    the loop are enough. *)
Theorem new_session_within_budget req b sid uid cb :
  budget_fields_ok b = true →
  ∃ r w', run_session cfg fmt_g fmt_2f (Z.to_nat (eb_max_steps b)) req b sid uid cb = Some (r, w')
    ∧ us_tool_call_count (st_usage (aw_state w')) <= eb_max_tool_calls b
    ∧ us_llm_call_count (st_usage (aw_state w')) <= eb_max_llm_calls b
    ∧ step_of (aw_state w') <= eb_max_steps b
    ∧ repairs_of (aw_state w') <= eb_max_repair_attempts b.
Proof.
  intros Hb. unfold run_session. set (w := mkAgentWorld _ _ _ _).
  pose proof (create_in_limits req b sid uid (en_utc 0) Hb) as Hin.
  destruct (run_state_terminates w) as [[r w'] Hout].
  specialize (Hout (Z.to_nat (eb_max_steps b))). unfold steps_left in Hout. cbn in Hout.
  rewrite Z.sub_0_r in Hout. specialize (Hout (le_n _)). exists r, w'. split; [done|].
  destruct (run_state_in_limits _ _ _ _ (Hin : InLimits (aw_state w)) Hout) as [[[Ht Hl] Hs Hr] Hstat].
  unfold static_view in Hstat. injection Hstat as _ _ _ Hbud Hmax Hmaxr _ _. cbn in Hbud, Hmax, Hmaxr.
  rewrite Hbud in Ht, Hl. rewrite Hmax in Hs. rewrite Hmaxr in Hr. done.
Qed.
End Limits.

(** ** Concrete runs *)

#[local] Transparent gmap_empty.

Lemma demo_limits : InLimits (aw_state new_world).
Proof. by apply create_in_limits. Qed.

Lemma resumed_runs_stay_in_limits_witness :
  ∃ r w', @resume demo_hash demo_models (demo_services [overtime]) demo_env demo_settings demo_format
            demo_format 24 new_world = Some (r, w')
    ∧ InLimits (aw_state w') ∧ static_view (aw_state w') = static_view (aw_state new_world).
Proof.
  exact (@resumed_runs_stay_in_limits demo_hash demo_models (demo_services [overtime]) demo_env
           demo_settings demo_format demo_format new_world demo_limits).
Defined.

Lemma new_session_within_budget_witness :
  ∃ r w', @run_session demo_hash demo_models (demo_services []) demo_env demo_settings demo_format
            demo_format 24 sample_request demo_budget "s1" None (mkBreaker 3 30 ∅) = Some (r, w')
    ∧ us_tool_call_count (st_usage (aw_state w')) <= 30
    ∧ us_llm_call_count (st_usage (aw_state w')) <= 6
    ∧ step_of (aw_state w') <= 24 ∧ repairs_of (aw_state w') <= 2.
Proof.
  apply (@new_session_within_budget demo_hash demo_models (demo_services []) demo_env
           demo_settings demo_format demo_format sample_request demo_budget). reflexivity.
Defined.

(** The actions of a session from its creation to the delivered plan. *)
Example a_new_session_delivers :
  option_map (fun '(r, w) => (r, actions_of w)) (demo_run [] 24 new_world)
  = Some (Ok tt, [SEARCH_ATTRACTIONS; GET_WEATHER; SEARCH_HOTELS; GENERATE_PLAN; ESTIMATE_ROUTES;
                  EVALUATE_COMMUTE; SEARCH_RESTAURANTS; REBUILD_PLAN_CONTENT; EVALUATE_CONSTRAINTS;
                  VALIDATE_PLAN; FINISH]).
Proof. vm_compute. reflexivity. Qed.

(** A validation error that no repair removes: two repairs, then failure. *)
Example repairs_end_in_failure :
  option_map (fun '(r, w) => (is_ok_b r, repairs_of (aw_state w), lc_status (st_life (aw_state w))))
    (demo_run [mkIssue "plan.city_mismatch" SevError "city" "城市不一致" "" true JNull JNull] 24 new_world)
  = Some (false, 2, failed).
Proof. vm_compute. reflexivity. Qed.
