(* ===== verification/AgentDelivery.v ===== *)
(** What a returned run has delivered, what the store then holds, and the
    bounds of the convergence record.  The proofs use a small program logic for
    runs: [hoare P m Q E] bounds the normal exits of [m] by [Q] and its
    exceptions by [E]. *)

From S2P Require Import Prelude PyData TripSchema AmapModels PlanReports PlanRoutes PlanContent OrderedDict.
From S2P Require Import ToolModels Circuit AgentState Convergence AgentDecision AgentAnalysis AgentPhases.
From S2P Require Import CheckpointPolicy Acceptance ExecutionPolicy AgentActions AgentLoop AgentDemo AgentFrames.
From S2P Require Import AgentLoopTheorems.
From Stdlib Require Import ZArith QArith Lia String.
From stdpp Require Import base tactics option list strings gmap.

Open Scope string_scope.
Open Scope Z_scope.

(** ** Program logic *)

Definition hoare (P : AgentWorld → Prop) {A} (m : Run A) (Q : A → AgentWorld → Prop)
    (E : AgentWorld → Prop) : Prop :=
  ∀ w, P w → match m w with (Ok a, w') => Q a w' | (Err _, w') => E w' end.

(** Assertions about the state alone. *)
Definition at_state (P : AgentState → Prop) (w : AgentWorld) : Prop := P (aw_state w).
Definition anyhow (w : AgentWorld) : Prop := True.

Lemma hoare_bind P {A B} (m : Run A) (k : A → Run B) Q R E :
  hoare P m Q E → (∀ a, hoare (Q a) (k a) R E) → hoare P (m ≫= k) R E.
Proof.
  intros Hm Hk w Hw. unfold mbind, run_bind. specialize (Hm w Hw).
  destruct (m w) as [[a|e] w1]; [|done]. by apply Hk.
Qed.
Lemma hoare_ret (P : AgentWorld → Prop) {A} (a : A) (Q : A → AgentWorld → Prop) E :
  (∀ w, P w → Q a w) → hoare P (mret a) Q E.
Proof. intros HP w Hw. by apply HP. Qed.
Lemma hoare_raise (P : AgentWorld → Prop) {A} e (Q : A → AgentWorld → Prop) (E : AgentWorld → Prop) :
  (∀ w, P w → E w) → hoare P (raise e) Q E.
Proof. intros HP w Hw. by apply HP. Qed.
Lemma hoare_reads P {A} (f : AgentState → A) Q E :
  (∀ w, P w → Q (f (aw_state w)) w) → hoare P (reads f) Q E.
Proof. intros HP w Hw. by apply HP. Qed.
Lemma hoare_update P f Q E :
  (∀ s, P s → Q (f s)) → hoare (at_state P) (update f) (fun _ => at_state Q) E.
Proof. intros HP w Hw. by apply HP. Qed.
Lemma hoare_pre P P' {A} (m : Run A) Q E : (∀ w, P w → P' w) → hoare P' m Q E → hoare P m Q E.
Proof. intros HP Hm w Hw. by apply Hm, HP. Qed.
Lemma hoare_post P {A} (m : Run A) (Q Q' : A → AgentWorld → Prop) E :
  (∀ a w, Q a w → Q' a w) → hoare P m Q E → hoare P m Q' E.
Proof. intros HQ Hm w Hw. specialize (Hm w Hw). destruct (m w) as [[a|e] w']; auto. Qed.
Lemma hoare_err P {A} (m : Run A) Q (E E' : AgentWorld → Prop) :
  (∀ w, E w → E' w) → hoare P m Q E → hoare P m Q E'.
Proof. intros HE Hm w Hw. specialize (Hm w Hw). destruct (m w) as [[a|e] w']; auto. Qed.
Lemma hoare_if P (b : bool) {A} (m1 m2 : Run A) Q E :
  (b = true → hoare P m1 Q E) → (b = false → hoare P m2 Q E) → hoare P (if b then m1 else m2) Q E.
Proof. destruct b; auto. Qed.
Lemma hoare_finally P {A} (m : Run A) f Q R (E : AgentWorld → Prop) :
  hoare P m Q E → (∀ a, hoare (Q a) f (fun _ => R a) E) → hoare E f (fun _ => E) E →
  hoare P (try_finally m f) R E.
Proof.
  intros Hm Hf He w Hw. specialize (Hm w Hw). unfold try_finally.
  destruct (m w) as [[a|e] w1]; [specialize (Hf a w1 Hm)|specialize (He w1 Hm)];
    destruct (f w1) as [[[]|e'] w2]; done.
Qed.

(** A run that respects [R] keeps what [R] carries over. *)
Lemma hoare_frame (R : relation AgentState) (P Q : AgentState → Prop) {A} (m : Run A) :
  run_respects R m → (∀ s s', R s s' → P s → Q s') →
  hoare (at_state P) m (fun _ => at_state Q) (at_state Q).
Proof.
  intros Hm HR w Hw. specialize (Hm w). unfold at_state in *.
  destruct (m w) as [[a|e] w']; by eapply HR.
Qed.
(** The same, when exceptions do not matter. *)
Lemma hoare_frame_ok (R : relation AgentState) (P Q : AgentState → Prop) {A} (m : Run A) :
  run_respects R m → (∀ s s', R s s' → P s → Q s') →
  hoare (at_state P) m (fun _ => at_state Q) anyhow.
Proof.
  intros Hm HR w Hw. specialize (Hm w). unfold at_state in *.
  destruct (m w) as [[a|e] w']; [|done]. by eapply HR.
Qed.
Lemma hoare_finally_ok P {A} (m : Run A) f Q R :
  hoare P m Q anyhow → (∀ a, hoare (Q a) f (fun _ => R a) anyhow) →
  hoare P (try_finally m f) R anyhow.
Proof. intros Hm Hf. eapply hoare_finally; [exact Hm|exact Hf|]. intros w _. by destruct (f w) as [[]]. Qed.

(** ** What delivery depends on *)

(** Same request, budget, facts, evaluations and optimisations. *)
Definition judged (s s' : AgentState) : Prop :=
  st_request s' = st_request s ∧ st_budget s' = st_budget s ∧ st_facts s' = st_facts s
  ∧ st_evals s' = st_evals s ∧ st_opts s' = st_opts s.

(** [judged], and as finished as before. *)
Definition settled_same (s s' : AgentState) : Prop :=
  judged s s' ∧ lc_finished (st_life s') = lc_finished (st_life s)
  ∧ lc_status (st_life s') = lc_status (st_life s).

#[export] Instance settled_same_preorder : PreOrder settled_same.
Proof.
  split; [done|]. unfold settled_same, judged. intros x y z (H1 & H2) (H3 & H4). naive_solver congruence.
Qed.

Ltac settled_leaf := split; [split_and!; reflexivity|split; reflexivity].

Section Delivery.
Context `{HashEnv} `{PydanticModels} `{PlanningServices} `{AgentEnv}.
Context (cfg : AgentSettings).
Context (fmt_g fmt_2f : Q → string).

Notation max_anchors := (as_max_restaurant_anchors cfg).

(** The plan of [s] is checked, current and acceptable. *)
Definition ready (s : AgentState) : Prop :=
  ∃ p, ReadyToDeliver max_anchors s p ∧ deliverable s = true.

Lemma judged_ready s s' : judged s s' → ready s → ready s'.
Proof.
  destruct s, s'. intros (Eq1 & Eq2 & Eq3 & Eq4 & Eq5). cbn in *. subst.
  intros (p & [R1 R2 R3 R4 R5 R6 R7 R8] & Hd). exists p. split; [by constructor|exact Hd].
Qed.

(** The completion mode and warnings are not part of the judgement. *)
Lemma completion_ready g h s :
  ready s → ready (on_evals (fun e => e <| ev_completion_mode := g |> <| ev_completion_warnings := h |>) s).
Proof.
  destruct s as [? ? ? ? ? ? ? [] ? ? ?]. intros (p & [R1 R2 R3 R4 R5 R6 R7 R8] & Hd).
  exists p. split; [by constructor|exact Hd].
Qed.

Definition unfinished (s : AgentState) : Prop := lc_finished (st_life s) = false.
Definition delivered (s : AgentState) : Prop :=
  lc_finished (st_life s) = true ∧ lc_status (st_life s) = completed ∧ ready s.
(** The invariant of a run. *)
Definition delivery_ok (s : AgentState) : Prop := unfinished s ∨ delivered s.

Lemma settled_ok s s' : settled_same s s' → delivery_ok s → delivery_ok s'.
Proof.
  intros (Hj & Hf & Hst) [Hu|(Hd & Hc & Hr)].
  - left. unfold unfinished in *. congruence.
  - right. split; [congruence|]. split; [congruence|]. by eapply judged_ready.
Qed.

Definition same_finished (s s' : AgentState) : Prop :=
  lc_finished (st_life s') = lc_finished (st_life s).
#[export] Instance same_finished_preorder : PreOrder same_finished.
Proof. split; [done|]. unfold same_finished. intros ??? ??. congruence. Qed.

Lemma quiet_same_finished {A} (m : Run A) : run_respects quiet m → run_respects same_finished m.
Proof. intros Hm w. by destruct (Hm w) as (_ & _ & ?). Qed.

Lemma execute_action_same_finished a m advance :
  a ≠ FINISH → run_respects same_finished (execute_action cfg fmt_g fmt_2f a m advance).
Proof.
  intros Ha. apply execute_action_respects; [apply _| | | |by intros s|done].
  - by intros s s' (_ & _ & ?).
  - by intros s s' (_ & ? & _).
  - by intros s s' (_ & ? & _).
Qed.

Lemma finish_delivers n s : ready s → delivered (finish n s).
Proof.
  intros Hr. unfold finish. split; [reflexivity|]. split; [reflexivity|].
  eapply judged_ready; [|eapply completion_ready, Hr]. split_and!; reflexivity.
Qed.

(** [FINISH] on a plan that is ready delivers it. *)
Lemma execute_finish m advance :
  hoare (at_state ready) (execute_action cfg fmt_g fmt_2f FINISH m advance)
    (fun _ => at_state delivered) anyhow.
Proof.
  unfold execute_action. apply (hoare_bind _ _ _ (fun _ => at_state ready)).
  { by apply hoare_reads. }
  intros step. apply (hoare_bind _ _ _ (fun _ => at_state ready)).
  { destruct advance.
    - apply hoare_update. intros s. apply judged_ready. split_and!; reflexivity.
    - destruct (step <? 1); [by apply hoare_raise|by apply hoare_ret]. }
  intros []. apply (hoare_bind _ _ _ (fun _ => at_state ready)).
  { intros w Hw. cbn. eapply judged_ready; [|exact Hw]. split_and!; reflexivity. }
  intros attempt. apply hoare_update. intros s. apply finish_delivers.
Qed.

(** ** The parts of a turn *)

Lemma hoare_hook P : hoare (at_state P) hook (fun _ => at_state P) anyhow.
Proof. intros w Hw. unfold hook, tick, mbind, run_bind. by destruct (en_hook (aw_tick w)) as [[]|]. Qed.

Lemma hoare_checkpoint (P : AgentState → Prop) :
  (∀ now s, P s → P (touch now s)) → hoare (at_state P) (checkpoint cfg) (fun _ => at_state P) anyhow.
Proof.
  intros HP. unfold checkpoint. apply (hoare_bind _ _ _ (fun _ => at_state P)); [apply hoare_hook|].
  intros []. apply (hoare_bind _ _ _ (fun _ => at_state P)); [by intros w|]. intros now.
  apply (hoare_bind _ _ _ (fun _ => at_state P)); [apply hoare_update; intros s; apply HP|]. intros [].
  destruct (as_has_store cfg); cbn [negb]; [|by apply hoare_ret].
  apply (hoare_bind _ _ _ (fun _ => at_state P)); [by intros w|]. intros n.
  apply (hoare_bind _ _ _ (fun _ => at_state P)); [by apply hoare_reads|]. intros s.
  destruct (checkpoint_save _ _).1; [|by intros w].
  intros w _. unfold mbind, run_bind, update, tick, raise. done.
Qed.

Lemma hoare_conv_stopped P {A} why (Q : A → AgentWorld → Prop) :
  hoare P (raise_convergence_stopped cfg why) Q anyhow.
Proof.
  intros w _. unfold raise_convergence_stopped, mbind, run_bind, update.
  by destruct (checkpoint cfg _) as [[[]|] ?].
Qed.

(** A check that passes changes nothing. *)
Lemma hoare_prepare P a :
  hoare (at_state P) (prepare_convergence_action cfg a) (fun _ => at_state P) anyhow.
Proof.
  unfold prepare_convergence_action. apply (hoare_bind _ _ _ (fun _ => at_state P)); [by apply hoare_reads|].
  intros s. apply hoare_if; intros _; [|by apply hoare_ret].
  apply hoare_conv_stopped.
Qed.

Lemma settled_note a fp key before after i s : settled_same s (note_result a fp key before after i s).
Proof. settled_leaf. Qed.
Lemma settled_mark root i n k a s : settled_same s (mark_compressed root i n k a s).
Proof. unfold mark_compressed. destruct (drop n _); settled_leaf. Qed.

Lemma hoare_record a fp key before i :
  hoare (at_state delivery_ok) (record_convergence_result cfg a fp key before i)
    (fun _ => at_state delivery_ok) anyhow.
Proof.
  unfold record_convergence_result.
  apply (hoare_bind _ _ _ (fun _ => at_state delivery_ok)); [by apply hoare_reads|]. intros after.
  apply (hoare_bind _ _ _ (fun _ => at_state delivery_ok)).
  { apply hoare_update. intros s. apply settled_ok, settled_note. }
  intros []. apply hoare_if; intros _; [by apply hoare_ret|].
  apply (hoare_bind _ _ _ (fun _ => at_state delivery_ok)); [by apply hoare_reads|]. intros streak.
  apply (hoare_bind _ _ _ (fun _ => at_state delivery_ok)); [by apply hoare_reads|]. intros limit.
  apply hoare_if; intros _; [|by apply hoare_ret].
  apply hoare_conv_stopped.
Qed.

(** What a choice gives its execution. *)
Definition chosen (a : AgentAction) (s : AgentState) : Prop := unfinished s ∧ (a = FINISH → ready s).

Lemma hoare_choose : hoare (at_state unfinished) (choose_action cfg) (fun a => at_state (chosen a)) anyhow.
Proof.
  intros w Hw. unfold choose_action.
  destruct (decide_next_action max_anchors (aw_state w)) as [a|e] eqn:E; [|done].
  split; [done|]. intros ->. by apply finish_ready.
Qed.

Lemma hoare_execute a m advance :
  hoare (at_state (chosen a)) (execute_action cfg fmt_g fmt_2f a m advance)
    (fun _ => at_state delivery_ok) anyhow.
Proof.
  destruct (decide (a = FINISH)) as [->|Ha].
  - eapply hoare_pre; [|eapply hoare_post; [|apply execute_finish]].
    + intros w [_ Hr]. by apply Hr.
    + intros ? w. by right.
  - eapply hoare_frame_ok; [by apply execute_action_same_finished|].
    intros s s' Hsame [Hu _]. left. unfold unfinished, same_finished in *. congruence.
Qed.

Lemma hoare_check_budget :
  hoare (at_state unfinished) (check_runtime_budget cfg fmt_g) (fun _ => at_state unfinished) anyhow.
Proof.
  eapply hoare_frame_ok; [apply quiet_same_finished, quiet_check_runtime_budget|].
  unfold unfinished, same_finished. congruence.
Qed.

Lemma hoare_drain n index root i :
  hoare (at_state delivery_ok) (drain_local_actions cfg fmt_g fmt_2f n index root i)
    (fun _ => at_state delivery_ok) anyhow.
Proof.
  revert index. induction n as [|n IH]; intros index; cbn [drain_local_actions]; [by apply hoare_ret|].
  apply (hoare_bind _ _ _ (fun _ => at_state delivery_ok)); [apply hoare_hook|]. intros [].
  apply (hoare_bind _ _ _ (fun f w => at_state delivery_ok w ∧ lc_finished (st_life (aw_state w)) = f));
    [by apply hoare_reads|]. intros finished.
  apply hoare_if; intros Hf; [apply hoare_ret; by intros w [? _]|]. subst finished.
  apply (hoare_pre _ (at_state unfinished)); [by intros w [_ ?]|].
  apply (hoare_bind _ _ _ (fun _ => at_state unfinished)); [apply hoare_check_budget|]. intros [].
  apply (hoare_bind _ _ _ (fun a => at_state (chosen a))); [apply hoare_choose|]. intros a.
  apply hoare_if; intros _; [apply hoare_ret; intros w [? _]; by left|].
  apply (hoare_bind _ _ _ (fun _ => at_state (chosen a))).
  { apply hoare_update. intros s. unfold chosen, start_batch, unfinished. destruct (1 <? index); [done|].
    intros [Hu Hr]. split; [done|]. intros Ha. eapply judged_ready; [|by apply Hr]. split_and!; reflexivity. }
  intros []. apply (hoare_bind _ _ _ (fun _ => at_state (chosen a))); [apply hoare_prepare|]. intros [fp key].
  apply (hoare_bind _ _ _ (fun _ => at_state (chosen a))); [by apply hoare_reads|]. intros before.
  apply (hoare_bind _ _ _ (fun _ => at_state (chosen a))); [by apply hoare_reads|]. intros start.
  apply (hoare_bind _ _ _ (fun _ => at_state delivery_ok)).
  { apply (hoare_finally_ok _ _ _ (fun _ => at_state delivery_ok)); [apply hoare_execute|]. intros _.
    apply hoare_update. intros s. apply settled_ok, settled_mark. }
  intros []. apply (hoare_bind _ _ _ (fun _ => at_state delivery_ok)); [by apply hoare_reads|].
  intros [record|]; [|by apply hoare_ret].
  apply (hoare_bind _ _ _ (fun _ => at_state delivery_ok)); [apply hoare_record|]. intros []. apply IH.
Qed.

Lemma touch_ok now s : delivery_ok s → delivery_ok (touch now s).
Proof. apply settled_ok. settled_leaf. Qed.

Lemma hoare_physical_step attempts :
  hoare (at_state unfinished) (physical_step cfg fmt_g fmt_2f attempts)
    (fun _ => at_state delivery_ok) anyhow.
Proof.
  unfold physical_step.
  apply (hoare_bind _ _ _ (fun _ => at_state unfinished)); [apply hoare_hook|]. intros [].
  apply (hoare_bind _ _ _ (fun _ => at_state unfinished)); [apply hoare_check_budget|]. intros [].
  apply (hoare_bind _ _ _ (fun a => at_state (chosen a))); [apply hoare_choose|]. intros a.
  apply (hoare_bind _ _ _ (fun _ => at_state (chosen a))); [apply hoare_hook|]. intros [].
  apply (hoare_bind _ _ _ (fun _ => at_state (chosen a))); [apply hoare_prepare|]. intros [fp key].
  apply (hoare_bind _ _ _ (fun _ => at_state (chosen a))); [by apply hoare_reads|]. intros before.
  apply (hoare_bind _ _ _ (fun _ => at_state (chosen a))); [by apply hoare_reads|]. intros start.
  apply (hoare_bind _ _ _ (fun _ => at_state delivery_ok)); [|intros []; by apply hoare_ret].
  apply (hoare_finally_ok _ _ _ (fun _ => at_state delivery_ok)).
  - apply (hoare_bind _ _ _ (fun _ => at_state delivery_ok)); [apply hoare_execute|]. intros [].
    apply (hoare_bind _ _ _ (fun _ => at_state delivery_ok)); [by apply hoare_reads|].
    intros [record|]; [|by apply hoare_ret].
    apply (hoare_bind _ _ _ (fun _ => at_state delivery_ok)); [apply hoare_record|]. intros [].
    apply (hoare_bind _ _ _ (fun _ => at_state delivery_ok)); [by apply hoare_reads|]. intros limit.
    apply hoare_drain.
  - intros []. apply (hoare_bind _ _ _ (fun _ => at_state delivery_ok)); [apply hoare_hook|]. intros [].
    apply (hoare_bind _ _ _ (fun _ => at_state delivery_ok)); [apply hoare_checkpoint, touch_ok|].
    intros []. apply hoare_hook.
Qed.

(** ** The last checkpoint *)

(** With a state store, the store holds the state. *)
Definition saved (w : AgentWorld) : Prop := as_has_store cfg = true → aw_saved w = Some (aw_state w).

Lemma saved_checkpoint : hoare anyhow (checkpoint cfg) (fun _ => saved) anyhow.
Proof.
  intros w _. unfold checkpoint, hook, tick, update, reads, mbind, run_bind, mret, run_ret, saved.
  destruct (en_hook (aw_tick w)) as [[]|]; [done|done|].
  destruct (as_has_store cfg); cbn [negb]; [|done].
  by destruct (checkpoint_save _ _).1.
Qed.

Lemma saved_hook : hoare saved hook (fun _ => saved) anyhow.
Proof. intros w Hw. unfold hook, tick, mbind, run_bind. by destruct (en_hook (aw_tick w)) as [[]|]. Qed.

Lemma hoare_anyhow P {A} (m : Run A) : hoare P m (fun _ => anyhow) anyhow.
Proof. intros w _. by destruct (m w) as [[]]. Qed.

Lemma saved_physical_step attempts :
  hoare anyhow (physical_step cfg fmt_g fmt_2f attempts) (fun _ => saved) anyhow.
Proof.
  unfold physical_step. do 4 (eapply hoare_bind; [apply hoare_anyhow|intros ?]).
  eapply hoare_bind; [apply hoare_anyhow|]. intros [fp key].
  do 2 (eapply hoare_bind; [apply hoare_anyhow|intros ?]).
  apply (hoare_bind _ _ _ (fun _ => saved)); [|intros []; by apply hoare_ret].
  eapply hoare_finally_ok; [apply hoare_anyhow|intros ?].
  eapply hoare_bind; [apply hoare_anyhow|intros ?].
  eapply hoare_bind; [apply saved_checkpoint|intros ?]. apply saved_hook.
Qed.

(** ** Runs *)

Lemma hoare_run_loop (I L : AgentWorld → Prop) (E : AgentWorld → Prop) fuel attempts w r w' :
  (∀ w, I w → loop_goes_on (aw_state w) = true → L w) →
  (∀ attempts, hoare L (physical_step cfg fmt_g fmt_2f attempts) (fun _ => I) E) →
  I w → run_loop cfg fmt_g fmt_2f fuel attempts w = Some (r, w') →
  match r with Ok _ => I w' | Err _ => E w' end.
Proof.
  intros HL Hstep. revert attempts w. induction fuel as [|fuel IH]; intros attempts w Hw; cbn [run_loop];
    destruct (loop_goes_on (aw_state w)) eqn:Eg; [done|by intros [= <- <-]| |by intros [= <- <-]].
  specialize (Hstep attempts w (HL w Hw Eg)).
  destruct (physical_step cfg fmt_g fmt_2f attempts w) as [[a|e] w1]; [by apply IH|].
  by intros [= <- <-].
Qed.

Lemma loop_unfinished s : loop_goes_on s = true → unfinished s.
Proof. unfold loop_goes_on, unfinished. rewrite andb_true_iff, negb_true_iff. tauto. Qed.

(** [end_of_run] returns only on a finished session, and then changes nothing. *)
Lemma end_of_run_ok w w' :
  end_of_run cfg w = (Ok tt, w') → w' = w ∧ lc_finished (st_life (aw_state w)) = true.
Proof.
  unfold end_of_run, reads, mbind, run_bind. destruct (lc_finished (st_life (aw_state w))).
  - by intros [= <-].
  - unfold update. destruct (checkpoint cfg _) as [[[]|e] w1]; by intros [=].
Qed.

Lemma run_state_ok fuel w w' :
  run_state cfg fmt_g fmt_2f fuel w = Some (Ok tt, w') →
  ∃ w1, (_ ← update (set_agent_status running); checkpoint cfg) w = (Ok tt, w1)
    ∧ quiet (aw_state w) (aw_state w1)
    ∧ run_loop cfg fmt_g fmt_2f fuel [] w1 = Some (Ok tt, w') ∧ lc_finished (st_life (aw_state w')) = true.
Proof.
  destruct (run_state_cases cfg fmt_g fmt_2f fuel w) as (w1 & start & Hstart & Hq & Hcases).
  rewrite Hcases. destruct start as [[]|e]; [|by intros [=]].
  intros (r & w2 & Hrun & Hout). exists w1. destruct r as [[]|e]; [|done].
  symmetry in Hout. apply end_of_run_ok in Hout as [-> Hf]. done.
Qed.

Lemma run_state_delivers fuel w w' :
  unfinished (aw_state w) → run_state cfg fmt_g fmt_2f fuel w = Some (Ok tt, w') → delivered (aw_state w').
Proof.
  intros Hu Hrun. apply run_state_ok in Hrun as (w1 & _ & (_ & _ & Hf1) & Hloop & Hf).
  assert (Hok : at_state delivery_ok w').
  { eapply (hoare_run_loop (at_state delivery_ok) (at_state unfinished) anyhow _ _ _ (Ok tt)); [|apply hoare_physical_step| |exact Hloop].
    - intros w0 _. apply loop_unfinished.
    - left. unfold unfinished in *. congruence. }
  destruct Hok as [Hu'|Hd]; [|done]. unfold unfinished in Hu'. congruence.
Qed.

Lemma run_state_saved fuel w w' :
  run_state cfg fmt_g fmt_2f fuel w = Some (Ok tt, w') → saved w'.
Proof.
  intros Hrun. apply run_state_ok in Hrun as (w1 & Hstart & _ & Hloop & _).
  eapply (hoare_run_loop saved anyhow anyhow _ _ _ (Ok tt)); [done|apply saved_physical_step| |exact Hloop].
  unfold mbind, run_bind, update in Hstart.
  pose proof (saved_checkpoint (w <| aw_state := set_agent_status running (aw_state w) |>) I) as Hs.
  by rewrite Hstart in Hs.
Qed.

(** C1: when a run returns without an exception, the session is finished and
    completed, and its final state holds a plan that is really ready: the
    routes are those of this plan, all evaluations were made on the current
    inputs, no optimisation waits for its verification, and the validation
    passed or the acceptance policy accepted its report. *)
Theorem a_returned_run_delivered fuel w w' :
  lc_finished (st_life (aw_state w)) = false →
  run_state cfg fmt_g fmt_2f fuel w = Some (Ok tt, w') →
  lc_finished (st_life (aw_state w')) = true ∧ lc_status (st_life (aw_state w')) = completed
  ∧ ∃ p, ReadyToDeliver max_anchors (aw_state w') p ∧ deliverable (aw_state w') = true.
Proof. apply run_state_delivers. Qed.

(** C5: when a run returns without an exception and there is a state store, the
    store holds exactly the final state. *)
Theorem a_returned_run_is_saved fuel w w' :
  as_has_store cfg = true → run_state cfg fmt_g fmt_2f fuel w = Some (Ok tt, w') →
  aw_saved w' = Some (aw_state w').
Proof. intros Hs Hrun. by eapply run_state_saved. Qed.
End Delivery.

(** a delivered session is not run again: whatever tools, services, clock
    and settings a later process has, [resume] returns the session unchanged
    without asking the outside world anything. *)
Theorem resume_after_delivery `{HashEnv} `{PydanticModels} (services services' : PlanningServices)
    (env env' : AgentEnv) cfg cfg' fmt_g fmt_2f fuel fuel' w w' :
  @run_state _ _ services env cfg fmt_g fmt_2f fuel w = Some (Ok tt, w') →
  @resume _ _ services' env' cfg' fmt_g fmt_2f fuel' w' = Some (Ok tt, w').
Proof.
  intros Hrun. apply run_state_ok in Hrun as (w1 & _ & _ & _ & Hf). unfold resume. by rewrite Hf.
Qed.

(** ** Concrete runs *)

#[local] Transparent gmap_empty.

Lemma returned {A} (o : option (result agent_exn unit * A)) :
  option_map fst o = Some (Ok tt) → ∃ w, o = Some (Ok tt, w).
Proof. destruct o as [[r w]|]; [|done]. intros [= ->]. by exists w. Qed.

Lemma demo_run_ok : option_map fst (demo_run [] 24 new_world) = Some (Ok tt).
Proof. vm_compute. reflexivity. Qed.
Lemma demo_run_returns : ∃ w, demo_run [] 24 new_world = Some (Ok tt, w).
Proof. exact (returned (demo_run [] 24 new_world) demo_run_ok). Qed.

Lemma a_returned_run_delivered_witness :
  ∃ w', demo_run [] 24 new_world = Some (Ok tt, w')
    ∧ lc_finished (st_life (aw_state w')) = true ∧ lc_status (st_life (aw_state w')) = completed
    ∧ ∃ p, @ReadyToDeliver demo_hash demo_models (as_max_restaurant_anchors demo_settings) (aw_state w') p ∧ deliverable (aw_state w') = true.
Proof.
  destruct demo_run_returns as [w' Hrun]. exists w'. split; [exact Hrun|].
  exact (@a_returned_run_delivered demo_hash demo_models (demo_services []) demo_env demo_settings
           demo_format demo_format 24 new_world w' eq_refl Hrun).
Defined.

Lemma a_returned_run_is_saved_witness :
  ∃ w', demo_run [] 24 new_world = Some (Ok tt, w') ∧ aw_saved w' = Some (aw_state w').
Proof.
  destruct demo_run_returns as [w' Hrun]. exists w'. split; [exact Hrun|].
  exact (@a_returned_run_is_saved demo_hash demo_models (demo_services []) demo_env demo_settings
           demo_format demo_format 24 new_world w' eq_refl Hrun).
Defined.

(** Resumed by a process whose validation would find a problem. *)
Lemma resume_after_delivery_witness :
  ∃ w', demo_run [] 24 new_world = Some (Ok tt, w')
    ∧ @resume demo_hash demo_models (demo_services [overtime]) demo_env demo_settings demo_format
        demo_format 0 w' = Some (Ok tt, w').
Proof.
  destruct demo_run_returns as [w' Hrun]. exists w'. split; [exact Hrun|].
  exact (@resume_after_delivery demo_hash demo_models (demo_services []) (demo_services [overtime])
           demo_env demo_env demo_settings demo_settings demo_format demo_format 24 0 new_world w' Hrun).
Defined.
