(* ===== verification/ConvergenceBounds.v ===== *)
(** The convergence record of a run: how often one input of an action may
    succeed, and how many successful actions may leave the business state as
    it was, on every exit of a run. *)

From S2P Require Import Prelude PyData TripSchema AmapModels PlanReports PlanRoutes PlanContent OrderedDict.
From S2P Require Import ToolModels Circuit AgentState Convergence AgentDecision AgentAnalysis AgentPhases.
From S2P Require Import CheckpointPolicy Acceptance ExecutionPolicy AgentActions AgentLoop AgentDemo AgentFrames.
From S2P Require Import AgentLoopTheorems AgentDelivery.
From Stdlib Require Import ZArith QArith Lia String.
From stdpp Require Import base tactics option list strings gmap.

Open Scope string_scope.
Open Scope Z_scope.

Definition successes (s : AgentState) : odict Z := cn_successful_inputs (st_conv s).
Definition streak (s : AgentState) : Z := cn_no_progress_streak (st_conv s).
Definition max_repeats (s : AgentState) : Z := eb_max_repeated_action_inputs (st_budget s).
Definition max_streak (s : AgentState) : Z := eb_max_no_progress_steps (st_budget s).

(** The record is within the limits of the budget; [k] is what the streak may
    still miss. *)
Record ConvergenceWithin (k : Z) (s : AgentState) : Prop := mkWithin {
  cw_repeats : Forall (fun e => 1 <= e.2 <= max_repeats s) (successes s);
  cw_streak : 0 <= streak s <= max_streak s - k;
  cw_limits : 1 <= max_repeats s ∧ 1 <= max_streak s
}.

(** Between two actions the streak is below its limit; an exception may leave
    it at the limit. *)
Notation converging := (ConvergenceWithin 1).
Notation within_convergence := (ConvergenceWithin 0).

Lemma converging_within s : converging s → within_convergence s.
Proof. intros [H1 H2 H3]. split; [done|lia|done]. Qed.

Definition keeps_counts (s s' : AgentState) : Prop :=
  successes s' = successes s ∧ streak s' = streak s ∧ st_budget s' = st_budget s.

#[export] Instance keeps_counts_preorder : PreOrder keeps_counts.
Proof.
  split; [done|]. unfold keeps_counts. intros x y z (H1 & H2 & H3) (H4 & H5 & H6). split_and!; congruence.
Qed.

Lemma keeps_within k s s' : keeps_counts s s' → ConvergenceWithin k s → ConvergenceWithin k s'.
Proof.
  intros (Hs & Hk & Hb) [H1 H2 H3]. unfold max_repeats, max_streak in *.
  split; unfold max_repeats, max_streak; rewrite ?Hs, ?Hk, ?Hb; done.
Qed.

Lemma core_keeps s s' : core_same s s' → keeps_counts s s'.
Proof.
  unfold core_same, core_view, keeps_counts, successes, streak. intros Hc.
  injection Hc as _ _ _ -> _ _ _ _ _ _ _ ->. done.
Qed.

Lemma od_set_forall {A} (P : string * A → Prop) k v (d : odict A) :
  Forall P d → P (k, v) → Forall P (od_set k v d).
Proof.
  intros Hd Hkv. induction d as [|[k' v'] d IH]; cbn; [by repeat constructor|].
  inversion_clear Hd. destruct (String.eqb k k'); constructor; auto.
Qed.

Section Bounds.
Context `{HashEnv} `{PydanticModels} `{PlanningServices} `{AgentEnv}.
Context (cfg : AgentSettings).
Context (fmt_g fmt_2f : Q → string).

Lemma quiet_keeps {A} (m : Run A) : run_respects quiet m → run_respects keeps_counts m.
Proof. intros Hm w. apply core_keeps. by destruct (Hm w) as (? & _). Qed.

Ltac quiet_keeps_run := apply quiet_keeps; quiet_run.

Lemma execute_action_keeps a m advance :
  run_respects keeps_counts (execute_action cfg fmt_g fmt_2f a m advance).
Proof.
  apply execute_action_respects; [apply _| | | |by intros s|by intros _ n s].
  - intros s s' (? & _). by apply core_keeps.
  - intros s s' (? & _). by apply core_keeps.
  - intros s s' (Hb & _ & Hc). unfold keeps_counts, successes, streak. by rewrite Hc, Hb.
Qed.

(** The input [key] may succeed once more. *)
Definition may_succeed (key : string) (s : AgentState) : Prop :=
  converging s ∧ 0 <= default 0 (od_get key (successes s)) < max_repeats s.

Lemma keeps_may_succeed key s s' : keeps_counts s s' → may_succeed key s → may_succeed key s'.
Proof.
  intros Hk [Hc Hm]. split; [by eapply keeps_within|]. destruct Hk as (Hs & _ & Hb).
  unfold max_repeats in *. by rewrite Hs, Hb.
Qed.

(** Steps that keep the counts keep every assertion about them. *)
Lemma hoare_keeps (P : AgentState → Prop) {A} (m : Run A) :
  (∀ s s', keeps_counts s s' → P s → P s') → (∀ s, P s → within_convergence s) →
  run_respects keeps_counts m → hoare (at_state P) m (fun _ => at_state P) (at_state within_convergence).
Proof.
  intros HP HE Hm. eapply hoare_err; [|by eapply hoare_frame]. intros w. apply HE.
Qed.

Lemma hoare_keeps_converging {A} (m : Run A) :
  run_respects keeps_counts m →
  hoare (at_state converging) m (fun _ => at_state converging) (at_state within_convergence).
Proof. apply hoare_keeps; [apply keeps_within|apply converging_within]. Qed.
Lemma hoare_keeps_may key {A} (m : Run A) :
  run_respects keeps_counts m →
  hoare (at_state (may_succeed key)) m (fun _ => at_state (may_succeed key)) (at_state within_convergence).
Proof. apply hoare_keeps; [apply keeps_may_succeed|]. intros s [? _]. by apply converging_within. Qed.

Lemma conv_stopped_keeps {A} why : run_respects keeps_counts (@raise_convergence_stopped _ cfg A why).
Proof.
  unfold raise_convergence_stopped. apply run_respects_bind; [apply _| |intros []; quiet_keeps_run].
  apply run_respects_update. intros s. unfold mark_convergence_stopped, append_error_once.
  destruct (existsb _ _); split_and!; reflexivity.
Qed.

Lemma conv_stopped_within {A} why (Q : A → AgentWorld → Prop) :
  hoare (at_state within_convergence) (raise_convergence_stopped cfg why) Q (at_state within_convergence).
Proof.
  intros w Hw. pose proof (@conv_stopped_keeps A why w) as Hk.
  pose proof (hoare_conv_stopped cfg anyhow why (fun (_ : A) _ => False) w I) as Hf.
  destruct (raise_convergence_stopped cfg why w) as [[x|e] w']; [done|]. by eapply keeps_within.
Qed.

Lemma count_nonneg s key : converging s → 0 <= default 0 (od_get key (successes s)).
Proof.
  intros [Hall _ _]. destruct (od_get key (successes s)) as [v|] eqn:E; [|done]. cbn.
  apply od_get_elem in E. rewrite Forall_forall in Hall. specialize (Hall _ E). cbn in Hall. lia.
Qed.

Lemma hoare_prepare_may a :
  hoare (at_state converging) (prepare_convergence_action cfg a)
    (fun '(fp, key) => at_state (may_succeed key)) (at_state within_convergence).
Proof.
  intros w Hw. unfold prepare_convergence_action, mbind, run_bind at 1, reads.
  match goal with |- context [if ?c then _ else _] => destruct c eqn:E end.
  - apply conv_stopped_within. by apply converging_within.
  - split; [done|]. apply Z.leb_gt in E. split; [by apply count_nonneg|exact E].
Qed.

Lemma note_counts a fp key before after i s :
  let s' := note_result a fp key before after i s in
  let progress := negb (before =? after)%string in
  successes s' = (if progress then [(key, 1)]
                  else od_set key (default 0 (od_get key (successes s)) + 1) (successes s))
  ∧ streak s' = (if progress then 0 else streak s + 1) ∧ st_budget s' = st_budget s.
Proof. cbv zeta. unfold note_result. destruct (negb _); split_and!; reflexivity. Qed.

Lemma note_within a fp key before after i s :
  may_succeed key s → within_convergence (note_result a fp key before after i s)
  ∧ (negb (before =? after)%string = true → converging (note_result a fp key before after i s)).
Proof.
  intros [[Hall Hst [Hr Hk]] [Hlo Hhi]].
  pose proof (note_counts a fp key before after i s) as (Hs' & Hk' & Hb').
  set (s' := note_result a fp key before after i s) in *. clearbody s'.
  unfold max_repeats, max_streak in *.
  destruct (negb (before =? after)%string); (split; [|intros Hp]); try done;
    (split; unfold max_repeats, max_streak; rewrite ?Hs', ?Hk', ?Hb'; [|lia|done]).
  - apply Forall_singleton. cbn. lia.
  - apply Forall_singleton. cbn. lia.
  - apply od_set_forall; [exact Hall|]. cbn. lia.
Qed.

Lemma hoare_record_bounds a fp key before i :
  hoare (at_state (may_succeed key)) (record_convergence_result cfg a fp key before i)
    (fun _ => at_state converging) (at_state within_convergence).
Proof.
  intros w Hw. unfold record_convergence_result, mbind, run_bind at 1, reads at 1.
  set (after := business_state_fingerprint (aw_state w)). clearbody after.
  pose proof (note_within a fp key before after i (aw_state w) Hw) as [Hin Hgo].
  unfold run_bind at 1, update at 1.
  set (s1 := note_result a fp key before after i (aw_state w)) in *. clearbody s1.
  destruct (negb (before =? after)%string); [by apply Hgo|].
  unfold run_bind at 1, reads at 1, run_bind at 1, reads at 1. cbn [aw_state].
  match goal with |- context [if ?c then _ else _] => destruct c eqn:E end.
  - by apply conv_stopped_within.
  - apply Z.leb_gt in E. destruct Hin as [H1' H2' H3']. unfold at_state. cbn.
    split; [exact H1'| |exact H3']. unfold streak, max_streak in *. cbn in *. lia.
Qed.

(** ** Turns and runs *)

Lemma hook_keeps : run_respects keeps_counts hook.
Proof. quiet_keeps_run. Qed.
Lemma reads_keeps {A} (f : AgentState → A) : run_respects keeps_counts (reads f).
Proof. by intros w. Qed.

(** An action, from its admission to its record. *)
Lemma hoare_drain_bounds n index root i :
  hoare (at_state converging) (drain_local_actions cfg fmt_g fmt_2f n index root i)
    (fun _ => at_state converging) (at_state within_convergence).
Proof.
  revert index. induction n as [|n IH]; intros index; cbn [drain_local_actions]; [by apply hoare_ret|].
  eapply hoare_bind; [apply hoare_keeps_converging, hook_keeps|intros ?].
  eapply hoare_bind; [apply hoare_keeps_converging, reads_keeps|intros finished].
  apply hoare_if; intros _; [by apply hoare_ret|].
  eapply hoare_bind; [apply hoare_keeps_converging, quiet_keeps, quiet_check_runtime_budget|intros ?].
  eapply hoare_bind; [apply hoare_keeps_converging, quiet_keeps, quiet_choose_action|intros act].
  apply hoare_if; intros _; [by apply hoare_ret|].
  apply (hoare_bind _ _ _ (fun _ => at_state converging)).
  { apply hoare_update. intros s. unfold start_batch. destruct (1 <? index); [done|].
    apply keeps_within. by split_and!. }
  intros ?. eapply hoare_bind; [apply hoare_prepare_may|intros [fp key]].
  eapply hoare_bind; [apply hoare_keeps_may, reads_keeps|intros before].
  eapply hoare_bind; [apply hoare_keeps_may, reads_keeps|intros start].
  apply (hoare_bind _ _ _ (fun _ => at_state (may_succeed key))).
  { apply hoare_keeps_may, run_respects_finally; [apply _|apply execute_action_keeps|].
    apply run_respects_update. intros s. unfold mark_compressed. destruct (drop start _); by split_and!. }
  intros ?. eapply hoare_bind; [apply hoare_keeps_may, reads_keeps|intros [record|]].
  - eapply hoare_bind; [apply hoare_record_bounds|intros ?]. apply IH.
  - apply hoare_ret. by intros w [? _].
Qed.

Lemma hoare_step_bounds attempts :
  hoare (at_state converging) (physical_step cfg fmt_g fmt_2f attempts)
    (fun _ => at_state converging) (at_state within_convergence).
Proof.
  unfold physical_step.
  eapply hoare_bind; [apply hoare_keeps_converging, hook_keeps|intros ?].
  eapply hoare_bind; [apply hoare_keeps_converging, quiet_keeps, quiet_check_runtime_budget|intros ?].
  eapply hoare_bind; [apply hoare_keeps_converging, quiet_keeps, quiet_choose_action|intros act].
  eapply hoare_bind; [apply hoare_keeps_converging, hook_keeps|intros ?].
  eapply hoare_bind; [apply hoare_prepare_may|intros [fp key]].
  eapply hoare_bind; [apply hoare_keeps_may, reads_keeps|intros before].
  eapply hoare_bind; [apply hoare_keeps_may, reads_keeps|intros start].
  apply (hoare_bind _ _ _ (fun _ => at_state converging)); [|intros ?; by apply hoare_ret].
  assert (Hend : run_respects keeps_counts (_ ← hook; _ ← checkpoint cfg; hook)) by quiet_keeps_run.
  apply (hoare_finally _ _ _ (fun _ => at_state converging)).
  - eapply hoare_bind; [apply hoare_keeps_may, execute_action_keeps|intros ?].
    eapply hoare_bind; [apply hoare_keeps_may, reads_keeps|intros [record|]].
    + eapply hoare_bind; [apply hoare_record_bounds|intros ?].
      eapply hoare_bind; [apply hoare_keeps_converging, reads_keeps|intros limit].
      apply hoare_drain_bounds.
    + apply hoare_ret. by intros w [? _].
  - intros ?. by apply hoare_keeps_converging.
  - apply hoare_keeps; [apply keeps_within|done|done].
Qed.

Lemma run_state_convergence fuel w r w' :
  converging (aw_state w) → run_state cfg fmt_g fmt_2f fuel w = Some (r, w') →
  within_convergence (aw_state w').
Proof.
  intros Hw. destruct (run_state_cases cfg fmt_g fmt_2f fuel w) as (w1 & start & _ & (Hq & _) & Hcases).
  rewrite Hcases. apply core_keeps in Hq. pose proof (keeps_within _ _ _ Hq Hw) as Hw1.
  destruct start as [[]|e]; [|intros [= -> ->]; by apply converging_within].
  intros (r1 & w2 & Hloop & Hout).
  assert (Hw2 : within_convergence (aw_state w2)).
  { pose proof (hoare_run_loop cfg fmt_g fmt_2f (at_state converging) (at_state converging)
      (at_state within_convergence) _ _ _ _ _ (fun _ H _ => H) hoare_step_bounds Hw1 Hloop) as Hl.
    destruct r1; [by apply converging_within|done]. }
  destruct r1 as [[]|e]; [|by injection Hout as -> ->].
  pose proof (quiet_end_of_run cfg w2) as [Hq2 _]. rewrite <- Hout in Hq2.
  eapply keeps_within; [apply core_keeps, Hq2|done].
Qed.

(** C4: the loop cannot go round in circles: on every exit of a run of a
    session whose record was within its limits, no input of an action is
    counted as successful more than [max_repeated_action_inputs] times since
    the last change of the business state, and the streak of successful
    actions that changed nothing is at most [max_no_progress_steps]. *)
Theorem runs_converge fuel w r w' :
  converging (aw_state w) → run_state cfg fmt_g fmt_2f fuel w = Some (r, w') →
  Forall (fun e => 1 <= e.2 <= max_repeats (aw_state w')) (successes (aw_state w'))
  ∧ 0 <= streak (aw_state w') <= max_streak (aw_state w').
Proof.
  intros Hw Hrun. destruct (run_state_convergence _ _ _ _ Hw Hrun) as [Hr Hs _]. split; [done|]. lia.
Qed.
End Bounds.

Lemma create_converging req b sid uid now :
  budget_fields_ok b = true → converging (create_state req b sid uid now).
Proof.
  intros Hb. unfold budget_fields_ok in Hb. repeat (apply andb_true_iff in Hb as [Hb ?]).
  match goal with H : forallb (fun f => 1 <=? f b) _ = true |- _ => rename H into Hall end.
  rewrite forallb_forall in Hall.
  assert (Hpos : ∀ f, f ∈ [eb_max_repeated_action_inputs; eb_max_no_progress_steps] → 1 <= f b).
  { intros f Hf. apply Z.leb_le, Hall. apply list_elem_of_In in Hf. simpl in *. intuition. }
  unfold successes, streak, max_repeats, max_streak.
  assert (Hrep : 1 <= eb_max_repeated_action_inputs b) by (apply Hpos; set_solver).
  assert (Hnp : 1 <= eb_max_no_progress_steps b) by (apply Hpos; set_solver).
  split; unfold successes, streak, max_repeats, max_streak; cbn; [constructor|lia|lia].
Qed.

#[local] Transparent gmap_empty.

(** A run that ends in a partial acceptance. *)
Lemma runs_converge_witness :
  ∃ r w', demo_run [overtime] 24 new_world = Some (r, w')
    ∧ Forall (fun e => 1 <= e.2 <= max_repeats (aw_state w')) (successes (aw_state w'))
    ∧ 0 <= streak (aw_state w') <= max_streak (aw_state w').
Proof.
  destruct (@run_state_terminates demo_hash demo_models (demo_services [overtime]) demo_env demo_settings
              demo_format demo_format new_world) as [[r w'] Hout].
  pose proof (Hout 24%nat (le_n _)) as Hrun.
  exists r, w'. split; [exact Hrun|].
  refine (@runs_converge demo_hash demo_models (demo_services [overtime]) demo_env demo_settings
            demo_format demo_format 24 new_world r w' _ Hrun).
  apply create_converging. reflexivity.
Defined.
