(* ===== verification/AgentRollback.v ===== *)
(** Verification of optimisation candidates (src/app/agent_runtime/orchestrator.py):
    a pending candidate is accepted as a whole or the baseline comes back as a
    whole, and the session is never worse off than its baseline. *)

From S2P Require Import Prelude PyData TripSchema AmapModels PlanReports PlanRoutes PlanContent OrderedDict.
From S2P Require Import ToolModels Circuit AgentState Convergence AgentDecision AgentAnalysis AgentPhases.
From S2P Require Import CheckpointPolicy Acceptance ExecutionPolicy AgentActions AgentLoop AgentDemo.
From Stdlib Require Import ZArith QArith Lia String.
From stdpp Require Import base tactics option list strings.

Open Scope string_scope.
Open Scope Z_scope.

(** ** Inversion of steps that return *)

Lemma gets_Ok {A} (f : AgentState → A) s a s' : gets f s = (Ok a, s') → a = f s ∧ s' = s.
Proof. by intros [= <- <-]. Qed.
Lemma modify_Ok f s a s' : modify f s = (Ok a, s') → s' = f s.
Proof. by intros [= <- <-]. Qed.
Lemma lift_Ok {A} (r : result exn A) s a s' : lift r s = (Ok a, s') → r = Ok a ∧ s' = s.
Proof. by intros [= <- <-]. Qed.
Lemma require_Ok {A} (o : option A) msg s a s' : require o msg s = (Ok a, s') → o = Some a ∧ s' = s.
Proof. destruct o; [by intros [= <- <-]|done]. Qed.
Lemma fail_Ok {A} e s (a : A) s' : fail e s = (Ok a, s') → False.
Proof. done. Qed.
Lemma ret_Ok {A} (a b : A) s s' : (mret a : Step A) s = (Ok b, s') → b = a ∧ s' = s.
Proof. by intros [= <- <-]. Qed.

(** One layer of a run that returned. *)
Ltac step_inv :=
  match goal with
  | H : mbind _ _ _ = (Ok _, _) |- _ => apply step_bind_Ok in H as (? & ? & ? & ?)
  | H : gets _ _ = (Ok _, _) |- _ => apply gets_Ok in H as [? ?]; subst
  | H : modify _ _ = (Ok _, _) |- _ => apply modify_Ok in H; subst
  | H : lift _ _ = (Ok _, _) |- _ => apply lift_Ok in H as [? ?]; subst
  | H : require _ _ _ = (Ok _, _) |- _ => apply require_Ok in H as [? ?]; subst
  | H : fail _ _ = (Ok _, _) |- _ => by apply fail_Ok in H
  | H : mret _ _ = (Ok _, _) |- _ => apply ret_Ok in H as [? ?]; subst
  | p : (_ * _)%type |- _ => destruct p
  | p : unit |- _ => destruct p
  end.
Ltac step_invs := repeat (step_inv; cbn [fst snd] in *).

(** ** What an optimisation may change *)

(** The plan, its route snapshot and the reports about it. *)
Record Snapshot := mkSnapshot {
  sn_plan : option TripPlan;
  sn_routes : option json;
  sn_route_quality : option RouteQualityReport;
  sn_commute : option CommuteConstraintReport;
  sn_schedule : option ScheduleQualityReport;
  sn_constraints : option TripConstraintReport
}.

Definition snapshot (s : AgentState) : Snapshot :=
  mkSnapshot (fa_trip_plan (st_facts s)) (fa_route_estimates (st_facts s))
    (ev_route_quality (st_evals s)) (ev_commute (st_evals s)) (ev_schedule (st_evals s))
    (ev_constraints (st_evals s)).

Lemma snapshot_forget_validation s : snapshot (forget_validation s) = snapshot s.
Proof. by destruct s. Qed.
Lemma snapshot_forget_content s : snapshot (forget_content s) = snapshot s.
Proof. by destruct s. Qed.
Lemma snapshot_on_opts f s : snapshot (on_opts f s) = snapshot s.
Proof. by destruct s. Qed.
Lemma snapshot_on_route f s : snapshot (on_route f s) = snapshot s.
Proof. apply snapshot_on_opts. Qed.
Lemma snapshot_on_commute f s : snapshot (on_commute f s) = snapshot s.
Proof. apply snapshot_on_opts. Qed.
Lemma snapshot_on_schedule f s : snapshot (on_schedule f s) = snapshot s.
Proof. apply snapshot_on_opts. Qed.
Lemma snapshot_on_constraints f s : snapshot (on_constraints f s) = snapshot s.
Proof. apply snapshot_on_opts. Qed.
Lemma snapshot_on_refill f s : snapshot (on_refill f s) = snapshot s.
Proof. apply snapshot_on_opts. Qed.
Lemma snapshot_record_local a r n s : snapshot (record_local a r n s) = snapshot s.
Proof. by destruct s. Qed.
Lemma snapshot_restore_routes p routes fp rq s :
  snapshot (restore_routes p routes fp rq s)
  = mkSnapshot (Some p) (Some routes) (Some rq) (sn_commute (snapshot s)) (sn_schedule (snapshot s))
      (sn_constraints (snapshot s)).
Proof. by destruct s. Qed.
Lemma snapshot_restore_schedule sq fp s :
  snapshot (restore_schedule sq fp s)
  = mkSnapshot (sn_plan (snapshot s)) (sn_routes (snapshot s)) (sn_route_quality (snapshot s))
      (sn_commute (snapshot s)) (Some sq) (sn_constraints (snapshot s)).
Proof. by destruct s. Qed.
Lemma snapshot_restore_commute r fp s :
  snapshot (restore_commute r fp s)
  = mkSnapshot (sn_plan (snapshot s)) (sn_routes (snapshot s)) (sn_route_quality (snapshot s))
      (Some r) (sn_schedule (snapshot s)) (sn_constraints (snapshot s)).
Proof. by destruct s. Qed.
Lemma snapshot_restore_constraints r fp s :
  snapshot (restore_constraints r fp s)
  = mkSnapshot (sn_plan (snapshot s)) (sn_routes (snapshot s)) (sn_route_quality (snapshot s))
      (sn_commute (snapshot s)) (sn_schedule (snapshot s)) (Some r).
Proof. by destruct s. Qed.

Lemma snapshot_sync `{HashEnv} s : snapshot (synchronize_evaluation_fingerprints s) = snapshot s.
Proof.
  unfold synchronize_evaluation_fingerprints. cbv zeta.
  destruct (fa_trip_plan _); [|done]. destruct (fa_route_estimates _); [|done].
  repeat match goal with |- context [if ?c then _ else _] => destruct c end; reflexivity.
Qed.

Create HintDb snapshots.
#[export] Hint Rewrite snapshot_forget_validation snapshot_forget_content snapshot_on_route snapshot_on_commute
  snapshot_on_schedule snapshot_on_constraints snapshot_on_refill snapshot_record_local
  snapshot_restore_routes snapshot_restore_schedule snapshot_restore_commute
  snapshot_restore_constraints @snapshot_sync : snapshots.
Ltac snap := autorewrite with snapshots; cbn [sn_plan sn_routes sn_route_quality sn_commute
  sn_schedule sn_constraints].

Lemma schedule_no_worse_refl r : schedule_no_worse r r = true.
Proof. unfold schedule_no_worse. by rewrite !Z.leb_refl. Qed.
Lemma routes_no_worse_refl r : routes_no_worse r r = true.
Proof. unfold routes_no_worse. by rewrite !Z.leb_refl. Qed.
Lemma pending_status o s : op_status o = s → status_is o s = true.
Proof. intros <-. by apply bool_decide_eq_true. Qed.

(** The phase is over and remembers nothing. *)
Definition settled (o : Optimization) : Prop :=
  op_candidate o = None ∧ op_baseline_plan o = None ∧ op_status o ≠ candidate_pending.

Section Rollback.
Context `{HashEnv} `{PydanticModels} `{PlanningServices}.
Context (cfg : OrchestratorSettings).

(** ** Cross-day schedule *)

Lemma verify_schedule_snapshot bp broutes brq rq bsq sq bfp s :
  snapshot (verify_schedule cfg bp broutes brq rq bsq sq bfp s)
  = if schedule_accepted cfg bsq sq brq rq then snapshot s
    else mkSnapshot (Some bp) (Some broutes) (Some brq) (sn_commute (snapshot s)) (Some bsq)
           (sn_constraints (snapshot s)).
Proof. unfold verify_schedule. snap. destruct (schedule_accepted _ _ _ _ _); snap; done. Qed.

(** While a candidate waits, making the report leaves the phase as it is. *)
Lemma schedule_report_Ok fp s r s1 :
  op_status (os_schedule (st_opts s)) = candidate_pending →
  schedule_report fp s = (Ok r, s1) →
  ev_schedule (st_evals s1) = Some r ∧ st_facts s1 = st_facts s ∧ st_opts s1 = st_opts s
  ∧ st_request s1 = st_request s ∧ ev_route_quality (st_evals s1) = ev_route_quality (st_evals s).
Proof.
  intros Hp Hr. unfold schedule_report in Hr. step_invs.
  destruct (ev_schedule (st_evals s)) as [r'|] eqn:E; [destruct (fingerprint_is _ _); [by step_invs|]|];
    unfold refresh_schedule_quality, plan_and_routes, current_routes in *; step_invs;
    repeat case_match; step_invs; try done;
    unfold status_is in *; cbn in *; rewrite Hp in *; cbn in *; try done.
Qed.

Lemma verify_schedule_run reason n s s' bp broutes brq bsq bfp :
  op_status (os_schedule (st_opts s)) = candidate_pending →
  schedule_baseline (os_schedule (st_opts s)) = Some (bp, broutes, brq, bsq, bfp) →
  optimize_schedule cfg reason n s = (Ok tt, s') →
  ∃ rq sq s1, ev_route_quality (st_evals s1) = Some rq ∧ ev_schedule (st_evals s1) = Some sq
    ∧ st_facts s1 = st_facts s
    ∧ s' = record_local OPTIMIZE_SCHEDULE reason n (verify_schedule cfg bp broutes brq rq bsq sq bfp s1).
Proof.
  intros Hp Hb Hrun. unfold optimize_schedule, plan_and_routes in Hrun.
  step_invs. destruct (fa_trip_plan (st_facts s)) as [p|] eqn:Ep; [|by step_invs].
  destruct (fa_route_estimates (st_facts s)) as [routes|] eqn:Er; step_invs.
  match goal with H : schedule_report _ _ = (Ok ?r, ?s1) |- _ =>
    apply (schedule_report_Ok _ _ _ _ Hp) in H as (Hsq & Hf & Ho & Hreq & Hrq) end.
  rewrite Ho, (pending_status _ _ Hp), Hb in *. step_invs. simplify_eq. eauto 10.
Qed.

Lemma schedule_accepted_better bsq sq brq rq :
  schedule_accepted cfg bsq sq brq rq = true →
  (sq_optimization_cost sq < sq_optimization_cost bsq)%Q
  ∧ schedule_no_worse bsq sq = true ∧ routes_no_worse brq rq = true.
Proof.
  unfold schedule_accepted. rewrite !andb_true_iff, Qlt_bool_iff. intros (((? & _) & ?) & ?). done.
Qed.

(** A verified schedule candidate: settled, and either the candidate stays with
    a strictly cheaper schedule and routes no worse, or plan, routes and both
    reports are those of the baseline. *)
Definition schedule_verdict (bp : TripPlan) (broutes : json) (brq : RouteQualityReport)
    (bsq : ScheduleQualityReport) (s s' : AgentState) : Prop :=
  settled (os_schedule (st_opts s')) ∧
  ((∃ rq sq, sn_plan (snapshot s') = sn_plan (snapshot s) ∧ sn_routes (snapshot s') = sn_routes (snapshot s)
      ∧ sn_route_quality (snapshot s') = Some rq ∧ sn_schedule (snapshot s') = Some sq
      ∧ (sq_optimization_cost sq < sq_optimization_cost bsq)%Q
      ∧ schedule_no_worse bsq sq = true ∧ routes_no_worse brq rq = true)
   ∨ (sn_plan (snapshot s') = Some bp ∧ sn_routes (snapshot s') = Some broutes
      ∧ sn_route_quality (snapshot s') = Some brq ∧ sn_schedule (snapshot s') = Some bsq)).

(** a cross-day schedule candidate is verified all or nothing: when the
    verification returns, either the candidate stays with its routes and
    reports and is strictly cheaper with no more overtime, infeasible days,
    guessed legs, unavailable legs or over-long legs than the baseline, or the
    baseline plan, routes, route score and schedule are back together. *)
Theorem schedule_candidate_verified reason n s s' bp broutes brq bsq bfp :
  op_status (os_schedule (st_opts s)) = candidate_pending →
  schedule_baseline (os_schedule (st_opts s)) = Some (bp, broutes, brq, bsq, bfp) →
  optimize_schedule cfg reason n s = (Ok tt, s') →
  schedule_verdict bp broutes brq bsq s s'.
Proof.
  intros Hp Hb Hrun.
  destruct (verify_schedule_run _ _ _ _ _ _ _ _ _ Hp Hb Hrun) as (rq & sq & s1 & Hrq & Hsq & Hf & ->).
  split; [by split_and!|]. snap. rewrite verify_schedule_snapshot.
  destruct (schedule_accepted cfg bsq sq brq rq) eqn:E; [left|right; by split_and!].
  apply schedule_accepted_better in E as (? & ? & ?). exists rq, sq. unfold snapshot.
  cbn [sn_plan sn_routes sn_route_quality sn_commute sn_schedule sn_constraints]. by rewrite Hf.
Qed.

(** ** Constraints *)

Lemma verify_constraints_snapshot bp broutes brq rq bsq sq bct ct bfp s :
  snapshot (verify_constraints cfg bp broutes brq rq bsq sq bct ct bfp s)
  = if constraints_accepted cfg bct ct brq rq bsq sq then snapshot s
    else mkSnapshot (Some bp) (Some broutes) (Some brq) (sn_commute (snapshot s)) (Some bsq) (Some bct).
Proof. unfold verify_constraints. snap. destruct (constraints_accepted _ _ _ _ _ _ _); snap; done. Qed.

Lemma constraint_report_Ok fp s r s1 :
  op_status (os_constraints (st_opts s)) = candidate_pending →
  constraint_report fp s = (Ok r, s1) →
  ev_constraints (st_evals s1) = Some r ∧ st_facts s1 = st_facts s ∧ st_opts s1 = st_opts s
  ∧ ev_route_quality (st_evals s1) = ev_route_quality (st_evals s)
  ∧ ev_schedule (st_evals s1) = ev_schedule (st_evals s).
Proof.
  intros Hp Hr. unfold constraint_report in Hr. step_invs.
  destruct (ev_constraints (st_evals s)) as [r'|] eqn:E; [destruct (fingerprint_is _ _); [by step_invs|]|];
    unfold refresh_constraint_report in *; step_invs; repeat case_match; step_invs; try done;
    match goal with H : (if ?c then _ else _) _ = _ |- _ => destruct c end; step_invs;
    repeat case_match; try done;
    unfold status_is in *; cbn in *; rewrite Hp in *; cbn in *; try done.
Qed.

Lemma verify_constraints_run reason n s s' bp broutes brq bsq bct bfp :
  op_status (os_constraints (st_opts s)) = candidate_pending →
  constraint_baseline (os_constraints (st_opts s)) = Some (bp, broutes, brq, bsq, bct, bfp) →
  optimize_constraints cfg reason n s = (Ok tt, s') →
  ∃ rq sq ct s1, ev_route_quality (st_evals s1) = Some rq ∧ ev_schedule (st_evals s1) = Some sq
    ∧ ev_constraints (st_evals s1) = Some ct ∧ st_facts s1 = st_facts s
    ∧ s' = record_local OPTIMIZE_CONSTRAINTS reason n
             (verify_constraints cfg bp broutes brq rq bsq sq bct ct bfp s1).
Proof.
  intros Hp Hb Hrun. unfold optimize_constraints, plan_and_routes in Hrun.
  step_invs. destruct (fa_trip_plan (st_facts s)) as [p|] eqn:Ep; [|by step_invs].
  destruct (fa_route_estimates (st_facts s)) as [routes|] eqn:Er; step_invs.
  match goal with H : constraint_report _ _ = (Ok ?r, ?s1) |- _ =>
    apply (constraint_report_Ok _ _ _ _ Hp) in H as (Hct & Hf & Ho & Hrq & Hsq) end.
  rewrite Ho, (pending_status _ _ Hp), Hb in *. step_invs. simplify_eq.
  do 4 eexists. rewrite Hrq, Hsq, Hct, Hf. eauto 10.
Qed.

Lemma constraints_accepted_better bct ct brq rq bsq sq :
  constraints_accepted cfg bct ct brq rq bsq sq = true →
  (ct_optimization_cost ct < ct_optimization_cost bct)%Q ∧ ct_error_count ct <= ct_error_count bct
  ∧ routes_no_worse brq rq = true ∧ schedule_no_worse bsq sq = true.
Proof.
  unfold constraints_accepted. rewrite !andb_true_iff, Qlt_bool_iff, Z.leb_le.
  intros ((((? & _) & ?) & ?) & ?). done.
Qed.

(** The same for a candidate of the constraint optimiser, whose constraint
    report must be strictly cheaper without more errors. *)
Definition constraint_verdict (bp : TripPlan) (broutes : json) (brq : RouteQualityReport)
    (bsq : ScheduleQualityReport) (bct : TripConstraintReport) (s s' : AgentState) : Prop :=
  settled (os_constraints (st_opts s')) ∧
  ((∃ rq sq ct, sn_plan (snapshot s') = sn_plan (snapshot s) ∧ sn_routes (snapshot s') = sn_routes (snapshot s)
      ∧ sn_route_quality (snapshot s') = Some rq ∧ sn_schedule (snapshot s') = Some sq
      ∧ sn_constraints (snapshot s') = Some ct
      ∧ (ct_optimization_cost ct < ct_optimization_cost bct)%Q ∧ ct_error_count ct <= ct_error_count bct
      ∧ routes_no_worse brq rq = true ∧ schedule_no_worse bsq sq = true)
   ∨ (sn_plan (snapshot s') = Some bp ∧ sn_routes (snapshot s') = Some broutes
      ∧ sn_route_quality (snapshot s') = Some brq ∧ sn_schedule (snapshot s') = Some bsq
      ∧ sn_constraints (snapshot s') = Some bct)).

(** a constraint candidate is verified all or nothing: either it stays and
    is strictly cheaper with no more constraint errors, route failures or
    overtime than the baseline, or the baseline plan, routes and its three
    reports are back together. *)
Theorem constraint_candidate_verified reason n s s' bp broutes brq bsq bct bfp :
  op_status (os_constraints (st_opts s)) = candidate_pending →
  constraint_baseline (os_constraints (st_opts s)) = Some (bp, broutes, brq, bsq, bct, bfp) →
  optimize_constraints cfg reason n s = (Ok tt, s') →
  constraint_verdict bp broutes brq bsq bct s s'.
Proof.
  intros Hp Hb Hrun.
  destruct (verify_constraints_run _ _ _ _ _ _ _ _ _ _ Hp Hb Hrun)
    as (rq & sq & ct & s1 & Hrq & Hsq & Hct & Hf & ->).
  split; [by split_and!|]. snap. rewrite verify_constraints_snapshot.
  destruct (constraints_accepted cfg bct ct brq rq bsq sq) eqn:E; [left|right; by split_and!].
  apply constraints_accepted_better in E as (? & ? & ? & ?). exists rq, sq, ct. unfold snapshot.
  cbn [sn_plan sn_routes sn_route_quality sn_commute sn_schedule sn_constraints]. rewrite Hf. by split_and!.
Qed.

(** ** Remote attractions *)

Lemma verify_replacement_snapshot p b r s :
  snapshot (verify_replacement p b r s)
  = if commute_accepted p b r then snapshot s
    else mkSnapshot (Some (cb_plan b)) (Some (cb_routes b)) (Some (cb_route_quality b))
           (Some (cb_report b)) (Some (cb_schedule b)) (Some (cb_constraints b)).
Proof.
  unfold verify_replacement, restore_commute_baseline. cbv zeta. snap.
  destruct (commute_accepted p b r); snap; done.
Qed.

Lemma verify_replacement_run reason n s s' b :
  op_status (os_commute (st_opts s)) = candidate_pending →
  commute_baseline (os_commute (st_opts s)) = Some b →
  replace_remote_attraction reason n s = (Ok tt, s') →
  ∃ p r, fa_trip_plan (st_facts s) = Some p ∧ current_reports (st_evals s) = Some r
    ∧ s' = record_local REPLACE_REMOTE_ATTRACTION reason n (verify_replacement p b r s).
Proof.
  intros Hp Hb Hrun. unfold replace_remote_attraction, plan_and_routes in Hrun.
  step_invs. destruct (fa_trip_plan (st_facts s)) as [p|] eqn:Ep; [|by step_invs].
  destruct (fa_route_estimates (st_facts s)) as [routes|] eqn:Er; step_invs.
  rewrite (pending_status _ _ Hp), Hb in *. step_invs. simplify_eq. eauto 10.
Qed.

Lemma current_reports_Some e r :
  current_reports e = Some r →
  ev_route_quality e = Some (cr_route_quality r) ∧ ev_commute e = Some (cr_commute r)
  ∧ ev_schedule e = Some (cr_schedule r) ∧ ev_constraints e = Some (cr_constraints r).
Proof.
  unfold current_reports. destruct (ev_route_quality e), (ev_commute e), (ev_schedule e), (ev_constraints e);
    try done. by intros [= <-].
Qed.

Lemma settled_replacement p b r s :
  settled (os_commute (st_opts (verify_replacement p b r s))).
Proof.
  split_and!; [reflexivity|reflexivity|].
  unfold verify_replacement, again_or_skip. cbv zeta.
  assert (Hclear : ∀ s0, op_status (os_commute (st_opts (on_commute clear_baseline (forget_validation (forget_content s0)))))
                         = op_status (os_commute (st_opts s0))) by (by intros []).
  rewrite Hclear. clear Hclear.
  assert (Hset : ∀ x s0, op_status (os_commute (st_opts (on_commute (set_status x) s0))) = x) by (by intros ? []).
  destruct (commute_accepted p b r); rewrite Hset; repeat case_match; done.
Qed.

(** The same for a replaced attraction: fewer and shorter excessive routes,
    no overtime, no constraint error and as many attractions as before. *)
Definition replacement_verdict (b : CommuteBaseline) (s s' : AgentState) : Prop :=
  settled (os_commute (st_opts s')) ∧
  ((∃ p r, snapshot s' = mkSnapshot (Some p) (sn_routes (snapshot s)) (Some (cr_route_quality r))
             (Some (cr_commute r)) (Some (cr_schedule r)) (Some (cr_constraints r))
      ∧ sn_plan (snapshot s) = Some p
      ∧ cm_excessive_segment_count (cr_commute r) < cm_excessive_segment_count (cb_report b)
      ∧ cm_max_duration_seconds (cr_commute r) < cm_max_duration_seconds (cb_report b)
      ∧ rq_unavailable_legs (cr_route_quality r) <= rq_unavailable_legs (cb_route_quality b)
      ∧ sq_total_overtime_minutes (cr_schedule r) = 0 ∧ sq_infeasible_days (cr_schedule r) = 0
      ∧ ct_error_count (cr_constraints r) = 0 ∧ count_attractions p = count_attractions (cb_plan b))
   ∨ snapshot s' = mkSnapshot (Some (cb_plan b)) (Some (cb_routes b)) (Some (cb_route_quality b))
                     (Some (cb_report b)) (Some (cb_schedule b)) (Some (cb_constraints b))).

(** a replacement of a remote attraction is verified all or nothing: either
    it stays, with fewer over-long segments, a shorter longest segment, no
    overtime, no constraint error, no more unavailable legs and the same
    number of attractions, or the baseline plan, routes and its four reports
    are back together. *)
Theorem replacement_verified reason n s s' b :
  op_status (os_commute (st_opts s)) = candidate_pending →
  commute_baseline (os_commute (st_opts s)) = Some b →
  replace_remote_attraction reason n s = (Ok tt, s') →
  replacement_verdict b s s'.
Proof.
  intros Hp Hb Hrun.
  destruct (verify_replacement_run _ _ _ _ _ Hp Hb Hrun) as (p & r & Hplan & Hr & ->).
  split; [exact (settled_replacement p b r s)|]. snap. rewrite verify_replacement_snapshot.
  destruct (commute_accepted p b r) eqn:E; [left|by right].
  apply current_reports_Some in Hr as (Hrq & Hcm & Hsq & Hct). exists p, r.
  unfold commute_accepted in E. rewrite !andb_true_iff, !Z.leb_le, !Z.ltb_lt, !Z.eqb_eq in E.
  destruct E as (((((? & ? & ?) & _) & ? & ?) & ?) & ?).
  unfold snapshot at 1. rewrite Hrq, Hcm, Hsq, Hct, Hplan. by split_and!.
Qed.

(** ** Refill *)

Lemma verify_refill_snapshot required p b rq sq ct s :
  snapshot (verify_refill required p b rq sq ct s)
  = if refill_accepted required p b rq sq ct then snapshot s
    else mkSnapshot (Some (rb_plan b)) (Some (rb_routes b)) (Some (rb_route_quality b))
           (sn_commute (snapshot s)) (Some (rb_schedule b)) (Some (rb_constraints b)).
Proof.
  unfold verify_refill. cbv zeta. snap. destruct (refill_accepted required p b rq sq ct); snap; done.
Qed.

Lemma settled_refill required p b rq sq ct s :
  settled (os_refill (st_opts (verify_refill required p b rq sq ct s))).
Proof.
  split_and!; [reflexivity|reflexivity|].
  unfold verify_refill, again_or_skip. cbv zeta.
  assert (Hclear : ∀ s0, op_status (os_refill (st_opts (forget_validation (forget_content (on_refill clear_baseline s0)))))
                         = op_status (os_refill (st_opts s0))) by (by intros []).
  rewrite Hclear. clear Hclear.
  assert (Hset : ∀ x s0, op_status (os_refill (st_opts (on_refill (set_status x) s0))) = x) by (by intros ? []).
  destruct (refill_accepted required p b rq sq ct); rewrite Hset; repeat case_match; done.
Qed.

Lemma refill_reports_Some e rq sq ct :
  refill_reports e = Some (rq, sq, ct) →
  ev_route_quality e = Some rq ∧ ev_schedule e = Some sq ∧ ev_constraints e = Some ct.
Proof.
  unfold refill_reports. destruct (ev_route_quality e), (ev_schedule e), (ev_constraints e); try done.
  by intros [= <- <- <-].
Qed.

Lemma verify_refill_run reason n s s' b :
  op_status (os_refill (st_opts s)) = candidate_pending →
  refill_baseline (os_refill (st_opts s)) = Some b →
  refill_attractions reason n s = (Ok tt, s') →
  ∃ p rq sq ct, fa_trip_plan (st_facts s) = Some p ∧ refill_reports (st_evals s) = Some (rq, sq, ct)
    ∧ s' = record_local REFILL_ATTRACTIONS reason n
             (verify_refill (required_attractions s) p b rq sq ct s).
Proof.
  intros Hp Hb Hrun. unfold refill_attractions in Hrun. step_invs.
  rewrite (pending_status _ _ Hp), Hb in *. step_invs. simplify_eq. eauto 10.
Qed.

(** The same for refilled attractions: the required number of attractions is
    reached, the days fit and no constraint error is left. *)
Definition refill_verdict (b : RefillBaseline) (s s' : AgentState) : Prop :=
  settled (os_refill (st_opts s')) ∧
  ((∃ p rq sq ct, sn_plan (snapshot s) = Some p ∧ snapshot s' = snapshot s
      ∧ sn_route_quality (snapshot s) = Some rq ∧ sn_schedule (snapshot s) = Some sq
      ∧ sn_constraints (snapshot s) = Some ct
      ∧ required_attractions s <= count_attractions p ∧ sq_total_overtime_minutes sq = 0
      ∧ sq_infeasible_days sq = 0 ∧ ct_error_count ct = 0
      ∧ routes_no_worse (rb_route_quality b) rq = true)
   ∨ snapshot s' = mkSnapshot (Some (rb_plan b)) (Some (rb_routes b)) (Some (rb_route_quality b))
                     (sn_commute (snapshot s)) (Some (rb_schedule b)) (Some (rb_constraints b))).

(** a refill is verified all or nothing: either it stays and the plan has
    the required number of attractions without overtime, infeasible days or
    constraint errors and without worse routes, or the baseline plan, routes
    and reports are back together; a rejected refill can be tried again only
    below the attempt limit. *)
Theorem refill_verified reason n s s' b :
  op_status (os_refill (st_opts s)) = candidate_pending →
  refill_baseline (os_refill (st_opts s)) = Some b →
  refill_attractions reason n s = (Ok tt, s') →
  refill_verdict b s s'.
Proof.
  intros Hp Hb Hrun.
  destruct (verify_refill_run _ _ _ _ _ Hp Hb Hrun) as (p & rq & sq & ct & Hplan & Hr & ->).
  split; [exact (settled_refill (required_attractions s) p b rq sq ct s)|].
  snap. rewrite verify_refill_snapshot.
  destruct (refill_accepted _ p b rq sq ct) eqn:E; [left|by right].
  apply refill_reports_Some in Hr as (Hrq & Hsq & Hct). exists p, rq, sq, ct.
  unfold refill_accepted in E. rewrite !andb_true_iff, !Z.eqb_eq, Z.leb_le in E.
  destruct E as (((? & ? & ?) & ?) & ?). by split_and!.
Qed.

(** ** Route order *)

(** [refresh_schedule_quality] leaves the plan and its routes alone. *)
Lemma refresh_schedule_Ok s r s1 :
  refresh_schedule_quality s = (Ok r, s1) →
  st_facts s1 = st_facts s ∧ ev_route_quality (st_evals s1) = ev_route_quality (st_evals s)
  ∧ ev_schedule (st_evals s1) = Some r ∧ os_route (st_opts s1) = os_route (st_opts s).
Proof.
  intros Hr. unfold refresh_schedule_quality, plan_and_routes, current_routes in Hr. step_invs.
  repeat case_match; step_invs; try done; repeat case_match; step_invs; try done; repeat case_match; done.
Qed.

Lemma route_report_Ok fp s r s1 :
  route_report fp s = (Ok r, s1) →
  ev_route_quality (st_evals s1) = Some r ∧ st_facts s1 = st_facts s ∧ st_opts s1 = st_opts s.
Proof.
  intros Hr. unfold route_report in Hr. step_invs.
  destruct (ev_route_quality (st_evals s)) as [r'|] eqn:E; [destruct (fingerprint_is _ _); [by step_invs|]|];
    unfold refresh_route_quality, plan_and_routes, current_routes in *; step_invs;
    repeat case_match; step_invs; try done; repeat case_match; step_invs; done.
Qed.

Lemma route_improvement_better before after m :
  is_route_quality_improvement before after m = true →
  (rq_optimization_cost after < rq_optimization_cost before)%Q ∧ routes_no_worse before after = true.
Proof.
  unfold is_route_quality_improvement, routes_no_worse. rewrite !andb_true_iff, Qlt_bool_iff.
  intros (((? & _) & ?) & ?). done.
Qed.

(** The same for a reordered day: the routes are strictly cheaper and no leg
    that was available is lost. *)
Definition route_verdict (bp : TripPlan) (broutes : json) (bq : RouteQualityReport)
    (s s' : AgentState) : Prop :=
  settled (os_route (st_opts s')) ∧
  ((∃ rq, sn_plan (snapshot s') = sn_plan (snapshot s) ∧ sn_routes (snapshot s') = sn_routes (snapshot s)
      ∧ sn_route_quality (snapshot s') = Some rq
      ∧ (rq_optimization_cost rq < rq_optimization_cost bq)%Q ∧ routes_no_worse bq rq = true)
   ∨ (sn_plan (snapshot s') = Some bp ∧ sn_routes (snapshot s') = Some broutes
      ∧ sn_route_quality (snapshot s') = Some bq ∧ is_some (sn_schedule (snapshot s')) = true)).

(** a new visiting order is verified all or nothing: either it stays and
    its routes cost strictly less with no more unavailable or over-long legs,
    or the baseline plan, routes and score are back together with a schedule
    evaluated for them; the phase is over either way. *)
Theorem route_order_verified reason n s s' bp broutes bq bfp c :
  op_status (os_route (st_opts s)) = candidate_pending →
  route_baseline (os_route (st_opts s)) = Some (bp, broutes, bq, bfp, c) →
  optimize_routes cfg reason n s = (Ok tt, s') →
  route_verdict bp broutes bq s s'.
Proof.
  intros Hp Hb Hrun. unfold optimize_routes, plan_and_routes in Hrun. step_invs.
  destruct (fa_trip_plan (st_facts s)) as [p|] eqn:Ep; [|by step_invs].
  destruct (fa_route_estimates (st_facts s)) as [routes|] eqn:Er; step_invs.
  match goal with H : route_report _ _ = (Ok ?r, ?s1) |- _ =>
    apply route_report_Ok in H as (Hrq & Hf & Ho) end.
  rewrite Ho, (pending_status _ _ Hp) in *. unfold verify_routes in *. step_invs.
  rewrite Ho, Hb in *. simplify_eq.
  match goal with H : (if ?c then _ else _) _ = _ |- _ => destruct c eqn:E end; step_invs.
  - split; [by split_and!|]. left. apply route_improvement_better in E as [? ?].
    eexists. unfold snapshot. cbn. rewrite Hf, Hrq, Ep, Er. by split_and!.
  - match goal with H : refresh_schedule_quality _ = (Ok _, _) |- _ =>
      apply refresh_schedule_Ok in H as (Hf2 & Hrq2 & Hsq2 & _) end.
    split; [by split_and!|]. right. snap.
    unfold snapshot. cbn. by rewrite Hf2, Hrq2, Hsq2.
Qed.
End Rollback.

(** ** A pending candidate of each phase *)

Section Concrete.
#[local] Existing Instance demo_hash.
#[local] Existing Instance demo_models.
#[local] Instance services : PlanningServices := demo_services [].

Definition base_routes : json := JObj [("routes", JArr [])].
Definition base_quality : RouteQualityReport := mkRouteQuality "h" 0 0 0 0 0 0 0 80 50 true [].
Definition base_schedule : ScheduleQualityReport := mkScheduleQuality "h" 0 1 90 0 30 120 20 true [].
Definition base_constraints : TripConstraintReport := mkConstraintReport "h" 1 0 1 60 40 false true [] [].
Definition base_commute : CommuteConstraintReport := mkCommuteReport "h" 1 1 9000 1800 true [] [].
Definition base_candidate : PlanCandidate := mkCandidate sample_plan ["故宫"] ["B000A8UIN8"] [].

(** The candidate of the examples is the settled plan; its baseline is worse. *)
Definition pending_phase : Optimization :=
  mkOptimization 1 candidate_pending (Some base_candidate) (Some sample_plan) (Some base_routes)
    (Some base_quality) (Some base_commute) (Some base_schedule) (Some base_constraints)
    (Some "h") (Some "h") 0 [].

Definition phases : OrchestratorSettings := mkOrchestratorSettings 3 5 5 5.

Lemma ran {A} (m : Step A) s a : (m s).1 = Ok a → m s = (Ok a, (m s).2).
Proof. destruct (m s). by intros [= ->]. Qed.

Definition route_pending : AgentState := on_route (fun _ => pending_phase) settled_state.
Definition schedule_pending : AgentState := on_schedule (fun _ => pending_phase) settled_state.
Definition constraints_pending : AgentState := on_constraints (fun _ => pending_phase) settled_state.
Definition commute_pending : AgentState := on_commute (fun _ => pending_phase) settled_state.
Definition refill_pending : AgentState := on_refill (fun _ => pending_phase) settled_state.

Lemma route_order_verified_witness :
  route_verdict sample_plan base_routes base_quality route_pending (optimize_routes phases "" 1 route_pending).2.
Proof.
  apply (route_order_verified phases "" 1 route_pending _ sample_plan base_routes base_quality "h" base_candidate);
    [reflexivity|reflexivity|apply ran; vm_compute; reflexivity].
Defined.

Lemma schedule_candidate_verified_witness :
  schedule_verdict sample_plan base_routes base_quality base_schedule schedule_pending (optimize_schedule phases "" 1 schedule_pending).2.
Proof.
  apply (schedule_candidate_verified phases "" 1 schedule_pending _ sample_plan base_routes base_quality base_schedule "h");
    [reflexivity|reflexivity|apply ran; vm_compute; reflexivity].
Defined.

Lemma constraint_candidate_verified_witness :
  constraint_verdict sample_plan base_routes base_quality base_schedule base_constraints constraints_pending
    (optimize_constraints phases "" 1 constraints_pending).2.
Proof.
  apply (constraint_candidate_verified phases "" 1 constraints_pending _ sample_plan base_routes base_quality
                     base_schedule base_constraints "h");
    [reflexivity|reflexivity|apply ran; vm_compute; reflexivity].
Defined.

Lemma replacement_verified_witness :
  replacement_verdict (mkCommuteBaseline sample_plan base_routes base_quality base_commute base_schedule
                         base_constraints "h" "h" base_candidate) commute_pending (replace_remote_attraction "" 1 commute_pending).2.
Proof.
  apply (replacement_verified "" 1 commute_pending);
    [reflexivity|reflexivity|apply ran; vm_compute; reflexivity].
Defined.

Lemma refill_verified_witness :
  refill_verdict (mkRefillBaseline sample_plan base_routes base_quality base_schedule base_constraints
                    "h" "h" base_candidate) refill_pending (refill_attractions "" 1 refill_pending).2.
Proof.
  apply (refill_verified "" 1 refill_pending);
    [reflexivity|reflexivity|apply ran; vm_compute; reflexivity].
Defined.
End Concrete.
