(* ===== verification/PlanEdits.v ===== *)
(** A two-day trip with a hotel on which the planning components are evaluated. *)

From S2P Require Import Prelude PyData TripSchema OrderedDict AmapModels PlanReports PlanContent.
From Stdlib Require Import ZArith QArith String Lia.
From stdpp Require Import base list strings tactics option.

Open Scope string_scope.
Open Scope Z_scope.

Definition spot (name id : string) (lon lat : Q) (minutes : Z) : Attraction :=
  mkAttraction name "" (mkLocation lon lat) minutes "" None None None (Some id) None 0.

Definition inn : Hotel :=
  mkHotel "如家" "" (Some (mkLocation (1163 # 10) (399 # 10))) "" "" "" "" 300.

Definition museum : Attraction := spot "首都博物馆" "m1" (11634 # 100) (399 # 10) 120.
Definition temple : Attraction := spot "天坛" "t1" (11641 # 100) (3988 # 100) 90.
Definition palace : Attraction := spot "故宫" "p1" (1164 # 10) (3992 # 100) 180.
Definition lake : Attraction := spot "什刹海" "l1" (11638 # 100) (3994 # 100) 60.
Definition wall : Attraction := spot "长城" "w1" (116 # 1) (4036 # 100) 300.

Definition trip_day (date : string) (index : Z) (l : list Attraction) : DayPlan :=
  mkDayPlan date index "" "公交" "" (Some inn) l [].

Definition trip_request : TripRequest :=
  mkTripRequest "北京" "2025-06-01" "2025-06-02" 2 "公共交通" "经济型酒店" ["历史文化"] (Some "").

(** The first day zigzags: museum, temple, lake, palace. *)
Definition trip_plan : TripPlan :=
  mkTripPlan "北京" "2025-06-01" "2025-06-02"
    [trip_day "2025-06-01" 0 [museum; temple; lake; palace]; trip_day "2025-06-02" 1 [wall]]
    [] "请提前预约" None.

Definition leg_estimate (day leg : Z) (type : RouteLegType) (meters seconds : Z) : RouteEstimate :=
  mkRouteEstimate day leg type "" "a" "b" transit true (Some meters) (Some seconds) None None false.

(** The routes of the first day; none was found for the second one. *)
Definition trip_routes : RouteEstimateResult :=
  mkRouteResult "h" 7 7 0 2 []
    [leg_estimate 0 0 hotel_departure 4000 900; leg_estimate 0 0 between_attractions 9000 1800;
     leg_estimate 0 1 between_attractions 8000 4200; leg_estimate 0 2 between_attractions 3000 800;
     leg_estimate 0 0 hotel_return 9000 1700].

(** The edits the deterministic optimisers make on a deep copy of a plan: the
    attractions of one day are replaced, popped or inserted.  Python's
    [list.pop] and [list.insert] on the positions the optimisers use. *)

(** [l.insert(i, x)]: at the end when [i] is past it. *)
Definition insert_at {A} (i : nat) (x : A) (l : list A) : list A :=
  (take i l ++ x :: drop i l)%list.

(** [l.pop(i)] for a position of the list. *)
Definition pop_at {A} (i : nat) (l : list A) : option (A * list A) :=
  match l !! i with Some x => Some (x, delete i l) | None => None end.

Lemma insert_at_perm {A} i (x : A) l : insert_at i x l ≡ₚ x :: l.
Proof. unfold insert_at. rewrite <- Permutation_middle, take_drop. done. Qed.

Lemma pop_at_perm {A} i (x : A) l l' : pop_at i l = Some (x, l') → l ≡ₚ x :: l'.
Proof.
  unfold pop_at. destruct (l !! i) as [y|] eqn:Hi; [|done]. intros [= -> <-].
  by apply delete_Permutation.
Qed.

Lemma elem_of_zip_seq {A} (l : list A) i x : (i, x) ∈ zip (seq 0 (length l)) l → l !! i = Some x.
Proof.
  intros (j & Hj)%list_elem_of_lookup_1. rewrite lookup_zip_with_Some in Hj.
  destruct Hj as (a & b & [= <- <-] & Ha & Hb). apply lookup_seq in Ha as [-> _]. done.
Qed.
(** [plan.days[position].attractions = f(...)] on the copy. *)
Definition edit_day (position : nat) (f : list Attraction → list Attraction) (p : TripPlan) : TripPlan :=
  with_days p (alter (fun d => with_attractions d (f (day_attractions d))) position (plan_days p)).

Definition all_attractions (p : TripPlan) : list Attraction :=
  concat (map day_attractions (plan_days p)).

Lemma edit_day_lookup_eq position f p d :
  plan_days p !! position = Some d →
  plan_days (edit_day position f p) !! position
  = Some (with_attractions d (f (day_attractions d))).
Proof. intros Hd. cbn. by rewrite list_lookup_alter_eq, Hd. Qed.

Lemma edit_day_lookup_ne position j f p :
  j ≠ position → plan_days (edit_day position f p) !! j = plan_days p !! j.
Proof. intros Hj. cbn. by rewrite list_lookup_alter_ne by done. Qed.

Lemma edit_day_length position f p :
  length (plan_days (edit_day position f p)) = length (plan_days p).
Proof. cbn. apply length_alter. Qed.

(** Splitting the days around one of them. *)
Lemma plan_days_split p position d :
  plan_days p !! position = Some d →
  plan_days p = (take position (plan_days p) ++ d :: drop (S position) (plan_days p))%list.
Proof. intros Hd. symmetry. by apply take_drop_middle. Qed.

Lemma edit_day_days position f p d :
  plan_days p !! position = Some d →
  plan_days (edit_day position f p)
  = (take position (plan_days p) ++ with_attractions d (f (day_attractions d))
       :: drop (S position) (plan_days p))%list.
Proof.
  intros Hd. rewrite (plan_days_split _ position _ (edit_day_lookup_eq position f p d Hd)).
  cbn. rewrite take_alter, decide_False by lia. f_equal. f_equal.
  rewrite drop_alter, decide_False by lia. done.
Qed.

Lemma edit_day_attractions position f p d :
  plan_days p !! position = Some d →
  ∃ others, all_attractions p ≡ₚ (day_attractions d ++ others)%list
    ∧ all_attractions (edit_day position f p) ≡ₚ (f (day_attractions d) ++ others)%list.
Proof.
  intros Hd.
  exists (concat (map day_attractions (take position (plan_days p)))
          ++ concat (map day_attractions (drop (S position) (plan_days p))))%list.
  unfold all_attractions. rewrite (edit_day_days position f p d Hd).
  rewrite (plan_days_split p position d Hd) at 1.
  rewrite !map_app, !concat_app. cbn [map concat day_attractions with_attractions].
  split; rewrite !(assoc_L (++)%list); apply Permutation_app_tail; apply Permutation_app_comm.
Qed.

(** Moving an attraction between two days loses and adds nothing. *)
Lemma move_attractions source target i x rest p d d' :
  source ≠ target →
  plan_days p !! source = Some d → plan_days p !! target = Some d' →
  day_attractions d ≡ₚ x :: rest →
  all_attractions (edit_day target (insert_at i x) (edit_day source (fun _ => rest) p))
  ≡ₚ all_attractions p.
Proof.
  intros Hne Hd Hd' Hx.
  destruct (edit_day_attractions source (fun _ => rest) p d Hd) as (others & Hp & Hs).
  rewrite <- (edit_day_lookup_ne source target (fun _ => rest) p) in Hd' by done.
  destruct (edit_day_attractions target (insert_at i x) _ d' Hd') as (others' & Hp' & Ht).
  rewrite Ht, insert_at_perm, Hp, Hx. cbn [app]. constructor.
  rewrite <- Hp', Hs. done.
Qed.
