(* ===== verification/RouteScoring.v ===== *)
(** The route quality score of a plan (src/app/routing/quality.py): every
    expected leg of a day is tallied, a missing one is charged a penalty.

    The report's models constrain their fields (counts and costs not negative,
    scores between 0 and 100): [route_report_ok] is that constraint, and
    [route_report_well_formed] that the evaluation always meets it. *)

From S2P Require Import Prelude FloatMath PyData TripSchema AmapModels PlanReports PlanEdits OrderedDict PlanRoutes.
From Stdlib Require Import ZArith QArith Lia Lqa String.
From stdpp Require Import base tactics option list strings.

Open Scope string_scope.
Open Scope Z_scope.

Definition UNAVAILABLE_LEG_PENALTY : Q := 21600.
Definition EXCESSIVE_DURATION_SECONDS : Z := 3600.
Definition LONG_DISTANCE_METERS : Z := 30000.
Definition LONG_DAY_DURATION_SECONDS : Z := 7200.
Definition LOW_QUALITY_SCORE : Q := 60.

(** [_usable_route], with the distance and the duration it guarantees. *)
Definition usable_route (r : option RouteEstimate) : option (Z * Z) :=
  match r with
  | Some r =>
      if re_available r
      then match re_distance_meters r, re_duration_seconds r with
           | Some d, Some t => Some (d, t)
           | _, _ => None
           end
      else None
  | None => None
  end.

Definition route_key (r : RouteEstimate) : RouteLegKey :=
  (re_day_index r, re_leg_type r, re_leg_index r).

(** [{key: route for route in routes}.get(key)]: a later route replaces an
    earlier one with the same key. *)
Definition route_at (routes : list RouteEstimate) (key : RouteLegKey) : option RouteEstimate :=
  list_find (fun r => route_key r = key) (reverse routes) ≫= fun ir => Some ir.2.

(** What the loop over the legs of a day accumulates. *)
Record RouteTally := mkTally {
  ta_available : Z; ta_unavailable : Z; ta_distance : Z; ta_duration : Z;
  ta_excessive : Z; ta_long : Z;
  ta_longest : option (Z * Z);   (** leg index and duration *)
  ta_cost : Q
}.

#[export] Instance rebuild_tally : Rebuild RouteTally := fun t =>
  mkTally (ta_available t) (ta_unavailable t) (ta_distance t) (ta_duration t) (ta_excessive t)
    (ta_long t) (ta_longest t) (ta_cost t).

Definition empty_tally : RouteTally := mkTally 0 0 0 0 0 0 None 0.

Definition tally_leg (routes : list RouteEstimate) (t : RouteTally) (key : RouteLegKey) : RouteTally :=
  match usable_route (route_at routes key) with
  | None =>
      t <| ta_unavailable := ta_unavailable t + 1 |>
        <| ta_cost := (ta_cost t + UNAVAILABLE_LEG_PENALTY)%Q |>
  | Some (distance, duration) =>
      mkTally (ta_available t + 1) (ta_unavailable t) (ta_distance t + distance)
        (ta_duration t + duration)
        (if EXCESSIVE_DURATION_SECONDS <? duration then ta_excessive t + 1 else ta_excessive t)
        (if LONG_DISTANCE_METERS <? distance then ta_long t + 1 else ta_long t)
        (match ta_longest t with
         | Some (_, longest) => if longest <? duration then Some (key.2, duration) else ta_longest t
         | None => Some (key.2, duration)
         end)
        (ta_cost t + (inject_Z duration + inject_Z distance / 10))%Q
  end.

Definition tally_legs (routes : list RouteEstimate) (keys : list RouteLegKey) : RouteTally :=
  foldl (tally_leg routes) empty_tally keys.

Section Scoring.
Context `{MathEnv}.

(** [_quality_score] *)
Definition route_quality_score (cost : Q) (leg_count : Z) : Q :=
  if leg_count <=? 0 then 100
  else round_n 2 (clamp 0 100 (100 * math_exp (- (cost / inject_Z leg_count) / 7200))%Q).

Definition evaluate_route_day (p : TripPlan) (routes : list RouteEstimate) (position : nat)
    (d : DayPlan) : RouteDayQuality :=
  let day_index := effective_day_index position d in
  let day_keys := filter (fun k => k.1.1 = day_index) (expected_route_leg_keys p) in
  let leg_count := Z.of_nat (length day_keys) in
  let t := tally_legs routes day_keys in
  let score := route_quality_score (ta_cost t) leg_count in
  let attractions := Z.of_nat (length (day_attractions d)) in
  let recommend :=
    (3 <=? attractions)
    && ((0 <? ta_unavailable t) || (0 <? ta_excessive t) || (0 <? ta_long t)
        || (LONG_DAY_DURATION_SECONDS <? ta_duration t) || Qlt_bool score LOW_QUALITY_SCORE) in
  mkRouteDay day_index (day_date d) attractions leg_count (ta_available t) (ta_unavailable t)
    (ta_distance t) (ta_duration t) (option_map fst (ta_longest t)) (option_map snd (ta_longest t))
    (ta_excessive t) (ta_long t) (round_n 2 (ta_cost t)) score recommend.

Definition evaluate_route_quality (p : TripPlan) (result : RouteEstimateResult)
    : RouteQualityReport :=
  let days := imap (evaluate_route_day p (rr_routes result)) (plan_days p) in
  let total_legs := zsum (map rd_leg_count days) in
  let cost := round_n 2 (qsum (map rd_optimization_cost days)) in
  mkRouteQuality (rr_plan_fingerprint result) total_legs
    (zsum (map rd_available_legs days)) (zsum (map rd_unavailable_legs days))
    (zsum (map rd_total_distance_meters days)) (zsum (map rd_total_duration_seconds days))
    (zsum (map rd_excessive_duration_legs days)) (zsum (map rd_long_distance_legs days))
    cost (route_quality_score cost total_legs) (existsb rd_optimization_recommended days) days.
End Scoring.

(** ** Field constraints *)

(** [Field(ge=0)] on the measures of a [RouteEstimate]. *)
Definition opt_nonneg (o : option Z) : bool := match o with Some z => 0 <=? z | None => true end.
Definition route_estimate_ok (r : RouteEstimate) : bool :=
  (0 <=? re_day_index r) && (0 <=? re_leg_index r)
  && opt_nonneg (re_distance_meters r) && opt_nonneg (re_duration_seconds r).
Definition route_result_ok (r : RouteEstimateResult) : bool :=
  negb (String.eqb (rr_plan_fingerprint r) "")
  && forallb (fun z => 0 <=? z) [rr_requested_legs r; rr_evaluated_legs r; rr_truncated_legs r; rr_failed_legs r]
  && forallb route_estimate_ok (rr_routes r).

Definition score_ok (q : Q) : bool := Qle_bool 0 q && Qle_bool q 100.

Definition route_day_ok (d : RouteDayQuality) : bool :=
  forallb (fun z => 0 <=? z)
    [rd_day_index d; rd_attraction_count d; rd_leg_count d; rd_available_legs d;
     rd_unavailable_legs d; rd_total_distance_meters d; rd_total_duration_seconds d;
     rd_excessive_duration_legs d; rd_long_distance_legs d]
  && opt_nonneg (rd_longest_leg_index d) && opt_nonneg (rd_longest_duration_seconds d)
  && Qle_bool 0 (rd_optimization_cost d) && score_ok (rd_quality_score d).

Definition route_report_ok (r : RouteQualityReport) : bool :=
  negb (String.eqb (rq_plan_fingerprint r) "")
  && forallb (fun z => 0 <=? z)
       [rq_total_legs r; rq_available_legs r; rq_unavailable_legs r;
        rq_total_distance_meters r; rq_total_duration_seconds r;
        rq_excessive_duration_legs r; rq_long_distance_legs r]
  && Qle_bool 0 (rq_optimization_cost r) && score_ok (rq_quality_score r)
  && forallb route_day_ok (rq_days r).

(** ** The tally of a day *)

Lemma usable_route_nonneg routes key d t :
  forallb route_estimate_ok routes = true → usable_route (route_at routes key) = Some (d, t) →
  0 <= d ∧ 0 <= t.
Proof.
  unfold usable_route, route_at. intros Hok.
  destruct (list_find _ _) as [[i r]|] eqn:Hf; simpl; [|done].
  apply list_find_Some in Hf as (Hr & _ & _).
  apply list_elem_of_lookup_2 in Hr. rewrite elem_of_reverse, list_elem_of_In in Hr.
  rewrite forallb_forall in Hok. specialize (Hok r Hr).
  unfold route_estimate_ok, opt_nonneg in Hok. rewrite !andb_true_iff in Hok.
  destruct (re_available r), (re_distance_meters r), (re_duration_seconds r); try done.
  intros [= <- <-]. rewrite !Z.leb_le in Hok. lia.
Qed.

(** Each leg is counted once: as available or as unavailable; the marked legs
    are available ones; the cost is made of the measures and the penalties. *)
Record tally_wf (n : Z) (t : RouteTally) : Prop := {
  tw_legs : ta_available t + ta_unavailable t = n;
  tw_available : 0 <= ta_available t;
  tw_unavailable : 0 <= ta_unavailable t;
  tw_distance : 0 <= ta_distance t;
  tw_duration : 0 <= ta_duration t;
  tw_excessive : 0 <= ta_excessive t <= ta_available t;
  tw_long : 0 <= ta_long t <= ta_available t;
  tw_longest : ∀ i l, ta_longest t = Some (i, l) → 0 <= i ∧ 0 <= l <= ta_duration t;
  tw_cost : (ta_cost t == inject_Z (ta_duration t) + inject_Z (ta_distance t) / 10
             + inject_Z (ta_unavailable t) * UNAVAILABLE_LEG_PENALTY)%Q
}.

Lemma tally_leg_wf routes n t key :
  forallb route_estimate_ok routes = true → 0 <= key.2 →
  tally_wf n t → tally_wf (n + 1) (tally_leg routes t key).
Proof.
  intros Hok Hkey [H1 H2 H3 H4 H5 H6 H7 H8 H9]. unfold tally_leg.
  destruct (usable_route _) as [[d l]|] eqn:Hu.
  - apply usable_route_nonneg in Hu; [|done].
    split; cbn; try lia.
    + destruct (EXCESSIVE_DURATION_SECONDS <? l); lia.
    + destruct (LONG_DISTANCE_METERS <? d); lia.
    + intros i l'. destruct (ta_longest t) as [[j m]|] eqn:Hl.
      * destruct (H8 _ _ eq_refl). destruct (m <? l); intros [= <- <-]; lia.
      * intros [= <- <-]. lia.
    + rewrite H9. rewrite !inject_Z_plus. field.
  - split; cbn; try done; try lia. rewrite H9, inject_Z_plus. change (inject_Z 1) with 1%Q. ring.
Qed.

Lemma tally_legs_wf routes keys :
  forallb route_estimate_ok routes = true → Forall (fun k : RouteLegKey => 0 <= k.2) keys →
  tally_wf (Z.of_nat (length keys)) (tally_legs routes keys).
Proof.
  intros Hok Hk. unfold tally_legs.
  assert (Hg : ∀ n t, tally_wf n t →
    tally_wf (n + Z.of_nat (length keys)) (foldl (tally_leg routes) t keys)).
  { induction Hk as [|k ks Hk _ IH]; intros n t Ht; simpl; [by rewrite Z.add_0_r|].
    replace (n + Z.of_nat (S (length ks))) with ((n + 1) + Z.of_nat (length ks)) by lia.
    apply IH. by apply tally_leg_wf. }
  apply (Hg 0). split; cbn; try done; lia || lra.
Qed.

Lemma tally_cost_nonneg n t : tally_wf n t → (0 <= ta_cost t)%Q.
Proof.
  intros [_ _ H3 H4 H5 _ _ _ H9]. rewrite H9.
  rewrite Zle_Qle in H3. rewrite Zle_Qle in H4. rewrite Zle_Qle in H5.
  change (inject_Z 0) with 0%Q in *. unfold UNAVAILABLE_LEG_PENALTY.
  assert (Hd : (inject_Z (ta_distance t) / 10 == inject_Z (ta_distance t) * (1 # 10))%Q) by field.
  rewrite Hd. lra.
Qed.

Lemma expected_key_indexes p :
  Forall (fun k : RouteLegKey => 0 <= k.2) (expected_route_leg_keys p).
Proof.
  unfold expected_route_leg_keys. apply Forall_concat, Forall_lookup_2.
  intros i l Hl. rewrite list_lookup_imap in Hl.
  destruct (plan_days p !! i) as [d|]; simpl in Hl; [|done]. injection Hl as <-.
  unfold day_leg_keys. destruct (resolve_day_hotels _ _) as [s r].
  rewrite !Forall_app. split_and!.
  - destruct (_ && _); repeat constructor. simpl. lia.
  - apply Forall_forall. intros k Hk. apply list_elem_of_fmap in Hk as (j & -> & _). simpl. lia.
  - destruct (_ && _); repeat constructor. simpl. lia.
Qed.

(** ** The report *)

Section Report.
Context `{MathEnv}.

Lemma route_quality_score_ok cost n : score_ok (route_quality_score cost n) = true.
Proof.
  unfold score_ok, route_quality_score. destruct (n <=? 0); [done|].
  pose proof (clamp_range 0 100 (100 * math_exp (- (cost / inject_Z n) / 7200))%Q) as Hc.
  destruct Hc as [Hl Hu]; [lra|].
  destruct (round_n_range 2 _ 0 100 Hl Hu) as [Hl' Hu'].
  apply andb_true_iff. split; apply Qle_bool_iff; assumption.
Qed.

Lemma day_tally_wf p routes i :
  forallb route_estimate_ok routes = true →
  let keys := filter (fun k : RouteLegKey => k.1.1 = i) (expected_route_leg_keys p) in
  tally_wf (Z.of_nat (length keys)) (tally_legs routes keys).
Proof.
  intros Hok keys. apply tally_legs_wf; [done|]. apply Forall_forall. intros k [_ Hk]%list_elem_of_filter.
  pose proof (expected_key_indexes p) as Hall. rewrite Forall_forall in Hall. auto.
Qed.

Lemma evaluate_route_day_ok p routes i d :
  forallb route_estimate_ok routes = true → route_day_ok (evaluate_route_day p routes i d) = true.
Proof.
  intros Hok. unfold evaluate_route_day, route_day_ok. cbn -[Z.leb Qle_bool].
  pose proof (day_tally_wf p routes (effective_day_index i d) Hok) as Hw. simpl in Hw.
  pose proof (effective_day_index_nonneg i d).
  set (keys := filter _ _) in *. set (t := tally_legs routes keys) in *.
  pose proof (tally_cost_nonneg _ _ Hw) as Hc. destruct Hw as [H1 H2 H3 H4 H5 H6 H7 H8 _].
  rewrite route_quality_score_ok, andb_true_r.
  assert (Qle_bool 0 (round_n 2 (ta_cost t)) = true) as ->
    by (apply Qle_bool_iff; by apply round_n_nonneg).
  rewrite !andb_true_r. rewrite !andb_true_iff, !Z.leb_le. split_and!; try lia.
  - destruct (ta_longest t) as [[j m]|]; simpl; [|done]. destruct (H8 _ _ eq_refl). apply Z.leb_le. lia.
  - destruct (ta_longest t) as [[j m]|]; simpl; [|done]. destruct (H8 _ _ eq_refl). apply Z.leb_le. lia.
Qed.

Lemma imap_Forall {A B} (f : nat → A → B) (P : B → Prop) l :
  (∀ i a, P (f i a)) → Forall P (imap f l).
Proof.
  intros Hf. apply Forall_lookup_2. intros i b Hb. rewrite list_lookup_imap in Hb.
  destruct (l !! i); simpl in Hb; [injection Hb as <-; apply Hf|done].
Qed.

Lemma zsum_map_nonneg {A} (f : A → Z) (l : list A) : Forall (fun a => 0 <= f a) l → 0 <= zsum (map f l).
Proof. intros Hl. apply zsum_nonneg, Forall_map. exact Hl. Qed.

Lemma route_report_facts p result :
  route_result_ok result = true →
  let report := evaluate_route_quality p result in
  route_report_ok report = true
  ∧ rq_available_legs report + rq_unavailable_legs report = rq_total_legs report
  ∧ rq_excessive_duration_legs report <= rq_available_legs report
  ∧ (0 < rq_unavailable_legs report →
     (exists d, d ∈ rq_days report ∧ 0 < rd_unavailable_legs d ∧ (UNAVAILABLE_LEG_PENALTY <= rd_optimization_cost d)%Q)).
Proof.
  intros Hok. unfold route_result_ok in Hok. apply andb_true_iff in Hok as [Hok Hr].
  apply andb_true_iff in Hok as [Hfp _].
  set (days := imap (evaluate_route_day p (rr_routes result)) (plan_days p)).
  assert (Hd : Forall (fun d => route_day_ok d = true
      ∧ rd_available_legs d + rd_unavailable_legs d = rd_leg_count d
      ∧ rd_excessive_duration_legs d <= rd_available_legs d
      ∧ (0 < rd_unavailable_legs d → (UNAVAILABLE_LEG_PENALTY <= rd_optimization_cost d)%Q)) days).
  { apply imap_Forall. intros i d. split; [by apply evaluate_route_day_ok|].
    pose proof (day_tally_wf p (rr_routes result) (effective_day_index i d) Hr) as Hw. simpl in Hw.
    unfold evaluate_route_day.
    cbn [rd_available_legs rd_unavailable_legs rd_leg_count rd_excessive_duration_legs
         rd_optimization_cost].
    set (t := tally_legs _ _) in *. destruct Hw as [H1 _ _ H4 H5 H6 _ _ H9].
    split; [done|]. split; [lia|]. intros Hu.
    apply (round_n_mono_Z 2 21600). rewrite H9.
    rewrite Zle_Qle in H4. rewrite Zle_Qle in H5.
    assert (H1u : (1 <= inject_Z (ta_unavailable t))%Q).
    { change 1%Q with (inject_Z 1). rewrite <- Zle_Qle. lia. }
    change (inject_Z 0) with 0%Q in *.
    unfold UNAVAILABLE_LEG_PENALTY. change (inject_Z 21600) with 21600%Q.
    assert (Hdiv : (inject_Z (ta_distance t) / 10 == inject_Z (ta_distance t) * (1 # 10))%Q) by field.
    rewrite Hdiv. lra. }
  cbn zeta. unfold evaluate_route_quality. fold days. cbn [rq_total_legs rq_available_legs
    rq_unavailable_legs rq_excessive_duration_legs rq_days].
  clearbody days. split_and!.
  - unfold route_report_ok. cbn -[Z.leb Qle_bool]. rewrite Hfp, route_quality_score_ok. simpl.
    rewrite !andb_true_r, !andb_true_iff, !Z.leb_le. split_and!.
    8: { apply Qle_bool_iff, round_n_nonneg, qsum_nonneg, Forall_map.
         eapply Forall_impl; [exact Hd|]. simpl. intros d [Hday _]. unfold route_day_ok in Hday.
         rewrite !andb_true_iff in Hday. apply Qle_bool_iff. apply Hday. }
    8: { apply forallb_forall. intros d Hin. rewrite Forall_forall in Hd.
         apply Hd. by apply list_elem_of_In. }
    all: apply zsum_map_nonneg; eapply Forall_impl; [exact Hd|]; simpl; intros d [Hday _];
      unfold route_day_ok in Hday; cbn -[Z.leb] in Hday;
      rewrite !andb_true_iff, !Z.leb_le in Hday; apply Hday.
  - rewrite <- zsum_map_add. f_equal. apply map_ext_Forall.
    eapply Forall_impl; [exact Hd|]. simpl. tauto.
  - clear -Hd. induction Hd as [|d l (_ & _ & Hle & _) _ IH]; [done|].
    cbn [map]. rewrite !zsum_cons. lia.
  - intros Hpos. clear -Hd Hpos. induction Hd as [|d l (_ & _ & _ & Hc) _ IH]; [done|].
    cbn [map] in Hpos. rewrite zsum_cons in Hpos.
    destruct (Z.lt_ge_cases 0 (rd_unavailable_legs d)) as [Hlt|Hge].
    + exists d. split; [left|]. auto.
    + destruct IH as (d' & Hin & H'); [lia|]. exists d'. split; [by right|done].
Qed.
End Report.


(** ** A run *)

