(* ===== verification/RouteOptimizer.v ===== *)
(** The bounded reordering of a day's attractions (src/app/routing/optimizer.py):
    nearest neighbour, two-opt reversals and relocations, the first attraction
    fixed, compared by geographic path length.

    [route_candidate_sound] is what the orchestrator relies on: the candidate
    reorders one day, keeps its first attraction and is shorter. *)

From S2P Require Import Prelude FloatMath PyData TripSchema AmapModels PlanReports PlanEdits OrderedDict PlanRoutes PlanContent.
From Stdlib Require Import ZArith QArith Lia Lqa String.
From stdpp Require Import base tactics option list strings.

Open Scope string_scope.
Open Scope Z_scope.

(** ** Orders *)

(** [_identity] *)
Definition route_identity (a : Attraction) : string * string * Q * Q :=
  (default "" (at_poi_id a), at_name a, round_n 7 (longitude (at_location a)),
   round_n 7 (latitude (at_location a))).

Definition OrderKey : Type := list (string * string * Q * Q).
Definition order_key (l : list Attraction) : OrderKey := map route_identity l.

Definition reverse_segment {A} (start stop : nat) (l : list A) : list A :=
  (take start l ++ reverse (take (S stop - start) (drop start l)) ++ drop (S stop) l)%list.

Definition relocate {A} (source target : nat) (l : list A) : list A :=
  match pop_at source l with Some (x, l') => insert_at target x l' | None => l end.

Definition two_opt_orders (l : list Attraction) : list (string * list Attraction) :=
  let count := length l in
  concat (map (fun start =>
    map (fun stop => ("two_opt_" ++ str_of_Z (Z.of_nat start) ++ "_" ++ str_of_Z (Z.of_nat stop),
                      reverse_segment start stop l))
      (seq (start + 1) (count - (start + 1))))
    (seq 1 (count - 2))).

Definition relocate_orders (l : list Attraction) : list (string * list Attraction) :=
  let positions := seq 1 (length l - 1) in
  concat (map (fun source =>
    map (fun target => ("relocate_" ++ str_of_Z (Z.of_nat source) ++ "_" ++ str_of_Z (Z.of_nat target),
                        relocate source target l))
      (filter (fun target => source ≠ target) positions))
    positions).

(** A path the search remembers: [best] of [optimize]. *)
Record RouteBest := mkRouteBest {
  rb_distance : Q; rb_position : nat; rb_strategy : string; rb_order : list Attraction;
  rb_original : Q
}.

(** [comparison[:3] < best[:3]] *)
Definition str_lt (x y : string) : bool := String.ltb x y.
Definition shorter (x y : RouteBest) : bool :=
  Qlt_bool (rb_distance x) (rb_distance y)
  || (Qeq_bool (rb_distance x) (rb_distance y)
      && ((rb_position x <? rb_position y)%nat
          || ((rb_position x =? rb_position y)%nat && str_lt (rb_strategy x) (rb_strategy y)))).

Record RouteSearch := mkRouteSearch {
  sr_best : option RouteBest; sr_considered : Z; sr_seen : list (nat * OrderKey)
}.

Section Optimizer.
Context `{MathEnv}.

Definition haversine_meters (left right : Attraction) : result exn Q :=
  let lat1 := math_radians (latitude (at_location left)) in
  let lat2 := math_radians (latitude (at_location right)) in
  let delta_lat := (lat2 - lat1)%Q in
  let delta_lon :=
    math_radians (longitude (at_location right) - longitude (at_location left))%Q in
  let value :=
    (math_sin (delta_lat / 2) ^ 2
     + math_cos lat1 * math_cos lat2 * math_sin (delta_lon / 2) ^ 2)%Q in
  y ← math_sqrt value;
  x ← math_sqrt (fmax 0 (1 - value))%Q;
  mret (6371000 * 2 * math_atan2 y x)%Q.

Definition path_distance (l : list Attraction) : result exn Q :=
  legs ← mapM (fun ab => haversine_meters ab.1 ab.2) (zip l (tail l));
  mret (qsum legs).

(** [min] over the remaining attractions by distance, then original index (no
    two have the same index, so the identity in the key is never compared). *)
Fixpoint nearest (current : Attraction) (best : option (Q * (nat * Attraction)))
    (remaining : list (nat * Attraction)) : result exn (option (Q * (nat * Attraction))) :=
  match remaining with
  | [] => mret best
  | item :: rest =>
      distance ← haversine_meters current item.2;
      nearest current
        (match best with
         | Some (d, (i, _)) =>
             if Qlt_bool distance d || (Qeq_bool distance d && (item.1 <? i)%nat)
             then Some (distance, item) else best
         | None => Some (distance, item)
         end) rest
  end.

(** The loop of [_nearest_neighbor]; one attraction leaves [remaining] per turn. *)
Fixpoint visit_nearest (fuel : nat) (current : Attraction) (remaining : list (nat * Attraction))
    : result exn (list Attraction) :=
  match fuel with
  | O => mret []
  | S fuel =>
      choice ← nearest current None remaining;
      match choice with
      | None => mret []
      | Some (_, (index, selected)) =>
          rest ← visit_nearest fuel selected (filter (fun pair => pair.1 ≠ index) remaining);
          mret (selected :: rest)
      end
  end.

Definition nearest_neighbor (l : list Attraction) : result exn (list Attraction) :=
  match l with
  | [] => Err (ValueError "list index out of range")   (** not reached: at least three *)
  | first :: rest =>
      order ← visit_nearest (length rest) first (zip (seq 1 (length rest)) rest);
      mret (first :: order)
  end.

Definition bounded_orders (l : list Attraction) : result exn (list (string * list Attraction)) :=
  order ← nearest_neighbor l;
  mret (("nearest_neighbor", order) :: two_opt_orders l ++ relocate_orders l)%list.

(** One order of the inner loop: skipped when its key was seen or is the
    original one. *)
Definition consider (position : nat) (original_key : OrderKey) (original : Q)
    (strategy : string) (order : list Attraction) (s : RouteSearch) : result exn RouteSearch :=
  let key := (position, order_key order) in
  if bool_decide (key ∈ sr_seen s) || bool_decide (order_key order = original_key) then mret s
  else
    distance ← path_distance order;
    let found := mkRouteBest distance position strategy order original in
    mret (mkRouteSearch
      (if Qlt_bool (distance + (1 # 100)) original
       then match sr_best s with
            | Some b => if shorter found b then Some found else Some b
            | None => Some found
            end
       else sr_best s)
      (sr_considered s + 1) (key :: sr_seen s)).

Fixpoint search_orders (max : Z) (position : nat) (original_key : OrderKey) (original : Q)
    (orders : list (string * list Attraction)) (s : RouteSearch) : result exn RouteSearch :=
  match orders with
  | [] => mret s
  | (strategy, order) :: rest =>
      s' ← consider position original_key original strategy order s;
      if max <=? sr_considered s' then mret s'
      else search_orders max position original_key original rest s'
  end.

Fixpoint search_days (max : Z) (days : list (nat * DayPlan)) (s : RouteSearch)
    : result exn RouteSearch :=
  match days with
  | [] => mret s
  | (position, d) :: rest =>
      let l := day_attractions d in
      if (length l <? 3)%nat then search_days max rest s
      else
        original ← path_distance l;
        orders ← bounded_orders l;
        s' ← search_orders max position (order_key l) original orders s;
        if max <=? sr_considered s' then mret s' else search_days max rest s'
  end.

Definition route_candidate (p : TripPlan) (considered : Z) (b : RouteBest) : PlanCandidate :=
  let plan := edit_day (rb_position b) (fun _ => rb_order b) p in
  let improvement :=
    if Qlt_bool 0 (rb_original b)
    then ((rb_original b - rb_distance b) / rb_original b * 100)%Q else 0%Q in
  let day_index :=
    match plan_days plan !! rb_position b with
    | Some d => effective_day_index (rb_position b) d
    | None => Z.of_nat (rb_position b)
    end in
  mkCandidate plan [] []
    [("changed_day_index", JInt day_index); ("strategy", JStr (rb_strategy b));
     ("original_distance_meters", JFloat (round_n 2 (rb_original b)));
     ("candidate_distance_meters", JFloat (round_n 2 (rb_distance b)));
     ("approximate_improvement_percent", JFloat (round_n 2 improvement));
     ("considered_candidates", JInt considered)].

(** [DeterministicRouteOptimizer.optimize] *)
Definition optimize_route_order (max_candidates : Z) (p : TripPlan)
    : result exn (option PlanCandidate) :=
  s ← search_days max_candidates (zip (seq 0 (length (plan_days p))) (plan_days p))
        (mkRouteSearch None 0 []);
  mret (option_map (route_candidate p (sr_considered s)) (sr_best s)).
End Optimizer.

(** [DeterministicRouteOptimizer.__init__] *)
Definition new_route_optimizer (max_candidates : Z) : result exn Z :=
  if max_candidates <? 1 then Err (ValueError "max_candidates must be at least 1")
  else Ok max_candidates.

(** What the optimiser proposes for a zigzag day. *)
Example demo_optimized_day :
  option_map (fun c => map (fun d => map at_name (day_attractions d)) (plan_days (cand_plan c)))
    (match @optimize_route_order demo_math 6 trip_plan with Ok c => c | Err _ => None end)
  = Some [["首都博物馆"; "什刹海"; "故宫"; "天坛"]; ["长城"]].
Proof. vm_compute. reflexivity. Qed.

(** ** Every order is a reordering behind the first attraction *)

Definition reordering (l order : list Attraction) : Prop := order ≡ₚ l ∧ head order = head l.

Lemma reverse_segment_perm {A} start stop (l : list A) :
  (start <= stop)%nat → reverse_segment start stop l ≡ₚ l.
Proof.
  intros Hle. unfold reverse_segment. rewrite reverse_Permutation.
  replace (drop (S stop) l) with (drop (S stop - start) (drop start l))
    by (rewrite drop_drop; f_equal; lia).
  by rewrite !take_drop.
Qed.

Lemma head_take_app {A} n (l k : list A) :
  (0 < n)%nat → l ≠ [] → head (take n l ++ k)%list = head l.
Proof. intros. destruct n; [lia|]. by destruct l. Qed.

Lemma relocate_reordering source target (l : list Attraction) :
  (0 < source)%nat → (0 < target)%nat → (source < length l)%nat → (2 < length l)%nat →
  reordering l (relocate source target l).
Proof.
  intros Hs Ht Hl Hlen. unfold relocate. destruct (pop_at source l) as [[x l']|] eqn:Hp.
  - split; [rewrite insert_at_perm; symmetry; by apply pop_at_perm in Hp|].
    unfold pop_at in Hp. destruct (l !! source); [|done]. injection Hp as -> <-.
    unfold insert_at. destruct l as [|y l]; [simpl in Hl; lia|].
    destruct source; [lia|]. destruct target; [lia|]. done.
  - split; done.
Qed.

Lemma reverse_segment_reordering start stop (l : list Attraction) :
  (0 < start)%nat → (start <= stop)%nat → l ≠ [] → reordering l (reverse_segment start stop l).
Proof.
  intros. split; [by apply reverse_segment_perm|]. unfold reverse_segment. by apply head_take_app.
Qed.

Lemma two_opt_reorderings l :
  (2 < length l)%nat → Forall (fun so => reordering l so.2) (two_opt_orders l).
Proof.
  intros Hl. unfold two_opt_orders. apply Forall_concat, Forall_forall.
  intros k (start & -> & Hstart)%list_elem_of_fmap. apply elem_of_seq in Hstart.
  apply Forall_forall. intros so (stop & -> & Hstop)%list_elem_of_fmap.
  apply elem_of_seq in Hstop. apply reverse_segment_reordering; [lia|lia|intros ->; simpl in Hl; lia].
Qed.

Lemma relocate_reorderings l :
  (2 < length l)%nat → Forall (fun so => reordering l so.2) (relocate_orders l).
Proof.
  intros Hl. unfold relocate_orders. apply Forall_concat, Forall_forall.
  intros k (source & -> & Hs)%list_elem_of_fmap. apply elem_of_seq in Hs.
  apply Forall_forall. intros so (target & -> & Ht)%list_elem_of_fmap.
  apply list_elem_of_filter in Ht as [_ Ht]. apply elem_of_seq in Ht.
  apply relocate_reordering; lia.
Qed.

Section Sound.
Context `{MathEnv}.

Lemma nearest_chosen current best remaining r :
  nearest current best remaining = Ok r →
  match r with
  | Some (_, item) => item ∈ remaining ∨ (∃ d, best = Some (d, item))
  | None => best = None ∧ remaining = []
  end.
Proof.
  revert best. induction remaining as [|item rest IH]; intros best; simpl.
  - intros [= ->]. destruct r as [[d item]|]; [right; by exists d|done].
  - destruct (haversine_meters current item.2) as [dist|e]; [|done].
    cbn [mbind result_bind]. intros Hn%IH. destruct r as [[d x]|].
    + destruct Hn as [Hin|[d' Hb]]; [left; by right|].
      destruct best as [[d0 [i a]]|].
      * destruct (_ || _); injection Hb; intros; subst; [left; by left|right; eauto].
      * injection Hb; intros; subst. left; by left.
    + destruct Hn as [Hb _]. destruct best as [[d0 [i a]]|]; [destruct (_ || _)|]; done.
Qed.

Lemma filter_other_index (l : list (nat * Attraction)) index a :
  NoDup (map fst l) → (index, a) ∈ l →
  l ≡ₚ (index, a) :: filter (fun pair => pair.1 ≠ index) l.
Proof.
  induction l as [|[i b] l IH]; simpl; [by intros _ ?%elem_of_nil|].
  intros [Hi Hl]%NoDup_cons Hin. apply elem_of_cons in Hin as [[= -> ->]|Hin].
  - rewrite filter_cons_False by (simpl; tauto). rewrite filter_all; [done|].
    apply Forall_forall. intros [j c] Hj. simpl. intros Heq. apply Hi.
    apply list_elem_of_fmap. exists (j, c). by rewrite Heq in Hj |- *.
  - assert (i ≠ index).
    { intros ->. apply Hi. apply list_elem_of_fmap. by exists (index, a). }
    rewrite filter_cons_True by done. rewrite (IH Hl Hin) at 1. apply Permutation_swap.
Qed.

Lemma visit_nearest_perm fuel current remaining order :
  NoDup (map fst remaining) → (length remaining <= fuel)%nat →
  visit_nearest fuel current remaining = Ok order → order ≡ₚ map snd remaining.
Proof.
  revert current remaining order.
  induction fuel as [|fuel IH]; intros current remaining order Hnd Hlen; simpl.
  - destruct remaining; [|simpl in Hlen; lia]. by intros [= <-].
  - destruct (nearest current None remaining) as [r|e] eqn:Hn; [|done].
    apply nearest_chosen in Hn. cbn [mbind result_bind].
    destruct r as [[d [index a]]|]; [|destruct Hn as [_ ->]; by intros [= <-]].
    destruct Hn as [Hin|[d' Hd']]; [|done].
    pose proof (filter_other_index _ _ _ Hnd Hin) as Hp.
    destruct (visit_nearest _ _ _) as [rest|e] eqn:Hv; [|done]. intros [= <-].
    rewrite Hp. cbn [map snd]. constructor.
    assert (Hnd' : NoDup (map fst ((index, a) :: filter (fun pair : nat * Attraction => pair.1 ≠ index) remaining)))
      by (by rewrite <- Hp).
    apply NoDup_cons in Hnd' as [_ Hnd'].
    apply (IH _ _ _ Hnd') with (2 := Hv).
    apply Permutation_length in Hp. simpl in Hp. lia.
Qed.

Lemma zip_indices_fst (l : list Attraction) n : map fst (zip (seq n (length l)) l) = seq n (length l).
Proof. apply fst_zip. by rewrite length_seq. Qed.
Lemma zip_indices_snd (l : list Attraction) n : map snd (zip (seq n (length l)) l) = l.
Proof. apply snd_zip. by rewrite length_seq. Qed.

Lemma bounded_orders_reorder l orders :
  (2 < length l)%nat → bounded_orders l = Ok orders → Forall (fun so => reordering l so.2) orders.
Proof.
  intros Hl. unfold bounded_orders.
  destruct (nearest_neighbor l) as [order|e] eqn:Hn; [|done]. intros [= <-].
  constructor; [|apply Forall_app; split; [by apply two_opt_reorderings|by apply relocate_reorderings]].
  simpl. unfold nearest_neighbor in Hn. destruct l as [|first rest]; [done|].
  destruct (visit_nearest _ _ _) as [order'|e] eqn:Hv; [|done]. injection Hn as <-.
  split; [|done]. constructor.
  apply visit_nearest_perm in Hv.
  - by rewrite zip_indices_snd in Hv.
  - rewrite zip_indices_fst. apply NoDup_seq.
  - rewrite length_zip, length_seq. lia.
Qed.

(** ** The search *)

(** What the search keeps as its best path. *)
Definition sound_best (days : list DayPlan) (b : RouteBest) : Prop :=
  ∃ d, days !! rb_position b = Some d
    ∧ reordering (day_attractions d) (rb_order b)
    ∧ path_distance (day_attractions d) = Ok (rb_original b)
    ∧ path_distance (rb_order b) = Ok (rb_distance b)
    ∧ (rb_distance b + (1 # 100) < rb_original b)%Q.

Record search_wf (days : list DayPlan) (max : Z) (s : RouteSearch) : Prop := {
  sw_best : ∀ b, sr_best s = Some b → sound_best days b ∧ 0 < sr_considered s;
  sw_considered : 0 <= sr_considered s <= max
}.

Lemma consider_wf days max position d original strategy order s s' :
  days !! position = Some d → path_distance (day_attractions d) = Ok original →
  reordering (day_attractions d) order → sr_considered s < max →
  search_wf days max s →
  consider position (order_key (day_attractions d)) original strategy order s = Ok s' →
  search_wf days max s'.
Proof.
  intros Hd Ho Hr Hlt [Hb Hc]. unfold consider. destruct (_ || _); [by intros [= <-]|].
  destruct (path_distance order) as [dist|e] eqn:Hdist; [|done]. intros [= <-].
  split; cbn [sr_best sr_considered]; [|lia]. intros b.
  assert (Hold : ∀ b, sr_best s = Some b → sound_best days b ∧ 0 < sr_considered s + 1).
  { intros b' Hb'. destruct (Hb _ Hb'). split; [done|lia]. }
  destruct (Qlt_bool _ _) eqn:Hshort; [|apply Hold].
  apply Qlt_bool_iff in Hshort.
  assert (Hnew : sound_best days (mkRouteBest dist position strategy order original))
    by (exists d; split_and!; done).
  destruct (sr_best s) as [b0|] eqn:Hb0; [destruct (shorter _ _)|]; intros [= <-];
    first [split; [exact Hnew|lia] | by apply Hold].
Qed.

Lemma search_orders_wf days max position d original orders s s' :
  days !! position = Some d → path_distance (day_attractions d) = Ok original →
  Forall (fun so => reordering (day_attractions d) so.2) orders → sr_considered s < max →
  search_wf days max s →
  search_orders max position (order_key (day_attractions d)) original orders s = Ok s' →
  search_wf days max s'.
Proof.
  intros Hd Ho Hr. revert s. induction Hr as [|[strategy order] rest Hso _ IH]; intros s Hlt Hw;
    simpl; [by intros [= <-]|].
  destruct (consider _ _ _ _ _ _) as [s1|e] eqn:Hcons; [|done]. cbn [mbind result_bind].
  pose proof (consider_wf _ _ _ _ _ _ _ _ _ Hd Ho Hso Hlt Hw Hcons) as Hw1.
  destruct (Z.leb_spec max (sr_considered s1)); [by intros [= <-]|]. by apply IH.
Qed.

Lemma search_days_wf days max l s s' :
  (∀ position d, (position, d) ∈ l → days !! position = Some d) →
  sr_considered s < max → search_wf days max s →
  search_days max l s = Ok s' → search_wf days max s'.
Proof.
  revert s. induction l as [|[position d] rest IH]; intros s Hl Hlt Hw; simpl; [by intros [= <-]|].
  assert (Hrest : ∀ position d, (position, d) ∈ rest → days !! position = Some d)
    by (intros; apply Hl; by right).
  destruct (Nat.ltb_spec (length (day_attractions d)) 3); [by apply IH|].
  destruct (path_distance _) as [original|e] eqn:Ho; [|done].
  destruct (bounded_orders _) as [orders|e] eqn:Hb; [|done]. cbn [mbind result_bind].
  destruct (search_orders _ _ _ _ _ _) as [s1|e] eqn:Hs; [|done]. cbn [mbind result_bind].
  apply bounded_orders_reorder in Hb; [|lia].
  pose proof (search_orders_wf _ _ _ _ _ _ _ _ (Hl position d ltac:(left)) Ho Hb Hlt Hw Hs) as Hw1.
  destruct (Z.leb_spec max (sr_considered s1)); [by intros [= <-]|]. by apply IH.
Qed.

End Sound.

(** C25: a reordering the route optimiser proposes is the plan with the
    attractions of one day permuted behind an unchanged first one, and the
    path through them is more than a centimetre shorter; at most
    [max_candidates] orders were measured. *)
Theorem route_candidate_sound `{MathEnv} max p c :
  new_route_optimizer max = Ok max →
  optimize_route_order max p = Ok (Some c) →
  ∃ position d order before after considered,
    plan_days p !! position = Some d
    ∧ cand_plan c = edit_day position (fun _ => order) p
    ∧ order ≡ₚ day_attractions d ∧ head order = head (day_attractions d)
    ∧ path_distance (day_attractions d) = Ok before ∧ path_distance order = Ok after
    ∧ (after + (1 # 100) < before)%Q
    ∧ od_get "considered_candidates" (cand_fields c) = Some (JInt considered)
    ∧ 0 < considered <= max.
Proof.
  intros Hmax. assert (0 < max) as Hpos.
  { unfold new_route_optimizer in Hmax. destruct (Z.ltb_spec max 1); [done|lia]. }
  unfold optimize_route_order.
  destruct (search_days _ _ _) as [s|e] eqn:Hs; [|done]. cbn [mbind result_bind].
  intros Hc. injection Hc as Hc. destruct (sr_best s) as [b|] eqn:Hb; [|done].
  injection Hc as <-.
  apply (search_days_wf (plan_days p)) in Hs; [|intros ??; apply elem_of_zip_seq|done|split; [done|simpl; lia]].
  destruct Hs as [Hbest Hcons]. destruct (Hbest b Hb) as [(d & Hd & [Hperm Hhead] & H1 & H2 & H3) Hn].
  exists (rb_position b), d, (rb_order b), (rb_original b), (rb_distance b), (sr_considered s).
  split_and!; try done. lia.
Qed.

Definition demo_candidate : PlanCandidate :=
  match @optimize_route_order demo_math 6 trip_plan with
  | Ok (Some c) => c
  | _ => mkCandidate trip_plan [] [] []
  end.

Lemma route_candidate_sound_witness :
  ∃ position d order before after considered,
    plan_days trip_plan !! position = Some d
    ∧ cand_plan demo_candidate = edit_day position (fun _ => order) trip_plan
    ∧ order ≡ₚ day_attractions d ∧ head order = head (day_attractions d)
    ∧ @path_distance demo_math (day_attractions d) = Ok before
    ∧ @path_distance demo_math order = Ok after
    ∧ (after + (1 # 100) < before)%Q
    ∧ od_get "considered_candidates" (cand_fields demo_candidate) = Some (JInt considered)
    ∧ 0 < considered <= 6.
Proof.
  refine (@route_candidate_sound demo_math 6 trip_plan demo_candidate eq_refl _).
  vm_compute; reflexivity.
Defined.
