(* ===== verification/Timeline.v ===== *)
(** The daily timeline (src/app/scheduling/timeline.py): the visits, the
    transports, the buffers and the lunch of a day laid out minute by minute
    from the configured start, and the schedule report with its scores.

    The four counters of a day and the list it appends to are the record
    [DayClock]; the local functions of [_evaluate_day] work on it. *)

From S2P Require Import Prelude FloatMath PyData ClockText TripSchema AmapModels PlanReports PlanEdits OrderedDict PlanRoutes RouteScoring.
From S2P Require Import ToolModels AgentState Convergence.
From Stdlib Require Import ZArith QArith Qround Lia Lqa String.
From stdpp Require Import base tactics option list strings.

Open Scope string_scope.
Open Scope Z_scope.

(** ** Settings *)

Record TimelineSettings := mkTimelineSettings {
  tl_start_minute : Z; tl_end_minute : Z; tl_lunch_duration_minutes : Z;
  tl_lunch_window_start_minute : Z; tl_lunch_window_end_minute : Z;
  tl_route_buffer_minutes : Z; tl_attraction_buffer_minutes : Z; tl_fallback_safety_factor : Q
}.

Definition tl_latest_lunch_start_minute (c : TimelineSettings) : Z :=
  tl_lunch_window_end_minute c - tl_lunch_duration_minutes c.

(** [ScheduleTimelineEvaluator.__init__] *)
Definition new_timeline_evaluator (default_start_time default_end_time : string)
    (lunch_duration_minutes : Z) (lunch_window_start lunch_window_end : string)
    (route_buffer_minutes attraction_buffer_minutes : Z) (fallback_safety_factor : Q)
    : result exn TimelineSettings :=
  start ← parse_day_clock default_start_time;
  stop ← parse_day_clock default_end_time;
  if stop <=? start then Err (ValueError "default_end_time must be later than default_start_time")
  else if Z.min lunch_duration_minutes (Z.min route_buffer_minutes attraction_buffer_minutes) <? 0
  then Err (ValueError "schedule durations cannot be negative")
  else if Qle_bool fallback_safety_factor 0
  then Err (ValueError "fallback_safety_factor must be positive")
  else
    window_start ← parse_day_clock lunch_window_start;
    window_end ← parse_day_clock lunch_window_end;
    if window_end <=? window_start
    then Err (ValueError "lunch_window_end must be later than lunch_window_start")
    else if window_end - window_start <? lunch_duration_minutes
    then Err (ValueError "lunch duration must fit inside the configured lunch window")
    else mret (mkTimelineSettings start stop lunch_duration_minutes window_start window_end
                 route_buffer_minutes attraction_buffer_minutes fallback_safety_factor).

(** What the constructor guarantees of its settings. *)
Record settings_wf (c : TimelineSettings) : Prop := {
  swf_day : 0 <= tl_start_minute c < tl_end_minute c;
  swf_day_end : tl_end_minute c < 1440;
  swf_lunch : 0 <= tl_lunch_duration_minutes c
              <= tl_lunch_window_end_minute c - tl_lunch_window_start_minute c;
  swf_window : 0 <= tl_lunch_window_start_minute c < tl_lunch_window_end_minute c;
  swf_buffers : 0 <= tl_route_buffer_minutes c ∧ 0 <= tl_attraction_buffer_minutes c
}.

Lemma parse_day_clock_range s m : parse_day_clock s = Ok m → 0 <= m < 1440.
Proof.
  unfold parse_day_clock. destruct (split_once _ _) as [h [t|]]; [|done].
  destruct (str_contains _ _); [done|].
  destruct (py_int h) as [hour|]; [|done]. destruct (py_int t) as [minute|]; [|done].
  cbn [mbind result_bind]. destruct (_ && _) eqn:E; [|done]. intros [= <-].
  rewrite !andb_true_iff, !Z.leb_le in E. lia.
Qed.

Lemma new_timeline_evaluator_wf s e l ws we rb ab f c :
  new_timeline_evaluator s e l ws we rb ab f = Ok c → settings_wf c.
Proof.
  unfold new_timeline_evaluator.
  destruct (parse_day_clock s) as [start|] eqn:Hs; [|done].
  destruct (parse_day_clock e) as [stop|] eqn:He; [|done]. cbn [mbind result_bind].
  destruct (Z.leb_spec stop start); [done|]. destruct (Z.ltb_spec (Z.min l (Z.min rb ab)) 0); [done|].
  destruct (Qle_bool f 0); [done|].
  destruct (parse_day_clock ws) as [w1|] eqn:Hw1; [|done].
  destruct (parse_day_clock we) as [w2|] eqn:Hw2; [|done]. cbn [mbind result_bind].
  destruct (Z.leb_spec w2 w1); [done|]. destruct (Z.ltb_spec (w2 - w1) l); [done|]. intros [= <-].
  apply parse_day_clock_range in Hs, He, Hw1, Hw2. split; cbn; lia.
Qed.

(** ** The state of a day *)

Record DayClock := mkDayClock {
  dk_current : Z; dk_timeline : list TimelineItem; dk_lunch_added : bool;
  dk_attraction : Z; dk_transportation : Z; dk_meal : Z; dk_break : Z; dk_fallback : Z
}.

#[export] Instance rebuild_clock : Rebuild DayClock := fun k =>
  mkDayClock (dk_current k) (dk_timeline k) (dk_lunch_added k) (dk_attraction k)
    (dk_transportation k) (dk_meal k) (dk_break k) (dk_fallback k).

Definition new_day_clock (start : Z) : DayClock := mkDayClock start [] false 0 0 0 0 0.

Section Day.
Context (c : TimelineSettings) (day_idx : Z) (lunch_name : string).

Definition append_raw_item (item_type name : string) (duration : Z) (source_index : option Z)
    (time_source : option string) (k : DayClock) : DayClock :=
  if duration <=? 0 then k
  else
    let stop := dk_current k + duration in
    k <| dk_current := stop |>
      <| dk_timeline := (dk_timeline k ++
           [mkTimelineItem item_type name (format_clock (dk_current k)) (format_clock stop)
              duration day_idx source_index time_source])%list |>.

Definition append_lunch (k : DayClock) : DayClock :=
  if dk_lunch_added k || (tl_lunch_duration_minutes c <=? 0) then k
  else
    let k :=
      if dk_current k <? tl_lunch_window_start_minute c
      then
        let wait := tl_lunch_window_start_minute c - dk_current k in
        let k := append_raw_item "break" "午餐窗口等待" wait None None k in
        k <| dk_break := dk_break k + wait |>
      else k in
    let k := append_raw_item "meal" lunch_name (tl_lunch_duration_minutes c) None None k in
    k <| dk_meal := dk_meal k + tl_lunch_duration_minutes c |> <| dk_lunch_added := true |>.

(** The item would push a complete lunch out of its window. *)
Definition lunch_due (item_type : string) (duration : Z) (k : DayClock) : bool :=
  negb (dk_lunch_added k) && (0 <? tl_lunch_duration_minutes c)
  && negb (String.eqb item_type "meal")
  && ((tl_lunch_window_start_minute c <=? dk_current k)
      || (tl_latest_lunch_start_minute c <? dk_current k + duration)).

Definition append_item (item_type name : string) (duration : Z) (source_index : option Z)
    (time_source : option string) (k : DayClock) : DayClock :=
  if duration <=? 0 then k
  else
    let k := if lunch_due item_type duration k then append_lunch k else k in
    append_raw_item item_type name duration source_index time_source k.

(** A transport of the day with the buffer after it. *)
Definition append_transport (name buffer_name : string) (minutes : Z) (time_source : string)
    (source_index : Z) (k : DayClock) : DayClock :=
  let k := if String.eqb time_source "haversine_fallback"
           then k <| dk_fallback := dk_fallback k + 1 |> else k in
  let k := append_item "transportation" name minutes (Some source_index) (Some time_source) k in
  let k := k <| dk_transportation := dk_transportation k + minutes |> in
  if tl_route_buffer_minutes c =? 0 then k
  else
    let k := append_item "break" buffer_name (tl_route_buffer_minutes c) (Some source_index) None k in
    k <| dk_break := dk_break k + tl_route_buffer_minutes c |>.
End Day.

Definition route_buffer_name : string := "路线机动缓冲".

(** ** Transport times *)

Definition fallback_speed_kmh (m : RouteMode) : Q :=
  match m with walking => 4 | driving => 25 | transit => 18 end.

(** Where a transport starts or ends: an attraction or a hotel. *)
Record Place := mkPlace { place_name : string; place_location : Location }.
Definition attraction_stop (a : Attraction) : Place := mkPlace (at_name a) (at_location a).

(** [resolve_day_hotels] only returns hotels with a location. *)
Definition hotel_stop (h : option Hotel) : option Place :=
  h ≫= fun h => option_map (mkPlace (hotel_name h)) (hotel_location h).

Section Transport.
Context `{MathEnv}.

Definition haversine_km (left right : Place) : result exn Q :=
  let lat1 := latitude (place_location left) in
  let lat2 := latitude (place_location right) in
  let d_lat := math_radians (lat2 - lat1)%Q in
  let d_lon := math_radians (longitude (place_location right) - longitude (place_location left))%Q in
  let value :=
    (math_sin (d_lat / 2) ^ 2
     + math_cos (math_radians lat1) * math_cos (math_radians lat2) * math_sin (d_lon / 2) ^ 2)%Q in
  root ← math_sqrt value;
  angle ← math_asin root;
  mret (2 * 6371 * angle)%Q.

Definition transport_minutes (c : TimelineSettings) (origin destination : Place) (mode : RouteMode)
    (route : option RouteEstimate) : result exn (Z * string) :=
  let known :=
    match route with
    | Some r => if re_available r then re_duration_seconds r else None
    | None => None
    end in
  match known with
  | Some seconds => mret (Z.max 1 (math_ceil (inject_Z seconds / 60)), "amap")
  | None =>
      distance ← haversine_km origin destination;
      let hours := (distance / fallback_speed_kmh mode)%Q in
      mret (Z.max 1 (math_ceil (hours * 60 * tl_fallback_safety_factor c)), "haversine_fallback")
  end.
End Transport.

(** [_lunch_name] *)
Definition lunch_name_of (d : DayPlan) : string :=
  match find (fun m => let t := ascii_lower (py_strip (meal_type m)) in
                       str_contains "lunch" t || str_contains "午餐" t) (day_meals d) with
  | Some m => meal_name m
  | None => "午餐"
  end.

(** ** One day *)

Section EvaluateDay.
Context `{MathEnv}.
Context (c : TimelineSettings) (day_idx : Z) (lunch : string) (mode : RouteMode)
  (routes : list RouteEstimate).

(** A transport whose time comes from the route of the leg. *)
Definition travel (origin destination : Place) (leg : RouteLegType) (leg_index source_index : Z)
    (k : DayClock) : result exn DayClock :=
  timed ← transport_minutes c origin destination mode (route_at routes (day_idx, leg, leg_index));
  mret (append_transport c day_idx lunch (place_name origin ++ " → " ++ place_name destination)
          route_buffer_name timed.1 timed.2 source_index k).

(** The loop over the attractions from index [i] on. *)
Fixpoint visit_attractions (i : Z) (l : list Attraction) (k : DayClock) : result exn DayClock :=
  match l with
  | [] => mret k
  | a :: rest =>
      let duration := Z.max 0 (at_visit_duration a) in
      let k := append_item c day_idx lunch "attraction" (at_name a) duration (Some i) None k in
      let k := k <| dk_attraction := dk_attraction k + duration |> in
      match rest with
      | [] => mret k
      | next :: _ =>
          let k :=
            if tl_attraction_buffer_minutes c =? 0 then k
            else
              let k := append_item c day_idx lunch "break" "景点间休息缓冲"
                         (tl_attraction_buffer_minutes c) (Some i) None k in
              k <| dk_break := dk_break k + tl_attraction_buffer_minutes c |> in
          k ← travel (attraction_stop a) (attraction_stop next) between_attractions i i k;
          visit_attractions (i + 1) rest k
      end
  end.

Definition day_timeline (start_hotel return_hotel : option Place) (l : list Attraction)
    : result exn DayClock :=
  let k := new_day_clock (tl_start_minute c) in
  k ← (match l, start_hotel with
       | first :: _, Some hotel => travel hotel (attraction_stop first) hotel_departure 0 0 k
       | _, _ => mret k
       end);
  k ← visit_attractions 0 l k;
  let k :=
    if negb (dk_lunch_added k) && (0 <? tl_lunch_duration_minutes c)
       && negb (bool_decide (l = [])) && (12 * 60 <? dk_current k)
    then append_lunch c day_idx lunch k else k in
  match last l, return_hotel with
  | Some a, Some hotel =>
      travel (attraction_stop a) hotel hotel_return 0
        (Z.max 0 (Z.of_nat (length l) - 1)) k
  | _, _ => mret k
  end.
End EvaluateDay.

(** ** Reports *)

Definition day_schedule (c : TimelineSettings) (day_idx : Z) (d : DayPlan) (k : DayClock)
    : DayScheduleQuality :=
  let available := tl_end_minute c - tl_start_minute c in
  let required := dk_attraction k + dk_transportation k + dk_meal k + dk_break k in
  let overtime := Z.max 0 (required - available) in
  let free := Z.max 0 (available - required) in
  let cost := (inject_Z overtime * 100 + inject_Z (dk_fallback k) * 1000
               + inject_Z (dk_transportation k))%Q in
  let ratio (minutes : Z) : Q :=
    if available =? 0 then 1%Q else (inject_Z minutes / inject_Z available)%Q in
  let score := clamp 0 100
    (100 - ratio overtime * 100 - inject_Z (dk_fallback k) * 10 - ratio (dk_transportation k) * 20)%Q in
  mkDaySchedule day_idx (day_date d) available (dk_attraction k) (dk_transportation k) (dk_meal k)
    (dk_break k) required free overtime (dk_fallback k) (round_n 2 cost) (round_n 2 score)
    (overtime =? 0) (dk_timeline k).

Section Evaluate.
Context `{MathEnv} `{HashEnv}.
Context (c : TimelineSettings).

Definition evaluate_schedule_day (req : TripRequest) (p : TripPlan) (routes : list RouteEstimate)
    (position : nat) (d : DayPlan) : result exn DayScheduleQuality :=
  let day_idx := effective_day_index position d in
  let '(start_hotel, return_hotel) := resolve_day_hotels (plan_days p) position in
  k ← day_timeline c day_idx (lunch_name_of d) (day_mode req d) routes
        (hotel_stop start_hotel) (hotel_stop return_hotel) (day_attractions d);
  mret (day_schedule c day_idx d k).

Definition schedule_report_of (fingerprint : string) (days : list DayScheduleQuality)
    : ScheduleQualityReport :=
  let feasible := Z.of_nat (length (filter (fun d => ds_feasible d = true) days)) in
  let overtime := zsum (map ds_overtime_minutes days) in
  let score :=
    match days with
    | [] => 100%Q
    | _ => round_n 2 (qsum (map ds_quality_score days) / inject_Z (Z.of_nat (length days)))%Q
    end in
  mkScheduleQuality fingerprint feasible (Z.of_nat (length days) - feasible) overtime
    (zsum (map ds_fallback_route_legs days)) (zsum (map ds_transportation_minutes days))
    (round_n 2 (qsum (map ds_optimization_cost days))) score (0 <? overtime) days.

(** [ScheduleTimelineEvaluator.evaluate]; [None] are no route estimates. *)
Definition evaluate_schedule_quality (req : TripRequest) (p : TripPlan)
    (routes : option RouteEstimateResult) : result exn ScheduleQualityReport :=
  let table := match routes with Some r => rr_routes r | None => [] end in
  days ← mapM id (imap (evaluate_schedule_day req p table) (plan_days p));
  mret (schedule_report_of (route_fingerprint req p) days).
End Evaluate.

(** A hash for the runs below. *)
Definition constant_hash : HashEnv :=
  {| he_sha256_hex := fun _ => "h"; he_float_repr := fun _ => "0"; he_dump_datetime := fun _ => "" |}.

Definition default_timeline : TimelineSettings :=
  mkTimelineSettings 540 1080 60 690 840 10 10 (13 # 10).

Example default_timeline_ok :
  new_timeline_evaluator "09:00" "18:00" 60 "11:30" "14:00" 10 10 (13 # 10) = Ok default_timeline.
Proof. vm_compute. reflexivity. Qed.

(** The demo day: lunch comes before the first transport that would end too late
    for it. *)
Example demo_timeline :
  match day_timeline (H := demo_math) default_timeline 0 "烤鸭" transit (rr_routes trip_routes)
          (hotel_stop (Some inn)) (hotel_stop (Some inn)) [museum; temple; lake; palace] with
  | Ok k => map (fun i => (ti_item_type i, ti_start_time i, ti_end_time i)) (dk_timeline k)
  | Err _ => []
  end =
  [("transportation", "09:00", "09:15"); ("break", "09:15", "09:25");
   ("attraction", "09:25", "11:25"); ("break", "11:25", "11:35");
   ("meal", "11:35", "12:35"); ("transportation", "12:35", "13:05");
   ("break", "13:05", "13:15"); ("attraction", "13:15", "14:45");
   ("break", "14:45", "14:55"); ("transportation", "14:55", "16:05");
   ("break", "16:05", "16:15"); ("attraction", "16:15", "17:15");
   ("break", "17:15", "17:25"); ("transportation", "17:25", "17:39");
   ("break", "17:39", "17:49"); ("attraction", "17:49", "20:49");
   ("transportation", "20:49", "21:18"); ("break", "21:18", "21:28")].
Proof. vm_compute. reflexivity. Qed.
