(* ===== verification/TimelineTheorems.v ===== *)
(** The timeline of a day is contiguous, accounts for every minute and serves
    a complete lunch inside the configured window. *)

From S2P Require Import Prelude FloatMath PyData ClockText TripSchema AmapModels PlanReports PlanEdits OrderedDict PlanRoutes RouteScoring.
From S2P Require Import ToolModels AgentState Convergence Timeline.
From Stdlib Require Import ZArith QArith Qround Lia Lqa String.
From stdpp Require Import base tactics option list strings.

Open Scope string_scope.
Open Scope Z_scope.

(** Items follow each other without a gap, from minute [s] to minute [e]. *)
Inductive contiguous : Z → list TimelineItem → Z → Prop :=
| contiguous_nil s : contiguous s [] s
| contiguous_cons s i l e :
    ti_start_time i = format_clock s → ti_end_time i = format_clock (s + ti_duration_minutes i) →
    0 < ti_duration_minutes i → contiguous (s + ti_duration_minutes i) l e →
    contiguous s (i :: l) e.

Lemma contiguous_snoc s l e i :
  contiguous s l e → ti_start_time i = format_clock e →
  ti_end_time i = format_clock (e + ti_duration_minutes i) → 0 < ti_duration_minutes i →
  contiguous s (l ++ [i])%list (e + ti_duration_minutes i).
Proof.
  induction 1 as [s|s j l e H1 H2 H3 _ IH]; intros Hs He Hd; simpl.
  - constructor; try done. constructor.
  - constructor; try done. by apply IH.
Qed.

Definition minutes_of (item_type : string) (l : list TimelineItem) : Z :=
  zsum (map ti_duration_minutes (filter (fun i => ti_item_type i = item_type) l)).

Lemma minutes_of_snoc t l i :
  minutes_of t (l ++ [i])%list
  = minutes_of t l + (if decide (ti_item_type i = t) then ti_duration_minutes i else 0).
Proof.
  unfold minutes_of. rewrite filter_app, map_app, zsum_app.
  case_decide; [rewrite filter_cons_True by done|rewrite filter_cons_False by done]; simpl; lia.
Qed.

(** The counter of a kind of item. *)
Definition counter (item_type : string) (k : DayClock) : Z :=
  if String.eqb item_type "attraction" then dk_attraction k
  else if String.eqb item_type "transportation" then dk_transportation k
  else if String.eqb item_type "meal" then dk_meal k
  else if String.eqb item_type "break" then dk_break k
  else 0.

Definition counted (k : DayClock) : Z :=
  dk_attraction k + dk_transportation k + dk_meal k + dk_break k.

Definition item_types : list string := ["attraction"; "transportation"; "meal"; "break"].

Section Accounting.
Context (c : TimelineSettings) (day_idx : Z) (lunch : string).

(** Every counter is the minutes of its kind, but for [owed] minutes of the
    kind [debtor], which the code adds to the counter after the item. *)
Record accounted (debtor : string) (owed : Z) (k : DayClock) : Prop := {
  ac_contiguous : contiguous (tl_start_minute c) (dk_timeline k) (dk_current k);
  ac_current : dk_current k = tl_start_minute c + counted k + owed;
  ac_minutes : ∀ t, t ∈ item_types →
    minutes_of t (dk_timeline k) = counter t k + (if decide (t = debtor) then owed else 0);
  ac_fallback : 0 <= dk_fallback k;
  ac_days : Forall (fun i => ti_day_index i = day_idx) (dk_timeline k)
}.

Definition settled (k : DayClock) : Prop := accounted "" 0 k.

Lemma settled_any t k : accounted t 0 k ↔ settled k.
Proof.
  split; intros [H1 H2 H3 H4 H5]; split; try done; intros u Hu; rewrite (H3 u Hu);
    repeat case_decide; lia.
Qed.

Lemma append_raw_accounted t name d src ts k :
  0 <= d → settled k → accounted t d (append_raw_item day_idx t name d src ts k).
Proof.
  intros Hd Hk. unfold append_raw_item. destruct (Z.leb_spec d 0).
  - replace d with 0 by lia. by apply settled_any.
  - set (i := mkTimelineItem t name (format_clock (dk_current k))
                (format_clock (dk_current k + d)) d day_idx src ts).
    assert (E : k <| dk_current := dk_current k + d |> <| dk_timeline := (dk_timeline k ++ [i])%list |>
                = mkDayClock (dk_current k + d) (dk_timeline k ++ [i])%list (dk_lunch_added k)
                    (dk_attraction k) (dk_transportation k) (dk_meal k) (dk_break k) (dk_fallback k))
      by (by destruct k).
    change (accounted t d (k <| dk_current := dk_current k + d |>
                             <| dk_timeline := (dk_timeline k ++ [i])%list |>)).
    rewrite E. destruct Hk as [H1 H2 H3 H4 H5]. split; cbn [dk_timeline dk_current dk_fallback].
    + by apply (contiguous_snoc _ _ _ i).
    + rewrite H2. unfold counted. cbn. lia.
    + intros u Hu. rewrite minutes_of_snoc, (H3 u Hu). change (ti_item_type i) with t.
      change (ti_duration_minutes i) with d.
      match goal with |- _ = counter u ?K + _ => change (counter u K) with (counter u k) end.
      repeat case_decide; subst; try done; lia.
    + done.
    + apply Forall_app. by split; [|repeat constructor].
Qed.

(** The four updates of the counters. *)
Ltac settle :=
  let H1 := fresh in let H2 := fresh in let H3 := fresh in let H4 := fresh in
  let H5 := fresh in let t := fresh in let Ht := fresh in
  intros [H1 H2 H3 H4 H5]; split; [exact H1| |intros t Ht|exact H4|exact H5];
  [revert H2; unfold counted; cbn; lia|];
  etransitivity; [exact (H3 t Ht)|]; unfold item_types in Ht;
  rewrite !elem_of_cons in Ht; destruct Ht as [->|[->|[->|[->|[]%elem_of_nil]]]];
  repeat case_decide; try done; cbn; lia.

Lemma settle_attraction d k :
  accounted "attraction" d k → settled (k <| dk_attraction := dk_attraction k + d |>).
Proof. settle. Qed.
Lemma settle_transportation d k :
  accounted "transportation" d k → settled (k <| dk_transportation := dk_transportation k + d |>).
Proof. settle. Qed.
Lemma settle_break d k :
  accounted "break" d k → settled (k <| dk_break := dk_break k + d |>).
Proof. settle. Qed.
Lemma settle_meal d k :
  accounted "meal" d k → settled (k <| dk_meal := dk_meal k + d |> <| dk_lunch_added := true |>).
Proof. settle. Qed.

Lemma append_lunch_settled k :
  0 <= tl_lunch_duration_minutes c → settled k → settled (append_lunch c day_idx lunch k).
Proof.
  intros Hl Hk. unfold append_lunch. destruct (_ || _); [done|].
  destruct (Z.ltb_spec (dk_current k) (tl_lunch_window_start_minute c)).
  - apply settle_meal, append_raw_accounted; [done|]. apply settle_break, append_raw_accounted; [lia|done].
  - by apply settle_meal, append_raw_accounted.
Qed.

Lemma append_item_accounted t name d src ts k :
  settings_wf c → 0 <= d → settled k →
  accounted t d (append_item c day_idx lunch t name d src ts k).
Proof.
  intros Hc Hd Hk. unfold append_item. destruct (Z.leb_spec d 0).
  - replace d with 0 by lia. by apply settled_any.
  - apply append_raw_accounted; [lia|]. destruct (lunch_due _ _ _ _); [|done].
    apply append_lunch_settled; [apply Hc|done].
Qed.

Lemma append_transport_settled name buffer minutes ts src k :
  settings_wf c → 0 <= minutes → settled k →
  settled (append_transport c day_idx lunch name buffer minutes ts src k).
Proof.
  intros Hc Hm Hk. unfold append_transport.
  assert (Hf : settled (if String.eqb ts "haversine_fallback"
                        then k <| dk_fallback := dk_fallback k + 1 |> else k)).
  { destruct (String.eqb _ _); [|done]. destruct Hk. split; try done. cbn. lia. }
  pose proof (append_item_accounted "transportation" name minutes (Some src) (Some ts) _ Hc Hm Hf) as Ht.
  apply settle_transportation in Ht.
  destruct (Z.eqb_spec (tl_route_buffer_minutes c) 0); [done|].
  apply settle_break, append_item_accounted; [done|apply Hc|done].
Qed.
End Accounting.

Section DayAccounting.
Context `{MathEnv}.
Context (c : TimelineSettings) (day_idx : Z) (lunch : string) (mode : RouteMode)
  (routes : list RouteEstimate).

Lemma transport_minutes_positive o d route r :
  transport_minutes c o d mode route = Ok r → 1 <= r.1.
Proof.
  unfold transport_minutes. destruct (match route with Some _ => _ | None => _ end) as [s|].
  - intros [= <-]. simpl. lia.
  - destruct (haversine_km o d) as [q|e]; [|done]. cbn [mbind result_bind]. intros [= <-]. simpl. lia.
Qed.

(** Whatever holds of the clock and is kept by each kind of step holds at the
    end of the day. *)
Section Steps.
Context (P : DayClock → Prop).
Context (P_attraction : ∀ a i k, P k →
  let d := Z.max 0 (at_visit_duration a) in
  let k' := append_item c day_idx lunch "attraction" (at_name a) d (Some i) None k in
  P (k' <| dk_attraction := dk_attraction k' + d |>)).
Context (P_pause : ∀ i k, P k →
  let k' := append_item c day_idx lunch "break" "景点间休息缓冲"
              (tl_attraction_buffer_minutes c) (Some i) None k in
  P (k' <| dk_break := dk_break k' + tl_attraction_buffer_minutes c |>)).
Context (P_transport : ∀ name minutes ts i k, 1 <= minutes → P k →
  P (append_transport c day_idx lunch name route_buffer_name minutes ts i k)).
Context (P_lunch : ∀ k, P k →
  negb (dk_lunch_added k) && (0 <? tl_lunch_duration_minutes c) = true →
  P (append_lunch c day_idx lunch k)).

Lemma travel_keeps o d leg j i k k' :
  P k → travel c day_idx lunch mode routes o d leg j i k = Ok k' → P k'.
Proof.
  unfold travel. intros Hk. destruct (transport_minutes _ _ _ _ _) as [r|e] eqn:Ht; [|done].
  apply transport_minutes_positive in Ht. cbn [mbind result_bind]. intros [= <-].
  by apply P_transport.
Qed.

Lemma visit_attractions_keeps i l k k' :
  P k → visit_attractions c day_idx lunch mode routes i l k = Ok k' → P k'.
Proof.
  revert i k. induction l as [|a l IH]; intros i k Hk; [by intros [= <-]|].
  cbn [visit_attractions]. destruct l as [|b l]; [intros [= <-]; by apply P_attraction|].
  match goal with |- context [travel _ _ _ _ _ _ _ _ _ _ ?k1] => assert (Hk1 : P k1) end.
  { destruct (Z.eqb_spec (tl_attraction_buffer_minutes c) 0);
      [by apply P_attraction|by apply P_pause, P_attraction]. }
  destruct (travel _ _ _ _ _ _ _ _ _ _ _) as [k2|e] eqn:Ht; [|done].
  cbn [mbind result_bind]. intros Hv. eapply IH; [|exact Hv]. by eapply travel_keeps.
Qed.

Lemma day_timeline_keeps sh rh l k :
  P (new_day_clock (tl_start_minute c)) →
  day_timeline c day_idx lunch mode routes sh rh l = Ok k → P k.
Proof.
  intros H0. unfold day_timeline.
  destruct (match l with [] => _ | _ => _ end) as [k1|e] eqn:H1; [|done].
  assert (Hk1 : P k1).
  { destruct l as [|a l]; [by injection H1 as <-|]. destruct sh as [s|]; [|by injection H1 as <-].
    by eapply travel_keeps. }
  cbn [mbind result_bind]. destruct (visit_attractions _ _ _ _ _ _ _ _) as [k2|e] eqn:H2; [|done].
  pose proof (visit_attractions_keeps _ _ _ _ Hk1 H2) as Hk2. cbn [mbind result_bind].
  match goal with |- context [travel _ _ _ _ _ _ _ _ _ _ ?k3] => assert (Hk3 : P k3) end.
  { destruct (_ && _) eqn:E; [|done]. apply P_lunch; [done|].
    rewrite !andb_true_iff in E. rewrite andb_true_iff. tauto. }
  destruct (last l) as [a|]; [destruct rh as [r|]|]; [|by intros [= <-]|by intros [= <-]].
  intros Ht. by eapply travel_keeps.
Qed.
End Steps.

Lemma day_timeline_settled sh rh l k :
  settings_wf c → day_timeline c day_idx lunch mode routes sh rh l = Ok k → settled c day_idx k.
Proof.
  intros Hc. apply day_timeline_keeps.
  - intros a i k0 Hk d k'. apply settle_attraction, append_item_accounted; [done|lia|done].
  - intros i k0 Hk k'. apply settle_break, append_item_accounted; [done|apply Hc|done].
  - intros name minutes ts i k0 Hm Hk. apply append_transport_settled; [done|lia|done].
  - intros k0 Hk _. apply append_lunch_settled; [apply Hc|done].
  - split; try done; try (by constructor). cbn. unfold counted. cbn. lia.
    intros t _. cbn. unfold counter. by repeat case_match.
Qed.
End DayAccounting.

(** ** Lunch *)

Section Lunch.
Context (c : TimelineSettings) (day_idx : Z) (lunch : string).

Definition not_meal (i : TimelineItem) : Prop := ti_item_type i ≠ "meal".

(** A complete lunch inside the window. *)
Definition served (i : TimelineItem) : Prop :=
  ti_item_type i = "meal" ∧ ti_duration_minutes i = tl_lunch_duration_minutes c
  ∧ ∃ s, ti_start_time i = format_clock s
         ∧ ti_end_time i = format_clock (s + tl_lunch_duration_minutes c)
         ∧ tl_lunch_window_start_minute c <= s
         ∧ s + tl_lunch_duration_minutes c <= tl_lunch_window_end_minute c.

(** Until lunch is served there is still time for it. *)
Definition lunch_inv (k : DayClock) : Prop :=
  (dk_lunch_added k = false ∧ Forall not_meal (dk_timeline k)
   ∧ (0 < tl_lunch_duration_minutes c → dk_current k <= tl_latest_lunch_start_minute c))
  ∨ (dk_lunch_added k = true ∧ 0 < tl_lunch_duration_minutes c
     ∧ ∃ pre i post, dk_timeline k = (pre ++ i :: post)%list
         ∧ Forall not_meal pre ∧ Forall not_meal post ∧ served i).

Lemma lunch_inv_frame k k' :
  dk_timeline k = dk_timeline k' → dk_current k = dk_current k' →
  dk_lunch_added k = dk_lunch_added k' → lunch_inv k → lunch_inv k'.
Proof. unfold lunch_inv. by intros -> -> ->. Qed.

Lemma append_raw_lunch t name d src ts k :
  t ≠ "meal" →
  (dk_lunch_added k = false → 0 < tl_lunch_duration_minutes c →
   dk_current k + d <= tl_latest_lunch_start_minute c) →
  lunch_inv k → lunch_inv (append_raw_item day_idx t name d src ts k).
Proof.
  intros Ht Htime Hk. unfold append_raw_item. destruct (Z.leb_spec d 0); [done|].
  set (i := mkTimelineItem _ _ _ _ _ _ _ _).
  assert (Hi : not_meal i) by done.
  destruct Hk as [(Ha & Hf & _)|(Ha & Hl & pre & m & post & Htl & Hpre & Hpost & Hm)].
  - left. split; [exact Ha|]. split; [|exact (Htime Ha)].
    change (Forall not_meal (dk_timeline k ++ [i])%list).
    apply Forall_app. split; [done|]. by constructor.
  - right. split; [exact Ha|]. split; [done|]. exists pre, m, (post ++ [i])%list.
    split; [change ((dk_timeline k ++ [i])%list = (pre ++ m :: post ++ [i])%list);
            by rewrite Htl, <- (assoc_L (++)%list)|].
    split; [done|]. split; [|done]. apply Forall_app. split; [done|]. by constructor.
Qed.

(** The waiting time before the window only brings the clock to its start. *)
Lemma append_lunch_inv k :
  settings_wf c → lunch_inv k → lunch_inv (append_lunch c day_idx lunch k).
Proof.
  intros Hc Hk. unfold append_lunch. destruct (_ || _) eqn:E; [done|].
  apply orb_false_iff in E as [Ha Hl]. apply Z.leb_gt in Hl.
  destruct Hk as [(_ & Hf & Htime)|(Ha' & _)]; [|congruence]. specialize (Htime Hl).
  set (k1 := if _ <? _ then _ else _).
  assert (Hk1 : Forall not_meal (dk_timeline k1)
                ∧ tl_lunch_window_start_minute c <= dk_current k1 <= tl_latest_lunch_start_minute c).
  { unfold k1. pose proof (swf_lunch c Hc). unfold tl_latest_lunch_start_minute in *.
    destruct (Z.ltb_spec (dk_current k) (tl_lunch_window_start_minute c)); [|split; [done|lia]].
    unfold append_raw_item.
    destruct (Z.leb_spec (tl_lunch_window_start_minute c - dk_current k) 0); [lia|].
    split; [|cbn; lia]. cbn. apply Forall_app. split; [done|]. by constructor. }
  destruct Hk1 as [Hf1 Ht1]. clearbody k1.
  right. split; [done|]. split; [done|]. unfold append_raw_item.
  destruct (Z.leb_spec (tl_lunch_duration_minutes c) 0); [lia|].
  set (i := mkTimelineItem _ _ _ _ _ _ _ _). exists (dk_timeline k1), i, [].
  split; [done|]. split; [done|]. split; [constructor|].
  split; [done|]. split; [done|]. exists (dk_current k1).
  unfold tl_latest_lunch_start_minute in Ht1. split_and!; try done; lia.
Qed.

Lemma append_item_lunch t name d src ts k :
  settings_wf c → t ≠ "meal" → lunch_inv k →
  lunch_inv (append_item c day_idx lunch t name d src ts k).
Proof.
  intros Hc Ht Hk. unfold append_item. destruct (Z.leb_spec d 0); [done|].
  destruct (lunch_due c t d k) eqn:Hdue.
  - pose proof (append_lunch_inv k Hc Hk) as Hk'.
    apply append_raw_lunch; [done| |done]. intros Ha Hl. exfalso. revert Ha.
    unfold lunch_due in Hdue. rewrite !andb_true_iff, negb_true_iff in Hdue.
    destruct Hdue as [[[Ha _] _] _]. unfold append_lunch. rewrite Ha.
    destruct (Z.leb_spec (tl_lunch_duration_minutes c) 0); [lia|]. done.
  - apply append_raw_lunch; [done| |done]. intros Ha Hl.
    unfold lunch_due in Hdue. rewrite Ha in Hdue. cbn [negb andb] in Hdue.
    destruct (Z.ltb_spec 0 (tl_lunch_duration_minutes c)); [|lia].
    destruct (String.eqb_spec t "meal"); [done|]. cbn [negb andb] in Hdue.
    apply orb_false_iff in Hdue as [_ Hd]. apply Z.ltb_ge in Hd. done.
Qed.

Lemma append_transport_lunch name buffer minutes ts src k :
  settings_wf c → lunch_inv k →
  lunch_inv (append_transport c day_idx lunch name buffer minutes ts src k).
Proof.
  intros Hc Hk. unfold append_transport.
  assert (Hf : lunch_inv (if String.eqb ts "haversine_fallback"
                          then k <| dk_fallback := dk_fallback k + 1 |> else k)).
  { destruct (String.eqb _ _); [|done]. by apply (lunch_inv_frame k). }
  set (k1 := append_item _ _ _ _ _ _ _ _ _).
  assert (Hk1 : lunch_inv k1) by (by apply append_item_lunch).
  destruct (Z.eqb_spec (tl_route_buffer_minutes c) 0); [by apply (lunch_inv_frame k1)|].
  set (k2 := append_item _ _ _ "break" _ _ _ _ _).
  apply (lunch_inv_frame k2); try done. by apply append_item_lunch.
Qed.

Lemma day_timeline_lunch `{MathEnv} mode routes sh rh l k :
  settings_wf c → tl_start_minute c <= tl_latest_lunch_start_minute c →
  day_timeline c day_idx lunch mode routes sh rh l = Ok k → lunch_inv k.
Proof.
  intros Hc Hs. apply day_timeline_keeps.
  - intros a i k0 Hk d k'. apply (lunch_inv_frame k'); try done. by apply append_item_lunch.
  - intros i k0 Hk k'. apply (lunch_inv_frame k'); try done. by apply append_item_lunch.
  - intros name minutes ts i k0 _ Hk. by apply append_transport_lunch.
  - intros k0 Hk _. by apply append_lunch_inv.
  - left. by split_and!.
Qed.
End Lunch.

(** ** The reports *)

Definition timeline_item_ok (i : TimelineItem) : bool :=
  (0 <=? ti_duration_minutes i) && (0 <=? ti_day_index i) && opt_nonneg (ti_source_index i).

Definition day_schedule_ok (d : DayScheduleQuality) : bool :=
  forallb (fun z => 0 <=? z)
    [ds_day_index d; ds_available_minutes d; ds_attraction_minutes d; ds_transportation_minutes d;
     ds_meal_minutes d; ds_break_minutes d; ds_total_required_minutes d; ds_free_minutes d;
     ds_overtime_minutes d; ds_fallback_route_legs d]
  && Qle_bool 0 (ds_optimization_cost d) && score_ok (ds_quality_score d).

Lemma minutes_of_nonneg t s l e : contiguous s l e → 0 <= minutes_of t l.
Proof.
  unfold minutes_of. induction 1 as [s|s i l e _ _ Hd _ IH]; [done|].
  destruct (decide (ti_item_type i = t));
    [rewrite filter_cons_True by done|rewrite filter_cons_False by done]; [|done].
  cbn [map]. rewrite zsum_cons. lia.
Qed.

Lemma settled_nonneg c day_idx k :
  settled c day_idx k →
  0 <= dk_attraction k ∧ 0 <= dk_transportation k ∧ 0 <= dk_meal k ∧ 0 <= dk_break k.
Proof.
  intros [Hc _ Hm _ _].
  assert (Hn : ∀ t, t ∈ item_types → 0 <= counter t k).
  { intros t Ht. pose proof (minutes_of_nonneg t _ _ _ Hc) as Hn. rewrite (Hm t Ht) in Hn.
    case_decide; lia. }
  unfold item_types in Hn.
  split_and!; [apply (Hn "attraction")|apply (Hn "transportation")|apply (Hn "meal")|apply (Hn "break")];
    rewrite !elem_of_cons; tauto.
Qed.

Lemma day_schedule_valid c day_idx d k :
  settings_wf c → 0 <= day_idx → settled c day_idx k →
  day_schedule_ok (day_schedule c day_idx d k) = true.
Proof.
  intros Hc Hi Hk. destruct (settled_nonneg _ _ _ Hk) as (H1 & H2 & H3 & H4).
  pose proof (ac_fallback _ _ _ _ _ Hk) as H5. pose proof (swf_day c Hc).
  unfold day_schedule, day_schedule_ok. cbn -[Z.leb Qle_bool Z.max round_n clamp].
  assert (Hs : ∀ q, score_ok (round_n 2 (clamp 0 100 q)) = true).
  { intros q. destruct (clamp_range 0 100 q) as [Hl Hu]; [lra|].
    destruct (round_n_range 2 _ 0 100 Hl Hu) as [Hl' Hu'].
    unfold score_ok. apply andb_true_iff. split; apply Qle_bool_iff; assumption. }
  rewrite Hs, andb_true_r. apply andb_true_iff. split.
  - rewrite !andb_true_iff, !Z.leb_le. split_and!; try done; lia.
  - apply Qle_bool_iff, round_n_nonneg. change 0%Q with (inject_Z 0).
    change 100%Q with (inject_Z 100). change 1000%Q with (inject_Z 1000).
    rewrite <- !inject_Z_mult, <- !inject_Z_plus, <- Zle_Qle. lia.
Qed.

Definition schedule_report_ok (r : ScheduleQualityReport) : bool :=
  forallb (fun z => 0 <=? z)
    [sq_feasible_days r; sq_infeasible_days r; sq_total_overtime_minutes r;
     sq_fallback_route_legs r; sq_total_transportation_minutes r]
  && Qle_bool 0 (sq_optimization_cost r) && score_ok (sq_quality_score r)
  && forallb day_schedule_ok (sq_days r).

Lemma schedule_report_valid fp days :
  forallb day_schedule_ok days = true → schedule_report_ok (schedule_report_of fp days) = true.
Proof.
  intros Hd. unfold schedule_report_ok, schedule_report_of. cbn -[Z.leb Qle_bool round_n Z.sub Z.of_nat].
  assert (Hf : Forall (fun d => day_schedule_ok d = true) days).
  { apply Forall_forall. intros d Hin. rewrite forallb_forall in Hd. by apply Hd, list_elem_of_In. }
  rewrite Hd, andb_true_r.
  assert (Hlen : (length (filter (fun d => ds_feasible d = true) days) <= length days)%nat)
    by apply length_filter.
  rewrite !andb_true_iff, !Z.leb_le. split_and!; try lia.
  1,2,3: apply zsum_map_nonneg; eapply Forall_impl; [exact Hf|]; simpl; intros d Hday;
    unfold day_schedule_ok in Hday; cbn -[Z.leb] in Hday;
    rewrite !andb_true_iff, !Z.leb_le in Hday; apply Hday.
  - apply Qle_bool_iff, round_n_nonneg, qsum_nonneg, Forall_map.
    eapply Forall_impl; [exact Hf|]. simpl. intros d Hday. unfold day_schedule_ok in Hday.
    rewrite !andb_true_iff in Hday. apply Qle_bool_iff. apply Hday.
  - destruct days as [|d0 days0]; [done|]. set (l := d0 :: days0) in *.
    destruct (mean_between (map ds_quality_score l) 0 100) as [Hl Hu]; [done| |].
    + apply Forall_map. eapply Forall_impl; [exact Hf|]. simpl. intros d Hday.
      unfold day_schedule_ok, score_ok in Hday. rewrite !andb_true_iff, !Qle_bool_iff in Hday.
      destruct Hday as [_ [Hlo Hhi]]. split; assumption.
    + rewrite length_map in Hl, Hu. destruct (round_n_range 2 _ 0 100 Hl Hu) as [Hl' Hu'].
      unfold score_ok. apply andb_true_iff. split; apply Qle_bool_iff; assumption.
Qed.

(** A day of the report came from a settled clock. *)
Lemma schedule_days `{MathEnv} `{HashEnv} c req p routes r :
  evaluate_schedule_quality c req p routes = Ok r →
  r = schedule_report_of (route_fingerprint req p) (sq_days r)
  ∧ length (sq_days r) = length (plan_days p)
  ∧ ∀ d, d ∈ sq_days r → ∃ day_idx day lunch mode table sh rh k,
      0 <= day_idx ∧ d = day_schedule c day_idx day k
      ∧ day_timeline c day_idx lunch mode table sh rh (day_attractions day) = Ok k.
Proof.
  unfold evaluate_schedule_quality. set (table := match routes with Some _ => _ | None => _ end).
  destruct (mapM id _) as [days|e] eqn:Hm; [|done]. cbn [mbind result_bind]. intros [= <-].
  apply mapM_Ok in Hm. split; [done|]. split.
  { apply Forall2_length in Hm. by rewrite length_imap in Hm. }
  intros d Hd. apply list_elem_of_lookup_1 in Hd as [i Hi].
  destruct (Forall2_lookup_r _ _ _ _ _ Hm Hi) as (m & Hmi & Hok).
  rewrite list_lookup_imap in Hmi. destruct (plan_days p !! i) as [day|]; [|done].
  injection Hmi as <-. unfold id, evaluate_schedule_day in Hok.
  destruct (resolve_day_hotels _ _) as [sh rh].
  destruct (day_timeline _ _ _ _ _ _ _ _) as [k|e] eqn:Hk; [|done].
  injection Hok as <-. eexists _, day, _, _, _, _, _, k.
  split; [apply effective_day_index_nonneg|]. split; [done|exact Hk].
Qed.

(** C23: a schedule report accounts for every minute of its days: the timeline of
    a day runs from the configured start without a gap to the end of the
    required time, each counter is the duration of the items of its kind, and
    a day is feasible exactly when the required time fits into the available
    one.  All fields satisfy their constraints, and an optimisation is
    recommended exactly when some day is infeasible. *)
Theorem timeline_accounts `{MathEnv} `{HashEnv} s e l ws we rb ab f c req p routes r :
  new_timeline_evaluator s e l ws we rb ab f = Ok c →
  evaluate_schedule_quality c req p routes = Ok r →
  schedule_report_ok r = true
  ∧ length (sq_days r) = length (plan_days p)
  ∧ sq_feasible_days r + sq_infeasible_days r = Z.of_nat (length (plan_days p))
  ∧ (sq_optimization_recommended r = true ↔ ∃ d, d ∈ sq_days r ∧ ds_feasible d = false)
  ∧ ∀ d, d ∈ sq_days r →
      contiguous (tl_start_minute c) (ds_timeline d) (tl_start_minute c + ds_total_required_minutes d)
      ∧ minutes_of "attraction" (ds_timeline d) = ds_attraction_minutes d
      ∧ minutes_of "transportation" (ds_timeline d) = ds_transportation_minutes d
      ∧ minutes_of "meal" (ds_timeline d) = ds_meal_minutes d
      ∧ minutes_of "break" (ds_timeline d) = ds_break_minutes d
      ∧ ds_available_minutes d = tl_end_minute c - tl_start_minute c
      ∧ ds_overtime_minutes d - ds_free_minutes d
        = ds_total_required_minutes d - ds_available_minutes d
      ∧ (ds_feasible d = true ↔ ds_total_required_minutes d <= ds_available_minutes d).
Proof.
  intros Hc%new_timeline_evaluator_wf Hr. apply schedule_days in Hr as (Hr & Hlen & Hd).
  assert (Hset : ∀ d, d ∈ sq_days r → ∃ i day k, 0 <= i ∧ d = day_schedule c i day k ∧ settled c i k).
  { intros d Hin. destruct (Hd d Hin) as (i & day & lu & m & t & sh & rh & k & Hi & -> & Hk).
    exists i, day, k. split_and!; try done. by eapply day_timeline_settled. }
  clear Hd. set (days := sq_days r) in *. clearbody days. subst r.
  change (sq_days (schedule_report_of (route_fingerprint req p) days)) with days. split.
  { apply schedule_report_valid, forallb_forall. intros d Hin%list_elem_of_In.
    destruct (Hset d Hin) as (i & day & k & Hi & -> & Hk). by eapply day_schedule_valid. }
  split; [done|]. split; [cbn -[Z.of_nat]; lia|]. split.
  { cbn [schedule_report_of sq_optimization_recommended]. rewrite Z.ltb_lt.
    clear -Hset. induction days as [|d days IH]; [split; [done|intros (? & []%elem_of_nil & _)]|].
    cbn [map]. rewrite zsum_cons. destruct (Hset d ltac:(left)) as (i & day & k & _ & Hdk & _).
    assert (Hd : 0 <= ds_overtime_minutes d ∧ (ds_feasible d = false ↔ ds_overtime_minutes d ≠ 0)).
    { rewrite Hdk. cbn -[Z.max]. rewrite Z.eqb_neq. split; [lia|done]. }
    assert (Hn : 0 <= zsum (map ds_overtime_minutes days)).
    { apply zsum_map_nonneg, Forall_forall. intros d' Hd'.
      destruct (Hset d' ltac:(by right)) as (i' & day' & k' & _ & -> & _). cbn -[Z.max]. lia. }
    destruct IH as [IH1 IH2]; [intros d' Hd'; apply Hset; by right|]. split.
    - intros Hpos. destruct (Z.eq_dec (ds_overtime_minutes d) 0) as [Hz|Hz].
      + destruct IH1 as (d' & Hin & Hf); [lia|]. exists d'. split; [by right|done].
      + exists d. split; [left|]. by apply Hd.
    - intros (d' & [->|Hin]%elem_of_cons & Hf); [apply Hd in Hf; lia|].
      enough (0 < zsum (map ds_overtime_minutes days)) by lia. apply IH2. eauto. }
  intros d Hin. destruct (Hset d Hin) as (i & day & k & Hi & -> & Hk).
  assert (Hm : ∀ t, t ∈ item_types → minutes_of t (dk_timeline k) = counter t k).
  { intros t Ht. rewrite (ac_minutes _ _ _ _ _ Hk t Ht). case_decide; lia. }
  pose proof (ac_contiguous _ _ _ _ _ Hk) as Hcont. pose proof (ac_current _ _ _ _ _ Hk) as Hcur.
  unfold item_types in Hm. cbn -[Z.max minutes_of Z.sub].
  split_and!; try (apply Hm; rewrite !elem_of_cons; tauto); try done; try lia.
  rewrite Hcur in Hcont. unfold counted in Hcont.
  replace (tl_start_minute c + _) with (tl_start_minute c +
      (dk_attraction k + dk_transportation k + dk_meal k + dk_break k) + 0) by lia. done.
Qed.

(** Both days of the demo trip are longer than the nine hours they have. *)
Definition demo_schedule : ScheduleQualityReport :=
  match @evaluate_schedule_quality demo_math
          constant_hash
          default_timeline trip_request trip_plan (Some trip_routes) with
  | Ok r => r
  | Err _ => mkScheduleQuality "" 0 0 0 0 0 0 0 false []
  end.

(** when the day starts early enough for lunch, every day of a report serves
    at most one lunch, and that lunch is complete and lies inside the window;
    a day without lunch ends before the last minute lunch could have started. *)
Theorem lunch_inside_window `{MathEnv} `{HashEnv} s e l ws we rb ab f c req p routes r d :
  new_timeline_evaluator s e l ws we rb ab f = Ok c →
  tl_start_minute c <= tl_latest_lunch_start_minute c →
  evaluate_schedule_quality c req p routes = Ok r → d ∈ sq_days r →
  (Forall not_meal (ds_timeline d)
   ∧ (0 < tl_lunch_duration_minutes c →
      tl_start_minute c + ds_total_required_minutes d <= tl_latest_lunch_start_minute c))
  ∨ (∃ pre i post, ds_timeline d = (pre ++ i :: post)%list
       ∧ Forall not_meal pre ∧ Forall not_meal post ∧ served c i).
Proof.
  intros Hc%new_timeline_evaluator_wf Hs Hr Hin. apply schedule_days in Hr as (_ & _ & Hd).
  destruct (Hd d Hin) as (i & day & lu & m & t & sh & rh & k & Hi & -> & Hk).
  pose proof (day_timeline_settled _ _ _ _ _ _ _ _ _ Hc Hk) as Hset.
  pose proof (ac_current _ _ _ _ _ Hset) as Hcur. unfold counted in Hcur.
  destruct (day_timeline_lunch _ _ _ _ _ _ _ _ _ Hc Hs Hk) as [(_ & Hf & Ht)|(_ & _ & Hm)].
  - left. split; [done|]. intros Hl. specialize (Ht Hl). cbn [day_schedule ds_total_required_minutes]. lia.
  - right. exact Hm.
Qed.

(** ** A run *)

Lemma timeline_accounts_witness :
  map ds_overtime_minutes (sq_days demo_schedule) = [208; 520]
  ∧ sq_optimization_recommended demo_schedule = true
  ∧ schedule_report_ok demo_schedule = true.
Proof.
  split; [vm_compute; reflexivity|]. split; [vm_compute; reflexivity|].
  refine (proj1 (@timeline_accounts demo_math
    constant_hash
    "09:00" "18:00" 60 "11:30" "14:00" 10 10 (13 # 10) default_timeline trip_request trip_plan
    (Some trip_routes) demo_schedule _ _)); vm_compute; reflexivity.
Defined.

Definition first_demo_day : DayScheduleQuality :=
  match sq_days demo_schedule with d :: _ => d | [] => mkDaySchedule 0 "" 0 0 0 0 0 0 0 0 0 0 0 true [] end.

Lemma lunch_inside_window_witness :
  (Forall not_meal (ds_timeline first_demo_day)
   ∧ (0 < 60 → 540 + ds_total_required_minutes first_demo_day <= 780))
  ∨ (∃ pre i post, ds_timeline first_demo_day = (pre ++ i :: post)%list
       ∧ Forall not_meal pre ∧ Forall not_meal post ∧ served default_timeline i).
Proof.
  refine (@lunch_inside_window demo_math
    constant_hash
    "09:00" "18:00" 60 "11:30" "14:00" 10 10 (13 # 10) default_timeline trip_request trip_plan
    (Some trip_routes) demo_schedule first_demo_day _ _ _ _).
  - vm_compute; reflexivity.
  - vm_compute; discriminate.
  - vm_compute; reflexivity.
  - apply list_elem_of_In. vm_compute. left. reflexivity.
Defined.
