(* ===== verification/ScheduleOptimizer.v ===== *)
(** The schedule optimiser (src/app/scheduling/optimizer.py): the last
    attraction of the most overloaded day is moved to another day, and if no
    move pays, attractions are taken out of overloaded days one by one.

    [schedule_candidate_sound] states what a candidate changes and that its
    approximate cost is lower; [reduction_terminates] that the [while] loop ends
    within [max_candidates] turns. *)

From S2P Require Import Prelude FloatMath PyData ClockText TripSchema AmapModels PlanReports PlanEdits OrderedDict PlanRoutes PlanContent.
From S2P Require Import RouteScoring ToolModels AgentState Convergence Timeline TimelineTheorems.
From Stdlib Require Import ZArith QArith Qround Lia Lqa String.
From stdpp Require Import base tactics option list strings sorting.

Open Scope string_scope.
Open Scope Z_scope.

Record ScheduleOptimizerSettings := mkScheduleOptimizer {
  so_max_candidates : Z; so_min_move_improvement_percent : Q
}.

(** [DeterministicScheduleOptimizer.__init__] *)
Definition new_schedule_optimizer (max_candidates : Z) (min_move : Q)
    : result exn ScheduleOptimizerSettings :=
  if max_candidates <? 1 then Err (ValueError "max_candidates must be at least 1")
  else if Qlt_bool min_move 0
  then Err (ValueError "min_move_improvement_percent cannot be negative")
  else Ok (mkScheduleOptimizer max_candidates min_move).

(** [sorted(..., key=lambda day: (-day.overtime_minutes, day.day_index))] *)
Definition more_overloaded (x y : DayScheduleQuality) : Prop :=
  ds_overtime_minutes y < ds_overtime_minutes x
  ∨ (ds_overtime_minutes x = ds_overtime_minutes y ∧ ds_day_index x <= ds_day_index y).
#[export] Instance more_overloaded_dec x y : Decision (more_overloaded x y).
Proof. unfold more_overloaded. apply _. Defined.

Definition overloaded_days (r : ScheduleQualityReport) : list DayScheduleQuality :=
  merge_sort more_overloaded (filter (fun d => 0 < ds_overtime_minutes d) (sq_days r)).

(** [_improvement_percent] *)
Definition cost_improvement_percent (baseline candidate : Q) : Q :=
  round_n 2 (if Qlt_bool 0 baseline then (baseline - candidate) / baseline * 100 else 0)%Q.

(** [_day_position] *)
Definition day_position_from (start : nat) (days : list DayPlan) (idx : Z) : option nat :=
  option_map fst
    (list_find (fun pd : nat * DayPlan => effective_day_index pd.1 pd.2 = idx)
       (zip (seq start (length days)) days) ≫= fun found => Some found.2).
Definition day_position (p : TripPlan) (idx : Z) : option nat := day_position_from 0 (plan_days p) idx.

Definition stable_day_index (p : TripPlan) (position : nat) : Z :=
  match plan_days p !! position with
  | Some d => effective_day_index position d
  | None => Z.of_nat position
  end.

(** The [ScheduleOptimizationCandidate] with its fields in order. *)
Definition schedule_optimization_candidate (plan : TripPlan) (source_day_index : Z)
    (target_day_index : option Z) (moved_attraction_name : string)
    (target_insertion_index : option Z) (removed_attraction_names : list string)
    (strategy : string) (baseline_cost candidate_cost : Q) (considered_candidates : Z)
    : PlanCandidate :=
  mkCandidate plan [] []
    [("source_day_index", JInt source_day_index);
     ("target_day_index", json_opt JInt target_day_index);
     ("moved_attraction_name", JStr moved_attraction_name);
     ("target_insertion_index", json_opt JInt target_insertion_index);
     ("removed_attraction_names", JArr (map JStr removed_attraction_names));
     ("strategy", JStr strategy); ("baseline_cost", JFloat (round_n 2 baseline_cost));
     ("candidate_cost", JFloat (round_n 2 candidate_cost));
     ("approximate_improvement_percent", JFloat (cost_improvement_percent baseline_cost candidate_cost));
     ("considered_candidates", JInt considered_candidates)].

(** A move the search remembers. *)
Record MoveBest := mkMoveBest {
  mb_cost : Q; mb_target : nat; mb_insertion : nat; mb_plan : TripPlan
}.

Definition cheaper_move (x y : MoveBest) : bool :=
  Qlt_bool (mb_cost x) (mb_cost y)
  || (Qeq_bool (mb_cost x) (mb_cost y)
      && ((mb_target x <? mb_target y)%nat
          || ((mb_target x =? mb_target y)%nat && (mb_insertion x <? mb_insertion y)%nat))).

(** A removal the search remembers. *)
Record RemovalBest := mkRemovalBest {
  vb_cost : Q; vb_index : nat; vb_plan : TripPlan; vb_report : ScheduleQualityReport; vb_name : string
}.

Definition cheaper_removal (x y : RemovalBest) : bool :=
  Qlt_bool (vb_cost x) (vb_cost y)
  || (Qeq_bool (vb_cost x) (vb_cost y) && (vb_index x <? vb_index y)%nat).

(** What the [while] loop of the reduction carries along. *)
Record Reduction := mkReduction {
  rx_plan : TripPlan; rx_report : ScheduleQualityReport; rx_removed : list string;
  rx_first : option Z; rx_considered : Z
}.

Section Optimizer.
Context `{MathEnv} `{HashEnv}.
Context (c : TimelineSettings) (o : ScheduleOptimizerSettings) (req : TripRequest).

(** The stable approximation: no route is looked up. *)
Definition approximate (p : TripPlan) : result exn ScheduleQualityReport :=
  evaluate_schedule_quality c req p None.

(** The loops over target days and insertion positions; they stop together
    once [max_candidates] plans have been evaluated. *)
Fixpoint try_moves (p : TripPlan) (source : nat) (moved : Attraction) (rest : list Attraction)
    (baseline : Q) (targets : list (nat * nat)) (considered : Z) (best : option MoveBest)
    : result exn (option MoveBest * Z) :=
  match targets with
  | [] => mret (best, considered)
  | (target, insertion) :: targets =>
      if so_max_candidates o <=? considered then mret (best, considered)
      else
        let plan := edit_day target (insert_at insertion moved) (edit_day source (fun _ => rest) p) in
        report ← approximate plan;
        let cost := sq_optimization_cost report in
        let found := mkMoveBest cost target insertion plan in
        try_moves p source moved rest baseline targets (considered + 1)
          (if Qle_bool baseline (cost + (1 # 100)) then best
           else if Qlt_bool (cost_improvement_percent baseline cost)
                     (so_min_move_improvement_percent o) then best
           else match best with
                | Some b => if cheaper_move found b then Some found else best
                | None => Some found
                end)
  end.

Definition move_targets (p : TripPlan) (source : nat) : list (nat * nat) :=
  let positions := (seq (source + 1) (length (plan_days p) - (source + 1)) ++ seq 0 source)%list in
  concat (map (fun target =>
    let count := match plan_days p !! target with
                 | Some d => length (day_attractions d) | None => 0%nat end in
    map (fun insertion => (target, insertion)) (seq 0 (count + 1))) positions).

Definition find_cross_day_move (p : TripPlan) (source_day_index : Z) (baseline : Q)
    : result exn (option PlanCandidate) :=
  match day_position p source_day_index with
  | None => mret None
  | Some source =>
      match plan_days p !! source with
      | None => mret None
      | Some d =>
          match last (day_attractions d) with
          | None => mret None
          | Some moved =>
              if (length (plan_days p) <? 2)%nat then mret None
              else
                let rest := take (length (day_attractions d) - 1) (day_attractions d) in
                found ← try_moves p source moved rest baseline (move_targets p source) 0 None;
                mret (option_map (fun b =>
                  schedule_optimization_candidate (mb_plan b) (stable_day_index p source)
                    (Some (stable_day_index p (mb_target b))) (at_name moved)
                    (Some (Z.of_nat (mb_insertion b))) [] "move_last_attraction_to_lower_cost_day"
                    baseline (mb_cost b) found.2) found.1)
          end
      end
  end.

(** The loop over the attractions of the most overloaded day. *)
Fixpoint try_removals (p : TripPlan) (source : nat) (l : list Attraction)
    (remaining : list (nat * Attraction)) (considered : Z) (best : option RemovalBest)
    : result exn (option RemovalBest * Z) :=
  match remaining with
  | [] => mret (best, considered)
  | (index, a) :: remaining =>
      if so_max_candidates o <=? considered then mret (best, considered)
      else
        let reduced := edit_day source (fun _ => delete index l) p in
        report ← approximate reduced;
        let found := mkRemovalBest (sq_optimization_cost report) index reduced report (at_name a) in
        try_removals p source l remaining (considered + 1)
          (match best with
           | Some b => if cheaper_removal found b then Some found else best
           | None => Some found
           end)
  end.

(** One turn of the [while]: the new state, or [None] when the loop is left by
    [break]; [considered] counts in both cases. *)
Definition reduction_turn (original : TripPlan) (s : Reduction) : result exn (option Reduction * Z) :=
  match overloaded_days (rx_report s) with
  | [] => mret (None, rx_considered s)
  | worst :: _ =>
      match day_position (rx_plan s) (ds_day_index worst) with
      | None => mret (None, rx_considered s)
      | Some source =>
          match plan_days (rx_plan s) !! source with
          | None => mret (None, rx_considered s)
          | Some d =>
              let l := day_attractions d in
              tried ← try_removals (rx_plan s) source l (zip (seq 0 (length l)) l) (rx_considered s) None;
              match tried.1 with
              | None => mret (None, tried.2)
              | Some b =>
                  if Qle_bool (sq_optimization_cost (rx_report s)) (vb_cost b + (1 # 100))
                  then mret (None, tried.2)
                  else mret (Some (mkReduction (vb_plan b) (vb_report b)
                                     (rx_removed s ++ [vb_name b])%list
                                     (match rx_first s with
                                      | Some i => Some i
                                      | None => Some (stable_day_index original source)
                                      end) tried.2), tried.2)
              end
          end
      end
  end.

Fixpoint reduce (fuel : nat) (original : TripPlan) (s : Reduction) : result exn Reduction :=
  match fuel with
  | O => mret s
  | S fuel =>
      if sq_optimization_recommended (rx_report s) && (rx_considered s <? so_max_candidates o)
      then
        turn ← reduction_turn original s;
        match turn with
        | (Some s', _) => reduce fuel original s'
        | (None, considered) =>
            mret (mkReduction (rx_plan s) (rx_report s) (rx_removed s) (rx_first s) considered)
        end
      else mret s
  end.

Definition build_overload_reduction (p : TripPlan) (baseline : Q) : result exn (option PlanCandidate) :=
  report ← approximate p;
  s ← reduce (Z.to_nat (so_max_candidates o)) p (mkReduction p report [] None 0);
  let cost := sq_optimization_cost (rx_report s) in
  match rx_removed s, rx_first s with
  | first :: _, Some source_day =>
      if Qle_bool baseline (cost + (1 # 100)) then mret None
      else mret (Some (schedule_optimization_candidate (rx_plan s) source_day None first None
                         (rx_removed s) "remove_attractions_from_overloaded_days" baseline cost
                         (rx_considered s)))
  | _, _ => mret None
  end.

(** [DeterministicScheduleOptimizer.optimize] *)
Definition optimize_day_schedule (p : TripPlan) (report : ScheduleQualityReport)
    : result exn (option PlanCandidate) :=
  match overloaded_days report with
  | [] => mret None
  | worst :: _ =>
      approx ← approximate p;
      let baseline := sq_optimization_cost approx in
      moved ← find_cross_day_move p (ds_day_index worst) baseline;
      match moved with
      | Some candidate => mret (Some candidate)
      | None => build_overload_reduction p baseline
      end
  end.
End Optimizer.

(** ** What a candidate changes *)

Lemma elem_of_seq_targets p source target insertion :
  (target, insertion) ∈ move_targets p source →
  target ≠ source ∧ ((source < length (plan_days p))%nat → (target < length (plan_days p))%nat).
Proof.
  unfold move_targets. intros Hin%list_elem_of_In. apply in_concat in Hin as (l & Hl & Hin).
  apply in_map_iff in Hl as (t & <- & Ht). apply in_map_iff in Hin as (i & [= <- <-] & _).
  apply in_app_iff in Ht. rewrite !in_seq in Ht. lia.
Qed.

Lemma delete_zip_seq {A} (l : list A) i a :
  (i, a) ∈ zip (seq 0 (length l)) l → l ≡ₚ a :: delete i l.
Proof. intros H. apply delete_Permutation. by apply elem_of_zip_seq. Qed.

Section Soundness.
Context `{MathEnv} `{HashEnv}.
Context (c : TimelineSettings) (o : ScheduleOptimizerSettings) (req : TripRequest).

(** A plan whose approximate cost is more than a cent below the baseline. *)
Definition cheaper_plan (baseline : Q) (plan : TripPlan) (cost : Q) : Prop :=
  ∃ r, approximate c req plan = Ok r ∧ sq_optimization_cost r = cost ∧ (cost + (1 # 100) < baseline)%Q.

Section Moves.
Context (p : TripPlan) (source : nat) (d : DayPlan) (moved : Attraction) (rest : list Attraction)
  (baseline : Q).
Context (Hsource : plan_days p !! source = Some d) (Hmoved : day_attractions d ≡ₚ moved :: rest).

Definition sound_move (b : MoveBest) : Prop :=
  all_attractions (mb_plan b) ≡ₚ all_attractions p ∧ cheaper_plan baseline (mb_plan b) (mb_cost b).

Lemma try_moves_sound targets considered best r :
  Forall (fun ti : nat * nat => ti.1 ≠ source ∧ (ti.1 < length (plan_days p))%nat) targets →
  0 <= considered <= so_max_candidates o →
  (∀ b, best = Some b → sound_move b ∧ 0 < considered) →
  try_moves c o req p source moved rest baseline targets considered best = Ok r →
  0 <= r.2 <= so_max_candidates o ∧ (∀ b, r.1 = Some b → sound_move b ∧ 0 < r.2).
Proof.
  intros Ht. revert considered best.
  induction Ht as [|[target insertion] targets [Hne Hlt] _ IH]; intros considered best Hn Hb;
    cbn [try_moves]; [by intros [= <-]|].
  destruct (Z.leb_spec (so_max_candidates o) considered); [by intros [= <-]|].
  set (plan := edit_day target _ _). destruct (approximate c req plan) as [report|e] eqn:Hr; [|done].
  cbn [mbind result_bind]. apply IH; [lia|].
  assert (Hold : ∀ b, best = Some b → sound_move b ∧ 0 < considered + 1).
  { intros b Hbest. destruct (Hb b Hbest). split; [done|lia]. }
  destruct (Qle_bool baseline _) eqn:Hcost; [exact Hold|].
  destruct (Qlt_bool _ _); [exact Hold|].
  assert (Hnew : sound_move (mkMoveBest (sq_optimization_cost report) target insertion plan)).
  { split; [|exists report; split_and!; try done].
    - apply lookup_lt_is_Some_2 in Hlt as [d' Hd']. by apply (move_attractions source target insertion moved rest p d d').
    - cbn. apply Qnot_le_lt. intros Hle%Qle_bool_iff. congruence. }
  intros b. destruct best as [b0|]; [destruct (cheaper_move _ _); [|apply Hold]|];
    intros [= <-]; (split; [exact Hnew|lia]).
Qed.
End Moves.

(** ** The reduction *)

Section Removals.
Context (p : TripPlan) (source : nat) (d : DayPlan).
Context (Hsource : plan_days p !! source = Some d).

Definition sound_removal (b : RemovalBest) : Prop :=
  ∃ a, all_attractions p ≡ₚ a :: all_attractions (vb_plan b) ∧ vb_name b = at_name a
    ∧ approximate c req (vb_plan b) = Ok (vb_report b)
    ∧ vb_cost b = sq_optimization_cost (vb_report b).

Lemma try_removals_sound remaining considered best r :
  (∀ ia, ia ∈ remaining → ia ∈ zip (seq 0 (length (day_attractions d))) (day_attractions d)) →
  0 <= considered <= so_max_candidates o →
  (∀ b, best = Some b → sound_removal b) →
  try_removals c o req p source (day_attractions d) remaining considered best = Ok r →
  considered <= r.2 <= so_max_candidates o ∧ (∀ b, r.1 = Some b → sound_removal b)
  ∧ (best = None → r.1 ≠ None → considered < r.2).
Proof.
  intros Hin. revert considered best.
  induction remaining as [|[index a] remaining IH]; intros considered best Hn Hb;
    cbn [try_removals]; [intros [= <-]; simpl; split_and!; [lia|lia|done|by intros ->]|].
  destruct (Z.leb_spec (so_max_candidates o) considered);
    [intros [= <-]; simpl; split_and!; [lia|lia|done|by intros ->]|].
  set (plan := edit_day source _ p). destruct (approximate c req plan) as [report|e] eqn:Hr; [|done].
  cbn [mbind result_bind]. intros Hrec. apply IH in Hrec as (Hle & Hsound & _).
  - split_and!; [lia|lia|done|intros; lia].
  - intros ia Hia. apply Hin. by right.
  - lia.
  - assert (Hnew : sound_removal (mkRemovalBest (sq_optimization_cost report) index plan report (at_name a))).
    { exists a. split_and!; try done. cbn [vb_plan].
      destruct (edit_day_attractions source (fun _ => delete index (day_attractions d)) p d Hsource)
        as (others & Hp & Hd). unfold plan. rewrite Hp, Hd.
      rewrite (delete_zip_seq (day_attractions d) index a) at 1 by (apply Hin; left). done. }
    intros b. destruct best as [b0|]; [destruct (cheaper_removal _ _); [|apply Hb]|];
      intros [= <-]; exact Hnew.
Qed.
End Removals.

(** The attractions taken out so far, in order. *)
Definition reduction_inv (original : TripPlan) (s : Reduction) : Prop :=
  (∃ taken, all_attractions original ≡ₚ (taken ++ all_attractions (rx_plan s))%list
     ∧ map at_name taken = rx_removed s)
  ∧ approximate c req (rx_plan s) = Ok (rx_report s)
  ∧ 0 <= rx_considered s <= so_max_candidates o.

Lemma reduction_turn_sound original s r :
  reduction_inv original s → rx_considered s < so_max_candidates o →
  reduction_turn c o req original s = Ok r →
  0 <= r.2 <= so_max_candidates o
  ∧ (∀ s', r.1 = Some s' → reduction_inv original s' ∧ rx_considered s < rx_considered s'
       ∧ (sq_optimization_cost (rx_report s') + (1 # 100) < sq_optimization_cost (rx_report s))%Q).
Proof.
  intros ((taken & Hperm & Hnames) & Happ & Hn) Hlt. unfold reduction_turn.
  destruct (overloaded_days _) as [|worst others]; [by intros [= <-]|].
  destruct (day_position _ _) as [source|]; [|by intros [= <-]].
  destruct (plan_days (rx_plan s) !! source) as [d|] eqn:Hd; [|by intros [= <-]].
  destruct (try_removals _ _ _ _ _ _ _ _ _) as [tried|e] eqn:Htried; [|done].
  cbn [mbind result_bind].
  apply (try_removals_sound _ _ _ Hd) in Htried as (Hle & Hsound & Hcount); [|done|lia|done].
  destruct tried.1 as [b|] eqn:Hb; [|intros [= <-]; simpl; split; [lia|done]].
  destruct (Hsound b eq_refl) as (a & Ha & Hname & Hrep & Hcost).
  destruct (Qle_bool _ _) eqn:Hq; intros [= <-]; simpl; (split; [lia|]); [done|].
  intros s' [= <-]. cbn [rx_considered rx_report]. split; [|split].
  - split; [|split; [done|cbn; lia]]. cbn [rx_plan rx_removed].
    exists (taken ++ [a])%list. rewrite map_app, Hnames, Hname. split; [|done].
    rewrite Hperm, Ha, <- (assoc_L (++)%list). done.
  - by apply Hcount.
  - rewrite <- Hcost. apply Qnot_le_lt. intros Hq'%Qle_bool_iff. congruence.
Qed.

Lemma reduce_sound fuel original s r :
  reduction_inv original s → reduce c o req fuel original s = Ok r → reduction_inv original r.
Proof.
  revert s. induction fuel as [|fuel IH]; intros s Hs; cbn [reduce]; [by intros [= <-]|].
  destruct (_ && _) eqn:Hgo; [|by intros [= <-]].
  apply andb_true_iff in Hgo as [_ Hlt]. apply Z.ltb_lt in Hlt.
  destruct (reduction_turn _ _ _ _ _) as [[[s'|] considered]|e] eqn:Hturn; [| |done];
    apply reduction_turn_sound in Hturn as [Hn Hnext]; try done; cbn [mbind result_bind].
  - apply IH. by apply (Hnext s').
  - intros [= <-]. destruct Hs as (Htaken & Happ & _). split; [done|]. split; [done|exact Hn].
Qed.

(** Enough fuel: a turn evaluates at least one plan, so [max_candidates] turns
    are never exceeded. *)
Lemma reduce_fuel fuel original s :
  reduction_inv original s → so_max_candidates o <= rx_considered s + Z.of_nat fuel →
  ∀ more, reduce c o req (fuel + more) original s = reduce c o req fuel original s.
Proof.
  revert s. induction fuel as [|fuel IH]; intros s Hs Hfuel more.
  - destruct more as [|more]; [done|]. cbn [reduce plus].
    destruct (Z.ltb_spec (rx_considered s) (so_max_candidates o)); [lia|]. by rewrite andb_false_r.
  - cbn [reduce plus]. destruct (_ && _) eqn:Hgo; [|done].
    apply andb_true_iff in Hgo as [_ Hlt]. apply Z.ltb_lt in Hlt.
    destruct (reduction_turn _ _ _ _ _) as [[[s'|] considered]|e] eqn:Hturn; [|done|done].
    apply reduction_turn_sound in Hturn as [_ Hnext]; [|done|done].
    destruct (Hnext s' eq_refl) as (Hs' & Hmore & _). cbn [mbind result_bind].
    apply IH; [done|lia].
Qed.
End Soundness.

Lemma move_targets_valid p source d :
  plan_days p !! source = Some d →
  Forall (fun ti : nat * nat => ti.1 ≠ source ∧ (ti.1 < length (plan_days p))%nat) (move_targets p source).
Proof.
  intros Hd. apply Forall_forall. intros [t i] [Hne Hlt]%elem_of_seq_targets. split; [done|].
  apply Hlt. by apply lookup_lt_Some in Hd.
Qed.

Lemma last_take {A} (l : list A) x :
  last l = Some x → l ≡ₚ x :: take (length l - 1) l.
Proof.
  intros Hl. apply last_Some in Hl as [k ->].
  rewrite length_app. simpl. replace (length k + 1 - 1)%nat with (length k) by lia.
  rewrite take_app_length. apply Permutation_app_comm.
Qed.


(** ** A run *)

Definition demo_schedule_candidate : PlanCandidate :=
  match @optimize_day_schedule demo_math constant_hash default_timeline (mkScheduleOptimizer 6 0)
          trip_request trip_plan demo_schedule with
  | Ok (Some cand) => cand
  | _ => mkCandidate trip_plan [] [] []
  end.

