(* ===== verification/Commute.v ===== *)
(** The commute evaluation (src/app/commute/evaluator.py): a real route longer
    than the limit of its mode is an issue of the attraction that causes it.

    [commute_report_sound] states what an issue is, that its target exists and
    that the report counts and orders the issues as the optimiser reads them. *)

From S2P Require Import Prelude FloatMath PyData ClockText TripSchema AmapModels PlanReports PlanEdits OrderedDict PlanRoutes.
From S2P Require Import RouteScoring ToolModels AgentState Convergence Timeline.
From Stdlib Require Import ZArith QArith Qround Lia Lqa String Sorted.
From stdpp Require Import base tactics option list strings.

Open Scope string_scope.
Open Scope Z_scope.

(** [CommuteConstraintEvaluator._limits_seconds] *)
Record CommuteLimits := mkCommuteLimits {
  cl_walking_seconds : Z; cl_transit_seconds : Z; cl_driving_seconds : Z
}.

Definition new_commute_evaluator (max_walking_minutes max_transit_minutes max_driving_minutes : Z)
    : result exn CommuteLimits :=
  if (max_walking_minutes <? 1) || (max_transit_minutes <? 1) || (max_driving_minutes <? 1)
  then Err (ValueError "Commute duration limits must be at least one minute")
  else Ok (mkCommuteLimits (max_walking_minutes * 60) (max_transit_minutes * 60)
             (max_driving_minutes * 60)).

Definition limit_seconds (c : CommuteLimits) (m : RouteMode) : Z :=
  match m with
  | walking => cl_walking_seconds c | transit => cl_transit_seconds c
  | driving => cl_driving_seconds c
  end.

(** The dict [day_by_index]: a later day with the same index replaces an
    earlier one, whose place in the order it keeps. *)
Definition days_by_index (p : TripPlan) : list (Z * (nat * DayPlan)) :=
  foldl (fun table pd =>
    let key := effective_day_index pd.1 pd.2 in
    if existsb (fun kv : Z * (nat * DayPlan) => kv.1 =? key) table
    then map (fun kv : Z * (nat * DayPlan) => if kv.1 =? key then (key, pd) else kv) table
    else (table ++ [(key, pd)])%list)
    [] (zip (seq 0 (length (plan_days p))) (plan_days p)).

Definition day_entry (p : TripPlan) (key : Z) : option (nat * DayPlan) :=
  option_map snd (find (fun kv : Z * (nat * DayPlan) => kv.1 =? key) (days_by_index p)).

Definition name_matches (left right : string) : bool :=
  String.eqb (squash (ascii_lower left)) (squash (ascii_lower right)).

(** [(previous, following)] of a position in a day: neighbours, or the hotels at
    its ends, where they have a location. *)
Definition anchors_of (p : TripPlan) (position : nat) (d : DayPlan) (index : nat) : list Place :=
  let '(start_hotel, return_hotel) := resolve_day_hotels (plan_days p) position in
  let previous :=
    match index with
    | O => hotel_stop start_hotel
    | S i => option_map attraction_stop (day_attractions d !! i)
    end in
  let following :=
    if (index + 1 <? length (day_attractions d))%nat
    then option_map attraction_stop (day_attractions d !! (index + 1)%nat)
    else hotel_stop return_hotel in
  omap id [previous; following].

Definition usable_duration (r : RouteEstimate) : option Z :=
  if re_available r then re_duration_seconds r else None.

(** [max((...), default=0)] of numbers that are not negative *)
Definition max_duration (l : list Z) : Z := foldr Z.max 0 l.

(** The sort key of the issues. *)
Definition issue_before (x y : CommuteSegmentIssue) : bool :=
  lexZ (- ci_excess_seconds x) (- ci_excess_seconds y)
    (lexZ (- ci_duration_seconds x) (- ci_duration_seconds y)
      (lexZ (ci_day_index x) (ci_day_index y)
        (lexZ (ci_leg_index x) (ci_leg_index y)
          (String.leb (leg_type_value (ci_leg_type x)) (leg_type_value (ci_leg_type y)))))).

Section Evaluator.
Context `{MathEnv} `{HashEnv}.
Context (c : CommuteLimits).

Definition local_anchor_distance (p : TripPlan) (position : nat) (d : DayPlan) (index : nat)
    : result exn Q :=
  match day_attractions d !! index with
  | None => Err (IndexError "list index out of range")
  | Some current =>
      legs ← mapM (haversine_km (attraction_stop current)) (anchors_of p position d index);
      mret (qsum legs)
  end.

(** [_target_attraction_index] of a day that has attractions. *)
Definition target_attraction_index (p : TripPlan) (position : nat) (d : DayPlan) (r : RouteEstimate)
    : result exn nat :=
  let last_index := (length (day_attractions d) - 1)%nat in
  match re_leg_type r with
  | hotel_departure => mret 0%nat
  | hotel_return => mret last_index
  | between_attractions =>
      let origin_index := Nat.min (Z.to_nat (re_leg_index r)) last_index in
      let destination_index := Nat.min (Z.to_nat (re_leg_index r) + 1) last_index in
      let matches index name :=
        match day_attractions d !! index with
        | Some a => name_matches (at_name a) name
        | None => false
        end in
      let origin_match := matches origin_index (re_origin_name r) in
      let destination_match := matches destination_index (re_destination_name r) in
      if origin_match && negb destination_match then mret origin_index
      else if destination_match && negb origin_match then mret destination_index
      else
        origin_cost ← local_anchor_distance p position d origin_index;
        destination_cost ← local_anchor_distance p position d destination_index;
        mret (if Qlt_bool destination_cost origin_cost then origin_index else destination_index)
  end.

(** The issue of one route, if it has one. *)
Definition route_issue (p : TripPlan) (r : RouteEstimate) : result exn (option CommuteSegmentIssue) :=
  match usable_duration r with
  | None => mret None
  | Some duration =>
      let limit := limit_seconds c (re_mode r) in
      if duration <=? limit then mret None
      else
        match day_entry p (re_day_index r) with
        | None => mret None
        | Some (position, d) =>
            if bool_decide (day_attractions d = []) then mret None
            else
              index ← target_attraction_index p position d r;
              match day_attractions d !! index with
              | None => Err (IndexError "list index out of range")
              | Some target =>
                  mret (Some (mkSegmentIssue (re_day_index r) (re_leg_index r) (re_leg_type r)
                    (re_origin_name r) (re_destination_name r) (re_mode r) duration
                    (default 0 (re_distance_meters r)) limit (duration - limit) (at_name target)
                    (Z.of_nat index)))
              end
        end
  end.

Definition day_commute_report (routes : list RouteEstimate) (issues : list CommuteSegmentIssue)
    (key : Z) : DayCommuteReport :=
  let durations := omap usable_duration (filter (fun r => re_day_index r = key) routes) in
  let day_issues := filter (fun i => ci_day_index i = key) issues in
  mkDayCommute key (Z.of_nat (length durations)) (Z.of_nat (length day_issues))
    (max_duration durations) day_issues.

(** [CommuteConstraintEvaluator.evaluate] *)
Definition evaluate_commute_report (req : TripRequest) (p : TripPlan) (result : RouteEstimateResult)
    : Prelude.result exn CommuteConstraintReport :=
  let fingerprint := route_fingerprint req p in
  if negb (String.eqb (rr_plan_fingerprint result) fingerprint)
  then Err (ValueError "Route estimates do not match the current trip plan")
  else
    found ← mapM (route_issue p) (rr_routes result);
    let issues := py_sorted issue_before (omap id found) in
    let days := map (day_commute_report (rr_routes result) issues)
                  (py_sorted Z.leb (map fst (days_by_index p))) in
    let durations := omap usable_duration (rr_routes result) in
    mret (mkCommuteReport fingerprint (Z.of_nat (length durations)) (Z.of_nat (length issues))
      (max_duration durations) (zsum (map ci_excess_seconds issues))
      (negb (bool_decide (issues = []))) issues days).
End Evaluator.

(** ** The table of days *)

Lemma days_by_index_go l table :
  NoDup (map fst table) →
  let table' := foldl (fun (table : list (Z * (nat * DayPlan))) (pd : nat * DayPlan) =>
    let key := effective_day_index pd.1 pd.2 in
    if existsb (fun kv : Z * (nat * DayPlan) => kv.1 =? key) table
    then map (fun kv : Z * (nat * DayPlan) => if kv.1 =? key then (key, pd) else kv) table
    else (table ++ [(key, pd)])%list) table l in
  NoDup (map fst table')
  ∧ ∀ key pd, (key, pd) ∈ table' →
      (key, pd) ∈ table ∨ (pd ∈ l ∧ key = effective_day_index pd.1 pd.2).
Proof.
  revert table. induction l as [|pd l IH]; intros table Hnd; [split; [done|by left]|].
  cbn [foldl]. set (key := effective_day_index pd.1 pd.2).
  match goal with |- context [foldl _ ?t l] => set (table1 := t) end.
  assert (Hstep : NoDup (map fst table1) ∧ ∀ k x, (k, x) ∈ table1 →
    (k, x) ∈ table ∨ (x = pd ∧ k = key)).
  { unfold table1. destruct (existsb _ _) eqn:E.
    - split.
      + assert (map fst (map (fun kv : Z * (nat * DayPlan) => if kv.1 =? key then (key, pd) else kv) table)
                = map fst table) as ->; [|done].
        rewrite map_map. apply map_ext. intros [k x]. simpl.
        by destruct (Z.eqb_spec k key) as [->|].
      + intros k x (kv & Heq & Hin)%list_elem_of_fmap. destruct (kv.1 =? key); [|left; by rewrite Heq].
        injection Heq as -> ->. by right.
    - split.
      + rewrite map_app. cbn [map fst]. apply NoDup_app. split; [done|].
        split; [|apply NoDup_singleton]. intros k (kv & -> & Hin)%list_elem_of_fmap Hk.
        apply list_elem_of_singleton in Hk. apply not_true_iff_false in E. apply E.
        apply existsb_exists. exists kv. split; [by apply list_elem_of_In|]. by apply Z.eqb_eq.
      + intros k x [Hin|Hin]%elem_of_app; [by left|]. apply list_elem_of_singleton in Hin.
        injection Hin as -> ->. by right. }
  destruct Hstep as [Hnd1 Hin1]. destruct (IH table1 Hnd1) as [Hnd2 Hin2]. split; [exact Hnd2|].
  intros k x Hkx. destruct (Hin2 k x Hkx) as [Hin|[Hin Hk]].
  - destruct (Hin1 k x Hin) as [?|[-> ->]]; [by left|]. right. split; [left|done].
  - right. split; [by right|done].
Qed.

Lemma days_by_index_nodup p : NoDup (map fst (days_by_index p)).
Proof. apply days_by_index_go. constructor. Qed.

Lemma day_entry_Some p key position d :
  day_entry p key = Some (position, d) →
  plan_days p !! position = Some d ∧ effective_day_index position d = key
  ∧ key ∈ map fst (days_by_index p).
Proof.
  unfold day_entry. destruct (find _ _) as [[k x]|] eqn:Hf; [|done]. cbn. intros [= ->].
  apply find_some in Hf as [Hin Hk]. cbn in Hk. apply Z.eqb_eq in Hk as ->.
  apply list_elem_of_In in Hin.
  destruct (days_by_index_go (zip (seq 0 (length (plan_days p))) (plan_days p)) [] ltac:(constructor))
    as [_ Hall].
  destruct (Hall _ _ Hin) as [[]%elem_of_nil|[Hzip Hkey]]. split_and!.
  - by apply elem_of_zip_seq.
  - by rewrite Hkey.
  - apply list_elem_of_fmap. by exists (key, (position, d)).
Qed.

(** ** Issues *)

Section Sound.
Context `{MathEnv} `{HashEnv}.
Context (c : CommuteLimits).

Lemma target_in_range p position d r index :
  day_attractions d ≠ [] → target_attraction_index p position d r = Ok index →
  (index < length (day_attractions d))%nat.
Proof.
  intros Hne. assert (0 < length (day_attractions d))%nat by (destruct (day_attractions d); [done|simpl; lia]).
  unfold target_attraction_index. destruct (re_leg_type r); [intros [= <-]; lia| |intros [= <-]; lia].
  set (m1 := match _ !! _ with Some _ => _ | None => _ end).
  set (m2 := match _ !! _ with Some _ => _ | None => _ end).
  destruct (m1 && negb m2); [intros [= <-]; lia|]. destruct (m2 && negb m1); [intros [= <-]; lia|].
  destruct (local_anchor_distance p position d (Nat.min (Z.to_nat (re_leg_index r)) _)) as [q1|e];
    cbn [mbind result_bind]; [|done].
  destruct (local_anchor_distance p position d (Nat.min (Z.to_nat (re_leg_index r) + 1) _)) as [q2|e];
    cbn [mbind result_bind]; [|done].
  destruct (Qlt_bool _ _); intros [= <-]; lia.
Qed.

(** An issue belongs to a route over the limit of its mode, and points at an
    attraction of the day of the route. *)
Definition issue_of (p : TripPlan) (r : RouteEstimate) (i : CommuteSegmentIssue) : Prop :=
  ci_day_index i = re_day_index r ∧ ci_leg_index i = re_leg_index r ∧ ci_leg_type i = re_leg_type r
  ∧ ci_mode i = re_mode r ∧ usable_duration r = Some (ci_duration_seconds i)
  ∧ ci_limit_seconds i = limit_seconds c (re_mode r)
  ∧ 0 < ci_excess_seconds i
  ∧ ci_excess_seconds i = ci_duration_seconds i - ci_limit_seconds i
  ∧ ∃ position d a,
      plan_days p !! position = Some d ∧ effective_day_index position d = ci_day_index i
      ∧ 0 <= ci_target_attraction_index i
      ∧ day_attractions d !! Z.to_nat (ci_target_attraction_index i) = Some a
      ∧ ci_target_attraction_name i = at_name a.

Lemma route_issue_sound p r o :
  route_issue c p r = Ok o →
  match o with
  | Some i => issue_of p r i ∧ ci_day_index i ∈ map fst (days_by_index p)
  | None =>
      ∀ seconds position d, usable_duration r = Some seconds → limit_seconds c (re_mode r) < seconds →
        day_entry p (re_day_index r) = Some (position, d) → day_attractions d = []
  end.
Proof.
  unfold route_issue. destruct (usable_duration r) as [seconds|] eqn:Hd; [|by intros [= <-]].
  destruct (Z.leb_spec seconds (limit_seconds c (re_mode r))) as [Hle|Hgt].
  { intros [= <-] s position d [= <-]. lia. }
  destruct (day_entry p (re_day_index r)) as [[position d]|] eqn:He; [|by intros [= <-]].
  case_bool_decide as Hne; [intros [= <-] ? ? ? _ _ [= <- <-]; done|].
  destruct (target_attraction_index p position d r) as [index|e] eqn:Ht; [|done].
  cbn [mbind result_bind]. apply target_in_range in Ht; [|done].
  apply lookup_lt_is_Some_2 in Ht as [a Ha]. rewrite Ha. intros [= <-].
  apply day_entry_Some in He as (Hpos & Hkey & Hin). cbn. split; [|done].
  unfold issue_of. cbn. split_and!; try done; [lia|]. exists position, d, a.
  rewrite Nat2Z.id. split_and!; try done. lia.
Qed.

Lemma haversine_km_error a b e : haversine_km a b = Err e → e = ValueError "math domain error".
Proof.
  unfold haversine_km. set (value := (_ + _)%Q). unfold math_sqrt.
  destruct (Qlt_bool value 0); [by intros [= <-]|]. cbn [mbind result_bind].
  unfold math_asin. destruct (_ || _); [by intros [= <-]|done].
Qed.

Lemma local_anchor_error p position d index e :
  (index < length (day_attractions d))%nat →
  local_anchor_distance p position d index = Err e → e = ValueError "math domain error".
Proof.
  intros Hi. unfold local_anchor_distance. apply lookup_lt_is_Some_2 in Hi as [a ->].
  destruct (mapM _ _) as [q|e1] eqn:Hm; cbn [mbind result_bind]; [done|]. intros [= <-].
  apply mapM_error in Hm as (b & _ & Hb). by eapply haversine_km_error.
Qed.

Lemma target_error p position d r e :
  day_attractions d ≠ [] → target_attraction_index p position d r = Err e →
  e = ValueError "math domain error".
Proof.
  intros Hne. assert (0 < length (day_attractions d))%nat by (destruct (day_attractions d); [done|simpl; lia]).
  unfold target_attraction_index. destruct (re_leg_type r); [done| |done].
  set (m1 := match _ !! _ with Some _ => _ | None => _ end).
  set (m2 := match _ !! _ with Some _ => _ | None => _ end).
  destruct (m1 && negb m2); [done|]. destruct (m2 && negb m1); [done|].
  destruct (local_anchor_distance p position d (Nat.min (Z.to_nat (re_leg_index r)) _)) as [q1|e1] eqn:Hq1;
    cbn [mbind result_bind]; [|intros [= <-]; apply local_anchor_error in Hq1; [done|lia]].
  destruct (local_anchor_distance p position d (Nat.min (Z.to_nat (re_leg_index r) + 1) _)) as [q2|e1] eqn:Hq2;
    cbn [mbind result_bind]; [by destruct (Qlt_bool _ _)|intros [= <-]; apply local_anchor_error in Hq2; [done|lia]].
Qed.

Lemma route_issue_error p r e : route_issue c p r = Err e → e = ValueError "math domain error".
Proof.
  unfold route_issue. destruct (usable_duration r) as [s|]; [|done]. destruct (_ <=? _); [done|].
  destruct (day_entry p (re_day_index r)) as [[position d]|]; [|done].
  case_bool_decide as Hne; [done|].
  destruct (target_attraction_index p position d r) as [index|e'] eqn:Ht; cbn [mbind result_bind].
  - apply target_in_range in Ht; [|done]. apply lookup_lt_is_Some_2 in Ht as [a ->]. done.
  - intros [= <-]. by eapply target_error.
Qed.

End Sound.

Lemma issue_before_excess x y : issue_before x y = true → ci_excess_seconds y <= ci_excess_seconds x.
Proof. unfold issue_before, lexZ. rewrite orb_true_iff, andb_true_iff, Z.ltb_lt, Z.eqb_eq. lia. Qed.

Lemma leg_type_total (x y : RouteLegType) :
  String.leb (leg_type_value x) (leg_type_value y) = true
  ∨ String.leb (leg_type_value y) (leg_type_value x) = true.
Proof. apply String.leb_total. Qed.
Lemma leg_type_trans (x y z : RouteLegType) :
  String.leb (leg_type_value x) (leg_type_value y) = true →
  String.leb (leg_type_value y) (leg_type_value z) = true →
  String.leb (leg_type_value x) (leg_type_value z) = true.
Proof. by destruct x, y, z. Qed.

Lemma issue_before_total x y : issue_before x y = true ∨ issue_before y x = true.
Proof. unfold issue_before. repeat (apply lexZ_total). apply leg_type_total. Qed.
Lemma issue_before_trans x y z :
  issue_before x y = true → issue_before y z = true → issue_before x z = true.
Proof. unfold issue_before. repeat (apply lexZ_trans). apply leg_type_trans. Qed.

(** Each issue belongs to exactly one day of the report. *)
Lemma issues_by_day (issues : list CommuteSegmentIssue) keys :
  NoDup keys → (∀ i, i ∈ issues → ci_day_index i ∈ keys) →
  concat (map (fun key => filter (fun i => ci_day_index i = key) issues) keys) ≡ₚ issues.
Proof.
  intros Hnd. induction issues as [|i issues IH]; intros Hin.
  - clear. by induction keys as [|k keys IH].
  - transitivity (i :: concat (map (fun key => filter (fun i => ci_day_index i = key) issues) keys));
      [|constructor; apply IH; intros; apply Hin; by right].
    specialize (Hin i ltac:(left)). clear IH.
    induction keys as [|k keys IH]; [by apply not_elem_of_nil in Hin|].
    apply NoDup_cons in Hnd as [Hk Hnd]. cbn [map concat].
    destruct (decide (ci_day_index i = k)) as [<-|Hne].
    + rewrite filter_cons_True by done. cbn [app].
      rewrite (map_ext_in _ (fun key => filter (fun i => ci_day_index i = key) issues) keys); [done|].
      intros k' Hk'. rewrite filter_cons_False; [done|]. intros <-. by apply Hk, list_elem_of_In.
    + rewrite filter_cons_False by done.
      apply elem_of_cons in Hin as [?|Hin]; [congruence|].
      rewrite (IH Hnd Hin). by rewrite Permutation_middle.
Qed.

(** the commute report of valid routes.  Each issue is a route of the
    result that takes longer than the limit of its mode, and its target is an
    attraction of a day of the plan; no such route of a day with attractions
    is forgotten; the issues are ordered by their excess and every one of them
    is in the report of its day.  The evaluation raises only for routes of
    another plan or for coordinates no distance exists for. *)
Theorem commute_report_sound `{MathEnv} `{HashEnv} w t dr c req p result :
  new_commute_evaluator w t dr = Ok c →
  (∀ e, evaluate_commute_report c req p result = Err e →
     e = ValueError "Route estimates do not match the current trip plan"
     ∨ e = ValueError "math domain error")
  ∧ ∀ r, evaluate_commute_report c req p result = Ok r →
      (∀ i, i ∈ cm_issues r → ∃ route, route ∈ rr_routes result ∧ issue_of c p route i)
      ∧ (∀ route seconds position d, route ∈ rr_routes result →
           usable_duration route = Some seconds → limit_seconds c (re_mode route) < seconds →
           day_entry p (re_day_index route) = Some (position, d) → day_attractions d ≠ [] →
           ∃ i, i ∈ cm_issues r ∧ issue_of c p route i)
      ∧ StronglySorted (fun a b => ci_excess_seconds b <= ci_excess_seconds a) (cm_issues r)
      ∧ concat (map dc_issues (cm_days r)) ≡ₚ cm_issues r
      ∧ cm_excessive_segment_count r = Z.of_nat (length (cm_issues r))
      ∧ (cm_optimization_recommended r = true ↔ 0 < cm_total_excess_seconds r).
Proof.
  intros Hc. unfold evaluate_commute_report.
  destruct (String.eqb _ _); cbn [negb]; [|split; [intros e [= <-]; by left|done]].
  destruct (mapM (route_issue c p) (rr_routes result)) as [found|e] eqn:Hm; cbn [mbind result_bind].
  2: { split; [|done]. intros e' [= <-]. right.
       apply mapM_error in Hm as (r & _ & Hr). by eapply route_issue_error. }
  split; [done|]. intros r [= <-]. apply mapM_Ok in Hm. cbn.
  set (issues := py_sorted issue_before (omap id found)).
  assert (Hperm : issues ≡ₚ omap id found) by apply py_sorted_perm.
  assert (Hsound : ∀ i, i ∈ issues → ∃ route, route ∈ rr_routes result ∧ issue_of c p route i
                        ∧ ci_day_index i ∈ map fst (days_by_index p)).
  { intros i Hi. rewrite Hperm in Hi. apply list_elem_of_omap in Hi as (o & Ho & Hi). unfold id in Hi. subst o.
    apply list_elem_of_lookup_1 in Ho as [n Hn].
    destruct (Forall2_lookup_r _ _ _ _ _ Hm Hn) as (route & Hroute & Hok).
    apply route_issue_sound in Hok as [Hok Hday]. exists route.
    split; [by eapply list_elem_of_lookup_2|done]. }
  split_and!.
  - intros i Hi. destruct (Hsound i Hi) as (route & ? & ? & _). by exists route.
  - intros route seconds position d Hin Hd Hlim He Hne.
    apply list_elem_of_lookup_1 in Hin as [n Hn].
    destruct (Forall2_lookup_l _ _ _ _ _ Hm Hn) as (o & Ho & Hok).
    apply route_issue_sound in Hok. destruct o as [i|]; [|exfalso; eapply Hne, Hok; eauto].
    exists i. split; [|apply Hok]. rewrite Hperm. apply list_elem_of_omap.
    exists (Some i). split; [by eapply list_elem_of_lookup_2|done].
  - pose proof (py_sorted_sorted issue_before issue_before_total issue_before_trans (omap id found)) as Hs.
    fold issues in Hs. clear -Hs. induction Hs as [|i l _ IH Hi]; constructor; [done|].
    eapply Forall_impl; [exact Hi|]. simpl. apply issue_before_excess.
  - rewrite map_map. cbn [day_commute_report dc_issues].
    apply issues_by_day.
    + rewrite py_sorted_perm. apply days_by_index_nodup.
    + intros i Hi. rewrite py_sorted_perm. by destruct (Hsound i Hi) as (_ & _ & _ & ?).
  - done.
  - rewrite negb_true_iff, bool_decide_eq_false.
    destruct issues as [|i l] eqn:E; [split; [done|simpl; lia]|]. split; [intros _|done].
    cbn [map]. rewrite zsum_cons.
    assert (0 < ci_excess_seconds i).
    { destruct (Hsound i ltac:(left)) as (route & _ & Hi & _). apply Hi. }
    assert (0 <= zsum (map ci_excess_seconds l)); [|lia].
    apply zsum_map_nonneg, Forall_forall. intros j Hj.
    destruct (Hsound j ltac:(by right)) as (route & _ & Hi & _). destruct Hi as (_&_&_&_&_&_&?&_). lia.
Qed.

(** ** A run *)

(** One bus ride of seventy minutes against a limit of sixty. *)
Definition demo_commute : CommuteConstraintReport :=
  match @evaluate_commute_report demo_math constant_hash (mkCommuteLimits 2700 3600 7200)
          trip_request trip_plan trip_routes with
  | Ok r => r
  | Err _ => mkCommuteReport "" 0 0 0 0 false [] []
  end.

Lemma commute_report_sound_witness :
  map (fun i => (ci_excess_seconds i, ci_target_attraction_name i)) (cm_issues demo_commute)
  = [(600, "天坛")]
  ∧ cm_excessive_segment_count demo_commute = Z.of_nat (length (cm_issues demo_commute)).
Proof.
  split; [vm_compute; reflexivity|].
  refine (proj1 (proj2 (proj2 (proj2 (proj2 (proj2
    (@commute_report_sound demo_math constant_hash 45 60 120 (mkCommuteLimits 2700 3600 7200)
       trip_request trip_plan trip_routes eq_refl) demo_commute _)))))).
  vm_compute; reflexivity.
Defined.
