(* ===== verification/Candidates.v ===== *)
(** The attraction candidates of the provider (src/app/providers/amap/models.py)
    and the pool that collects them
    (src/app/commute/supplement.py, [CommuteCandidatePoolSupplementer.merge]).

    [pool_merge_sound]: the pool keeps the first occurrence of every identity, in
    order, with the best rating seen for it. *)

From S2P Require Import Prelude FloatMath PyData ClockText TripSchema AmapModels PlanReports OrderedDict PlanRoutes PlanContent RouteScoring.
From Stdlib Require Import ZArith QArith Qround Lia Lqa String.
From stdpp Require Import base tactics option list strings.

Open Scope string_scope.
Open Scope Z_scope.

Record AttractionCandidate := mkAttractionCandidate {
  ac_poi_id : string; ac_name : string; ac_address : string; ac_location : Location;
  ac_district : string; ac_city_code : string; ac_adcode : string; ac_rating : option Q;
  ac_telephone : string; ac_category : string; ac_opening_hours : string;
  ac_closed_dates : list string
}.

Definition dump_attraction_candidate (a : AttractionCandidate) : json :=
  JObj [("poi_id", JStr (ac_poi_id a)); ("name", JStr (ac_name a)); ("address", JStr (ac_address a));
        ("location", dump_location (ac_location a)); ("district", JStr (ac_district a));
        ("city_code", JStr (ac_city_code a)); ("adcode", JStr (ac_adcode a));
        ("rating", json_opt JFloat (ac_rating a)); ("telephone", JStr (ac_telephone a));
        ("category", JStr (ac_category a)); ("opening_hours", JStr (ac_opening_hours a));
        ("closed_dates", JArr (map JStr (ac_closed_dates a)))].

(** The field constraints of the model. *)
Definition candidate_ok (a : AttractionCandidate) : bool :=
  negb (String.eqb (ac_name a) "") && negb (String.eqb (ac_address a) "") && geo_ok (ac_location a)
  && match ac_rating a with Some r => Qle_bool 0 r && Qle_bool r 5 | None => true end.

(** [AttractionCandidate.model_validate]: [None] is a [ValidationError]. *)
Class CandidateModel := {
  cm_validate : list (string * json) → option AttractionCandidate
}.

Definition candidate_identity_of (a : AttractionCandidate) : string :=
  content_identity (Some (ac_poi_id a)) (ac_name a).

Section Pool.
Context `{CandidateModel}.

(** [_candidates] and [_source_candidates]: entries that do not validate are
    left out. *)
Definition parse_candidates (default_address : string) (payload : option json)
    : list AttractionCandidate :=
  omap (fun item =>
    cm_validate
      (setdefault "address" (JStr default_address)
         (setdefault "poi_id" (default (JStr "") (obj_get "id" item)) item)))
    (source_candidates payload).

(** [AttractionSearchResult], as far as [merge] reads it. *)
Record AttractionSearchResult := mkAttractionSearch {
  as_provider : string; as_query_city : string; as_keywords : string;
  as_candidates : list AttractionCandidate
}.

(** The loop state of [merge]. *)
Record PoolMerge := mkPoolMerge {
  pg_merged : list AttractionCandidate; pg_positions : odict nat; pg_duplicates : Z
}.

Definition rating_or (fallback : Q) (a : AttractionCandidate) : Q :=
  match ac_rating a with
  | Some r => if Qeq_bool r 0 then fallback else r
  | None => fallback
  end.

Definition merge_candidate (s : PoolMerge) (a : AttractionCandidate) : PoolMerge :=
  let identity := candidate_identity_of a in
  match od_get identity (pg_positions s) with
  | Some position =>
      mkPoolMerge
        (match pg_merged s !! position with
         | Some old => if Qlt_bool (rating_or (-1) old) (rating_or (-1) a)
                       then <[position := a]> (pg_merged s) else pg_merged s
         | None => pg_merged s
         end)
        (pg_positions s) (pg_duplicates s + 1)
  | None =>
      mkPoolMerge (pg_merged s ++ [a])%list
        (od_set identity (length (pg_merged s)) (pg_positions s)) (pg_duplicates s)
  end.

(** [int(value or 0)] of a JSON value *)
Definition json_int (v : option json) : result exn Z :=
  match v with
  | None | Some JNull => mret 0
  | Some (JBool b) => mret (if b then 1 else 0)
  | Some (JInt z) => mret z
  | Some (JFloat q) => mret (if Qlt_bool q 0 then - Qfloor (- q) else Qfloor q)
  | Some (JStr s) => if String.eqb s "" then mret 0 else py_int s
  | Some (JArr []) | Some (JObj []) => mret 0
  | Some _ => Err (TypeError "int() argument must be a string, a bytes-like object or a real number")
  end.

Definition get_default (key : string) (fallback : json) (kvs : list (string * json)) : json :=
  default fallback (obj_get key kvs).

(** [CommuteCandidatePoolSupplementer.merge] *)
Definition merge_pool (pool_max_candidates : Z) (existing : option json)
    (incoming : AttractionSearchResult) : result exn CandidatePoolMergeResult :=
  let payload := match existing with Some (JObj kvs) => kvs | _ => [] end in
  let current := parse_candidates "Address pending confirmation" (Some (JObj payload)) in
  let received := as_candidates incoming in
  let s := foldl merge_candidate (mkPoolMerge [] [] 0) (current ++ received)%list in
  let cropped := take (Z.to_nat pool_max_candidates) (pg_merged s) in
  let current_identities := map candidate_identity_of current in
  let added := filter (fun a => candidate_identity_of a ∉ current_identities) cropped in
  total ← json_int (obj_get "total_received" payload);
  let output := JObj
    [("provider", get_default "provider" (JStr (as_provider incoming)) payload);
     ("query_city", get_default "query_city" (JStr (as_query_city incoming)) payload);
     ("keywords", get_default "keywords" (JStr (as_keywords incoming)) payload);
     ("total_received", JInt (Z.max total (Z.of_nat (length cropped))));
     ("candidates", JArr (map dump_attraction_candidate cropped))] in
  mret (mkMerge output (Z.of_nat (length received)) (Z.of_nat (length added)) (pg_duplicates s)
          (Z.of_nat (length cropped))).
End Pool.

(** ** First occurrences *)

Fixpoint first_occurrences (seen l : list string) : list string :=
  match l with
  | [] => []
  | x :: l => if decide (x ∈ seen) then first_occurrences seen l
              else x :: first_occurrences (seen ++ [x])%list l
  end.

Lemma first_occurrences_nodup seen l : NoDup seen → NoDup (seen ++ first_occurrences seen l)%list.
Proof.
  revert seen. induction l as [|x l IH]; intros seen Hs; cbn [first_occurrences].
  - by rewrite (right_id_L [] (++)%list).
  - case_decide as Hx; [by apply IH|].
    change (seen ++ x :: first_occurrences (seen ++ [x]) l)%list
      with (seen ++ [x] ++ first_occurrences (seen ++ [x]) l)%list.
    rewrite (assoc_L (++)%list). apply IH. apply NoDup_app. split; [done|].
    split; [|apply NoDup_singleton]. intros y Hy ->%list_elem_of_singleton. done.
Qed.

Lemma first_occurrences_elem seen l x :
  x ∈ (seen ++ first_occurrences seen l)%list ↔ x ∈ seen ∨ x ∈ l.
Proof.
  revert seen. induction l as [|y l IH]; intros seen; cbn [first_occurrences].
  - rewrite elem_of_app. pose proof (not_elem_of_nil x). tauto.
  - case_decide as Hy.
    + rewrite IH, elem_of_cons. naive_solver.
    + change (seen ++ y :: first_occurrences (seen ++ [y]) l)%list
        with (seen ++ [y] ++ first_occurrences (seen ++ [y]) l)%list.
      rewrite (assoc_L (++)%list), IH, elem_of_app, list_elem_of_singleton, elem_of_cons. tauto.
Qed.

Section Merge.
Context `{CandidateModel}.

(** The table gives the place of every identity of the list. *)
Record merge_wf (s : PoolMerge) : Prop := {
  mw_positions : ∀ identity position,
    od_get identity (pg_positions s) = Some position ↔
    map candidate_identity_of (pg_merged s) !! position = Some identity;
  mw_nodup : NoDup (map candidate_identity_of (pg_merged s))
}.

Lemma merge_candidate_spec s a :
  merge_wf s →
  merge_wf (merge_candidate s a)
  ∧ map candidate_identity_of (pg_merged (merge_candidate s a))
    = (if decide (candidate_identity_of a ∈ map candidate_identity_of (pg_merged s))
       then map candidate_identity_of (pg_merged s)
       else map candidate_identity_of (pg_merged s) ++ [candidate_identity_of a])%list
  ∧ Z.of_nat (length (pg_merged (merge_candidate s a))) + pg_duplicates (merge_candidate s a)
    = Z.of_nat (length (pg_merged s)) + pg_duplicates s + 1.
Proof.
  intros [Hpos Hnd]. unfold merge_candidate. set (x := candidate_identity_of a) in *.
  destruct (od_get x (pg_positions s)) as [position|] eqn:Hx; cbn [pg_merged pg_positions pg_duplicates].
  - pose proof (proj1 (Hpos _ _) Hx) as Hat.
    set (merged := match pg_merged s !! position with Some _ => _ | None => _ end).
    assert (Hids : map candidate_identity_of merged = map candidate_identity_of (pg_merged s)).
    { unfold merged. destruct (pg_merged s !! position) as [old|] eqn:Hold; [|done].
      destruct (Qlt_bool _ _); [|done]. rewrite list_fmap_insert.
      by apply list_insert_id. }
    rewrite decide_True by (by eapply list_elem_of_lookup_2).
    split; [split; cbn [pg_merged pg_positions]; rewrite Hids; done|]. split; [exact Hids|].
    rewrite <- (length_map candidate_identity_of merged), Hids, length_map. lia.
  - assert (Hnew : x ∉ map candidate_identity_of (pg_merged s)).
    { intros [position Hat]%list_elem_of_lookup_1. apply Hpos in Hat. congruence. }
    rewrite decide_False by done. rewrite map_app. cbn [map]. split; [|split; [done|rewrite length_app; simpl; lia]].
    split; cbn [pg_merged pg_positions]; rewrite map_app; cbn [map].
    + intros identity position. rewrite od_get_set.
      destruct (String.eqb_spec identity x) as [->|Hne].
      * rewrite <- (length_map candidate_identity_of). split; [intros [= <-]|intros Hat].
        -- rewrite lookup_app_r, Nat.sub_diag by lia. done.
        -- apply lookup_app_Some in Hat as [Hat|[Hle Hat]]; [by apply list_elem_of_lookup_2 in Hat|].
           apply list_lookup_singleton_Some in Hat as [Hz _]. f_equal. lia.
      * rewrite Hpos. rewrite lookup_app_Some. split; [by left|].
        intros [?|[_ Hat]]; [done|]. by apply list_lookup_singleton_Some in Hat as [_ <-].
    + apply NoDup_app. split; [done|]. split; [|apply NoDup_singleton].
      intros y Hy ->%list_elem_of_singleton. done.
Qed.

Lemma merge_fold l s :
  merge_wf s →
  let s' := foldl merge_candidate s l in
  merge_wf s'
  ∧ map candidate_identity_of (pg_merged s')
    = (map candidate_identity_of (pg_merged s)
       ++ first_occurrences (map candidate_identity_of (pg_merged s)) (map candidate_identity_of l))%list
  ∧ Z.of_nat (length (pg_merged s')) + pg_duplicates s'
    = Z.of_nat (length (pg_merged s)) + pg_duplicates s + Z.of_nat (length l).
Proof.
  revert s. induction l as [|a l IH]; intros s Hs; cbn [foldl map first_occurrences].
  - rewrite (right_id_L [] (++)%list). cbn [length]. split_and!; [done|done|lia].
  - destruct (merge_candidate_spec s a Hs) as (Hs1 & Hids & Hlen).
    destruct (IH _ Hs1) as (Hs2 & Hids2 & Hlen2). split; [exact Hs2|]. split.
    + rewrite Hids2, Hids. case_decide; [done|]. by rewrite <- (assoc_L (++)%list).
    + rewrite Hlen2, Hlen. cbn [length]. lia.
Qed.

(** Among the candidates seen with its identity, each one kept is a best rated. *)
Definition best_of (seen : list AttractionCandidate) (a : AttractionCandidate) : Prop :=
  a ∈ seen ∧ ∀ b, b ∈ seen → candidate_identity_of b = candidate_identity_of a →
    (rating_or (-1) b <= rating_or (-1) a)%Q.

Lemma merge_candidate_best s a seen :
  merge_wf s → map candidate_identity_of (pg_merged s) ⊆ map candidate_identity_of seen →
  map candidate_identity_of seen ⊆ map candidate_identity_of (pg_merged s) →
  Forall (best_of seen) (pg_merged s) →
  Forall (best_of (seen ++ [a])%list) (pg_merged (merge_candidate s a)).
Proof.
  intros [Hpos Hnd] Hsub Hsup Hbest. unfold merge_candidate. set (x := candidate_identity_of a).
  assert (Hother : ∀ b, best_of seen b → candidate_identity_of b ≠ x → best_of (seen ++ [a])%list b).
  { intros b [Hb Hmax] Hne. split; [apply elem_of_app; by left|].
    intros b' [Hb'|Hb']%elem_of_app Heq; [by apply Hmax|].
    apply list_elem_of_singleton in Hb' as ->. by destruct Hne. }
  destruct (od_get x (pg_positions s)) as [position|] eqn:Hx; cbn [pg_merged].
  - apply Hpos in Hx. rewrite list_lookup_fmap in Hx.
    destruct (pg_merged s !! position) as [old|] eqn:Hold; [|done]. cbn in Hx. injection Hx as Hx.
    assert (Hrest : ∀ i b, pg_merged s !! i = Some b → i ≠ position → best_of (seen ++ [a])%list b).
    { intros i b Hi Hne. apply Hother.
      - rewrite Forall_lookup in Hbest. by eapply Hbest.
      - intros Heq. apply Hne. eapply NoDup_lookup; [exact Hnd| |]; rewrite list_lookup_fmap.
        + rewrite Hi. cbn. by rewrite Heq.
        + rewrite Hold. cbn. by rewrite Hx. }
    assert (Hwas : best_of seen old) by (rewrite Forall_lookup in Hbest; by eapply Hbest).
    destruct Hwas as [Hin Hmax]. destruct (Qlt_bool _ _) eqn:Hlt; apply Forall_lookup_2; intros i b Hi.
    + apply Qlt_bool_iff in Hlt. destruct (decide (i = position)) as [->|Hne].
      * rewrite list_lookup_insert_eq in Hi by (by eapply lookup_lt_Some). injection Hi as <-.
        split; [apply elem_of_app; right; by apply list_elem_of_singleton|].
        intros b [Hb|Hb]%elem_of_app Heq.
        -- apply Qlt_le_weak. eapply Qle_lt_trans; [|exact Hlt]. apply Hmax; [done|]. by rewrite Hx.
        -- apply list_elem_of_singleton in Hb as ->. apply Qle_refl.
      * rewrite list_lookup_insert_ne in Hi by done. by eapply Hrest.
    + apply Qlt_bool_false in Hlt. destruct (decide (i = position)) as [->|Hne]; [|by eapply Hrest].
      rewrite Hold in Hi. injection Hi as <-.
      split; [apply elem_of_app; by left|]. intros b [Hb|Hb]%elem_of_app Heq; [by apply Hmax|].
      apply list_elem_of_singleton in Hb as ->. exact Hlt.
  - assert (Hnew : x ∉ map candidate_identity_of (pg_merged s)).
    { intros [position Hat]%list_elem_of_lookup_1. apply Hpos in Hat. congruence. }
    apply Forall_app. split.
    + eapply Forall_impl; [apply Forall_and; split; [exact Hbest|]|].
      * apply (Forall_forall (fun b => candidate_identity_of b ≠ x)). intros b Hb Heq. apply Hnew.
        apply list_elem_of_fmap. by exists b.
      * intros b [Hb Hne]. by apply Hother.
    + repeat constructor; [apply elem_of_app; right; by apply list_elem_of_singleton|].
      intros b [Hb|Hb]%elem_of_app Heq.
      * exfalso. apply Hnew, Hsup. apply list_elem_of_fmap. by exists b.
      * apply list_elem_of_singleton in Hb as ->. apply Qle_refl.
Qed.

Lemma merge_fold_best l s seen :
  merge_wf s → map candidate_identity_of (pg_merged s) ⊆ map candidate_identity_of seen →
  map candidate_identity_of seen ⊆ map candidate_identity_of (pg_merged s) →
  Forall (best_of seen) (pg_merged s) →
  Forall (best_of (seen ++ l)%list) (pg_merged (foldl merge_candidate s l)).
Proof.
  revert s seen. induction l as [|a l IH]; intros s seen Hs Hsub Hsup Hb; cbn [foldl].
  - by rewrite (right_id_L [] (++)%list).
  - replace (seen ++ a :: l)%list with ((seen ++ [a]) ++ l)%list by (by rewrite <- (assoc_L (++)%list)).
    destruct (merge_candidate_spec s a Hs) as (Hs1 & Hids & _).
    apply IH; [done| | |by apply merge_candidate_best]; rewrite Hids, map_app; cbn [map].
    + intros y. case_decide; rewrite !elem_of_app; [intros Hy; left; by apply Hsub|].
      intros [Hy|Hy]; [left; by apply Hsub|by right].
    + intros y [Hy|Hy]%elem_of_app.
      * case_decide; [by apply Hsup|]. apply elem_of_app. left. by apply Hsup.
      * apply list_elem_of_singleton in Hy as ->. case_decide; [done|].
        apply elem_of_app. right. by apply list_elem_of_singleton.
Qed.
End Merge.

(** merging a search result into the candidate pool: the new pool holds the
    first [pool_max_candidates] distinct identities of the old pool followed by
    the answer, each with a candidate of the best rating any of them had; the
    counters of the result are those of this merge. *)
Theorem pool_merge_sound `{CandidateModel} max existing incoming r :
  merge_pool max existing incoming = Ok r →
  let current := parse_candidates "Address pending confirmation"
                   (Some (JObj (match existing with Some (JObj kvs) => kvs | _ => [] end))) in
  let all := (current ++ as_candidates incoming)%list in
  let identities := first_occurrences [] (map candidate_identity_of all) in
  ∃ kept fields,
    mg_pool r = JObj fields
    ∧ obj_get "candidates" fields = Some (JArr (map dump_attraction_candidate kept))
    ∧ map candidate_identity_of kept = take (Z.to_nat max) identities
    ∧ NoDup (map candidate_identity_of kept)
    ∧ Forall (best_of all) kept
    ∧ mg_final_candidates r = Z.of_nat (length kept)
    ∧ mg_received_candidates r = Z.of_nat (length (as_candidates incoming))
    ∧ mg_duplicate_candidates r = Z.of_nat (length all) - Z.of_nat (length identities)
    ∧ mg_added_candidates r = Z.of_nat (length (filter
        (fun identity => identity ∉ map candidate_identity_of current)
        (take (Z.to_nat max) identities))).
Proof.
  intros Hr current all identities. unfold merge_pool in Hr. fold current in Hr.
  destruct (json_int _) as [total|e]; [|done]. cbn [mbind result_bind] in Hr. injection Hr as <-.
  fold all. set (s := foldl merge_candidate (mkPoolMerge [] [] 0) all).
  assert (H0 : merge_wf (mkPoolMerge [] [] 0)).
  { split; cbn; [|constructor]. intros identity position. by rewrite lookup_nil. }
  destruct (merge_fold all _ H0) as (Hs & Hids & Hlen). fold s in Hs, Hids, Hlen.
  cbn [pg_merged pg_duplicates map app length] in Hids, Hlen. fold identities in Hids.
  assert (Hbest : Forall (best_of all) (pg_merged s)).
  { apply (merge_fold_best all _ []); [exact H0|done|done|constructor]. }
  set (kept := take (Z.to_nat max) (pg_merged s)).
  assert (Hkept : map candidate_identity_of kept = take (Z.to_nat max) identities).
  { unfold kept. by rewrite <- firstn_map, Hids. }
  exists kept. eexists. split; [reflexivity|]. split; [reflexivity|]. split; [exact Hkept|].
  assert (Hnd : NoDup (map candidate_identity_of kept)).
  { rewrite Hkept, <- Hids. pose proof (mw_nodup _ Hs) as Hnd.
    rewrite <- (take_drop (Z.to_nat max)) in Hnd. by apply NoDup_app in Hnd as [? _]. }
  split; [exact Hnd|]. split; [by apply Forall_take|].
  cbn [mg_final_candidates mg_received_candidates mg_duplicate_candidates mg_added_candidates].
  split; [done|]. split; [done|]. split.
  - rewrite <- Hids, length_map. lia.
  - rewrite <- Hkept. f_equal. generalize kept. clear. intros kept.
    induction kept as [|a l IH]; [done|]. cbn [map].
    destruct (decide (candidate_identity_of a ∈ map candidate_identity_of current)).
    + rewrite !filter_cons_False by tauto. exact IH.
    + rewrite !filter_cons_True by tauto. cbn [length]. by rewrite IH.
Qed.

(** ** A run *)

(** Validation of a flat candidate: name, address and coordinates. *)
Definition demo_candidates : CandidateModel :=
  {| cm_validate := fun item =>
       match obj_get "name" item, obj_get "address" item, obj_get "poi_id" item with
       | Some (JStr name), Some (JStr address), Some (JStr poi_id) =>
           Some (mkAttractionCandidate poi_id name address (mkLocation 116 40) "" "" ""
                   (match obj_get "rating" item with Some (JFloat q) => Some q | _ => None end)
                   "" "" "" [])
       | _, _, _ => None
       end |}.

Definition old_pool : json :=
  JObj [("provider", JStr "amap");
        ("candidates", JArr [JObj [("name", JStr "天坛"); ("poi_id", JStr "t1"); ("rating", JFloat 4)];
                             JObj [("address", JStr "x")]])].

Definition new_candidate (poi_id name : string) (rating : Q) : AttractionCandidate :=
  mkAttractionCandidate poi_id name "路1号" (mkLocation 116 40) "" "" "" (Some rating) "" "" "" [].

(** The better rated entry replaces the old one; the pool is cut at two. *)
Lemma pool_merge_sound_witness :
  ∃ r, @merge_pool demo_candidates 2 (Some old_pool)
         (mkAttractionSearch "amap" "北京" "景点"
            [new_candidate "t1" "天坛公园" 5; new_candidate "p1" "故宫" 5; new_candidate "l1" "什刹海" 4]) = Ok r
  ∧ mg_added_candidates r = 1 ∧ mg_duplicate_candidates r = 1
  ∧ ∃ kept fields, mg_pool r = JObj fields
      ∧ obj_get "candidates" fields = Some (JArr (map dump_attraction_candidate kept))
      ∧ map candidate_identity_of kept = ["id:t1"; "id:p1"].
Proof.
  eexists. split; [vm_compute; reflexivity|]. split; [reflexivity|]. split; [reflexivity|].
  edestruct (@pool_merge_sound demo_candidates 2 (Some old_pool)
    (mkAttractionSearch "amap" "北京" "景点"
       [new_candidate "t1" "天坛公园" 5; new_candidate "p1" "故宫" 5; new_candidate "l1" "什刹海" 4]))
    as (kept & fields & H1 & H2 & H3 & _); [vm_compute; reflexivity|].
  exists kept, fields. split; [exact H1|]. split; [exact H2|]. exact H3.
Defined.
