(* ===== verification/CommuteRepair.v ===== *)
(** The repair of remote attractions: the replacement optimiser
    (src/app/commute/optimizer.py) and the queries that look for more candidates
    (src/app/commute/supplement.py).

    [replacement_sound] states what a replacement changes;
    [supplement_queries_valid] that a query the program sends respects the
    provider's bounds. *)

From S2P Require Import Prelude FloatMath PyData ClockText TripSchema AmapModels PlanReports PlanEdits OrderedDict PlanRoutes PlanContent.
From S2P Require Import RouteScoring ToolModels AgentState Convergence Timeline Commute Candidates.
From Stdlib Require Import ZArith QArith Qround Lia Lqa String.
From stdpp Require Import base tactics option list strings.

Open Scope string_scope.
Open Scope Z_scope.

(** ** Replacement *)

Record ReplacementSettings := mkReplacement {
  rs_max_candidates : Z; rs_default_visit_duration_minutes : Z
}.

Definition new_replacement_optimizer (max_candidates default_visit_duration_minutes : Z)
    : result exn ReplacementSettings :=
  if max_candidates <? 1 then Err (ValueError "max_candidates must be at least 1")
  else if default_visit_duration_minutes <? 1
  then Err (ValueError "default_visit_duration_minutes must be at least 1")
  else Ok (mkReplacement max_candidates default_visit_duration_minutes).

(** [_to_attraction] *)
Definition to_attraction (c : ReplacementSettings) (source : AttractionCandidate) (target : Attraction)
    : Attraction :=
  let details :=
    (filter (fun v => v ≠ "") [ac_district source; ac_category source]
     ++ match ac_rating source with
        | Some r => ["高德评分 " ++ format_1f r]%string
        | None => []
        end)%list in
  mkAttraction (ac_name source) (str_or (ac_address source) "地址待确认") (ac_location source)
    (if at_visit_duration target =? 0 then rs_default_visit_duration_minutes c
     else at_visit_duration target)
    (str_or (String.concat "；" details) "高德地图近距离替换候选景点")
    (Some (str_or (ac_category source) (str_or (default "" (at_category target)) "景点")))
    (ac_rating source) (Some []) (Some (ac_poi_id source)) None 0.

(** [_category_penalty] *)
Definition category_penalty (target : Attraction) (source : AttractionCandidate) : Z :=
  let target_category := squash (ascii_lower (default "" (at_category target))) in
  let source_category := squash (ascii_lower (ac_category source)) in
  if String.eqb target_category "" || String.eqb source_category "" then 1
  else if str_contains target_category source_category || str_contains source_category target_category
  then 0 else 1.

(** [_preference_score] *)
Definition preference_score (req : TripRequest) (source : AttractionCandidate) : Z :=
  let haystack := ascii_lower
    (ac_name source ++ ac_category source ++ ac_district source ++ ac_address source) in
  Z.of_nat (length (filter (fun preference =>
    let p := py_strip preference in
    negb (String.eqb p "") && str_contains (ascii_lower p) haystack = true)
    (req_preferences req))).

(** The rank of a source: rounded distance, penalty, preferences, rating, order. *)
Record Ranked := mkRanked {
  rk_distance : Q; rk_penalty : Z; rk_preferences : Z; rk_rating : Q; rk_order : nat;
  rk_source : AttractionCandidate; rk_exact : Q
}.

Definition ranked_before (x y : Ranked) : bool :=
  lexQ (rk_distance x) (rk_distance y)
    (lexZ (rk_penalty x) (rk_penalty y)
      (lexZ (- rk_preferences x) (- rk_preferences y)
        (lexQ (- rk_rating x) (- rk_rating y) (rk_order x <? rk_order y)%nat))).

(** [min(ranked, key=...)]: the first of the least ranks. *)
Fixpoint best_ranked (best : Ranked) (l : list Ranked) : Ranked :=
  match l with
  | [] => best
  | x :: l => best_ranked (if ranked_before x best then x else best) l
  end.

Section Replace.
Context `{MathEnv} `{CandidateModel}.
Context (c : ReplacementSettings) (req : TripRequest).

(** [_placement_distance_km] *)
Definition placement_distance_km (p : TripPlan) (position : nat) (d : DayPlan) (index : nat)
    (a : Attraction) : result exn Q :=
  match anchors_of p position d index with
  | [] => mret 10000%Q
  | anchors =>
      legs ← mapM (haversine_km (attraction_stop a)) anchors;
      mret (qsum legs)
  end.

(** The loop over the sources of one issue. *)
Fixpoint rank_sources (p : TripPlan) (position : nat) (d : DayPlan) (index : nat) (target : Attraction)
    (baseline : Q) (order : nat) (sources : list AttractionCandidate) : result exn (list Ranked) :=
  match sources with
  | [] => mret []
  | source :: sources =>
      distance ← placement_distance_km p position d index (to_attraction c source target);
      rest ← rank_sources p position d index target baseline (S order) sources;
      mret (if Qle_bool baseline distance then rest
            else mkRanked (round_n 4 distance) (category_penalty target source)
                   (preference_score req source)
                   (match ac_rating source with Some r => r | None => 0%Q end) order source distance
                 :: rest)
  end.

Definition replacement_candidate (p : TripPlan) (issue : CommuteSegmentIssue) (position : nat)
    (index : nat) (target : Attraction) (baseline : Q) (considered : Z) (best : Ranked)
    : PlanCandidate :=
  let replacement := to_attraction c (rk_source best) target in
  mkCandidate (edit_day position (fun l => <[index := replacement]> l) p)
    [ac_name (rk_source best)] [ac_poi_id (rk_source best)]
    [("day_index", JInt (ci_day_index issue));
     ("attraction_index", JInt (ci_target_attraction_index issue));
     ("replaced_attraction_name", JStr (at_name target));
     ("replaced_attraction_id", JStr (default "" (at_poi_id target)));
     ("replacement_attraction_name", JStr (ac_name (rk_source best)));
     ("replacement_attraction_id", JStr (ac_poi_id (rk_source best)));
     ("source_issue", dump_segment_issue issue);
     ("approximate_baseline_distance_km", JFloat (round_n 4 baseline));
     ("approximate_candidate_distance_km", JFloat (round_n 4 (rk_exact best)));
     ("considered_candidates", JInt considered);
     ("strategy", JStr "replace_remote_attraction_with_nearby_unused_candidate")].

(** One issue: [None] goes on to the next one. *)
Definition replace_for_issue (p : TripPlan) (sources : list AttractionCandidate)
    (issue : CommuteSegmentIssue) : result exn (option PlanCandidate) :=
  match day_entry p (ci_day_index issue) with
  | None => mret None
  | Some (position, d) =>
      let index := Z.to_nat (ci_target_attraction_index issue) in
      match day_attractions d !! index with
      | None => mret None
      | Some target =>
          baseline ← placement_distance_km p position d index target;
          ranked ← rank_sources p position d index target baseline 0 sources;
          match ranked with
          | [] => mret None
          | first :: rest =>
              mret (Some (replacement_candidate p issue position index target baseline
                            (Z.of_nat (length sources)) (best_ranked first rest)))
          end
      end
  end.

Fixpoint replace_first (p : TripPlan) (sources : list AttractionCandidate)
    (issues : list CommuteSegmentIssue) : result exn (option PlanCandidate) :=
  match issues with
  | [] => mret None
  | issue :: issues =>
      found ← replace_for_issue p sources issue;
      match found with
      | Some candidate => mret (Some candidate)
      | None => replace_first p sources issues
      end
  end.

(** The candidates that may be used: not in the plan, not excluded. *)
Definition replacement_sources (p : TripPlan) (attractions : option json) (excluded : list string)
    : list AttractionCandidate :=
  let used := map (fun a => content_identity (at_poi_id a) (at_name a)) (all_attractions p) in
  take (Z.to_nat (rs_max_candidates c))
    (filter (fun a => candidate_identity_of a ∉ (used ++ excluded)%list)
       (parse_candidates "地址待确认" attractions)).

(** [RemoteAttractionReplacementOptimizer.optimize] *)
Definition optimize_commute (p : TripPlan) (report : CommuteConstraintReport)
    (attractions : option json) (excluded : list string) : result exn (option PlanCandidate) :=
  match cm_issues report with
  | [] => mret None
  | issues =>
      match replacement_sources p attractions excluded with
      | [] => mret None
      | sources => replace_first p sources issues
      end
  end.
End Replace.

(** ** Supplementary searches *)

Record SupplementSettings := mkSupplement {
  su_initial_radius_meters : Z; su_max_radius_meters : Z; su_page_size : Z;
  su_pool_max_candidates : Z
}.

Definition new_supplementer (initial_radius max_radius page_size pool_max : Z)
    : result exn SupplementSettings :=
  if negb ((100 <=? initial_radius) && (initial_radius <=? 50000))
  then Err (ValueError "initial_radius_meters must be between 100 and 50000")
  else if negb ((initial_radius <=? max_radius) && (max_radius <=? 50000))
  then Err (ValueError "max_radius_meters must be between initial_radius_meters and 50000")
  else if negb ((1 <=? page_size) && (page_size <=? 25))
  then Err (ValueError "page_size must be between 1 and 25")
  else if pool_max <? 1 then Err (ValueError "pool_max_candidates must be at least 1")
  else Ok (mkSupplement initial_radius max_radius page_size pool_max).

(** The constraints of [CommuteSupplementQuery] and of its [GeoPoint]. *)
Definition supplement_query_ok (q : CommuteSupplementQuery) : bool :=
  negb (String.eqb (sp_city q) "") && negb (String.eqb (sp_keywords q) "") && geo_ok (sp_center q)
  && (100 <=? sp_radius_meters q) && (sp_radius_meters q <=? 50000)
  && (1 <=? sp_page q) && (sp_page q <=? 100) && (1 <=? sp_page_size q) && (sp_page_size q <=? 25)
  && (0 <=? sp_day_index q) && (0 <=? sp_attraction_index q)
  && negb (String.eqb (sp_target_attraction_name q) "").

Definition mean_location (anchors : list Place) : Location :=
  let n := inject_Z (Z.of_nat (length anchors)) in
  mkLocation (qsum (map (fun a => longitude (place_location a)) anchors) / n)
             (qsum (map (fun a => latitude (place_location a)) anchors) / n).

(** [",".join(...) or "景点"] *)
Definition search_keywords (req : TripRequest) : string :=
  str_or (String.concat "," (filter (fun k => k ≠ "") (map py_strip (req_preferences req)))) "景点".

Section Queries.
Context (c : SupplementSettings) (req : TripRequest).

Definition search_radius (search_index : Z) : Z :=
  Z.min (su_max_radius_meters c) (su_initial_radius_meters c * 2 ^ search_index).

(** The constructor of the query, which validates its fields. *)
Definition supplement_query (anchors : list Place) (search_index day_idx attraction_index : Z)
    (target : string) : result exn CommuteSupplementQuery :=
  let q := mkSupplementQuery (req_city req) (search_keywords req) (mean_location anchors)
             (search_radius search_index) 1 (su_page_size c) day_idx attraction_index target
             (map place_name anchors) in
  if supplement_query_ok q then Ok q else Err ValidationError.

Fixpoint query_for_issues (p : TripPlan) (search_index : Z) (issues : list CommuteSegmentIssue)
    : result exn (option CommuteSupplementQuery) :=
  match issues with
  | [] => mret None
  | issue :: issues =>
      let anchors :=
        match day_entry p (ci_day_index issue) with
        | None => []
        | Some (position, d) =>
            let index := Z.to_nat (ci_target_attraction_index issue) in
            if (index <? length (day_attractions d))%nat then anchors_of p position d index else []
        end in
      match anchors with
      | [] => query_for_issues p search_index issues
      | _ =>
          q ← supplement_query anchors search_index (ci_day_index issue)
                (ci_target_attraction_index issue) (ci_target_attraction_name issue);
          mret (Some q)
      end
  end.

(** [build_query] *)
Definition build_query (p : TripPlan) (report : CommuteConstraintReport) (search_index : Z)
    : result exn (option CommuteSupplementQuery) :=
  if search_index <? 0 then Err (ValueError "search_index cannot be negative")
  else query_for_issues p search_index (cm_issues report).

(** The distinct located places of a day: its attractions, then its hotels. *)
Fixpoint distinct_places (seen : list (string * Q * Q)) (l : list Place) : list Place :=
  match l with
  | [] => []
  | a :: l =>
      let identity := (normalized_text (place_name a), longitude (place_location a),
                       latitude (place_location a)) in
      if bool_decide (identity ∈ seen) then distinct_places seen l
      else a :: distinct_places (identity :: seen) l
  end.

Definition day_anchors (p : TripPlan) (position : nat) (d : DayPlan) : list Place :=
  let '(start_hotel, return_hotel) := resolve_day_hotels (plan_days p) position in
  distinct_places []
    (map attraction_stop (day_attractions d)
     ++ omap id [hotel_stop start_hotel; hotel_stop return_hotel])%list.

(** [sorted(enumerate(plan.days), key=lambda item: (len(...), item[0]))] *)
Definition fewer_attractions (x y : nat * DayPlan) : bool :=
  lexZ (Z.of_nat (length (day_attractions x.2))) (Z.of_nat (length (day_attractions y.2)))
    (x.1 <=? y.1)%nat.

Fixpoint query_for_days (p : TripPlan) (search_index : Z) (days : list (nat * DayPlan))
    : result exn (option CommuteSupplementQuery) :=
  match days with
  | [] => mret None
  | (position, d) :: days =>
      match day_anchors p position d with
      | [] => query_for_days p search_index days
      | anchors =>
          q ← supplement_query anchors search_index (effective_day_index position d)
                (Z.of_nat (length (day_attractions d))) "最低景点数量回填";
          mret (Some q)
      end
  end.

(** [build_content_refill_query] *)
Definition build_content_refill_query (p : TripPlan) (search_index : Z)
    : result exn (option CommuteSupplementQuery) :=
  if search_index <? 0 then Err (ValueError "search_index cannot be negative")
  else query_for_days p search_index
         (py_sorted fewer_attractions (zip (seq 0 (length (plan_days p))) (plan_days p))).
End Queries.

(** ** What a replacement changes *)

Section Sound.
Context `{MathEnv} `{CandidateModel}.
Context (c : ReplacementSettings) (req : TripRequest).

Lemma best_ranked_in best l : best_ranked best l ∈ best :: l.
Proof.
  revert best. induction l as [|x l IH]; intros best; cbn [best_ranked]; [left|].
  specialize (IH (if ranked_before x best then x else best)).
  rewrite !elem_of_cons in *. destruct (ranked_before x best); tauto.
Qed.

(** Every ranked source is one of the sources, closer than the target was. *)
Lemma rank_sources_sound p position d index target baseline order sources l :
  rank_sources c req p position d index target baseline order sources = Ok l →
  Forall (fun r => rk_source r ∈ sources
    ∧ placement_distance_km p position d index (to_attraction c (rk_source r) target) = Ok (rk_exact r)
    ∧ (rk_exact r < baseline)%Q) l.
Proof.
  revert order l. induction sources as [|source sources IH]; intros order l; cbn [rank_sources];
    [intros [= <-]; constructor|].
  destruct (placement_distance_km _ _ _ _ _) as [distance|e] eqn:Hd; [|done]. cbn [mbind result_bind].
  destruct (rank_sources _ _ _ _ _ _ _ _ _ _) as [rest|e] eqn:Hr; [|done]. cbn [mbind result_bind].
  assert (Hrest : Forall (fun r => rk_source r ∈ source :: sources
    ∧ placement_distance_km p position d index (to_attraction c (rk_source r) target) = Ok (rk_exact r)
    ∧ (rk_exact r < baseline)%Q) rest).
  { eapply Forall_impl; [by eapply IH|]. simpl. intros r (Hin & ? & ?). split_and!; try done. by right. }
  destruct (Qle_bool baseline distance) eqn:Hq; intros [= <-]; [done|].
  constructor; [|done]. cbn [rk_source rk_exact]. split; [left|]. split; [done|].
  apply Qnot_le_lt. intros Hle%Qle_bool_iff. congruence.
Qed.

(** The candidate replaces one attraction of one day by a source. *)
Definition replaces (p : TripPlan) (sources : list AttractionCandidate) (cand : PlanCandidate) : Prop :=
  ∃ position d index target source before after,
    plan_days p !! position = Some d ∧ day_attractions d !! index = Some target
    ∧ source ∈ sources
    ∧ cand_plan cand = edit_day position (fun l => <[index := to_attraction c source target]> l) p
    ∧ cand_names cand = [ac_name source] ∧ cand_ids cand = [ac_poi_id source]
    ∧ placement_distance_km p position d index target = Ok before
    ∧ placement_distance_km p position d index (to_attraction c source target) = Ok after
    ∧ (after < before)%Q
    ∧ od_get "considered_candidates" (cand_fields cand) = Some (JInt (Z.of_nat (length sources))).

Lemma replace_first_sound p sources issues cand :
  replace_first c req p sources issues = Ok (Some cand) → replaces p sources cand.
Proof.
  induction issues as [|issue issues IH]; cbn [replace_first]; [done|].
  destruct (replace_for_issue c req p sources issue) as [[found|]|e] eqn:Hf; [| |done];
    cbn [mbind result_bind]; [|exact IH]. intros [= <-].
  revert Hf. unfold replace_for_issue.
  destruct (day_entry p (ci_day_index issue)) as [[position d]|] eqn:He; [|done].
  apply day_entry_Some in He as (Hd & _ & _).
  destruct (day_attractions d !! _) as [target|] eqn:Ht; [|done].
  destruct (placement_distance_km p position d _ target) as [before|e] eqn:Hb; [|done].
  cbn [mbind result_bind].
  destruct (rank_sources _ _ _ _ _ _ _ _ _ _) as [ranked|e] eqn:Hr; [|done]. cbn [mbind result_bind].
  apply rank_sources_sound in Hr. destruct ranked as [|first rest]; [done|]. intros [= <-].
  rewrite Forall_forall in Hr. destruct (Hr _ (best_ranked_in first rest)) as (Hin & Hafter & Hlt).
  exists position, d, (Z.to_nat (ci_target_attraction_index issue)), target,
    (rk_source (best_ranked first rest)), before, (rk_exact (best_ranked first rest)).
  split_and!; done.
Qed.

Lemma to_attraction_identity source target :
  content_identity (at_poi_id (to_attraction c source target)) (at_name (to_attraction c source target))
  = candidate_identity_of source.
Proof. done. Qed.
End Sound.

(** C24: a replacement candidate changes exactly one attraction of one day, for a
    pool candidate whose identity is neither in the plan nor excluded and that
    lies closer to the neighbours of the place; the number of attractions stays
    the same and at most [max_candidates] sources were ranked. *)
Theorem replacement_sound `{MathEnv} `{CandidateModel} max minutes c req p report attractions excluded cand :
  new_replacement_optimizer max minutes = Ok c →
  optimize_commute c req p report attractions excluded = Ok (Some cand) →
  ∃ sources,
    replaces c p sources cand
    ∧ Forall (fun a => candidate_identity_of a ∉ excluded
        ∧ candidate_identity_of a ∉ map (fun a => content_identity (at_poi_id a) (at_name a)) (all_attractions p)
        ∧ a ∈ parse_candidates "地址待确认" attractions) sources
    ∧ Z.of_nat (length sources) <= max
    ∧ count_attractions (cand_plan cand) = count_attractions p
    ∧ cm_issues report ≠ [].
Proof.
  intros Hc. assert (Hmax : rs_max_candidates c = max ∧ 0 < max).
  { unfold new_replacement_optimizer in Hc. destruct (Z.ltb_spec max 1); [done|].
    destruct (minutes <? 1); [done|]. injection Hc as <-. split; [done|lia]. }
  unfold optimize_commute. destruct (cm_issues report) as [|issue issues]; [done|].
  destruct (replacement_sources c p attractions excluded) as [|s ss] eqn:Hs; [done|].
  intros Hr. apply replace_first_sound in Hr. exists (s :: ss). split; [exact Hr|].
  rewrite <- Hs. unfold replacement_sources. split_and!.
  - apply Forall_take, Forall_forall. intros a [Ha Hin]%list_elem_of_filter.
    rewrite elem_of_app in Ha. tauto.
  - rewrite length_take. lia.
  - destruct Hr as (position & d & index & target & source & before & after & Hd & _ & _ & Hp & _).
    rewrite Hp. unfold count_attractions. rewrite (edit_day_days _ _ _ _ Hd).
    rewrite (plan_days_split _ _ _ Hd) at 3. rewrite !foldr_app. cbn [foldr day_attractions with_attractions].
    by rewrite length_insert.
  - done.
Qed.

(** ** Valid queries *)

Section QueryBounds.
Context (c : SupplementSettings) (req : TripRequest).
Context (Hc : 100 <= su_initial_radius_meters c <= su_max_radius_meters c
              ∧ su_max_radius_meters c <= 50000 ∧ 1 <= su_page_size c <= 25).

Lemma search_radius_bounds i :
  0 <= i → su_initial_radius_meters c <= search_radius c i <= su_max_radius_meters c.
Proof.
  intros Hi. unfold search_radius. pose proof (Z.pow_pos_nonneg 2 i ltac:(lia) Hi). nia.
Qed.

(** The anchors are real coordinates. *)
Definition places_ok (l : list Place) : Prop := Forall (fun a => geo_ok (place_location a) = true) l.

Lemma mean_location_ok l : l ≠ [] → places_ok l → geo_ok (mean_location l) = true.
Proof.
  intros Hne Hl. unfold geo_ok, mean_location. cbn [longitude latitude].
  assert (Hmean : ∀ (f : Location → Q) (b : Z),
    Forall (fun a => (inject_Z (- b) <= f (place_location a) <= inject_Z b)%Q) l →
    (inject_Z (- b) <= qsum (map (fun a => f (place_location a)) l) / inject_Z (Z.of_nat (length l))
     <= inject_Z b)%Q).
  { intros f b Hf.
    pose proof (mean_between (map (fun a => f (place_location a)) l) (- b) b) as Hm.
    rewrite length_map in Hm. apply Hm; [by destruct l|]. by apply Forall_map. }
  destruct (Hmean longitude 180) as [H1 H2].
  { eapply Forall_impl; [exact Hl|]. simpl. intros a Ha. unfold geo_ok in Ha.
    rewrite !andb_true_iff, !Qle_bool_iff in Ha. tauto. }
  destruct (Hmean latitude 90) as [H3 H4].
  { eapply Forall_impl; [exact Hl|]. simpl. intros a Ha. unfold geo_ok in Ha.
    rewrite !andb_true_iff, !Qle_bool_iff in Ha. tauto. }
  rewrite !andb_true_iff, !Qle_bool_iff. split_and!; assumption.
Qed.

Lemma search_keywords_nonempty : String.eqb (search_keywords req) "" = false.
Proof. unfold search_keywords, str_or. by destruct (String.eqb (String.concat _ _) "") eqn:E. Qed.

Lemma supplement_query_Ok anchors i di ai target q :
  supplement_query c req anchors i di ai target = Ok q →
  supplement_query_ok q = true ∧ sp_radius_meters q = search_radius c i
  ∧ sp_anchor_names q = map place_name anchors.
Proof. unfold supplement_query. destruct (supplement_query_ok _) eqn:E; [|done]. by intros [= <-]. Qed.

Lemma supplement_query_succeeds anchors i di ai target :
  anchors ≠ [] → places_ok anchors → 0 <= i → 0 <= di → 0 <= ai → target ≠ "" → req_city req ≠ "" →
  ∃ q, supplement_query c req anchors i di ai target = Ok q.
Proof.
  intros Hne Hok Hi Hdi Hai Ht Hcity. unfold supplement_query.
  pose proof (search_radius_bounds i Hi).
  assert (supplement_query_ok (mkSupplementQuery (req_city req) (search_keywords req)
    (mean_location anchors) (search_radius c i) 1 (su_page_size c) di ai target
    (map place_name anchors)) = true) as ->; [|eauto].
  unfold supplement_query_ok. cbn -[Z.leb]. rewrite search_keywords_nonempty, mean_location_ok by done.
  rewrite !andb_true_iff, !Z.leb_le, !negb_true_iff, !String.eqb_neq. split_and!; try done; lia.
Qed.

Lemma query_for_issues_Ok p i issues q :
  query_for_issues c req p i issues = Ok (Some q) →
  supplement_query_ok q = true ∧ sp_radius_meters q = search_radius c i ∧ sp_anchor_names q ≠ [].
Proof.
  induction issues as [|issue issues IH]; cbn [query_for_issues]; [done|].
  set (anchors := match day_entry _ _ with Some _ => _ | None => _ end).
  destruct anchors as [|a l] eqn:E; [exact IH|].
  destruct (supplement_query _ _ _ _ _ _ _) as [q'|e] eqn:Hq; [|done]. cbn [mbind result_bind].
  intros [= <-]. apply supplement_query_Ok in Hq as (? & ? & ->). done.
Qed.

Lemma query_for_days_Ok p i days q :
  query_for_days c req p i days = Ok (Some q) →
  supplement_query_ok q = true ∧ sp_radius_meters q = search_radius c i ∧ sp_anchor_names q ≠ [].
Proof.
  induction days as [|[position d] days IH]; cbn [query_for_days]; [done|].
  destruct (day_anchors p position d) as [|a l] eqn:E; [exact IH|].
  destruct (supplement_query _ _ _ _ _ _ _) as [q'|e] eqn:Hq; [|done]. cbn [mbind result_bind].
  intros [= <-]. apply supplement_query_Ok in Hq as (? & ? & ->). done.
Qed.

Lemma query_for_days_succeeds p i days :
  0 <= i → req_city req ≠ "" →
  Forall (fun pd => places_ok (day_anchors p pd.1 pd.2)) days →
  ∃ o, query_for_days c req p i days = Ok o
       ∧ (o = None ↔ Forall (fun pd => day_anchors p pd.1 pd.2 = []) days).
Proof.
  intros Hi Hcity Hok. induction Hok as [|[position d] days Hd _ IH]; cbn [query_for_days].
  - exists None. split; [done|]. split; [constructor|done].
  - cbn [fst snd] in Hd. destruct (day_anchors p position d) as [|a l] eqn:E.
    + destruct IH as (o & Ho & Hiff). exists o. split; [done|]. rewrite Hiff, Forall_cons.
      cbn [fst snd]. rewrite E. tauto.
    + destruct (supplement_query_succeeds (a :: l) i (effective_day_index position d)
        (Z.of_nat (length (day_attractions d))) "最低景点数量回填") as [q Hq];
        try done; [apply effective_day_index_nonneg|lia|].
      rewrite Hq. cbn [mbind result_bind]. eexists. split; [reflexivity|].
      split; [done|]. rewrite Forall_cons. cbn [fst snd]. rewrite E. naive_solver.
Qed.
End QueryBounds.

(** Every located place of the plan has real coordinates. *)
Definition plan_places_ok (p : TripPlan) : Prop :=
  Forall (fun d =>
    Forall (fun a => geo_ok (at_location a) = true) (day_attractions d)
    ∧ (∀ place, hotel_stop (day_hotel d) = Some place → geo_ok (place_location place) = true))
    (plan_days p).

Lemma distinct_places_ok seen l : places_ok l → places_ok (distinct_places seen l).
Proof.
  intros Hl. revert seen. induction Hl as [|a l Ha _ IH]; intros seen; cbn [distinct_places]; [constructor|].
  case_bool_decide; [apply IH|]. constructor; [done|apply IH].
Qed.

Lemma resolve_day_hotels_from p position s r :
  resolve_day_hotels (plan_days p) position = (s, r) →
  (∀ h, s = Some h → ∃ d, d ∈ plan_days p ∧ day_hotel d = Some h)
  ∧ (∀ h, r = Some h → ∃ d, d ∈ plan_days p ∧ day_hotel d = Some h).
Proof.
  assert (Hloc : ∀ o h, located o = Some h → o = Some h).
  { intros [h'|] h; cbn; [|done]. by destruct (hotel_location h'); intros [= <-]. }
  assert (Hcur : ∀ h, match plan_days p !! position with Some d => located (day_hotel d) | None => None end
                      = Some h → ∃ d, d ∈ plan_days p ∧ day_hotel d = Some h).
  { intros h. destruct (plan_days p !! position) as [d|] eqn:Hd; [|done]. intros Hh%Hloc.
    exists d. split; [by eapply list_elem_of_lookup_2|done]. }
  unfold resolve_day_hotels. intros [= <- <-]. split; [|exact Hcur].
  intros h. destruct (match plan_days p !! position with Some d => _ | None => _ end) as [h'|] eqn:E.
  { intros [= ->]. by apply Hcur. }
  assert (Hfirst : ∀ l, first_some (fun d => located (day_hotel d)) l = Some h →
                   ∃ d, d ∈ l ∧ day_hotel d = Some h).
  { induction l as [|d l IH]; [done|]. cbn. destruct (located (day_hotel d)) as [h'|] eqn:Hl.
    - intros [= ->]. exists d. split; [left|by apply Hloc].
    - intros Hh. destruct (IH Hh) as (d' & ? & ?). exists d'. split; [by right|done]. }
  intros Hh. destruct (Hfirst _ Hh) as (d & Hd & ?). exists d. split; [|done].
  rewrite elem_of_reverse in Hd. apply elem_of_take in Hd as (i & Hd & _).
  by eapply list_elem_of_lookup_2.
Qed.

Lemma day_anchors_ok p position d :
  plan_places_ok p → d ∈ plan_days p → places_ok (day_anchors p position d).
Proof.
  intros Hp Hd. unfold day_anchors. destruct (resolve_day_hotels _ _) as [s r] eqn:E.
  destruct (resolve_day_hotels_from _ _ _ _ E) as [Hs Hr].
  unfold plan_places_ok in Hp. rewrite Forall_forall in Hp.
  assert (Hhotel : ∀ o place, (∀ h, o = Some h → ∃ d, d ∈ plan_days p ∧ day_hotel d = Some h) →
    hotel_stop o = Some place → geo_ok (place_location place) = true).
  { intros [h|] place Hfrom; [|done]. intros Hpl. destruct (Hfrom h eq_refl) as (d' & Hd' & Hh).
    apply (Hp d' Hd'). by rewrite Hh. }
  apply distinct_places_ok. apply Forall_app. split.
  - apply Forall_map. eapply Forall_impl; [apply (Hp d Hd)|]. done.
  - apply Forall_forall. intros place (o & Ho & Hpl)%list_elem_of_omap. unfold id in Hpl. subst o.
    rewrite !elem_of_cons in Ho. destruct Ho as [Ho|[Ho|[]%elem_of_nil]].
    + by apply (Hhotel s).
    + by apply (Hhotel r).
Qed.

(** every query of the supplementer respects the provider's limits and its
    radius grows by doubling between the configured bounds; for a plan with
    real coordinates and a named city the content refill query is always
    found, unless no day of the plan has a located place. *)
Theorem supplement_queries_valid ir mr ps pm c req p report i :
  new_supplementer ir mr ps pm = Ok c → 0 <= i →
  (∀ q, build_query c req p report i = Ok (Some q) ∨ build_content_refill_query c req p i = Ok (Some q) →
     supplement_query_ok q = true
     ∧ sp_radius_meters q = Z.min mr (ir * 2 ^ i) ∧ ir <= sp_radius_meters q <= mr
     ∧ sp_anchor_names q ≠ [])
  ∧ (plan_places_ok p → req_city req ≠ "" →
     ∃ o, build_content_refill_query c req p i = Ok o
       ∧ (o = None ↔ ∀ position d, plan_days p !! position = Some d → day_anchors p position d = [])).
Proof.
  intros Hnew Hi.
  assert (Hc : (100 <= su_initial_radius_meters c <= su_max_radius_meters c
    ∧ su_max_radius_meters c <= 50000 ∧ 1 <= su_page_size c <= 25)
    ∧ su_initial_radius_meters c = ir ∧ su_max_radius_meters c = mr).
  { revert Hnew. unfold new_supplementer.
    destruct (negb _) eqn:E1; [done|]. destruct (negb (_ && (mr <=? _))) eqn:E2; [done|].
    destruct (negb (_ && (ps <=? _))) eqn:E3; [done|]. destruct (pm <? 1); [done|]. intros [= <-].
    apply negb_false_iff, andb_true_iff in E1, E2, E3. rewrite !Z.leb_le in *. cbn. lia. }
  destruct Hc as (Hc & Hir & Hmr).
  assert (Hneg : (i <? 0) = false) by (apply Z.ltb_ge; lia).
  pose proof (search_radius_bounds c Hc i Hi) as Hrad.
  unfold build_query, build_content_refill_query. rewrite Hneg. split.
  - intros q Hq.
    assert (Hok : supplement_query_ok q = true ∧ sp_radius_meters q = search_radius c i ∧ sp_anchor_names q ≠ [])
      by (destruct Hq as [Hq|Hq]; [by eapply query_for_issues_Ok|by eapply query_for_days_Ok]).
    destruct Hok as (H1 & H2 & H3). rewrite H2. split_and!; try done; try lia.
    unfold search_radius. by rewrite Hir, Hmr.
  - intros Hp Hcity. set (days := py_sorted _ _).
    assert (Hperm : days ≡ₚ zip (seq 0 (length (plan_days p))) (plan_days p)) by apply py_sorted_perm.
    destruct (query_for_days_succeeds c req Hc p i days Hi Hcity) as (o & Ho & Hiff).
    { rewrite Hperm. apply Forall_forall. intros [position d] Hin%elem_of_zip_seq.
      apply day_anchors_ok; [done|]. by eapply list_elem_of_lookup_2. }
    exists o. split; [done|]. rewrite Hiff, Hperm, Forall_forall. split.
    + intros Hall position d Hd. apply (Hall (position, d)).
      apply list_elem_of_lookup. exists position. apply lookup_zip_with_Some.
      exists position, d. split; [done|]. split; [|done]. apply lookup_seq.
      split; [done|]. by apply lookup_lt_Some in Hd.
    + intros Hall [position d] Hin%elem_of_zip_seq. by apply Hall.
Qed.

(** ** Runs *)

Definition demo_pool : json :=
  JObj [("candidates", JArr
    [JObj [("name", JStr "天坛"); ("poi_id", JStr "t1"); ("address", JStr "x")];
     JObj [("name", JStr "北海"); ("poi_id", JStr "b1"); ("address", JStr "文津街")];
     JObj [("name", JStr "团城"); ("poi_id", JStr "tc"); ("address", JStr "文津街")]])].

(** Candidates next to the museum. *)
Definition near_model : CandidateModel :=
  {| cm_validate := fun item =>
       option_map (fun a => mkAttractionCandidate (ac_poi_id a) (ac_name a) (ac_address a)
                              (mkLocation (11636 # 100) (399 # 10)) "" "" "" None "" "" "" [])
         (@cm_validate demo_candidates item) |}.

Definition demo_replacement : PlanCandidate :=
  match @optimize_commute demo_math near_model (mkReplacement 24 120) trip_request trip_plan
          demo_commute (Some demo_pool) ["id:b1"] with
  | Ok (Some cand) => cand
  | _ => mkCandidate trip_plan [] [] []
  end.

(** The temple is in the plan and 北海 is excluded: 团城 replaces the temple. *)
Lemma replacement_sound_witness :
  cand_names demo_replacement = ["团城"]
  ∧ ∃ sources, replaces (H := demo_math) (mkReplacement 24 120) trip_plan sources demo_replacement.
Proof.
  split; [vm_compute; reflexivity|].
  edestruct (@replacement_sound demo_math near_model 24 120 (mkReplacement 24 120) trip_request trip_plan
    demo_commute (Some demo_pool) ["id:b1"] demo_replacement eq_refl) as (sources & Hr & _);
    [vm_compute; reflexivity|].
  exists sources. exact Hr.
Defined.

(** The third search of a commute issue. *)
Lemma supplement_queries_valid_witness :
  ∃ q, build_query (mkSupplement 5000 20000 20 48) trip_request trip_plan demo_commute 2 = Ok (Some q)
    ∧ sp_radius_meters q = 20000 ∧ sp_anchor_names q = ["首都博物馆"; "什刹海"]
    ∧ supplement_query_ok q = true.
Proof.
  eexists. split; [vm_compute; reflexivity|]. split; [reflexivity|]. split; [reflexivity|].
  eapply (proj1 (supplement_queries_valid 5000 20000 20 48 (mkSupplement 5000 20000 20 48) trip_request
    trip_plan demo_commute 2 eq_refl ltac:(lia))).
  left. vm_compute. reflexivity.
Defined.
