(* ===== verification/RestaurantHours.v ===== *)
(** Opening hours and meal times (src/app/plan_content/restaurant_hours.py). *)

From S2P Require Import Prelude PyData ClockText TripSchema AmapModels PlanReports.
From Stdlib Require Import ZArith QArith Lia String.
From stdpp Require Import base tactics option list strings.

Open Scope string_scope.
Open Scope Z_scope.

Inductive OpeningStatus := OpenDuring | ClosedDuring | UnknownHours.

#[export] Instance OpeningStatus_eq_dec : EqDecision OpeningStatus.
Proof. solve_decision. Defined.

Definition opening_status_value (s : OpeningStatus) : string :=
  match s with OpenDuring => "open" | ClosedDuring => "closed" | UnknownHours => "unknown" end.

Definition unknown_markers : list string := ["暂无"; "未知"; "待确认"; "未提供"].
Definition all_day_markers : list string := ["24小时"; "全天"; "24h"].

Definition minutes_per_day : Z := 24 * 60.

(** One match of the text as a range of minutes, if it is one. *)
Definition opening_range (m : (Z * Z) * (Z * Z)) : option (Z * Z) :=
  let '((start_h, start_m), (end_h, end_m)) := m in
  if (24 <? start_h) || (24 <? end_h) then None
  else if ((start_h =? 24) && negb (start_m =? 0)) || ((end_h =? 24) && negb (end_m =? 0)) then None
  else
    let start := start_h * 60 + start_m in
    let stop := end_h * 60 + end_m in
    if start =? stop then (if start =? 0 then Some (0, minutes_per_day) else None)
    else if stop <? start then Some (start, stop + minutes_per_day) else Some (start, stop).

Definition parse_opening_ranges (opening_hours : string) : list (Z * Z) :=
  let text := py_strip opening_hours in
  if String.eqb text "" || existsb (fun marker => str_contains marker text) unknown_markers then []
  else if existsb (fun marker => str_contains marker (squash (ascii_lower text))) all_day_markers
  then [(0, minutes_per_day)]
  else omap opening_range (find_clock_ranges text).

Definition covers (start stop : Z) (range : Z * Z) (offset : Z) : bool :=
  (range.1 + offset <=? start) && (stop <=? range.2 + offset).

Definition opening_status_for_interval (opening_hours : string) (start_minute end_minute : Z)
    : OpeningStatus :=
  match parse_opening_ranges opening_hours with
  | [] => UnknownHours
  | ranges =>
      if end_minute <=? start_minute then ClosedDuring
      else if existsb (fun r => covers start_minute end_minute r 0
                                || covers start_minute end_minute r minutes_per_day) ranges
      then OpenDuring else ClosedDuring
  end.

Definition format_opening_ranges (opening_hours : string) : list string :=
  map (fun r : Z * Z => format_clock r.1 ++ "-" ++ format_clock r.2)
    (parse_opening_ranges opening_hours).

(** ** Meal times *)

Record MealServiceInterval := mkServiceInterval {
  ms_meal_type : string; ms_start_minute : Z; ms_end_minute : Z
}.
Definition ms_start_time (i : MealServiceInterval) : string := format_clock (ms_start_minute i).
Definition ms_end_time (i : MealServiceInterval) : string := format_clock (ms_end_minute i).

Record MealServices := mkMealServices {
  me_breakfast : MealServiceInterval; me_lunch : MealServiceInterval; me_dinner : MealServiceInterval
}.

(** Lunch interval and last end of the items whose clocks can be read. *)
Fixpoint scan_timeline (items : list TimelineItem) (lunch : Z * Z) (last_end : Z) : (Z * Z) * Z :=
  match items with
  | [] => (lunch, last_end)
  | item :: items =>
      match parse_clock (ti_start_time item), parse_clock (ti_end_time item) with
      | Ok start, Ok stop =>
          scan_timeline items
            (if String.eqb (ti_item_type item) "meal" then (start, stop) else lunch)
            (Z.max last_end stop)
      | _, _ => scan_timeline items lunch last_end
      end
  end.

Definition meal_service_intervals (schedule_day : option DayScheduleQuality)
    (lunch_window_start lunch_window_end : string) : result exn MealServices :=
  window_start ← parse_clock lunch_window_start;
  window_end ← parse_clock lunch_window_end;
  if window_end <=? window_start
  then Err (ValueError "lunch_window_end must be later than lunch_window_start")
  else
    let timeline := match schedule_day with Some d => ds_timeline d | None => [] end in
    let '((start, stop), last_end) := scan_timeline timeline (12 * 60, 13 * 60) (18 * 60) in
    let duration := Z.min (Z.max 1 (stop - start)) (window_end - window_start) in
    let latest := window_end - duration in
    let start := Z.min (Z.max start window_start) latest in
    let dinner := Z.max (18 * 60) last_end in
    mret (mkMealServices (mkServiceInterval "breakfast" (8 * 60) (8 * 60 + 45))
            (mkServiceInterval "lunch" start (start + duration))
            (mkServiceInterval "dinner" dinner (dinner + 60))).

(** ** Properties *)

Lemma digit_range c d : digit_of c = Some d → 0 <= d <= 9.
Proof.
  unfold digit_of. destruct (_ && _) eqn:E; [|done]. intros [= <-].
  apply andb_true_iff in E as [E1 E2]. apply N.leb_le in E1, E2. lia.
Qed.

Lemma digit_pair_range s n rest : digit_pair s = Some (n, rest) → 0 <= n <= 99.
Proof.
  unfold digit_pair. destruct s as [|a [|b s]]; try done.
  destruct (digit_of a) as [x|] eqn:Ha; [|done]. destruct (digit_of b) as [y|] eqn:Hb; [|done].
  apply digit_range in Ha, Hb. intros [= <- <-]. lia.
Qed.

(** Hours up to 29 and minutes up to 59 are all the expression can match. *)
Lemma clock_at_range s h m rest : clock_at s = Some (h, m, rest) → 0 <= h < 30 ∧ 0 <= m < 60.
Proof.
  unfold clock_at.
  assert (Hm : ∀ h' t, minute_after h' t = Some (h, m, rest) → h' = h ∧ 0 <= m < 60).
  { intros h' t. unfold minute_after. destruct t as [|c t]; [done|].
    destruct c as [[] [] [] [] [] [] [] []]; try done.
    destruct (digit_pair t) as [[m' rest']|] eqn:Hp; [|done]. apply digit_pair_range in Hp.
    destruct (Z.ltb_spec m' 60); [|done]. intros [= -> -> ->]. lia. }
  destruct (digit_pair s) as [[h' t]|] eqn:Hp.
  - apply digit_pair_range in Hp. destruct (Z.ltb_spec h' 30); [|done].
    intros Hs. apply Hm in Hs as [-> ?]. lia.
  - destruct s as [|c s]; [done|]. destruct (digit_of c) as [d|] eqn:Hd; [|done].
    apply digit_range in Hd. intros Hs. apply Hm in Hs as [-> ?]. lia.
Qed.

Lemma clock_ranges_valid fuel s :
  Forall (fun r : (Z * Z) * (Z * Z) => 0 <= r.1.1 < 30 ∧ 0 <= r.1.2 < 60 ∧ 0 <= r.2.1 < 30 ∧ 0 <= r.2.2 < 60)
    (clock_ranges fuel s).
Proof.
  revert s. induction fuel as [|fuel IH]; intros s; cbn [clock_ranges]; [constructor|].
  destruct (clock_range_at s) as [[[start stop] rest]|] eqn:Hr;
    [|destruct s; [constructor|apply IH]].
  constructor; [|apply IH]. unfold clock_range_at in Hr.
  destruct (clock_at s) as [[[h m] t]|] eqn:Hs; [|done].
  destruct (find _ _) as [mark|]; [|done].
  destruct (clock_at (lstrip_go 0 _)) as [[[h' m'] t']|] eqn:He; [|done].
  injection Hr as <- <- <-. apply clock_at_range in Hs, He. simpl. lia.
Qed.

(** what the opening hours mean.  A range the parser returns begins on the
    day itself, lasts at most one day and is not empty, unless the text says
    24:00-00:00.  A visit is only
    called open when one of the ranges contains all of it, on that day or
    on the one the range was shifted to, and unknown exactly when the text
    gives no range. *)
Theorem opening_hours_sound opening_hours start stop :
  Forall (fun r : Z * Z => 0 <= r.1 <= minutes_per_day ∧ r.2 <= r.1 + minutes_per_day
                           ∧ (r.1 < r.2 ∨ r.1 = minutes_per_day ∧ r.2 = minutes_per_day))
    (parse_opening_ranges opening_hours)
  ∧ (opening_status_for_interval opening_hours start stop = UnknownHours ↔
     parse_opening_ranges opening_hours = [])
  ∧ (opening_status_for_interval opening_hours start stop = OpenDuring ↔
     start < stop ∧ ∃ r k, r ∈ parse_opening_ranges opening_hours ∧ (k = 0 ∨ k = 1)
       ∧ r.1 + k * minutes_per_day <= start ∧ stop <= r.2 + k * minutes_per_day).
Proof.
  split; [|split].
  - unfold parse_opening_ranges. destruct (_ || _); [constructor|].
    destruct (existsb _ _); [repeat constructor; simpl; unfold minutes_per_day; lia|].
    pose proof (clock_ranges_valid (String.length (py_strip opening_hours)) (py_strip opening_hours)) as Hv.
    apply Forall_forall. intros r (m & Hm & Hr)%list_elem_of_omap.
    rewrite Forall_forall in Hv. specialize (Hv m Hm). destruct m as [[h1 m1] [h2 m2]]. simpl in Hv.
    unfold opening_range, minutes_per_day in *.
    destruct ((24 <? h1) || (24 <? h2)) eqn:E1; [done|].
    destruct ((h1 =? 24) && _ || _) eqn:E2; [done|].
    apply orb_false_iff in E1 as [E1 E1']. apply Z.ltb_ge in E1, E1'.
    destruct (Z.eqb_spec (h1 * 60 + m1) (h2 * 60 + m2)).
    + destruct (Z.eqb_spec (h1 * 60 + m1) 0); [|done]. injection Hr as <-. simpl. lia.
    + apply orb_false_iff in E2 as [E2 E2'].
      assert (h1 * 60 + m1 <= 1440 ∧ h2 * 60 + m2 <= 1440).
      { destruct (Z.eqb_spec h1 24), (Z.eqb_spec h2 24), (Z.eqb_spec m1 0), (Z.eqb_spec m2 0);
          simpl in *; try done; lia. }
      destruct (Z.ltb_spec (h2 * 60 + m2) (h1 * 60 + m1)); injection Hr as <-; simpl; lia.
  - unfold opening_status_for_interval. destruct (parse_opening_ranges _) as [|r rs]; [done|].
    destruct (stop <=? start); [done|]. by destruct (existsb _ _).
  - unfold opening_status_for_interval. destruct (parse_opening_ranges _) as [|r rs].
    { split; [done|]. intros (_ & r & k & []%elem_of_nil & _). }
    destruct (Z.leb_spec stop start); [split; [done|lia]|].
    destruct (existsb _ _) eqn:E.
    + split; [intros _|done]. split; [done|].
      apply existsb_exists in E as (x & Hx & Hcov). apply list_elem_of_In in Hx.
      unfold covers in Hcov. rewrite orb_true_iff, !andb_true_iff, !Z.leb_le in Hcov.
      destruct Hcov as [[H1 H2]|[H1 H2]]; [exists x, 0|exists x, 1]; split_and!; auto; lia.
    + split; [done|]. intros (_ & x & k & Hx & Hk & H1 & H2). exfalso.
      apply not_true_iff_false in E. apply E, existsb_exists. exists x.
      split; [by apply list_elem_of_In|]. unfold covers.
      rewrite orb_true_iff, !andb_true_iff, !Z.leb_le. lia.
Qed.

Lemma scan_timeline_last items lunch last_end lunch' last_end' :
  scan_timeline items lunch last_end = (lunch', last_end') →
  last_end <= last_end'
  ∧ ∀ item start stop, item ∈ items → parse_clock (ti_start_time item) = Ok start →
      parse_clock (ti_end_time item) = Ok stop → stop <= last_end'.
Proof.
  revert lunch last_end. induction items as [|i items IH]; intros lunch last_end; cbn [scan_timeline].
  - intros [= <- <-]. split; [lia|]. by intros ? ? ? ?%elem_of_nil.
  - destruct (parse_clock (ti_start_time i)) as [s|] eqn:Hs;
      [destruct (parse_clock (ti_end_time i)) as [e|] eqn:He|]; intros Hscan;
      apply IH in Hscan as [Hle Hall]; (split; [lia|]);
      intros item start stop [->|Hin]%elem_of_cons H1 H2; try congruence; try (by eapply Hall).
    rewrite He in H2. injection H2 as <-. lia.
Qed.

(** the meal times of any schedule day: lunch lies inside the configured
    window, dinner begins at six or after the last item of the day whose clocks
    can be read, whichever is later. *)
Theorem meal_times_sound day lunch_window_start lunch_window_end ws we services :
  parse_clock lunch_window_start = Ok ws → parse_clock lunch_window_end = Ok we →
  meal_service_intervals day lunch_window_start lunch_window_end = Ok services →
  ws <= ms_start_minute (me_lunch services)
  ∧ ms_start_minute (me_lunch services) < ms_end_minute (me_lunch services)
  ∧ ms_end_minute (me_lunch services) <= we
  ∧ 18 * 60 <= ms_start_minute (me_dinner services)
  ∧ ms_end_minute (me_dinner services) = ms_start_minute (me_dinner services) + 60
  ∧ (∀ d item start stop, day = Some d → item ∈ ds_timeline d →
       parse_clock (ti_start_time item) = Ok start → parse_clock (ti_end_time item) = Ok stop →
       stop <= ms_start_minute (me_dinner services)).
Proof.
  intros Hws Hwe. unfold meal_service_intervals. rewrite Hws, Hwe. cbn [mbind result_bind].
  destruct (Z.leb_spec we ws); [done|].
  set (timeline := match day with Some d => ds_timeline d | None => [] end).
  destruct (scan_timeline timeline _ _) as [[start stop] last_end] eqn:Hscan. intros [= <-].
  apply scan_timeline_last in Hscan as [Hle Hall]. cbn -[Z.min Z.max Z.mul].
  split_and!; try lia. intros d item s e -> Hin H1 H2. pose proof (Hall _ _ _ Hin H1 H2). lia.
Qed.

(** ** Runs *)

Definition late_day : DayScheduleQuality :=
  mkDaySchedule 0 "" 540 0 0 0 0 0 0 0 0 0 0 true
    [mkTimelineItem "meal" "午餐" "13:30" "15:30" 120 0 None None;
     mkTimelineItem "attraction" "夜市" "18:00" "20:40" 160 0 None None].

(** A late meal of two hours moves back into the window; dinner follows the day. *)
Lemma meal_times_sound_witness :
  ∃ services, meal_service_intervals (Some late_day) "11:30" "14:00" = Ok services
    ∧ ms_start_time (me_lunch services) = "12:00" ∧ ms_end_time (me_lunch services) = "14:00"
    ∧ ms_start_time (me_dinner services) = "20:40"
    ∧ ms_end_minute (me_lunch services) <= 840.
Proof.
  eexists. split; [vm_compute; reflexivity|].
  split; [vm_compute; reflexivity|]. split; [vm_compute; reflexivity|]. split; [vm_compute; reflexivity|].
  eapply (proj1 (proj2 (proj2 (meal_times_sound (Some late_day) "11:30" "14:00" 690 840 _ eq_refl eq_refl _)))).
  Unshelve. vm_compute. reflexivity.
Defined.

Example opening_hours_demo :
  map (fun s => opening_status_for_interval s 1500 1560)
    ["18:00-02:00"; "10:00-22:00"; "全天营业"; "暂无"; "周一至周五"]
  = [OpenDuring; ClosedDuring; OpenDuring; UnknownHours; UnknownHours].
Proof. vm_compute. reflexivity. Qed.
