(* ===== verification/Rebuilder.v ===== *)
(** [TripPlanConsistencyRebuilder] (src/app/plan_content/rebuilder.py): the
    descriptions, the meals and the budget of a plan, rebuilt from its hotels,
    its attractions, the real routes and the real restaurants.

    [rebuild_sound] states what stays and what the rebuilt parts satisfy;
    [rebuild_keeps_routes] when the routes stay valid for the rebuilt plan, and
    [rebuild_changes_mode] that a day without a usable route can break it. *)

From S2P Require Import Prelude FloatMath PyData ClockText TripSchema AmapModels PlanReports PlanEdits OrderedDict PlanRoutes PlanContent.
From S2P Require Import RouteScoring Commute RestaurantHours.
From Stdlib Require Import ZArith QArith Qround Lia Lqa Ascii String Sorted.
From stdpp Require Import base tactics option list strings.

Open Scope string_scope.
Open Scope Z_scope.

(** [RestaurantCandidate] (src/app/providers/amap/models.py) *)
Record RestaurantCandidate := mkRestaurant {
  rc_poi_id : string; rc_name : string; rc_address : string; rc_location : Location;
  rc_rating : option Q; rc_telephone : string; rc_category : string; rc_opening_hours : string;
  rc_average_cost : option Q; rc_distance_meters : option Z; rc_day_index : Z;
  rc_meal_type : string
}.

Definition mode_label (m : RouteMode) : string :=
  match m with walking => "步行" | driving => "驾车" | transit => "公共交通" end.

Definition leg_order (t : RouteLegType) : Z :=
  match t with hotel_departure => 0 | between_attractions => 1 | hotel_return => 2 end.

(** ** Descriptions *)

Definition describe_day (date : string) (attractions : list Attraction) : string :=
  if bool_decide (attractions = []) then
    date ++ " 暂无固定景点安排，可在酒店或市区周边自由活动并预留休息时间。"
  else
    date ++ " 按顺序游览" ++ String.concat "、" (map at_name attractions)
    ++ "，景点游览时间合计约" ++ str_of_Z (zsum (map (fun a => Z.max 0 (at_visit_duration a)) attractions))
    ++ "分钟。".

(** The usable routes with their durations. *)
Definition usable_routes (routes : list RouteEstimate) : list (RouteEstimate * Z) :=
  omap (fun r => (fun s => (r, s)) <$> usable_duration r) routes.

Definition describe_segment (rs : RouteEstimate * Z) : string :=
  let '(r, seconds) := rs in
  let minutes := Z.max 1 (Qceiling (inject_Z seconds / 60)) in
  let distance := match re_distance_meters r with
                  | Some m => "，约" ++ format_1f (inject_Z m / 1000) ++ "公里"
                  | None => ""
                  end in
  re_origin_name r ++ "→" ++ re_destination_name r
  ++ "（" ++ mode_label (re_mode r) ++ "约" ++ str_of_Z minutes ++ "分钟" ++ distance ++ "）".

Definition describe_transportation (req : TripRequest) (attractions : list Attraction)
    (routes : list RouteEstimate) (existing : string) : string :=
  let mode := mode_label (normalize_transportation_mode (str_or existing (req_transportation req))) in
  let usable := usable_routes routes in
  if bool_decide (usable = []) then
    if bool_decide (attractions = []) then
      "当日无固定景点路线，市内活动建议使用" ++ mode ++ "。"
    else
      "建议以" ++ mode ++ "依次前往" ++ String.concat "→" (map at_name attractions)
      ++ "，出发前再次确认实时路线。"
  else
    "出行方式：" ++ mode ++ "；" ++ String.concat "；" (map describe_segment usable) ++ "。".

Definition describe_accommodation (req : TripRequest) (hotel : option Hotel) : string :=
  match hotel with
  | None => "当日未绑定具体酒店，按“" ++ req_accommodation req ++ "”偏好自行确认住宿或返程。"
  | Some h =>
      let cost := if 0 <? hotel_estimated_cost h
                  then "，预计" ++ str_of_Z (hotel_estimated_cost h) ++ "元/晚" else "" in
      "入住" ++ hotel_name h ++ "（" ++ str_or (hotel_address h) "地址以预订信息为准" ++ cost ++ "）。"
  end.

(** ** Meals *)

(** What a meal is arranged around: a hotel or an attraction. *)
Record MealAnchor := mkMealAnchor {
  an_name : string; an_address : string; an_location : option Location
}.
Definition hotel_anchor (h : Hotel) : MealAnchor :=
  mkMealAnchor (hotel_name h) (hotel_address h) (hotel_location h).
Definition attraction_anchor (a : Attraction) : MealAnchor :=
  mkMealAnchor (at_name a) (at_address a) (Some (at_location a)).

(** One turn of the loop over the meals: what the dictionaries hold for it. *)
Record MealSlot := mkMealSlot {
  sl_type : string; sl_label : string; sl_cost : Z; sl_interval : MealServiceInterval;
  sl_anchor : option MealAnchor
}.

Definition restaurant_identity (c : RestaurantCandidate) : string :=
  str_or (rc_poi_id c) (rc_name c ++ "|" ++ rc_address c).

Definition status_at (i : MealServiceInterval) (c : RestaurantCandidate) : OpeningStatus :=
  opening_status_for_interval (rc_opening_hours c) (ms_start_minute i) (ms_end_minute i).

Definition status_rank (s : OpeningStatus) : Z :=
  match s with OpenDuring => 0 | _ => 1 end.

Definition restaurant_before (i : MealServiceInterval) (x y : RestaurantCandidate) : bool :=
  lexZ (status_rank (status_at i x)) (status_rank (status_at i y))
    (lexZ (default (10 ^ 9) (rc_distance_meters x)) (default (10 ^ 9) (rc_distance_meters y))
      (lexQ (- default (-1)%Q (rc_rating x)) (- default (-1)%Q (rc_rating y))
        (String.leb (rc_name x) (rc_name y)))).

(** The candidates of a meal that are neither used nor closed. *)
Definition eligible (used : list string) (slot : MealSlot) (day : list RestaurantCandidate)
    : list RestaurantCandidate :=
  filter (fun c => rc_meal_type c = sl_type slot ∧ restaurant_identity c ∉ used
                   ∧ status_at (sl_interval slot) c ≠ ClosedDuring) day.

Definition restaurant_meal (slot : MealSlot) (c : RestaurantCandidate) : Meal :=
  let i := sl_interval slot in
  let cost := match rc_average_cost c with Some q => Z.max 0 (py_round q) | None => sl_cost slot end in
  let distance := match rc_distance_meters c with
                  | Some m => "，距行程锚点约" ++ str_of_Z m ++ "米"
                  | None => ""
                  end in
  let note := match status_at i c with
              | OpenDuring => "营业时间覆盖预计用餐时段"
              | _ => "营业时间未知，出发前请再次确认"
              end in
  mkMeal (sl_type slot) (rc_name c) (Some (rc_address c)) (Some (rc_location c))
    (Some ("高德真实餐饮候选" ++ distance ++ "；" ++ note ++ "。")) cost (rc_poi_id c) (rc_rating c)
    (rc_telephone c) (rc_category c) (rc_opening_hours c) "amap" (ms_start_time i) (ms_end_time i)
    (opening_status_value (status_at i c)).

Definition fallback_meal (req : TripRequest) (slot : MealSlot) : Meal :=
  let anchor_name := match sl_anchor slot with
                     | Some a => an_name a
                     | None => req_city req ++ "市区"
                     end in
  mkMeal (sl_type slot) (anchor_name ++ "附近" ++ sl_label slot) (an_address <$> sl_anchor slot)
    (sl_anchor slot ≫= an_location)
    (Some ("未获得营业时间匹配的真实餐厅，围绕当天实际地点安排" ++ sl_label slot ++ "，到店前确认营业状态。"))
    (sl_cost slot) "" None "" "" "" "fallback" (ms_start_time (sl_interval slot))
    (ms_end_time (sl_interval slot)) "fallback".

Fixpoint serve_meals (req : TripRequest) (day : list RestaurantCandidate) (used : list string)
    (slots : list MealSlot) : list Meal :=
  match slots with
  | [] => []
  | slot :: slots =>
      match py_sorted (restaurant_before (sl_interval slot)) (eligible used slot day) with
      | c :: _ => restaurant_meal slot c :: serve_meals req day (restaurant_identity c :: used) slots
      | [] => fallback_meal req slot :: serve_meals req day used slots
      end
  end.

Definition meal_slots (attractions : list Attraction) (start_hotel return_hotel : option Hotel)
    (times : MealServices) : list MealSlot :=
  let middle := attraction_anchor <$> attractions !! (length attractions / 2)%nat in
  let last := attraction_anchor <$> last attractions in
  let start := hotel_anchor <$> start_hotel in
  let back := hotel_anchor <$> return_hotel in
  [mkMealSlot "breakfast" "早餐" 25 (me_breakfast times) (first_some id [start; middle]);
   mkMealSlot "lunch" "午餐" 50 (me_lunch times) (first_some id [middle; start; back]);
   mkMealSlot "dinner" "晚餐" 70 (me_dinner times) (first_some id [back; last; start])].

(** The lunch window of the constructor. *)
Record RebuilderSettings := mkRebuilder {
  rw_lunch_window_start : string; rw_lunch_window_end : string
}.

Definition build_meals (c : RebuilderSettings) (req : TripRequest) (attractions : list Attraction)
    (day_index : Z) (restaurants : option (list RestaurantCandidate))
    (schedule_day : option DayScheduleQuality) (start_hotel return_hotel : option Hotel)
    : result exn (list Meal) :=
  times ← meal_service_intervals schedule_day (rw_lunch_window_start c) (rw_lunch_window_end c);
  let day := filter (fun r => rc_day_index r = day_index) (default [] restaurants) in
  mret (serve_meals req day [] (meal_slots attractions start_hotel return_hotel times)).

(** ** Budget *)

Definition route_cost (r : RouteEstimate) : Z :=
  match re_available r, re_distance_meters r with
  | true, Some meters =>
      let km := (inject_Z meters / 1000)%Q in
      match re_mode r with
      | walking => 0
      | transit => Z.max 2 (Qceiling (2 + km * (45 # 100)))
      | driving => Z.max 12 (Qceiling (12 + km * (24 # 10)))
      end
  | _, _ => 0
  end.

Definition build_budget (days : list DayPlan) (routes : option RouteEstimateResult) : Budget :=
  let attractions := zsum (map (fun a => Z.max 0 (at_ticket_price a)) (concat (map day_attractions days))) in
  let hotels := zsum (map (fun h => Z.max 0 (hotel_estimated_cost h)) (omap day_hotel days)) in
  let meals := zsum (map (fun m => Z.max 0 (meal_estimated_cost m)) (concat (map day_meals days))) in
  let transportation := zsum (map route_cost (match routes with Some r => rr_routes r | None => [] end)) in
  mkBudget attractions hotels meals transportation (attractions + hotels + meals + transportation).

(** ** The whole plan *)

Definition suggest_overall (req : TripRequest) (days : list DayPlan)
    (schedule : option ScheduleQualityReport) : string :=
  let names := map at_name (concat (map day_attractions days)) in
  (if bool_decide (names = [])
   then "当前没有可执行的固定景点，请补充候选景点后再出发。"
   else "本次行程包含" ++ String.concat "、" names ++ "，请提前核对开放时间并按最终顺序出行。")
  ++ match schedule with
     | Some s => if sq_total_overtime_minutes s =? 0
                 then " 当前时间轴无超时，仍建议每天预留机动时间。" else ""
     | None => ""
     end
  ++ " 市内交通按“" ++ req_transportation req ++ "”规划，费用与班次以出行当日实时信息为准。".

Section Rebuild.
Context (c : RebuilderSettings) (req : TripRequest).
Context (routes : option RouteEstimateResult) (schedule : option ScheduleQualityReport).
Context (restaurants : option (list RestaurantCandidate)).

(** [schedule_by_day]: the last report of an index wins. *)
Definition schedule_day_of (index : Z) : option DayScheduleQuality :=
  match schedule with
  | Some s => find (fun d => ds_day_index d =? index) (reverse (sq_days s))
  | None => None
  end.

Definition leg_before (x y : RouteEstimate) : bool :=
  lexZ (leg_order (re_leg_type x)) (leg_order (re_leg_type y)) (re_leg_index x <=? re_leg_index y).

Definition routes_of_day (index : Z) : list RouteEstimate :=
  py_sorted leg_before
    (filter (fun r => re_day_index r = index) (match routes with Some r => rr_routes r | None => [] end)).

(** One turn of the loop over the days; [resolve_day_hotels] reads the hotels
    of the copy, which the loop never assigns. *)
Definition rebuild_day (days : list DayPlan) (position : nat) (d : DayPlan) : result exn DayPlan :=
  let index := effective_day_index position d in
  let '(start_hotel, return_hotel) := resolve_day_hotels days position in
  meals ← build_meals c req (day_attractions d) index restaurants (schedule_day_of index)
            start_hotel return_hotel;
  mret (mkDayPlan (day_date d) (day_index d) (describe_day (day_date d) (day_attractions d))
          (describe_transportation req (day_attractions d) (routes_of_day index) (day_transportation d))
          (describe_accommodation req (day_hotel d)) (day_hotel d) (day_attractions d) meals).

Definition rebuild_plan (p : TripPlan) : result exn TripPlan :=
  days ← mapM id (imap (rebuild_day (plan_days p)) (plan_days p));
  mret (mkTripPlan (plan_city p) (plan_start_date p) (plan_end_date p) days (plan_weather_info p)
          (suggest_overall req days schedule) (Some (build_budget days routes))).
End Rebuild.

(** ** Texts *)

(** A byte no white-space code point begins with. *)
Definition ink_char (a : ascii) : bool :=
  let n := byte_of a in
  (33 <=? n)%N && negb ((n =? 194) || (n =? 225) || (n =? 226) || (n =? 227))%N.

Lemma ink_ws_len a s : ink_char a = true → ws_len (String a s) = 0%nat.
Proof.
  unfold ink_char. rewrite andb_true_iff, negb_true_iff, !orb_false_iff.
  intros (E & ((E1 & E2) & E3) & E4). unfold ws_len. set (n := byte_of a) in *.
  apply N.leb_le in E.
  assert ((n <=? 13)%N = false) as -> by (apply N.leb_gt; lia).
  rewrite E1, E2, E3, E4.
  destruct (N.leb_spec n 32); [lia|]. rewrite !andb_false_r. cbn [andb orb].
  destruct s as [|b [|d s]]; reflexivity.
Qed.

Lemma split_go_nonempty cur s : cur ≠ "" → py_split_go 0 cur s ≠ [].
Proof.
  revert cur. induction s as [|a s IH]; intros cur Hcur; cbn [py_split_go].
  - unfold flush. by apply String.eqb_neq in Hcur as ->.
  - destruct (ws_len _); [apply IH; by destruct cur|].
    unfold flush. by apply String.eqb_neq in Hcur as ->.
Qed.

Lemma ink_rstrip pre s : all_chars ink_char pre = true → py_rstrip (pre ++ s) = pre ++ py_rstrip s.
Proof.
  induction pre as [|a pre IH]; [done|]. cbn [all_chars]. rewrite andb_true_iff. intros [Ha Hp].
  rewrite !append_cons. cbn [py_rstrip]. unfold is_blank at 1, py_split. cbn [py_split_go].
  rewrite ink_ws_len by done.
  destruct (py_split_go _ _ _) eqn:E; [by apply split_go_nonempty in E|]. by rewrite IH.
Qed.

Lemma ink_strip a pre s :
  all_chars ink_char (String a pre) = true →
  py_strip (String a pre ++ s) = String a pre ++ py_rstrip s.
Proof.
  intros Hp. unfold py_strip. rewrite append_cons. cbn [lstrip_go]. rewrite ink_ws_len.
  - by rewrite <- append_cons, ink_rstrip.
  - cbn [all_chars] in Hp. by apply andb_true_iff in Hp as [? _].
Qed.

Lemma ascii_lower_app s t : ascii_lower (s ++ t) = ascii_lower s ++ ascii_lower t.
Proof. induction s as [|a s IH]; [done|]. rewrite !append_cons. cbn [ascii_lower]. by rewrite IH. Qed.

(** The mode a transportation text declares is the one it is read back with. *)
Lemma declared_mode_read m rest :
  normalize_transportation_mode ("出行方式：" ++ mode_label m ++ "；" ++ rest) = m.
Proof.
  assert (E : ∀ t, "出行方式：" ++ mode_label m ++ "；" ++ t = ("出行方式：" ++ mode_label m ++ "；") ++ t).
  { intros t. by rewrite <- !append_assoc_str. }
  unfold normalize_transportation_mode. rewrite E.
  set (pre := "出行方式：" ++ mode_label m ++ "；").
  destruct m; (let p := eval vm_compute in pre in change pre with p); clear;
    rewrite ink_strip, ascii_lower_app by (vm_compute; reflexivity);
    generalize (ascii_lower (py_rstrip rest)); intros [|a tail]; vm_compute; reflexivity.
Qed.

(** ** Meals *)

Lemma restaurant_before_total i x y : restaurant_before i x y = true ∨ restaurant_before i y x = true.
Proof. unfold restaurant_before. apply lexZ_total, lexZ_total, lexQ_total, String.leb_total. Qed.

(** What the choice of a restaurant for one meal promises: the best of the
    eligible ones, none only when there is none. *)
Definition choice_ok (day : list RestaurantCandidate) (used : list string) (slot : MealSlot)
    (o : option RestaurantCandidate) : Prop :=
  match o with
  | Some r => r ∈ eligible used slot day
      ∧ ∀ r', r' ∈ eligible used slot day → restaurant_before (sl_interval slot) r r' = true
  | None => eligible used slot day = []
  end.

Definition served_meal (req : TripRequest) (slot : MealSlot) (o : option RestaurantCandidate) : Meal :=
  match o with Some r => restaurant_meal slot r | None => fallback_meal req slot end.

(** The choices of a day, each made without the restaurants chosen before it. *)
Inductive choices (day : list RestaurantCandidate) :
    list string → list MealSlot → list (option RestaurantCandidate) → Prop :=
| choices_nil used : choices day used [] []
| choices_some used slot slots r os :
    choice_ok day used slot (Some r) → choices day (restaurant_identity r :: used) slots os →
    choices day used (slot :: slots) (Some r :: os)
| choices_none used slot slots os :
    choice_ok day used slot None → choices day used slots os →
    choices day used (slot :: slots) (None :: os).

Lemma restaurant_before_trans i x y z :
  restaurant_before i x y = true → restaurant_before i y z = true → restaurant_before i x z = true.
Proof. unfold restaurant_before. apply lexZ_trans, lexZ_trans, lexQ_trans, leb_trans_str. Qed.

Lemma head_choice day used slot r rest :
  py_sorted (restaurant_before (sl_interval slot)) (eligible used slot day) = r :: rest →
  choice_ok day used slot (Some r).
Proof.
  intros Hs.
  pose proof (py_sorted_perm (restaurant_before (sl_interval slot)) (eligible used slot day)) as Hp.
  pose proof (py_sorted_sorted (restaurant_before (sl_interval slot))
                (restaurant_before_total _) (restaurant_before_trans _) (eligible used slot day)) as Hso.
  rewrite Hs in Hp, Hso. apply StronglySorted_inv in Hso as [_ Hall]. split.
  - rewrite <- Hp. left.
  - intros r' Hr'. rewrite <- Hp in Hr'. apply elem_of_cons in Hr' as [->|Hr'].
    + destruct (restaurant_before_total (sl_interval slot) r r); done.
    + rewrite Forall_forall in Hall. by apply Hall.
Qed.

Lemma serve_meals_choices req day used slots :
  ∃ os, choices day used slots os ∧ serve_meals req day used slots = zip_with (served_meal req) slots os.
Proof.
  revert used. induction slots as [|slot slots IH]; intros used; cbn [serve_meals].
  { exists []. split; [constructor|done]. }
  destruct (py_sorted _ _) as [|r rest] eqn:Hs.
  - destruct (IH used) as (os & Hos & ->). exists (None :: os). split; [|done]. constructor; [|done].
    pose proof (py_sorted_perm (restaurant_before (sl_interval slot)) (eligible used slot day)) as Hp.
    rewrite Hs in Hp. by apply Permutation_nil in Hp.
  - destruct (IH (restaurant_identity r :: used)) as (os & Hos & ->). exists (Some r :: os).
    split; [|done]. constructor; [by eapply head_choice|done].
Qed.

(** A restaurant serves one meal a day, of its own kind, and is not closed. *)
Lemma choices_distinct day used slots os :
  choices day used slots os →
  NoDup (map restaurant_identity (omap id os))
  ∧ (∀ r, Some r ∈ os → restaurant_identity r ∉ used)
  ∧ Forall2 (fun slot o => match o with
       | Some r => r ∈ day ∧ rc_meal_type r = sl_type slot ∧ status_at (sl_interval slot) r ≠ ClosedDuring
       | None => True
       end) slots os.
Proof.
  induction 1 as [used|used slot slots r os Hc Hos (Hnd & Hu & Hall)|used slot slots os Hc Hos (Hnd & Hu & Hall)].
  - split; [constructor|]. split; [intros r Hr; by apply elem_of_nil in Hr|constructor].
  - destruct Hc as [Hin _]. unfold eligible in Hin. apply list_elem_of_filter in Hin as [(Ht & Hn & Hs) Hd].
    split; [|split].
    + cbn. constructor; [|done]. rewrite list_elem_of_fmap. intros (r' & He & Hr').
      apply list_elem_of_omap in Hr' as (o & Ho & Hid). unfold id in Hid. subst o.
      apply (Hu r' Ho). rewrite He. left.
    + intros r' [[= ->]|Hr']%elem_of_cons; [done|]. intros Hin. apply (Hu r' Hr'). by right.
    + constructor; done.
  - split; [done|]. split; [|by constructor]. intros r [?|Hr]%elem_of_cons; [done|by apply Hu].
Qed.

(** ** The rebuilt plan *)

Lemma route_cost_nonneg r : 0 <= route_cost r.
Proof. unfold route_cost. repeat case_match; lia. Qed.

Lemma served_cost_nonneg req slot o : 0 <= sl_cost slot → 0 <= meal_estimated_cost (served_meal req slot o).
Proof. intros Hs. destruct o as [r|]; cbn; [|done]. destruct (rc_average_cost r); lia. Qed.

Lemma meal_slots_costs attractions start_hotel return_hotel times :
  Forall (fun s => 0 <= sl_cost s) (meal_slots attractions start_hotel return_hotel times).
Proof. repeat constructor; cbn; lia. Qed.

Lemma zip_with_costs req slots os :
  Forall (fun s => 0 <= sl_cost s) slots →
  Forall (fun m => 0 <= meal_estimated_cost m) (zip_with (served_meal req) slots os).
Proof.
  intros Hs. revert os. induction Hs as [|s slots Hs _ IH]; intros [|o os]; cbn; constructor; [|done].
  by apply served_cost_nonneg.
Qed.

Lemma zip_with_types req slots os :
  length os = length slots → map meal_type (zip_with (served_meal req) slots os) = map sl_type slots.
Proof.
  revert os. induction slots as [|s slots IH]; intros [|o os]; try done.
  intros [= Hl]. cbn. rewrite IH by done. by destruct o.
Qed.

Lemma zsum_max_same {A} (f : A → Z) l :
  Forall (fun x => 0 <= f x) l → zsum (map (fun x => Z.max 0 (f x)) l) = zsum (map f l).
Proof. induction 1 as [|x l Hx _ IH]; [done|]. cbn [map]. rewrite !zsum_cons, IH. lia. Qed.

Lemma zsum_max_nonneg {A} (f : A → Z) l : 0 <= zsum (map (fun x => Z.max 0 (f x)) l).
Proof. apply zsum_map_nonneg. apply Forall_forall. intros x _. simpl. lia. Qed.

Section Rebuilt.
Context (c : RebuilderSettings) (req : TripRequest).
Context (routes : option RouteEstimateResult) (schedule : option ScheduleQualityReport).
Context (restaurants : option (list RestaurantCandidate)).
Context (ws we : Z).
Context (Hws : parse_clock (rw_lunch_window_start c) = Ok ws).
Context (Hwe : parse_clock (rw_lunch_window_end c) = Ok we).
Context (Hwindow : ws < we).

(** The rebuilt day of a position, in terms of the choices made for it. *)
Definition rebuilt_as (days : list DayPlan) (position : nat) (d d' : DayPlan) : Prop :=
  let index := effective_day_index position d in
  let '(start_hotel, return_hotel) := resolve_day_hotels days position in
  ∃ times os,
    meal_service_intervals (schedule_day_of schedule index) (rw_lunch_window_start c)
      (rw_lunch_window_end c) = Ok times
    ∧ choices (filter (fun r => rc_day_index r = index) (default [] restaurants)) []
        (meal_slots (day_attractions d) start_hotel return_hotel times) os
    ∧ d' = mkDayPlan (day_date d) (day_index d) (describe_day (day_date d) (day_attractions d))
             (describe_transportation req (day_attractions d) (routes_of_day routes index)
                (day_transportation d))
             (describe_accommodation req (day_hotel d)) (day_hotel d) (day_attractions d)
             (zip_with (served_meal req) (meal_slots (day_attractions d) start_hotel return_hotel times) os).

Lemma meal_service_intervals_Ok day :
  ∃ times, meal_service_intervals day (rw_lunch_window_start c) (rw_lunch_window_end c) = Ok times.
Proof.
  unfold meal_service_intervals. rewrite Hws, Hwe. cbn [mbind result_bind].
  destruct (Z.leb_spec we ws); [lia|]. destruct (scan_timeline _ _ _) as [[a b] l]. by eexists.
Qed.

Lemma rebuild_day_Ok days position d :
  ∃ d', rebuild_day c req routes schedule restaurants days position d = Ok d'
        ∧ rebuilt_as days position d d'.
Proof.
  unfold rebuild_day, rebuilt_as. destruct (resolve_day_hotels days position) as [sh rh].
  unfold build_meals.
  destruct (meal_service_intervals_Ok (schedule_day_of schedule (effective_day_index position d)))
    as [times Ht].
  rewrite Ht. cbn [mbind result_bind mret result_ret].
  destruct (serve_meals_choices req
    (filter (fun r => rc_day_index r = effective_day_index position d) (default [] restaurants)) []
    (meal_slots (day_attractions d) sh rh times)) as (os & Hos & ->).
  eexists. split; [reflexivity|]. by exists times, os.
Qed.

Lemma rebuild_days_Ok days l k :
  ∃ l', mapM id (imap (fun i => rebuild_day c req routes schedule restaurants days (k + i)) l) = Ok l'
        ∧ length l' = length l
        ∧ ∀ i d d', l !! i = Some d → l' !! i = Some d' → rebuilt_as days (k + i) d d'.
Proof.
  revert k. induction l as [|d l IH]; intros k; [by exists []|].
  cbn [imap mapM]. destruct (rebuild_day_Ok days (k + 0) d) as (d' & Hd & Hr).
  change (id (rebuild_day c req routes schedule restaurants days (k + 0) d))
    with (rebuild_day c req routes schedule restaurants days (k + 0) d).
  rewrite Hd. cbn [mbind result_bind].
  destruct (IH (S k)) as (l' & Hl & Hlen & Hall).
  assert (E : imap ((fun i => rebuild_day c req routes schedule restaurants days (k + i)) ∘ S) l
              = imap (fun i => rebuild_day c req routes schedule restaurants days (S k + i)) l)
    by (apply imap_ext; intros; unfold compose; f_equal; lia).
  rewrite E, Hl. cbn [mbind result_bind mret result_ret].
  exists (d' :: l'). split; [done|]. split; [simpl; lia|].
  intros [|i] x x'; cbn [lookup list_lookup]; [by intros [= <-] [= <-]|].
  intros Hx Hx'. replace (k + S i)%nat with (S k + i)%nat by lia. by apply Hall.
Qed.

Lemma rebuild_plan_Ok p :
  ∃ p', rebuild_plan c req routes schedule restaurants p = Ok p'
        ∧ length (plan_days p') = length (plan_days p)
        ∧ (∀ i d d', plan_days p !! i = Some d → plan_days p' !! i = Some d' →
             rebuilt_as (plan_days p) i d d')
        ∧ p' = mkTripPlan (plan_city p) (plan_start_date p) (plan_end_date p) (plan_days p')
                 (plan_weather_info p) (suggest_overall req (plan_days p') schedule)
                 (Some (build_budget (plan_days p') routes)).
Proof.
  unfold rebuild_plan. destruct (rebuild_days_Ok (plan_days p) (plan_days p) 0) as (l & Hl & Hlen & Hall).
  change (mapM id (imap (rebuild_day c req routes schedule restaurants (plan_days p)) (plan_days p)) = Ok l) in Hl.
  rewrite Hl. cbn [mbind result_bind mret result_ret].
  eexists. split; [reflexivity|]. by cbn [plan_days].
Qed.

Lemma rebuilt_meals days position d d' :
  rebuilt_as days position d d' →
  map meal_type (day_meals d') = ["breakfast"; "lunch"; "dinner"]
  ∧ Forall (fun m => 0 <= meal_estimated_cost m) (day_meals d').
Proof.
  unfold rebuilt_as. destruct (resolve_day_hotels days position) as [sh rh].
  intros (times & os & _ & Hos & ->). cbn [day_meals]. split.
  - rewrite zip_with_types; [done|].
    destruct (choices_distinct _ _ _ _ Hos) as (_ & _ & Hall). by apply Forall2_length in Hall.
  - apply zip_with_costs, meal_slots_costs.
Qed.
End Rebuilt.

(** C29: the rebuild always succeeds with a proper lunch window, and it rebuilds
    only what is derived.  Dates, hotels and attractions stay; every
    day gets the three meals at their service times, each in the best
    restaurant of the day for that meal that is not closed and serves no other
    meal of the day, or around a place of the day when there is none; the
    budget is the sum of its parts and counts every meal. *)
Theorem rebuild_sound c req routes schedule restaurants ws we p :
  parse_clock (rw_lunch_window_start c) = Ok ws → parse_clock (rw_lunch_window_end c) = Ok we → ws < we →
  ∃ p' b,
    rebuild_plan c req routes schedule restaurants p = Ok p'
    ∧ map (fun d => (day_date d, day_index d, day_hotel d, day_attractions d)) (plan_days p')
      = map (fun d => (day_date d, day_index d, day_hotel d, day_attractions d)) (plan_days p)
    ∧ (∀ position d d', plan_days p !! position = Some d → plan_days p' !! position = Some d' →
         let index := effective_day_index position d in
         let '(start_hotel, return_hotel) := resolve_day_hotels (plan_days p) position in
         let day := filter (fun r => rc_day_index r = index) (default [] restaurants) in
         ∃ times os,
           meal_service_intervals (schedule_day_of schedule index) (rw_lunch_window_start c)
             (rw_lunch_window_end c) = Ok times
           ∧ let slots := meal_slots (day_attractions d) start_hotel return_hotel times in
             choices day [] slots os
             ∧ day_meals d' = zip_with (served_meal req) slots os
             ∧ map meal_type (day_meals d') = ["breakfast"; "lunch"; "dinner"]
             ∧ NoDup (map restaurant_identity (omap id os))
             ∧ Forall2 (fun slot o => match o with
                  | Some r => r ∈ day ∧ rc_meal_type r = sl_type slot
                              ∧ status_at (sl_interval slot) r ≠ ClosedDuring
                  | None => True
                  end) slots os)
    ∧ plan_budget p' = Some b
    ∧ TripSchema.total b = total_attractions b + total_hotels b + total_meals b + total_transportation b
    ∧ 0 <= total_attractions b ∧ 0 <= total_hotels b ∧ 0 <= total_transportation b
    ∧ total_meals b = zsum (map meal_estimated_cost (concat (map day_meals (plan_days p')))).
Proof.
  intros Hws Hwe Hlt.
  destruct (rebuild_plan_Ok c req routes schedule restaurants ws we Hws Hwe Hlt p)
    as (p' & Hp & Hlen & Hall & Heq).
  exists p', (build_budget (plan_days p') routes). split; [done|]. split; [|split; [|split; [by rewrite Heq|]]].
  - apply list_eq. intros i. rewrite !list_lookup_fmap.
    destruct (plan_days p' !! i) as [d'|] eqn:Hd', (plan_days p !! i) as [d|] eqn:Hd; try done.
    + specialize (Hall i d d' Hd Hd'). unfold rebuilt_as in Hall.
      destruct (resolve_day_hotels _ _). by destruct Hall as (times & os & _ & _ & ->).
    + apply lookup_lt_Some in Hd'. apply lookup_ge_None in Hd. lia.
    + apply lookup_lt_Some in Hd. apply lookup_ge_None in Hd'. lia.
  - intros position d d' Hd Hd'. specialize (Hall _ _ _ Hd Hd').
    pose proof (rebuilt_meals _ _ _ _ _ _ _ _ _ Hall) as [Hm _]. unfold rebuilt_as in Hall.
    cbv zeta. destruct (resolve_day_hotels _ _) as [sh rh]. destruct Hall as (times & os & Ht & Hos & Heqd).
    exists times, os. destruct (choices_distinct _ _ _ _ Hos) as (Hnd & _ & Hall2).
    split_and!; try done. by rewrite Heqd.
  - cbn [build_budget TripSchema.total total_attractions total_hotels total_meals total_transportation].
    split; [done|]. split; [apply zsum_max_nonneg|]. split; [apply zsum_max_nonneg|].
    split; [apply zsum_map_nonneg, Forall_forall; intros r _; apply route_cost_nonneg|].
    apply zsum_max_same, Forall_concat, Forall_map, Forall_forall. intros d' Hd'.
    apply list_elem_of_lookup_1 in Hd' as [i Hi].
    destruct (lookup_lt_is_Some_2 (plan_days p) i) as [d Hd];
      [rewrite <- Hlen; by eapply lookup_lt_Some|].
    by eapply rebuilt_meals, Hall.
Qed.

(** ** Routes of the rebuilt plan *)

Lemma described_mode req attractions day_routes existing :
  attractions = [] ∨ usable_routes day_routes ≠ [] →
  normalize_transportation_mode
    (str_or (describe_transportation req attractions day_routes existing) (req_transportation req))
  = normalize_transportation_mode (str_or existing (req_transportation req)).
Proof.
  intros Hcase. unfold describe_transportation.
  set (mode := normalize_transportation_mode (str_or existing _)).
  destruct (bool_decide_reflect (usable_routes day_routes = [])) as [Hu|Hu].
  - destruct Hcase as [->|?]; [|done]. rewrite bool_decide_true by done. clearbody mode.
    by destruct mode; vm_compute.
  - change (str_or ("出行方式：" ++ ?x) ?y) with ("出行方式：" ++ x). apply declared_mode_read.
Qed.

(** Everything the route fingerprint looks at in a day. *)
Definition route_inputs (req : TripRequest) (d : DayPlan) :=
  (day_date d, day_index d, day_hotel d, day_attractions d, day_mode req d).

Lemma route_payload_inputs req p p' :
  map (route_inputs req) (plan_days p') = map (route_inputs req) (plan_days p) →
  plan_route_payload req p' = plan_route_payload req p.
Proof.
  unfold plan_route_payload. generalize (plan_days p') (plan_days p). intros l' l Hm. do 5 f_equal.
  revert l Hm. induction l' as [|d' l' IH]; intros [|d l] Hm; try done.
  injection Hm as H1 H2 H3 H4 H5 Hm. cbn [map]. rewrite (IH _ Hm). by rewrite H1, H2, H3, H4, H5.
Qed.

Lemma rebuilt_route_inputs c req routes schedule restaurants days position d d' :
  day_attractions d = [] ∨ usable_routes (routes_of_day routes (effective_day_index position d)) ≠ [] →
  rebuilt_as c req routes schedule restaurants days position d d' →
  route_inputs req d' = route_inputs req d.
Proof.
  intros Hcase Hr. unfold rebuilt_as in Hr.
  destruct (resolve_day_hotels _ _) as [sh rh]. destruct Hr as (times & os & _ & _ & ->).
  unfold route_inputs, day_mode. cbn [day_date day_index day_hotel day_attractions day_transportation].
  f_equal. by apply described_mode.
Qed.

(** a rebuilt plan has the routes of the plan it was rebuilt from, by the
    fingerprint the loop compares, when every day with attractions has a
    usable route. *)
Theorem rebuild_keeps_routes c req routes schedule restaurants ws we p p' sha256_hex float_repr :
  parse_clock (rw_lunch_window_start c) = Ok ws → parse_clock (rw_lunch_window_end c) = Ok we → ws < we →
  (∀ position d, plan_days p !! position = Some d → day_attractions d ≠ [] →
     ∃ r seconds, r ∈ match routes with Some r => rr_routes r | None => [] end
       ∧ re_day_index r = effective_day_index position d ∧ usable_duration r = Some seconds) →
  rebuild_plan c req routes schedule restaurants p = Ok p' →
  plan_route_fingerprint sha256_hex float_repr req p' = plan_route_fingerprint sha256_hex float_repr req p.
Proof.
  intros Hws Hwe Hlt Husable Hp.
  destruct (rebuild_plan_Ok c req routes schedule restaurants ws we Hws Hwe Hlt p)
    as (p2 & Hp2 & Hlen & Hall & _).
  rewrite Hp in Hp2. injection Hp2 as <-.
  unfold plan_route_fingerprint. rewrite (route_payload_inputs req p p'); [done|].
  apply list_eq. intros i. rewrite !list_lookup_fmap.
  destruct (plan_days p' !! i) as [d'|] eqn:Hd', (plan_days p !! i) as [d|] eqn:Hd; try done.
  - cbn. f_equal. eapply rebuilt_route_inputs; [|by apply (Hall i)].
    destruct (day_attractions d) as [|a l] eqn:Ha; [by left|right]. intros Hnone.
    destruct (Husable i d Hd) as (r & seconds & Hr & Hi & Hs); [by rewrite Ha|].
    assert (Hin : (r, seconds) ∈ usable_routes (routes_of_day routes (effective_day_index i d)));
      [|rewrite Hnone in Hin; by apply elem_of_nil in Hin].
    unfold usable_routes. apply list_elem_of_omap. exists r. rewrite Hs. split; [|done].
    unfold routes_of_day. rewrite py_sorted_perm. by apply list_elem_of_filter.
  - apply lookup_lt_Some in Hd'. apply lookup_ge_None in Hd. lia.
  - apply lookup_lt_Some in Hd. apply lookup_ge_None in Hd'. lia.
Qed.

(** ** Runs *)

Definition car_museum : Attraction := spot "汽车博物馆" "c1" (1163 # 10) (398 # 10) 120.

(** A walking day with one attraction and no hotel, so no route at all. *)
Definition walking_day : DayPlan := mkDayPlan "2025-06-01" 0 "" "步行" "" None [car_museum] [].

(** the rebuild can turn its own plan into one whose routes no longer fit:
    on a walking day whose only attraction is called "car museum" and which has
    no usable route, the new text names the attraction before any mode is
    declared, and the day is read as a driving day from then on. *)
Theorem rebuild_changes_mode c req routes schedule restaurants ws we p p' position d d' :
  parse_clock (rw_lunch_window_start c) = Ok ws → parse_clock (rw_lunch_window_end c) = Ok we → ws < we →
  rebuild_plan c req routes schedule restaurants p = Ok p' →
  plan_days p !! position = Some d → plan_days p' !! position = Some d' →
  day_transportation d = "步行" → map at_name (day_attractions d) = ["汽车博物馆"] →
  usable_routes (routes_of_day routes (effective_day_index position d)) = [] →
  day_mode req d = walking ∧ day_mode req d' = driving
  ∧ plan_route_payload req p' ≠ plan_route_payload req p.
Proof.
  intros Hws Hwe Hlt Hp Hd Hd' Ht Hn Hu.
  destruct (rebuild_plan_Ok c req routes schedule restaurants ws we Hws Hwe Hlt p)
    as (p2 & Hp2 & _ & Hall & _).
  rewrite Hp in Hp2. injection Hp2 as <-. specialize (Hall _ _ _ Hd Hd'). unfold rebuilt_as in Hall.
  destruct (resolve_day_hotels _ _) as [sh rh]. destruct Hall as (times & os & _ & _ & Heq).
  assert (H1 : day_mode req d = walking).
  { unfold day_mode. by rewrite Ht. }
  assert (H2 : day_mode req d' = driving).
  { unfold day_mode. rewrite Heq. cbn [day_transportation]. unfold describe_transportation.
    rewrite Hu, Ht, Hn. destruct (day_attractions d) as [|a l]; [done|]. vm_compute. reflexivity. }
  split_and!; [done..|]. unfold plan_route_payload. intros [= Hm].
  apply (f_equal (fun l => l !! position)) in Hm. rewrite !list_lookup_fmap, Hd, Hd' in Hm.
  cbn in Hm. rewrite H1, H2 in Hm. by injection Hm.
Qed.

Definition default_rebuilder : RebuilderSettings := mkRebuilder "11:30" "14:00".

Definition restaurant (name : string) (rating : Q) (meters : Z) (hours meal : string) : RestaurantCandidate :=
  mkRestaurant "" name "前门大街" (mkLocation (11639 # 100) (399 # 10)) (Some rating) "" "" hours
    (Some (885 # 10)) (Some meters) 0 meal.

(** The noodle house is nearest but closed at noon, the hot pot place of
    unknown hours; the duck serves lunch and cannot serve dinner again. *)
Definition demo_restaurants : list RestaurantCandidate :=
  [restaurant "面馆" (41 # 10) 100 "17:00-22:00" "lunch";
   restaurant "火锅" (49 # 10) 150 "" "lunch";
   restaurant "烤鸭" (45 # 10) 400 "10:30-21:00" "lunch";
   restaurant "烤鸭" (45 # 10) 400 "10:30-21:00" "dinner"].

Definition demo_rebuilt : result exn TripPlan :=
  rebuild_plan default_rebuilder trip_request (Some trip_routes) None (Some demo_restaurants) trip_plan.

Lemma rebuild_sound_witness :
  match demo_rebuilt with
  | Ok p => map (map meal_name) (map day_meals (plan_days p))
            = [["如家附近早餐"; "烤鸭"; "如家附近晚餐"]; ["如家附近早餐"; "长城附近午餐"; "如家附近晚餐"]]
            ∧ plan_budget p = Some (mkBudget 0 600 328 28 956)
  | Err _ => False
  end
  ∧ ∃ p' b, demo_rebuilt = Ok p' ∧ plan_budget p' = Some b
      ∧ TripSchema.total b = total_attractions b + total_hotels b + total_meals b + total_transportation b.
Proof.
  split; [vm_compute; by split|].
  destruct (rebuild_sound default_rebuilder trip_request (Some trip_routes) None (Some demo_restaurants)
              690 840 trip_plan eq_refl eq_refl ltac:(lia))
    as (p' & b & Hp & _ & _ & Hb & Hsum & _).
  by exists p', b.
Defined.

Lemma rebuild_keeps_routes_witness :
  ∃ p', rebuild_plan default_rebuilder trip_request (Some trip_routes) None None
          (mkTripPlan "北京" "2025-06-01" "2025-06-01" [trip_day "2025-06-01" 0 [museum; lake]] [] "" None) = Ok p'
    ∧ plan_route_fingerprint id (fun _ => "") trip_request p'
      = plan_route_fingerprint id (fun _ => "") trip_request
          (mkTripPlan "北京" "2025-06-01" "2025-06-01" [trip_day "2025-06-01" 0 [museum; lake]] [] "" None).
Proof.
  eexists. split; [vm_compute; reflexivity|].
  apply (rebuild_keeps_routes default_rebuilder trip_request (Some trip_routes) None None 690 840);
    [reflexivity|reflexivity|lia| |vm_compute; reflexivity].
  intros [|position] d Hd; [|done]. injection Hd as <-. intros _.
  exists (leg_estimate 0 0 hotel_departure 4000 900), 900. split; [left|done].
Defined.

Definition walking_plan : TripPlan :=
  mkTripPlan "北京" "2025-06-01" "2025-06-01" [walking_day] [] "" None.

Definition walking_rebuilt : TripPlan :=
  match rebuild_plan default_rebuilder trip_request None None None walking_plan with
  | Ok p => p
  | Err _ => walking_plan
  end.

Lemma rebuild_changes_mode_witness :
  rebuild_plan default_rebuilder trip_request None None None walking_plan = Ok walking_rebuilt
  ∧ plan_route_payload trip_request walking_rebuilt ≠ plan_route_payload trip_request walking_plan.
Proof.
  assert (E : rebuild_plan default_rebuilder trip_request None None None walking_plan = Ok walking_rebuilt)
    by (vm_compute; reflexivity).
  split; [exact E|].
  assert (Hd : ∃ d', plan_days walking_rebuilt !! 0%nat = Some d') by (vm_compute; eauto).
  destruct Hd as [d' Hd'].
  eapply rebuild_changes_mode; [| | |exact E| |exact Hd'| | |]; [vm_compute; reflexivity..|].
  vm_compute. reflexivity.
Defined.
