(* ===== verification/Constraints.v ===== *)
(** [ConstraintEvaluator] (src/app/constraints/evaluator.py): what makes a
    plan impossible to carry out at its dates and times, whatever its routes.

    [constraints_decided] states what a feasible report means;
    [own_schedule_accepted] that a schedule the program itself computed is
    always evaluated and never at fault for its lunch. *)

From S2P Require Import Prelude FloatMath PyData ClockText TripSchema AmapModels PlanReports PlanEdits OrderedDict PlanRoutes PlanContent.
From S2P Require Import RouteScoring ToolModels AgentState Convergence Timeline TimelineTheorems RestaurantHours.
From Stdlib Require Import ZArith QArith Qround Lia Lqa Ascii String.
From stdpp Require Import base tactics option list strings.

Open Scope string_scope.
Open Scope Z_scope.

Definition adverse_weather : list string :=
  ["暴雨"; "大雨"; "雷暴"; "雷阵雨"; "台风"; "暴雪"; "大雪"; "冰雹"].
Definition outdoor_markers : list string :=
  ["公园"; "山"; "湖"; "海"; "滩"; "草原"; "湿地"; "峡谷"; "森林"; "动物园"; "植物园"; "风景名胜区"].

(** [_clock_minutes] *)
Definition clock_minutes (value : string) : result exn Z :=
  match split_once ":" value with
  | (hour_text, Some minute_text) =>
      hour ← py_int hour_text;
      minute ← py_int minute_text;
      mret (hour * 60 + minute)
  | (hour_text, None) =>
      _ ← py_int hour_text;
      Err (ValueError "not enough values to unpack (expected 2, got 1)")
  end.

(** [_format_clock], which does not cut off negative minutes: [divmod] floors. *)
Definition constraint_clock (total_minutes : Z) : string :=
  let hours := total_minutes / 60 in
  (if hours <? 0 then str_of_Z hours else pad2 hours) ++ ":" ++ pad2 (total_minutes mod 60).

Record ConstraintSettings := mkConstraintSettings {
  ce_lunch_start : Z; ce_lunch_end : Z; ce_daily_attraction_soft_limit : Z
}.

Definition new_constraint_evaluator (lunch_window_start lunch_window_end : string) (limit : Z)
    : result exn ConstraintSettings :=
  start ← clock_minutes lunch_window_start;
  stop ← clock_minutes lunch_window_end;
  if stop <=? start then Err (ValueError "lunch_window_end must be later than lunch_window_start")
  else if limit <? 1 then Err (ValueError "daily_attraction_soft_limit must be at least 1")
  else mret (mkConstraintSettings start stop limit).

(** ** What the provider says about an attraction *)

Definition fields : Type := list (string * json).

(** [str(value)] of a provider field; lists and objects have no text here. *)
Definition json_str (float_repr : Q → string) (v : json) : string :=
  match v with
  | JStr s => s
  | JInt z => str_of_Z z
  | JFloat q => float_repr q
  | JBool b => if b then "True" else "False"
  | JNull => "None"
  | _ => ""
  end.

(** [_source_candidates]: the second key only counts when the first is absent. *)
Definition provider_entries (payload : option json) : list fields :=
  match payload with
  | Some (JObj kvs) =>
      match get_or "candidates" "pois" kvs with
      | Some (JArr l) => objects_of l
      | _ => []
      end
  | _ => []
  end.

Record SourceTables := mkTables { tb_by_id : odict fields; tb_by_name : odict fields }.

Definition index_source (t : SourceTables) (item : fields) : SourceTables :=
  let poi_id := normalized_text (text_of (get_or "poi_id" "id" item)) in
  let name := normalized_text (text_of (obj_get "name" item)) in
  mkTables
    (if String.eqb poi_id "" then tb_by_id t else setdefault poi_id item (tb_by_id t))
    (if String.eqb name "" then tb_by_name t else setdefault name item (tb_by_name t)).

Definition source_tables (payload : option json) : SourceTables :=
  foldl index_source (mkTables [] []) (provider_entries payload).

Definition source_for (t : SourceTables) (a : Attraction) : fields :=
  let by_id := match at_poi_id a with
               | Some poi_id => if String.eqb poi_id "" then None
                                else od_get (normalized_text poi_id) (tb_by_id t)
               | None => None
               end in
  match by_id with
  | Some item => item
  | None => default [] (od_get (normalized_text (at_name a)) (tb_by_name t))
  end.

(** [_opening_ranges] *)
Definition known_hours (source : fields) : list (Z * Z) :=
  let value := match obj_get "opening_hours" source with
               | Some v => Some v
               | None => get_or "opentime" "business_hours" source
               end in
  let text := text_of (match value with
                       | Some (JObj kvs) => get_or "today" "value" kvs
                       | v => v
                       end) in
  if String.eqb text "" || str_contains "暂无" text || str_contains "24小时" text then []
  else
    omap (fun m : (Z * Z) * (Z * Z) =>
            let start := m.1.1 * 60 + m.1.2 in
            let stop := m.2.1 * 60 + m.2.2 in
            if (0 <=? start) && (start <? stop) && (stop <=? 24 * 60) then Some (start, stop) else None)
      (find_clock_ranges text).

Definition closed_on (float_repr : Q → string) (source : fields) (date : string) : bool :=
  match obj_get "closed_dates" source with
  | Some (JArr l) => existsb (fun v => String.eqb (json_str float_repr v) date) l
  | _ => false
  end.

(** ** Periods the request asks for *)

(** The text without its first code point. *)
Fixpoint drop_continuation (s : string) : string :=
  match s with
  | String a rest =>
      if ((128 <=? byte_of a)%N && (byte_of a <? 192)%N)%bool then drop_continuation rest else s
  | EmptyString => ""
  end.

(** [.{0,n}word] at the start of the text; [.] is no line break. *)
Fixpoint soon (n : nat) (word s : string) : bool :=
  String.prefix word s
  || match n, s with
     | S n, String a rest =>
         if (byte_of a =? 10)%N then false else soon n word (drop_continuation rest)
     | _, _ => false
     end.

(** [first.{0,10}second] anywhere in the text. *)
Fixpoint close_by (first second s : string) : bool :=
  (String.prefix first s && soon 10 second (str_drop (String.length first) s))
  || match s with String _ rest => close_by first second rest | EmptyString => false end.

Definition requested_period (text attraction_name : string) : option string :=
  if close_by "上午" attraction_name text || close_by "早上" attraction_name text
     || close_by attraction_name "上午" text || close_by attraction_name "早上" text
  then Some "morning"
  else if close_by "下午" attraction_name text || close_by attraction_name "下午" text
  then Some "afternoon" else None.

(** ** Weather *)

Definition weather_entry (float_repr : Q → string) (result : odict string) (v : json) : odict string :=
  match v with
  | JObj item =>
      let date := match obj_get "date" item with Some d => json_str float_repr d | None => "" end in
      let condition := match get_or "day_weather" "dayweather" item with
                       | Some v => text_of (Some v)
                       | None => ""
                       end in
      if String.eqb date "" then result else od_set date condition result
  | _ => result
  end.

Definition weather_by_date (float_repr : Q → string) (payload : option json) (p : TripPlan) : odict string :=
  let forecasts := match payload with
                   | Some (JObj kvs) =>
                       match get_or "forecasts" "weather" kvs with Some (JArr l) => l | _ => [] end
                   | _ => []
                   end in
  foldl (fun result w => setdefault (wi_date w) (wi_day_weather w) result)
    (foldl (weather_entry float_repr) [] forecasts) (plan_weather_info p).

Definition contains_any (markers : list string) (text : string) : bool :=
  existsb (fun marker => str_contains marker text) markers.

(** ** Checks *)

Definition day_path (day_index : Z) (field : string) : string :=
  "days[" ++ str_of_Z day_index ++ "]." ++ field.
Definition item_path (day_index : Z) (field : string) (index : nat) : string :=
  day_path day_index field ++ "[" ++ str_of_Z (Z.of_nat index) ++ "]".

Definition within (start stop : Z) (range : Z * Z) : bool := (range.1 <=? start) && (stop <=? range.2).

(** An issue about the attraction at [index]. *)
Definition attraction_issue (code severity : string) (day_index : Z) (index : nat) (a : Attraction)
    (message hint : string) (penalty : Q) (expected actual : json) : ConstraintIssue :=
  mkConstraintIssue code severity (item_path day_index "attractions" index) message hint true day_index
    (Some (Z.of_nat index)) (Some (at_name a)) penalty expected actual.

Section Checks.
Context `{HashEnv}.
Context (c : ConstraintSettings) (day_index : Z).

Definition check_lunch_item (item : TimelineItem) : result exn (list ConstraintIssue) :=
  if negb (String.eqb (ti_item_type item) "meal") then mret []
  else
    start ← timeline_clock (ti_start_time item);
    stop ← timeline_clock (ti_end_time item);
    if (ce_lunch_start c <=? start) && (stop <=? ce_lunch_end c) then mret []
    else mret [mkConstraintIssue "meal.outside_time_window" "error" (day_path day_index "meals")
                 ("Lunch is scheduled at " ++ ti_start_time item ++ "-" ++ ti_end_time item
                  ++ ", outside the configured meal window")
                 "Reorder attractions so lunch falls inside the meal window" true day_index None None 1200
                 (JObj [("start", JStr (constraint_clock (ce_lunch_start c)));
                        ("end", JStr (constraint_clock (ce_lunch_end c)))])
                 (JObj [("start", JStr (ti_start_time item)); ("end", JStr (ti_end_time item))])].

Definition check_lunch_window (timeline : list TimelineItem) : result exn (list ConstraintIssue) :=
  l ← mapM check_lunch_item timeline; mret (concat l).

Definition check_meal (index : nat) (m : Meal) : list ConstraintIssue :=
  if String.eqb (meal_opening_hours m) "" || String.eqb (meal_planned_start_time m) ""
     || String.eqb (meal_planned_end_time m) "" then []
  else
    match parse_clock (meal_planned_start_time m), parse_clock (meal_planned_end_time m) with
    | Ok start, Ok stop =>
        match opening_status_for_interval (meal_opening_hours m) start stop with
        | ClosedDuring =>
            [mkConstraintIssue "meal.outside_opening_hours" "error" (item_path day_index "meals" index)
               (meal_name m ++ " is scheduled at " ++ meal_planned_start_time m ++ "-"
                ++ meal_planned_end_time m ++ " outside its known opening hours")
               "Replace it with an open restaurant or adjust the meal time" true day_index None None 1500
               (JArr (map JStr (format_opening_ranges (meal_opening_hours m))))
               (JObj [("start", JStr (meal_planned_start_time m)); ("end", JStr (meal_planned_end_time m))])]
        | _ => []
        end
    | _, _ => []
    end.

(** [timeline_by_source]: the last attraction item of an index. *)
Definition item_of_source (timeline : list TimelineItem) (index : nat) : option TimelineItem :=
  find (fun item => String.eqb (ti_item_type item) "attraction"
                    && bool_decide (ti_source_index item = Some (Z.of_nat index))) (reverse timeline).

Definition check_hours (t : SourceTables) (date : string) (timeline : list TimelineItem)
    (index : nat) (a : Attraction) : result exn (list ConstraintIssue) :=
  let source := source_for t a in
  if closed_on he_float_repr source date then
    mret [attraction_issue "attraction.closed_on_date" "error" day_index index a
            (at_name a ++ " is marked closed on " ++ date) "Move this attraction to an open date" 1800
            (JStr "open date") (JStr date)]
  else
    let hours := known_hours source in
    match hours, item_of_source timeline index with
    | [], _ | _, None => mret []
    | _, Some item =>
        start ← timeline_clock (ti_start_time item);
        stop ← timeline_clock (ti_end_time item);
        if existsb (within start stop) hours then mret []
        else mret [attraction_issue "attraction.outside_opening_hours" "error" day_index index a
                     (at_name a ++ " is scheduled at " ++ ti_start_time item ++ "-" ++ ti_end_time item
                      ++ " outside its known opening hours")
                     "Reorder the day or move the attraction to another date" 1600
                     (JArr (map (fun r => JStr (constraint_clock r.1 ++ "-" ++ constraint_clock r.2)) hours))
                     (JStr (ti_start_time item ++ "-" ++ ti_end_time item))]
    end.

Definition check_period (text : string) (timeline : list TimelineItem) (index : nat) (a : Attraction)
    : result exn (list ConstraintIssue) :=
  match requested_period text (at_name a), item_of_source timeline index with
  | Some period, Some item =>
      start ← timeline_clock (ti_start_time item);
      let actual := if start <? 12 * 60 then "morning" else "afternoon" in
      if String.eqb actual period then mret []
      else mret [attraction_issue "preference.wrong_time_period" "error" day_index index a
                   (at_name a ++ " is scheduled in the " ++ actual ++ ", but the request requires " ++ period)
                   "Reorder attractions to satisfy the requested time period" 1400 (JStr period) (JStr actual)]
  | _, _ => mret []
  end.

Definition check_daily_load (l : list Attraction) : list ConstraintIssue :=
  let count := Z.of_nat (length l) in
  match last l with
  | Some a =>
      if count <=? ce_daily_attraction_soft_limit c then []
      else [mkConstraintIssue "schedule.too_many_attractions" "warning" (day_path day_index "attractions")
              ("The day contains " ++ str_of_Z count ++ " attractions, above the configured soft limit of "
               ++ str_of_Z (ce_daily_attraction_soft_limit c))
              "Move one attraction to a less busy day" true day_index (Some (count - 1)) (Some (at_name a)) 250
              (JInt (ce_daily_attraction_soft_limit c)) (JInt count)]
  | None => []
  end.

Definition check_weather (t : SourceTables) (condition : string) (index : nat) (a : Attraction)
    : list ConstraintIssue :=
  if String.eqb condition "" || negb (contains_any adverse_weather condition) then []
  else
    let category := match obj_get "category" (source_for t a) with
                    | Some v => json_str he_float_repr v
                    | None => default "" (at_category a)
                    end in
    if negb (contains_any outdoor_markers (at_name a ++ " " ++ category)) then []
    else [attraction_issue "weather.outdoor_risk" "warning" day_index index a
            (at_name a ++ " is an outdoor activity during " ++ condition)
            "Move the outdoor attraction to a day with safer weather" 400
            (JStr "non-adverse weather") (JStr condition)].

(** The checks that need the timeline of the day. *)
Definition check_schedule (req : TripRequest) (t : SourceTables) (d : DayPlan) (s : DayScheduleQuality)
    : result exn (list ConstraintIssue) :=
  let text := default "" (req_free_text_input req) in
  lunch ← check_lunch_window (ds_timeline s);
  hours ← mapM id (imap (check_hours t (day_date d) (ds_timeline s)) (day_attractions d));
  periods ← (if String.eqb text "" then mret []
             else mapM id (imap (check_period text (ds_timeline s)) (day_attractions d)));
  mret (lunch ++ concat hours ++ concat periods)%list.

Definition day_issues (req : TripRequest) (t : SourceTables) (condition : string) (d : DayPlan)
    (s : option DayScheduleQuality) : result exn (list ConstraintIssue) :=
  timed ← match s with Some s => check_schedule req t d s | None => mret [] end;
  mret (timed ++ concat (imap check_meal (day_meals d)) ++ check_daily_load (day_attractions d)
        ++ concat (imap (check_weather t condition) (day_attractions d)))%list.
End Checks.

(** ** The report *)

Definition severity_count (severity : string) (issues : list ConstraintIssue) : Z :=
  Z.of_nat (length (filter (fun i => xi_severity i = severity) issues)).
Definition issues_cost (issues : list ConstraintIssue) : Q := round_n 2 (qsum (map xi_penalty issues)).

Definition day_constraint_report (day_index : Z) (date : string) (issues : list ConstraintIssue)
    : DayConstraintReport :=
  let errors := severity_count "error" issues in
  mkDayConstraint day_index date errors (severity_count "warning" issues) (issues_cost issues)
    (errors =? 0) issues.

Definition constraint_report_of (fingerprint : string) (days : list DayConstraintReport)
    : TripConstraintReport :=
  let issues := concat (map dx_issues days) in
  let errors := severity_count "error" issues in
  let warnings := severity_count "warning" issues in
  mkConstraintReport fingerprint errors warnings
    (Z.of_nat (length (filter (fun i => xi_repairable i = true) issues))) (issues_cost issues)
    (round_n 2 (clamp 0 100 (100 - inject_Z errors * 25 - inject_Z warnings * 5)))
    (errors =? 0) (existsb xi_repairable issues) days issues.

Section Evaluate.
Context `{HashEnv}.
Context (c : ConstraintSettings).

(** [schedule_by_day.get(day_index)] *)
Definition scheduled_day (schedule : ScheduleQualityReport) (index : Z) : option DayScheduleQuality :=
  find (fun d => ds_day_index d =? index) (reverse (sq_days schedule)).

Definition evaluate_constraint_day (req : TripRequest) (schedule : ScheduleQualityReport)
    (t : SourceTables) (weather : odict string) (position : nat) (d : DayPlan)
    : result exn DayConstraintReport :=
  let index := effective_day_index position d in
  issues ← day_issues c index req t (default "" (od_get (day_date d) weather)) d
             (scheduled_day schedule index);
  mret (day_constraint_report index (day_date d) issues).

Definition evaluate_constraints (req : TripRequest) (p : TripPlan) (schedule : ScheduleQualityReport)
    (attractions weather : option json) : result exn TripConstraintReport :=
  let t := source_tables attractions in
  let conditions := weather_by_date he_float_repr weather p in
  days ← mapM id (imap (evaluate_constraint_day req schedule t conditions) (plan_days p));
  mret (constraint_report_of (constraint_fingerprint req p) days).
End Evaluate.

(** ** What a report means *)

(** Code, severity and penalty of every issue there is. *)
Definition issue_kinds : list (string * string * Z) :=
  [("meal.outside_time_window", "error", 1200); ("meal.outside_opening_hours", "error", 1500);
   ("attraction.closed_on_date", "error", 1800); ("attraction.outside_opening_hours", "error", 1600);
   ("preference.wrong_time_period", "error", 1400); ("schedule.too_many_attractions", "warning", 250);
   ("weather.outdoor_risk", "warning", 400)].

Definition known_issue (day_index : Z) (i : ConstraintIssue) : Prop :=
  (∃ penalty, (xi_code i, xi_severity i, penalty) ∈ issue_kinds ∧ xi_penalty i = inject_Z penalty)
  ∧ xi_repairable i = true ∧ xi_day_index i = day_index.

Definition no_error (l : list ConstraintIssue) : Prop := Forall (fun i => xi_severity i ≠ "error") l.

(** When an item of the timeline lies where it may. *)
Definition item_within (ranges : list (Z * Z)) (item : TimelineItem) : Prop :=
  ∃ start stop r, timeline_clock (ti_start_time item) = Ok start ∧ timeline_clock (ti_end_time item) = Ok stop
    ∧ r ∈ ranges ∧ r.1 <= start ∧ stop <= r.2.

Definition period_of (item : TimelineItem) (period : string) : Prop :=
  ∃ start, timeline_clock (ti_start_time item) = Ok start
    ∧ period = if start <? 12 * 60 then "morning" else "afternoon".

Section Meaning.
Context `{HashEnv}.
Context (c : ConstraintSettings).

(** What the timeline of a day has to respect. *)
Record timeline_possible (text : string) (t : SourceTables) (d : DayPlan) (s : DayScheduleQuality) : Prop := {
  tp_lunch : ∀ item, item ∈ ds_timeline s → ti_item_type item = "meal" →
    item_within [(ce_lunch_start c, ce_lunch_end c)] item;
  tp_open : ∀ index a, day_attractions d !! index = Some a →
    closed_on he_float_repr (source_for t a) (day_date d) = false
    ∧ ∀ item, item_of_source (ds_timeline s) index = Some item → known_hours (source_for t a) ≠ [] →
        item_within (known_hours (source_for t a)) item;
  tp_period : ∀ index a item period, text ≠ "" → day_attractions d !! index = Some a →
    requested_period text (at_name a) = Some period → item_of_source (ds_timeline s) index = Some item →
    period_of item period
}.

Definition meal_possible (m : Meal) : Prop :=
  ∀ start stop, meal_opening_hours m ≠ "" → parse_clock (meal_planned_start_time m) = Ok start →
    parse_clock (meal_planned_end_time m) = Ok stop → meal_planned_start_time m ≠ "" →
    meal_planned_end_time m ≠ "" → opening_status_for_interval (meal_opening_hours m) start stop ≠ ClosedDuring.

(** A day the program can find nothing wrong with. *)
Definition day_possible (req : TripRequest) (t : SourceTables) (schedule : ScheduleQualityReport)
    (position : nat) (d : DayPlan) : Prop :=
  (∀ s, scheduled_day schedule (effective_day_index position d) = Some s →
     timeline_possible (default "" (req_free_text_input req)) t d s)
  ∧ ∀ m, m ∈ day_meals d → meal_possible m.

(** ** Lists of checks *)

(** A check finds only issues it should, and an error exactly when [Q] fails. *)
Definition checks (day_index : Z) (l : list ConstraintIssue) (Q : Prop) : Prop :=
  Forall (known_issue day_index) l ∧ (no_error l ↔ Q).

Lemma checks_nil k (Q : Prop) : Q → checks k [] Q.
Proof. intros HQ. split; [constructor|]. split; [done|constructor]. Qed.

Lemma checks_error k i (Q : Prop) : known_issue k i → xi_severity i = "error" → ¬ Q → checks k [i] Q.
Proof.
  intros Hk He HQ. split; [constructor; [done|constructor]|]. split; [|done].
  intros Hn. by apply Forall_inv in Hn.
Qed.

Lemma checks_app k l l' (Q Q' : Prop) : checks k l Q → checks k l' Q' → checks k (l ++ l')%list (Q ∧ Q').
Proof.
  intros [H1 H2] [H3 H4]. split; [by apply Forall_app|]. unfold no_error in *.
  by rewrite Forall_app, H2, H4.
Qed.

Lemma checks_iff k l (Q Q' : Prop) : (Q ↔ Q') → checks k l Q → checks k l Q'.
Proof. intros HQ [H1 H2]. split; [done|]. by rewrite H2. Qed.

Lemma checks_concat {A} k (f : nat → A → list ConstraintIssue) (Q : nat → A → Prop) l :
  (∀ i x, l !! i = Some x → checks k (f i x) (Q i x)) →
  checks k (concat (imap f l)) (∀ i x, l !! i = Some x → Q i x).
Proof.
  revert f Q. induction l as [|x l IH]; intros f Q Hf; [apply checks_nil; by intros ? ? ?|].
  cbn [imap concat].
  eapply checks_iff, checks_app;
    [|exact (Hf 0%nat x eq_refl)|apply (IH _ (fun i => Q (S i))); intros i y Hy; exact (Hf (S i) y Hy)].
  split; [intros [H1 H2] [|i] y; cbn; [by intros [= <-]|apply H2]|].
  intros Hall. split; [by apply (Hall 0%nat)|]. intros i y Hy. by apply (Hall (S i)).
Qed.

Lemma checks_mapM {A} k (f : nat → A → result exn (list ConstraintIssue)) (Q : nat → A → Prop) l ls :
  (∀ i x r, l !! i = Some x → f i x = Ok r → checks k r (Q i x)) →
  mapM id (imap f l) = Ok ls → checks k (concat ls) (∀ i x, l !! i = Some x → Q i x).
Proof.
  intros Hf Hm. apply mapM_Ok in Hm.
  replace ls with (imap (fun i _ => default [] (ls !! i)) l).
  - apply checks_concat. intros i x Hx.
    destruct (Forall2_lookup_l _ _ _ i (f i x) Hm) as (r & Hr & Hfr); [by rewrite list_lookup_imap, Hx|].
    rewrite Hr. by apply (Hf i x).
  - apply list_eq. intros i. rewrite list_lookup_imap.
    pose proof (Forall2_length _ _ _ Hm) as Hlen. rewrite length_imap in Hlen.
    destruct (l !! i) as [x|] eqn:Hx, (ls !! i) as [r|] eqn:Hr; try done.
    + apply lookup_lt_Some in Hx. apply lookup_ge_None in Hr. lia.
    + apply lookup_lt_Some in Hr. apply lookup_ge_None in Hx. lia.
Qed.

(** ** The checks *)

Ltac known n := split; [eexists; split; [apply (list_elem_of_lookup_2 issue_kinds n); reflexivity|reflexivity]|done].

Lemma item_within_iff start stop ranges item :
  timeline_clock (ti_start_time item) = Ok start → timeline_clock (ti_end_time item) = Ok stop →
  item_within ranges item ↔ existsb (within start stop) ranges = true.
Proof.
  intros Hs He. unfold item_within. rewrite existsb_exists. split.
  - intros (s & e & r & Hs' & He' & Hr & H1 & H2). exists r. split; [by apply list_elem_of_In|].
    unfold within. rewrite Hs in Hs'. rewrite He in He'. simplify_eq.
    apply andb_true_iff. by rewrite !Z.leb_le.
  - intros (r & Hr%list_elem_of_In & Hw). unfold within in Hw. apply andb_true_iff in Hw as [H1 H2].
    apply Z.leb_le in H1, H2. exists start, stop, r. by split_and!.
Qed.

Lemma check_lunch_item_spec k item r :
  check_lunch_item c k item = Ok r →
  checks k r (ti_item_type item = "meal" → item_within [(ce_lunch_start c, ce_lunch_end c)] item).
Proof.
  unfold check_lunch_item. destruct (String.eqb_spec (ti_item_type item) "meal") as [Hm|Hm]; cbn [negb].
  2: { intros [= <-]. by apply checks_nil. }
  destruct (timeline_clock (ti_start_time item)) as [start|] eqn:Hs; [|done]. cbn [mbind result_bind].
  destruct (timeline_clock (ti_end_time item)) as [stop|] eqn:He; [|done]. cbn [mbind result_bind].
  pose proof (item_within_iff _ _ [(ce_lunch_start c, ce_lunch_end c)] _ Hs He) as Hw.
  cbn [existsb] in Hw. unfold within in Hw. cbn [fst snd] in Hw. rewrite orb_false_r in Hw.
  destruct (_ && _); intros [= <-].
  - apply checks_nil. intros _. by apply Hw.
  - apply checks_error; [known 0%nat|done|]. intros Hn. specialize (Hn Hm). apply Hw in Hn. done.
Qed.

Lemma check_meal_spec k index m : checks k (check_meal k index m) (meal_possible m).
Proof.
  unfold check_meal, meal_possible.
  destruct (String.eqb_spec (meal_opening_hours m) ""); [by apply checks_nil|].
  destruct (String.eqb_spec (meal_planned_start_time m) ""); [by apply checks_nil|].
  destruct (String.eqb_spec (meal_planned_end_time m) ""); [by apply checks_nil|]. cbn [orb].
  destruct (parse_clock (meal_planned_start_time m)) as [start|]; [|apply checks_nil; by intros].
  destruct (parse_clock (meal_planned_end_time m)) as [stop|]; [|apply checks_nil; by intros].
  destruct (opening_status_for_interval _ _ _) eqn:Hst.
  - apply checks_nil. intros ? ? _ [= <-] [= <-] _ _. by rewrite Hst.
  - apply checks_error; [known 1%nat|done|]. intros Hn. by apply (Hn start stop).
  - apply checks_nil. intros ? ? _ [= <-] [= <-] _ _. by rewrite Hst.
Qed.

Lemma check_hours_spec k t date timeline index a r :
  check_hours k t date timeline index a = Ok r →
  checks k r (closed_on he_float_repr (source_for t a) date = false
    ∧ ∀ item, item_of_source timeline index = Some item → known_hours (source_for t a) ≠ [] →
        item_within (known_hours (source_for t a)) item).
Proof.
  unfold check_hours. destruct (closed_on _ _ _).
  { intros [= <-]. apply checks_error; [known 2%nat|done|]. by intros [? _]. }
  destruct (known_hours (source_for t a)) as [|h hs]; [intros [= <-]; by apply checks_nil|].
  destruct (item_of_source timeline index) as [item|]; [|intros [= <-]; by apply checks_nil].
  destruct (timeline_clock (ti_start_time item)) as [start|] eqn:Hs; [|done]. cbn [mbind result_bind].
  destruct (timeline_clock (ti_end_time item)) as [stop|] eqn:He; [|done]. cbn [mbind result_bind].
  pose proof (item_within_iff _ _ (h :: hs) _ Hs He) as Hw.
  destruct (existsb _ _); intros [= <-].
  - apply checks_nil. split; [done|]. intros ? [= <-] _. by apply Hw.
  - apply checks_error; [known 3%nat|done|]. intros [_ Hn]. specialize (Hn item eq_refl ltac:(done)).
    apply Hw in Hn. done.
Qed.

Lemma check_period_spec k text timeline index a r :
  check_period k text timeline index a = Ok r →
  checks k r (∀ item period, requested_period text (at_name a) = Some period →
    item_of_source timeline index = Some item → period_of item period).
Proof.
  unfold check_period.
  destruct (requested_period text (at_name a)) as [period|]; [|intros [= <-]; by apply checks_nil].
  destruct (item_of_source timeline index) as [item|]; [|intros [= <-]; by apply checks_nil].
  destruct (timeline_clock (ti_start_time item)) as [start|] eqn:Hs; [|done]. cbn [mbind result_bind].
  destruct (String.eqb_spec (if start <? 12 * 60 then "morning" else "afternoon") period) as [E|E];
    intros [= <-].
  - apply checks_nil. intros ? ? [= <-] [= <-]. exists start. by rewrite E.
  - apply checks_error; [known 4%nat|done|]. intros Hn.
    destruct (Hn item period eq_refl eq_refl) as (start' & Hs' & Hp).
    rewrite Hs in Hs'. injection Hs' as <-. by rewrite Hp in E.
Qed.

Lemma checks_warning k i : known_issue k i → xi_severity i = "warning" → checks k [i] True.
Proof.
  intros Hk Hw. split; [constructor; [done|constructor]|]. split; [done|]. intros _.
  constructor; [by rewrite Hw|constructor].
Qed.

Lemma check_daily_load_spec k l : checks k (check_daily_load c k l) True.
Proof.
  unfold check_daily_load. destruct (last l); [|by apply checks_nil].
  destruct (_ <=? _); [by apply checks_nil|]. apply checks_warning; [known 5%nat|done].
Qed.

Lemma check_weather_spec k t condition index a : checks k (check_weather k t condition index a) True.
Proof.
  unfold check_weather. destruct (_ || _); [by apply checks_nil|]. destruct (negb _); [by apply checks_nil|].
  apply checks_warning; [known 6%nat|done].
Qed.

Lemma check_lunch_window_spec k timeline r :
  check_lunch_window c k timeline = Ok r →
  checks k r (∀ item, item ∈ timeline → ti_item_type item = "meal" →
                item_within [(ce_lunch_start c, ce_lunch_end c)] item).
Proof.
  unfold check_lunch_window. destruct (mapM _ _) as [ls|] eqn:Hm; [|done]. intros [= <-].
  assert (Hm' : mapM id (imap (fun _ => check_lunch_item c k) timeline) = Ok ls).
  { apply mapM_Ok. apply mapM_Ok in Hm. clear -Hm.
    induction Hm as [|item r l ls Hr _ IH]; [constructor|]. cbn [imap]. by constructor. }
  pose proof (checks_mapM k _ (fun _ item => ti_item_type item = "meal" →
    item_within [(ce_lunch_start c, ce_lunch_end c)] item) timeline ls
    (fun i x r _ Hr => check_lunch_item_spec k x r Hr) Hm') as Hall.
  eapply checks_iff; [|exact Hall]. clear Hall Hm Hm'.
  split; [intros Hall item Hin; apply list_elem_of_lookup_1 in Hin as [i Hi]; by apply (Hall i)|].
  intros Hall i item Hi. apply Hall. by apply list_elem_of_lookup_2 in Hi.
Qed.

Lemma check_schedule_spec k req t d s r :
  check_schedule c k req t d s = Ok r →
  checks k r (timeline_possible (default "" (req_free_text_input req)) t d s).
Proof.
  unfold check_schedule. set (text := default "" _).
  destruct (check_lunch_window _ _ _) as [lunch|] eqn:Hl; [|done]. cbn [mbind result_bind].
  destruct (mapM id (imap (check_hours k t _ _) _)) as [hours|] eqn:Hh; [|done]. cbn [mbind result_bind].
  set (E := if String.eqb text "" then _ else _). destruct E as [periods|] eqn:Hp; [|done]. subst E.
  cbn [mbind result_bind]. intros [= <-].
  apply check_lunch_window_spec in Hl.
  apply (checks_mapM k _ _ _ _ (fun i x r _ Hr => check_hours_spec k t (day_date d) _ i x r Hr)) in Hh.
  assert (Hq : checks k (concat periods) (text ≠ "" → ∀ index a, day_attractions d !! index = Some a →
         ∀ item period, requested_period text (at_name a) = Some period →
         item_of_source (ds_timeline s) index = Some item → period_of item period)).
  { destruct (String.eqb_spec text "") as [He|He]; [injection Hp as <-; by apply checks_nil|].
    apply (checks_mapM k _ _ _ _ (fun i x r _ Hr => check_period_spec k text _ i x r Hr)) in Hp.
    eapply checks_iff; [|exact Hp]. split; [by intros Hall _|by intros Hall; apply Hall]. }
  eapply checks_iff; [|exact (checks_app _ _ _ _ _ Hl (checks_app _ _ _ _ _ Hh Hq))].
  split.
  - intros (H1 & H2 & H3). split; [exact H1|exact H2|]. intros index a item period Ht Ha. by apply H3.
  - intros [H1 H2 H3]. split; [exact H1|]. split; [exact H2|]. intros Ht index a Ha item period.
    by apply (H3 index a).
Qed.

Lemma day_issues_spec req t condition schedule position d r :
  let k := effective_day_index position d in
  day_issues c k req t condition d (scheduled_day schedule k) = Ok r →
  checks k r (day_possible req t schedule position d).
Proof.
  intros k. unfold day_issues.
  set (E := match scheduled_day schedule k with Some _ => _ | None => _ end).
  destruct E as [timed|] eqn:Ht; [|done]. subst E. cbn [mbind result_bind]. intros [= <-].
  assert (H1 : checks k timed (∀ s, scheduled_day schedule k = Some s →
         timeline_possible (default "" (req_free_text_input req)) t d s)).
  { destruct (scheduled_day schedule k) as [s|]; [|injection Ht as <-; by apply checks_nil].
    eapply checks_iff; [|by eapply check_schedule_spec]. split; [by intros ? ? [= <-]|auto]. }
  pose proof (checks_concat k _ _ (day_meals d) (fun i m _ => check_meal_spec k i m)) as H2.
  pose proof (checks_concat k _ _ (day_attractions d) (fun i a _ => check_weather_spec k t condition i a)) as H3.
  eapply checks_iff; [|exact (checks_app _ _ _ _ _ H1 (checks_app _ _ _ _ _ H2
    (checks_app _ _ _ _ _ (check_daily_load_spec k (day_attractions d)) H3)))].
  clear H1 H2 H3.
  unfold day_possible. fold k. split.
  - intros (H1 & H2 & _). split; [exact H1|]. intros m Hm. apply list_elem_of_lookup_1 in Hm as [i Hi].
    by eapply H2.
  - intros [H1 H2]. split; [exact H1|]. split; [|done]. intros i m Hm. apply H2.
    by apply list_elem_of_lookup_2 in Hm.
Qed.
End Meaning.

Lemma severity_count_zero l : severity_count "error" l = 0 ↔ no_error l.
Proof.
  unfold severity_count, no_error. induction l as [|i l IH]; [split; [constructor|done]|].
  rewrite filter_cons, Forall_cons. case_decide as E; cbn [length]; [|rewrite IH; tauto].
  split; [lia|]. by intros [? _].
Qed.

(** An issue of some day. *)
Definition any_issue (i : ConstraintIssue) : Prop := ∃ k, known_issue k i.

Lemma severity_counts l :
  Forall any_issue l →
  severity_count "error" l + severity_count "warning" l = Z.of_nat (length l).
Proof.
  unfold severity_count. induction 1 as [|i l (k & (p & Hi & _) & _) _ IH]; [done|].
  rewrite !filter_cons. unfold issue_kinds in Hi. rewrite !elem_of_cons in Hi.
  assert (Hs : xi_severity i = "error" ∨ xi_severity i = "warning")
    by (destruct Hi as [[=]|[[=]|[[=]|[[=]|[[=]|[[=]|[[=]|[]%elem_of_nil]]]]]]]; tauto).
  destruct Hs as [-> | ->]; cbn [length]; simpl; lia.
Qed.

Lemma issues_cost_exact l : Forall any_issue l → (issues_cost l == qsum (map xi_penalty l))%Q.
Proof.
  intros Hl. assert (Hz : ∃ z, (qsum (map xi_penalty l) == inject_Z z)%Q).
  { unfold qsum. change (foldl Qplus 0%Q (map xi_penalty l)) with (foldl Qplus (inject_Z 0) (map xi_penalty l)).
    generalize 0. induction Hl as [|i l (k & (p & _ & Hp) & _) _ IH]; intros z; cbn [map foldl]; [by exists z|].
    rewrite Hp. destruct (IH (z + p)) as [z' Hz]. exists z'.
    change (inject_Z z + inject_Z p)%Q with (inject_Z z + inject_Z p)%Q.
    rewrite <- inject_Z_plus. done. }
  destruct Hz as [z Hz]. unfold issues_cost.
  pose proof (round_n_range 2 (qsum (map xi_penalty l)) z z) as Hr. lra.
Qed.

Section Report.
Context `{HashEnv}.
Context (c : ConstraintSettings).

Lemma evaluate_constraint_day_spec req schedule t weather position d r :
  evaluate_constraint_day c req schedule t weather position d = Ok r →
  r = day_constraint_report (effective_day_index position d) (day_date d) (dx_issues r)
  ∧ checks (effective_day_index position d) (dx_issues r) (day_possible c req t schedule position d).
Proof.
  unfold evaluate_constraint_day. destruct (day_issues _ _ _ _ _ _ _) as [issues|] eqn:Hi; [|done].
  intros [= <-]. cbn [dx_issues day_constraint_report]. split; [done|]. by eapply day_issues_spec.
Qed.

Lemma evaluate_constraints_days req p schedule attractions weather r :
  evaluate_constraints c req p schedule attractions weather = Ok r →
  r = constraint_report_of (constraint_fingerprint req p) (ct_days r)
  ∧ length (ct_days r) = length (plan_days p)
  ∧ ∀ position d x, plan_days p !! position = Some d → ct_days r !! position = Some x →
      checks (effective_day_index position d) (dx_issues x)
        (day_possible c req (source_tables attractions) schedule position d).
Proof.
  unfold evaluate_constraints. destruct (mapM _ _) as [days|] eqn:Hm; [|done]. intros [= <-].
  cbn [ct_days constraint_report_of]. apply mapM_Ok in Hm. split; [done|]. split.
  - apply Forall2_length in Hm. by rewrite length_imap in Hm.
  - intros position d x Hd Hx. destruct (Forall2_lookup_r _ _ _ _ _ Hm Hx) as (m & Hm' & Hok).
    rewrite list_lookup_imap, Hd in Hm'. injection Hm' as <-.
    by apply evaluate_constraint_day_spec in Hok as [_ ?].
Qed.

Lemma report_issues req p schedule attractions weather r :
  evaluate_constraints c req p schedule attractions weather = Ok r →
  Forall any_issue (ct_issues r)
  ∧ (no_error (ct_issues r) ↔ ∀ position d, plan_days p !! position = Some d →
       day_possible c req (source_tables attractions) schedule position d).
Proof.
  intros Hr. apply evaluate_constraints_days in Hr as (-> & Hlen & Hd).
  cbn [ct_issues ct_days constraint_report_of] in *. set (days := ct_days r) in *. clearbody days. split.
  - apply Forall_concat, Forall_map, Forall_forall. intros x Hx. apply list_elem_of_lookup_1 in Hx as [i Hi].
    destruct (lookup_lt_is_Some_2 (plan_days p) i) as [d Hpd]; [rewrite <- Hlen; by eapply lookup_lt_Some|].
    destruct (Hd i d x Hpd Hi) as [Hk _]. eapply Forall_impl; [exact Hk|]. intros y Hy. by eexists.
  - unfold no_error. rewrite Forall_concat, Forall_map, Forall_lookup. split.
    + intros Hall i d Hpd.
      destruct (lookup_lt_is_Some_2 days i) as [x Hx]; [rewrite Hlen; by eapply lookup_lt_Some|].
      apply (Hd i d x Hpd Hx). by apply (Hall i x).
    + intros Hall i x Hx.
      destruct (lookup_lt_is_Some_2 (plan_days p) i) as [d Hpd]; [rewrite <- Hlen; by eapply lookup_lt_Some|].
      apply (Hd i d x Hpd Hx). by apply (Hall i d).
Qed.
End Report.

(** C30: the constraint report of a plan is feasible exactly when no day breaks a
    rule: lunch inside its window, no attraction on a closing day, at a time
    outside its known hours or in the wrong half of the day, no meal in a
    restaurant known to be closed.  Only the seven kinds of issue occur, each
    is an error or a warning, the cost is the sum of their penalties, and an
    optimisation is recommended exactly when there is an issue. *)
Theorem constraints_decided `{HashEnv} c req p schedule attractions weather r :
  evaluate_constraints c req p schedule attractions weather = Ok r →
  (ct_feasible r = true ↔ ∀ position d, plan_days p !! position = Some d →
     day_possible c req (source_tables attractions) schedule position d)
  ∧ length (ct_days r) = length (plan_days p)
  ∧ ct_issues r = concat (map dx_issues (ct_days r))
  ∧ Forall any_issue (ct_issues r)
  ∧ ct_error_count r + ct_warning_count r = Z.of_nat (length (ct_issues r))
  ∧ (ct_optimization_recommended r = true ↔ ct_issues r ≠ [])
  ∧ (ct_optimization_cost r == qsum (map xi_penalty (ct_issues r)))%Q
  ∧ (0 <= ct_quality_score r <= 100)%Q.
Proof.
  intros Hr. destruct (report_issues _ _ _ _ _ _ _ Hr) as [Hk Hf].
  destruct (evaluate_constraints_days _ _ _ _ _ _ _ Hr) as (Heq & Hlen & _). clear Hr.
  rewrite <- Hf. clear Hf. revert Hk Hlen. rewrite Heq. cbn [constraint_report_of ct_feasible ct_days ct_issues
    ct_error_count ct_warning_count ct_optimization_recommended ct_optimization_cost ct_quality_score].
  set (issues := concat _). intros Hk Hlen. split_and!; try done.
  - rewrite Z.eqb_eq. apply severity_count_zero.
  - by apply severity_counts.
  - rewrite existsb_exists. split; [by intros (i & Hi & _) ->|].
    destruct Hk as [|i l (k & _ & Hi & _) _]; [done|]. intros _. exists i. split; [by left|done].
  - by apply issues_cost_exact.
  - apply (round_n_mono_Z 2 0), clamp_range. done.
  - apply (round_n_mono_Z_upper 2 100), clamp_range. done.
Qed.

(** ** Schedules of the program itself *)

Lemma mapM_total {E A B} (f : A → result E B) l :
  (∀ x, x ∈ l → ∃ y, f x = Ok y) → ∃ k, mapM f l = Ok k.
Proof.
  induction l as [|x l IH]; intros Hf; [by exists []|].
  destruct (Hf x ltac:(left)) as [y Hy]. destruct IH as [k Hk]; [intros z Hz; apply Hf; by right|].
  exists (y :: k). cbn [mapM]. rewrite Hy. cbn [mbind result_bind]. by rewrite Hk.
Qed.

Lemma mapM_imap_total {E A B} (f : nat → A → result E B) l :
  (∀ i x, l !! i = Some x → ∃ y, f i x = Ok y) → ∃ k, mapM id (imap f l) = Ok k.
Proof.
  intros Hf. apply mapM_total. intros m Hm. apply list_elem_of_lookup_1 in Hm as [i Hi].
  rewrite list_lookup_imap in Hi. destruct (l !! i) as [x|] eqn:Hx; [|done].
  injection Hi as <-. by apply (Hf i x).
Qed.

(** Clocks that can be read. *)
Definition readable (item : TimelineItem) : Prop :=
  ∃ start stop, timeline_clock (ti_start_time item) = Ok start ∧ timeline_clock (ti_end_time item) = Ok stop.

Lemma contiguous_readable a l b :
  contiguous a l b → 0 <= a → Forall readable l.
Proof.
  induction 1 as [s|s i l e Hs He Hd _ IH]; intros Ha; constructor; [|apply IH; lia].
  exists s, (s + ti_duration_minutes i). rewrite Hs, He, !timeline_clock_format. split; f_equal; lia.
Qed.

Definition not_lunch (i : ConstraintIssue) : Prop := xi_code i ≠ "meal.outside_time_window".

Lemma not_lunch_one i : xi_code i ≠ "meal.outside_time_window" → Forall not_lunch [i].
Proof. intros Hi. constructor; [exact Hi|constructor]. Qed.

Ltac other_code := first [apply Forall_nil; exact I | apply not_lunch_one; cbn; discriminate].

Section Own.
Context `{HashEnv}.
Context (c : ConstraintSettings) (k : Z).

Lemma item_of_source_in timeline index item : item_of_source timeline index = Some item → item ∈ timeline.
Proof.
  unfold item_of_source. intros Hf. apply find_some in Hf as [Hin _].
  apply list_elem_of_In in Hin. by rewrite elem_of_reverse in Hin.
Qed.

Lemma check_hours_total t date timeline index a :
  Forall readable timeline →
  ∃ r, check_hours k t date timeline index a = Ok r ∧ Forall not_lunch r.
Proof.
  intros Hr. unfold check_hours. destruct (closed_on _ _ _); [eexists; split; [done|other_code]|].
  destruct (known_hours _); [eexists; split; [done|other_code]|].
  destruct (item_of_source timeline index) as [item|] eqn:Hi; [|eexists; split; [done|other_code]].
  rewrite Forall_forall in Hr. destruct (Hr item (item_of_source_in _ _ _ Hi)) as (s & e & -> & ->).
  cbn [mbind result_bind]. destruct (existsb _ _); eexists; (split; [done|other_code]).
Qed.

Lemma check_period_total text timeline index a :
  Forall readable timeline →
  ∃ r, check_period k text timeline index a = Ok r ∧ Forall not_lunch r.
Proof.
  intros Hr. unfold check_period. destruct (requested_period _ _) as [period|]; [|eexists; split; [done|other_code]].
  destruct (item_of_source timeline index) as [item|] eqn:Hi; [|eexists; split; [done|other_code]].
  rewrite Forall_forall in Hr. destruct (Hr item (item_of_source_in _ _ _ Hi)) as (s & e & -> & _).
  cbn [mbind result_bind].
  destruct (String.eqb _ _); eexists; (split; [done|other_code]).
Qed.

Lemma check_lunch_total timeline :
  Forall readable timeline →
  ∃ r, check_lunch_window c k timeline = Ok r
    ∧ ((∀ item, item ∈ timeline → ti_item_type item = "meal" →
          item_within [(ce_lunch_start c, ce_lunch_end c)] item) → r = []).
Proof.
  intros Hr. rewrite Forall_forall in Hr. unfold check_lunch_window.
  destruct (mapM_total (check_lunch_item c k) timeline) as [ls Hls].
  { intros item Hin. unfold check_lunch_item. destruct (negb _); [by eexists|].
    destruct (Hr item Hin) as (s & e & -> & ->). cbn [mbind result_bind]. destruct (_ && _); by eexists. }
  rewrite Hls. cbn [mbind result_bind]. eexists. split; [done|]. intros Hok.
  apply mapM_Ok in Hls. clear Hr. induction Hls as [|item r timeline ls Hi _ IH]; [done|].
  cbn [concat]. rewrite IH by (intros; apply Hok; [by right|done]). rewrite app_nil_r.
  pose proof (check_lunch_item_spec c k item r Hi) as Hs. revert Hi. unfold check_lunch_item.
  destruct (String.eqb_spec (ti_item_type item) "meal") as [Hm|Hm]; cbn [negb]; [|by intros [= <-]].
  destruct (Hok item ltac:(left) Hm) as (s & e & w & -> & -> & Hw%list_elem_of_singleton & H1 & H2).
  subst w. cbn [mbind result_bind fst snd] in *. apply Z.leb_le in H1, H2. rewrite H1, H2. by intros [= <-].
Qed.

Lemma concat_imap_Forall {A B} (P : B → Prop) (f : nat → A → list B) l :
  (∀ i x, Forall P (f i x)) → Forall P (concat (imap f l)).
Proof.
  intros Hf. revert f Hf. induction l as [|x l IH]; intros f Hf; cbn [imap concat]; [constructor|].
  apply Forall_app. split; [apply Hf|]. apply IH. intros i y. apply Hf.
Qed.

Lemma mapM_Forall {A B} (P : B → Prop) (f : nat → A → result exn (list B)) l ls :
  (∀ i x r, f i x = Ok r → Forall P r) → mapM id (imap f l) = Ok ls → Forall P (concat ls).
Proof.
  intros Hf Hm. apply mapM_Ok in Hm. apply Forall_concat, Forall_forall. intros r Hr.
  apply list_elem_of_lookup_1 in Hr as [i Hi]. destruct (Forall2_lookup_r _ _ _ _ _ Hm Hi) as (m & Hm' & Hok).
  rewrite list_lookup_imap in Hm'. destruct (l !! i) as [x|]; [|done]. injection Hm' as <-. by eapply Hf.
Qed.

Lemma day_issues_total req t condition d s :
  (∀ day, s = Some day → Forall readable (ds_timeline day)) →
  ∃ r, day_issues c k req t condition d s = Ok r
    ∧ ((∀ day item, s = Some day → item ∈ ds_timeline day → ti_item_type item = "meal" →
          item_within [(ce_lunch_start c, ce_lunch_end c)] item) → Forall not_lunch r).
Proof.
  intros Hread. unfold day_issues.
  assert (Hrest : Forall not_lunch (concat (imap (check_meal k) (day_meals d))
    ++ check_daily_load c k (day_attractions d)
    ++ concat (imap (check_weather k t condition) (day_attractions d)))%list).
  { apply Forall_app. split; [|apply Forall_app; split].
    - apply concat_imap_Forall. intros i m. unfold check_meal. repeat case_match; other_code.
    - unfold check_daily_load. repeat case_match; other_code.
    - apply concat_imap_Forall. intros i a. unfold check_weather. repeat case_match; other_code. }
  destruct s as [day|]; [|eexists; by split]. specialize (Hread day eq_refl).
  unfold check_schedule. set (text := default "" _).
  destruct (check_lunch_total (ds_timeline day) Hread) as (lunch & Hl & Hnl). rewrite Hl. cbn [mbind result_bind].
  destruct (mapM_imap_total (check_hours k t (day_date d) (ds_timeline day)) (day_attractions d)) as [hours Hh].
  { intros i a _. destruct (check_hours_total t (day_date d) (ds_timeline day) i a Hread) as (r & Hr & _). eauto. }
  rewrite Hh. cbn [mbind result_bind].
  assert (Hp : ∃ periods, (if String.eqb text "" then mret []
      else mapM id (imap (check_period k text (ds_timeline day)) (day_attractions d))) = Ok periods
      ∧ Forall not_lunch (concat periods)).
  { destruct (String.eqb text ""); [by exists []|].
    destruct (mapM_imap_total (check_period k text (ds_timeline day)) (day_attractions d)) as [ps Hps].
    { intros i a _. destruct (check_period_total text (ds_timeline day) i a Hread) as (r & Hr & _). eauto. }
    exists ps. split; [done|]. eapply mapM_Forall; [|exact Hps]. intros i a r Hr.
    destruct (check_period_total text (ds_timeline day) i a Hread) as (r' & Hr' & ?). congruence. }
  destruct Hp as (periods & -> & Hnp). cbn [mbind result_bind mret result_ret].
  eexists. split; [reflexivity|]. intros Hlunch. apply Forall_app. split; [|exact Hrest].
  rewrite Hnl by (intros; by eapply Hlunch). cbn [app]. apply Forall_app. split; [|exact Hnp].
  eapply mapM_Forall; [|exact Hh]. intros i a r Hr.
  destruct (check_hours_total t (day_date d) (ds_timeline day) i a Hread) as (r' & Hr' & ?). congruence.
Qed.
End Own.

(** What the constraints read of a day the schedule evaluator built. *)
Lemma own_day `{MathEnv} `{HashEnv} t req p routes schedule d :
  settings_wf t → evaluate_schedule_quality t req p routes = Ok schedule → d ∈ sq_days schedule →
  Forall readable (ds_timeline d)
  ∧ (tl_start_minute t <= tl_latest_lunch_start_minute t → ∀ item, item ∈ ds_timeline d →
       ti_item_type item = "meal" →
       item_within [(tl_lunch_window_start_minute t, tl_lunch_window_end_minute t)] item).
Proof.
  intros Ht Hr Hin. apply schedule_days in Hr as (_ & _ & Hd).
  destruct (Hd d Hin) as (i & day & lu & m & tb & sh & rh & k & Hi & -> & Hk).
  pose proof (day_timeline_settled _ _ _ _ _ _ _ _ _ Ht Hk) as Hset.
  change (ds_timeline (day_schedule t i day k)) with (dk_timeline k). split.
  - eapply contiguous_readable; [exact (ac_contiguous _ _ _ _ _ Hset)|]. apply Ht.
  - intros Hs item Hitem Hmeal.
    destruct (day_timeline_lunch _ _ _ _ _ _ _ _ _ Ht Hs Hk)
      as [(_ & Hf & _)|(_ & Hpos & pre & lunch & post & Heq & Hpre & Hpost & Hserved)].
    + rewrite Forall_forall in Hf. by apply (Hf item) in Hitem.
    + rewrite Heq in Hitem. rewrite Forall_forall in Hpre, Hpost.
      apply elem_of_app in Hitem as [Hx|[->|Hx]%elem_of_cons]; [by apply Hpre in Hx| |by apply Hpost in Hx].
      destruct Hserved as (_ & _ & s & Hs1 & He1 & Hlo & Hhi).
      assert (0 <= tl_lunch_window_start_minute t) by apply Ht.
      eexists s, (s + tl_lunch_duration_minutes t), _. rewrite Hs1, He1, !timeline_clock_format.
      split_and!; [f_equal; lia|f_equal; lia|by apply list_elem_of_singleton|done|done].
Qed.

(** a schedule the program computed itself can always be checked against the
    constraints, and when both use the same lunch window, which begins late
    enough for the day, no lunch of it is ever reported: the two components
    never send the plan back and forth over its lunch. *)
Theorem own_schedule_accepted `{MathEnv} `{HashEnv} s e l ws we rb ab f t c req p routes schedule
    attractions weather :
  new_timeline_evaluator s e l ws we rb ab f = Ok t →
  evaluate_schedule_quality t req p routes = Ok schedule →
  ∃ r, evaluate_constraints c req p schedule attractions weather = Ok r
    ∧ (ce_lunch_start c = tl_lunch_window_start_minute t → ce_lunch_end c = tl_lunch_window_end_minute t →
       tl_start_minute t <= tl_latest_lunch_start_minute t →
       ∀ i, i ∈ ct_issues r → xi_code i ≠ "meal.outside_time_window").
Proof.
  intros Ht%new_timeline_evaluator_wf Hs.
  assert (Hown : ∀ k d, scheduled_day schedule k = Some d → d ∈ sq_days schedule).
  { intros k d Hf. apply find_some in Hf as [Hf _]. apply list_elem_of_In in Hf.
    by rewrite elem_of_reverse in Hf. }
  unfold evaluate_constraints. set (tb := source_tables attractions). set (conditions := weather_by_date _ _ _).
  assert (Hday : ∀ i d, ∃ x, evaluate_constraint_day c req schedule tb conditions i d = Ok x
    ∧ (ce_lunch_start c = tl_lunch_window_start_minute t → ce_lunch_end c = tl_lunch_window_end_minute t →
       tl_start_minute t <= tl_latest_lunch_start_minute t → Forall not_lunch (dx_issues x))).
  { intros i d. unfold evaluate_constraint_day.
    destruct (day_issues_total c (effective_day_index i d) req tb (default "" (od_get (day_date d) conditions)) d
                (scheduled_day schedule (effective_day_index i d))) as (issues & Hi & Hn).
    { intros day Hf. by apply (own_day t req p routes schedule day Ht Hs), (Hown (effective_day_index i d)). }
    rewrite Hi. cbn [mbind result_bind mret result_ret]. eexists. split; [reflexivity|].
    intros H1 H2 H3. cbn [dx_issues day_constraint_report]. apply Hn. intros day item Hf. rewrite H1, H2.
    by apply (own_day t req p routes schedule day Ht Hs (Hown _ _ Hf)). }
  destruct (mapM_imap_total (evaluate_constraint_day c req schedule tb conditions) (plan_days p)) as [days Hdays].
  { intros i d _. destruct (Hday i d) as (x & Hx & _). eauto. }
  rewrite Hdays. cbn [mbind result_bind mret result_ret]. eexists. split; [reflexivity|].
  intros H1 H2 H3 i Hi. cbn [ct_issues constraint_report_of] in Hi. revert i Hi.
  apply (Forall_forall (fun i => not_lunch i)), Forall_concat, Forall_map.
  apply mapM_Ok in Hdays. apply Forall_forall. intros x Hx. apply list_elem_of_lookup_1 in Hx as [i Hi].
  destruct (Forall2_lookup_r _ _ _ _ _ Hdays Hi) as (m & Hm & Hok).
  rewrite list_lookup_imap in Hm. destruct (plan_days p !! i) as [d|]; [|done]. injection Hm as <-.
  destruct (Hday i d) as (x' & Hx' & Hn). unfold id in Hok. rewrite Hok in Hx'. injection Hx' as <-. by apply Hn.
Qed.

(** ** Runs *)

Definition default_constraints : ConstraintSettings := mkConstraintSettings 690 840 3.

Definition demo_attractions : json :=
  JObj [("candidates", JArr
    [JObj [("poi_id", JStr "M1"); ("name", JStr "首都博物馆"); ("closed_dates", JArr [JStr "2025-06-01"])];
     JObj [("name", JStr "天坛"); ("opening_hours", JStr "08:00-10:00，周末 17:00～21:00")];
     JObj [("name", JStr "什刹海"); ("category", JStr "湖泊")]])].
Definition demo_weather : json :=
  JObj [("forecasts", JArr [JObj [("date", JStr "2025-06-01"); ("day_weather", JStr "雷阵雨转多云")]])].
Definition wishful_request : TripRequest :=
  mkTripRequest "北京" "2025-06-01" "2025-06-02" 2 "公共交通" "经济型酒店" [] (Some "希望上午先去故宫，下午长城").

(** The museum is closed, the temple is not open when it is visited, the palace
    comes too late and the wall too early; four attractions are one too many
    and the lake is no place for a thunderstorm. *)
Definition demo_constraints : result exn TripConstraintReport :=
  @evaluate_constraints constant_hash default_constraints wishful_request trip_plan demo_schedule
    (Some demo_attractions) (Some demo_weather).

Lemma constraints_decided_witness :
  ∃ r, demo_constraints = Ok r
    ∧ map xi_code (ct_issues r)
      = ["attraction.closed_on_date"; "attraction.outside_opening_hours"; "preference.wrong_time_period";
         "schedule.too_many_attractions"; "weather.outdoor_risk"; "preference.wrong_time_period"]
    ∧ ct_error_count r + ct_warning_count r = Z.of_nat (length (ct_issues r)).
Proof.
  eexists. split; [vm_compute; reflexivity|]. split; [vm_compute; reflexivity|].
  eapply (@constraints_decided constant_hash default_constraints wishful_request trip_plan demo_schedule
    (Some demo_attractions) (Some demo_weather)). vm_compute. reflexivity.
Defined.

Lemma own_schedule_accepted_witness :
  ∃ r, @evaluate_constraints constant_hash default_constraints trip_request trip_plan demo_schedule
         (Some demo_attractions) (Some demo_weather) = Ok r
    ∧ ∀ i, i ∈ ct_issues r → xi_code i ≠ "meal.outside_time_window".
Proof.
  destruct (@own_schedule_accepted demo_math constant_hash "09:00" "18:00" 60 "11:30" "14:00" 10 10 (13 # 10)
    default_timeline default_constraints trip_request trip_plan (Some trip_routes) demo_schedule
    (Some demo_attractions) (Some demo_weather)) as (r & Hr & Hn); [vm_compute; reflexivity..|].
  exists r. split; [exact Hr|]. apply Hn; [reflexivity|reflexivity|vm_compute; discriminate].
Defined.
