(* ===== verification/ConstraintOptimizer.v ===== *)
(** [DeterministicConstraintOptimizer] (src/app/constraints/optimizer.py):
    attractions that are visited outside their opening hours go to the end of
    their day or out of the plan, all at once; otherwise one attraction is moved
    inside its day or to another one, and only if no move pays one is taken
    out.

    [constraint_candidate_sound] states what a candidate changes, that its
    approximate cost is lower and how many plans were evaluated for it. *)

From S2P Require Import Prelude FloatMath PyData ClockText TripSchema AmapModels PlanReports PlanEdits OrderedDict PlanRoutes PlanContent.
From S2P Require Import RouteScoring ToolModels AgentState Convergence Timeline TimelineTheorems ScheduleOptimizer.
From S2P Require Import RestaurantHours Constraints.
From Stdlib Require Import ZArith QArith Qround Lia Lqa String.
From stdpp Require Import base tactics option list strings.

Open Scope string_scope.
Open Scope Z_scope.

(** [DeterministicConstraintOptimizer.__init__] *)
Definition new_constraint_optimizer (max_candidates : Z) : result exn Z :=
  if max_candidates <? 1 then Err (ValueError "max_candidates must be at least 1")
  else Ok max_candidates.

(** The order in which the issues are worked off. *)
Definition more_urgent (x y : ConstraintIssue) : bool :=
  let severity i := if String.eqb (xi_severity i) "error" then 0 else 1 in
  lexZ (severity x) (severity y)
    (lexQ (- xi_penalty x) (- xi_penalty y)
      (lexZ (xi_day_index x) (xi_day_index y)
        (lexZ (default (10 ^ 6) (xi_source_index x)) (default (10 ^ 6) (xi_source_index y))
          (String.leb (xi_code x) (xi_code y))))).

Definition actionable (report : TripConstraintReport) : list ConstraintIssue :=
  py_sorted more_urgent (filter (fun i => xi_repairable i = true) (ct_issues report)).

(** [_combined_cost] *)
Definition combined_cost (constraints : TripConstraintReport) (schedule : ScheduleQualityReport) : Q :=
  round_n 2 (ct_optimization_cost constraints + sq_optimization_cost schedule).

(** The [ConstraintOptimizationCandidate] with its fields in order. *)
Definition constraint_optimization_candidate (plan : TripPlan) (source_day_index target_day_index : Z)
    (moved_attraction_name : string) (target_insertion_index : Z)
    (removed_attraction_names : list string) (strategy : string) (baseline_cost candidate_cost : Q)
    (considered_candidates : Z) : PlanCandidate :=
  mkCandidate plan [] []
    [("source_day_index", JInt source_day_index); ("target_day_index", JInt target_day_index);
     ("moved_attraction_name", JStr moved_attraction_name);
     ("target_insertion_index", JInt target_insertion_index);
     ("removed_attraction_names", JArr (map JStr removed_attraction_names));
     ("strategy", JStr strategy); ("baseline_cost", JFloat (round_n 2 baseline_cost));
     ("candidate_cost", JFloat (round_n 2 candidate_cost));
     ("approximate_improvement_percent", JFloat (cost_improvement_percent baseline_cost candidate_cost));
     ("considered_candidates", JInt considered_candidates)].

(** ** Moves and removals *)

(** One entry of [candidates]. *)
Record Move := mkMove {
  mv_strategy : string; mv_source : nat; mv_target : nat; mv_insertion : nat;
  mv_plan : TripPlan; mv_name : string
}.

(** Every place the attraction of an issue could go to, in the order the loops
    visit them. *)
Definition issue_moves (p : TripPlan) (issue : ConstraintIssue) : list Move :=
  match day_position p (xi_day_index issue) with
  | None => []
  | Some source =>
      match plan_days p !! source with
      | None => []
      | Some d =>
          let l := day_attractions d in
          let given := match xi_source_index issue with Some i => Z.to_nat i | None => length l end in
          let index := if (given <? length l)%nat then given else (length l - 1)%nat in
          match l !! index with
          | None => []
          | Some moved =>
              (map (fun insertion =>
                      mkMove "reorder_attraction_within_day" source source insertion
                        (edit_day source (fun _ => insert_at insertion moved (delete index l)) p) (at_name moved))
                 (filter (fun insertion => insertion ≠ index) (seq 0 (length l)))
               ++ map (fun ti : nat * nat =>
                      mkMove "move_attraction_between_days" source ti.1 ti.2
                        (edit_day ti.1 (insert_at ti.2 moved) (edit_day source (fun _ => delete index l) p))
                        (at_name moved))
                 (move_targets p source))%list
          end
      end
  end.

(** [_append_unique] along the loops, which stop as soon as the list is full. *)
Fixpoint collect_moves (signature : TripPlan → string) (max : Z) (moves : list Move)
    (seen : list string) (candidates : list Move) : list Move :=
  match moves with
  | [] => candidates
  | m :: moves =>
      if max <=? Z.of_nat (length candidates) then candidates
      else if bool_decide (signature (mv_plan m) ∈ seen) then collect_moves signature max moves seen candidates
      else collect_moves signature max moves (signature (mv_plan m) :: seen) (candidates ++ [m])%list
  end.

(** A plan the search remembers: its cost and the numbers that break ties. *)
Record Best := mkBest { bt_cost : Q; bt_move : Move }.

Definition cheaper (x y : Best) : bool :=
  let rank m := [Z.of_nat (mv_source m); Z.of_nat (mv_target m); Z.of_nat (mv_insertion m)] in
  let fix below (l l' : list Z) : bool :=
    match l, l' with
    | a :: l, b :: l' => lexZ a b (below l l')
    | _, _ => false
    end in
  lexQ (bt_cost x) (bt_cost y) (below (rank (bt_move x)) (rank (bt_move y))).

(** Positions of the days with issues, in order, each once. *)
Fixpoint issue_positions (p : TripPlan) (visited : list nat) (issues : list ConstraintIssue) : list nat :=
  match issues with
  | [] => []
  | i :: issues =>
      match day_position p (xi_day_index i) with
      | Some position =>
          if bool_decide (position ∈ visited) then issue_positions p visited issues
          else position :: issue_positions p (position :: visited) issues
      | None => issue_positions p visited issues
      end
  end.

(** The plan without the attraction at [index] of a day; target and insertion
    are what the candidate reports. *)
Definition removals_of (p : TripPlan) (position : nat) : list Move :=
  match plan_days p !! position with
  | Some d =>
      imap (fun index a =>
        mkMove "remove_attraction_for_constraint_feasibility" position position index
          (edit_day position (delete index) p) (at_name a)) (day_attractions d)
  | None => []
  end.

(** [_find_attraction_index] *)
Fixpoint find_attraction_from (index : nat) (poi_id name : string) (l : list Attraction) : option nat :=
  match l with
  | [] => None
  | a :: l =>
      if negb (String.eqb poi_id "") && bool_decide (at_poi_id a = Some poi_id) then Some index
      else if String.eqb (at_name a) name then Some index
      else find_attraction_from (S index) poi_id name l
  end.

(** The attraction of an opening-hours issue: day index, POI id and name. *)
Record HoursTarget := mkHoursTarget { ht_day_index : Z; ht_poi_id : string; ht_name : string }.

Definition outside_hours (i : ConstraintIssue) : bool :=
  String.eqb (xi_code i) "attraction.outside_opening_hours" && is_some (xi_source_index i).

(** The position and the attraction an issue points at. *)
Definition issue_target (p : TripPlan) (i : ConstraintIssue) : option (nat * nat * Attraction) :=
  position ← day_position p (xi_day_index i);
  index ← xi_source_index i;
  d ← plan_days p !! position;
  a ← day_attractions d !! Z.to_nat index;
  Some (position, Z.to_nat index, a).

Definition hours_targets (p : TripPlan) (report : TripConstraintReport) : list HoursTarget :=
  omap (fun i =>
    if xi_repairable i && outside_hours i then
      (fun t => mkHoursTarget (xi_day_index i) (default "" (at_poi_id t.2)) (at_name t.2)) <$> issue_target p i
    else None) (ct_issues report).

(** One target goes to the end of its day. *)
Definition postpone (s : TripPlan * list string) (t : HoursTarget) : TripPlan * list string :=
  let '(working, names) := s in
  match day_position working (ht_day_index t) with
  | None => s
  | Some position =>
      match plan_days working !! position with
      | None => s
      | Some d =>
          let l := day_attractions d in
          match find_attraction_from 0 (ht_poi_id t) (ht_name t) l with
          | None => s
          | Some index =>
              if (index =? length l - 1)%nat then s
              else match l !! index with
                   | Some moved => (edit_day position (fun _ => (delete index l ++ [moved])%list) working,
                                    (names ++ [at_name moved])%list)
                   | None => s
                   end
          end
      end
  end.

Definition later_removal (x y : nat * nat * Attraction) : bool :=
  lexZ (Z.of_nat y.1.1) (Z.of_nat x.1.1)
    (lexZ (Z.of_nat y.1.2) (Z.of_nat x.1.2) (String.leb (at_name y.2) (at_name x.2))).

Definition removals_for (working : TripPlan) (remaining : list ConstraintIssue) : list (nat * nat * Attraction) :=
  py_sorted later_removal (omap (issue_target working) remaining).

(** [attractions.pop(index)], from the last one to the first. *)
Fixpoint remove_all (working : TripPlan) (removals : list (nat * nat * Attraction)) : result exn TripPlan :=
  match removals with
  | [] => mret working
  | (position, index, _) :: removals =>
      match plan_days working !! position with
      | Some d =>
          match day_attractions d !! index with
          | Some _ => remove_all (edit_day position (delete index) working) removals
          | None => Err (IndexError "pop index out of range")
          end
      | None => Err (IndexError "list index out of range")
      end
  end.

Definition day_size (p : TripPlan) (position : nat) : nat :=
  match plan_days p !! position with Some d => length (day_attractions d) | None => 0%nat end.

Section Optimizer.
Context `{MathEnv} `{HashEnv}.
Context (tc : TimelineSettings) (cc : ConstraintSettings) (max : Z) (req : TripRequest).
Context (attractions weather : option json).

(** The stable approximation of a plan: its constraints without routes and the
    combined cost. *)
Definition measure (p : TripPlan) : result exn (TripConstraintReport * Q) :=
  schedule ← approximate tc req p;
  constraints ← evaluate_constraints cc req p schedule attractions weather;
  mret (constraints, combined_cost constraints schedule).

(** [_repair_opening_hours_conflicts] *)
Definition hours_candidate (working : TripPlan) (first_day : Z) (moved removed : list string)
    (strategy : string) (baseline cost : Q) (considered : Z) : PlanCandidate :=
  let position := default 0%nat (day_position working first_day) in
  constraint_optimization_candidate working first_day first_day
    (String.concat "、" (match moved with [] => removed | _ => moved end))
    (Z.max 0 (Z.of_nat (day_size working position) - 1)) removed strategy baseline cost considered.

Definition repair_opening_hours (p : TripPlan) (report : TripConstraintReport) (baseline : Q)
    : result exn (option PlanCandidate) :=
  match hours_targets p report with
  | [] => mret None
  | first :: others =>
      let '(working, moved) := foldl postpone (p, []) (first :: others) in
      '(constraints, cost) ← measure working;
      let remaining := filter (fun i => outside_hours i = true) (ct_issues constraints) in
      if bool_decide (remaining = []) then
        if Qlt_bool (cost + (1 # 100)) baseline
        then mret (Some (hours_candidate working (ht_day_index first) moved []
                           "reorder_attractions_for_opening_hours" baseline cost 1))
        else mret None
      else if max <? 2 then mret None
      else
        match removals_for working remaining with
        | [] => mret None
        | removals =>
            reduced ← remove_all working removals;
            '(constraints, cost) ← measure reduced;
            if existsb (fun i => String.eqb (xi_code i) "attraction.outside_opening_hours")
                 (ct_issues constraints) then mret None
            else if Qle_bool baseline (cost + (1 # 100)) then mret None
            else mret (Some (hours_candidate reduced (ht_day_index first) moved
                               (reverse (map (fun r => at_name r.2) removals))
                               "remove_attractions_outside_opening_hours" baseline cost 2))
        end
  end.

(** Every plan is measured; the cheapest one that pays is kept. *)
Fixpoint best_move (baseline : Q) (moves : list Move) (best : option Best) : result exn (option Best) :=
  match moves with
  | [] => mret best
  | m :: moves =>
      '(_, cost) ← measure (mv_plan m);
      best_move baseline moves
        (if Qle_bool baseline (cost + (1 # 100)) then best
         else match best with
              | Some b => if cheaper (mkBest cost m) b then Some (mkBest cost m) else best
              | None => Some (mkBest cost m)
              end)
  end.

Definition signature (p : TripPlan) : string := json_dumps_canonical he_float_repr (dump_plan p).

Definition chosen_candidate (p : TripPlan) (baseline : Q) (removed : Best → list string)
    (considered : Z) (b : Best) : PlanCandidate :=
  let m := bt_move b in
  constraint_optimization_candidate (mv_plan m) (stable_day_index p (mv_source m))
    (stable_day_index p (mv_target m)) (mv_name m) (Z.of_nat (mv_insertion m)) (removed b)
    (mv_strategy m) baseline (bt_cost b) considered.

(** [optimize] *)
Definition optimize_plan_constraints (p : TripPlan) (report : TripConstraintReport)
    : result exn (option PlanCandidate) :=
  let issues := actionable report in
  if bool_decide (issues = []) then mret None
  else
    '(constraints, baseline) ← measure p;
    hours ← repair_opening_hours p constraints baseline;
    match hours with
    | Some cand => mret (Some cand)
    | None =>
        let moves := collect_moves signature max (concat (map (issue_moves p) issues)) [] [] in
        best ← best_move baseline moves None;
        match best with
        | Some b => mret (Some (chosen_candidate p baseline (fun _ => []) (Z.of_nat (length moves)) b))
        | None =>
            let removals := take (Z.to_nat max) (concat (map (removals_of p) (issue_positions p [] issues))) in
            best ← best_move baseline removals None;
            mret (chosen_candidate p baseline (fun b => [mv_name (bt_move b)])
                    (Z.of_nat (length moves) + Z.of_nat (length removals)) <$> best)
        end
    end.
End Optimizer.

(** ** Edits *)

(** The same attractions on the same number of days, but for [removed]. *)
Definition edited (p q : TripPlan) (removed : list Attraction) : Prop :=
  all_attractions p ≡ₚ (removed ++ all_attractions q)%list
  ∧ length (plan_days q) = length (plan_days p).

Lemma edited_refl p : edited p p [].
Proof. by split. Qed.

Lemma edited_trans p q r l l' : edited p q l → edited q r l' → edited p r (l ++ l').
Proof.
  intros [H1 H2] [H3 H4]. split; [|lia]. by rewrite H1, H3, <- (assoc_L (++)%list).
Qed.

(** One day is rearranged. *)
Lemma edited_day p position f d removed :
  plan_days p !! position = Some d → day_attractions d ≡ₚ (removed ++ f (day_attractions d))%list →
  edited p (edit_day position f p) removed.
Proof.
  intros Hd Hf. split; [|apply edit_day_length].
  destruct (edit_day_attractions position f p d Hd) as (others & Hp & Hq).
  by rewrite Hp, Hq, (assoc_L (++)%list), <- Hf.
Qed.

Lemma edited_delete p position d index a :
  plan_days p !! position = Some d → day_attractions d !! index = Some a →
  edited p (edit_day position (delete index) p) [a].
Proof. intros Hd Ha. eapply edited_day; [done|]. cbn. by apply delete_Permutation. Qed.

Lemma elem_of_move_targets p source target insertion :
  (target, insertion) ∈ move_targets p source → target ≠ source ∧ (target < length (plan_days p) ∨ target < source)%nat.
Proof.
  unfold move_targets. rewrite list_elem_of_In, in_concat. intros (l & Hl & Hin).
  apply in_map_iff in Hl as (t & <- & Ht). apply in_map_iff in Hin as (i & [= <- <-] & _).
  apply in_app_iff in Ht as [Ht|Ht]; apply in_seq in Ht; lia.
Qed.

Lemma issue_moves_edited p i m : m ∈ issue_moves p i → edited p (mv_plan m) [].
Proof.
  unfold issue_moves. destruct (day_position p _) as [source|]; [|by intros ?%elem_of_nil].
  destruct (plan_days p !! source) as [d|] eqn:Hd; [|by intros ?%elem_of_nil]. cbv zeta.
  set (index := if (_ <? _)%nat then _ else _).
  destruct (day_attractions d !! index) as [moved|] eqn:Hm; [|by intros ?%elem_of_nil].
  pose proof (delete_Permutation _ _ _ Hm) as Hperm.
  intros [Hin|Hin]%elem_of_app; apply list_elem_of_fmap in Hin as (x & -> & Hx); cbn [mv_plan].
  - eapply edited_day; [done|]. cbn [app]. by rewrite insert_at_perm.
  - destruct x as [target insertion]. cbn [fst snd]. apply elem_of_move_targets in Hx as [Hne Hlt].
    assert (Hs : (source < length (plan_days p))%nat) by (by eapply lookup_lt_Some).
    destruct (lookup_lt_is_Some_2 (plan_days p) target) as [d' Hd']; [lia|].
    split; [|by rewrite !edit_day_length]. cbn [app]. symmetry.
    by eapply (move_attractions source target insertion moved (delete index (day_attractions d)) p d d').
Qed.

Lemma removals_of_edited p position m :
  m ∈ removals_of p position → ∃ a, edited p (mv_plan m) [a] ∧ mv_name m = at_name a.
Proof.
  unfold removals_of. destruct (plan_days p !! position) as [d|] eqn:Hd; [|by intros ?%elem_of_nil].
  intros [i Hi]%list_elem_of_lookup_1. rewrite list_lookup_imap in Hi.
  destruct (day_attractions d !! i) as [a|] eqn:Ha; [|done]. injection Hi as <-. exists a.
  split; [|done]. by eapply edited_delete.
Qed.

Lemma postpone_edited s t : edited s.1 (postpone s t).1 [].
Proof.
  destruct s as [working names]. unfold postpone.
  destruct (day_position _ _) as [position|]; [|apply edited_refl].
  destruct (plan_days working !! position) as [d|] eqn:Hd; [|apply edited_refl]. cbv zeta.
  destruct (find_attraction_from _ _ _ _) as [index|]; [|apply edited_refl].
  destruct (_ =? _)%nat; [apply edited_refl|].
  destruct (day_attractions d !! index) as [moved|] eqn:Hm; [|apply edited_refl]. cbn [fst].
  eapply edited_day; [done|]. cbn [app]. rewrite Permutation_app_comm. by apply delete_Permutation.
Qed.

Lemma postpone_all_edited targets s : edited s.1 (foldl postpone s targets).1 [].
Proof.
  revert s. induction targets as [|t targets IH]; intros s; [apply edited_refl|].
  cbn [foldl]. apply (edited_trans _ (postpone s t).1 _ [] []); [apply postpone_edited|apply IH].
Qed.

Lemma remove_all_edited removals working reduced :
  remove_all working removals = Ok reduced →
  ∃ removed, edited working reduced removed ∧ length removed = length removals.
Proof.
  revert working. induction removals as [|[[position index] a] removals IH]; intros working; cbn [remove_all].
  - intros [= <-]. exists []. split; [apply edited_refl|done].
  - destruct (plan_days working !! position) as [d|] eqn:Hd; [|done].
    destruct (day_attractions d !! index) as [x|] eqn:Hx; [|done]. intros Hr.
    apply IH in Hr as (removed & He & Hl). exists (x :: removed). split; [|simpl; lia].
    apply (edited_trans _ (edit_day position (delete index) working) _ [x] removed); [by eapply edited_delete|done].
Qed.

(** ** The searches *)

Lemma collect_moves_sound signature max moves seen candidates :
  0 < max → Z.of_nat (length candidates) <= max →
  let found := collect_moves signature max moves seen candidates in
  Z.of_nat (length found) <= max ∧ ∀ m, m ∈ found → m ∈ candidates ∨ m ∈ moves.
Proof.
  intros Hmax. revert seen candidates. induction moves as [|m moves IH]; intros seen candidates Hl; cbn [collect_moves].
  - split; [done|]. auto.
  - destruct (Z.leb_spec max (Z.of_nat (length candidates))); [split; [done|]; auto|].
    destruct (bool_decide _).
    + destruct (IH seen candidates Hl) as [H1 H2]. split; [done|]. intros x Hx.
      destruct (H2 x Hx); [by left|right; by right].
    + destruct (IH (signature (mv_plan m) :: seen) (candidates ++ [m])%list) as [H1 H2].
      { rewrite length_app. simpl. lia. }
      split; [done|]. intros x Hx. destruct (H2 x Hx) as [Hc|Hc]; [|right; by right].
      apply elem_of_app in Hc as [Hc|Hc%list_elem_of_singleton]; [by left|right; subst; left].
Qed.

Section Sound.
Context `{MathEnv} `{HashEnv}.
Context (tc : TimelineSettings) (cc : ConstraintSettings) (max : Z) (req : TripRequest).
Context (attractions weather : option json).

(** A plan that was measured and pays. *)
Definition pays (baseline : Q) (plan : TripPlan) (cost : Q) : Prop :=
  (∃ constraints, measure tc cc req attractions weather plan = Ok (constraints, cost))
  ∧ (cost + (1 # 100) < baseline)%Q.

Lemma best_move_sound baseline moves best b :
  best_move tc cc req attractions weather baseline moves best = Ok (Some b) →
  best = Some b ∨ bt_move b ∈ moves ∧ pays baseline (mv_plan (bt_move b)) (bt_cost b).
Proof.
  revert best. induction moves as [|m moves IH]; intros best; cbn [best_move]; [intros [= ->]; by left|].
  destruct (measure _ _ _ _ _ (mv_plan m)) as [[constraints cost]|] eqn:Hm; [|done]. cbn [mbind result_bind].
  intros Hb. apply IH in Hb as [Hb|[Hin Hpay]]; [|right; split; [by right|done]].
  destruct (Qle_bool baseline (cost + (1 # 100))) eqn:Hc; [by left|].
  assert (Hp : pays baseline (mv_plan m) cost).
  { split; [by exists constraints|]. apply Qnot_le_lt. intros Hle. apply Qle_bool_iff in Hle. congruence. }
  destruct best as [b0|]; [destruct (cheaper _ b0)|]; simplify_eq; try (by left);
    right; (split; [left|done]).
Qed.

Lemma issue_moves_all p issues m :
  m ∈ concat (map (issue_moves p) issues) → edited p (mv_plan m) [].
Proof.
  rewrite list_elem_of_In, in_concat. intros (l & (i & <- & _)%in_map_iff & Hm).
  apply (issue_moves_edited p i). by apply list_elem_of_In.
Qed.

Lemma removals_all p positions m :
  m ∈ concat (map (removals_of p) positions) → ∃ a, edited p (mv_plan m) [a] ∧ mv_name m = at_name a.
Proof.
  rewrite list_elem_of_In, in_concat. intros (l & (i & <- & _)%in_map_iff & Hm).
  apply (removals_of_edited p i). by apply list_elem_of_In.
Qed.

(** What every candidate satisfies. *)
Definition candidate_sound (p : TripPlan) (baseline : Q) (cand : PlanCandidate) : Prop :=
  ∃ removed names considered cost,
    edited p (cand_plan cand) removed
    ∧ od_get "removed_attraction_names" (cand_fields cand) = Some (JArr (map JStr names))
    ∧ length names = length removed
    ∧ od_get "considered_candidates" (cand_fields cand) = Some (JInt considered)
    ∧ 0 < considered <= 2 * max
    ∧ pays baseline (cand_plan cand) cost.

Lemma repair_opening_hours_sound p report baseline cand :
  0 < max → repair_opening_hours tc cc max req attractions weather p report baseline = Ok (Some cand) →
  candidate_sound p baseline cand
  ∧ ∃ constraints cost, measure tc cc req attractions weather (cand_plan cand) = Ok (constraints, cost)
      ∧ ∀ i, i ∈ ct_issues constraints → outside_hours i = false.
Proof.
  intros Hmax. unfold repair_opening_hours. destruct (hours_targets p report) as [|first others]; [done|].
  pose proof (postpone_all_edited (first :: others) (p, [])) as Hpost.
  destruct (foldl postpone (p, []) (first :: others)) as [working moved]. cbn [fst] in Hpost.
  destruct (measure _ _ _ _ _ working) as [[constraints cost]|] eqn:Hm; [|done]. cbn [mbind result_bind].
  set (remaining := filter _ _). destruct (bool_decide_reflect (remaining = [])) as [Hr|Hr].
  - destruct (Qlt_bool _ _) eqn:Hc; [|done]. intros [= <-]. apply Qlt_bool_iff in Hc. split.
    + exists [], [], 1, cost. split_and!; try done; [lia|]. split; [by exists constraints|done].
    + exists constraints, cost. split; [done|]. intros i Hi. apply not_true_is_false. intros Ho.
      assert (Hx : i ∈ remaining) by (by apply list_elem_of_filter). rewrite Hr in Hx. by apply elem_of_nil in Hx.
  - destruct (Z.ltb_spec max 2); [done|].
    destruct (removals_for working remaining) as [|r rs] eqn:Hrem; [done|]. cbv zeta. rewrite <- Hrem. clear r rs Hrem.
    set (removals := removals_for working remaining).
    destruct (remove_all working removals) as [reduced|] eqn:Hred; [|done]. cbn [mbind result_bind].
    destruct (measure _ _ _ _ _ reduced) as [[constraints' cost']|] eqn:Hm'; [|done]. cbn [mbind result_bind].
    destruct (existsb _ _) eqn:He; [done|]. destruct (Qle_bool _ _) eqn:Hc; [done|]. intros [= <-].
    apply remove_all_edited in Hred as (removed & Hed & Hlen). split.
    + exists removed, (reverse (map (fun r => at_name r.2) removals)), 2, cost'. split_and!; try done; [| |lia|].
      * by apply (edited_trans _ working _ [] removed).
      * by rewrite length_reverse, length_map.
      * split; [by exists constraints'|]. apply Qnot_le_lt. intros Hle. apply Qle_bool_iff in Hle. congruence.
    + exists constraints', cost'. split; [done|]. intros i Hi. unfold outside_hours.
      apply andb_false_iff. left. apply not_true_is_false. intros Hcode.
      apply not_true_iff_false in He. apply He, existsb_exists. exists i. split; [by apply list_elem_of_In|done].
Qed.
End Sound.

Lemma issue_moves_strategy p issues m :
  m ∈ concat (map (issue_moves p) issues) →
  mv_strategy m = "reorder_attraction_within_day" ∨ mv_strategy m = "move_attraction_between_days".
Proof.
  rewrite list_elem_of_In, in_concat. intros (l & (i & <- & _)%in_map_iff & Hm%list_elem_of_In).
  unfold issue_moves in Hm. destruct (day_position p _) as [source|]; [|by apply elem_of_nil in Hm].
  destruct (plan_days p !! source) as [d|]; [|by apply elem_of_nil in Hm]. cbv zeta in Hm.
  destruct (day_attractions d !! _) as [moved|]; [|by apply elem_of_nil in Hm].
  apply elem_of_app in Hm as [Hm|Hm]; apply list_elem_of_fmap in Hm as (x & -> & _); [by left|by right].
Qed.

Lemma removals_strategy p positions m :
  m ∈ concat (map (removals_of p) positions) → mv_strategy m = "remove_attraction_for_constraint_feasibility".
Proof.
  rewrite list_elem_of_In, in_concat. intros (l & (i & <- & _)%in_map_iff & Hm%list_elem_of_In).
  unfold removals_of in Hm. case_match; [|by apply elem_of_nil in Hm].
  apply list_elem_of_lookup_1 in Hm as [k Hk]. rewrite list_lookup_imap in Hk.
  destruct (_ !! k); [|done]. by injection Hk as <-.
Qed.

Lemma actionable_issue report : actionable report ≠ [] → ∃ i, i ∈ ct_issues report ∧ xi_repairable i = true.
Proof.
  unfold actionable. set (l := filter _ _). intros Hl.
  assert (Hp : py_sorted more_urgent l ≡ₚ l) by apply py_sorted_perm.
  destruct l as [|i l'] eqn:E; [apply Permutation_nil_r in Hp; done|].
  assert (Hi : i ∈ l) by (rewrite E; left). apply list_elem_of_filter in Hi as [? ?]. by exists i.
Qed.

Section Searched.
Context `{MathEnv} `{HashEnv}.
Context (tc : TimelineSettings) (cc : ConstraintSettings) (max : Z) (req : TripRequest).
Context (attractions weather : option json).

(** The opening hours of a candidate that says it repaired them. *)
Definition hours_repaired (cand : PlanCandidate) : Prop :=
  ∃ constraints cost, measure tc cc req attractions weather (cand_plan cand) = Ok (constraints, cost)
    ∧ (od_get "strategy" (cand_fields cand) = Some (JStr "reorder_attractions_for_opening_hours")
       ∨ od_get "strategy" (cand_fields cand) = Some (JStr "remove_attractions_outside_opening_hours") →
       ∀ i, i ∈ ct_issues constraints → outside_hours i = false).

Lemma search_sound p baseline issues cand :
  0 < max →
  (let moves := collect_moves signature max (concat (map (issue_moves p) issues)) [] [] in
   best ← best_move tc cc req attractions weather baseline moves None;
   match best with
   | Some b => mret (Some (chosen_candidate p baseline (fun _ => []) (Z.of_nat (length moves)) b))
   | None =>
       let removals := take (Z.to_nat max) (concat (map (removals_of p) (issue_positions p [] issues))) in
       best ← best_move tc cc req attractions weather baseline removals None;
       mret (chosen_candidate p baseline (fun b => [mv_name (bt_move b)])
               (Z.of_nat (length moves) + Z.of_nat (length removals)) <$> best)
   end) = Ok (Some cand) →
  candidate_sound tc cc max req attractions weather p baseline cand ∧ hours_repaired cand.
Proof.
  intros Hmax Hopt. cbv zeta in Hopt.
  set (moves := collect_moves _ _ _ _ _) in Hopt.
  destruct (collect_moves_sound signature max (concat (map (issue_moves p) issues)) [] [] Hmax ltac:(simpl; lia))
    as [Hlen Hin]. fold moves in Hlen, Hin.
  destruct (best_move _ _ _ _ _ baseline moves None) as [[b|]|] eqn:Hb; cbn [mbind result_bind] in Hopt; [| |done].
  - injection Hopt as <-. apply best_move_sound in Hb as [?|[Hbin Hpay]]; [done|].
    destruct (Hin _ Hbin) as [[]%elem_of_nil|Hmv].
    pose proof (issue_moves_strategy p issues _ Hmv) as Hst.
    apply issue_moves_all in Hmv. destruct moves as [|m0 moves0] eqn:Hmoves; [by apply elem_of_nil in Hbin|].
    split.
    + exists [], [], (Z.of_nat (length (m0 :: moves0))), (bt_cost b). split_and!; try done; simpl in *; lia.
    + destruct Hpay as [[cs Hcs] _]. exists cs, (bt_cost b). split; [done|]. cbn.
      by intros [[= Hs]|[= Hs]]; destruct Hst as [Hst|Hst]; rewrite Hst in Hs.
  - set (removals := take _ _) in Hopt.
    destruct (best_move _ _ _ _ _ baseline removals None) as [[b|]|] eqn:Hb2; cbn in Hopt; [|done|done].
    injection Hopt as <-. apply best_move_sound in Hb2 as [?|[Hbin Hpay]]; [done|].
    assert (Hrl : 0 < Z.of_nat (length removals) <= max).
    { unfold removals. rewrite length_take. destruct removals eqn:E; [by apply elem_of_nil in Hbin|].
      subst removals. apply (f_equal length) in E. rewrite length_take in E. simpl in E. lia. }
    apply elem_of_take in Hbin as (k & Hk & _). apply list_elem_of_lookup_2 in Hk.
    pose proof (removals_strategy p _ _ Hk) as Hst.
    apply removals_all in Hk as (a & Hed & Hname). split.
    + exists [a], [mv_name (bt_move b)], (Z.of_nat (length moves) + Z.of_nat (length removals)), (bt_cost b).
      split_and!; try done; lia.
    + destruct Hpay as [[cs Hcs] _]. exists cs, (bt_cost b). split; [done|]. cbn.
      by intros [[= Hs]|[= Hs]]; rewrite Hst in Hs.
Qed.
End Searched.


(** ** A run *)

Definition demo_constraint_report : TripConstraintReport :=
  match demo_constraints with Ok r => r | Err _ => mkConstraintReport "" 0 0 0 0 0 true false [] [] end.

(** The temple is open in the evening only: it goes to the end of its day. *)
Notation demo_repaired :=
  (@optimize_plan_constraints demo_math constant_hash default_timeline default_constraints 8 wishful_request
    (Some demo_attractions) (Some demo_weather) trip_plan demo_constraint_report).

Definition repaired_candidate : PlanCandidate :=
  match demo_repaired with
  | Ok (Some cand) => cand
  | _ => mkCandidate trip_plan [] [] []
  end.

