(* ===== verification/ContentRefill.v ===== *)
(** [MinimumAttractionRefillOptimizer] (src/app/plan_content/optimizer.py):
    unused candidates are inserted one by one, each at its best place, until the
    plan has the attractions it needs.

    [refill_candidate_sound] states what a candidate adds and that its
    approximate schedule fits into the days. *)

From S2P Require Import Prelude FloatMath PyData ClockText TripSchema AmapModels PlanReports PlanEdits OrderedDict PlanRoutes PlanContent.
From S2P Require Import RouteScoring ToolModels AgentState Convergence Timeline TimelineTheorems ScheduleOptimizer Commute Candidates CommuteRepair.
From Stdlib Require Import ZArith QArith Qround Lia Lqa String.
From stdpp Require Import base tactics option list strings.

Open Scope string_scope.
Open Scope Z_scope.

Record RefillSettings := mkRefillSettings {
  rf_minimum_total_attractions : Z; rf_max_candidates : Z; rf_default_visit_duration_minutes : Z
}.

(** [MinimumAttractionRefillOptimizer.__init__] *)
Definition new_refill_optimizer (minimum max minutes : Z) : result exn RefillSettings :=
  if minimum <? 1 then Err (ValueError "minimum_total_attractions must be at least 1")
  else if max <? 1 then Err (ValueError "max_candidates must be at least 1")
  else if minutes <? 1 then Err (ValueError "default_visit_duration_minutes must be at least 1")
  else Ok (mkRefillSettings minimum max minutes).

(** [required_total] *)
Definition required_total (c : RefillSettings) (req : TripRequest) (p : TripPlan) : Z :=
  let days := Z.of_nat (length (plan_days p)) in
  let day_count := Z.max 1 (Z.min (req_travel_days req) (if days =? 0 then req_travel_days req else days)) in
  Z.min (rf_minimum_total_attractions c) day_count.

(** [_to_attraction] *)
Definition refill_attraction (c : RefillSettings) (source : AttractionCandidate) : Attraction :=
  let details :=
    (filter (fun v => v ≠ "") [ac_district source; ac_category source]
     ++ match ac_rating source with
        | Some r => ["高德评分 " ++ format_1f r]%string
        | None => []
        end)%list in
  mkAttraction (ac_name source) (str_or (ac_address source) "地址待确认") (ac_location source)
    (rf_default_visit_duration_minutes c) (str_or (String.concat "；" details) "高德地图候选景点")
    (Some (str_or (ac_category source) "景点")) (ac_rating source) (Some []) (Some (ac_poi_id source)) None 0.

(** One insertion the loops try: which source, and where it goes. *)
Record Placement := mkPlacement {
  pl_available : nat; pl_order : nat; pl_source : AttractionCandidate;
  pl_day : nat; pl_insertion : nat
}.

Definition placements (p : TripPlan) (available : list (nat * AttractionCandidate)) : list Placement :=
  concat (imap (fun position os =>
    concat (imap (fun day d =>
      map (mkPlacement position os.1 os.2 day) (seq 0 (length (day_attractions d) + 1))) (plan_days p)))
    available).

(** The rank of an insertion; the least one wins. *)
Record PlacementRank := mkPlacementRank {
  pr_total : Z; pr_day : Z; pr_proximity : Q; pr_preference : Z; pr_rating : Q;
  pr_index : Z; pr_insertion : Z; pr_order : Z
}.

Definition rank_below (x y : PlacementRank) : bool :=
  lexZ (pr_total x) (pr_total y)
    (lexZ (pr_day x) (pr_day y)
      (lexQ (pr_proximity x) (pr_proximity y)
        (lexZ (- pr_preference x) (- pr_preference y)
          (lexQ (- pr_rating x) (- pr_rating y)
            (lexZ (pr_index x) (pr_index y)
              (lexZ (pr_insertion x) (pr_insertion y) (pr_order x <? pr_order y))))))).

Record Refilled := mkRefilled {
  fb_rank : PlacementRank; fb_plan : TripPlan; fb_placement : Placement; fb_index : Z
}.

(** What the [while] loop carries along. *)
Record RefillState := mkRefillState {
  fs_plan : TripPlan; fs_available : list (nat * AttractionCandidate);
  fs_added : list AttractionCandidate; fs_days : list Z; fs_considered : Z
}.

Section Refill.
Context `{MathEnv} `{HashEnv} `{CandidateModel}.
Context (tc : TimelineSettings) (c : RefillSettings) (req : TripRequest).

(** [_placement_distance_km] *)
Definition insertion_distance_km (p : TripPlan) (position insertion : nat) (d : DayPlan) (a : Attraction)
    : result exn Q :=
  let '(start_hotel, return_hotel) := resolve_day_hotels (plan_days p) position in
  let previous := if (0 <? insertion)%nat
                  then attraction_stop <$> day_attractions d !! (insertion - 1)%nat
                  else hotel_stop start_hotel in
  let following := if (insertion <? length (day_attractions d))%nat
                   then attraction_stop <$> day_attractions d !! insertion
                   else hotel_stop return_hotel in
  before ← match previous with Some q => haversine_km q (attraction_stop a) | None => Ok 0%Q end;
  after ← match following with Some q => haversine_km (attraction_stop a) q | None => Ok 0%Q end;
  mret (0 + before + after
        + match previous, following with None, None => 10000 | _, _ => 0 end)%Q.

(** The rank of an insertion whose approximate schedule fits, [None] when it
    does not. *)
Definition rank_placement (working candidate : TripPlan) (report : ScheduleQualityReport)
    (pl : Placement) (d : DayPlan) : result exn (option Refilled) :=
  match sq_days report !! pl_day pl with
  | None => Err (IndexError "list index out of range")
  | Some day_report =>
      if (0 <? sq_infeasible_days report) || (0 <? sq_total_overtime_minutes report) then mret None
      else
        let a := refill_attraction c (pl_source pl) in
        proximity ← insertion_distance_km working (pl_day pl) (pl_insertion pl) d a;
        let index := effective_day_index (pl_day pl) d in
        mret (Some (mkRefilled
          (mkPlacementRank (sq_total_transportation_minutes report) (ds_transportation_minutes day_report)
             (round_n 4 proximity) (preference_score req (pl_source pl))
             (default 0%Q (ac_rating (pl_source pl))) index (Z.of_nat (pl_insertion pl))
             (Z.of_nat (pl_order pl)))
          candidate pl index))
  end.

(** The three nested loops, which stop together at [max_candidates]. *)
Fixpoint try_placements (working : TripPlan) (l : list Placement) (considered : Z) (best : option Refilled)
    : result exn (option Refilled * Z) :=
  match l with
  | [] => mret (best, considered)
  | pl :: l =>
      if rf_max_candidates c <=? considered then mret (best, considered)
      else
        match plan_days working !! pl_day pl with
        | None => Err (IndexError "list index out of range")
        | Some d =>
            let candidate := edit_day (pl_day pl)
                               (insert_at (pl_insertion pl) (refill_attraction c (pl_source pl))) working in
            report ← approximate tc req candidate;
            found ← rank_placement working candidate report pl d;
            try_placements working l (considered + 1)
              (match found, best with
               | Some f, Some b => if rank_below (fb_rank f) (fb_rank b) then Some f else best
               | Some f, None => Some f
               | None, _ => best
               end)
        end
  end.

(** One turn of the [while]; [None] leaves the method without a candidate. *)
Definition refill_turn (s : RefillState) : result exn (option RefillState) :=
  tried ← try_placements (fs_plan s) (placements (fs_plan s) (fs_available s)) (fs_considered s) None;
  mret (match tried.1 with
        | None => None
        | Some b =>
            Some (mkRefillState (fb_plan b) (delete (pl_available (fb_placement b)) (fs_available s))
                    (fs_added s ++ [pl_source (fb_placement b)])%list (fs_days s ++ [fb_index b])%list tried.2)
        end).

(** A turn uses up one of the available sources: as much fuel is enough. *)
Fixpoint refill_loop (fuel : nat) (required : Z) (s : RefillState) : result exn (option RefillState) :=
  match fuel with
  | O => mret (Some s)
  | S fuel =>
      if negb (count_attractions (fs_plan s) <? required) || bool_decide (fs_available s = []) then mret (Some s)
      else
        next ← refill_turn s;
        match next with
        | None => mret None
        | Some s => refill_loop fuel required s
        end
  end.

Definition refill_sources (p : TripPlan) (attractions : option json) (excluded : list string)
    : list AttractionCandidate :=
  let used := map (fun a => content_identity (at_poi_id a) (at_name a)) (all_attractions p) in
  filter (fun a => candidate_identity_of a ∉ (used ++ excluded)%list) (parse_candidates "地址待确认" attractions).

(** The [ContentRefillCandidate] with its fields in order. *)
Definition content_refill_candidate (p : TripPlan) (s : RefillState) : PlanCandidate :=
  let names := map ac_name (fs_added s) in
  let ids := map ac_poi_id (fs_added s) in
  mkCandidate (fs_plan s) names ids
    [("added_attraction_names", JArr (map JStr names)); ("added_attraction_ids", JArr (map JStr ids));
     ("target_day_indices", JArr (map JInt (fs_days s)));
     ("baseline_attraction_count", JInt (count_attractions p));
     ("candidate_attraction_count", JInt (count_attractions (fs_plan s)));
     ("considered_candidates", JInt (fs_considered s));
     ("strategy", JStr "refill_nearby_unused_attractions")].

(** [optimize] *)
Definition optimize_refill (p : TripPlan) (attractions : option json) (excluded : list string)
    : result exn (option PlanCandidate) :=
  let required := required_total c req p in
  if required <=? count_attractions p then mret None
  else
    match refill_sources p attractions excluded with
    | [] => mret None
    | sources =>
        s ← refill_loop (length sources) required
              (mkRefillState p (zip (seq 0 (length sources)) sources) [] [] 0);
        mret (match s with
              | Some s => if count_attractions (fs_plan s) <? required then None
                          else Some (content_refill_candidate p s)
              | None => None
              end)
    end.
End Refill.

(** ** Soundness *)

Lemma elem_of_placements p available pl :
  pl ∈ placements p available →
  available !! pl_available pl = Some (pl_order pl, pl_source pl)
  ∧ ∃ d, plan_days p !! pl_day pl = Some d ∧ (pl_insertion pl <= length (day_attractions d))%nat.
Proof.
  unfold placements. rewrite list_elem_of_In, in_concat. intros (l & Hl%list_elem_of_In & Hin).
  apply list_elem_of_lookup_1 in Hl as [i Hi]. rewrite list_lookup_imap in Hi.
  destruct (available !! i) as [[order source]|] eqn:Ha; [|done]. injection Hi as <-.
  apply in_concat in Hin as (l & Hl%list_elem_of_In & Hin). apply list_elem_of_lookup_1 in Hl as [j Hj].
  rewrite list_lookup_imap in Hj. destruct (plan_days p !! j) as [d|] eqn:Hd; [|done]. injection Hj as <-.
  apply in_map_iff in Hin as (k & <- & Hk). apply in_seq in Hk. cbn. split; [done|]. exists d. split; [done|lia].
Qed.

(** The attractions of every day are still there, in their order. *)
Definition keeps_days (p q : TripPlan) : Prop :=
  Forall2 (fun d d' => day_attractions d `sublist_of` day_attractions d'
                       ∧ d' = with_attractions d (day_attractions d')) (plan_days p) (plan_days q).

Lemma keeps_days_refl p : keeps_days p p.
Proof. apply Forall2_same_length_lookup. split; [done|]. intros i d d' H1 H2. rewrite H1 in H2. injection H2 as <-. by destruct d. Qed.

Lemma keeps_days_trans p q r : keeps_days p q → keeps_days q r → keeps_days p r.
Proof.
  unfold keeps_days. rewrite !Forall2_same_length_lookup. intros [H1 H1'] [H2 H2'].
  split; [congruence|]. intros i d d'' Hd Hd''.
  destruct (lookup_lt_is_Some_2 (plan_days q) i) as [d' Hd'];
    [rewrite <- H1; by eapply lookup_lt_Some|].
  destruct (H1' i d d' Hd Hd') as [Hs He]. destruct (H2' i d' d'' Hd' Hd'') as [Hs' He'].
  split; [by etrans|]. rewrite He' at 1. by rewrite He.
Qed.

Lemma insert_at_sublist {A} i (x : A) l : l `sublist_of` insert_at i x l.
Proof.
  unfold insert_at. rewrite <- (take_drop i l) at 1. apply sublist_app; [done|]. by apply sublist_cons.
Qed.

Lemma keeps_days_insert p position insertion a d :
  plan_days p !! position = Some d → keeps_days p (edit_day position (insert_at insertion a) p).
Proof.
  intros Hd. apply Forall2_same_length_lookup. split; [by rewrite edit_day_length|]. intros i x x' Hx Hx'.
  destruct (decide (i = position)) as [->|Hne].
  - rewrite (edit_day_lookup_eq _ _ _ _ Hd) in Hx'. rewrite Hd in Hx. injection Hx as <-. injection Hx' as <-.
    cbn. split; [apply insert_at_sublist|done].
  - rewrite edit_day_lookup_ne, Hx in Hx' by done. injection Hx' as <-. by destruct x.
Qed.

Lemma count_attractions_all p : count_attractions p = Z.of_nat (length (all_attractions p)).
Proof.
  unfold count_attractions, all_attractions. induction (plan_days p) as [|d l IH]; [done|].
  cbn [foldr map concat]. rewrite length_app. lia.
Qed.

Section Sound.
Context `{MathEnv} `{HashEnv} `{CandidateModel}.
Context (tc : TimelineSettings) (c : RefillSettings) (req : TripRequest).

(** A plan whose approximate schedule fits into its days. *)
Definition fits (p : TripPlan) : Prop :=
  ∃ report, approximate tc req p = Ok report
    ∧ sq_infeasible_days report <= 0 ∧ sq_total_overtime_minutes report <= 0.

(** What a placement found for [working] is. *)
Definition placed (working : TripPlan) (l : list Placement) (b : Refilled) : Prop :=
  fb_placement b ∈ l ∧ fits (fb_plan b)
  ∧ fb_plan b = edit_day (pl_day (fb_placement b))
                  (insert_at (pl_insertion (fb_placement b)) (refill_attraction c (pl_source (fb_placement b)))) working.

Lemma placed_cons working pl l b : placed working l b → placed working (pl :: l) b.
Proof. intros (G1 & G2 & G3). split; [by right|done]. Qed.

Lemma try_placements_sound working l considered best b n :
  considered <= rf_max_candidates c →
  try_placements tc c req working l considered best = Ok (b, n) →
  considered <= n <= rf_max_candidates c
  ∧ ∀ x, b = Some x → best = Some x ∨ placed working l x ∧ considered < n.
Proof.
  revert considered best. induction l as [|pl l IH]; intros considered best Hc; cbn [try_placements].
  { intros [= <- <-]. split; [lia|]. auto. }
  destruct (Z.leb_spec (rf_max_candidates c) considered); [intros [= <- <-]; split; [lia|auto]|].
  destruct (plan_days working !! pl_day pl) as [d|] eqn:Hd; [|done]. cbv zeta.
  set (candidate := edit_day _ _ _). destruct (approximate tc req candidate) as [report|] eqn:Ha; [|done].
  cbn [mbind result_bind].
  destruct (rank_placement c req working candidate report pl d) as [found|] eqn:Hf; [|done]. cbn [mbind result_bind].
  intros Ht. apply IH in Ht as [Hn Hb]; [|lia]. split; [lia|]. intros x Hx.
  destruct (Hb x Hx) as [Hbest|[Hp ?]]; [|right; split; [by apply placed_cons|lia]].
  assert (Hfound : ∀ f, found = Some f → placed working (pl :: l) f).
  { intros f ->. unfold rank_placement in Hf. destruct (sq_days report !! _) as [dr|]; [|done].
    destruct (_ || _) eqn:Ho; [done|]. apply orb_false_iff in Ho as [G1%Z.ltb_ge G2%Z.ltb_ge]. cbv zeta in Hf.
    destruct (insertion_distance_km _ _ _ _ _) as [q|]; [|done]. injection Hf as <-.
    split; [left|]. split; [by exists report|done]. }
  destruct found as [f|]; [|by left]. destruct best as [b0|].
  - destruct (rank_below _ _); [|by left]. injection Hbest as <-. right. split; [by apply Hfound|lia].
  - injection Hbest as <-. right. split; [by apply Hfound|lia].
Qed.
End Sound.

Section Loop.
Context `{MathEnv} `{HashEnv} `{CandidateModel}.
Context (tc : TimelineSettings) (c : RefillSettings) (req : TripRequest).
Context (p : TripPlan) (sources : list AttractionCandidate) (required : Z).

(** The invariant of the [while]. *)
Record refilled (s : RefillState) : Prop := {
  rw_attractions : all_attractions (fs_plan s) ≡ₚ (map (refill_attraction c) (fs_added s) ++ all_attractions p)%list;
  rw_days : keeps_days p (fs_plan s);
  rw_sources : (fs_added s ++ map snd (fs_available s))%list ≡ₚ sources;
  rw_targets : length (fs_days s) = length (fs_added s);
  rw_considered : 0 <= fs_considered s <= rf_max_candidates c;
  rw_required : count_attractions (fs_plan s) <= required;
  rw_added : fs_added s ≠ [] → 0 < fs_considered s ∧ fits tc req (fs_plan s)
}.

Lemma refill_turn_sound s s' :
  count_attractions (fs_plan s) < required → refilled s → refill_turn tc c req s = Ok (Some s') →
  refilled s' ∧ S (length (fs_available s')) = length (fs_available s).
Proof.
  intros Hlt [Ha Hd Hs Ht Hc Hr _]. unfold refill_turn.
  destruct (try_placements _ _ _ _ _ _ _) as [[b n]|] eqn:Htry; [|done]. cbn [mbind result_bind mret result_ret fst snd].
  destruct b as [b|]; [|done]. intros [= <-].
  apply try_placements_sound in Htry as [Hn Hb]; [|lia].
  destruct (Hb b eq_refl) as [?|[(Hin & Hfit & Hplan) Hlt']]; [done|].
  apply elem_of_placements in Hin as (Hav & d & Hday & _).
  set (a := refill_attraction c (pl_source (fb_placement b))) in *.
  assert (Hperm : all_attractions (fb_plan b) ≡ₚ a :: all_attractions (fs_plan s)).
  { rewrite Hplan. destruct (edit_day_attractions (pl_day (fb_placement b))
      (insert_at (pl_insertion (fb_placement b)) a) (fs_plan s) d Hday) as (others & G1 & G2).
    by rewrite G2, insert_at_perm, G1. }
  split; [split; cbn [fs_plan fs_available fs_added fs_days fs_considered]|].
  - rewrite Hperm, Ha, map_app. cbn [map]. rewrite <- (assoc_L (++)%list). cbn [app].
    by rewrite <- Permutation_middle.
  - eapply keeps_days_trans; [exact Hd|]. rewrite Hplan. by eapply keeps_days_insert.
  - rewrite <- Hs, <- (assoc_L (++)%list). apply Permutation_app_head. cbn [app].
    pose proof (delete_Permutation _ _ _ Hav) as Hdel. apply (Permutation_map snd) in Hdel. by rewrite Hdel.
  - rewrite !length_app, Ht. done.
  - lia.
  - rewrite count_attractions_all in Hlt |- *. rewrite (Permutation_length Hperm). cbn [length]. lia.
  - intros _. split; [lia|done].
  - cbn [fs_available]. pose proof (length_delete (fs_available s) (pl_available (fb_placement b))) as Hl.
    rewrite Hl by (by eexists). apply lookup_lt_Some in Hav. lia.
Qed.

Lemma refill_loop_sound fuel s s' :
  refilled s → refill_loop tc c req fuel required s = Ok (Some s') → refilled s'.
Proof.
  revert s. induction fuel as [|fuel IH]; intros s Hs; cbn [refill_loop]; [by intros [= <-]|].
  destruct (Z.ltb_spec (count_attractions (fs_plan s)) required) as [Hlt|]; cbn [negb orb]; [|by intros [= <-]].
  destruct (bool_decide _); [by intros [= <-]|].
  destruct (refill_turn tc c req s) as [[next|]|] eqn:Hn; cbn [mbind result_bind]; [|done|done].
  apply IH. by eapply refill_turn_sound.
Qed.

(** The loop never runs out of fuel. *)
Lemma refill_loop_fuel fuel s :
  refilled s → (length (fs_available s) <= fuel)%nat →
  refill_loop tc c req fuel required s = refill_loop tc c req (length (fs_available s)) required s.
Proof.
  remember (length (fs_available s)) as n eqn:Hn. revert fuel s Hn.
  induction n as [|n IH]; intros fuel s Hn Hs Hle.
  - destruct fuel as [|fuel]; [done|]. cbn [refill_loop].
    rewrite (bool_decide_true (fs_available s = [])), orb_true_r; [done|]. by destruct (fs_available s).
  - destruct fuel as [|fuel]; [lia|]. cbn [refill_loop].
    destruct (Z.ltb_spec (count_attractions (fs_plan s)) required) as [Hlt|]; cbn [negb orb]; [|done].
    destruct (bool_decide _); [done|].
    destruct (refill_turn tc c req s) as [[next|]|] eqn:Hnext; cbn [mbind result_bind]; [|done|done].
    apply refill_turn_sound in Hnext as [Hnext Hl]; [|done|done]. apply IH; [lia|done|lia].
Qed.
End Loop.

(** C32: a refill candidate has exactly the number of attractions the trip needs:
    the attractions of every day stay in their order, and the new ones
    come from distinct entries of the pool that are neither in the plan nor
    excluded.  The approximate schedule of the new plan has no overtime, and at
    most [max_candidates] plans were evaluated.  The loop never needs more turns
    than there are sources. *)
Theorem refill_candidate_sound `{MathEnv} `{HashEnv} `{CandidateModel} tc minimum max minutes c req p
    attractions excluded cand :
  new_refill_optimizer minimum max minutes = Ok c →
  optimize_refill tc c req p attractions excluded = Ok (Some cand) →
  (∃ added,
     all_attractions (cand_plan cand) ≡ₚ (map (refill_attraction c) added ++ all_attractions p)%list
     ∧ Forall2 (fun d d' => day_attractions d `sublist_of` day_attractions d') (plan_days p)
         (plan_days (cand_plan cand))
     ∧ added ⊆+ parse_candidates "地址待确认" attractions
     ∧ Forall (fun a => candidate_identity_of a ∉ excluded
         ∧ candidate_identity_of a ∉ map (fun a => content_identity (at_poi_id a) (at_name a)) (all_attractions p)) added
     ∧ cand_names cand = map ac_name added ∧ added ≠ [])
  ∧ count_attractions (cand_plan cand) = required_total c req p
  ∧ fits tc req (cand_plan cand)
  ∧ (∃ considered, od_get "considered_candidates" (cand_fields cand) = Some (JInt considered)
       ∧ 0 < considered <= max)
  ∧ ∀ s more, refilled tc c req p (refill_sources p attractions excluded) (required_total c req p) s →
      refill_loop tc c req (length (fs_available s) + more) (required_total c req p) s
      = refill_loop tc c req (length (fs_available s)) (required_total c req p) s.
Proof.
  intros Hnew. assert (Hmax : rf_max_candidates c = max ∧ 0 < max).
  { unfold new_refill_optimizer in Hnew. destruct (minimum <? 1); [done|].
    destruct (Z.ltb_spec max 1); [done|]. destruct (minutes <? 1); [done|]. injection Hnew as <-. split; [done|lia]. }
  destruct Hmax as [Hmax Hpos]. unfold optimize_refill. set (required := required_total c req p).
  set (all := refill_sources p attractions excluded).
  destruct (Z.leb_spec required (count_attractions p)) as [|Hlt]; [done|].
  assert (Hfuel : ∀ s more, refilled tc c req p all required s →
    refill_loop tc c req (length (fs_available s) + more) required s
    = refill_loop tc c req (length (fs_available s)) required s).
  { intros s more Hs. eapply refill_loop_fuel; [exact Hs|lia]. }
  intros Hopt. assert (Hne : all ≠ []) by (by intros E; rewrite E in Hopt).
  assert (Hopt' : (s ← refill_loop tc c req (length all) required
      (mkRefillState p (zip (seq 0 (length all)) all) [] [] 0);
    mret (match s with
          | Some s => if count_attractions (fs_plan s) <? required then None
                      else Some (content_refill_candidate p s)
          | None => None end)) = Ok (Some cand)) by (destruct all; done).
  clear Hopt. destruct (refill_loop _ _ _ _ _ _) as [[s|]|] eqn:Hloop; cbn in Hopt'; [|done|done].
  assert (Hs : refilled tc c req p all required s).
  { eapply refill_loop_sound; [|exact Hloop]. split; cbn; try done; [apply keeps_days_refl| |lia|lia].
    by rewrite snd_zip by (by rewrite length_seq). }
  destruct (Z.ltb_spec (count_attractions (fs_plan s)) required); [done|]. injection Hopt' as <-.
  assert (Hadded : fs_added s ≠ []).
  { intros E. pose proof (rw_attractions _ _ _ _ _ _ _ Hs) as Ha. rewrite E in Ha. cbn [map app] in Ha.
    rewrite count_attractions_all, Ha, <- count_attractions_all in *. lia. }
  destruct (rw_added _ _ _ _ _ _ _ Hs Hadded) as [Hcons Hfit]. destruct Hs as [Ha Hd Hsrc Ht Hc Hr _].
  cbn [cand_plan cand_names content_refill_candidate]. split_and!; try done; [|lia|exists (fs_considered s); split; [done|lia]].
  exists (fs_added s). split_and!; try done.
  - eapply Forall2_impl; [exact Hd|]. by intros d d' [? _].
  - etrans; [eapply submseteq_inserts_r; reflexivity|]. rewrite Hsrc. apply sublist_submseteq.
    unfold all, refill_sources. apply sublist_filter.
  - apply Forall_forall. intros a Hin.
    assert (Hall : a ∈ all) by (rewrite <- Hsrc; apply elem_of_app; by left).
    unfold all, refill_sources in Hall. apply list_elem_of_filter in Hall as [Hid _].
    rewrite elem_of_app in Hid. tauto.
Qed.

(** ** A run *)

(** The second day has lost its attraction. *)
Definition thin_plan : TripPlan :=
  mkTripPlan "北京" "2025-06-01" "2025-06-02" [trip_day "2025-06-01" 0 [lake]; trip_day "2025-06-02" 1 []]
    [] "" None.

Definition default_refill : RefillSettings := mkRefillSettings 2 24 120.

Definition refilled_candidate : PlanCandidate :=
  match @optimize_refill demo_math constant_hash near_model default_timeline default_refill trip_request thin_plan
          (Some demo_pool) ["id:b1"] with
  | Ok (Some cand) => cand
  | _ => mkCandidate thin_plan [] [] []
  end.

Lemma refill_candidate_sound_witness :
  @optimize_refill demo_math constant_hash near_model default_timeline default_refill trip_request thin_plan
    (Some demo_pool) ["id:b1"] = Ok (Some refilled_candidate)
  ∧ map (fun d => map at_name (day_attractions d)) (plan_days (cand_plan refilled_candidate)) = [["天坛"; "什刹海"]; []]
  ∧ count_attractions (cand_plan refilled_candidate) = 2.
Proof.
  assert (E : @optimize_refill demo_math constant_hash near_model default_timeline default_refill trip_request
    thin_plan (Some demo_pool) ["id:b1"] = Ok (Some refilled_candidate)) by (vm_compute; reflexivity).
  split; [exact E|]. split; [vm_compute; reflexivity|].
  refine (proj1 (proj2 (@refill_candidate_sound demo_math constant_hash near_model default_timeline 2 24 120
    default_refill trip_request thin_plan (Some demo_pool) ["id:b1"] refilled_candidate _ E))).
  reflexivity.
Defined.
