(* ===== verification/Validator.v ===== *)
(** The deterministic validation of a plan ([TripPlanValidator],
    src/app/validation/trip_validator.py).

    The code appends to one list of issues; here every check is the list it
    appends, in the order of the code.  A schedule or constraint report is
    typed; a route result that does not validate counts as none. *)

From S2P Require Import Prelude PyData FloatMath ClockText Calendar TripSchema AmapModels PlanReports PlanContent AgentDecision.
From Stdlib Require Import ZArith QArith Lia String.
From stdpp Require Import base tactics option list gmap strings.

Open Scope string_scope.
Open Scope Z_scope.

Definition issues : Type := list ValidationIssue.

(** [_error] and [_warning] *)
Definition error (code path message hint : string) (repairable : bool) (expected actual : json) : issues :=
  [mkIssue code SevError path message hint repairable expected actual].
Definition warning (code path message hint : string) (expected actual : json) : issues :=
  [mkIssue code SevWarning path message hint true expected actual].

Definition when (b : bool) (l : issues) : issues := if b then l else [].

(** ** Dates *)

(** [_parse_date] *)
Definition parse_date (value path code : string) (repairable : bool) : option date * issues :=
  match fromisoformat value with
  | Some d => (Some d, [])
  | None =>
      (None, error code path "日期必须使用 YYYY-MM-DD 格式"
               (if repairable then "根据用户请求改为合法的 YYYY-MM-DD 日期" else "修正用户请求日期后重新执行")
               repairable (JStr "YYYY-MM-DD") (JStr value))
  end.

(** The dates of the trip, and the issues of the request. *)
Definition validate_request_dates (request : TripRequest) : list date * issues :=
  let '(start, i1) := parse_date (req_start_date request) "request.start_date" "request.invalid_start_date" false in
  let '(stop, i2) := parse_date (req_end_date request) "request.end_date" "request.invalid_end_date" false in
  match start, stop with
  | Some start, Some stop =>
      if date_before stop start then
        ([], (i1 ++ i2 ++ error "request.invalid_date_range" "request.end_date" "请求结束日期早于开始日期"
               "修正用户请求中的日期范围后重新执行" false
               (JStr (">= " ++ req_start_date request)) (JStr (req_end_date request)))%list)
      else
        let calendar_days := ordinal stop - ordinal start + 1 in
        (map (fun offset => add_days offset start) (seq 0 (Z.to_nat calendar_days)),
         (i1 ++ i2 ++ when (negb (calendar_days =? req_travel_days request))
               (error "request.travel_days_mismatch" "request.travel_days" "请求中的旅行天数与起止日期不一致"
                  "修正 travel_days 或起止日期后重新执行" false
                  (JInt calendar_days) (JInt (req_travel_days request))))%list)
  | _, _ => ([], (i1 ++ i2)%list)
  end.

(** ** Places *)

Definition place_suffixes : list string :=
  ["特别行政区"; "维吾尔自治区"; "壮族自治区"; "回族自治区"; "自治区"; "省"; "市"].

(** [s.endswith(suffix)] and [s[:-len(suffix)]] *)
Definition ends_with (suffix s : string) : bool :=
  (String.length suffix <=? String.length s)%nat
  && String.eqb (str_drop (String.length s - String.length suffix) s) suffix.

Definition drop_suffix (suffix s : string) : string :=
  String.substring 0 (String.length s - String.length suffix) s.

(** [_normalize_place] *)
Definition normalize_place (value : string) : string :=
  let normalized := squash (ascii_lower value) in
  match find (fun suffix => ends_with suffix normalized) place_suffixes with
  | Some suffix => drop_suffix suffix normalized
  | None => normalized
  end.

(** [_matches_source] *)
Definition matches_source (value : string) (candidates : list string) : bool :=
  let normalized := normalize_place value in
  existsb (fun candidate =>
    String.eqb normalized (normalize_place candidate)
    || str_contains normalized (normalize_place candidate)
    || str_contains (normalize_place candidate) normalized) candidates.

(** [payload.get("name")] *)
Definition name_field (kvs : list (string * json)) : list string :=
  match obj_get "name" kvs with
  | Some (JStr value) => if is_blank value then [] else [py_strip value]
  | _ => []
  end.

(** [_extract_names]; the set as a list. *)
Fixpoint extract_names (payload : json) : list string :=
  match payload with
  | JObj kvs => (name_field kvs ++ concat (map (fun kv => extract_names kv.2) kvs))%list
  | JArr l => concat (map extract_names l)
  | _ => []
  end.

Definition source_names (payload : option json) : list string :=
  remove_dups (match payload with Some p => extract_names p | None => [] end).

Definition jstrings (l : list string) : json := JArr (map JStr l).

(** ** The plan as a whole *)

(** [_validate_plan_identity] *)
Definition validate_plan_identity (request : TripRequest) (plan : TripPlan) : issues :=
  (when (negb (String.eqb (normalize_place (plan_city plan)) (normalize_place (req_city request))))
     (error "plan.city_mismatch" "city" "行程城市与用户请求不一致" "将 city 修正为用户请求的目的地" true
        (JStr (req_city request)) (JStr (plan_city plan)))
   ++ when (negb (String.eqb (plan_start_date plan) (req_start_date request)))
        (error "plan.start_date_mismatch" "start_date" "行程开始日期与用户请求不一致"
           "将 start_date 修正为请求中的开始日期" true
           (JStr (req_start_date request)) (JStr (plan_start_date plan)))
   ++ when (negb (String.eqb (plan_end_date plan) (req_end_date request)))
        (error "plan.end_date_mismatch" "end_date" "行程结束日期与用户请求不一致"
           "将 end_date 修正为请求中的结束日期" true
           (JStr (req_end_date request)) (JStr (plan_end_date plan))))%list.

(** ** Days *)

Definition day_path (position : Z) : string := "days[" ++ str_of_Z position ++ "]".
Definition attraction_path (position index : Z) : string :=
  day_path position ++ ".attractions[" ++ str_of_Z index ++ "]".

(** The checks of a day's own date; [expected_dates] are those of the request. *)
Definition validate_day_date (expected_dates : list date) (seen_dates : list string) (position : Z) (day : DayPlan)
    : issues :=
  let path := day_path position in
  let '(parsed_date, i1) := parse_date (day_date day) (path ++ ".date") "day.invalid_date" true in
  (i1
   ++ when (bool_decide (day_date day ∈ seen_dates))
        (error "day.duplicate_date" (path ++ ".date") "存在重复的每日行程日期" "每个日期只保留一个 DayPlan" true
           JNull (JStr (day_date day)))
   ++ match expected_dates !! Z.to_nat position with
      | Some expected =>
          when (negb (String.eqb (day_date day) (isoformat expected)))
            (error "day.date_sequence_mismatch" (path ++ ".date") "每日行程日期未按请求日期连续排列"
               "按开始日期递增生成每天的 date" true (JStr (isoformat expected)) (JStr (day_date day)))
      | None =>
          when (bool_decide (is_Some parsed_date) && negb (bool_decide (expected_dates = [])))
            (error "day.date_out_of_range" (path ++ ".date") "每日行程日期超出请求范围"
               "删除范围外日期或改为请求范围内缺失的日期" true JNull (JStr (day_date day)))
      end)%list.

Definition validate_text_field (path field value : string) : issues :=
  when (is_blank value)
    (error ("day.empty_" ++ field) (path ++ "." ++ field) ("每日行程的 " ++ field ++ " 不能为空")
       ("补充该日的 " ++ field) true JNull (JStr value)).

Definition meal_types (day : DayPlan) : list string :=
  remove_dups (map (fun m => ascii_lower (py_strip (meal_type m))) (day_meals day)).

Definition main_meals : list string := ["breakfast"; "lunch"; "dinner"].

Definition validate_day_shape (position : Z) (day : DayPlan) : issues :=
  let path := day_path position in
  let count := Z.of_nat (length (day_attractions day)) in
  (when (negb (day_index day =? position))
     (error "day.index_mismatch" (path ++ ".day_index") "day_index 必须从 0 开始并与数组顺序一致"
        "按 days 数组顺序重新编号 day_index" true (JInt position) (JInt (day_index day)))
   ++ validate_text_field path "description" (day_description day)
   ++ validate_text_field path "transportation" (day_transportation day)
   ++ validate_text_field path "accommodation" (day_accommodation day)
   ++ (if count =? 0 then
         warning "day.no_attractions" (path ++ ".attractions") "当天没有安排景点"
           "如候选景点数据可用，建议安排 1-3 个景点" JNull (JInt 0)
       else when (4 <? count)
         (warning "day.too_many_attractions" (path ++ ".attractions") "当天景点数量较多，可能难以完成"
            "减少景点数量或拆分到其他日期" (JStr "<= 4") (JInt count)))
   ++ when (existsb (fun name => negb (bool_decide (name ∈ meal_types day))) main_meals)
        (warning "day.meals_incomplete" (path ++ ".meals") "当天未包含完整的早、中、晚餐建议"
           "补充缺失餐次，或明确由用户自行安排" (jstrings main_meals) (jstrings (sorted_strings (meal_types day)))))%list.

(** The first place of every identity met so far. *)
Definition Seen : Type := list (string * string).

Definition seen_at (seen : Seen) (identity : string) : option string :=
  snd <$> find (fun e => String.eqb e.1 identity) seen.

Definition validate_attraction (path : string) (a : Attraction) : issues :=
  let lon := longitude (at_location a) in
  let lat := latitude (at_location a) in
  (when (at_visit_duration a <=? 0)
     (error "attraction.invalid_visit_duration" (path ++ ".visit_duration") "景点游览时长必须大于 0"
        "填写合理的分钟数" true (JStr "> 0") (JInt (at_visit_duration a)))
   ++ when (negb (Qle_bool (-180 # 1) lon && Qle_bool lon (180 # 1))
            || negb (Qle_bool (-90 # 1) lat && Qle_bool lat (90 # 1)))
        (error "attraction.invalid_location" (path ++ ".location") "景点经纬度超出合法范围"
           "使用候选 POI 数据中的真实经纬度" true
           (JObj [("longitude", JStr "[-180, 180]"); ("latitude", JStr "[-90, 90]")])
           (JObj [("longitude", JFloat lon); ("latitude", JFloat lat)])))%list.

Fixpoint validate_attractions (position index : Z) (seen : Seen) (l : list Attraction) : Seen * issues :=
  match l with
  | [] => (seen, [])
  | a :: rest =>
      let path := attraction_path position index in
      let identity := normalizer_identity a in
      let '(seen, duplicate) :=
        match seen_at seen identity with
        | Some first_path =>
            (seen, error "attraction.duplicate_across_days" (path ++ ".name") "同一景点在多天行程中被重复安排"
                     "每个景点只安排一次，并从候选 POI 中选择其他不重复景点" true
                     (JStr "unique attraction across the trip")
                     (JObj [("name", JStr (at_name a)); ("first_occurrence", JStr first_path)]))
        | None => ((identity, path) :: seen, [])
        end in
      let '(seen, others) := validate_attractions position (index + 1) seen rest in
      (seen, (duplicate ++ validate_attraction path a ++ others)%list)
  end.

Fixpoint validate_day_list (expected_dates : list date) (position : Z) (seen_dates : list string) (seen : Seen)
    (days : list DayPlan) : issues :=
  match days with
  | [] => []
  | day :: rest =>
      let '(seen', attractions) := validate_attractions position 0 seen (day_attractions day) in
      (validate_day_date expected_dates seen_dates position day
       ++ validate_day_shape position day
       ++ attractions
       ++ validate_day_list expected_dates (position + 1) (day_date day :: seen_dates) seen' rest)%list
  end.

(** [_validate_days] *)
Definition validate_days (request : TripRequest) (plan : TripPlan) (expected_dates : list date) : issues :=
  (when (negb (Z.of_nat (length (plan_days plan)) =? req_travel_days request))
     (error "days.count_mismatch" "days" "每日行程数量与旅行天数不一致"
        "为旅行范围内的每一天生成且只生成一个 DayPlan" true
        (JInt (req_travel_days request)) (JInt (Z.of_nat (length (plan_days plan)))))
   ++ validate_day_list expected_dates 0 [] [] (plan_days plan))%list.


(** ** The content, the weather and the budget *)

(** [_validate_minimum_content] *)
Definition required_attractions (minimum_total : Z) (request : TripRequest) : Z :=
  Z.min minimum_total (Z.max 1 (req_travel_days request)).

Definition validate_minimum_content (minimum_total : Z) (request : TripRequest) (plan : TripPlan) : issues :=
  let required := required_attractions minimum_total request in
  let actual := count_attractions plan in
  when (actual <? required)
    (error (if actual =? 0 then "plan.no_attractions" else "plan.insufficient_attractions") "days"
       ("完整行程至少需要安排 " ++ str_of_Z required ++ " 个景点，当前只有 " ++ str_of_Z actual ++ " 个")
       "从已获取且未使用的候选 POI 中回填近距离景点，并重新评估真实路线与时间轴" false
       (JStr (">= " ++ str_of_Z required)) (JInt actual)).

(** [sorted(a - b)] of two sets *)
Definition sorted_minus (a b : list string) : list string :=
  sorted_strings (remove_dups (filter (fun s => s ∉ b) a)).

(** [_validate_weather] *)
Definition validate_weather (plan : TripPlan) (expected_dates : list date) : issues :=
  let weather_dates := map wi_date (plan_weather_info plan) in
  (when (negb (length weather_dates =? length (remove_dups weather_dates))%nat)
     (warning "weather.duplicate_dates" "weather_info" "天气信息中存在重复日期" "每个日期只保留一条天气记录"
        JNull (jstrings weather_dates))
   ++ match expected_dates with
      | [] => []
      | _ =>
          let expected := map isoformat expected_dates in
          let missing := sorted_minus expected weather_dates in
          let extra := sorted_minus weather_dates expected in
          (when (negb (bool_decide (missing = [])))
             (warning "weather.missing_dates" "weather_info" "部分旅行日期缺少天气信息"
                "从天气查询结果中补充缺失日期；若上游无数据则明确说明"
                (jstrings (sorted_strings (remove_dups expected))) (jstrings weather_dates))
           ++ when (negb (bool_decide (extra = [])))
                (warning "weather.out_of_range_dates" "weather_info" "天气信息包含旅行范围外日期"
                   "删除旅行范围外的天气记录" JNull (jstrings extra)))%list
      end)%list.

Definition budget_components (b : Budget) : list (string * Z) :=
  [("total_attractions", total_attractions b); ("total_hotels", total_hotels b);
   ("total_meals", total_meals b); ("total_transportation", total_transportation b)].

(** [_validate_budget] *)
Definition validate_budget (plan : TripPlan) : issues :=
  match plan_budget plan with
  | None =>
      warning "budget.missing" "budget" "行程未提供预算汇总" "根据门票、酒店、餐饮和交通估算预算" JNull JNull
  | Some b =>
      (concat (map (fun '(name, value) =>
                 when (value <? 0)
                   (error "budget.negative_component" ("budget." ++ name) "预算分项不能为负数"
                      "将预算修正为非负整数" true (JStr ">= 0") (JInt value)))
                 (budget_components b))
       ++ let expected_total := foldr Z.add 0 (map snd (budget_components b)) in
          when (negb (TripSchema.total b =? expected_total))
            (warning "budget.total_mismatch" "budget.total" "预算总额不等于各分项之和" "重新计算 budget.total"
               (JInt expected_total) (JInt (TripSchema.total b))))%list
  end.

(** ** The sources *)

Fixpoint validate_attraction_sources (names : list string) (day_position index : Z) (l : list Attraction) : issues :=
  match l with
  | [] => []
  | a :: rest =>
      (when (negb (bool_decide (names = [])) && negb (matches_source (at_name a) names))
         (error "attraction.not_in_sources" (attraction_path day_position index ++ ".name")
            "景点未出现在已获取的候选 POI 数据中" "只使用景点搜索结果中的名称、地址和坐标" true
            (jstrings (sorted_strings names)) (JStr (at_name a)))
       ++ validate_attraction_sources names day_position (index + 1) rest)%list
  end.

Definition validate_hotel_source (names : list string) (day_position : Z) (day : DayPlan) : issues :=
  match day_hotel day with
  | None => []
  | Some h =>
      when (negb (bool_decide (names = [])) && negb (matches_source (hotel_name h) names))
        (error "hotel.not_in_sources" (day_path day_position ++ ".hotel.name")
           "酒店未出现在已获取的候选酒店数据中" "只使用酒店搜索结果中的名称、地址和坐标" true
           (jstrings (sorted_strings names)) (JStr (hotel_name h)))
  end.

Fixpoint validate_day_sources (attraction_names hotel_names : list string) (position : Z) (days : list DayPlan)
    : issues :=
  match days with
  | [] => []
  | day :: rest =>
      (validate_attraction_sources attraction_names position 0 (day_attractions day)
       ++ validate_hotel_source hotel_names position day
       ++ validate_day_sources attraction_names hotel_names (position + 1) rest)%list
  end.

(** [_validate_source_consistency] *)
Definition validate_source_consistency (plan : TripPlan) (attractions hotels : option json) : issues :=
  validate_day_sources (source_names attractions) (source_names hotels) 0 (plan_days plan).

(** ** The routes *)

(** [_route_estimate_lookup]: the last route of a leg is the one found. *)
Definition route_estimate_lookup `{PydanticModels} (route_estimates : option json) : list RouteEstimate :=
  match route_estimates with
  | None => []
  | Some payload => match pm_routes payload with Ok r => rev (rr_routes r) | Err _ => [] end
  end.

Definition leg_between (routes : list RouteEstimate) (day leg : Z) : option RouteEstimate :=
  find (fun r => (re_day_index r =? day) && bool_decide (re_leg_type r = between_attractions)
                 && (re_leg_index r =? leg)) routes.

(** [round(x, 1)] *)
Definition round_1 (q : Q) : Q := (py_round (q * 10) # 10)%Q.

Section Routes.
Context `{MathEnv}.

(** [_haversine_km] *)
Definition validator_haversine_km (lat1 lon1 lat2 lon2 : Q) : result exn Q :=
  let d_lat := math_radians (lat2 - lat1)%Q in
  let d_lon := math_radians (lon2 - lon1)%Q in
  let a :=
    (math_sin (d_lat / 2) ^ 2
     + math_cos (math_radians lat1) * math_cos (math_radians lat2) * math_sin (d_lon / 2) ^ 2)%Q in
  root ← math_sqrt a;
  angle ← math_asin root;
  mret (2 * 6371 * angle)%Q.

(** The distance and the time of a leg the provider has found. *)
Definition measured_leg (estimate : option RouteEstimate) : option (RouteEstimate * Z * Z) :=
  match estimate with
  | Some e =>
      if re_available e then
        match re_distance_meters e, re_duration_seconds e with
        | Some meters, Some seconds => Some (e, meters, seconds)
        | _, _ => None
        end
      else None
  | None => None
  end.

Definition validate_measured_leg (path : string) (e : RouteEstimate) (meters seconds : Z) : issues :=
  let distance_km := (inject_Z meters / 1000)%Q in
  let duration_minutes := (inject_Z seconds / 60)%Q in
  let shown_duration := ("duration_minutes", JInt (py_round duration_minutes)) in
  let shown_distance := ("distance_km", JFloat (round_1 distance_km)) in
  let shown_mode := [("mode", JStr (mode_value (re_mode e))); ("source", JStr "amap")] in
  (when (7200 <? seconds)
     (error "route.excessive_duration" path "同日相邻景点的真实交通时间过长"
        "调整景点顺序，替换过远景点，或将其拆分到其他日期" true (JStr "<= 120 minutes")
        (JObj (shown_duration :: shown_distance :: shown_mode)))
   ++ when (Qlt_bool 80 distance_km)
        (warning "route.long_transfer" path "同日连续景点真实路线距离过远" "调整景点顺序或将远距离景点拆分到其他日期"
           (JStr "<= 80 km") (JObj (shown_distance :: shown_duration :: shown_mode))))%list.

Definition validate_leg (routes : list RouteEstimate) (day_position : Z) (day_idx : Z) (index : Z)
    (previous current : Attraction) : result exn issues :=
  let estimate := leg_between routes day_idx (index - 1) in
  let path := attraction_path day_position index in
  match measured_leg estimate with
  | Some (e, meters, seconds) => mret (validate_measured_leg path e meters seconds)
  | None =>
      let unavailable :=
        match estimate with
        | Some e =>
            when (negb (re_available e))
              (warning "route.unavailable" path "高德未返回该路线段的可用方案，已降级为直线距离校验"
                 "检查景点坐标和交通方式，或稍后重试路线查询" JNull
                 (JObj [("error_code", jstr_opt (re_error_code e)); ("error_message", jstr_opt (re_error_message e))]))
        | None => []
        end in
      distance_km ← validator_haversine_km (latitude (at_location previous)) (longitude (at_location previous))
                      (latitude (at_location current)) (longitude (at_location current));
      mret (unavailable
            ++ when (Qlt_bool 80 distance_km)
                 (warning "route.long_transfer" path "同日连续景点距离过远，路线可能不合理"
                    "调整景点顺序或将远距离景点拆分到其他日期" (JStr "<= 80 km")
                    (JObj [("distance_km", JFloat (round_1 distance_km)); ("source", JStr "haversine")])))%list
  end.

(** The legs of a day whose attraction [index - 1] is [previous]. *)
Fixpoint validate_day_legs (routes : list RouteEstimate) (day_position day_idx index : Z) (previous : Attraction)
    (l : list Attraction) : result exn issues :=
  match l with
  | [] => mret []
  | current :: rest =>
      here ← validate_leg routes day_position day_idx index previous current;
      others ← validate_day_legs routes day_position day_idx (index + 1) current rest;
      mret (here ++ others)%list
  end.

Fixpoint validate_legs (routes : list RouteEstimate) (position : Z) (days : list DayPlan) : result exn issues :=
  match days with
  | [] => mret []
  | day :: rest =>
      here ← match day_attractions day with
             | [] => mret []
             | first :: l => validate_day_legs routes position (day_index day) 1 first l
             end;
      others ← validate_legs routes (position + 1) rest;
      mret (here ++ others)%list
  end.

(** [_validate_route_distances] *)
Definition validate_route_distances `{PydanticModels} (plan : TripPlan) (route_estimates : option json)
    : result exn issues :=
  validate_legs (route_estimate_lookup route_estimates) 0 (plan_days plan).
End Routes.

(** ** The reports of the other components *)

(** [_validate_schedule_capacity] *)
Definition validate_schedule_day (day : DayScheduleQuality) : issues :=
  when (0 <? ds_overtime_minutes day)
    (error "schedule.daily_overtime" (day_path (ds_day_index day) ++ ".attractions")
       ("第 " ++ str_of_Z (ds_day_index day + 1) ++ " 天的日程超出可用时间 " ++ str_of_Z (ds_overtime_minutes day)
        ++ " 分钟")
       "减少当日景点、缩短游览时间，或将部分景点移动到其他日期" true
       (JObj [("overtime_minutes", JInt 0)])
       (JObj [("overtime_minutes", JInt (ds_overtime_minutes day));
              ("total_required_minutes", JInt (ds_total_required_minutes day));
              ("available_minutes", JInt (ds_available_minutes day))])).

Definition validate_schedule_capacity (schedule_quality_report : option ScheduleQualityReport) : issues :=
  match schedule_quality_report with
  | None => []
  | Some report => concat (map validate_schedule_day (sq_days report))
  end.

(** [_validate_execution_constraints] *)
Definition constraint_issue (item : ConstraintIssue) : ValidationIssue :=
  mkIssue (xi_code item) (if String.eqb (xi_severity item) "error" then SevError else SevWarning) (xi_path item)
    (xi_message item) (xi_repair_hint item) (xi_repairable item) (xi_expected item) (xi_actual item).

Definition validate_execution_constraints (constraint_report : option TripConstraintReport) : issues :=
  match constraint_report with
  | None => []
  | Some report => map constraint_issue (ct_issues report)
  end.

Definition validate_suggestions (plan : TripPlan) : issues :=
  when (is_blank (plan_overall_suggestions plan))
    (error "plan.empty_suggestions" "overall_suggestions" "总体建议不能为空"
       "补充与天气、交通、预约和安全相关的总体建议" true JNull (JStr (plan_overall_suggestions plan))).

(** ** [validate] *)

(** [__init__] *)
Definition new_trip_plan_validator (minimum_total_attractions : Z) : result exn Z :=
  if minimum_total_attractions <? 0 then Err (ValueError "minimum_total_attractions cannot be negative")
  else mret minimum_total_attractions.

(** [weather] is not read. *)
Definition validate `{MathEnv} `{PydanticModels} (minimum_total : Z)
    (now : datetime) (request : TripRequest) (plan : TripPlan)
    (attractions weather hotels route_estimates : option json)
    (schedule_quality_report : option ScheduleQualityReport) (constraint_report : option TripConstraintReport)
    : result exn TripValidationResult :=
  let '(expected_dates, dates) := validate_request_dates request in
  let identity := validate_plan_identity request plan in
  let days := validate_days request plan expected_dates in
  let content := validate_minimum_content minimum_total request plan in
  let skies := validate_weather plan expected_dates in
  let budget := validate_budget plan in
  let sources := validate_source_consistency plan attractions hotels in
  routes ← validate_route_distances plan route_estimates;
  mret (from_issues
          (dates ++ identity ++ days ++ content ++ skies ++ budget ++ sources ++ routes
           ++ validate_schedule_capacity schedule_quality_report
           ++ validate_execution_constraints constraint_report
           ++ validate_suggestions plan)%list now).
