(* ===== verification/ValidatorTheorems.v ===== *)
(** What the validation of a plan decides: a plan is valid exactly when it is
    the consistent trip the request asks for, and its faults can be repaired
    exactly when the request itself and the supply of attractions are sound. *)

From S2P Require Import Prelude PyData FloatMath ClockText Calendar TripSchema AmapModels PlanReports PlanContent AgentDecision Validator PlanEdits.
From Stdlib Require Import ZArith QArith Lia String.
From stdpp Require Import base tactics option list gmap strings.

Open Scope string_scope.
Open Scope Z_scope.

(** ** Issues without errors, and with repairable errors only *)

Definition clean (l : issues) : Prop := Forall (fun i => vi_severity i ≠ SevError) l.
Definition curable (l : issues) : Prop := Forall (fun i => vi_severity i = SevError → vi_repairable i = true) l.

Lemma clean_app l k : clean (l ++ k)%list ↔ clean l ∧ clean k.
Proof. apply Forall_app. Qed.
Lemma clean_nil : clean [] ↔ True.
Proof. by split; [|constructor]. Qed.
Lemma clean_error c p m h r e a : clean (error c p m h r e a) ↔ False.
Proof. by split; [inversion 1|]. Qed.
Lemma clean_warning c p m h e a : clean (warning c p m h e a) ↔ True.
Proof. by split; [|intros _; repeat constructor]. Qed.
Lemma clean_when_error b c p m h r e a : clean (when b (error c p m h r e a)) ↔ b = false.
Proof. destruct b; cbn [when]; rewrite ?clean_error, ?clean_nil; naive_solver. Qed.
Lemma clean_when_warning b c p m h e a : clean (when b (warning c p m h e a)) ↔ True.
Proof. destruct b; cbn [when]; by rewrite ?clean_warning, ?clean_nil. Qed.
Lemma clean_concat {A} (f : A → issues) l : clean (concat (map f l)) ↔ Forall (fun a => clean (f a)) l.
Proof.
  induction l as [|a l IH]; cbn [map concat]; [split; constructor|]. by rewrite clean_app, IH, Forall_cons.
Qed.

Lemma curable_app l k : curable (l ++ k)%list ↔ curable l ∧ curable k.
Proof. apply Forall_app. Qed.
Lemma curable_nil : curable [] ↔ True.
Proof. by split; [|constructor]. Qed.
Lemma curable_error c p m h e a : curable (error c p m h true e a) ↔ True.
Proof. by split; [|intros _; repeat constructor]. Qed.
Lemma curable_fatal c p m h e a : curable (error c p m h false e a) ↔ False.
Proof. split; [inversion 1 as [|?? Hi]; by specialize (Hi eq_refl)|done]. Qed.
Lemma curable_warning c p m h e a : curable (warning c p m h e a) ↔ True.
Proof. by split; [|intros _; repeat constructor]. Qed.
Lemma curable_when b l : curable (when b l) ↔ (b = true → curable l).
Proof. destruct b; cbn [when]; rewrite ?curable_nil; naive_solver. Qed.
Lemma curable_concat {A} (f : A → issues) l : curable (concat (map f l)) ↔ Forall (fun a => curable (f a)) l.
Proof.
  induction l as [|a l IH]; cbn [map concat]; [split; constructor|]. by rewrite curable_app, IH, Forall_cons.
Qed.

#[local] Arguments error : simpl never.
#[local] Arguments warning : simpl never.
#[local] Arguments when : simpl never.

Create HintDb validation.
#[export] Hint Rewrite clean_app clean_nil clean_error clean_warning clean_when_error clean_when_warning @clean_concat
  : validation.
Create HintDb curing.
#[export] Hint Rewrite curable_app curable_nil curable_error curable_fatal curable_warning curable_when
  @curable_concat : curing.

(** Goals about the issues of one check: no error, or repairable errors only. *)
Ltac judge := autorewrite with validation.
Ltac cure := autorewrite with curing; tauto.

Lemma validation_errors_clean l : validation_errors l = [] ↔ clean l.
Proof.
  unfold validation_errors, clean. induction l as [|i l IH]; [split; [constructor|done]|].
  rewrite filter_cons, Forall_cons. case_decide as E; [split; [done|naive_solver]|]. naive_solver.
Qed.

Lemma validation_errors_curable l : forallb vi_repairable (validation_errors l) = true ↔ curable l.
Proof.
  unfold validation_errors, curable. induction l as [|i l IH]; [split; [constructor|done]|].
  rewrite filter_cons, Forall_cons. case_decide as E; [cbn [forallb]; rewrite andb_true_iff|]; naive_solver.
Qed.

Lemma from_issues_valid l now : vr_valid (from_issues l now) = true ↔ clean l.
Proof. cbn [from_issues vr_valid]. rewrite bool_decide_eq_true. apply validation_errors_clean. Qed.

Lemma from_issues_repairable l now : vr_repairable (from_issues l now) = true ↔ ¬ clean l ∧ curable l.
Proof.
  cbn [from_issues vr_repairable]. rewrite andb_true_iff, negb_true_iff, bool_decide_eq_false.
  by rewrite validation_errors_clean, validation_errors_curable.
Qed.

(** ** The dates of the request *)

Record TripDates (request : TripRequest) (start stop : date) : Prop := {
  td_start : fromisoformat (req_start_date request) = Some start;
  td_end : fromisoformat (req_end_date request) = Some stop;
  td_order : ordinal start <= ordinal stop;
  td_days : ordinal stop - ordinal start + 1 = req_travel_days request
}.

Definition trip_dates (start : date) (days : Z) : list date :=
  map (fun offset => add_days offset start) (seq 0 (Z.to_nat days)).

Lemma request_dates_clean request :
  clean (validate_request_dates request).2 ↔ ∃ start stop, TripDates request start stop.
Proof.
  unfold validate_request_dates, parse_date.
  destruct (fromisoformat (req_start_date request)) as [start|] eqn:Es;
    destruct (fromisoformat (req_end_date request)) as [stop|] eqn:Ee; cbn;
    try (judge; split; [tauto|by intros (? & ? & [? ? ? ?]); simplify_eq]).
  pose proof (ordinal_order stop start (fromisoformat_ok _ _ Ee) (fromisoformat_ok _ _ Es)) as [Ho _].
  destruct (date_before stop start); cbn; judge.
  - split; [tauto|]. intros (? & ? & [? ? ? ?]). simplify_eq. destruct Ho as [Ho _]. specialize (Ho eq_refl). lia.
  - rewrite negb_false_iff, Z.eqb_eq. split.
    + intros Hd. exists start, stop. split; try done. destruct Ho as [_ Ho].
      destruct (decide (ordinal stop < ordinal start)) as [?|?]; [by specialize (Ho ltac:(done))|lia].
    + intros (? & ? & [? ? ? ?]). by simplify_eq.
Qed.

Lemma request_dates_expected request start stop :
  TripDates request start stop → (validate_request_dates request).1 = trip_dates start (req_travel_days request).
Proof.
  intros [Hs He Ho Hd]. unfold validate_request_dates, parse_date. rewrite Hs, He.
  pose proof (ordinal_order stop start (fromisoformat_ok _ _ He) (fromisoformat_ok _ _ Hs)) as [Hb _].
  destruct (date_before stop start); [|by rewrite Hd]. destruct Hb as [Hb _]. specialize (Hb eq_refl). lia.
Qed.

Lemma request_dates_fatal request : curable (validate_request_dates request).2 ↔ clean (validate_request_dates request).2.
Proof.
  unfold validate_request_dates, parse_date.
  destruct (fromisoformat _) as [start|]; destruct (fromisoformat _) as [stop|]; cbn;
    [destruct (date_before _ _); cbn| | |]; judge; autorewrite with curing; try tauto.
  destruct (negb _); naive_solver.
Qed.

(** ** The days *)

Definition texts_ok (d : DayPlan) : Prop :=
  is_blank (day_description d) = false ∧ is_blank (day_transportation d) = false
  ∧ is_blank (day_accommodation d) = false.

Definition visit_ok (a : Attraction) : Prop := 0 < at_visit_duration a ∧ geo_ok (at_location a) = true.

(** The days carry the numbers [position], [position + 1], ... *)
Fixpoint numbered (position : Z) (days : list DayPlan) : Prop :=
  match days with [] => True | d :: rest => day_index d = position ∧ numbered (position + 1) rest end.

Lemma numbered_lookup days : ∀ position, numbered position days ↔
  ∀ i d, days !! i = Some d → day_index d = position + Z.of_nat i.
Proof.
  induction days as [|d days IH]; intros position; cbn [numbered]; [by split; [|done]|]. rewrite IH. split.
  - intros [Hd Hr] [|i] e; cbn; [intros [= <-]; lia|]. intros He. rewrite (Hr i e He). lia.
  - intros H. split; [rewrite (H 0%nat d eq_refl); lia|]. intros i e He. rewrite (H (S i) e He). lia.
Qed.

Lemma day_shape_clean position d :
  clean (validate_day_shape position d) ↔ day_index d = position ∧ texts_ok d.
Proof.
  unfold validate_day_shape, validate_text_field, texts_ok. cbv zeta.
  rewrite !clean_app, !clean_when_error, clean_when_warning, negb_false_iff, Z.eqb_eq.
  destruct (_ =? 0); rewrite ?clean_when_warning, ?clean_warning; tauto.
Qed.

Lemma attraction_clean path a : clean (validate_attraction path a) ↔ visit_ok a.
Proof.
  unfold validate_attraction, visit_ok, geo_ok. cbv zeta. judge.
  rewrite Z.leb_gt, <- negb_andb, negb_false_iff. by rewrite !andb_assoc.
Qed.

Lemma seen_at_none seen identity : seen_at seen identity = None ↔ identity ∉ map fst seen.
Proof.
  unfold seen_at. rewrite fmap_None. induction seen as [|[k v] seen IH]; cbn [find map fst].
  - split; [set_solver|done].
  - destruct (String.eqb_spec k identity) as [->|Hk]; cbn; [set_solver|]. rewrite IH. set_solver.
Qed.

Lemma attractions_seen position l : ∀ index seen k,
  k ∈ map fst (validate_attractions position index seen l).1 ↔ k ∈ map fst seen ∨ k ∈ identities l.
Proof.
  induction l as [|a l IH]; intros index seen k; cbn [validate_attractions identities map]; [set_solver|].
  destruct (seen_at seen (normalizer_identity a)) as [first|] eqn:E.
  - specialize (IH (index + 1) seen k). destruct (validate_attractions _ _ _ l). cbn [fst] in *. rewrite IH.
    assert (normalizer_identity a ∈ map fst seen).
    { destruct (decide (normalizer_identity a ∈ map fst seen)) as [?|Hn]; [done|].
      apply seen_at_none in Hn. congruence. }
    fold (identities l). set_solver.
  - specialize (IH (index + 1) ((normalizer_identity a, attraction_path position index) :: seen) k).
    destruct (validate_attractions _ _ _ l). cbn [fst map] in *. rewrite IH. fold (identities l). set_solver.
Qed.

Lemma attractions_clean position l : ∀ index seen,
  clean (validate_attractions position index seen l).2 ↔
  NoDup (identities l) ∧ Forall (λ k, k ∉ map fst seen) (identities l) ∧ Forall visit_ok l.
Proof.
  induction l as [|a l IH]; intros index seen; cbn [validate_attractions identities map].
  { cbn. rewrite clean_nil. split; [repeat constructor|done]. }
  fold (identities l). destruct (seen_at seen (normalizer_identity a)) as [first|] eqn:E.
  - specialize (IH (index + 1) seen). destruct (validate_attractions _ _ _ l). cbn [snd] in *.
    judge. rewrite !Forall_cons. split; [tauto|]. intros (_ & [Hn _] & _). apply seen_at_none in Hn. congruence.
  - specialize (IH (index + 1) ((normalizer_identity a, attraction_path position index) :: seen)).
    destruct (validate_attractions _ _ _ l). cbn [snd app map fst] in *. apply seen_at_none in E.
    rewrite clean_app, attraction_clean, IH, NoDup_cons, !Forall_cons, !Forall_forall. set_solver.
Qed.

Lemma day_date_clean expected sd position e d :
  expected !! Z.to_nat position = Some e → date_ok e = true →
  clean (validate_day_date expected sd position d) ↔ day_date d = isoformat e ∧ day_date d ∉ sd.
Proof.
  intros He Hok. unfold validate_day_date, parse_date. rewrite He.
  destruct (fromisoformat (day_date d)) as [parsed|] eqn:Ep; judge.
  - rewrite negb_false_iff, String.eqb_eq, bool_decide_eq_false. tauto.
  - split; [tauto|]. intros [Hd _]. rewrite Hd, fromisoformat_isoformat in Ep by done. done.
Qed.

(** The trip's attractions, in the order of the days. *)
Definition trip_attractions (days : list DayPlan) : list Attraction := concat (map day_attractions days).

Lemma identities_app l k : identities (l ++ k)%list = (identities l ++ identities k)%list.
Proof. apply map_app. Qed.

Lemma day_list_clean : ∀ days before after seen sd,
  length days = length after → Forall (λ e, date_ok e = true) after →
  NoDup (map isoformat (before ++ after)%list) → (∀ s, s ∈ sd → s ∈ map isoformat before) →
  clean (validate_day_list (before ++ after)%list (Z.of_nat (length before)) sd seen days) ↔
  map day_date days = map isoformat after
  ∧ numbered (Z.of_nat (length before)) days ∧ Forall texts_ok days
  ∧ NoDup (identities (trip_attractions days))
  ∧ Forall (λ k, k ∉ map fst seen) (identities (trip_attractions days))
  ∧ Forall visit_ok (trip_attractions days).
Proof.
  induction days as [|d days IH]; intros before [|e after] seen sd Hlen Hok Hnd Hsd; try discriminate Hlen.
  { cbn. judge. split; [repeat constructor|done]. }
  apply Forall_cons in Hok as [Hoke Hok]. cbn [validate_day_list trip_attractions map concat numbered].
  fold (trip_attractions days). rewrite identities_app.
  pose proof (attractions_seen (Z.of_nat (length before)) (day_attractions d) 0 seen) as Hseen.
  pose proof (attractions_clean (Z.of_nat (length before)) (day_attractions d) 0 seen) as Hattr.
  destruct (validate_attractions _ 0 seen _) as [seen' l']. cbn [fst snd] in Hseen, Hattr.
  assert (Hat : (before ++ e :: after)%list !! Z.to_nat (Z.of_nat (length before)) = Some e).
  { by rewrite Nat2Z.id, list_lookup_middle. }
  assert (Hsplit : (before ++ e :: after)%list = ((before ++ [e]) ++ after)%list) by by rewrite <- app_assoc.
  rewrite !clean_app, (day_date_clean _ _ _ e) by done. rewrite day_shape_clean, Hattr.
  replace (Z.of_nat (length before) + 1) with (Z.of_nat (length (before ++ [e])%list)) by (rewrite length_app; cbn; lia).
  rewrite Hsplit in *.
  assert (Hfresh : isoformat e ∉ sd).
  { intros Hin. apply Hsd in Hin. rewrite !map_app in Hnd. apply NoDup_app in Hnd as [Hnd _].
    apply NoDup_app in Hnd as (_ & Hnd & _). apply (Hnd _ Hin). cbn. set_solver. }
  rewrite NoDup_app, !Forall_app, Forall_cons.
  destruct (decide (day_date d = isoformat e)) as [Hd|Hd].
  - rewrite (IH (before ++ [e])%list after seen' (day_date d :: sd)); [|naive_solver|done|done|].
    2: { intros s. rewrite map_app, Hd. cbn. set_solver. }
    assert (Hkeys : Forall (λ k, k ∉ map fst seen') (identities (trip_attractions days)) ↔
              Forall (λ k, k ∉ map fst seen) (identities (trip_attractions days))
              ∧ (∀ k, k ∈ identities (day_attractions d) → k ∉ identities (trip_attractions days))).
    { rewrite !Forall_forall. setoid_rewrite Hseen. clear. naive_solver. }
    rewrite Hkeys, Hd. assert (Hcons : ∀ k k' : list string, isoformat e :: k = isoformat e :: k' ↔ k = k').
    { clear. intros. split; [by intros [= ?]|by intros ->]. }
    rewrite Hcons. clear - Hfresh. tauto.
  - split; [tauto|]. intros [[= ? ?] _]. done.
Qed.

(** The dates up to a calendar date are calendar dates. *)
Lemma next_day_in_range d stop :
  date_ok d = true → date_ok stop = true → ordinal d < ordinal stop → d_year (next_day d) <= 9999.
Proof.
  intros Hd Hs Hlt. apply (ordinal_order d stop Hd Hs) in Hlt. revert Hlt.
  rewrite date_ok_iff in Hd, Hs. destruct Hd as (Hy & Hm & Hday), Hs as (Hy' & Hm' & Hday').
  unfold date_before, lexZ, next_day. repeat rewrite ?orb_true_iff, ?andb_true_iff. rewrite !Z.ltb_lt, !Z.eqb_eq.
  destruct (Z.ltb_spec (d_day d) (days_in_month (d_year d) (d_month d))); [cbn; lia|].
  destruct (Z.ltb_spec (d_month d) 12); cbn; [lia|]. intros [?|[He [?|[Hm2 ?]]]]; [lia|lia|].
  rewrite He, Hm2 in *. lia.
Qed.

Lemma add_days_in_range start stop i :
  date_ok start = true → date_ok stop = true → ordinal start + Z.of_nat i <= ordinal stop →
  date_ok (add_days i start) = true ∧ ordinal (add_days i start) = ordinal start + Z.of_nat i.
Proof.
  intros Hs He. induction i as [|i IH]; intros Hi; [split; [done|cbn; lia]|].
  destruct IH as [Hok Ho]; [lia|]. cbn [add_days].
  pose proof (next_day_in_range (add_days i start) stop Hok He ltac:(lia)).
  split; [by apply next_day_ok|]. rewrite next_day_ordinal by done. lia.
Qed.

Lemma isoformat_inj d e : date_ok d = true → date_ok e = true → isoformat d = isoformat e → d = e.
Proof.
  intros Hd He H. apply fromisoformat_isoformat in Hd, He. rewrite H in Hd. congruence.
Qed.

Lemma trip_dates_ok request start stop :
  TripDates request start stop →
  length (trip_dates start (req_travel_days request)) = Z.to_nat (req_travel_days request)
  ∧ Forall (λ e, date_ok e = true) (trip_dates start (req_travel_days request))
  ∧ NoDup (map isoformat (trip_dates start (req_travel_days request))).
Proof.
  intros [Hs He Ho Hd]. apply fromisoformat_ok in Hs, He. unfold trip_dates.
  assert (Hall : ∀ i, i ∈ seq 0 (Z.to_nat (req_travel_days request)) →
            date_ok (add_days i start) = true ∧ ordinal (add_days i start) = ordinal start + Z.of_nat i).
  { intros i Hi%elem_of_seq. apply (add_days_in_range start stop); [done..|lia]. }
  rewrite length_map, length_seq. split; [done|]. split.
  - apply Forall_forall. intros e (i & -> & Hi)%list_elem_of_fmap. by apply Hall.
  - rewrite map_map. apply (NoDup_fmap_2_strong (λ i, isoformat (add_days i start))); [|apply NoDup_seq].
    intros i j Hi Hj Heq. destruct (Hall i Hi) as [Hoki Hoi], (Hall j Hj) as [Hokj Hoj].
    apply isoformat_inj in Heq; [|done..]. rewrite Heq in Hoi. lia.
Qed.

Lemma days_clean request plan start stop :
  TripDates request start stop →
  clean (validate_days request plan (trip_dates start (req_travel_days request))) ↔
  map day_date (plan_days plan) = map isoformat (trip_dates start (req_travel_days request))
  ∧ numbered 0 (plan_days plan) ∧ Forall texts_ok (plan_days plan)
  ∧ NoDup (identities (trip_attractions (plan_days plan)))
  ∧ Forall visit_ok (trip_attractions (plan_days plan)).
Proof.
  intros Htd. pose proof (trip_dates_ok _ _ _ Htd) as (Hlen & Hok & Hnd). destruct Htd as [_ _ Ho Hd].
  unfold validate_days. rewrite clean_app, clean_when_error, negb_false_iff, Z.eqb_eq.
  destruct (decide (Z.of_nat (length (plan_days plan)) = req_travel_days request)) as [Hn|Hn].
  - pose proof (day_list_clean (plan_days plan) [] (trip_dates start (req_travel_days request)) [] []) as H.
    cbn [app length map] in H. rewrite H; [|lia|done|done|set_solver]. clear H.
    assert (Hnone : Forall (λ k, k ∉ ([] : list string)) (identities (trip_attractions (plan_days plan)))).
    { apply Forall_forall. set_solver. }
    change (Z.of_nat 0) with 0. tauto.
  - split; [tauto|]. intros [Hdates _]. apply (f_equal length) in Hdates. rewrite !length_map in Hdates. lia.
Qed.

(** The days of a trip of [n] days from [start]: one per date, in order, with its number. *)
Definition DaysInOrder (start : date) (n : Z) (days : list DayPlan) : Prop :=
  Z.of_nat (length days) = n
  ∧ ∀ i d, days !! i = Some d → day_date d = isoformat (add_days i start) ∧ day_index d = Z.of_nat i.

Lemma days_in_order start n days : 0 <= n →
  map day_date days = map isoformat (trip_dates start n) ∧ numbered 0 days ↔ DaysInOrder start n days.
Proof.
  intros Hn. unfold DaysInOrder, trip_dates. rewrite numbered_lookup, map_map. split.
  - intros [Hd Hi]. assert (Hlen : length days = Z.to_nat n).
    { apply (f_equal length) in Hd. by rewrite !length_map, length_seq in Hd. }
    split; [lia|]. intros i d He. rewrite (Hi i d He). split; [|done].
    pose proof (lookup_lt_Some _ _ _ He). apply (f_equal (λ l, l !! i)) in Hd.
    rewrite !list_lookup_fmap, He, lookup_seq_lt in Hd by lia. by injection Hd.
  - intros [Hlen H]. split; [|intros i d He; by apply H]. apply list_eq. intros i.
    rewrite !list_lookup_fmap. destruct (days !! i) as [d|] eqn:He; cbn.
    + pose proof (lookup_lt_Some _ _ _ He). rewrite lookup_seq_lt by lia. cbn. by destruct (H i d He) as [-> _].
    + apply lookup_ge_None in He. by rewrite lookup_seq_ge by lia.
Qed.

(** ** The other checks *)

Lemma identity_clean request plan :
  clean (validate_plan_identity request plan) ↔
  normalize_place (plan_city plan) = normalize_place (req_city request)
  ∧ plan_start_date plan = req_start_date request ∧ plan_end_date plan = req_end_date request.
Proof. unfold validate_plan_identity. judge. by rewrite !negb_false_iff, !String.eqb_eq. Qed.

Lemma content_clean minimum request plan :
  clean (validate_minimum_content minimum request plan) ↔ required_attractions minimum request <= count_attractions plan.
Proof. unfold validate_minimum_content. cbv zeta. judge. by rewrite Z.ltb_ge. Qed.

Lemma weather_clean plan expected : clean (validate_weather plan expected).
Proof. unfold validate_weather. cbv zeta. destruct expected; judge; tauto. Qed.

Definition budget_ok (plan : TripPlan) : Prop :=
  match plan_budget plan with
  | Some b => 0 <= total_attractions b ∧ 0 <= total_hotels b ∧ 0 <= total_meals b ∧ 0 <= total_transportation b
  | None => True
  end.

Lemma budget_clean plan : clean (validate_budget plan) ↔ budget_ok plan.
Proof.
  unfold validate_budget, budget_ok. destruct (plan_budget plan) as [b|]; [|by judge].
  cbv zeta. rewrite clean_app, clean_when_warning, clean_concat. unfold budget_components.
  rewrite !Forall_cons, !clean_when_error, !Z.ltb_ge. rewrite Forall_nil. tauto.
Qed.

(** Names are checked when some are known. *)
Definition in_sources (names : list string) (name : string) : Prop :=
  names = [] ∨ matches_source name names = true.

Lemma unknown_name names name :
  negb (bool_decide (names = [])) && negb (matches_source name names) = false ↔ in_sources names name.
Proof.
  unfold in_sources. rewrite andb_false_iff, !negb_false_iff, bool_decide_eq_true. tauto.
Qed.

Lemma attraction_sources_clean names position l : ∀ index,
  clean (validate_attraction_sources names position index l) ↔ Forall (λ a, in_sources names (at_name a)) l.
Proof.
  induction l as [|a l IH]; intros index; cbn [validate_attraction_sources].
  - rewrite clean_nil, Forall_nil. done.
  - by rewrite clean_app, clean_when_error, unknown_name, IH, Forall_cons.
Qed.

Definition hotel_known (names : list string) (d : DayPlan) : Prop :=
  match day_hotel d with Some h => in_sources names (hotel_name h) | None => True end.

Lemma day_sources_clean names hotels days : ∀ position,
  clean (validate_day_sources names hotels position days) ↔
  Forall (λ a, in_sources names (at_name a)) (trip_attractions days) ∧ Forall (hotel_known hotels) days.
Proof.
  induction days as [|d days IH]; intros position; cbn [validate_day_sources trip_attractions map concat].
  - rewrite clean_nil, !Forall_nil. done.
  - fold (trip_attractions days). rewrite !clean_app, attraction_sources_clean, IH, Forall_app, Forall_cons.
    assert (Hh : clean (validate_hotel_source hotels position d) ↔ hotel_known hotels d).
    { unfold validate_hotel_source, hotel_known. destruct (day_hotel d); judge; [|done]. apply unknown_name. }
    rewrite Hh. tauto.
Qed.

Definition schedule_ok (report : option ScheduleQualityReport) : Prop :=
  match report with Some r => Forall (λ d, ds_overtime_minutes d <= 0) (sq_days r) | None => True end.

Lemma schedule_clean report : clean (validate_schedule_capacity report) ↔ schedule_ok report.
Proof.
  unfold validate_schedule_capacity, schedule_ok. destruct report as [r|]; judge; [|done].
  apply Forall_iff. intros d. unfold validate_schedule_day. judge. by rewrite Z.ltb_ge.
Qed.

Definition constraint_errors (report : option TripConstraintReport) : list ConstraintIssue :=
  match report with Some r => filter (λ i, xi_severity i = "error") (ct_issues r) | None => [] end.

Lemma constraint_severity i : vi_severity (constraint_issue i) = SevError ↔ xi_severity i = "error".
Proof. unfold constraint_issue. cbn [vi_severity]. by destruct (String.eqb_spec (xi_severity i) "error"). Qed.

Lemma constraints_clean report : clean (validate_execution_constraints report) ↔ constraint_errors report = [].
Proof.
  unfold validate_execution_constraints, constraint_errors. destruct report as [r|]; judge; [|done].
  unfold clean. rewrite Forall_map.
  rewrite (Forall_iff _ _ (λ i, xi_severity i ≠ "error")); [|intros i; unfold compose; by rewrite constraint_severity].
  induction (ct_issues r) as [|i l IH]; [split; [done|constructor]|].
  rewrite filter_cons, Forall_cons. case_decide; naive_solver.
Qed.

Lemma suggestions_clean plan :
  clean (validate_suggestions plan) ↔ is_blank (plan_overall_suggestions plan) = false.
Proof. unfold validate_suggestions. by judge. Qed.

(** ** The legs *)

(** Consecutive attractions of a day with the number of the leg between them. *)
Fixpoint day_legs (day_idx leg : Z) (previous : Attraction) (l : list Attraction)
    : list (Z * Z * Attraction * Attraction) :=
  match l with
  | [] => []
  | current :: rest => (day_idx, leg, previous, current) :: day_legs day_idx (leg + 1) current rest
  end.

Definition trip_legs (days : list DayPlan) : list (Z * Z * Attraction * Attraction) :=
  concat (map (λ d, match day_attractions d with
                    | [] => []
                    | first :: l => day_legs (day_index d) 0 first l
                    end) days).

Section Legs.
Context `{MathEnv}.

(** A leg the provider has found takes two hours at most; of another one the
    distance can be computed. *)
Definition leg_ok (routes : list RouteEstimate) (leg : Z * Z * Attraction * Attraction) : Prop :=
  let '(day_idx, i, previous, current) := leg in
  match measured_leg (leg_between routes day_idx i) with
  | Some (_, _, seconds) => seconds <= 7200
  | None => ∃ km, validator_haversine_km (latitude (at_location previous)) (longitude (at_location previous))
                    (latitude (at_location current)) (longitude (at_location current)) = Ok km
  end.

(** A check that may raise: it returns, and finds no error. *)
Definition accepts (r : result exn issues) : Prop := ∃ l, r = Ok l ∧ clean l.

Lemma accepts_app r r' :
  accepts (a ← r; b ← r'; mret (a ++ b)%list) ↔ accepts r ∧ accepts r'.
Proof.
  unfold accepts. destruct r as [l|e], r' as [l'|e']; cbn; [|naive_solver..]. split.
  - intros (k & [= <-] & [? ?]%clean_app). split; eexists; by split.
  - intros [(? & [= <-] & ?) (? & [= <-] & ?)]. eexists. by rewrite clean_app.
Qed.

Lemma leg_accepts routes position day_idx leg previous current :
  accepts (validate_leg routes position day_idx (leg + 1) previous current) ↔
  leg_ok routes (day_idx, leg, previous, current).
Proof.
  unfold validate_leg, leg_ok. cbv zeta. replace (leg + 1 - 1) with leg by lia.
  destruct (measured_leg _) as [[[e meters] seconds]|].
  - unfold accepts, validate_measured_leg. split.
    + intros (l & [= <-] & Hl). revert Hl. judge. rewrite Z.ltb_ge. tauto.
    + intros Hs. eexists. split; [done|]. judge. by rewrite Z.ltb_ge.
  - destruct (validator_haversine_km _ _ _ _) as [km|] eqn:E; cbn [mbind result_bind].
    + split; [eauto|]. intros _. eexists. split; [done|]. rewrite clean_app, clean_when_warning. split; [|done].
      destruct (leg_between _ _ _); by judge.
    + unfold accepts. naive_solver.
Qed.

Lemma day_legs_accept routes position day_idx l : ∀ leg previous,
  accepts (validate_day_legs routes position day_idx (leg + 1) previous l) ↔
  Forall (leg_ok routes) (day_legs day_idx leg previous l).
Proof.
  induction l as [|current l IH]; intros leg previous; cbn [validate_day_legs day_legs].
  - split; [constructor|]. intros _. exists []. split; [done|constructor].
  - rewrite accepts_app, leg_accepts, IH, Forall_cons. done.
Qed.

Lemma legs_accept routes days : ∀ position,
  accepts (validate_legs routes position days) ↔ Forall (leg_ok routes) (trip_legs days).
Proof.
  induction days as [|d days IH]; intros position; cbn [validate_legs trip_legs map concat].
  - split; [constructor|]. intros _. exists []. split; [done|constructor].
  - fold (trip_legs days). rewrite accepts_app, IH, Forall_app. f_equiv.
    destruct (day_attractions d) as [|first l].
    + split; [constructor|]. intros _. exists []. split; [done|constructor].
    + apply (day_legs_accept routes position (day_index d) l 0).
Qed.
End Legs.

(** ** Errors that can be repaired *)

Lemma identity_curable request plan : curable (validate_plan_identity request plan).
Proof. unfold validate_plan_identity. cure. Qed.

Lemma attractions_curable position l : ∀ index seen, curable (validate_attractions position index seen l).2.
Proof.
  induction l as [|a l IH]; intros index seen; cbn [validate_attractions]; [cbn; cure|].
  destruct (seen_at _ _) as [first|]; [specialize (IH (index + 1) seen)|
    specialize (IH (index + 1) ((normalizer_identity a, attraction_path position index) :: seen))];
    destruct (validate_attractions _ _ _ l); cbn [snd] in *; rewrite !curable_app; unfold validate_attraction;
    cbv zeta; cure.
Qed.

Lemma day_curable expected sd position d :
  curable (validate_day_date expected sd position d) ∧ curable (validate_day_shape position d).
Proof.
  unfold validate_day_date, validate_day_shape, validate_text_field, parse_date. cbv zeta. split.
  - destruct (fromisoformat _), (expected !! _); cure.
  - destruct (_ =? 0); cure.
Qed.

Lemma days_curable request plan expected : curable (validate_days request plan expected).
Proof.
  unfold validate_days. rewrite curable_app, curable_when, curable_error. split; [done|].
  generalize (@nil string) as sd, (@nil (string * string)) as seen, 0.
  induction (plan_days plan) as [|d days IH]; intros sd seen position; cbn [validate_day_list].
  { by rewrite curable_nil. }
  pose proof (attractions_curable position (day_attractions d) 0 seen) as Ha.
  destruct (validate_attractions _ _ _ _) as [seen' l]. cbn [snd] in Ha. rewrite !curable_app.
  destruct (day_curable expected sd position d). done.
Qed.

Lemma weather_curable plan expected : curable (validate_weather plan expected).
Proof. unfold validate_weather. cbv zeta. destruct expected; cure. Qed.

Lemma budget_curable plan : curable (validate_budget plan).
Proof.
  unfold validate_budget, budget_components. destruct (plan_budget plan) as [b|]; [|cure].
  cbv zeta. cbn [map concat]. cure.
Qed.

Lemma sources_curable plan attractions hotels : curable (validate_source_consistency plan attractions hotels).
Proof.
  unfold validate_source_consistency. generalize 0. induction (plan_days plan) as [|d days IH]; intros position;
    cbn [validate_day_sources]; [by rewrite curable_nil|]. rewrite !curable_app. split; [|split; [|done]].
  - generalize 0. induction (day_attractions d) as [|a l IHa]; intros index; cbn [validate_attraction_sources];
      [by rewrite curable_nil|]. autorewrite with curing. by split.
  - unfold validate_hotel_source. destruct (day_hotel d); cure.
Qed.

(** The checks of the legs only add repairable issues. *)
Lemma curable_join (r r' : result exn issues) l :
  (∀ k, r = Ok k → curable k) → (∀ k, r' = Ok k → curable k) →
  (a ← r; b ← r'; mret (a ++ b)%list) = Ok l → curable l.
Proof.
  intros Hr Hr'. destruct r as [k|], r' as [k'|]; cbn; try done. intros [= <-]. rewrite curable_app. by split; auto.
Qed.

Lemma ok_nil_curable l : mret [] = Ok (E := exn) l → curable l.
Proof. intros [= <-]. by rewrite curable_nil. Qed.

Section CurableLegs.
Context `{MathEnv}.

Lemma leg_curable routes position day_idx index a b l :
  validate_leg routes position day_idx index a b = Ok l → curable l.
Proof.
  unfold validate_leg. destruct (measured_leg _) as [[[e meters] seconds]|].
  - intros [= <-]. unfold validate_measured_leg. cbv zeta. cure.
  - destruct (validator_haversine_km _ _ _ _) as [km|]; cbn [mbind result_bind]; [|done]. intros [= <-].
    destruct (leg_between _ _ _); cure.
Qed.

Lemma legs_curable routes days : ∀ position l, validate_legs routes position days = Ok l → curable l.
Proof.
  induction days as [|d days IH]; intros position l; cbn [validate_legs]; [apply ok_nil_curable|].
  apply curable_join; [|apply IH]. clear l. destruct (day_attractions d) as [|first rest]; [apply ok_nil_curable|].
  generalize 1 as index. revert first. induction rest as [|current rest IHr]; intros first index k;
    cbn [validate_day_legs]; [apply ok_nil_curable|]. apply curable_join; [|apply IHr]. intros ?; apply leg_curable.
Qed.
End CurableLegs.

Lemma schedule_curable report : curable (validate_schedule_capacity report).
Proof.
  unfold validate_schedule_capacity. destruct report as [r|]; [|by rewrite curable_nil].
  rewrite curable_concat. apply Forall_forall. intros d _. unfold validate_schedule_day. cure.
Qed.

Lemma suggestions_curable plan : curable (validate_suggestions plan).
Proof. unfold validate_suggestions. cure. Qed.

Lemma content_curable minimum request plan :
  curable (validate_minimum_content minimum request plan) ↔ required_attractions minimum request <= count_attractions plan.
Proof.
  unfold validate_minimum_content. cbv zeta. rewrite curable_when, curable_fatal.
  destruct (Z.ltb_spec (count_attractions plan) (required_attractions minimum request)); naive_solver lia.
Qed.

Lemma constraints_curable report :
  curable (validate_execution_constraints report) ↔ Forall (λ i, xi_repairable i = true) (constraint_errors report).
Proof.
  unfold validate_execution_constraints, constraint_errors. destruct report as [r|];
    [|by rewrite curable_nil, Forall_nil].
  unfold curable. rewrite Forall_map, !Forall_forall. unfold compose. cbn [vi_repairable constraint_issue].
  split.
  - intros H i [Hs Hi]%list_elem_of_filter. apply (H i Hi). by apply constraint_severity.
  - intros H i Hi Hs%constraint_severity. apply H. by apply list_elem_of_filter.
Qed.

(** ** What a valid plan is *)

(** [names] and [hotels]: the names the searches found; [routes]: the routes of the provider, last first. *)
Record ConsistentTrip `{MathEnv} (minimum : Z) (request : TripRequest) (plan : TripPlan)
    (names hotels : list string) (routes : list RouteEstimate)
    (schedule : option ScheduleQualityReport) (constraints : option TripConstraintReport) : Prop := {
  cs_dates : ∃ start stop, TripDates request start stop
                           ∧ DaysInOrder start (req_travel_days request) (plan_days plan);
  cs_city : normalize_place (plan_city plan) = normalize_place (req_city request);
  cs_range : plan_start_date plan = req_start_date request ∧ plan_end_date plan = req_end_date request;
  cs_texts : Forall texts_ok (plan_days plan) ∧ is_blank (plan_overall_suggestions plan) = false;
  cs_once : NoDup (identities (trip_attractions (plan_days plan)));
  cs_visits : Forall visit_ok (trip_attractions (plan_days plan));
  cs_content : required_attractions minimum request <= count_attractions plan;
  cs_budget : budget_ok plan;
  cs_sources : Forall (λ a, in_sources names (at_name a)) (trip_attractions (plan_days plan))
               ∧ Forall (hotel_known hotels) (plan_days plan);
  cs_legs : Forall (leg_ok routes) (trip_legs (plan_days plan));
  cs_reports : schedule_ok schedule ∧ constraint_errors constraints = []
}.

Section Validation.
Context `{MathEnv} `{PydanticModels}.
Context (minimum : Z) (now : datetime) (request : TripRequest) (plan : TripPlan).
Context (attractions weather hotels route_estimates : option json).
Context (schedule : option ScheduleQualityReport) (constraints : option TripConstraintReport).

Definition other_issues : issues :=
  (validate_plan_identity request plan ++ validate_days request plan (validate_request_dates request).1
   ++ validate_minimum_content minimum request plan
   ++ validate_weather plan (validate_request_dates request).1
   ++ validate_budget plan ++ validate_source_consistency plan attractions hotels)%list.

Definition report_issues : issues :=
  (validate_schedule_capacity schedule ++ validate_execution_constraints constraints ++ validate_suggestions plan)%list.

Lemma validate_unfold :
  validate minimum now request plan attractions weather hotels route_estimates schedule constraints
  = (routes ← validate_route_distances plan route_estimates;
     mret (from_issues ((validate_request_dates request).2 ++ other_issues ++ routes ++ report_issues)%list now)).
Proof.
  unfold validate, other_issues, report_issues. destruct (validate_request_dates request) as [expected dates].
  cbn [fst snd]. destruct (validate_route_distances _ _); cbn [mbind result_bind]; [|done].
  by rewrite <- !app_assoc.
Qed.

Lemma issues_clean :
  clean (validate_request_dates request).2 ∧ clean other_issues ∧ clean report_issues
  ∧ accepts (validate_route_distances plan route_estimates) ↔
  ConsistentTrip minimum request plan (source_names attractions) (source_names hotels)
    (route_estimate_lookup route_estimates) schedule constraints.
Proof.
  unfold other_issues, report_issues, validate_route_distances, validate_source_consistency.
  rewrite !clean_app, request_dates_clean, legs_accept, identity_clean, content_clean, budget_clean,
    day_sources_clean, schedule_clean, constraints_clean, suggestions_clean.
  pose proof (weather_clean plan (validate_request_dates request).1) as Hw. split.
  - intros ((start & stop & Htd) & (Hid & Hdays & Hcontent & _ & Hbudget & Hsources) & Hreports & Hlegs).
    rewrite (request_dates_expected _ _ _ Htd), (days_clean _ _ _ _ Htd) in Hdays.
    destruct Hdays as (Hd & Hn & Ht & Ho & Hv). split; try tauto.
    exists start, stop. split; [done|]. apply days_in_order; [destruct Htd; lia|done].
  - intros [(start & stop & Htd & Hdays) ? ? ? ? ? ? ? ? ? ?].
    rewrite (request_dates_expected _ _ _ Htd) in *. rewrite (days_clean _ _ _ _ Htd).
    apply days_in_order in Hdays; [|destruct Htd; lia].
    split; [by exists start, stop|]. tauto.
Qed.
End Validation.

(** The errors of the request, of too few attractions and of some constraints
    are the only ones a new plan cannot remove. *)
Lemma repairable_iff `{MathEnv} `{PydanticModels} (minimum : Z) (now : datetime)
    (request : TripRequest) (plan : TripPlan) (attractions weather hotels route_estimates : option json)
    (schedule : option ScheduleQualityReport) (constraints : option TripConstraintReport)
    (r : TripValidationResult) :
  validate minimum now request plan attractions weather hotels route_estimates schedule constraints = Ok r →
  vr_repairable r = true ↔
  vr_valid r = false ∧ (∃ start stop, TripDates request start stop)
  ∧ required_attractions minimum request <= count_attractions plan
  ∧ Forall (λ i, xi_repairable i = true) (constraint_errors constraints).
Proof.
  rewrite validate_unfold. destruct (validate_route_distances plan route_estimates) as [l|] eqn:E;
    cbn [mbind result_bind]; [|done]. intros [= <-].
  rewrite <- not_true_iff_false, from_issues_valid, from_issues_repairable. f_equiv.
  unfold other_issues, report_issues.
  rewrite !curable_app, request_dates_fatal, request_dates_clean, content_curable, constraints_curable.
  pose proof (identity_curable request plan). pose proof (legs_curable _ _ _ _ E).
  pose proof (days_curable request plan (validate_request_dates request).1).
  pose proof (weather_curable plan (validate_request_dates request).1). pose proof (budget_curable plan).
  pose proof (sources_curable plan attractions hotels). pose proof (schedule_curable schedule).
  pose proof (suggestions_curable plan). tauto.
Qed.

(** C28: The validation answers, and answers that the plan is valid, exactly when the plan is the consistent trip the request asks for: the dates of the request are calendar dates in order that count its travel days, the plan has one day per date in order with its number and texts, the city and the range of the request, no attraction twice, positive visiting times and real coordinates, enough attractions, no negative budget, only places the searches found, no leg over two hours, no overtime and no constraint error; in every other case it reports an error or a distance cannot be computed.  Its answer offers a repair exactly for a plan with an error while the request is consistent, enough attractions are planned and no constraint error is beyond repair. *)
Theorem valid_iff_consistent `{MathEnv} `{PydanticModels} (minimum : Z) (now : datetime)
    (request : TripRequest) (plan : TripPlan) (attractions weather hotels route_estimates : option json)
    (schedule : option ScheduleQualityReport) (constraints : option TripConstraintReport) :
  let answer := validate minimum now request plan attractions weather hotels route_estimates schedule constraints in
  ((∃ r, answer = Ok r ∧ vr_valid r = true) ↔
   ConsistentTrip minimum request plan (source_names attractions) (source_names hotels)
     (route_estimate_lookup route_estimates) schedule constraints)
  ∧ ∀ r, answer = Ok r →
      vr_repairable r = true ↔
      vr_valid r = false ∧ (∃ start stop, TripDates request start stop)
      ∧ required_attractions minimum request <= count_attractions plan
      ∧ Forall (λ i, xi_repairable i = true) (constraint_errors constraints).
Proof.
  intros answer. split; [|intros r; apply repairable_iff]. unfold answer. clear answer.
  rewrite <- (issues_clean minimum request plan attractions hotels route_estimates), validate_unfold.
  unfold accepts. destruct (validate_route_distances plan route_estimates) as [l|]; cbn [mbind result_bind];
    [|naive_solver].
  split.
  - intros (r & [= <-] & Hv%from_issues_valid). rewrite !clean_app in Hv. destruct Hv as (? & ? & ? & ?).
    repeat (split; [done|]). by exists l.
  - intros (? & ? & ? & ? & [= <-] & ?). eexists. split; [done|]. apply from_issues_valid.
    rewrite !clean_app. done.
Qed.

(** ** A valid plan and a repairable one *)

Definition written (d : DayPlan) : DayPlan :=
  mkDayPlan (day_date d) (day_index d) "历史文化" (day_transportation d) "酒店" (day_hotel d)
    (day_attractions d) (day_meals d).

Definition valid_trip : TripPlan :=
  mkTripPlan "北京市" "2025-06-01" "2025-06-02" (map written (plan_days trip_plan)) [] "请提前预约" None.

Definition sample_models : PydanticModels :=
  {| pm_routes := fun _ => Ok trip_routes; pm_restaurants := fun j => Ok j;
     pm_nearby := fun j => Ok (mkNearby (mkLocation 0 0) 5000 1 j);
     pm_generated := fun _ => Ok trip_plan; pm_plan := fun _ => Ok trip_plan |}.

Definition found_places : json :=
  JObj [("pois", JArr (map (fun a => JObj [("name", JStr (at_name a))]) [museum; temple; palace; lake; wall]))].

(** The days of the trip swapped. *)
Definition swapped_trip : TripPlan :=
  mkTripPlan "北京市" "2025-06-01" "2025-06-02" (rev (plan_days valid_trip)) [] "请提前预约" None.

Definition validate_sample (plan : TripPlan) : result exn TripValidationResult :=
  @validate demo_math sample_models 2 0 trip_request plan (Some found_places) None None (Some JNull) None None.

Definition summary (r : result exn TripValidationResult) : option (bool * bool * list string) :=
  match r with
  | Ok r => Some (vr_valid r, vr_repairable r, map vi_code (vr_issues r))
  | Err _ => None
  end.

Example validate_examples :
  map (fun p => summary (validate_sample p)) [valid_trip; swapped_trip]
  = [Some (true, false, ["day.meals_incomplete"; "day.meals_incomplete"; "weather.missing_dates"; "budget.missing"]);
     Some (false, true, ["day.date_sequence_mismatch"; "day.index_mismatch"; "day.meals_incomplete";
                         "day.date_sequence_mismatch"; "day.index_mismatch"; "day.meals_incomplete";
                         "weather.missing_dates"; "budget.missing"])].
Proof. vm_compute. reflexivity. Qed.

Lemma valid_iff_consistent_witness :
  @ConsistentTrip demo_math 2 trip_request valid_trip (source_names (Some found_places)) []
    (@route_estimate_lookup sample_models (Some JNull)) None None
  ∧ required_attractions 2 trip_request <= count_attractions swapped_trip.
Proof.
  split.
  - refine (proj1 (proj1 (@valid_iff_consistent demo_math sample_models 2 0 trip_request valid_trip
              (Some found_places) None None (Some JNull) None None)) _).
    eexists. split; [vm_compute; reflexivity|reflexivity].
  - assert (E : ∃ r, validate_sample swapped_trip = Ok r ∧ vr_repairable r = true).
    { eexists. split; [vm_compute; reflexivity|reflexivity]. }
    destruct E as (r & Hr & Hrep). unfold validate_sample in Hr.
    destruct (proj1 (proj2 (@valid_iff_consistent demo_math sample_models 2 0 trip_request swapped_trip
                (Some found_places) None None (Some JNull) None None) r Hr) Hrep) as (_ & _ & Hc & _).
    exact Hc.
Defined.
