(* ===== verification/TripVersions.v ===== *)
(** Drafts and versions of a trip (src/app/schemas/trip_draft_schema.py) and
    the two stores that keep them: [SQLiteTripVersionStore]
    (src/app/memory/sqlite_trip_version_store.py) and [MySQLTripVersionStore]
    (src/app/persistence/mysql_trip_version_store.py).

    A row has its columns and the record its JSON column decodes to: the
    stores filter by the columns and return the records.  A method whose body
    raises leaves the tables as they were. *)

From S2P Require Import Prelude PyData TripSchema AmapModels PlanReports OrderedDict ToolModels AgentState.
From Stdlib Require Import ZArith QArith Lia String.
From stdpp Require Import base tactics option list gmap strings.

Open Scope string_scope.
Open Scope Z_scope.

(** ** Records *)

Inductive VersionStatus := version_candidate | version_confirmed | version_superseded.
Inductive VersionSource := source_original | source_draft.
Inductive DraftStatus := draft_editing | draft_evaluated | draft_confirmed | draft_superseded.

#[export] Instance VersionStatus_eq_dec : EqDecision VersionStatus.
Proof. solve_decision. Defined.
#[export] Instance VersionSource_eq_dec : EqDecision VersionSource.
Proof. solve_decision. Defined.
#[export] Instance DraftStatus_eq_dec : EqDecision DraftStatus.
Proof. solve_decision. Defined.

Record TripPlanDiff := mkDiff {
  df_changed_fields : list string; df_changed_days : list Z; df_changed_attractions : list string;
  df_changed_hotels : list Z; df_changed_meals : list Z;
  df_affected_route_keys : list string; df_reused_route_legs : Z; df_queried_route_legs : Z
}.
#[export] Instance diff_rebuild : Rebuild TripPlanDiff := fun d =>
  mkDiff (df_changed_fields d) (df_changed_days d) (df_changed_attractions d) (df_changed_hotels d)
    (df_changed_meals d) (df_affected_route_keys d) (df_reused_route_legs d) (df_queried_route_legs d).

Record TripVersionEvaluation := mkVersionEvaluation {
  te_route_estimates : RouteEstimateResult; te_route_quality : RouteQualityReport;
  te_schedule : ScheduleQualityReport; te_commute : CommuteConstraintReport;
  te_constraints : TripConstraintReport; te_validation : TripValidationResult;
  te_acceptance : PartialAcceptanceReport
}.

Record TripPlanVersion := mkVersion {
  tv_version_id : string; tv_session_id : string; tv_version_number : Z; tv_status : VersionStatus;
  tv_source : VersionSource; tv_source_draft_id : option string;
  tv_trip_plan : TripPlan; tv_evaluation : TripVersionEvaluation;
  tv_created_at : datetime; tv_confirmed_at : option datetime
}.
#[export] Instance version_rebuild : Rebuild TripPlanVersion := fun v =>
  mkVersion (tv_version_id v) (tv_session_id v) (tv_version_number v) (tv_status v) (tv_source v)
    (tv_source_draft_id v) (tv_trip_plan v) (tv_evaluation v) (tv_created_at v) (tv_confirmed_at v).

Record TripDraft := mkDraft {
  dr_draft_id : string; dr_session_id : string; dr_base_version : Z; dr_status : DraftStatus;
  dr_trip_plan : TripPlan; dr_diff : option TripPlanDiff; dr_candidate_version_id : option string;
  dr_created_at : datetime; dr_updated_at : datetime
}.
#[export] Instance draft_rebuild : Rebuild TripDraft := fun d =>
  mkDraft (dr_draft_id d) (dr_session_id d) (dr_base_version d) (dr_status d) (dr_trip_plan d) (dr_diff d)
    (dr_candidate_version_id d) (dr_created_at d) (dr_updated_at d).

Record VersionQualitySnapshot := mkSnapshot {
  vq_version_number : Z; vq_quality_score : Q; vq_quality_level : PlanQualityLevel; vq_accepted : bool;
  vq_route_score : Q; vq_schedule_score : Q; vq_unavailable_route_legs : Z;
  vq_schedule_overtime_minutes : Z; vq_excessive_commute_segments : Z; vq_constraint_errors : Z;
  vq_validation_errors : Z; vq_warnings : list string; vq_blocking_reasons : list string
}.

(** [quality_snapshot] *)
Definition quality_snapshot (v : TripPlanVersion) : VersionQualitySnapshot :=
  let e := tv_evaluation v in
  let acceptance := te_acceptance e in
  mkSnapshot (tv_version_number v) (pa_quality_score acceptance) (pa_quality_level acceptance)
    (pa_accepted acceptance) (rq_quality_score (te_route_quality e)) (sq_quality_score (te_schedule e))
    (rq_unavailable_legs (te_route_quality e)) (sq_total_overtime_minutes (te_schedule e))
    (cm_excessive_segment_count (te_commute e)) (ct_error_count (te_constraints e))
    (vr_error_count (te_validation e)) (pa_warnings acceptance) (pa_blocking_reasons acceptance).

(** ** Tables *)

Record VersionRow := mkVersionRow {
  vw_session_id : string; vw_version_number : Z; vw_status : VersionStatus; vw_source : VersionSource;
  vw_source_draft_id : option string; vw_version_json : TripPlanVersion;
  vw_created_at : datetime; vw_confirmed_at : option datetime
}.

Record DraftRow := mkDraftRow {
  dw_session_id : string; dw_base_version : Z; dw_status : DraftStatus; dw_draft_json : TripDraft;
  dw_candidate_version_id : option string; dw_created_at : datetime; dw_updated_at : datetime
}.

Record VersionDb := mkVersionDb { vd_versions : gmap string VersionRow; vd_drafts : gmap string DraftRow }.
#[export] Instance version_db_rebuild : Rebuild VersionDb := fun db => mkVersionDb (vd_versions db) (vd_drafts db).

Definition empty_versions : VersionDb := mkVersionDb ∅ ∅.

Definition row_of_version (v : TripPlanVersion) : VersionRow :=
  mkVersionRow (tv_session_id v) (tv_version_number v) (tv_status v) (tv_source v) (tv_source_draft_id v) v
    (tv_created_at v) (tv_confirmed_at v).

Definition row_of_draft (d : TripDraft) : DraftRow :=
  mkDraftRow (dr_session_id d) (dr_base_version d) (dr_status d) d (dr_candidate_version_id d)
    (dr_created_at d) (dr_updated_at d).

Definition set_version_row (id : string) (r : VersionRow) (db : VersionDb) : VersionDb :=
  mkVersionDb (<[id := r]> (vd_versions db)) (vd_drafts db).
Definition set_draft_row (id : string) (r : DraftRow) (db : VersionDb) : VersionDb :=
  mkVersionDb (vd_versions db) (<[id := r]> (vd_drafts db)).

(** The rows of a session, with their keys. *)
Definition session_rows (sid : string) (db : VersionDb) : list (string * VersionRow) :=
  filter (fun kr => vw_session_id kr.2 = sid) (map_to_list (vd_versions db)).

(** The unique constraint on (session_id, version_number): the other row that has this pair. *)
Definition number_owner (id sid : string) (number : Z) (db : VersionDb) : option (string * VersionRow) :=
  find (fun kr => negb (String.eqb kr.1 id) && (vw_version_number kr.2 =? number)) (session_rows sid db).

Definition version_missing (sid : string) (number : Z) : exn :=
  VersionNotFoundError ("行程版本不存在：" ++ sid ++ " v" ++ str_of_Z number).
Definition version_id_missing (id : string) : exn := VersionNotFoundError ("行程版本不存在：" ++ id).
Definition draft_missing (id : string) : exn := DraftNotFoundError ("行程草稿不存在：" ++ id).

(** Higher numbers first. *)
Definition newer_version (a b : string * VersionRow) : bool := vw_version_number b.2 <=? vw_version_number a.2.
Definition newest_first (l : list (string * VersionRow)) : list (string * VersionRow) := py_sorted newer_version l.

(** [COALESCE(MAX(version_number), 0)] *)
Definition max_version_number (l : list (string * VersionRow)) : Z :=
  match l with
  | [] => 0
  | r :: l => foldr (fun r n => Z.max (vw_version_number r.2) n) (vw_version_number r.2) l
  end.

(** Both stores read with the same queries. *)
Definition confirmed_row (sid : string) (db : VersionDb) : option VersionRow :=
  snd <$> head (newest_first (filter (fun kr => vw_status kr.2 = version_confirmed) (session_rows sid db))).

(** ** What a service asks of a store *)

(** The abstract methods of [TripVersionStore] (persistence/interfaces.py). *)
Class VersionStore := {
  save_version : TripPlanVersion → VersionDb → result exn VersionDb;
  get_version : string → Z → VersionDb → result exn TripPlanVersion;
  get_version_by_id : string → VersionDb → result exn TripPlanVersion;
  get_confirmed_version : string → VersionDb → option TripPlanVersion;
  list_versions : string → VersionDb → list TripPlanVersion;
  next_version_number : string → VersionDb → Z;
  save_draft : TripDraft → VersionDb → VersionDb;
  get_draft : string → string → VersionDb → result exn TripDraft;
  supersede_candidate : option string → VersionDb → result exn VersionDb;
  confirm_version : datetime → TripPlanVersion → VersionDb → result exn (TripPlanVersion * VersionDb)
}.

(** [version_id] is falsy when it is [None] or empty. *)
Definition truthy (id : option string) : option string :=
  match id with Some id => if String.eqb id "" then None else Some id | None => None end.

(** ** Updates *)

(** [UPDATE ... WHERE version_id = ?] changes nothing when there is no such row. *)
Definition update_version_row (id : string) (f : VersionRow → VersionRow) (db : VersionDb) : VersionDb :=
  match vd_versions db !! id with
  | Some r => set_version_row id (f r) db
  | None => db
  end.

Definition superseded_row (v : TripPlanVersion) (r : VersionRow) : VersionRow :=
  mkVersionRow (vw_session_id r) (vw_version_number r) version_superseded (vw_source r) (vw_source_draft_id r)
    (v <| tv_status := version_superseded |>) (vw_created_at r) (vw_confirmed_at r).

Definition confirmed_version (now : datetime) (v : TripPlanVersion) : TripPlanVersion :=
  v <| tv_status := version_confirmed |> <| tv_confirmed_at := Some now |>.

Definition confirmed_version_row (now : datetime) (v : TripPlanVersion) (r : VersionRow) : VersionRow :=
  mkVersionRow (vw_session_id r) (vw_version_number r) version_confirmed (vw_source r) (vw_source_draft_id r)
    (confirmed_version now v) (vw_created_at r) (Some now).

(** ** SQLite *)

Module SqliteVersions.

(** [INSERT ... ON CONFLICT(version_id) DO UPDATE]: only the status, the
    record and the confirmation change; a number that another version of the
    session has is refused. *)
Definition save_version (v : TripPlanVersion) (db : VersionDb) : result exn VersionDb :=
  match vd_versions db !! tv_version_id v with
  | Some r =>
      mret (set_version_row (tv_version_id v)
              (mkVersionRow (vw_session_id r) (vw_version_number r) (tv_status v) (vw_source r)
                 (vw_source_draft_id r) v (vw_created_at r) (tv_confirmed_at v)) db)
  | None =>
      match number_owner (tv_version_id v) (tv_session_id v) (tv_version_number v) db with
      | Some _ => Err IntegrityError
      | None => mret (set_version_row (tv_version_id v) (row_of_version v) db)
      end
  end.

(** [fetchone()] *)
Definition get_version (sid : string) (number : Z) (db : VersionDb) : result exn TripPlanVersion :=
  match find (fun kr => vw_version_number kr.2 =? number) (session_rows sid db) with
  | Some (_, r) => mret (vw_version_json r)
  | None => Err (version_missing sid number)
  end.

Definition get_version_by_id (id : string) (db : VersionDb) : result exn TripPlanVersion :=
  match vd_versions db !! id with
  | Some r => mret (vw_version_json r)
  | None => Err (version_id_missing id)
  end.

Definition get_confirmed_version (sid : string) (db : VersionDb) : option TripPlanVersion :=
  vw_version_json <$> confirmed_row sid db.

Definition list_versions (sid : string) (db : VersionDb) : list TripPlanVersion :=
  map (fun kr => vw_version_json kr.2) (newest_first (session_rows sid db)).

Definition next_version_number (sid : string) (db : VersionDb) : Z := max_version_number (session_rows sid db) + 1.

Definition save_draft (d : TripDraft) (db : VersionDb) : VersionDb :=
  match vd_drafts db !! dr_draft_id d with
  | Some r =>
      set_draft_row (dr_draft_id d)
        (mkDraftRow (dw_session_id r) (dw_base_version r) (dr_status d) d (dr_candidate_version_id d)
           (dw_created_at r) (dr_updated_at d)) db
  | None => set_draft_row (dr_draft_id d) (row_of_draft d) db
  end.

Definition get_draft (sid did : string) (db : VersionDb) : result exn TripDraft :=
  match vd_drafts db !! did with
  | Some r => if String.eqb (dw_session_id r) sid then mret (dw_draft_json r) else Err (draft_missing did)
  | None => Err (draft_missing did)
  end.

Definition supersede_candidate (id : option string) (db : VersionDb) : result exn VersionDb :=
  match truthy id with
  | None => mret db
  | Some id =>
      v ← get_version_by_id id db;
      if bool_decide (tv_status v = version_candidate)
      then save_version (v <| tv_status := version_superseded |>) db
      else mret db
  end.

Definition supersede_row (r : VersionRow) (db : VersionDb) : VersionDb :=
  update_version_row (tv_version_id (vw_version_json r)) (superseded_row (vw_version_json r)) db.

(** The confirmed rows of the session are withdrawn first. *)
Definition confirm_version (now : datetime) (v : TripPlanVersion) (db : VersionDb)
    : result exn (TripPlanVersion * VersionDb) :=
  let rows := filter (fun kr => vw_status kr.2 = version_confirmed) (session_rows (tv_session_id v) db) in
  let db := foldl (fun db kr => supersede_row kr.2 db) db rows in
  mret (confirmed_version now v, update_version_row (tv_version_id v) (confirmed_version_row now v) db).

#[export] Instance store : VersionStore := {|
  TripVersions.save_version := save_version; TripVersions.get_version := get_version;
  TripVersions.get_version_by_id := get_version_by_id;
  TripVersions.get_confirmed_version := get_confirmed_version; TripVersions.list_versions := list_versions;
  TripVersions.next_version_number := next_version_number; TripVersions.save_draft := save_draft;
  TripVersions.get_draft := get_draft; TripVersions.supersede_candidate := supersede_candidate;
  TripVersions.confirm_version := confirm_version
|}.
End SqliteVersions.

(** ** MySQL *)

Module MysqlVersions.

(** What [ON DUPLICATE KEY UPDATE] makes of a row: all columns but the key and the creation. *)
Definition overwritten_row (v : TripPlanVersion) (r : VersionRow) : VersionRow :=
  mkVersionRow (tv_session_id v) (tv_version_number v) (tv_status v) (tv_source v) (tv_source_draft_id v) v
    (vw_created_at r) (tv_confirmed_at v).

(** The duplicate may be of the primary key or of the unique pair; the row
    it is found in is updated, under its own key. *)
Definition save_version (v : TripPlanVersion) (db : VersionDb) : result exn VersionDb :=
  let owner := number_owner (tv_version_id v) (tv_session_id v) (tv_version_number v) db in
  match vd_versions db !! tv_version_id v, owner with
  | Some r, None => mret (set_version_row (tv_version_id v) (overwritten_row v r) db)
  | Some _, Some _ => Err IntegrityError
  | None, Some (id, r) => mret (set_version_row id (overwritten_row v r) db)
  | None, None => mret (set_version_row (tv_version_id v) (row_of_version v) db)
  end.

(** [scalar_one_or_none()] *)
Definition get_version (sid : string) (number : Z) (db : VersionDb) : result exn TripPlanVersion :=
  match filter (fun kr => vw_version_number kr.2 = number) (session_rows sid db) with
  | [] => Err (version_missing sid number)
  | [(_, r)] => mret (vw_version_json r)
  | _ => Err MultipleResultsFound
  end.

Definition get_version_by_id (id : string) (db : VersionDb) : result exn TripPlanVersion :=
  match vd_versions db !! id with
  | Some r => mret (vw_version_json r)
  | None => Err (version_id_missing id)
  end.

Definition get_confirmed_version (sid : string) (db : VersionDb) : option TripPlanVersion :=
  vw_version_json <$> confirmed_row sid db.

Definition list_versions (sid : string) (db : VersionDb) : list TripPlanVersion :=
  map (fun kr => vw_version_json kr.2) (newest_first (session_rows sid db)).

Definition next_version_number (sid : string) (db : VersionDb) : Z := max_version_number (session_rows sid db) + 1.

Definition save_draft (d : TripDraft) (db : VersionDb) : VersionDb :=
  match vd_drafts db !! dr_draft_id d with
  | Some r =>
      set_draft_row (dr_draft_id d)
        (mkDraftRow (dw_session_id r) (dw_base_version r) (dr_status d) d (dr_candidate_version_id d)
           (dw_created_at r) (dr_updated_at d)) db
  | None => set_draft_row (dr_draft_id d) (row_of_draft d) db
  end.

Definition get_draft (sid did : string) (db : VersionDb) : result exn TripDraft :=
  match vd_drafts db !! did with
  | Some r => if String.eqb (dw_session_id r) sid then mret (dw_draft_json r) else Err (draft_missing did)
  | None => Err (draft_missing did)
  end.

Definition supersede_candidate (id : option string) (db : VersionDb) : result exn VersionDb :=
  match truthy id with
  | None => mret db
  | Some id =>
      match vd_versions db !! id with
      | None => Err (version_id_missing id)
      | Some r =>
          if bool_decide (tv_status (vw_version_json r) = version_candidate)
          then mret (set_version_row id (superseded_row (vw_version_json r) r) db)
          else mret db
      end
  end.

(** One of the locked rows of the session: withdrawn when its record is
    confirmed and is not the version itself. *)
Definition withdraw_row (id : string) (r : VersionRow) (db : VersionDb) : VersionDb :=
  let old := vw_version_json r in
  if bool_decide (tv_status old = version_confirmed) && negb (String.eqb (tv_version_id old) id)
  then update_version_row (tv_version_id old) (superseded_row old) db
  else db.

Definition confirm_version (now : datetime) (v : TripPlanVersion) (db : VersionDb)
    : result exn (TripPlanVersion * VersionDb) :=
  let rows := session_rows (tv_session_id v) db in
  if negb (existsb (fun kr => String.eqb kr.1 (tv_version_id v)) rows)
  then Err (version_id_missing (tv_version_id v))
  else
    let db := foldl (fun db kr => withdraw_row (tv_version_id v) kr.2 db) db rows in
    mret (confirmed_version now v,
          update_version_row (tv_version_id v) (confirmed_version_row now v) db).

#[export] Instance store : VersionStore := {|
  TripVersions.save_version := save_version; TripVersions.get_version := get_version;
  TripVersions.get_version_by_id := get_version_by_id;
  TripVersions.get_confirmed_version := get_confirmed_version; TripVersions.list_versions := list_versions;
  TripVersions.next_version_number := next_version_number; TripVersions.save_draft := save_draft;
  TripVersions.get_draft := get_draft; TripVersions.supersede_candidate := supersede_candidate;
  TripVersions.confirm_version := confirm_version
|}.
End MysqlVersions.
