(* ===== verification/SessionStore.v ===== *)
(** The checkpoints of the sessions: [SQLiteAgentStateStore]
    (src/app/memory/sqlite_store.py) and [MySQLAgentStateStore]
    (src/app/persistence/mysql_agent_state_store.py), with the columns both
    project from a state (src/app/memory/quality_analytics.py).

    [created_at] of a state is set together with [started_at] and neither
    changes, so the start of a state is its creation. *)

From S2P Require Import Prelude PyData TripSchema AmapModels PlanReports TaskModels TaskTables OrderedDict ToolModels AgentState Acceptance TripVersions.
From Stdlib Require Import ZArith QArith Lia String.
From stdpp Require Import base tactics option list gmap strings.

Open Scope string_scope.
Open Scope Z_scope.

(** ** What the columns show of a state *)

Inductive CompletionMode := mode_full | mode_partial.
#[export] Instance CompletionMode_eq_dec : EqDecision CompletionMode.
Proof. solve_decision. Defined.

Definition infer_completion_mode (s : AgentState) : option CompletionMode :=
  if bool_decide (lc_status (st_life s) = completed)
  then Some (if bool_decide (ev_completion_mode (st_evals s) = Some "partial") then mode_partial else mode_full)
  else None.

Definition state_quality_level (s : AgentState) : option PlanQualityLevel :=
  pa_quality_level <$> ev_acceptance (st_evals s).

Definition state_issue_codes (s : AgentState) : list string :=
  match ev_acceptance (st_evals s) with
  | None => []
  | Some report => fromkeys (filter (fun code => code ≠ "") (pa_unresolved_issue_codes report))
  end.

Record QualityValues := mkQualityValues {
  qv_travel_days : option Z; qv_transportation : option string;
  qv_completion_mode : option CompletionMode; qv_quality_level : option PlanQualityLevel;
  qv_quality_score : option Q; qv_warning_count : Z; qv_issue_codes : list string;
  qv_tool_call_count : Z; qv_llm_call_count : Z; qv_total_duration_ms : Z
}.

Definition no_quality_values : QualityValues := mkQualityValues None None None None None 0 [] 0 0 0.

(** [_quality_values]: the warnings of the report stand in when the state has none. *)
Definition quality_values (s : AgentState) : QualityValues :=
  let report := ev_acceptance (st_evals s) in
  let warnings := match ev_completion_warnings (st_evals s) with
                  | [] => match report with Some r => pa_warnings r | None => [] end
                  | l => l
                  end in
  mkQualityValues (Some (req_travel_days (st_request s))) (Some (req_transportation (st_request s)))
    (infer_completion_mode s) (state_quality_level s) (pa_quality_score <$> report)
    (Z.of_nat (length warnings)) (state_issue_codes s)
    (us_tool_call_count (st_usage s)) (us_llm_call_count (st_usage s)) (us_total_duration_ms (st_usage s)).

(** ** Tables *)

(** [se_state_json]: what the JSON column decodes to, [None] for a text that
    does not validate.  SQLite has no user column. *)
Record SessionRow := mkSessionRow {
  se_user_id : option string; se_status : AgentStatus; se_city : string;
  se_current_step : Z; se_max_steps : Z; se_action_count : Z;
  se_quality : QualityValues; se_state_json : option AgentState;
  se_created_at : datetime; se_updated_at : datetime
}.

(** One database holds the sessions, the tasks, and the drafts and versions;
    [ad_users] are the keys of the table of users. *)
Record AppDb := mkAppDb {
  ad_sessions : gmap string SessionRow; ad_tasks : TaskDb; ad_versions : VersionDb; ad_users : gset string
}.

Definition set_session (sid : string) (r : SessionRow) (db : AppDb) : AppDb :=
  mkAppDb (<[sid := r]> (ad_sessions db)) (ad_tasks db) (ad_versions db) (ad_users db).

Definition row_of_state (uid : option string) (s : AgentState) : SessionRow :=
  mkSessionRow uid (lc_status (st_life s)) (req_city (st_request s)) (lc_current_step (st_life s))
    (lc_max_steps (st_life s)) (Z.of_nat (length (au_history (st_audit s)))) (quality_values s) (Some s)
    (lc_started_at (st_life s)) (lc_updated_at (st_life s)).

(** An update leaves the user and the creation of the row alone. *)
Definition checkpointed (s : AgentState) (r : SessionRow) : SessionRow :=
  mkSessionRow (se_user_id r) (lc_status (st_life s)) (req_city (st_request s)) (lc_current_step (st_life s))
    (lc_max_steps (st_life s)) (Z.of_nat (length (au_history (st_audit s)))) (quality_values s) (Some s)
    (se_created_at r) (lc_updated_at (st_life s)).

Definition session_missing (sid : string) : exn := SessionNotFoundError ("会话不存在: " ++ sid).

Record AgentSessionSummary := mkSummary {
  su_session_id : string; su_status : AgentStatus; su_city : string;
  su_current_step : Z; su_max_steps : Z; su_action_count : Z;
  su_created_at : datetime; su_updated_at : datetime
}.

Definition summary_of (sid : string) (r : SessionRow) : AgentSessionSummary :=
  mkSummary sid (se_status r) (se_city r) (se_current_step r) (se_max_steps r) (se_action_count r)
    (se_created_at r) (se_updated_at r).

(** [ORDER BY updated_at DESC] *)
Definition recent_first (l : list (string * SessionRow)) : list (string * SessionRow) :=
  py_sorted (fun a b => se_updated_at b.2 <=? se_updated_at a.2) l.

Definition session_list (db : AppDb) : list (string * SessionRow) := map_to_list (ad_sessions db).

(** [max(1, min(limit, cap))] *)
Definition safe_limit (limit cap : Z) : nat := Z.to_nat (Z.max 1 (Z.min limit cap)).

(** A filter that is absent accepts everything. *)
Definition accepts_value {A} `{EqDecision A} (wanted : option A) (value : A) : bool :=
  match wanted with Some w => bool_decide (w = value) | None => true end.

(** The tasks of a session that may be deleted with it. *)
Definition session_tasks (keep : TaskRow → bool) (sid : string) (db : TaskDb) : list string :=
  map fst (filter (fun kr => row_session_id kr.2 = sid ∧ keep kr.2 = true) (map_to_list (db_tasks db))).

Definition delete_tasks (ids : list string) (db : TaskDb) : TaskDb :=
  mkDb (filter (fun kr => kr.1 ∉ ids) (db_tasks db)) (filter (fun e => ev_task_id e ∉ ids) (db_events db))
    (db_event_seq db).

Definition delete_versions (sid : string) (db : VersionDb) : VersionDb :=
  mkVersionDb (filter (fun kr => vw_session_id kr.2 ≠ sid) (vd_versions db))
    (filter (fun kr => dw_session_id kr.2 ≠ sid) (vd_drafts db)).

Definition delete_rows (ids : list string) (sid : string) (db : AppDb) : AppDb :=
  mkAppDb (delete sid (ad_sessions db)) (delete_tasks ids (ad_tasks db)) (delete_versions sid (ad_versions db))
    (ad_users db).

(** ** What the services ask of a store *)

(** [update_state] is [save_state] on a state that the store has loaded, the
    only use the services make of it. *)
Class StateStore := {
  get_state : string → option string → AppDb → result exn AgentState;
  update_state : datetime → AgentState → AppDb → result exn AppDb;
  delete_session : string → string → AppDb → result exn (list string * AppDb)
}.

(** ** SQLite *)

Module SqliteSessions.

(** An upsert. *)
Definition save_state (now : datetime) (s : AgentState) (db : AppDb) : result exn AppDb :=
  let s := touch now s in
  mret (set_session (st_session_id s)
          (match ad_sessions db !! st_session_id s with
           | Some r => checkpointed s r
           | None => row_of_state None s
           end) db).

Definition create_state (now : datetime) (s : AgentState) (db : AppDb) : result exn AppDb := save_state now s db.

Definition get_state (sid : string) (user_id : option string) (db : AppDb) : result exn AgentState :=
  match ad_sessions db !! sid with
  | None => Err (session_missing sid)
  | Some r =>
      match se_state_json r with
      | None => Err ValidationError
      | Some s =>
          if bool_decide (is_Some user_id) && negb (bool_decide (st_user_id s = user_id))
          then Err (session_missing sid) else mret s
      end
  end.

(** The user is checked on the decoded states, after the limit was applied. *)
Definition list_sessions (limit : Z) (status : option AgentStatus) (user_id : option string) (db : AppDb)
    : list AgentSessionSummary :=
  let rows := take (safe_limit limit 200)
                (recent_first (filter (fun kr => accepts_value status (se_status kr.2) = true) (session_list db))) in
  omap (fun kr =>
    match user_id with
    | None => Some (summary_of kr.1 kr.2)
    | Some _ =>
        match se_state_json kr.2 with
        | Some s => if bool_decide (st_user_id s = user_id) then Some (summary_of kr.1 kr.2) else None
        | None => None
        end
    end) rows.

(** The rows an older schema left without the quality columns. *)
Definition lacks_quality (r : SessionRow) : bool :=
  negb (bool_decide (is_Some (qv_travel_days (se_quality r)))
        && bool_decide (is_Some (qv_transportation (se_quality r)))).

Definition with_quality (s : AgentState) (r : SessionRow) : SessionRow :=
  mkSessionRow (se_user_id r) (se_status r) (se_city r) (se_current_step r) (se_max_steps r)
    (se_action_count r) (quality_values s) (se_state_json r) (se_created_at r) (se_updated_at r).

(** A state that does not validate is skipped; the row that is updated is
    the one the state names. *)
Definition backfill_quality_columns (db : AppDb) : AppDb :=
  let rows := filter (fun kr => lacks_quality kr.2 = true) (session_list db) in
  mkAppDb
    (foldl (fun m kr => match se_state_json kr.2 with
                        | Some s => alter (with_quality s) (st_session_id s) m
                        | None => m
                        end) (ad_sessions db) rows)
    (ad_tasks db) (ad_versions db) (ad_users db).

(** The states of the newest rows that match, with the number of matching
    rows, of rows read and of states that do not validate. *)
Definition sampled_states (matches : SessionRow → bool) (user_id : option string) (limit : nat) (db : AppDb)
    : list AgentState * Z * Z * Z :=
  let rows := filter (fun kr => matches kr.2 = true) (session_list db) in
  let sample := take limit (recent_first rows) in
  let states := filter (fun s => accepts_value (Some <$> user_id) (st_user_id s) = true)
                  (omap (fun kr => se_state_json kr.2) sample) in
  let invalid := match user_id with
                 | None => Z.of_nat (length (filter (fun kr => se_state_json kr.2 = None) sample))
                 | Some _ => 0
                 end in
  let matching := match user_id with None => Z.of_nat (length rows) | Some _ => Z.of_nat (length states) end in
  (states, matching, Z.of_nat (length sample), invalid).

(** All tasks of the session, whoever asked for them. *)
Definition delete_session (sid user_id : string) (db : AppDb) : result exn (list string * AppDb) :=
  _ ← get_state sid (Some user_id) db;
  let ids := session_tasks (fun _ => true) sid (ad_tasks db) in
  mret (ids, delete_rows ids sid db).

#[export] Instance store : StateStore := {|
  SessionStore.get_state := get_state; SessionStore.update_state := save_state;
  SessionStore.delete_session := delete_session
|}.
End SqliteSessions.

(** ** MySQL *)

Module MysqlSessions.

(** The foreign key of the user. *)
Definition user_known (uid : option string) (db : AppDb) : bool :=
  match uid with Some u => bool_decide (u ∈ ad_users db) | None => true end.

(** An insert: the primary key refuses a session that exists. *)
Definition create_state (now : datetime) (s : AgentState) (db : AppDb) : result exn AppDb :=
  let s := touch now s in
  if bool_decide (is_Some (ad_sessions db !! st_session_id s)) || negb (user_known (st_user_id s) db)
  then Err IntegrityError
  else mret (set_session (st_session_id s) (row_of_state (st_user_id s) s) db).

(** A comparison with [None] is rendered as [IS NULL]. *)
Definition owned_row (sid : string) (uid : option string) (db : AppDb) : option SessionRow :=
  match ad_sessions db !! sid, uid with
  | Some r, Some u => if bool_decide (se_user_id r = Some u) then Some r else None
  | Some r, None => if bool_decide (se_user_id r = None) then Some r else None
  | None, _ => None
  end.

(** [persisted]: the state was loaded from or saved to the store before. *)
Definition save_state (persisted : bool) (now : datetime) (s : AgentState) (db : AppDb) : result exn AppDb :=
  if negb persisted then create_state now s db
  else
    let s := touch now s in
    match owned_row (st_session_id s) (st_user_id s) db with
    | Some r => mret (set_session (st_session_id s) (checkpointed s r) db)
    | None => Err (session_missing (st_session_id s))
    end.

Definition get_state (sid : string) (user_id : option string) (db : AppDb) : result exn AgentState :=
  match ad_sessions db !! sid with
  | None => Err (session_missing sid)
  | Some r =>
      if bool_decide (is_Some user_id) && negb (bool_decide (se_user_id r = user_id))
      then Err (session_missing sid)
      else match se_state_json r with Some s => mret s | None => Err ValidationError end
  end.

Definition list_sessions (limit : Z) (status : option AgentStatus) (user_id : option string) (db : AppDb)
    : list AgentSessionSummary :=
  map (fun kr => summary_of kr.1 kr.2)
    (take (safe_limit limit 200)
       (recent_first
          (filter (fun kr => accepts_value (Some <$> user_id) (se_user_id kr.2)
                             && accepts_value status (se_status kr.2) = true) (session_list db)))).

Definition sampled_states (matches : SessionRow → bool) (user_id : option string) (limit : nat) (db : AppDb)
    : list AgentState * Z * Z * Z :=
  let rows := filter (fun kr => accepts_value (Some <$> user_id) (se_user_id kr.2) && matches kr.2 = true)
                (session_list db) in
  let sample := take limit (recent_first rows) in
  (omap (fun kr => se_state_json kr.2) sample, Z.of_nat (length rows), Z.of_nat (length sample),
   Z.of_nat (length (filter (fun kr => se_state_json kr.2 = None) sample))).

Definition delete_session (sid user_id : string) (db : AppDb) : result exn (list string * AppDb) :=
  match ad_sessions db !! sid with
  | Some r =>
      if bool_decide (se_user_id r = Some user_id) then
        let ids := session_tasks (fun t => bool_decide (row_user_id t = Some user_id)) sid (ad_tasks db) in
        mret (ids, delete_rows ids sid db)
      else Err (session_missing sid)
  | None => Err (session_missing sid)
  end.

#[export] Instance store : StateStore := {|
  SessionStore.get_state := get_state; SessionStore.update_state := save_state true;
  SessionStore.delete_session := delete_session
|}.
End MysqlSessions.
