(* ===== verification/TripDrafts.v ===== *)
(** Editing of a stored trip ([TripDraftService],
    src/app/services/trip_draft_service.py): drafts over the confirmed
    version, incremental routes, deterministic evaluation, confirmation.

    A method is a computation over the database that may raise; each clock
    reading, identifier, tool answer and store access is the next question
    to the environment, and every store access may fail. *)

From S2P Require Import Prelude PyData FloatMath TripSchema AmapModels PlanReports OrderedDict ToolModels PlanRoutes AgentState Acceptance Convergence AgentDecision AgentAnalysis TripVersions SessionStore.
From Stdlib Require Import ZArith QArith Lia String.
From stdpp Require Import base tactics option list gmap strings.

Open Scope string_scope.
Open Scope Z_scope.

(** ** The service monad *)

(** The [n]-th question; [de_fault] is the error a store access raises. *)
Class DraftEnv := {
  de_uuid : nat → string;
  de_utc : nat → datetime;
  de_estimate_routes : nat → json → ActionResult;
  de_fault : nat → option exn
}.

Record DraftWorld := mkDraftWorld { wo_db : AppDb; wo_tick : nat }.

Definition Svc (A : Type) : Type := DraftWorld → result exn A * DraftWorld.

#[export] Instance svc_ret : MRet Svc := fun A a w => (Ok a, w).
#[export] Instance svc_bind : MBind Svc := fun A B k m w =>
  match m w with
  | (Ok a, w) => k a w
  | (Err e, w) => (Err e, w)
  end.

Definition raise {A} (e : exn) : Svc A := fun w => (Err e, w).
Definition lift_result {A} (r : result exn A) : Svc A := fun w => (r, w).
Definition ask {A} (f : nat → A) : Svc A := fun w => (Ok (f (wo_tick w)), mkDraftWorld (wo_db w) (S (wo_tick w))).

Section Access.
Context `{DraftEnv}.

Definition new_uuid : Svc string := ask de_uuid.
Definition utc_now : Svc datetime := ask de_utc.

Definition read_store {A} (f : AppDb → result exn A) : Svc A :=
  fault ← ask de_fault;
  match fault with Some e => raise e | None => fun w => (f (wo_db w), w) end.

Definition write_store {A} (f : AppDb → result exn (A * AppDb)) : Svc A :=
  fault ← ask de_fault;
  match fault with
  | Some e => raise e
  | None => fun w => match f (wo_db w) with
                     | Ok (a, db) => (Ok a, mkDraftWorld db (wo_tick w))
                     | Err e => (Err e, w)
                     end
  end.
End Access.

(** The version store works on its own tables. *)
Definition on_versions {A} (f : VersionDb → result exn (A * VersionDb)) (db : AppDb) : result exn (A * AppDb) :=
  '(a, v) ← f (ad_versions db);
  mret (a, mkAppDb (ad_sessions db) (ad_tasks db) v (ad_users db)).

(** ** Differences *)

Definition changed_fields (before after : TripPlan) : list string :=
  let field (same : bool) (name : string) := if same then [] else [name] in
  (field (bool_decide (plan_city before = plan_city after)) "city"
   ++ field (bool_decide (plan_start_date before = plan_start_date after)) "start_date"
   ++ field (bool_decide (plan_end_date before = plan_end_date after)) "end_date"
   ++ field (bool_decide (plan_overall_suggestions before = plan_overall_suggestions after)) "overall_suggestions"
   ++ field (bool_decide (plan_weather_info before = plan_weather_info after)) "weather_info"
   ++ field (bool_decide (plan_budget before = plan_budget after)) "budget")%list.

(** The days of both plans position by position. *)
Fixpoint day_pairs (old new : list DayPlan) : list (option DayPlan * option DayPlan) :=
  match old, new with
  | [], [] => []
  | o :: old, [] => (Some o, None) :: day_pairs old []
  | [], n :: new' => (None, Some n) :: map (fun n => (None, Some n)) new'
  | o :: old, n :: new => (Some o, Some n) :: day_pairs old new
  end.

Definition pair_index (p : option DayPlan * option DayPlan) : Z :=
  match p with
  | (_, Some n) => day_index n
  | (Some o, None) => day_index o
  | (None, None) => 0
  end.

Definition day_field {A} (get : DayPlan → A) (absent : A) (d : option DayPlan) : A :=
  match d with Some d => get d | None => absent end.

Definition differs {A} `{EqDecision A} (get : DayPlan → A) (absent : A) (p : option DayPlan * option DayPlan) : bool :=
  negb (bool_decide (day_field get absent p.1 = day_field get absent p.2)).

(** [sorted(set(l))] *)
Definition sorted_set (l : list Z) : list Z := py_sorted Z.leb (remove_dups l).

Definition diff_plans (before after : TripPlan) : TripPlanDiff :=
  let pairs := day_pairs (plan_days before) (plan_days after) in
  let where_differs (f : option DayPlan * option DayPlan → bool) := map pair_index (filter (fun p => f p = true) pairs) in
  mkDiff (changed_fields before after)
    (sorted_set (where_differs (fun p => negb (bool_decide (p.1 = p.2)))))
    (concat (map (fun p => map (fun a => "第" ++ str_of_Z (pair_index p + 1) ++ "天：" ++ at_name a)
                             (day_field day_attractions [] p.2))
               (filter (fun p => differs day_attractions [] p = true) pairs)))
    (sorted_set (where_differs (differs day_hotel None)))
    (sorted_set (where_differs (differs day_meals [])))
    [] 0 0.

(** ** Incremental routes *)

Definition RouteKey : Type := Z * RouteLegType * Z.

(** [_leg_key] *)
Definition draft_leg_key (l : RouteLegRequest) : RouteKey := (lr_day_index l, lr_leg_type l, lr_leg_index l).
Definition route_key (r : RouteEstimate) : RouteKey := (re_day_index r, re_leg_type r, re_leg_index r).

(** [round(x, 6)], as a number of millionths *)
Definition millionths (q : Q) : Z := py_round (q * 1000000).

Definition LegSignature : Type := RouteKey * (string * Z * Z) * (string * Z * Z) * RouteMode.

(** [_leg_signature] *)
Definition leg_signature (l : RouteLegRequest) : LegSignature :=
  let point p := (rp_name p, millionths (longitude (rp_location p)), millionths (latitude (rp_location p))) in
  (draft_leg_key l, point (lr_origin l), point (lr_destination l), lr_mode l).

(** [_route_key_text] *)
Definition route_key_text (l : RouteLegRequest) : string :=
  str_of_Z (lr_day_index l) ++ ":" ++ leg_type_value (lr_leg_type l) ++ ":" ++ str_of_Z (lr_leg_index l) ++ ":"
  ++ rp_name (lr_origin l) ++ "->" ++ rp_name (lr_destination l).

(** A dictionary filled by assignments: the last one of a key counts. *)
Definition last_of {K V} `{EqDecision K} (key : K) (l : list (K * V)) : option V :=
  snd <$> find (fun kv => bool_decide (kv.1 = key)) (rev l).

Definition routes_by_key (l : list RouteEstimate) : list (RouteKey * RouteEstimate) := map (fun r => (route_key r, r)) l.

(** The routes of the old plan by the signature of their leg. *)
Definition reusable_by_signature (old_legs : list RouteLegRequest) (routes : list RouteEstimate)
    : list (LegSignature * RouteEstimate) :=
  omap (fun leg => r ← last_of (draft_leg_key leg) (routes_by_key routes); mret (leg_signature leg, r)) old_legs.

(** A new leg with the old route it can keep. *)
Definition reuse_leg (reusable : list (LegSignature * RouteEstimate)) (leg : RouteLegRequest)
    : option RouteEstimate := last_of (leg_signature leg) reusable.

Definition reused_routes (reusable : list (LegSignature * RouteEstimate)) (legs : list RouteLegRequest)
    : list (RouteKey * RouteEstimate) :=
  omap (fun leg => r ← reuse_leg reusable leg; mret (draft_leg_key leg, r)) legs.

Definition affected_legs (reusable : list (LegSignature * RouteEstimate)) (legs : list RouteLegRequest)
    : list RouteLegRequest := filter (fun leg => reuse_leg reusable leg = None) legs.

Definition missing_route (l : RouteLegRequest) : RouteEstimate :=
  mkRouteEstimate (lr_day_index l) (lr_leg_index l) (lr_leg_type l) (lr_date l)
    (rp_name (lr_origin l)) (rp_name (lr_destination l)) (lr_mode l) false None None
    (Some "ROUTE_RESULT_MISSING") (Some "路线供应商未返回该分段") false.

(** [reused.get(key) or queried.get(key)] *)
Definition route_of_leg (reused queried : list (RouteKey * RouteEstimate)) (leg : RouteLegRequest) : option RouteEstimate :=
  match last_of (draft_leg_key leg) reused with
  | Some r => Some r
  | None => last_of (draft_leg_key leg) queried
  end.

Definition ordered_routes (reused queried : list (RouteKey * RouteEstimate)) (legs : list RouteLegRequest)
    : list RouteEstimate :=
  map (fun leg => default (missing_route leg) (route_of_leg reused queried leg)) legs.

Definition missing_legs (reused queried : list (RouteKey * RouteEstimate)) (legs : list RouteLegRequest) : Z :=
  Z.of_nat (length (filter (fun leg => route_of_leg reused queried leg = None) legs)).

Definition metric (name : string) (r : option RouteEstimateResult) : Z :=
  match r with
  | Some r => match obj_get name (rr_metrics r) with Some (JInt z) => z | _ => 0 end
  | None => 0
  end.

Definition hit_rate (hits misses : Z) : Q :=
  if hits + misses =? 0 then 0%Q else (inject_Z hits / inject_Z (hits + misses))%Q.

Definition draft_metrics (r : option RouteEstimateResult) : list (string * json) :=
  let count name := (name, JInt (metric name r)) in
  [count "cache_hits"; count "cache_misses"; count "l1_cache_hits"; count "l1_cache_misses";
   count "l1_cache_degraded";
   ("l1_cache_hit_rate", JFloat (hit_rate (metric "l1_cache_hits" r) (metric "l1_cache_misses" r)));
   count "l2_cache_hits"; count "l2_cache_misses"; count "l2_cache_errors";
   ("l2_cache_hit_rate", JFloat (hit_rate (metric "l2_cache_hits" r) (metric "l2_cache_misses" r)));
   count "provider_calls"; count "provider_calls_avoided_by_l1"; count "provider_calls_avoided_by_l2"].

(** ** The service *)

Record TripDraftCreate := mkDraftCreate { dc_base_version : option Z; dc_trip_plan : TripPlan }.

Record DraftEvaluationResponse := mkEvaluationResponse {
  rs_draft : TripDraft; rs_candidate : TripPlanVersion;
  rs_before : VersionQualitySnapshot; rs_after : VersionQualitySnapshot; rs_diff : TripPlanDiff
}.

(** [_validate_identity] *)
Definition validate_identity (st : AgentState) (plan : TripPlan) : result exn unit :=
  let request := st_request st in
  if negb (bool_decide ((plan_city plan, plan_start_date plan, plan_end_date plan)
                        = (req_city request, req_start_date request, req_end_date request)))
  then Err (DraftConflictError "草稿不能修改城市或起止日期")
  else if negb (Z.of_nat (length (plan_days plan)) =? req_travel_days request)
  then Err (DraftConflictError "草稿天数必须与原请求一致")
  else mret tt.

Definition stale_base (requested current : Z) : exn :=
  DraftConflictError ("基线版本已过期：请求 v" ++ str_of_Z requested ++ "，当前确认版本为 v" ++ str_of_Z current).
Definition stale_draft (base current : Z) : exn :=
  DraftConflictError ("草稿基线 v" ++ str_of_Z base ++ " 已过期，当前确认版本为 v" ++ str_of_Z current).

Section Service.
Context `{DraftEnv} `{VersionStore} `{StateStore} `{HashEnv} `{PydanticModels} `{PlanningServices}.

Definition load_state (sid : string) : Svc AgentState := read_store (get_state sid None).
Definition load_draft (sid did : string) : Svc TripDraft :=
  read_store (fun db => get_draft sid did (ad_versions db)).
Definition load_confirmed (sid : string) : Svc (option TripPlanVersion) :=
  read_store (fun db => mret (get_confirmed_version sid (ad_versions db))).
Definition store_version (v : TripPlanVersion) : Svc unit :=
  write_store (on_versions (fun d => d ← save_version v d; mret (tt, d))).
Definition store_draft (d : TripDraft) : Svc TripDraft :=
  write_store (on_versions (fun v => mret (d, save_draft d v))).
Definition withdraw_candidate (id : option string) : Svc unit :=
  write_store (on_versions (fun d => d ← supersede_candidate id d; mret (tt, d))).

(** [_evaluate_plan]: the schedule anchors the meals, so it is evaluated
    around both rebuilds. *)
Definition evaluate_plan (st : AgentState) (plan : TripPlan) (routes : RouteEstimateResult)
    : Svc (TripPlan * TripVersionEvaluation) :=
  let request := st_request st in
  let f := st_facts st in
  let dumped := dump_route_result routes in
  preliminary ← lift_result (sv_evaluate_schedule request plan routes);
  plan ← lift_result (sv_rebuild request plan dumped (Some preliminary) (fa_restaurants f));
  schedule ← lift_result (sv_evaluate_schedule request plan routes);
  plan ← lift_result (sv_rebuild request plan dumped (Some schedule) (fa_restaurants f));
  schedule ← lift_result (sv_evaluate_schedule request plan routes);
  route_quality ← lift_result (sv_evaluate_route_quality plan routes);
  commute ← lift_result (sv_evaluate_commute request plan dumped);
  constraints ← lift_result (sv_evaluate_constraints request plan schedule (fa_attractions f) (fa_weather f));
  checked_at ← utc_now;
  validation ← lift_result (sv_validate checked_at request plan (fa_attractions f) (fa_weather f) (fa_hotels f)
                              (Some dumped) (Some schedule) (Some constraints));
  let evaluation_state :=
    on_evals (fun e => e <| ev_route_quality := Some route_quality |> <| ev_schedule := Some schedule |>
                         <| ev_commute := Some commute |> <| ev_constraints := Some constraints |>)
      (on_facts (fun f => f <| fa_trip_plan := Some plan |> <| fa_route_estimates := Some dumped |>) st) in
  mret (plan, mkVersionEvaluation routes route_quality schedule commute constraints validation
                (Acceptance.evaluate evaluation_state validation)).

(** [_evaluation_from_state] *)
Definition evaluation_from_state (st : AgentState) : Svc (TripPlan * TripVersionEvaluation) :=
  match fa_trip_plan (st_facts st), fa_route_estimates (st_facts st) with
  | Some plan, Some routes => r ← lift_result (pm_routes routes); evaluate_plan st plan r
  | _, _ => raise (DraftConflictError "当前会话尚未生成可编辑的完整行程")
  end.

Definition ensure_original_version (st : AgentState) : Svc TripPlanVersion :=
  confirmed ← load_confirmed (st_session_id st);
  match confirmed with
  | Some v => mret v
  | None =>
      match fa_trip_plan (st_facts st) with
      | None => raise (DraftConflictError "当前会话没有可编辑行程")
      | Some _ =>
          '(plan, evaluation) ← evaluation_from_state st;
          id ← new_uuid; confirmed_at ← utc_now; created_at ← utc_now;
          let v := mkVersion id (st_session_id st) 1 version_confirmed source_original None plan evaluation
                     created_at (Some confirmed_at) in
          _ ← store_version v; mret v
      end
  end.

Definition create_draft (sid : string) (payload : TripDraftCreate) : Svc TripDraft :=
  st ← load_state sid;
  confirmed ← ensure_original_version st;
  let base := default (tv_version_number confirmed) (dc_base_version payload) in
  if negb (base =? tv_version_number confirmed) then raise (stale_base base (tv_version_number confirmed))
  else
    _ ← lift_result (validate_identity st (dc_trip_plan payload));
    id ← new_uuid; created_at ← utc_now; updated_at ← utc_now;
    store_draft (mkDraft id sid base draft_editing (dc_trip_plan payload) None None created_at updated_at).

Definition update_draft (sid did : string) (plan : TripPlan) : Svc TripDraft :=
  st ← load_state sid;
  draft ← load_draft sid did;
  if bool_decide (dr_status draft = draft_confirmed)
  then raise (DraftConflictError "已确认草稿不能继续修改，请创建新草稿")
  else
    _ ← lift_result (validate_identity st plan);
    _ ← withdraw_candidate (dr_candidate_version_id draft);
    now ← utc_now;
    store_draft (mkDraft (dr_draft_id draft) (dr_session_id draft) (dr_base_version draft) draft_editing plan
                   None None (dr_created_at draft) now).

(** [_incremental_routes]: the routes, and the difference with their counts. *)
Definition incremental_routes (st : AgentState) (before : TripPlanVersion) (plan : TripPlan) (diff : TripPlanDiff)
    : Svc (RouteEstimateResult * TripPlanDiff) :=
  let request := st_request st in
  let f := st_facts st in
  old_legs ← lift_result (build_route_legs request (tv_trip_plan before) (fa_attractions f) (fa_hotels f));
  legs ← lift_result (build_route_legs request plan (fa_attractions f) (fa_hotels f));
  let reusable := reusable_by_signature old_legs (rr_routes (te_route_estimates (tv_evaluation before))) in
  let reused := reused_routes reusable legs in
  let affected := affected_legs reusable legs in
  let fingerprint := route_fingerprint request plan in
  answer ←
    match affected with
    | [] => mret None
    | _ =>
        action ← ask (fun n => de_estimate_routes n
          (JObj [("city", JStr (req_city request)); ("plan_fingerprint", JStr fingerprint);
                 ("legs", JArr (map dump_leg_request affected))]));
        if negb (ar_success action)
        then raise (RuntimeError ("受影响路线重新查询失败："
                    ++ match truthy (ar_error action) with Some e => e | None => "未知错误" end))
        else r ← lift_result (pm_routes (default JNull (ar_data action))); mret (Some r)
    end;
  let queried := match answer with Some r => routes_by_key (rr_routes r) | None => [] end in
  let routes := ordered_routes reused queried legs in
  let failed := match answer with Some r => rr_failed_legs r | None => 0 end + missing_legs reused queried legs in
  mret (mkRouteResult fingerprint (Z.of_nat (length legs)) (Z.of_nat (length routes)) 0 failed
          (draft_metrics answer) routes,
        mkDiff (df_changed_fields diff) (df_changed_days diff) (df_changed_attractions diff)
          (df_changed_hotels diff) (df_changed_meals diff) (map route_key_text affected)
          (Z.of_nat (length (remove_dups (map fst reused)))) (Z.of_nat (length affected))).

Definition evaluate_draft (sid did : string) : Svc DraftEvaluationResponse :=
  st ← load_state sid;
  draft ← load_draft sid did;
  found ← load_confirmed sid;
  confirmed ← match found with Some v => mret v | None => ensure_original_version st end;
  if negb (dr_base_version draft =? tv_version_number confirmed)
  then raise (stale_draft (dr_base_version draft) (tv_version_number confirmed))
  else
    _ ← withdraw_candidate (dr_candidate_version_id draft);
    '(routes, diff) ← incremental_routes st confirmed (dr_trip_plan draft)
                        (diff_plans (tv_trip_plan confirmed) (dr_trip_plan draft));
    '(plan, evaluation) ← evaluate_plan st (dr_trip_plan draft) routes;
    id ← new_uuid;
    number ← read_store (fun db => mret (next_version_number sid (ad_versions db)));
    created_at ← utc_now;
    let candidate := mkVersion id sid number version_candidate source_draft (Some (dr_draft_id draft)) plan evaluation
                       created_at None in
    _ ← store_version candidate;
    now ← utc_now;
    let draft := mkDraft (dr_draft_id draft) (dr_session_id draft) (dr_base_version draft) draft_evaluated plan
                   (Some diff) (Some id) (dr_created_at draft) now in
    _ ← store_draft draft;
    mret (mkEvaluationResponse draft candidate (quality_snapshot confirmed) (quality_snapshot candidate) diff).

(** The reports of the confirmed version, as the state of the session keeps them. *)
Definition state_of_version (st : AgentState) (v : TripPlanVersion) : result exn AgentState :=
  let e := tv_evaluation v in
  let plan := tv_trip_plan v in
  let dumped := dump_route_result (te_route_estimates e) in
  fingerprint ← content_fingerprint_of st (Some dumped) (Some (te_schedule e)) (fa_restaurants (st_facts st)) plan;
  mret (on_evals (fun x => x
      <| ev_route_quality := Some (te_route_quality e) |>
      <| ev_route_quality_fingerprint := Some (rq_plan_fingerprint (te_route_quality e)) |>
      <| ev_schedule := Some (te_schedule e) |>
      <| ev_schedule_fingerprint := Some (sq_plan_fingerprint (te_schedule e)) |>
      <| ev_commute := Some (te_commute e) |>
      <| ev_commute_fingerprint := Some (cm_plan_fingerprint (te_commute e)) |>
      <| ev_constraints := Some (te_constraints e) |>
      <| ev_constraints_fingerprint := Some (constraint_fingerprint (st_request st) plan) |>
      <| ev_validation := Some (te_validation e) |>
      <| ev_acceptance := Some (te_acceptance e) |>
      <| ev_plan_consistency_fingerprint := Some fingerprint |>)
    (on_facts (fun f => f <| fa_trip_plan := Some plan |> <| fa_route_estimates := Some dumped |>
                          <| fa_route_plan_fingerprint := Some (rr_plan_fingerprint (te_route_estimates e)) |>) st)).

(** The checks of [confirm_draft]: the version that may be confirmed. *)
Definition confirmable (sid did : string) : Svc (AgentState * TripDraft * TripPlanVersion) :=
  st ← load_state sid;
  draft ← load_draft sid did;
  confirmed ← load_confirmed sid;
  match confirmed with
  | Some c =>
      if negb (dr_base_version draft =? tv_version_number c)
      then raise (DraftConflictError "草稿基线已过期，请重新创建草稿")
      else
        match bool_decide (dr_status draft = draft_evaluated), truthy (dr_candidate_version_id draft) with
        | true, Some id =>
            v ← read_store (fun db => get_version_by_id id (ad_versions db));
            mret (st, draft, v)
        | _, _ => raise (DraftConflictError "草稿尚未完成重新评估")
        end
  | None => raise (DraftConflictError "草稿基线已过期，请重新创建草稿")
  end.

(** Its writes. *)
Definition apply_confirmation (st : AgentState) (draft : TripDraft) (v : TripPlanVersion)
    : Svc (TripDraft * TripPlanVersion) :=
  confirmed_at ← utc_now;
  v ← write_store (on_versions (confirm_version confirmed_at v));
  st ← lift_result (state_of_version st v);
  now ← utc_now;
  let st := on_life (fun l => l <| lc_updated_at := now |>) st in
  saved_at ← utc_now;
  _ ← write_store (fun db => db ← update_state saved_at st db; mret (tt, db));
  now ← utc_now;
  let draft := mkDraft (dr_draft_id draft) (dr_session_id draft) (dr_base_version draft) draft_confirmed
                 (dr_trip_plan draft) (dr_diff draft) (dr_candidate_version_id draft) (dr_created_at draft) now in
  _ ← store_draft draft;
  mret (draft, v).

Definition confirm_draft (sid did : string) : Svc (TripDraft * TripPlanVersion) :=
  '(st, draft, v) ← confirmable sid did;
  apply_confirmation st draft v.
End Service.
