(* ===== verification/TripHistory.v ===== *)
(** The contract of the two stores of versions and drafts: on tables whose
    columns agree with their records both do what one specification says. *)

From S2P Require Import Prelude PyData TripSchema OrderedDict AmapModels PlanReports ToolModels AgentState TripVersions SessionStore TripDrafts.
From Stdlib Require Import ZArith QArith Lia String Sorted.
From stdpp Require Import base tactics option list gmap strings.

Open Scope string_scope.
Open Scope Z_scope.

(** ** Tables as records *)

Definition versions_of (db : VersionDb) : gmap string TripPlanVersion := vw_version_json <$> vd_versions db.
Definition drafts_of (db : VersionDb) : gmap string TripDraft := dw_draft_json <$> vd_drafts db.

Record columns_ok (db : VersionDb) : Prop := {
  co_versions : ∀ id r, vd_versions db !! id = Some r →
    r = row_of_version (vw_version_json r) ∧ tv_version_id (vw_version_json r) = id;
  co_drafts : ∀ id r, vd_drafts db !! id = Some r →
    r = row_of_draft (dw_draft_json r) ∧ dr_draft_id (dw_draft_json r) = id
}.

(** No other version of the session has the number. *)
Definition number_free (id sid : string) (number : Z) (db : VersionDb) : Prop :=
  ∀ i v, versions_of db !! i = Some v → tv_session_id v = sid → tv_version_number v = number → i = id.

Definition at_most_one_confirmed (db : VersionDb) : Prop :=
  ∀ i j v w, versions_of db !! i = Some v → versions_of db !! j = Some w → tv_session_id v = tv_session_id w →
    tv_status v = version_confirmed → tv_status w = version_confirmed → i = j.

Lemma versions_of_lookup db id v :
  versions_of db !! id = Some v ↔ ∃ r, vd_versions db !! id = Some r ∧ vw_version_json r = v.
Proof. unfold versions_of. rewrite lookup_fmap, fmap_Some. naive_solver. Qed.

Lemma drafts_of_lookup db id d :
  drafts_of db !! id = Some d ↔ ∃ r, vd_drafts db !! id = Some r ∧ dw_draft_json r = d.
Proof. unfold drafts_of. rewrite lookup_fmap, fmap_Some. naive_solver. Qed.

Lemma version_row db id v :
  columns_ok db → versions_of db !! id = Some v → vd_versions db !! id = Some (row_of_version v) ∧ tv_version_id v = id.
Proof.
  intros [Hv _] (r & Hr & <-)%versions_of_lookup. destruct (Hv id r Hr) as [He Hi]. split; [|done]. by rewrite <- He.
Qed.

Lemma draft_row db id d :
  columns_ok db → drafts_of db !! id = Some d → vd_drafts db !! id = Some (row_of_draft d) ∧ dr_draft_id d = id.
Proof.
  intros [_ Hd] (r & Hr & <-)%drafts_of_lookup. destruct (Hd id r Hr) as [He Hi]. split; [|done]. by rewrite <- He.
Qed.

Lemma version_id_of db id v : columns_ok db → versions_of db !! id = Some v → tv_version_id v = id.
Proof. intros Hc Hv. by destruct (version_row db id v Hc Hv). Qed.

Lemma versions_of_set id r db : versions_of (set_version_row id r db) = <[id := vw_version_json r]> (versions_of db).
Proof. unfold versions_of, set_version_row. cbn [vd_versions]. by rewrite fmap_insert. Qed.
Lemma drafts_of_set id r db : drafts_of (set_draft_row id r db) = <[id := dw_draft_json r]> (drafts_of db).
Proof. unfold drafts_of, set_draft_row. cbn [vd_drafts]. by rewrite fmap_insert. Qed.
Lemma drafts_of_set_version id r db : drafts_of (set_version_row id r db) = drafts_of db.
Proof. done. Qed.
Lemma versions_of_set_draft id r db : versions_of (set_draft_row id r db) = versions_of db.
Proof. done. Qed.

Lemma columns_ok_version v db : columns_ok db → columns_ok (set_version_row (tv_version_id v) (row_of_version v) db).
Proof.
  intros [Hv Hd]. split; [|done]. intros id r. unfold set_version_row. cbn [vd_versions].
  rewrite lookup_insert_Some. intros [[<- <-]|[_ Hr]]; [done|by apply Hv].
Qed.
Lemma columns_ok_draft d db : columns_ok db → columns_ok (set_draft_row (dr_draft_id d) (row_of_draft d) db).
Proof.
  intros [Hv Hd]. split; [done|]. intros id r. unfold set_draft_row. cbn [vd_drafts].
  rewrite lookup_insert_Some. intros [[<- <-]|[_ Hr]]; [done|by apply Hd].
Qed.

(** ** Reading *)

Lemma elem_session_rows sid db id r :
  (id, r) ∈ session_rows sid db ↔ vd_versions db !! id = Some r ∧ vw_session_id r = sid.
Proof. unfold session_rows. rewrite list_elem_of_filter, elem_of_map_to_list. cbn. naive_solver. Qed.

Lemma number_owner_none db id sid number :
  columns_ok db → number_owner id sid number db = None ↔ number_free id sid number db.
Proof.
  intros Hc. unfold number_owner, number_free. split.
  - intros Hf i v Hv Hs Hn. destruct (version_row db i v Hc Hv) as [Hr Hi].
    destruct (decide (i = id)) as [?|Hne]; [done|]. exfalso.
    pose proof (find_none _ _ Hf (i, row_of_version v)) as Hno. cbn in Hno.
    rewrite Hn, Z.eqb_refl, andb_true_r, negb_false_iff, String.eqb_eq in Hno.
    apply Hne, Hno, list_elem_of_In, elem_session_rows. by rewrite Hr.
  - intros H. destruct (find _ _) as [[i r]|] eqn:E; [|done]. apply find_some in E as [Hin Ht].
    apply list_elem_of_In, elem_session_rows in Hin as [Hr Hs]. cbn in Ht.
    rewrite andb_true_iff, negb_true_iff, Z.eqb_eq in Ht. destruct Ht as [Hne Hn].
    apply String.eqb_neq in Hne. destruct Hne. destruct (co_versions db Hc i r Hr) as [He _].
    apply (H i (vw_version_json r)); [apply versions_of_lookup; eauto| |];
      rewrite He in Hs, Hn; done.
Qed.

Lemma newer_total a b : newer_version a b = true ∨ newer_version b a = true.
Proof. unfold newer_version. rewrite !Z.leb_le. lia. Qed.
Lemma newer_trans a b c : newer_version a b = true → newer_version b c = true → newer_version a c = true.
Proof. unfold newer_version. rewrite !Z.leb_le. lia. Qed.

Lemma confirmed_lookup db sid v :
  columns_ok db → at_most_one_confirmed db →
  vw_version_json <$> confirmed_row sid db = Some v ↔
  (∃ id, versions_of db !! id = Some v) ∧ tv_session_id v = sid ∧ tv_status v = version_confirmed.
Proof.
  intros Hc Hone. unfold confirmed_row. set (l := filter _ _). split.
  - intros Hv. apply fmap_Some in Hv as (r & Hr & ->). apply fmap_Some in Hr as ([id r'] & Hh & ->). cbn.
    apply (py_sorted_head newer_version newer_total newer_trans) in Hh as [Hin _].
    apply list_elem_of_filter in Hin as [Hs Hin]. apply elem_session_rows in Hin as [Hr Hsid]. cbn in Hs.
    destruct (co_versions db Hc id r' Hr) as [He _]. rewrite He in Hs, Hsid. cbn in Hs, Hsid.
    split; [|done]. exists id. apply versions_of_lookup. eauto.
  - intros ((id & Hv) & Hsid & Hs). destruct (version_row db id v Hc Hv) as [Hr Hi].
    assert (Hin : (id, row_of_version v) ∈ l).
    { apply list_elem_of_filter. split; [done|]. by apply elem_session_rows. }
    destruct (head (newest_first l)) as [[j r]|] eqn:Hh.
    + pose proof Hh as Hh'. apply (py_sorted_head newer_version newer_total newer_trans) in Hh' as [Hj _].
      apply list_elem_of_filter in Hj as [Hsj Hj]. apply elem_session_rows in Hj as [Hrj Hsidj]. cbn in Hsj.
      destruct (co_versions db Hc j r Hrj) as [He _].
      assert (Hj : versions_of db !! j = Some (vw_version_json r)) by (apply versions_of_lookup; eauto).
      assert (j = id) as ->.
      { rewrite He in Hsj, Hsidj. cbn in Hsj, Hsidj. apply (Hone j id _ _ Hj Hv); congruence. }
      cbn. congruence.
    + destruct (newest_first l) eqn:E; [|done]. pose proof (py_sorted_perm newer_version l) as Hp.
      unfold newest_first in E. rewrite E in Hp. apply Permutation_nil in Hp. rewrite Hp in Hin. set_solver.
Qed.

Lemma max_version_bound l id r : (id, r) ∈ l → vw_version_number r <= max_version_number l.
Proof.
  destruct l as [|x l]; [set_solver|]. cbn [max_version_number]. intros Hin.
  assert (H : ∀ z, z <= foldr (fun r n => Z.max (vw_version_number r.2) n) z l
                   ∧ ∀ y, y ∈ l → vw_version_number y.2 <= foldr (fun r n => Z.max (vw_version_number r.2) n) z l).
  { clear Hin. induction l as [|y l IH]; intros z; cbn; [split; [lia|set_solver]|]. destruct (IH z) as [H1 H2].
    split; [lia|]. intros y' [->|Hy]%elem_of_cons; [lia|]. specialize (H2 y' Hy). lia. }
  apply elem_of_cons in Hin as [<-|Hin]; [apply H|]. by apply (proj2 (H _) (id, r)).
Qed.

Lemma next_number_above db sid id v :
  columns_ok db → versions_of db !! id = Some v → tv_session_id v = sid →
  tv_version_number v < max_version_number (session_rows sid db) + 1.
Proof.
  intros Hc Hv Hs. destruct (version_row db id v Hc Hv) as [Hr _].
  assert (Hin : (id, row_of_version v) ∈ session_rows sid db) by by apply elem_session_rows.
  apply max_version_bound in Hin. cbn in Hin. lia.
Qed.

(** ** The contract *)

Definition superseded (v : TripPlanVersion) : TripPlanVersion := v <| tv_status := version_superseded |>.

(** The versions of the session that were confirmed are withdrawn, the version is confirmed. *)
Definition withdrawn_row (sid : string) (r : VersionRow) : VersionRow :=
  if bool_decide (vw_session_id r = sid) && bool_decide (vw_status r = version_confirmed)
  then row_of_version (superseded (vw_version_json r)) else r.

Definition confirmed_table (now : datetime) (v : TripPlanVersion) (m : gmap string VersionRow) : gmap string VersionRow :=
  <[tv_version_id v := row_of_version (confirmed_version now v)]> (withdrawn_row (tv_session_id v) <$> m).

Class VersionStoreLaws `{VersionStore} : Prop := {
  law_save_new v db : columns_ok db → versions_of db !! tv_version_id v = None →
    number_free (tv_version_id v) (tv_session_id v) (tv_version_number v) db →
    save_version v db = Ok (set_version_row (tv_version_id v) (row_of_version v) db);
  law_get_by_id id db :
    get_version_by_id id db = match versions_of db !! id with Some v => Ok v | None => Err (version_id_missing id) end;
  law_confirmed sid db : get_confirmed_version sid db = vw_version_json <$> confirmed_row sid db;
  law_next sid db : next_version_number sid db = max_version_number (session_rows sid db) + 1;
  law_list sid db : list_versions sid db = map (fun kr => vw_version_json kr.2) (newest_first (session_rows sid db));
  law_save_draft d db : columns_ok db →
    (∀ old, drafts_of db !! dr_draft_id d = Some old →
       dr_session_id old = dr_session_id d ∧ dr_base_version old = dr_base_version d
       ∧ dr_created_at old = dr_created_at d) →
    save_draft d db = set_draft_row (dr_draft_id d) (row_of_draft d) db;
  law_get_draft sid did db : columns_ok db →
    get_draft sid did db = match drafts_of db !! did with
                           | Some d => if String.eqb (dr_session_id d) sid then Ok d else Err (draft_missing did)
                           | None => Err (draft_missing did)
                           end;
  law_supersede id db : columns_ok db →
    supersede_candidate id db =
    match truthy id with
    | None => Ok db
    | Some i =>
        match versions_of db !! i with
        | None => Err (version_id_missing i)
        | Some v => if bool_decide (tv_status v = version_candidate)
                    then Ok (set_version_row i (row_of_version (superseded v)) db) else Ok db
        end
    end;
  law_confirm now v db : columns_ok db → versions_of db !! tv_version_id v = Some v →
    confirm_version now v db
    = Ok (confirmed_version now v, mkVersionDb (confirmed_table now v (vd_versions db)) (vd_drafts db))
}.

Lemma draft_columns db did sid :
  columns_ok db →
  match vd_drafts db !! did with
  | Some r => if String.eqb (dw_session_id r) sid then mret (dw_draft_json r) else Err (draft_missing did)
  | None => Err (draft_missing did)
  end = match drafts_of db !! did with
        | Some d => if String.eqb (dr_session_id d) sid then Ok d else Err (draft_missing did)
        | None => Err (E := exn) (draft_missing did)
        end.
Proof.
  intros Hc. unfold drafts_of. rewrite lookup_fmap. destruct (vd_drafts db !! did) as [r|] eqn:E; [|done]. cbn.
  destruct (co_drafts db Hc did r E) as [He _]. by rewrite He.
Qed.

Lemma saved_draft d db :
  columns_ok db →
  (∀ old, drafts_of db !! dr_draft_id d = Some old →
     dr_session_id old = dr_session_id d ∧ dr_base_version old = dr_base_version d ∧ dr_created_at old = dr_created_at d) →
  SqliteVersions.save_draft d db = set_draft_row (dr_draft_id d) (row_of_draft d) db.
Proof.
  intros Hc Hold. unfold SqliteVersions.save_draft. destruct (vd_drafts db !! dr_draft_id d) as [r|] eqn:E; [|done].
  destruct (co_drafts db Hc _ r E) as [He _].
  destruct (Hold (dw_draft_json r)) as (Hs & Hb & Ht); [apply drafts_of_lookup; eauto|].
  rewrite He. unfold row_of_draft. cbn. by rewrite Hs, Hb, Ht.
Qed.

Lemma get_by_id_of db id :
  match vd_versions db !! id with Some r => mret (vw_version_json r) | None => Err (version_id_missing id) end
  = match versions_of db !! id with Some v => Ok v | None => Err (E := exn) (version_id_missing id) end.
Proof. unfold versions_of. rewrite lookup_fmap. by destruct (vd_versions db !! id). Qed.

(** ** Both stores keep it *)

Lemma superseded_row_of v : superseded_row v (row_of_version v) = row_of_version (superseded v).
Proof. done. Qed.
Lemma confirmed_row_of now v : confirmed_version_row now v (row_of_version v) = row_of_version (confirmed_version now v).
Proof. done. Qed.

(** One pass that withdraws the listed rows with property [p]. *)
Definition withdraw_if (p : VersionRow → bool) (db : VersionDb) (kr : string * VersionRow) : VersionDb :=
  if p kr.2
  then update_version_row (tv_version_id (vw_version_json kr.2)) (superseded_row (vw_version_json kr.2)) db
  else db.

Lemma withdraw_pass p l : ∀ db,
  (∀ i r, (i, r) ∈ l → vd_versions db !! i = Some r ∧ r = row_of_version (vw_version_json r)
                       ∧ tv_version_id (vw_version_json r) = i) →
  NoDup (l.*1) →
  let db' := foldl (withdraw_if p) db l in
  vd_drafts db' = vd_drafts db
  ∧ ∀ i, vd_versions db' !! i =
         match vd_versions db !! i with
         | Some r => Some (if p r && bool_decide (i ∈ l.*1) then row_of_version (superseded (vw_version_json r)) else r)
         | None => None
         end.
Proof.
  induction l as [|[j rj] l IH]; intros db Hl Hnd; cbn [foldl].
  { split; [done|]. intros i. destruct (_ !! i) as [r|]; [|done].
    rewrite bool_decide_eq_false_2 by set_solver. by rewrite andb_false_r. }
  cbn in Hnd. apply NoDup_cons in Hnd as [Hj Hnd].
  destruct (Hl j rj) as (Hrow & Hcol & Hid); [left|].
  assert (Hother : ∀ i r, (i, r) ∈ l → i ≠ j).
  { intros i r Hin ->. apply Hj. by apply (list_elem_of_fmap_2 fst l (j, r)). }
  set (db1 := withdraw_if p db (j, rj)).
  assert (H1 : vd_drafts db1 = vd_drafts db ∧ ∀ i, vd_versions db1 !! i =
    if decide (i = j) then Some (if p rj then row_of_version (superseded (vw_version_json rj)) else rj)
    else vd_versions db !! i).
  { unfold db1, withdraw_if. cbn. destruct (p rj).
    - unfold update_version_row. rewrite Hid, Hrow. split; [done|]. intros i. cbn.
      destruct (decide (i = j)) as [->|Hne]; [|by rewrite lookup_insert_ne].
      rewrite lookup_insert_eq. rewrite Hcol at 2. by rewrite superseded_row_of.
    - split; [done|]. intros i. by destruct (decide (i = j)) as [->|]. }
  destruct H1 as [Hd1 Hv1]. destruct (IH db1) as [Hd Hv]; [|done|].
  { intros i r Hin. rewrite Hv1, decide_False by by eapply Hother. apply Hl. by right. }
  split; [by rewrite Hd|]. intros i. rewrite Hv, Hv1.
  rewrite fmap_cons. cbn [fst]. destruct (decide (i = j)) as [->|Hne].
  - rewrite Hrow. rewrite (bool_decide_eq_false_2 (j ∈ l.*1)) by done.
    rewrite andb_false_r, (bool_decide_eq_true_2 (j ∈ j :: l.*1)) by left. by rewrite andb_true_r.
  - destruct (vd_versions db !! i) as [r|]; [|done].
    rewrite (bool_decide_ext (i ∈ j :: l.*1) (i ∈ l.*1)); [done|]. rewrite elem_of_cons. naive_solver.
Qed.

Lemma session_rows_wf sid db : columns_ok db →
  (∀ i r, (i, r) ∈ session_rows sid db → vd_versions db !! i = Some r ∧ r = row_of_version (vw_version_json r)
                                         ∧ tv_version_id (vw_version_json r) = i)
  ∧ NoDup ((session_rows sid db).*1).
Proof.
  intros Hc. split.
  - intros i r [Hr _]%elem_session_rows. split; [done|]. by apply (co_versions db Hc).
  - unfold session_rows. apply NoDup_fmap_2_strong; [|apply NoDup_filter, NoDup_map_to_list].
    intros [i r] [j s] [_ Hi%elem_of_map_to_list]%list_elem_of_filter [_ Hj%elem_of_map_to_list]%list_elem_of_filter.
    cbn. intros ->. congruence.
Qed.

(** A listed key is listed with its row. *)
Lemma listed_key (l : list (string * VersionRow)) db i r :
  (∀ j s, (j, s) ∈ l → vd_versions db !! j = Some s) → vd_versions db !! i = Some r → i ∈ l.*1 ↔ (i, r) ∈ l.
Proof.
  intros Hl Hr. split.
  - intros ([j s] & -> & Hin)%list_elem_of_fmap. cbn in *. pose proof (Hl _ _ Hin). congruence.
  - intros Hin. by apply (list_elem_of_fmap_2 fst l (i, r)).
Qed.

(** After the withdrawals, the update of the version itself completes the table. *)
Lemma confirm_last now v db db' :
  columns_ok db → versions_of db !! tv_version_id v = Some v → vd_drafts db' = vd_drafts db →
  (∀ i, vd_versions db' !! i = vd_versions (mkVersionDb (withdrawn_row (tv_session_id v) <$> vd_versions db) ∅) !! i
        ∨ i = tv_version_id v ∧ vd_versions db' !! i = vd_versions db !! i) →
  update_version_row (tv_version_id v) (confirmed_version_row now v) db'
  = mkVersionDb (confirmed_table now v (vd_versions db)) (vd_drafts db).
Proof.
  intros Hc Hv Hd H. destruct (version_row db _ v Hc Hv) as [Hr _].
  assert (Hown : ∃ r, vd_versions db' !! tv_version_id v = Some r
                      ∧ confirmed_version_row now v r = row_of_version (confirmed_version now v)).
  { destruct (H (tv_version_id v)) as [He|[_ He]]; rewrite He.
    - cbn [vd_versions]. rewrite lookup_fmap, Hr. cbn. unfold withdrawn_row. destruct (_ && _); eexists; done.
    - rewrite Hr. eauto. }
  destruct Hown as (r & Hown & Hrow). unfold update_version_row. rewrite Hown, Hrow.
  unfold set_version_row, confirmed_table. rewrite Hd. f_equal. apply map_eq. intros i.
  destruct (decide (i = tv_version_id v)) as [->|Hne]; [by rewrite !lookup_insert_eq|].
  rewrite !lookup_insert_ne by done. destruct (H i) as [He|[? _]]; [|done]. by rewrite He.
Qed.

#[export] Instance sqlite_version_laws : @VersionStoreLaws SqliteVersions.store.
Proof.
  split.
  - intros v db Hc Hnew Hfree. cbn. unfold SqliteVersions.save_version.
    assert (vd_versions db !! tv_version_id v = None) as ->.
    { unfold versions_of in Hnew. rewrite lookup_fmap in Hnew. by destruct (vd_versions db !! _). }
    apply number_owner_none in Hfree; [|done]. by rewrite Hfree.
  - intros id db. apply get_by_id_of.
  - done.
  - done.
  - done.
  - apply saved_draft.
  - intros. by apply draft_columns.
  - intros id db Hc. cbn. unfold SqliteVersions.supersede_candidate, SqliteVersions.get_version_by_id.
    destruct (truthy id) as [i|]; [|done]. rewrite get_by_id_of.
    destruct (versions_of db !! i) as [v|] eqn:E; [|done]. cbn [mbind result_bind].
    case_bool_decide; [|done]. destruct (version_row db i v Hc E) as [Hr Hi].
    unfold SqliteVersions.save_version. cbn [tv_version_id]. fold (superseded v).
    change (tv_version_id (superseded v)) with (tv_version_id v). by rewrite Hi, Hr.
  - intros now v db Hc Hv. cbn. unfold SqliteVersions.confirm_version. cbv zeta.
    unfold mret, result_ret. do 2 f_equal. set (l := filter _ _).
    destruct (session_rows_wf (tv_session_id v) db Hc) as [Hl Hnd].
    destruct (withdraw_pass (fun _ => true) l db) as [Hd Hvs].
    { intros i r Hin%list_elem_of_filter. apply Hl, Hin. }
    { unfold l. eapply sublist_NoDup; [exact Hnd|]. apply fmap_sublist, sublist_filter. }
    apply confirm_last; [done|done|exact Hd|]. intros i. left.
    change (foldl _ db l) with (foldl (withdraw_if (fun _ => true)) db l). rewrite Hvs. cbn [vd_versions].
    rewrite lookup_fmap. destruct (vd_versions db !! i) as [r|] eqn:Er; [|done]. cbn. f_equal.
    unfold withdrawn_row. rewrite <- bool_decide_and.
    rewrite (bool_decide_ext (i ∈ l.*1) (vw_session_id r = tv_session_id v ∧ vw_status r = version_confirmed)); [done|].
    rewrite (listed_key l db i r); [|intros j s [_ [Hj _]%Hl]%list_elem_of_filter; done|done].
    unfold l. rewrite list_elem_of_filter, elem_session_rows. cbn. naive_solver.
Qed.

#[export] Instance mysql_version_laws : @VersionStoreLaws MysqlVersions.store.
Proof.
  split.
  - intros v db Hc Hnew Hfree. cbn. unfold MysqlVersions.save_version.
    assert (vd_versions db !! tv_version_id v = None) as ->.
    { unfold versions_of in Hnew. rewrite lookup_fmap in Hnew. by destruct (vd_versions db !! _). }
    apply number_owner_none in Hfree; [|done]. by rewrite Hfree.
  - intros id db. apply get_by_id_of.
  - done.
  - done.
  - done.
  - apply saved_draft.
  - intros. by apply draft_columns.
  - intros id db Hc. cbn. unfold MysqlVersions.supersede_candidate. destruct (truthy id) as [i|]; [|done].
    unfold versions_of. rewrite lookup_fmap. destruct (vd_versions db !! i) as [r|] eqn:E; [|done]. cbn.
    destruct (co_versions db Hc i r E) as [He Hi]. case_bool_decide; [|done]. by rewrite He at 2.
  - intros now v db Hc Hv. cbn. unfold MysqlVersions.confirm_version. cbv zeta.
    destruct (version_row db _ v Hc Hv) as [Hr _]. destruct (session_rows_wf (tv_session_id v) db Hc) as [Hl Hnd].
    assert (existsb (fun kr => String.eqb kr.1 (tv_version_id v)) (session_rows (tv_session_id v) db) = true) as ->.
    { apply existsb_exists. exists (tv_version_id v, row_of_version v). split; [|by apply String.eqb_eq].
      apply list_elem_of_In, elem_session_rows. by rewrite Hr. }
    cbn [negb]. unfold mret, result_ret. do 2 f_equal.
    set (p := fun r => bool_decide (tv_status (vw_version_json r) = version_confirmed)
                       && negb (String.eqb (tv_version_id (vw_version_json r)) (tv_version_id v))).
    destruct (withdraw_pass p (session_rows (tv_session_id v) db) db Hl Hnd) as [Hd Hvs].
    apply confirm_last; [done|done|exact Hd|]. intros i.
    change (foldl _ db (session_rows (tv_session_id v) db))
      with (foldl (withdraw_if p) db (session_rows (tv_session_id v) db)).
    destruct (decide (i = tv_version_id v)) as [->|Hne].
    + right. split; [done|]. rewrite Hvs, Hr. unfold p. cbn. by rewrite String.eqb_refl, andb_false_r.
    + left. rewrite Hvs. cbn [vd_versions]. rewrite lookup_fmap.
      destruct (vd_versions db !! i) as [r|] eqn:Er; [|done]. cbn. f_equal.
      destruct (co_versions db Hc i r Er) as [He Hi]. unfold withdrawn_row, p. rewrite Hi.
      rewrite (proj2 (String.eqb_neq i (tv_version_id v)) Hne), andb_true_r.
      rewrite (bool_decide_ext (vw_status r = version_confirmed) (tv_status (vw_version_json r) = version_confirmed));
        [|by rewrite He at 1].
      rewrite (bool_decide_ext (i ∈ _) (vw_session_id r = tv_session_id v)); [by rewrite andb_comm|].
      rewrite (listed_key _ db i r); [|by intros j s [Hj _]%Hl|done]. rewrite elem_session_rows. naive_solver.
Qed.

(** The invariant of the version history and the order in which histories
    grow: what each write of the draft service does to them. *)

(** ** Invariant *)

Definition history (w : DraftWorld) : gmap string TripPlanVersion := versions_of (ad_versions (wo_db w)).
Definition drafts (w : DraftWorld) : gmap string TripDraft := drafts_of (ad_versions (wo_db w)).

(** Identifiers that were handed out. *)
Definition issued `{DraftEnv} (id : string) (w : DraftWorld) : Prop := ∃ k, (k < wo_tick w)%nat ∧ id = de_uuid k.

Record history_ok `{DraftEnv} (w : DraftWorld) : Prop := {
  ho_columns : columns_ok (ad_versions (wo_db w));
  ho_numbers : ∀ i j u v, history w !! i = Some u → history w !! j = Some v →
    tv_session_id u = tv_session_id v → tv_version_number u = tv_version_number v → i = j;
  ho_positive : ∀ i v, history w !! i = Some v → 1 <= tv_version_number v;
  ho_one : at_most_one_confirmed (ad_versions (wo_db w));
  ho_some : ∀ i v, history w !! i = Some v → ∃ j u, history w !! j = Some u
    ∧ tv_session_id u = tv_session_id v ∧ tv_status u = version_confirmed;
  ho_candidates : ∀ i d c, drafts w !! i = Some d → truthy (dr_candidate_version_id d) = Some c →
    ∃ v, history w !! c = Some v ∧ tv_session_id v = dr_session_id d ∧ dr_base_version d < tv_version_number v
         ∧ tv_trip_plan v = dr_trip_plan d;
  ho_issued : ∀ i, is_Some (history w !! i) ∨ is_Some (drafts w !! i) → issued i w;
  ho_sessions : ∀ sid r s, ad_sessions (wo_db w) !! sid = Some r → se_state_json r = Some s → st_session_id s = sid
}.

(** The number of the confirmed version of a session. *)
Definition confirmed_number (sid : string) (n : Z) (w : DraftWorld) : Prop :=
  ∃ i v, history w !! i = Some v ∧ tv_session_id v = sid ∧ tv_status v = version_confirmed ∧ tv_version_number v = n.

(** What a version keeps for ever: everything but its status and its confirmation. *)
Definition same_content (v v' : TripPlanVersion) : Prop :=
  v' = mkVersion (tv_version_id v) (tv_session_id v) (tv_version_number v) (tv_status v') (tv_source v)
         (tv_source_draft_id v) (tv_trip_plan v) (tv_evaluation v) (tv_created_at v) (tv_confirmed_at v').

(** The history of [w'] continues that of [w]. *)
Record grows (w w' : DraftWorld) : Prop := {
  gr_versions : ∀ i v, history w !! i = Some v → ∃ v', history w' !! i = Some v' ∧ same_content v v';
  gr_confirmed : ∀ sid n, confirmed_number sid n w → ∃ n', n <= n' ∧ confirmed_number sid n' w';
  gr_drafts : ∀ i d, drafts w !! i = Some d → ∃ d', drafts w' !! i = Some d'
    ∧ dr_session_id d' = dr_session_id d ∧ dr_base_version d' = dr_base_version d
}.

Lemma same_content_refl v : same_content v v.
Proof. by destruct v. Qed.
Lemma same_content_trans u v w : same_content u v → same_content v w → same_content u w.
Proof. unfold same_content. destruct u, v, w. cbn. intros [=] [=]. by subst. Qed.

Lemma same_content_fields v v' : same_content v v' →
  tv_version_id v' = tv_version_id v ∧ tv_session_id v' = tv_session_id v
  ∧ tv_version_number v' = tv_version_number v ∧ tv_trip_plan v' = tv_trip_plan v ∧ tv_evaluation v' = tv_evaluation v.
Proof. unfold same_content. intros ->. done. Qed.

#[export] Instance grows_preorder : PreOrder grows.
Proof.
  split.
  - intros w. split.
    + intros i v Hv. exists v. split; [done|apply same_content_refl].
    + intros sid n Hn. exists n. split; [lia|done].
    + intros i d Hd. eauto.
  - intros u v w [V1 C1 D1] [V2 C2 D2]. split.
    + intros i x Hx. destruct (V1 i x Hx) as (y & Hy & Hxy). destruct (V2 i y Hy) as (z & Hz & Hyz).
      exists z. split; [done|]. by eapply same_content_trans.
    + intros sid n Hn. destruct (C1 sid n Hn) as (m & Hm & Hc). destruct (C2 sid m Hc) as (k & Hk & Hc').
      exists k. split; [lia|done].
    + intros i d Hd. destruct (D1 i d Hd) as (e & He & Hs & Hb). destruct (D2 i e He) as (f & Hf & Hs' & Hb').
      exists f. split; [done|]. by rewrite Hs', Hb'.
Qed.

Section History.
Context `{DraftEnv}.
Implicit Types (w : DraftWorld).

Definition with_versions (f : VersionDb → VersionDb) (w : DraftWorld) : DraftWorld :=
  mkDraftWorld (mkAppDb (ad_sessions (wo_db w)) (ad_tasks (wo_db w)) (f (ad_versions (wo_db w))) (ad_users (wo_db w)))
    (wo_tick w).

Lemma confirmed_unique w sid m n : history_ok w → confirmed_number sid m w → confirmed_number sid n w → m = n.
Proof.
  intros Hok (i & u & Hu & Hsu & Hcu & <-) (j & v & Hv & Hsv & Hcv & <-).
  assert (i = j) as -> by (apply (ho_one w Hok i j u v); [exact Hu|exact Hv|congruence..]). congruence.
Qed.

(** Asking the environment changes nothing. *)
Lemma history_tick w n : history_ok w → (wo_tick w <= n)%nat → history_ok (mkDraftWorld (wo_db w) n).
Proof.
  intros [] Hn. split; try done. intros i Hi. destruct (ho_issued0 i Hi) as (k & Hk & ->). exists k. cbn. split; [lia|done].
Qed.
Lemma grows_tick w n : grows w (mkDraftWorld (wo_db w) n).
Proof. destruct (reflexivity (R := grows) w) as [V C D]. split; [exact V|exact C|exact D]. Qed.

(** ** A new version *)

Definition add_version (v : TripPlanVersion) (w : DraftWorld) : DraftWorld :=
  with_versions (set_version_row (tv_version_id v) (row_of_version v)) w.

Lemma history_add v w : history (add_version v w) = <[tv_version_id v := v]> (history w).
Proof. apply versions_of_set. Qed.

(** It is a candidate of a session that has a confirmed version, or the
    first version of its session. *)
Definition addable (v : TripPlanVersion) (w : DraftWorld) : Prop :=
  history w !! tv_version_id v = None ∧ issued (tv_version_id v) w ∧ 1 <= tv_version_number v
  ∧ (∀ i u, history w !! i = Some u → tv_session_id u = tv_session_id v → tv_version_number u < tv_version_number v)
  ∧ ((tv_status v = version_candidate ∧ ∃ n, confirmed_number (tv_session_id v) n w)
     ∨ (tv_status v = version_confirmed ∧ ∀ i u, history w !! i = Some u → tv_session_id u ≠ tv_session_id v)).

Lemma add_version_ok v w : history_ok w → addable v w → history_ok (add_version v w) ∧ grows w (add_version v w).
Proof.
  intros Hok (Hnew & Hissued & Hpos & Habove & Hkind).
  assert (Hold : ∀ i u, history w !! i = Some u → history (add_version v w) !! i = Some u).
  { intros i u Hu. rewrite history_add. rewrite lookup_insert_ne; [done|congruence]. }
  assert (Hcases : ∀ i u, history (add_version v w) !! i = Some u →
            (i = tv_version_id v ∧ u = v) ∨ (i ≠ tv_version_id v ∧ history w !! i = Some u)).
  { intros i u. rewrite history_add, lookup_insert_Some. naive_solver. }
  split.
  - split.
    + apply columns_ok_version, Hok.
    + intros i j u u' [[-> ->]|[Hi Hu]]%Hcases [[-> ->]|[Hj Hu']]%Hcases Hs Hn; [done| | |by eapply (ho_numbers w Hok)].
      * specialize (Habove j u' Hu'). rewrite Hs in Habove. specialize (Habove eq_refl). lia.
      * specialize (Habove i u Hu Hs). lia.
    + intros i u [[-> ->]|[_ Hu]]%Hcases; [done|by eapply (ho_positive w Hok)].
    + intros i j u u' Hi Hj Hs Hcu Hcu'.
      apply Hcases in Hi as [[-> ->]|[Hi Hu]]; apply Hcases in Hj as [[-> ->]|[Hj Hu']]; [done| | |].
      * destruct Hkind as [[? _]|[_ Hnone]]; [congruence|]. by destruct (Hnone j u' Hu').
      * destruct Hkind as [[? _]|[_ Hnone]]; [congruence|]. by destruct (Hnone i u Hu).
      * by eapply (ho_one w Hok).
    + intros i u [[-> ->]|[_ Hu]]%Hcases.
      * destruct Hkind as [[_ (n & j & x & Hx & Hs & Hc & _)]|[Hc _]].
        -- exists j, x. auto.
        -- exists (tv_version_id v), v. rewrite history_add, lookup_insert_eq. done.
      * destruct (ho_some w Hok i u Hu) as (j & x & Hx & Hs & Hc). exists j, x. auto.
    + intros i d c Hd Hc. destruct (ho_candidates w Hok i d c Hd Hc) as (x & Hx & Hs). exists x. auto.
    + intros i [[u Hu]|Hd]; [|apply (ho_issued w Hok); auto].
      apply Hcases in Hu as [[-> _]|[_ Hu]]; [done|]. apply (ho_issued w Hok). eauto.
    + apply (ho_sessions w Hok).
  - split.
    + intros i u Hu. exists u. split; [auto|apply same_content_refl].
    + intros sid n (i & u & Hu & Hs & Hc & Hn). exists n. split; [lia|]. exists i, u. auto.
    + intros i d Hd. exists d. done.
Qed.

(** ** A draft *)

Definition put_draft (d : TripDraft) (w : DraftWorld) : DraftWorld :=
  with_versions (set_draft_row (dr_draft_id d) (row_of_draft d)) w.

Lemma drafts_put d w : drafts (put_draft d w) = <[dr_draft_id d := d]> (drafts w).
Proof. apply drafts_of_set. Qed.

Definition backed (d : TripDraft) (w : DraftWorld) : Prop :=
  ∀ c, truthy (dr_candidate_version_id d) = Some c →
    ∃ v, history w !! c = Some v ∧ tv_session_id v = dr_session_id d ∧ dr_base_version d < tv_version_number v
         ∧ tv_trip_plan v = dr_trip_plan d.

(** A new draft, or the next state of a draft of the table. *)
Definition puttable (d : TripDraft) (w : DraftWorld) : Prop :=
  issued (dr_draft_id d) w ∧ backed d w
  ∧ ∀ old, drafts w !! dr_draft_id d = Some old →
      dr_session_id old = dr_session_id d ∧ dr_base_version old = dr_base_version d ∧ dr_created_at old = dr_created_at d.

Lemma put_draft_ok d w : history_ok w → puttable d w → history_ok (put_draft d w) ∧ grows w (put_draft d w).
Proof.
  intros Hok (Hissued & Hback & Hold).
  assert (Hcases : ∀ i e, drafts (put_draft d w) !! i = Some e →
            (i = dr_draft_id d ∧ e = d) ∨ (i ≠ dr_draft_id d ∧ drafts w !! i = Some e)).
  { intros i e. rewrite drafts_put, lookup_insert_Some. naive_solver. }
  split.
  - split; try apply Hok.
    + apply columns_ok_draft, Hok.
    + intros i e c [[-> ->]|[_ He]]%Hcases Hc; [by apply Hback|by eapply (ho_candidates w Hok)].
    + intros i [Hv|[e He]]; [apply (ho_issued w Hok); auto|].
      apply Hcases in He as [[-> _]|[_ He]]; [done|]. apply (ho_issued w Hok). eauto.
  - split.
    + intros i v Hv. exists v. split; [done|apply same_content_refl].
    + intros sid n Hn. exists n. split; [lia|done].
    + intros i e He. rewrite drafts_put. destruct (decide (i = dr_draft_id d)) as [->|Hne].
      * exists d. rewrite lookup_insert_eq. destruct (Hold e He) as (? & ? & _). done.
      * exists e. by rewrite lookup_insert_ne.
Qed.
(** ** New statuses *)

(** Only statuses and confirmations changed, and no session lost its confirmed version. *)
Lemma relabel_ok w w' :
  history_ok w → columns_ok (ad_versions (wo_db w')) → drafts w' = drafts w →
  ad_sessions (wo_db w') = ad_sessions (wo_db w) → wo_tick w' = wo_tick w →
  (∀ i v, history w !! i = Some v → ∃ v', history w' !! i = Some v' ∧ same_content v v') →
  (∀ i v', history w' !! i = Some v' → is_Some (history w !! i)) →
  at_most_one_confirmed (ad_versions (wo_db w')) →
  (∀ sid n, confirmed_number sid n w → ∃ n', n <= n' ∧ confirmed_number sid n' w') →
  history_ok w' ∧ grows w w'.
Proof.
  intros Hok Hc Hd Hs Ht Hto Hfrom Hone Hconf.
  assert (Hback : ∀ i v', history w' !! i = Some v' → ∃ v, history w !! i = Some v
            ∧ tv_session_id v' = tv_session_id v ∧ tv_version_number v' = tv_version_number v).
  { intros i v' Hv'. destruct (Hfrom i v' Hv') as [v Hv]. destruct (Hto i v Hv) as (v'' & Hv'' & Hsame).
    exists v. split; [done|]. apply same_content_fields in Hsame. naive_solver. }
  split; [split|split; [done|done|]].
  - done.
  - intros i j u v (u0 & Hu & Hsu & Hnu)%Hback (v0 & Hv & Hsv & Hnv)%Hback Hsid Hnum.
    apply (ho_numbers w Hok i j u0 v0); [done|done|congruence..].
  - intros i v (v0 & Hv & _ & ->)%Hback. by eapply (ho_positive w Hok).
  - done.
  - intros i v (v0 & Hv & -> & _)%Hback. destruct (ho_some w Hok i v0 Hv) as (j & u & Hu & Hsid & Hcu).
    destruct (Hconf (tv_session_id v0) (tv_version_number u)) as (n' & _ & (k & x & Hx & Hsx & Hcx & _)).
    { exists j, u. done. }
    exists k, x. done.
  - rewrite Hd. intros i d c Hdr Hcand. destruct (ho_candidates w Hok i d c Hdr Hcand) as (v & Hv & Hrest).
    destruct (Hto c v Hv) as (v' & Hv' & Hsame). exists v'. apply same_content_fields in Hsame as (_ & -> & -> & -> & _). done.
  - intros i [[v Hv]|Hdr].
    + unfold issued. rewrite Ht. apply (ho_issued w Hok). left. by eapply Hfrom.
    + rewrite Hd in Hdr. unfold issued. rewrite Ht. apply (ho_issued w Hok). by right.
  - rewrite Hs. apply (ho_sessions w Hok).
  - intros i d Hdr. rewrite Hd. eauto.
Qed.

Definition withdraw (i : string) (v : TripPlanVersion) (w : DraftWorld) : DraftWorld :=
  with_versions (set_version_row i (row_of_version (superseded v))) w.

Lemma history_withdraw i v w : history (withdraw i v w) = <[i := superseded v]> (history w).
Proof. apply versions_of_set. Qed.

Lemma withdraw_ok i v w :
  history_ok w → history w !! i = Some v → tv_status v = version_candidate →
  history_ok (withdraw i v w) ∧ grows w (withdraw i v w).
Proof.
  intros Hok Hv Hcand. assert (Hid : tv_version_id v = i) by (eapply version_id_of; [apply Hok|exact Hv]).
  assert (Hcases : ∀ j u, history (withdraw i v w) !! j = Some u →
            (j = i ∧ u = superseded v) ∨ (j ≠ i ∧ history w !! j = Some u)).
  { intros j u. rewrite history_withdraw, lookup_insert_Some. naive_solver. }
  apply relabel_ok; try done.
  - unfold withdraw, with_versions. cbn [wo_db ad_versions].
    replace i with (tv_version_id (superseded v)). apply columns_ok_version, Hok.
  - intros j u Hu. rewrite history_withdraw. destruct (decide (j = i)) as [->|Hne].
    + exists (superseded v). rewrite lookup_insert_eq. split; [done|]. by simplify_eq.
    + exists u. rewrite lookup_insert_ne by done. split; [done|apply same_content_refl].
  - intros j u [[-> _]|[_ Hu]]%Hcases; eauto.
  - intros j k u u' Hj Hk Hsid Hcu Hcu'.
    apply Hcases in Hj as [[_ ->]|[_ Hj]]; [done|]. apply Hcases in Hk as [[_ ->]|[_ Hk]]; [done|].
    by eapply (ho_one w Hok).
  - intros sid n (j & u & Hu & Hsu & Hcu & Hn). exists n. split; [lia|]. exists j, u.
    split; [|done]. rewrite history_withdraw, lookup_insert_ne; [done|congruence].
Qed.

Definition confirm (now : datetime) (v : TripPlanVersion) (w : DraftWorld) : DraftWorld :=
  with_versions (fun db => mkVersionDb (confirmed_table now v (vd_versions db)) (vd_drafts db)) w.

Definition withdrawn_version (sid : string) (v : TripPlanVersion) : TripPlanVersion :=
  if bool_decide (tv_session_id v = sid) && bool_decide (tv_status v = version_confirmed) then superseded v else v.

Lemma history_confirm now v w :
  history_ok w →
  history (confirm now v w) = <[tv_version_id v := confirmed_version now v]> (withdrawn_version (tv_session_id v) <$> history w).
Proof.
  intros Hok. unfold history, confirm, with_versions, versions_of, confirmed_table. cbn [wo_db ad_versions vd_versions].
  rewrite fmap_insert. cbn [vw_version_json row_of_version]. f_equal. apply map_eq. intros i.
  rewrite !lookup_fmap. destruct (_ !! i) as [r|] eqn:E; [|done]. cbn. f_equal.
  destruct (co_versions _ (ho_columns w Hok) i r E) as [He _]. unfold withdrawn_row, withdrawn_version.
  rewrite He. cbn. by destruct (_ && _).
Qed.

Lemma withdrawn_content sid v : same_content v (withdrawn_version sid v).
Proof. unfold withdrawn_version. destruct (_ && _); by destruct v. Qed.

Lemma withdrawn_session sid v : tv_session_id (withdrawn_version sid v) = tv_session_id v.
Proof. apply (same_content_fields v), withdrawn_content. Qed.

Lemma withdrawn_confirmed sid v :
  tv_status (withdrawn_version sid v) = version_confirmed ↔ tv_status v = version_confirmed ∧ tv_session_id v ≠ sid.
Proof.
  unfold withdrawn_version. rewrite <- bool_decide_and. case_bool_decide as Hs.
  - change (tv_status (superseded v)) with version_superseded. split; [done|]. intros [_ Hn]. by destruct Hs.
  - split; [|by intros [? _]]. intros Hc. split; [done|]. intros Hsid. by destruct Hs.
Qed.

Lemma confirm_ok now v w :
  history_ok w → history w !! tv_version_id v = Some v →
  (∀ n, confirmed_number (tv_session_id v) n w → n <= tv_version_number v) →
  history_ok (confirm now v w) ∧ grows w (confirm now v w)
  ∧ confirmed_number (tv_session_id v) (tv_version_number v) (confirm now v w).
Proof.
  intros Hok Hv Hmax. pose proof (history_confirm now v w Hok) as Hh.
  assert (Hcases : ∀ i u, history (confirm now v w) !! i = Some u →
            (i = tv_version_id v ∧ u = confirmed_version now v)
            ∨ (i ≠ tv_version_id v ∧ ∃ u0, history w !! i = Some u0 ∧ u = withdrawn_version (tv_session_id v) u0)).
  { intros i u. rewrite Hh, lookup_insert_Some, lookup_fmap, fmap_Some. naive_solver. }
  assert (Hnew : confirmed_number (tv_session_id v) (tv_version_number v) (confirm now v w)).
  { exists (tv_version_id v), (confirmed_version now v). rewrite Hh, lookup_insert_eq. done. }
  destruct (relabel_ok w (confirm now v w)) as [Hok' Hg]; try done.
  - split; [|apply (co_drafts _ (ho_columns w Hok))]. intros i r Hr. unfold confirm, with_versions, confirmed_table in Hr.
    cbn [wo_db ad_versions vd_versions] in Hr. apply lookup_insert_Some in Hr as [[<- <-]|[_ Hr]]; [done|].
    rewrite lookup_fmap in Hr. apply fmap_Some in Hr as (r0 & Hr0 & ->).
    destruct (co_versions _ (ho_columns w Hok) i r0 Hr0) as [He Hi].
    unfold withdrawn_row. by destruct (_ && _).
  - intros i u Hu. rewrite Hh. destruct (decide (i = tv_version_id v)) as [->|Hne].
    + exists (confirmed_version now v). rewrite lookup_insert_eq. split; [done|]. assert (u = v) as -> by congruence. by destruct v.
    + rewrite lookup_insert_ne, lookup_fmap, Hu by done. eexists. split; [done|apply withdrawn_content].
  - intros i u [[-> _]|[_ (u0 & Hu0 & _)]]%Hcases; eauto.
  - intros i j u u' Hi Hj Hsid Hcu Hcu'.
    pose proof (withdrawn_session (tv_session_id v)) as Hws.
    change (tv_session_id (confirmed_version now v)) with (tv_session_id v) in *.
    apply Hcases in Hi as [[-> ->]|[_ (u0 & Hu0 & ->)]]; apply Hcases in Hj as [[-> ->]|[_ (u1 & Hu1 & ->)]]; [done| | |].
    + apply withdrawn_confirmed in Hcu' as [_ Hne]. rewrite Hws in Hsid. by destruct Hne.
    + apply withdrawn_confirmed in Hcu as [_ Hne]. rewrite Hws in Hsid. by destruct Hne.
    + apply withdrawn_confirmed in Hcu as [Hcu _]. apply withdrawn_confirmed in Hcu' as [Hcu' _].
      rewrite !Hws in Hsid. by eapply (ho_one w Hok i j).
  - intros sid n Hn. destruct (decide (sid = tv_session_id v)) as [->|Hne].
    { exists (tv_version_number v). split; [by apply Hmax|done]. }
    destruct Hn as (i & u & Hu & Hsu & Hcu & Hnu). exists n. split; [lia|].
    exists i, (withdrawn_version (tv_session_id v) u). rewrite Hh.
    rewrite lookup_insert_ne, lookup_fmap, Hu by congruence. split; [done|].
    destruct (same_content_fields u _ (withdrawn_content (tv_session_id v) u)) as (_ & -> & -> & _).
    rewrite withdrawn_confirmed. repeat split; try done; congruence.
Qed.
End History.
