(* ===== verification/SharedGuides.v ===== *)
(** Published guides: the records, the index jobs and the tables of the sharing
    component (src/app/sharing/models.py, exceptions.py, and the columns of
    src/app/persistence/sqlalchemy_models.py).

    A row of [shared_guides] is the record it decodes to; decoding validates it
    ([record_from_row]).  The tables are keyed by their primary keys, the likes
    by their unique pair.  JSON columns decode to what was encoded. *)

From S2P Require Import Prelude PyData TripSchema.
From Stdlib Require Import ZArith QArith Lia String.
From stdpp Require Import base tactics option list gmap strings.

Open Scope string_scope.
Open Scope Z_scope.

(** ** Errors *)

Inductive share_error :=
| SharedGuideNotFoundError (share_id : string)
| SharedGuideConflictError (msg : string)
| SharedGuideForbiddenError (msg : string)
| SharedGuideUnavailableError (msg : string)
| InvalidShareCursorError (msg : string)
| ShareValueError (msg : string)
| ShareValidationError
| ShareIntegrityError
| MultipleRows.

#[export] Instance share_error_eq_dec : EqDecision share_error.
Proof. solve_decision. Defined.

(** ** Data *)

Inductive PublicationStatus := PUBLISHING | PUBLIC | UNPUBLISHED.
Inductive ShareIndexStatus := INDEX_PENDING | INDEX_READY | INDEX_FAILED | DELETE_PENDING | DELETED.
Inductive IndexOperation := UPSERT | DELETE.
Inductive IndexJobStatus := JOB_PENDING | JOB_RUNNING | JOB_SUCCEEDED | JOB_FAILED.

#[export] Instance PublicationStatus_eq_dec : EqDecision PublicationStatus.
Proof. solve_decision. Defined.
#[export] Instance ShareIndexStatus_eq_dec : EqDecision ShareIndexStatus.
Proof. solve_decision. Defined.
#[export] Instance IndexOperation_eq_dec : EqDecision IndexOperation.
Proof. solve_decision. Defined.
#[export] Instance IndexJobStatus_eq_dec : EqDecision IndexJobStatus.
Proof. solve_decision. Defined.

Record SharedTripRequestSnapshot := mkRequestSnapshot {
  rs_city : string; rs_travel_days : Z; rs_transportation : string; rs_accommodation : string;
  rs_preferences : list string
}.

Record SharedGuideSnapshot := mkGuideSnapshot {
  gs_request : SharedTripRequestSnapshot; gs_trip_plan : TripPlan
}.

Record SharePublishDraft := mkDraft {
  pd_author_user_id : string;
  pd_source_session_id : string;
  pd_source_version_id : string;
  pd_source_version_number : Z;
  pd_title : string;
  pd_city : string;
  pd_city_normalized : string;
  pd_travel_days : Z;
  pd_transportation : string;
  pd_accommodation : string;
  pd_preferences : list string;
  pd_snapshot : SharedGuideSnapshot;
  pd_retrieval_text : string;
  pd_content_hash : string;
  pd_quality_level : string;
  pd_quality_score : option Q;
  pd_embedding_model : string;
  pd_embedding_dimension : Z;
  pd_retrieval_template_version : string
}.

#[export] Instance RequestSnapshot_eq_dec : EqDecision SharedTripRequestSnapshot.
Proof. solve_decision. Defined.
#[export] Instance GuideSnapshot_eq_dec : EqDecision SharedGuideSnapshot.
Proof. solve_decision. Defined.
#[export] Instance SharePublishDraft_eq_dec : EqDecision SharePublishDraft.
Proof. solve_decision. Defined.

(** The fields a record has beside those of its draft. *)
Record SharedGuideRecord := mkRecord {
  sg_share_id : string;
  sg_draft : SharePublishDraft;
  sg_publication_status : PublicationStatus;
  sg_index_status : ShareIndexStatus;
  sg_index_version : Z;
  sg_like_count : Z;
  sg_last_index_error : option string;
  sg_indexed_at : option datetime;
  sg_published_at : option datetime;
  sg_created_at : datetime;
  sg_updated_at : datetime
}.

#[export] Instance record_rebuild : Rebuild SharedGuideRecord := fun r =>
  mkRecord (sg_share_id r) (sg_draft r) (sg_publication_status r) (sg_index_status r)
    (sg_index_version r) (sg_like_count r) (sg_last_index_error r) (sg_indexed_at r)
    (sg_published_at r) (sg_created_at r) (sg_updated_at r).

Record ShareIndexJob := mkJob {
  jb_job_id : string;
  jb_share_id : string;
  jb_operation : IndexOperation;
  jb_index_version : Z;
  jb_status : IndexJobStatus;
  jb_attempt_count : Z;
  jb_next_retry_at : option datetime;
  jb_lease_owner : option string;
  jb_lease_expires_at : option datetime;
  jb_last_error : option string;
  jb_created_at : datetime;
  jb_updated_at : datetime
}.

#[export] Instance job_rebuild : Rebuild ShareIndexJob := fun j =>
  mkJob (jb_job_id j) (jb_share_id j) (jb_operation j) (jb_index_version j) (jb_status j)
    (jb_attempt_count j) (jb_next_retry_at j) (jb_lease_owner j) (jb_lease_expires_at j)
    (jb_last_error j) (jb_created_at j) (jb_updated_at j).

#[export] Instance SharedGuideRecord_eq_dec : EqDecision SharedGuideRecord.
Proof. solve_decision. Defined.
#[export] Instance ShareIndexJob_eq_dec : EqDecision ShareIndexJob.
Proof. solve_decision. Defined.

Record ShareIndexIntent := mkIntent {
  in_record : SharedGuideRecord; in_job : option ShareIndexJob;
  in_created : bool; in_operation_required : bool
}.

Record LikeMutation := mkLike { lk_liked : bool; lk_like_count : Z }.

(** ** Validation *)

Definition text_between (least most : Z) (s : string) : bool :=
  (least <=? py_len s) && (py_len s <=? most).

Definition snapshot_ok (s : SharedTripRequestSnapshot) : bool :=
  (1 <=? rs_travel_days s) && (rs_travel_days s <=? 30).

Definition draft_ok (d : SharePublishDraft) : bool :=
  (1 <=? pd_source_version_number d) && text_between 1 200 (pd_title d)
  && (1 <=? pd_travel_days d) && (pd_travel_days d <=? 30)
  && snapshot_ok (gs_request (pd_snapshot d))
  && (1 <=? py_len (pd_retrieval_text d)) && text_between 64 64 (pd_content_hash d)
  && match pd_quality_score d with
     | Some q => Qle_bool 0 q && Qle_bool q 100
     | None => true
     end
  && text_between 1 128 (pd_embedding_model d) && (0 <? pd_embedding_dimension d)
  && text_between 1 64 (pd_retrieval_template_version d).

(** [validate_public_ready_timestamps] *)
Definition timestamps_ok (r : SharedGuideRecord) : bool :=
  implb (bool_decide (sg_index_status r = INDEX_READY)) (bool_decide (is_Some (sg_indexed_at r)))
  && implb (bool_decide (sg_publication_status r = PUBLIC))
       (bool_decide (sg_index_status r = INDEX_READY) && bool_decide (is_Some (sg_published_at r)))
  && match sg_indexed_at r, sg_published_at r with
     | Some indexed, Some published => published <=? indexed
     | _, _ => true
     end.

Definition record_ok (r : SharedGuideRecord) : bool :=
  draft_ok (sg_draft r) && (1 <=? sg_index_version r) && (0 <=? sg_like_count r) && timestamps_ok r.

Definition job_ok (j : ShareIndexJob) : bool :=
  (1 <=? jb_index_version j) && (0 <=? jb_attempt_count j)
  && match jb_lease_owner j with Some owner => py_len owner <=? 128 | None => true end.

Definition record_from_row (r : SharedGuideRecord) : result share_error SharedGuideRecord :=
  if record_ok r then Ok r else Err ShareValidationError.

Definition job_from_row (j : ShareIndexJob) : result share_error ShareIndexJob :=
  if job_ok j then Ok j else Err ShareValidationError.

(** ** Tables *)

Record ShareDb := mkShareDb {
  sd_shares : gmap string SharedGuideRecord;
  sd_jobs : gmap string ShareIndexJob;
  sd_likes : gmap (string * string) datetime
}.

#[export] Instance share_db_rebuild : Rebuild ShareDb := fun d =>
  mkShareDb (sd_shares d) (sd_jobs d) (sd_likes d).

Definition no_shares : ShareDb := mkShareDb ∅ ∅ ∅.

Definition share_rows (db : ShareDb) : list SharedGuideRecord := (map_to_list (sd_shares db)).*2.
Definition job_rows (db : ShareDb) : list ShareIndexJob := (map_to_list (sd_jobs db)).*2.

(** [UPDATE ... WHERE <primary key> AND P]: whether the row count is one, and the
    tables. *)
Definition update_share (share_id : string) (P : SharedGuideRecord → bool)
    (set : SharedGuideRecord → SharedGuideRecord) (db : ShareDb) : bool * ShareDb :=
  match sd_shares db !! share_id with
  | Some r =>
      if P r then (true, db <| sd_shares := <[share_id := set r]> (sd_shares db) |>) else (false, db)
  | None => (false, db)
  end.

Definition update_job (job_id : string) (P : ShareIndexJob → bool)
    (set : ShareIndexJob → ShareIndexJob) (db : ShareDb) : bool * ShareDb :=
  match sd_jobs db !! job_id with
  | Some j =>
      if P j then (true, db <| sd_jobs := <[job_id := set j]> (sd_jobs db) |>) else (false, db)
  | None => (false, db)
  end.

(** ** Reads *)

Definition select_share (share_id : string) (db : ShareDb) : option SharedGuideRecord :=
  sd_shares db !! share_id.

Definition select_owned (share_id author_user_id : string) (db : ShareDb) : option SharedGuideRecord :=
  r ← sd_shares db !! share_id;
  if String.eqb (pd_author_user_id (sg_draft r)) author_user_id then Some r else None.

(** [one_or_none()] *)
Definition one_or_none {A} (l : list A) : result share_error (option A) :=
  match l with [] => Ok None | [x] => Ok (Some x) | _ => Err MultipleRows end.

Definition of_author_session (author_user_id source_session_id : string) (r : SharedGuideRecord) : bool :=
  String.eqb (pd_author_user_id (sg_draft r)) author_user_id
  && String.eqb (pd_source_session_id (sg_draft r)) source_session_id.

Definition select_author_session (author_user_id source_session_id : string) (db : ShareDb)
    : result share_error (option SharedGuideRecord) :=
  one_or_none (filter (fun r => of_author_session author_user_id source_session_id r = true) (share_rows db)).

Definition of_version (share_id : string) (operation : IndexOperation) (index_version : Z)
    (j : ShareIndexJob) : bool :=
  String.eqb (jb_share_id j) share_id && bool_decide (jb_operation j = operation)
  && (jb_index_version j =? index_version).

Definition find_version_job (share_id : string) (operation : IndexOperation) (index_version : Z)
    (db : ShareDb) : result share_error (option ShareIndexJob) :=
  found ← one_or_none (filter (fun j => of_version share_id operation index_version j = true) (job_rows db));
  match found with
  | Some j => j ← job_from_row j; Ok (Some j)
  | None => Ok None
  end.

(** ** Guards on a row *)

Definition public_ready (r : SharedGuideRecord) : bool :=
  bool_decide (sg_publication_status r = PUBLIC) && bool_decide (sg_index_status r = INDEX_READY).

(** The states of a share an operation of its current version may end. *)
Definition operation_open (operation : IndexOperation) (r : SharedGuideRecord) : bool :=
  match operation with
  | UPSERT =>
      bool_decide (sg_publication_status r = PUBLISHING)
      && bool_decide (sg_index_status r ∈ [INDEX_PENDING; INDEX_FAILED])
  | DELETE =>
      bool_decide (sg_publication_status r = UNPUBLISHED)
      && bool_decide (sg_index_status r ∈ [DELETE_PENDING; INDEX_FAILED])
  end.

Definition lease_over (now : datetime) (j : ShareIndexJob) : bool :=
  match jb_lease_expires_at j with Some t => t <=? now | None => true end.

Definition retry_due (now : datetime) (j : ShareIndexJob) : bool :=
  match jb_next_retry_at j with Some t => t <=? now | None => true end.

Definition pending_due (now : datetime) (j : ShareIndexJob) : bool :=
  bool_decide (jb_status j = JOB_PENDING) && retry_due now j.

Definition expired_running (now : datetime) (j : ShareIndexJob) : bool :=
  bool_decide (jb_status j = JOB_RUNNING) && lease_over now j.

(** [_due_job_predicate] *)
Definition job_due (now : datetime) (j : ShareIndexJob) : bool := pending_due now j || expired_running now j.

(** [_lease_matches] *)
Definition lease_matches (worker_id : string) (now : datetime) (j : ShareIndexJob) : bool :=
  bool_decide (jb_status j = JOB_RUNNING) && bool_decide (jb_lease_owner j = Some worker_id)
  && match jb_lease_expires_at j with Some t => now <? t | None => false end.

(** [_is_active_upsert] *)
Definition is_active_upsert (share_id : string) (now : datetime) (j : ShareIndexJob) : bool :=
  String.eqb (jb_share_id j) share_id && bool_decide (jb_operation j = UPSERT)
  && bool_decide (jb_status j = JOB_RUNNING)
  && match jb_lease_expires_at j with Some t => now <? t | None => false end.

(** [_job_snapshot_predicate] *)
Definition same_job_snapshot (row j : ShareIndexJob) : bool :=
  String.eqb (jb_job_id j) (jb_job_id row) && String.eqb (jb_share_id j) (jb_share_id row)
  && bool_decide (jb_operation j = jb_operation row) && (jb_index_version j =? jb_index_version row)
  && bool_decide (jb_status j = jb_status row) && bool_decide (jb_lease_owner j = jb_lease_owner row)
  && bool_decide (jb_lease_expires_at j = jb_lease_expires_at row).

(** [_job_effect_is_obsolete] *)
Definition job_effect_is_obsolete (r : SharedGuideRecord) (j : ShareIndexJob) : bool :=
  if jb_index_version j <? sg_index_version r then true
  else if sg_index_version r <? jb_index_version j then false
  else match jb_operation j with
       | UPSERT => bool_decide (sg_publication_status r = UNPUBLISHED) || public_ready r
       | DELETE =>
           bool_decide (sg_publication_status r = PUBLIC)
           || (bool_decide (sg_publication_status r = UNPUBLISHED) && bool_decide (sg_index_status r = DELETED))
       end.

(** [_job_obsolete_predicate] *)
Definition job_obsolete_predicate (share : SharedGuideRecord) (row j : ShareIndexJob) : bool :=
  (jb_index_version j <? sg_index_version share)
  || ((sg_index_version share =? jb_index_version row) && job_effect_is_obsolete share row
      && (jb_index_version j =? sg_index_version share)).

(** The columns of a job that leaves its lease. *)
Definition close_job (status : IndexJobStatus) (retry : option datetime) (now : datetime)
    (j : ShareIndexJob) : ShareIndexJob :=
  mkJob (jb_job_id j) (jb_share_id j) (jb_operation j) (jb_index_version j) status (jb_attempt_count j)
    retry None None (jb_last_error j) (jb_created_at j) now.

(** The columns of a job that a worker takes. *)
Definition lease_job (worker_id : string) (until now : datetime) (j : ShareIndexJob) : ShareIndexJob :=
  mkJob (jb_job_id j) (jb_share_id j) (jb_operation j) (jb_index_version j) JOB_RUNNING
    (jb_attempt_count j + 1) None (Some worker_id) (Some until) (jb_last_error j) (jb_created_at j) now.

Definition with_error (e : option string) (j : ShareIndexJob) : ShareIndexJob := j <| jb_last_error := e |>.

(** The status columns of a guide. *)
Definition set_status (publication : PublicationStatus) (index : ShareIndexStatus) (error : option string)
    (indexed_at : option datetime) (now : datetime) (r : SharedGuideRecord) : SharedGuideRecord :=
  mkRecord (sg_share_id r) (sg_draft r) publication index (sg_index_version r) (sg_like_count r) error
    indexed_at (sg_published_at r) (sg_created_at r) now.
