(* ===== verification/SharedStore.v ===== *)
(** [MySQLSharedGuideStore] (src/app/sharing/mysql_store.py).

    A method is a function of the tables; [now] is the instant its caller read
    and the results of [uuid4()] are arguments.  A body that raises is rolled
    back ([commit_or_rollback]).  The rows a method changes are locked by its
    [SELECT ... FOR UPDATE], so a method is one atomic step and the row counts
    of its conditional updates are those of the rows it has just read; in
    particular the retry loop of [_supersede_old_upserts] ends in its first
    round.  [known_user] says which rows of [users] the foreign keys find;
    [locked] which
    shares and jobs other transactions hold when [claim_next_index_job]
    skips them.  The branch of that method for SQLite, which only the tests
    use, takes no locks and is left out. *)

From S2P Require Import Prelude PyData TripSchema SharedGuides.
From Stdlib Require Import ZArith QArith Lia String.
From stdpp Require Import base tactics option list gmap strings.

Open Scope string_scope.
Open Scope Z_scope.

Definition INDEX_RECONCILIATION_ERROR : string := "IndexReconciliationRequired".

Section Store.
Context (known_user : string → bool).

(** ** Inserts and their constraints *)

Definition insert_job (job_id share_id : string) (operation : IndexOperation) (index_version : Z)
    (now : datetime) (db : ShareDb) : result share_error (ShareIndexJob * ShareDb) :=
  let j := mkJob job_id share_id operation index_version JOB_PENDING 0 None None None None now now in
  if negb (job_ok j) then Err ShareValidationError
  else if bool_decide (is_Some (sd_jobs db !! job_id))
          || existsb (of_version share_id operation index_version) (job_rows db)
          || negb (bool_decide (is_Some (sd_shares db !! share_id)))
  then Err ShareIntegrityError
  else Ok (j, db <| sd_jobs := <[job_id := j]> (sd_jobs db) |>).

Definition insert_share (r : SharedGuideRecord) (db : ShareDb) : result share_error ShareDb :=
  if bool_decide (is_Some (sd_shares db !! sg_share_id r))
     || existsb (of_author_session (pd_author_user_id (sg_draft r)) (pd_source_session_id (sg_draft r)))
          (share_rows db)
     || negb (known_user (pd_author_user_id (sg_draft r)))
  then Err ShareIntegrityError
  else Ok (db <| sd_shares := <[sg_share_id r := r]> (sd_shares db) |>).

(** ** Staging *)

(** The upserts that a new version ends: those that wait and those whose lease
    is over. *)
Definition old_upsert (share_id : string) (now : datetime) (j : ShareIndexJob) : bool :=
  String.eqb (jb_share_id j) share_id && bool_decide (jb_operation j = UPSERT)
  && (bool_decide (jb_status j = JOB_PENDING) || expired_running now j).

Definition supersede_old_upserts (share_id : string) (now : datetime) (reject_active : bool)
    (db : ShareDb) : result share_error ShareDb :=
  if reject_active && existsb (is_active_upsert share_id now) (job_rows db)
  then Err (SharedGuideConflictError "分享索引任务仍由有效租约处理")
  else Ok (db <| sd_jobs :=
             (fun j => if old_upsert share_id now j then close_job JOB_SUCCEEDED None now j else j)
             <$> sd_jobs db |>).

(** The version, hash and timestamps a caller has seen. *)
Definition ShareIdentity : Type := Z * string * datetime * datetime.

Definition matches_identity (i : ShareIdentity) (r : SharedGuideRecord) : bool :=
  let '(version, hash, published, indexed) := i in
  (sg_index_version r =? version) && String.eqb (pd_content_hash (sg_draft r)) hash && public_ready r
  && bool_decide (sg_published_at r = Some published) && bool_decide (sg_indexed_at r = Some indexed).

Definition staged (draft : SharePublishDraft) (index_version : Z) (now : datetime)
    (r : SharedGuideRecord) : SharedGuideRecord :=
  mkRecord (sg_share_id r) draft PUBLISHING INDEX_PENDING index_version (sg_like_count r) None None
    (Some now) (sg_created_at r) now.

Definition same_share_state (row r : SharedGuideRecord) : bool :=
  (sg_index_version r =? sg_index_version row)
  && bool_decide (sg_publication_status r = sg_publication_status row)
  && bool_decide (sg_index_status r = sg_index_status row).

Definition stage_new_upsert (row : SharedGuideRecord) (draft : SharePublishDraft) (now : datetime)
    (reject_active : bool) (expected_identity : option ShareIdentity) (new_job_id : string)
    (db : ShareDb) : result share_error (ShareIndexIntent * ShareDb) :=
  let share_id := sg_share_id row in
  db ← supersede_old_upserts share_id now reject_active db;
  let index_version := sg_index_version row + 1 in
  let predicate r :=
    same_share_state row r
    && match expected_identity with Some i => matches_identity i r | None => true end in
  match update_share share_id predicate (staged draft index_version now) db with
  | (false, _) => Err (SharedGuideConflictError "分享状态已并发变更")
  | (true, db) =>
      '(job, db) ← insert_job new_job_id share_id UPSERT index_version now db;
      record ← record_from_row (staged draft index_version now row);
      Ok (mkIntent record (Some job) false true, db)
  end.

(** Whether a retried publication still has its job to do. *)
Definition operation_required (job : option ShareIndexJob) : bool :=
  match job with
  | Some j => bool_decide (jb_status j ∈ [JOB_PENDING; JOB_RUNNING])
  | None => false
  end.

Definition new_record (share_id : string) (draft : SharePublishDraft) (now : datetime) : SharedGuideRecord :=
  mkRecord share_id draft PUBLISHING INDEX_PENDING 1 0 None None (Some now) now now.

Definition create_share (draft : SharePublishDraft) (now : datetime) (new_share_id new_job_id : string)
    (db : ShareDb) : result share_error (ShareIndexIntent * ShareDb) :=
  let author := pd_author_user_id draft in
  existing ← select_author_session author (pd_source_session_id draft) db;
  match existing with
  | Some row =>
      record ← record_from_row row;
      if bool_decide (sg_publication_status record = UNPUBLISHED)
      then stage_new_upsert row draft now true None new_job_id db
      else if negb (String.eqb (pd_content_hash (sg_draft record)) (pd_content_hash draft))
      then Err (SharedGuideConflictError "当前会话已有活动分享；内容变更必须使用显式更新")
      else if public_ready record then Ok (mkIntent record None false false, db)
      else
        job ← find_version_job (sg_share_id record) UPSERT (sg_index_version record) db;
        Ok (mkIntent record job false (operation_required job), db)
  | None =>
      let r := new_record new_share_id draft now in
      db ← insert_share r db;
      '(job, db) ← insert_job new_job_id new_share_id UPSERT 1 now db;
      record ← record_from_row r;
      Ok (mkIntent record (Some job) true true, db)
  end.

(** The transaction, and what follows its [IntegrityError]. *)
Definition create_publish_intent (draft : SharePublishDraft) (now : datetime)
    (new_share_id new_job_id : string) (db : ShareDb) : result share_error (ShareIndexIntent * ShareDb) :=
  match create_share draft now new_share_id new_job_id db with
  | Err ShareIntegrityError =>
      existing ← select_author_session (pd_author_user_id draft) (pd_source_session_id draft) db;
      match existing with
      | Some row =>
          record ← record_from_row row;
          if String.eqb (pd_content_hash (sg_draft record)) (pd_content_hash draft) then
            job ← find_version_job (sg_share_id record) UPSERT (sg_index_version record) db;
            Ok (mkIntent record job false (operation_required job), db)
          else Err (SharedGuideConflictError "当前会话已有不同内容的活动分享")
      | None => Err (SharedGuideConflictError "当前会话已有不同内容的活动分享")
      end
  | outcome => outcome
  end.

(** [_validate_expected_share_identity]: all four values or none. *)
Definition validate_expected (row : SharedGuideRecord) (version : option Z) (hash : option string)
    (published indexed : option datetime) : result share_error (option ShareIdentity) :=
  match version, hash, published, indexed with
  | None, None, None, None => Ok None
  | Some v, Some h, Some p, Some i =>
      if matches_identity (v, h, p, i) row then Ok (Some (v, h, p, i))
      else Err (SharedGuideConflictError "分享内容已并发变更")
  | _, _, _, _ =>
      Err (ShareValueError "expected share identity requires version, hash, and both timestamps")
  end.

Definition stage_update (share_id author_user_id : string) (draft : SharePublishDraft) (now : datetime)
    (allow_active_upsert_supersede : bool) (version : option Z) (hash : option string)
    (published indexed : option datetime) (new_job_id : string) (db : ShareDb)
    : result share_error (ShareIndexIntent * ShareDb) :=
  if negb (String.eqb (pd_author_user_id draft) author_user_id)
  then Err (SharedGuideConflictError "更新草稿的作者与分享作者不一致")
  else
    match select_owned share_id author_user_id db with
    | None => Err (SharedGuideNotFoundError share_id)
    | Some row =>
        expected ← validate_expected row version hash published indexed;
        if negb (String.eqb (pd_source_session_id (sg_draft row)) (pd_source_session_id draft))
        then Err (SharedGuideConflictError "更新草稿必须来自同一旅行会话")
        else if bool_decide (sg_publication_status row = UNPUBLISHED)
        then Err (SharedGuideConflictError "已取消公开的分享必须通过会话重新发布")
        else stage_new_upsert row draft now (negb allow_active_upsert_supersede) expected new_job_id db
    end.

Definition withdrawn (now : datetime) (r : SharedGuideRecord) : SharedGuideRecord :=
  set_status UNPUBLISHED DELETE_PENDING None (sg_indexed_at r) now r.

Definition stage_unpublish (share_id author_user_id : string) (now : datetime) (new_job_id : string)
    (db : ShareDb) : result share_error (ShareIndexIntent * ShareDb) :=
  match select_owned share_id author_user_id db with
  | None => Err (SharedGuideNotFoundError share_id)
  | Some row =>
      record ← record_from_row row;
      if bool_decide (sg_publication_status record = UNPUBLISHED)
      then Ok (mkIntent record None false false, db)
      else
        db ← supersede_old_upserts share_id now false db;
        match update_share share_id (same_share_state record) (withdrawn now) db with
        | (false, _) => Err (SharedGuideConflictError "分享状态已并发变更")
        | (true, db) =>
            '(job, db) ← insert_job new_job_id share_id DELETE (sg_index_version record) now db;
            record ← record_from_row (withdrawn now row);
            Ok (mkIntent record (Some job) false true, db)
        end
  end.

(** ** Claims *)

Definition check_claim (worker_id : string) (lease_seconds : Q) : result share_error string :=
  let worker_id := py_strip worker_id in
  if (py_len worker_id <? 1) || (128 <? py_len worker_id)
  then Err (ShareValueError "worker_id must contain 1 to 128 characters")
  else if Qle_bool lease_seconds 0 then Err (ShareValueError "lease_seconds must be positive")
  else Ok worker_id.

Definition claim_index_job (job_id worker_id : string) (now : datetime) (lease_seconds : Q)
    (db : ShareDb) : result share_error (option ShareIndexJob * ShareDb) :=
  worker_id ← check_claim worker_id lease_seconds;
  match sd_jobs db !! job_id with
  | None => Ok (None, db)
  | Some row =>
      job ← job_from_row row;
      if negb (job_due now job) then Ok (None, db)
      else
        let until := now + timedelta_seconds lease_seconds in
        match update_job job_id (job_due now) (lease_job worker_id until now) db with
        | (false, db) => Ok (None, db)
        | (true, db) => claimed ← job_from_row (lease_job worker_id until now row); Ok (Some claimed, db)
        end
  end.

(** [_claim_candidate_predicate] *)
Definition claim_candidate (now : datetime) (max_attempts : Z) (j : ShareIndexJob) : bool :=
  (pending_due now j && (jb_attempt_count j <? max_attempts)) || expired_running now j.

(** [ORDER BY created_at, job_id LIMIT 1] *)
Definition older_job (x y : ShareIndexJob) : bool :=
  lexZ (jb_created_at x) (jb_created_at y) (String.leb (jb_job_id x) (jb_job_id y)).

Definition oldest_claim_candidate (now : datetime) (max_attempts : Z) (excluded : list string)
    (db : ShareDb) : option ShareIndexJob :=
  head (py_sorted older_job
    (filter (fun j => claim_candidate now max_attempts j && negb (bool_decide (jb_job_id j ∈ excluded)) = true)
       (job_rows db))).

Definition expired_share (now : datetime) (r : SharedGuideRecord) : SharedGuideRecord :=
  set_status (sg_publication_status r) INDEX_FAILED (Some "IndexLeaseExpired") (sg_indexed_at r) now r.

Definition expired_job (now : datetime) (j : ShareIndexJob) : ShareIndexJob :=
  with_error (Some "IndexLeaseExpired") (close_job JOB_FAILED None now j).

Definition terminalize_expired_claim (row : ShareIndexJob) (now : datetime) (db : ShareDb) : bool * ShareDb :=
  let '(_, db) :=
    update_share (jb_share_id row)
      (fun r => (sg_index_version r =? jb_index_version row) && operation_open (jb_operation row) r)
      (expired_share now) db in
  update_job (jb_job_id row)
    (fun j => same_job_snapshot row j && expired_running now j && (jb_attempt_count j =? jb_attempt_count row))
    (expired_job now) db.

(** One round of the loop: a job, nothing left, or another round. *)
Inductive ClaimRound :=
| Claimed (job : ShareIndexJob)
| NothingDue
| NextRound (skipped : list string).

Definition claim_round (worker_id : string) (now : datetime) (lease_seconds : Q) (max_attempts : Z)
    (locked : string → bool) (skipped : list string) (db : ShareDb)
    : result share_error (ClaimRound * ShareDb) :=
  match oldest_claim_candidate now max_attempts skipped db with
  | None => Ok (NothingDue, db)
  | Some candidate =>
      let skip := Ok (NextRound (jb_job_id candidate :: skipped), db) in
      if negb (bool_decide (is_Some (sd_shares db !! jb_share_id candidate)))
         || locked (jb_share_id candidate) then skip
      else
        match sd_jobs db !! jb_job_id candidate with
        | None => skip
        | Some row =>
            if locked (jb_job_id row) || negb (claim_candidate now max_attempts row) then skip
            else if bool_decide (jb_status row = JOB_RUNNING) && (max_attempts <=? jb_attempt_count row) then
              match terminalize_expired_claim row now db with
              | (true, db) => Ok (NextRound skipped, db)
              | (false, db) => Ok (NextRound (jb_job_id candidate :: skipped), db)
              end
            else if max_attempts <=? jb_attempt_count row then skip
            else
              let until := now + timedelta_seconds lease_seconds in
              match update_job (jb_job_id row)
                      (fun j => same_job_snapshot row j && job_due now j && (jb_attempt_count j <? max_attempts))
                      (lease_job worker_id until now) db with
              | (false, db) => Ok (NextRound skipped, db)
              | (true, db) => job ← job_from_row (lease_job worker_id until now row); Ok (Claimed job, db)
              end
        end
  end.

(** The loop, with fuel; [None] is out of fuel.  Every round is a transaction of
    its own. *)
Fixpoint claim_loop (fuel : nat) (worker_id : string) (now : datetime) (lease_seconds : Q) (max_attempts : Z)
    (locked : string → bool) (skipped : list string) (db : ShareDb)
    : option (result share_error (option ShareIndexJob) * ShareDb) :=
  match fuel with
  | O => None
  | S fuel =>
      match claim_round worker_id now lease_seconds max_attempts locked skipped db with
      | Err e => Some (Err e, db)
      | Ok (Claimed job, db) => Some (Ok (Some job), db)
      | Ok (NothingDue, db) => Some (Ok None, db)
      | Ok (NextRound skipped, db) =>
          claim_loop fuel worker_id now lease_seconds max_attempts locked skipped db
      end
  end.

(** One round per job of the table, and one more, is always enough. *)
Definition claim_fuel (db : ShareDb) : nat := S (size (sd_jobs db)).

Definition claim_next_index_job (worker_id : string) (now : datetime) (lease_seconds : Q)
    (max_attempts : Z) (locked : string → bool) (db : ShareDb)
    : option (result share_error (option ShareIndexJob) * ShareDb) :=
  match check_claim worker_id lease_seconds with
  | Err e => Some (Err e, db)
  | Ok worker_id =>
      if max_attempts <=? 0 then Some (Err (ShareValueError "max_attempts must be positive"), db)
      else claim_loop (claim_fuel db) worker_id now lease_seconds max_attempts locked [] db
  end.

(** ** Ends of an operation *)

(** The job an operation of a worker is about, while its lease holds. *)
Definition leased_job (job_id share_id : string) (index_version : Z) (operation : IndexOperation)
    (worker_id : string) (now : datetime) (db : ShareDb) : option ShareIndexJob :=
  j ← sd_jobs db !! job_id;
  if of_version share_id operation index_version j && lease_matches worker_id now j then Some j else None.

Definition completed (operation : IndexOperation) (now : datetime) (r : SharedGuideRecord) : SharedGuideRecord :=
  match operation with
  | UPSERT => set_status PUBLIC INDEX_READY None (Some now) now r
  | DELETE => set_status UNPUBLISHED DELETED None (sg_indexed_at r) now r
  end.

(** The two conditional updates of an operation's end; both or none. *)
Definition end_operation (job_id share_id : string) (index_version : Z) (operation : IndexOperation)
    (worker_id : string) (now : datetime) (set_share : SharedGuideRecord → SharedGuideRecord)
    (set_job : ShareIndexJob → ShareIndexJob) (db : ShareDb) : bool * ShareDb :=
  match select_share share_id db with
  | None => (false, db)
  | Some share =>
      if negb (sg_index_version share =? index_version) then (false, db)
      else
        match leased_job job_id share_id index_version operation worker_id now db with
        | None => (false, db)
        | Some _ =>
            match update_share share_id
                    (fun r => (sg_index_version r =? index_version) && operation_open operation r)
                    set_share db with
            | (false, _) => (false, db)
            | (true, db1) =>
                match update_job job_id
                        (fun j => of_version share_id operation index_version j
                                  && lease_matches worker_id now j) set_job db1 with
                | (false, _) => (false, db)
                | (true, db2) => (true, db2)
                end
            end
        end
  end.

Definition complete_index_operation (job_id share_id : string) (index_version : Z)
    (operation : IndexOperation) (worker_id : string) (now : datetime) (db : ShareDb) : bool * ShareDb :=
  end_operation job_id share_id index_version operation worker_id now (completed operation now)
    (fun j => with_error None (close_job JOB_SUCCEEDED None now j)) db.

(** [_sanitize_error]: the name of an exception's class, or a text. *)
Definition sanitize_error (error_class : option string) : string :=
  py_take 1000 (default "IndexError" error_class).

Definition failed_job (sanitized : string) (next_retry_at : option datetime) (terminal : bool)
    (now : datetime) (j : ShareIndexJob) : ShareIndexJob :=
  with_error (Some sanitized)
    (if terminal then close_job JOB_FAILED None now j else close_job JOB_PENDING next_retry_at now j).

Definition failed_share (operation : IndexOperation) (sanitized : string) (terminal : bool) (now : datetime)
    (r : SharedGuideRecord) : SharedGuideRecord :=
  set_status (sg_publication_status r)
    match operation with
    | UPSERT => INDEX_FAILED
    | DELETE => if terminal then INDEX_FAILED else DELETE_PENDING
    end (Some sanitized) (sg_indexed_at r) now r.

Definition check_failure (next_retry_at : option datetime) (terminal : bool) : result share_error unit :=
  if negb terminal && negb (bool_decide (is_Some next_retry_at))
  then Err (ShareValueError "retryable failures require next_retry_at") else Ok tt.

Definition record_index_failure (job_id share_id : string) (index_version : Z) (operation : IndexOperation)
    (error : option string) (worker_id : string) (next_retry_at : option datetime) (terminal : bool)
    (now : datetime) (db : ShareDb) : result share_error (bool * ShareDb) :=
  _ ← check_failure next_retry_at terminal;
  let sanitized := sanitize_error error in
  Ok (end_operation job_id share_id index_version operation worker_id now
        (failed_share operation sanitized terminal now)
        (failed_job sanitized next_retry_at terminal now) db).

Definition record_index_job_failure (job_id share_id : string) (index_version : Z)
    (operation : IndexOperation) (error : option string) (worker_id : string)
    (next_retry_at : option datetime) (terminal : bool) (now : datetime) (db : ShareDb)
    : result share_error (bool * ShareDb) :=
  _ ← check_failure next_retry_at terminal;
  let sanitized := sanitize_error error in
  match select_share share_id db with
  | None => Ok (false, db)
  | Some _ =>
      match leased_job job_id share_id index_version operation worker_id now db with
      | None => Ok (false, db)
      | Some row =>
          match update_job job_id (fun j => same_job_snapshot row j && lease_matches worker_id now j)
                  (failed_job sanitized next_retry_at terminal now) db with
          | (true, db) => Ok (true, db)
          | (false, _) => Ok (false, db)
          end
      end
  end.

Definition supersede_allowed (worker_id : option string) (now : datetime) (j : ShareIndexJob) : bool :=
  match worker_id with
  | None => bool_decide (jb_status j = JOB_PENDING) || expired_running now j
  | Some worker_id => lease_matches worker_id now j
  end.

Definition supersede_index_job (job_id : string) (worker_id : option string) (now : datetime)
    (db : ShareDb) : bool * ShareDb :=
  match sd_jobs db !! job_id with
  | None => (false, db)
  | Some row =>
      match sd_shares db !! jb_share_id row with
      | None => (false, db)
      | Some share =>
          if negb (supersede_allowed worker_id now row) then (false, db)
          else if negb (job_effect_is_obsolete share row) then (false, db)
          else
            update_job job_id
              (fun j => same_job_snapshot row j && supersede_allowed worker_id now j
                        && job_obsolete_predicate share row j)
              (close_job JOB_SUCCEEDED None now) db
      end
  end.

Definition requeued_share (now : datetime) (r : SharedGuideRecord) : SharedGuideRecord :=
  set_status PUBLISHING INDEX_PENDING (Some INDEX_RECONCILIATION_ERROR) None now r.

Definition requeued_job (now : datetime) (j : ShareIndexJob) : ShareIndexJob :=
  mkJob (jb_job_id j) (jb_share_id j) (jb_operation j) (jb_index_version j) JOB_PENDING 0
    None None None (Some INDEX_RECONCILIATION_ERROR) (jb_created_at j) now.

(** Hides a ready version and gives its finished upsert another chance. *)
Definition requeue_current_upsert (share_id : string) (index_version : Z) (content_hash : string)
    (now : datetime) (db : ShareDb) : result share_error (bool * ShareDb) :=
  let current r :=
    (sg_index_version r =? index_version) && String.eqb (pd_content_hash (sg_draft r)) content_hash
    && public_ready r in
  let finished j := of_version share_id UPSERT index_version j && bool_decide (jb_status j = JOB_SUCCEEDED) in
  match select_share share_id db with
  | None => Ok (false, db)
  | Some share =>
      if negb (current share) then Ok (false, db)
      else
        found ← one_or_none (filter (fun j => finished j = true) (job_rows db));
        match found with
        | None => Ok (false, db)
        | Some row =>
            match update_share share_id current (requeued_share now) db with
            | (false, _) => Ok (false, db)
            | (true, db1) =>
                match update_job (jb_job_id row) finished (requeued_job now) db1 with
                | (false, _) => Ok (false, db)
                | (true, db2) => Ok (true, db2)
                end
            end
        end
  end.

(** ** Likes *)

Definition require_public_ready (share_id : string) (db : ShareDb) : result share_error SharedGuideRecord :=
  match select_share share_id db with
  | Some r => if public_ready r then Ok r else Err (SharedGuideNotFoundError share_id)
  | None => Err (SharedGuideNotFoundError share_id)
  end.

Definition like_count_of (share_id : string) (db : ShareDb) : Z :=
  match sd_shares db !! share_id with Some r => sg_like_count r | None => 0 end.

Definition set_like_count (f : Z → Z) (share_id : string) (db : ShareDb) : ShareDb :=
  (update_share share_id (fun _ => true) (fun r => r <| sg_like_count := f (sg_like_count r) |>) db).2.

(** [INSERT IGNORE]: a pair that is there, or a user who is not, inserts nothing. *)
Definition put_like (share_id user_id : string) (now : datetime) (db : ShareDb)
    : result share_error (LikeMutation * ShareDb) :=
  share ← require_public_ready share_id db;
  if String.eqb (pd_author_user_id (sg_draft share)) user_id
  then Err (SharedGuideForbiddenError "作者不能点赞自己的分享")
  else
    let db :=
      if bool_decide (is_Some (sd_likes db !! (share_id, user_id))) || negb (known_user user_id) then db
      else set_like_count (fun n => n + 1) share_id
             (db <| sd_likes := <[(share_id, user_id) := now]> (sd_likes db) |>) in
    Ok (mkLike true (like_count_of share_id db), db).

Definition delete_like (share_id user_id : string) (db : ShareDb) : result share_error (LikeMutation * ShareDb) :=
  share ← require_public_ready share_id db;
  if String.eqb (pd_author_user_id (sg_draft share)) user_id
  then Err (SharedGuideForbiddenError "作者不能取消自己分享的点赞")
  else
    let db :=
      if bool_decide (is_Some (sd_likes db !! (share_id, user_id)))
      then set_like_count (fun n => if 0 <? n then n - 1 else 0) share_id
             (db <| sd_likes := delete (share_id, user_id) (sd_likes db) |>)
      else db in
    Ok (mkLike false (like_count_of share_id db), db).

(** ** Reads *)

Definition get_owned (share_id author_user_id : string) (db : ShareDb) : result share_error SharedGuideRecord :=
  match select_owned share_id author_user_id db with
  | Some row => record_from_row row
  | None => Err (SharedGuideNotFoundError share_id)
  end.

Definition get_index_record (share_id : string) (db : ShareDb) : result share_error (option SharedGuideRecord) :=
  match sd_shares db !! share_id with
  | Some row => r ← record_from_row row; Ok (Some r)
  | None => Ok None
  end.

Definition get_for_author_session (author_user_id source_session_id : string) (db : ShareDb)
    : result share_error (option SharedGuideRecord) :=
  found ← select_author_session author_user_id source_session_id db;
  match found with
  | Some row => r ← record_from_row row; Ok (Some r)
  | None => Ok None
  end.

(** Share, version and content hash, as the vector index knows a guide. *)
Definition IndexedIdentity : Type := string * Z * string.

Definition identity_of (r : SharedGuideRecord) : IndexedIdentity :=
  (sg_share_id r, sg_index_version r, pd_content_hash (sg_draft r)).

Definition bulk_get_ready (identities : list IndexedIdentity) (exclude_session_id : option string)
    (db : ShareDb) : result share_error (list SharedGuideRecord) :=
  match identities with
  | [] => Ok []
  | _ =>
      records ← mapM record_from_row
        (filter (fun r => public_ready r && bool_decide (identity_of r ∈ identities)
                          && match exclude_session_id with
                             | Some session => negb (String.eqb (pd_source_session_id (sg_draft r)) session)
                             | None => true
                             end = true) (share_rows db));
      let by_key : list (IndexedIdentity * SharedGuideRecord) := map (fun r => (identity_of r, r)) records in
      Ok (omap (fun key => snd <$> (list_find (fun e => e.1 = key) by_key ≫= fun p => Some p.2)) identities)
  end.

(** ** The backlog *)

Record ShareIndexBacklog := mkBacklog {
  bl_pending_count : Z; bl_running_count : Z; bl_failed_count : Z; bl_due_count : Z;
  bl_oldest_due_at : option datetime
}.

Definition due_at (now : datetime) (j : ShareIndexJob) : option datetime :=
  if pending_due now j then Some (default (jb_created_at j) (jb_next_retry_at j))
  else if expired_running now j then Some (default (jb_created_at j) (jb_lease_expires_at j))
  else None.

Definition count_status (s : IndexJobStatus) (l : list ShareIndexJob) : Z :=
  Z.of_nat (length (filter (fun j => jb_status j = s) l)).

Definition count_index_backlog (now : datetime) (db : ShareDb) : ShareIndexBacklog :=
  let l := job_rows db in
  mkBacklog (count_status JOB_PENDING l) (count_status JOB_RUNNING l) (count_status JOB_FAILED l)
    (Z.of_nat (length (filter (fun j => job_due now j = true) l)))
    (order_limit1 id (omap (due_at now) l)).
End Store.
