(* ===== verification/SharedLifecycle.v ===== *)
(** The abstract specification of the sharing tables: what one operation may do
    to a guide and its index jobs ([share_step]) and the invariant of the tables
    ([shares_wf]).

    A guide is published (PUBLISHING until its vector is indexed, then PUBLIC) or
    withdrawn (UNPUBLISHED); every version of it has one UPSERT job, a
    withdrawal one DELETE job. *)

From S2P Require Import Prelude PyData TripSchema SharedGuides SharedStore.
From Stdlib Require Import ZArith QArith Lia String.
From stdpp Require Import base tactics option list gmap strings.

Open Scope string_scope.
Open Scope Z_scope.

(** ** Steps *)

(** What may happen to a job whose guide stays as it is. *)
Inductive job_move (now : datetime) (share : SharedGuideRecord) (actor : option string)
    : ShareIndexJob → ShareIndexJob → Prop :=
| jm_claim j worker until :
    actor = Some worker → py_len worker <= 128 → job_due now j = true →
    job_move now share actor j (lease_job worker until now j)
| jm_fail j worker sanitized retry terminal :
    actor = Some worker → lease_matches worker now j = true →
    job_move now share actor j (failed_job sanitized retry terminal now j)
| jm_supersede j :
    (jb_status j = JOB_PENDING ∨ jb_status j = JOB_RUNNING) →
    job_effect_is_obsolete share j = true →
    job_move now share actor j (close_job JOB_SUCCEEDED None now j).

Definition superseded (share_id : string) (now : datetime) (jobs : gmap string ShareIndexJob)
    : gmap string ShareIndexJob :=
  (fun j => if old_upsert share_id now j then close_job JOB_SUCCEEDED None now j else j) <$> jobs.

Definition new_job (job_id share_id : string) (operation : IndexOperation) (version : Z) (now : datetime)
    : ShareIndexJob :=
  mkJob job_id share_id operation version JOB_PENDING 0 None None None None now now.

Definition set_share (r : SharedGuideRecord) (db : ShareDb) : ShareDb :=
  db <| sd_shares := <[sg_share_id r := r]> (sd_shares db) |>.
Definition set_job (j : ShareIndexJob) (db : ShareDb) : ShareDb :=
  db <| sd_jobs := <[jb_job_id j := j]> (sd_jobs db) |>.

(** [actor] is the worker on whose lease an operation relies. *)
Inductive share_step (actor : option string) (now : datetime) : ShareDb → ShareDb → Prop :=
| ss_same db : share_step actor now db db
| ss_create db share_id job_id draft :
    draft_ok draft = true → sd_shares db !! share_id = None → sd_jobs db !! job_id = None →
    (∀ k r, sd_shares db !! k = Some r →
       of_author_session (pd_author_user_id draft) (pd_source_session_id draft) r = false) →
    share_step actor now db
      (set_job (new_job job_id share_id UPSERT 1 now) (set_share (new_record share_id draft now) db))
| ss_stage db share_id row draft job_id :
    draft_ok draft = true → sd_shares db !! share_id = Some row → sd_jobs db !! job_id = None →
    of_author_session (pd_author_user_id draft) (pd_source_session_id draft) row = true →
    share_step actor now db
      (set_job (new_job job_id share_id UPSERT (sg_index_version row + 1) now)
         (mkShareDb (<[share_id := staged draft (sg_index_version row + 1) now row]> (sd_shares db))
            (superseded share_id now (sd_jobs db)) (sd_likes db)))
| ss_withdraw db share_id row job_id :
    sd_shares db !! share_id = Some row → sd_jobs db !! job_id = None →
    sg_publication_status row ≠ UNPUBLISHED →
    share_step actor now db
      (set_job (new_job job_id share_id DELETE (sg_index_version row) now)
         (mkShareDb (<[share_id := withdrawn now row]> (sd_shares db))
            (superseded share_id now (sd_jobs db)) (sd_likes db)))
| ss_job db j j' row :
    sd_jobs db !! jb_job_id j = Some j → sd_shares db !! jb_share_id j = Some row →
    job_move now row actor j j' →
    share_step actor now db (set_job j' db)
| ss_complete db j row worker :
    actor = Some worker →
    sd_jobs db !! jb_job_id j = Some j → sd_shares db !! jb_share_id j = Some row →
    jb_index_version j = sg_index_version row → operation_open (jb_operation j) row = true →
    lease_matches worker now j = true →
    share_step actor now db
      (set_job (with_error None (close_job JOB_SUCCEEDED None now j))
         (set_share (completed (jb_operation j) now row) db))
| ss_fail db j row worker sanitized retry terminal :
    actor = Some worker →
    sd_jobs db !! jb_job_id j = Some j → sd_shares db !! jb_share_id j = Some row →
    jb_index_version j = sg_index_version row → operation_open (jb_operation j) row = true →
    lease_matches worker now j = true →
    share_step actor now db
      (set_job (failed_job sanitized retry terminal now j)
         (set_share (failed_share (jb_operation j) sanitized terminal now row) db))
| ss_expire db j row :
    sd_jobs db !! jb_job_id j = Some j → sd_shares db !! jb_share_id j = Some row →
    expired_running now j = true →
    share_step actor now db
      (set_job (expired_job now j)
         (if (sg_index_version row =? jb_index_version j) && operation_open (jb_operation j) row
          then set_share (expired_share now row) db else db))
| ss_requeue db j row :
    sd_jobs db !! jb_job_id j = Some j → sd_shares db !! jb_share_id j = Some row →
    jb_operation j = UPSERT → jb_index_version j = sg_index_version row →
    jb_status j = JOB_SUCCEEDED → public_ready row = true →
    share_step actor now db (set_job (requeued_job now j) (set_share (requeued_share now row) db))
| ss_like db share_id row user_id :
    sd_shares db !! share_id = Some row → pd_author_user_id (sg_draft row) ≠ user_id →
    sd_likes db !! (share_id, user_id) = None →
    share_step actor now db
      (mkShareDb (<[share_id := row <| sg_like_count := sg_like_count row + 1 |>]> (sd_shares db))
         (sd_jobs db) (<[(share_id, user_id) := now]> (sd_likes db)))
| ss_unlike db share_id row user_id :
    sd_shares db !! share_id = Some row → is_Some (sd_likes db !! (share_id, user_id)) →
    share_step actor now db
      (mkShareDb (<[share_id := row <| sg_like_count := if 0 <? sg_like_count row then sg_like_count row - 1 else 0 |>]> (sd_shares db))
         (sd_jobs db) (delete (share_id, user_id) (sd_likes db))).

(** ** The invariant *)

Definition finished (j : ShareIndexJob) : bool := bool_decide (jb_status j = JOB_SUCCEEDED).

(** The guide has a job of its current version for the operation, finished or not. *)
Definition current_job (db : ShareDb) (r : SharedGuideRecord) (operation : IndexOperation) (fin : bool) : Prop :=
  ∃ k j, sd_jobs db !! k = Some j ∧ jb_share_id j = sg_share_id r ∧ jb_operation j = operation
         ∧ jb_index_version j = sg_index_version r ∧ finished j = fin.

Definition state_wf (db : ShareDb) (r : SharedGuideRecord) : Prop :=
  match sg_publication_status r with
  | PUBLISHING =>
      (sg_index_status r = INDEX_PENDING ∨ sg_index_status r = INDEX_FAILED) ∧ sg_indexed_at r = None
      ∧ current_job db r UPSERT false
  | PUBLIC =>
      sg_index_status r = INDEX_READY ∧ is_Some (sg_indexed_at r)
      ∧ current_job db r UPSERT true
  | UNPUBLISHED =>
      (sg_index_status r = DELETED ∧ current_job db r DELETE true)
      ∨ ((sg_index_status r = DELETE_PENDING ∨ sg_index_status r = INDEX_FAILED)
         ∧ current_job db r DELETE false)
  end.

Record share_row_wf (t : datetime) (db : ShareDb) (k : string) (r : SharedGuideRecord) : Prop := {
  sw_key : sg_share_id r = k;
  sw_draft : draft_ok (sg_draft r) = true;
  sw_version : 1 <= sg_index_version r;
  sw_state : state_wf db r;
  sw_times : ∃ p, sg_published_at r = Some p ∧ p <= t
                  ∧ ∀ i, sg_indexed_at r = Some i → p <= i;
  sw_likes : sg_like_count r = Z.of_nat (size (filter (fun e => e.1.1 = k) (sd_likes db)))
}.

Record job_row_wf (db : ShareDb) (k : string) (j : ShareIndexJob) : Prop := {
  jw_key : jb_job_id j = k;
  jw_ok : job_ok j = true;
  jw_share : ∃ r, sd_shares db !! jb_share_id j = Some r ∧ jb_index_version j <= sg_index_version r
                  ∧ (jb_operation j = DELETE → jb_index_version j = sg_index_version r →
                     sg_publication_status r = UNPUBLISHED);
  jw_lease : jb_status j ≠ JOB_RUNNING → jb_lease_owner j = None ∧ jb_lease_expires_at j = None
}.

(** [t] bounds the clock readings so far. *)
Record shares_wf (t : datetime) (db : ShareDb) : Prop := {
  wf_shares : ∀ k r, sd_shares db !! k = Some r → share_row_wf t db k r;
  wf_jobs : ∀ k j, sd_jobs db !! k = Some j → job_row_wf db k j;
  wf_authors : ∀ k k' r r', sd_shares db !! k = Some r → sd_shares db !! k' = Some r' →
    of_author_session (pd_author_user_id (sg_draft r)) (pd_source_session_id (sg_draft r)) r' = true → k = k';
  wf_versions : ∀ k k' j j', sd_jobs db !! k = Some j → sd_jobs db !! k' = Some j' →
    of_version (jb_share_id j) (jb_operation j) (jb_index_version j) j' = true → k = k';
  wf_likes : ∀ s u, is_Some (sd_likes db !! (s, u)) →
    ∃ r, sd_shares db !! s = Some r ∧ pd_author_user_id (sg_draft r) ≠ u
}.

(** ** One guide changes *)

Definition same_ident (j j' : ShareIndexJob) : Prop :=
  jb_job_id j' = jb_job_id j ∧ jb_share_id j' = jb_share_id j
  ∧ jb_operation j' = jb_operation j ∧ jb_index_version j' = jb_index_version j.

Definition lease_shape (j : ShareIndexJob) : Prop :=
  jb_status j ≠ JOB_RUNNING → jb_lease_owner j = None ∧ jb_lease_expires_at j = None.

Definition slot (r : SharedGuideRecord) : string * string :=
  (pd_author_user_id (sg_draft r), pd_source_session_id (sg_draft r)).

Lemma of_author_session_iff a s r : of_author_session a s r = true ↔ slot r = (a, s).
Proof. unfold of_author_session, slot. rewrite andb_true_iff, !String.eqb_eq. naive_solver. Qed.

Lemma of_version_iff s op v j :
  of_version s op v j = true ↔ jb_share_id j = s ∧ jb_operation j = op ∧ jb_index_version j = v.
Proof. unfold of_version. rewrite !andb_true_iff, String.eqb_eq, bool_decide_eq_true, Z.eqb_eq. tauto. Qed.

(** [g] changes the jobs of [s] only, and never what they are about. *)
Record job_change (s : string) (jobs : gmap string ShareIndexJob) (g : ShareIndexJob → ShareIndexJob) : Prop := {
  jc_ident : ∀ k j, jobs !! k = Some j → same_ident j (g j);
  jc_other : ∀ k j, jobs !! k = Some j → jb_share_id j ≠ s → g j = j;
  jc_ok : ∀ k j, jobs !! k = Some j → job_ok j = true → lease_shape j → job_ok (g j) = true ∧ lease_shape (g j)
}.

(** A job an operation adds: fresh, of the guide's current version. *)
Record job_added (s : string) (jobs : gmap string ShareIndexJob) (r : SharedGuideRecord)
    (new : ShareIndexJob) : Prop := {
  ja_fresh : jobs !! jb_job_id new = None;
  ja_share : jb_share_id new = s;
  ja_version : jb_index_version new = sg_index_version r;
  ja_delete : jb_operation new = DELETE → sg_publication_status r = UNPUBLISHED;
  ja_ok : job_ok new = true;
  ja_lease : lease_shape new;
  ja_only : ∀ k j, jobs !! k = Some j → of_version s (jb_operation new) (jb_index_version new) j = false
}.

Definition with_job (new : option ShareIndexJob) (jobs : gmap string ShareIndexJob) : gmap string ShareIndexJob :=
  match new with Some j => <[jb_job_id j := j]> jobs | None => jobs end.

Definition likes_off (s : string) (likes likes' : gmap (string * string) datetime) : Prop :=
  ∀ s' u, s' ≠ s → likes' !! (s', u) = likes !! (s', u).

Lemma likes_off_filter s likes likes' k : likes_off s likes likes' → k ≠ s →
  filter (fun e : string * string * datetime => e.1.1 = k) likes'
  = filter (fun e : string * string * datetime => e.1.1 = k) likes.
Proof.
  intros Hoff Hk. apply map_eq. intros [s' u]. apply option_eq. intros d.
  rewrite !map_lookup_filter_Some. cbn. split; intros [Hl ->]; (split; [|done]);
    specialize (Hoff k u Hk); congruence.
Qed.

(** The guide [s] of [db] becomes [r'], its jobs change by [g], [new] is added. *)
Record guide_change (t : datetime) (db : ShareDb) (s : string) (r' : SharedGuideRecord)
    (g : ShareIndexJob → ShareIndexJob) (new : option ShareIndexJob)
    (likes' : gmap (string * string) datetime) : Prop := {
  gc_key : sg_share_id r' = s;
  gc_draft : draft_ok (sg_draft r') = true;
  gc_version : 1 <= sg_index_version r';
  gc_grows : ∀ r, sd_shares db !! s = Some r → sg_index_version r <= sg_index_version r' ∧ slot r' = slot r;
  gc_slot : sd_shares db !! s = None → ∀ k r, sd_shares db !! k = Some r → slot r ≠ slot r';
  gc_delete : ∀ k j, sd_jobs db !! k = Some j → jb_share_id j = s → jb_operation j = DELETE →
    jb_index_version j = sg_index_version r' → sg_publication_status r' = UNPUBLISHED;
  gc_times : ∃ p, sg_published_at r' = Some p ∧ p <= t ∧ ∀ i, sg_indexed_at r' = Some i → p <= i;
  gc_state : state_wf (mkShareDb (sd_shares db) (with_job new (g <$> sd_jobs db)) likes') r';
  gc_jobs : job_change s (sd_jobs db) g;
  gc_new : ∀ j, new = Some j → job_added s (sd_jobs db) r' j;
  gc_off : likes_off s (sd_likes db) likes';
  gc_count : sg_like_count r'
             = Z.of_nat (size (filter (fun e : string * string * datetime => e.1.1 = s) likes'));
  gc_fans : ∀ u, is_Some (likes' !! (s, u)) → pd_author_user_id (sg_draft r') ≠ u
}.

Section Change.
Context (t0 t : datetime) (db : ShareDb) (s : string) (r' : SharedGuideRecord)
  (g : ShareIndexJob → ShareIndexJob) (new : option ShareIndexJob)
  (likes' : gmap (string * string) datetime).
Context (Hwf : shares_wf t0 db) (Ht : t0 <= t) (Hc : guide_change t db s r' g new likes').

Let db' := mkShareDb (<[s := r']> (sd_shares db)) (with_job new (g <$> sd_jobs db)) likes'.

(** A job of the new table is the added one or a changed old one. *)
Lemma change_jobs k j' : with_job new (g <$> sd_jobs db) !! k = Some j' →
  (new = Some j' ∧ k = jb_job_id j') ∨ ∃ j, sd_jobs db !! k = Some j ∧ j' = g j.
Proof.
  unfold with_job. destruct new as [nj|].
  - destruct (decide (k = jb_job_id nj)) as [->|Hk].
    + rewrite lookup_insert_eq. intros [= <-]. by left.
    + rewrite lookup_insert_ne by done. rewrite lookup_fmap, fmap_Some. naive_solver.
  - rewrite lookup_fmap, fmap_Some. naive_solver.
Qed.

Lemma change_keeps k j : sd_jobs db !! k = Some j → with_job new (g <$> sd_jobs db) !! k = Some (g j).
Proof.
  intros Hj. unfold with_job. destruct new as [nj|] eqn:E; [|by rewrite lookup_fmap, Hj].
  pose proof (ja_fresh _ _ _ _ (gc_new _ _ _ _ _ _ _ Hc _ eq_refl)) as Hf.
  rewrite lookup_insert_ne by congruence. by rewrite lookup_fmap, Hj.
Qed.

Lemma change_current r op fin : sg_share_id r ≠ s → current_job db r op fin → current_job db' r op fin.
Proof.
  intros Hr (k & j & Hj & Hs & Ho & Hv & Hf). exists k, j. split; [|done].
  cbn. rewrite (change_keeps _ _ Hj). f_equal. eapply (jc_other _ _ _ (gc_jobs _ _ _ _ _ _ _ Hc)); [exact Hj|congruence].
Qed.

Lemma change_other_share k r : k ≠ s → sd_shares db !! k = Some r → share_row_wf t db' k r.
Proof.
  intros Hk Hr. destruct (wf_shares _ _ Hwf _ _ Hr) as [H1 H2 H3 H4 (p & Hp & Hpt & Hi) H6].
  split; try done.
  - assert (Hs : sg_share_id r ≠ s) by congruence. revert H4. unfold state_wf.
    destruct (sg_publication_status r); naive_solver eauto using change_current.
  - exists p. split; [done|]. split; [lia|done].
  - cbn. by rewrite (likes_off_filter s (sd_likes db)) by (apply Hc || done).
Qed.

Lemma change_share : share_row_wf t db' s r'.
Proof. split; apply Hc. Qed.

Lemma change_job k j' : sd_jobs db' !! k = Some j' → job_row_wf db' k j'.
Proof.
  intros [[Hn ->]|(j & Hj & ->)]%change_jobs.
  - destruct (gc_new _ _ _ _ _ _ _ Hc _ Hn) as [_ Hs Hv Hd Hok Hl _]. split; try done.
    exists r'. cbn. rewrite Hs, lookup_insert_eq. split; [done|]. split; [lia|auto].
  - destruct (wf_jobs _ _ Hwf _ _ Hj) as [H1 H2 (r & Hr & Hv & Hd) H4].
    destruct (jc_ident _ _ _ (gc_jobs _ _ _ _ _ _ _ Hc) _ _ Hj) as (I1 & I2 & I3 & I4).
    destruct (jc_ok _ _ _ (gc_jobs _ _ _ _ _ _ _ Hc) _ _ Hj H2 H4) as [G1 G2]. split; try done; [congruence|].
    rewrite I2, I3, I4. cbn. destruct (decide (jb_share_id j = s)) as [Hs|Hs].
    + exists r'. rewrite Hs, lookup_insert_eq. split; [done|].
      rewrite Hs in Hr. destruct (gc_grows _ _ _ _ _ _ _ Hc _ Hr). split; [lia|].
      intros. eapply (gc_delete _ _ _ _ _ _ _ Hc); eauto.
    + exists r. rewrite lookup_insert_ne by done. done.
Qed.

Lemma change_slots k k' r1 r2 : sd_shares db' !! k = Some r1 → sd_shares db' !! k' = Some r2 →
  slot r2 = slot r1 → k = k'.
Proof.
  assert (Hs : ∀ k r, k ≠ s → sd_shares db !! k = Some r → slot r = slot r' → False).
  { intros k0 r Hk0 Hr He. destruct (sd_shares db !! s) as [row|] eqn:E.
    - destruct (gc_grows _ _ _ _ _ _ _ Hc _ E) as [_ Hrow]. apply Hk0.
      eapply (wf_authors _ _ Hwf k0 s r row Hr E). apply of_author_session_iff. unfold slot in *. congruence.
    - by apply (gc_slot _ _ _ _ _ _ _ Hc E _ _ Hr). }
  cbn. destruct (decide (k = s)) as [->|Hk], (decide (k' = s)) as [->|Hk']; [done|..].
  - rewrite lookup_insert_eq, lookup_insert_ne by done. intros [= <-] H2 He. exfalso. eauto.
  - rewrite lookup_insert_ne, lookup_insert_eq by done. intros H1 [= <-] He. exfalso. eauto.
  - rewrite !lookup_insert_ne by done. intros H1 H2 He.
    eapply (wf_authors _ _ Hwf k k' r1 r2); [done..|]. by apply of_author_session_iff.
Qed.

Lemma change_versions k k' j1 j2 : sd_jobs db' !! k = Some j1 → sd_jobs db' !! k' = Some j2 →
  of_version (jb_share_id j1) (jb_operation j1) (jb_index_version j1) j2 = true → k = k'.
Proof.
  assert (Hg := jc_ident _ _ _ (gc_jobs _ _ _ _ _ _ _ Hc)).
  intros [[Hn ->]|(j & Hj & ->)]%change_jobs [[Hn' ->]|(j' & Hj' & ->)]%change_jobs; rewrite of_version_iff.
  - congruence.
  - destruct (gc_new _ _ _ _ _ _ _ Hc _ Hn) as [_ Hs _ _ _ _ Ho]. specialize (Ho _ _ Hj').
    destruct (Hg _ _ Hj') as (_ & -> & -> & ->). intros (E1 & E2 & E3).
    apply not_true_iff_false in Ho. exfalso. apply Ho. apply of_version_iff. repeat split; congruence.
  - destruct (gc_new _ _ _ _ _ _ _ Hc _ Hn') as [_ Hs _ _ _ _ Ho]. specialize (Ho _ _ Hj).
    destruct (Hg _ _ Hj) as (_ & -> & -> & ->). intros (E1 & E2 & E3).
    apply not_true_iff_false in Ho. exfalso. apply Ho. apply of_version_iff. repeat split; congruence.
  - destruct (Hg _ _ Hj) as (_ & -> & -> & ->), (Hg _ _ Hj') as (_ & -> & -> & ->). intros E.
    eapply (wf_versions _ _ Hwf _ _ _ _ Hj Hj'). by apply of_version_iff.
Qed.

Lemma change_fans x u : is_Some (likes' !! (x, u)) →
  ∃ r, sd_shares db' !! x = Some r ∧ pd_author_user_id (sg_draft r) ≠ u.
Proof.
  intros Hl. cbn. destruct (decide (x = s)) as [->|Hx].
  - exists r'. rewrite lookup_insert_eq. split; [done|]. by apply Hc.
  - rewrite (gc_off _ _ _ _ _ _ _ Hc) in Hl by done. rewrite lookup_insert_ne by done. by apply (wf_likes _ _ Hwf).
Qed.

Lemma guide_change_wf : shares_wf t db'.
Proof.
  split.
  - intros k r. cbn. destruct (decide (k = s)) as [->|Hk].
    + rewrite lookup_insert_eq. intros [= <-]. apply change_share.
    + rewrite lookup_insert_ne by done. by apply change_other_share.
  - apply change_job.
  - intros k k' r1 r2 H1 H2 He. eapply change_slots; eauto. by apply of_author_session_iff.
  - apply change_versions.
  - apply change_fans.
Qed.
End Change.

(** ** Every step preserves the invariant *)

Section Steps.
Context (t0 t : datetime) (db : ShareDb) (Hwf : shares_wf t0 db) (Ht : t0 <= t).

Lemma shares_wf_later : shares_wf t db.
Proof.
  destruct Hwf as [H1 H2 H3 H4 H5]. split; try done.
  intros k r Hr. destruct (H1 _ _ Hr) as [A B C D (p & Hp & Hpt & Hi) F]. split; try done.
  exists p. split; [done|]. split; [lia|done].
Qed.

(** Replacing one job is a change of the whole table. *)
Definition replace_job (j' x : ShareIndexJob) : ShareIndexJob :=
  if String.eqb (jb_job_id x) (jb_job_id j') then j' else x.

Lemma replace_job_map j j' : sd_jobs db !! jb_job_id j = Some j → jb_job_id j' = jb_job_id j →
  <[jb_job_id j' := j']> (sd_jobs db) = replace_job j' <$> sd_jobs db.
Proof.
  intros Hj Hid. apply map_eq. intros k. rewrite lookup_fmap. unfold replace_job.
  destruct (decide (k = jb_job_id j')) as [->|Hk].
  - rewrite lookup_insert_eq, Hid, Hj. cbn. by rewrite <- Hid, String.eqb_refl.
  - rewrite lookup_insert_ne by done. destruct (sd_jobs db !! k) as [x|] eqn:E; [|done]. cbn.
    pose proof (jw_key _ _ _ (wf_jobs _ _ Hwf _ _ E)) as Hx.
    assert (String.eqb (jb_job_id x) (jb_job_id j') = false) as -> by (apply String.eqb_neq; congruence). done.
Qed.

Lemma replace_job_at j j' k x : sd_jobs db !! jb_job_id j = Some j → jb_job_id j' = jb_job_id j →
  sd_jobs db !! k = Some x → (x = j ∧ replace_job j' x = j') ∨ (jb_job_id x ≠ jb_job_id j ∧ replace_job j' x = x).
Proof.
  intros Hj Hid Hx. unfold replace_job. pose proof (jw_key _ _ _ (wf_jobs _ _ Hwf _ _ Hx)) as Hk.
  destruct (String.eqb_spec (jb_job_id x) (jb_job_id j')) as [E|E].
  - left. split; [|done]. congruence.
  - right. split; [congruence|done].
Qed.

Lemma replace_job_change j j' : sd_jobs db !! jb_job_id j = Some j → same_ident j j' →
  (job_ok j = true → job_ok j' = true) → lease_shape j' →
  job_change (jb_share_id j) (sd_jobs db) (replace_job j').
Proof.
  intros Hj Hi Hok Hl. destruct (Hi) as (Hid & _).
  split; intros k x Hx; destruct (replace_job_at j j' k x Hj Hid Hx) as [[-> ->]|[Hne ->]]; try done.
  intros ? ?. split; [by apply Hok|done].
Qed.

Lemma replaced_job j j' : sd_jobs db !! jb_job_id j = Some j → jb_job_id j' = jb_job_id j →
  (replace_job j' <$> sd_jobs db) !! jb_job_id j = Some j'.
Proof.
  intros Hj Hid. rewrite lookup_fmap, Hj. cbn. unfold replace_job.
  by rewrite Hid, String.eqb_refl.
Qed.

(** Superseding the old upserts of a guide. *)
Lemma superseded_change s now : job_change s (sd_jobs db)
  (fun j => if old_upsert s now j then close_job JOB_SUCCEEDED None now j else j).
Proof.
  split; intros k j Hj.
  - destruct (old_upsert s now j); done.
  - intros Hs. unfold old_upsert. by rewrite (proj2 (String.eqb_neq _ _) Hs).
  - intros Hok Hl. destruct (old_upsert s now j); [|done]. split; [|done].
    revert Hok. unfold job_ok. cbn. rewrite !andb_true_iff. tauto.
Qed.

(** The operation a guide's state waits for or rests on. *)
Definition operation_of (r : SharedGuideRecord) : IndexOperation :=
  match sg_publication_status r with UNPUBLISHED => DELETE | _ => UPSERT end.

(** The current job of a guide is determined. *)
Lemma current_unique r op fin j : sg_share_id r = jb_share_id j → jb_operation j = op →
  jb_index_version j = sg_index_version r → sd_jobs db !! jb_job_id j = Some j →
  current_job db r op fin → finished j = fin.
Proof.
  intros Hs Ho Hv Hj (k & x & Hx & Hxs & Hxo & Hxv & Hf).
  assert (E : jb_job_id j = k).
  { eapply (wf_versions _ _ Hwf _ _ j x Hj Hx). apply of_version_iff. split_and!; congruence. }
  subst k. congruence.
Qed.

Lemma state_of_current r : state_wf db r → ∃ fin, current_job db r (operation_of r) fin.
Proof. unfold state_wf, operation_of. destruct (sg_publication_status r); naive_solver. Qed.

(** A job that keeps to be finished, or not, keeps the state of its guide. *)
Lemma state_wf_replace shares likes row j j' :
  state_wf db row → sg_share_id row = jb_share_id j → sd_jobs db !! jb_job_id j = Some j → same_ident j j' →
  (jb_index_version j = sg_index_version row → jb_operation j = operation_of row → finished j' = finished j) →
  state_wf (mkShareDb shares (replace_job j' <$> sd_jobs db) likes) row.
Proof.
  intros Hst Hs Hj Hi Hf.
  assert (Hcur : ∀ fin, current_job db row (operation_of row) fin →
            current_job (mkShareDb shares (replace_job j' <$> sd_jobs db) likes) row (operation_of row) fin).
  { intros fin (k & x & Hx & Hxs & Hxo & Hxv & Hfin). destruct (Hi) as (Hid & I2 & I3 & I4).
    exists k, (replace_job j' x). cbn. rewrite lookup_fmap, Hx. split; [done|].
    destruct (replace_job_at j j' k x Hj Hid Hx) as [[-> ->]|[_ ->]]; [|done].
    split_and!; [congruence..|]. rewrite Hf; congruence. }
  revert Hst Hcur. unfold state_wf, operation_of. destruct (sg_publication_status row); naive_solver.
Qed.

(** One job and its guide change together. *)
Lemma set_both_wf j j' row row' :
  sd_jobs db !! jb_job_id j = Some j → sd_shares db !! jb_share_id j = Some row →
  same_ident j j' → (job_ok j = true → job_ok j' = true) → lease_shape j' →
  sg_share_id row' = sg_share_id row → sg_draft row' = sg_draft row →
  sg_index_version row' = sg_index_version row → sg_like_count row' = sg_like_count row →
  sg_published_at row' = sg_published_at row →
  (∀ i, sg_indexed_at row' = Some i → sg_indexed_at row = Some i ∨ i = t) →
  (sg_publication_status row = UNPUBLISHED → sg_publication_status row' = UNPUBLISHED) →
  state_wf (mkShareDb (sd_shares db) (replace_job j' <$> sd_jobs db) (sd_likes db)) row' →
  shares_wf t (set_job j' (set_share row' db)).
Proof.
  intros Hj Hr Hi Hok Hl Hk Hd Hv Hlk Hp Hix Hu Hst. destruct (Hi) as (Hid & _).
  destruct (wf_shares _ _ Hwf _ _ Hr) as [K D V S (p & Hpp & Hpt & Hpi) L].
  assert (Hs : sg_share_id row' = jb_share_id j) by congruence.
  assert (E : set_job j' (set_share row' db)
    = mkShareDb (<[jb_share_id j := row']> (sd_shares db)) (with_job None (replace_job j' <$> sd_jobs db)) (sd_likes db)).
  { unfold set_job, set_share. cbn. rewrite Hs. f_equal. by apply replace_job_map with (j := j). }
  rewrite E. eapply guide_change_wf; [exact Hwf|exact Ht|]. split.
  - done.
  - congruence.
  - lia.
  - intros r0. rewrite Hr. intros [= <-]. split; [lia|]. unfold slot. congruence.
  - congruence.
  - intros k x Hx Hxs Ho Hxv. apply Hu. destruct (jw_share _ _ _ (wf_jobs _ _ Hwf _ _ Hx)) as (r1 & H1 & _ & H3).
    rewrite Hxs, Hr in H1. injection H1 as <-. apply H3; congruence.
  - exists p. split; [congruence|]. split; [lia|]. intros i [H1| ->]%Hix; [by apply Hpi|lia].
  - exact Hst.
  - by apply replace_job_change.
  - done.
  - done.
  - congruence.
  - intros u Hu'. destruct (wf_likes _ _ Hwf _ _ Hu') as (r1 & H1 & H2). congruence.
Qed.

Lemma set_share_same row : sd_shares db !! sg_share_id row = Some row → set_share row db = db.
Proof. intros Hr. unfold set_share. destruct db as [S J L]. cbn in *. by rewrite insert_id. Qed.

Lemma set_job_wf j j' row :
  sd_jobs db !! jb_job_id j = Some j → sd_shares db !! jb_share_id j = Some row →
  same_ident j j' → (job_ok j = true → job_ok j' = true) → lease_shape j' →
  (jb_index_version j = sg_index_version row → jb_operation j = operation_of row → finished j' = finished j) →
  shares_wf t (set_job j' db).
Proof.
  intros Hj Hr Hi Hok Hl Hf. pose proof (wf_shares _ _ Hwf _ _ Hr) as [K _ _ S _ _].
  rewrite <- (set_share_same row) by congruence.
  eapply set_both_wf; try done; [by left|].
  eapply state_wf_replace; try done.
Qed.

(** A finished job is the current one of no open operation. *)
Lemma obsolete_unfinished row j : sd_jobs db !! jb_job_id j = Some j → sd_shares db !! jb_share_id j = Some row →
  finished j = false → job_effect_is_obsolete row j = true →
  jb_index_version j = sg_index_version row → jb_operation j = operation_of row → False.
Proof.
  intros Hj Hr Hf Ho Hv Hop. pose proof (wf_shares _ _ Hwf _ _ Hr) as [K _ _ S _ _].
  assert (Hcur : ∀ fin, current_job db row (operation_of row) fin → fin = false).
  { intros fin Hc. rewrite <- Hf. symmetry. eapply current_unique; eauto. }
  revert Ho. unfold job_effect_is_obsolete. rewrite Hv, Z.ltb_irrefl, Hop.
  revert S Hcur. unfold state_wf, operation_of, public_ready.
  destruct (sg_publication_status row), (sg_index_status row); cbn; try done; intros S Hcur _;
    naive_solver.
Qed.

Lemma claimed_ok worker until now j : py_len worker <= 128 → job_ok j = true → job_ok (lease_job worker until now j) = true.
Proof. unfold job_ok. cbn. rewrite !andb_true_iff, !Z.leb_le. intros ? [[? ?] ?]. split_and!; lia. Qed.

Lemma failed_ok e retry terminal now j : job_ok j = true → job_ok (failed_job e retry terminal now j) = true.
Proof. unfold job_ok, failed_job. destruct terminal; cbn; rewrite !andb_true_iff; tauto. Qed.

Lemma closed_ok s retry now j : job_ok j = true → job_ok (close_job s retry now j) = true.
Proof. unfold job_ok. cbn. rewrite !andb_true_iff. tauto. Qed.

Lemma closed_error_ok e s retry now j : job_ok j = true → job_ok (with_error e (close_job s retry now j)) = true.
Proof. unfold job_ok. cbn. rewrite !andb_true_iff. tauto. Qed.

Lemma running_unfinished j : jb_status j = JOB_RUNNING → finished j = false.
Proof. unfold finished. by intros ->. Qed.

Lemma lease_running worker now j : lease_matches worker now j = true → jb_status j = JOB_RUNNING.
Proof. unfold lease_matches. rewrite !andb_true_iff, bool_decide_eq_true. tauto. Qed.

Lemma due_unfinished now j : job_due now j = true → finished j = false.
Proof.
  unfold job_due, pending_due, expired_running, finished.
  rewrite orb_true_iff, !andb_true_iff, !bool_decide_eq_true. by intros [[-> _]|[-> _]].
Qed.

Lemma failed_unfinished e retry terminal now j : finished (failed_job e retry terminal now j) = false.
Proof. by destruct terminal. Qed.

Lemma failed_ident e retry terminal now j : same_ident j (failed_job e retry terminal now j).
Proof. by destruct terminal. Qed.

Lemma failed_lease e retry terminal now j : lease_shape (failed_job e retry terminal now j).
Proof. by destruct terminal. Qed.
End Steps.

Section Preserve.
Context (t0 t : datetime) (db : ShareDb) (Hwf : shares_wf t0 db) (Ht : t0 <= t).

Lemma job_step_wf actor j j' row :
  sd_jobs db !! jb_job_id j = Some j → sd_shares db !! jb_share_id j = Some row →
  job_move t row actor j j' → shares_wf t (set_job j' db).
Proof.
  intros Hj Hr Hm. destruct Hm as [j worker until _ Hw Hdue|j worker e retry terminal _ Hl|j Hs Ho].
  - eapply set_job_wf; eauto; [done|by apply claimed_ok|done|].
    intros _ _. by rewrite (due_unfinished _ _ Hdue).
  - eapply set_job_wf; eauto using failed_ident, failed_ok, failed_lease.
    intros _ _. by rewrite failed_unfinished, (running_unfinished _ (lease_running _ _ _ Hl)).
  - eapply set_job_wf; eauto; [done|by apply closed_ok|done|].
    intros Hv Hop. exfalso. eapply obsolete_unfinished; eauto. unfold finished. by destruct Hs as [->| ->].
Qed.

(** An open operation is the one the guide's state waits for. *)
Lemma open_operation op row : operation_open op row = true →
  operation_of row = op ∧ (op = UPSERT → sg_publication_status row = PUBLISHING).
Proof.
  unfold operation_open, operation_of. destruct op, (sg_publication_status row); cbn; try done; naive_solver.
Qed.

Lemma replaced_current shares likes row row' j j' op : sd_jobs db !! jb_job_id j = Some j →
  same_ident j j' → sg_share_id row = jb_share_id j → sg_share_id row' = sg_share_id row →
  sg_index_version row' = sg_index_version row → jb_index_version j = sg_index_version row → jb_operation j = op →
  current_job (mkShareDb shares (replace_job j' <$> sd_jobs db) likes) row' op (finished j').
Proof.
  intros Hj (I1 & I2 & I3 & I4) Hs Hk Hv Hjv Hop. exists (jb_job_id j), j'. cbn.
  split; [by apply replaced_job|]. split_and!; congruence.
Qed.

Lemma complete_wf j row worker :
  sd_jobs db !! jb_job_id j = Some j → sd_shares db !! jb_share_id j = Some row →
  jb_index_version j = sg_index_version row → operation_open (jb_operation j) row = true →
  lease_matches worker t j = true →
  shares_wf t (set_job (with_error None (close_job JOB_SUCCEEDED None t j))
                 (set_share (completed (jb_operation j) t row) db)).
Proof.
  intros Hj Hr Hv Ho Hl. pose proof (wf_shares _ _ Hwf _ _ Hr) as [K _ _ _ _ _].
  destruct (open_operation _ _ Ho) as [Hop Hpub].
  eapply set_both_wf; eauto; try (by destruct (jb_operation j)); [by apply closed_error_ok| | |].
  - intros i. destruct (jb_operation j); cbn; [intros [= <-]; by right|by left].
  - destruct (jb_operation j) eqn:E; cbn; [|done]. intros Hu. rewrite Hpub in Hu; done.
  - assert (Hc := replaced_current (sd_shares db) (sd_likes db) row (completed (jb_operation j) t row) j
      (with_error None (close_job JOB_SUCCEEDED None t j)) (jb_operation j) Hj).
    unfold state_wf. destruct (jb_operation j) eqn:E; cbn in *.
    + split; [done|]. split; [eauto|]. apply Hc; done.
    + left. split; [done|]. apply Hc; done.
Qed.

Lemma fail_wf j row worker e retry terminal :
  sd_jobs db !! jb_job_id j = Some j → sd_shares db !! jb_share_id j = Some row →
  jb_index_version j = sg_index_version row → operation_open (jb_operation j) row = true →
  lease_matches worker t j = true →
  shares_wf t (set_job (failed_job e retry terminal t j)
                 (set_share (failed_share (jb_operation j) e terminal t row) db)).
Proof.
  intros Hj Hr Hv Ho Hl. pose proof (wf_shares _ _ Hwf _ _ Hr) as [K _ _ S _ _].
  destruct (open_operation _ _ Ho) as [Hop Hpub].
  eapply set_both_wf; eauto using failed_ident, failed_ok, failed_lease.
  assert (Hc := replaced_current (sd_shares db) (sd_likes db) row (failed_share (jb_operation j) e terminal t row) j
    (failed_job e retry terminal t j) (jb_operation j) Hj (failed_ident _ _ _ _ _)).
  rewrite failed_unfinished in Hc. revert S Ho Hc. unfold state_wf, operation_open.
  destruct (jb_operation j), (sg_publication_status row) eqn:E; cbn; rewrite ?E; try done; intros S Ho Hc.
  - split; [by right|]. split; [tauto|]. by apply Hc.
  - right. split; [destruct terminal; auto|]. by apply Hc.
Qed.

Lemma expire_wf j row :
  sd_jobs db !! jb_job_id j = Some j → sd_shares db !! jb_share_id j = Some row →
  expired_running t j = true →
  shares_wf t (set_job (expired_job t j)
    (if (sg_index_version row =? jb_index_version j) && operation_open (jb_operation j) row
     then set_share (expired_share t row) db else db)).
Proof.
  intros Hj Hr He. pose proof (wf_shares _ _ Hwf _ _ Hr) as [K _ _ S _ _].
  assert (Hrun : finished j = false).
  { apply running_unfinished. revert He. unfold expired_running. by rewrite andb_true_iff, bool_decide_eq_true; intros []. }
  destruct (_ && _) eqn:Hcond.
  - apply andb_true_iff in Hcond as [Hv%Z.eqb_eq Ho]. destruct (open_operation _ _ Ho) as [Hop Hpub].
    eapply set_both_wf; eauto; [done|by apply closed_error_ok|done|].
    assert (Hc := replaced_current (sd_shares db) (sd_likes db) row (expired_share t row) j
      (expired_job t j) (jb_operation j) Hj).
    revert S Ho Hc. unfold state_wf, operation_open.
    destruct (jb_operation j), (sg_publication_status row) eqn:E; cbn; rewrite ?E; try done; intros S Ho Hc.
    + split; [by right|]. split; [tauto|]. by apply Hc.
    + right. split; [by right|]. by apply Hc.
  - eapply set_job_wf; eauto; try done. by apply closed_error_ok.
Qed.

Lemma requeue_wf j row :
  sd_jobs db !! jb_job_id j = Some j → sd_shares db !! jb_share_id j = Some row →
  jb_operation j = UPSERT → jb_index_version j = sg_index_version row →
  public_ready row = true →
  shares_wf t (set_job (requeued_job t j) (set_share (requeued_share t row) db)).
Proof.
  intros Hj Hr Hop Hv Hpr. pose proof (wf_shares _ _ Hwf _ _ Hr) as [K _ _ _ _ _].
  apply andb_true_iff in Hpr as [Hpub%bool_decide_eq_true _].
  eapply set_both_wf; eauto; try done.
  - unfold job_ok. cbn. rewrite !andb_true_iff. tauto.
  - cbn. congruence.
  - split; [by left|]. split; [done|]. by eapply (replaced_current _ _ row _ j (requeued_job t j)).
Qed.

(** A fresh version's job: no job has that version yet. *)
Lemma no_later_job s row : sd_shares db !! s = Some row →
  ∀ op k j, sd_jobs db !! k = Some j → of_version s op (sg_index_version row + 1) j = false.
Proof.
  intros Hr op k j Hj. apply not_true_iff_false. rewrite of_version_iff. intros (Hs & _ & Hv).
  destruct (jw_share _ _ _ (wf_jobs _ _ Hwf _ _ Hj)) as (r & H1 & H2 & _). rewrite Hs, Hr in H1.
  injection H1 as <-. lia.
Qed.

Lemma superseded_lookup s k j : sd_jobs db !! k = Some j →
  superseded s t (sd_jobs db) !! k = Some (if old_upsert s t j then close_job JOB_SUCCEEDED None t j else j).
Proof. intros Hj. unfold superseded. by rewrite lookup_fmap, Hj. Qed.

Lemma stage_wf s row draft job_id :
  draft_ok draft = true → sd_shares db !! s = Some row → sd_jobs db !! job_id = None →
  of_author_session (pd_author_user_id draft) (pd_source_session_id draft) row = true →
  shares_wf t (set_job (new_job job_id s UPSERT (sg_index_version row + 1) t)
    (mkShareDb (<[s := staged draft (sg_index_version row + 1) t row]> (sd_shares db))
       (superseded s t (sd_jobs db)) (sd_likes db))).
Proof.
  intros Hd Hr Hf Hslot. apply of_author_session_iff in Hslot.
  destruct (wf_shares _ _ Hwf _ _ Hr) as [K _ V _ _ L].
  set (row' := staged draft (sg_index_version row + 1) t row).
  set (nj := new_job job_id s UPSERT (sg_index_version row + 1) t).
  refine (guide_change_wf t0 t db s row' _ (Some nj) (sd_likes db) Hwf Ht _). split; try done.
  - unfold row'. cbn. lia.
  - intros r0. rewrite Hr. intros [= <-]. unfold row'. cbn. split; [lia|]. by rewrite Hslot.
  - congruence.
  - intros k j Hj Hs _ Hv. exfalso. unfold row' in Hv. cbn in Hv.
    pose proof (no_later_job s row Hr (jb_operation j) k j Hj) as Hn. apply not_true_iff_false in Hn.
    apply Hn, of_version_iff. done.
  - exists t. done.
  - split; [by left|]. split; [done|]. exists job_id, nj. cbn. rewrite lookup_insert_eq. done.
  - apply superseded_change.
  - intros j [= <-]. split; try done.
    + unfold job_ok. cbn. rewrite !andb_true_iff, Z.leb_le. split_and!; [lia|done..].
    + intros k j Hj. by eapply no_later_job.
  - intros u Hu. destruct (wf_likes _ _ Hwf _ _ Hu) as (r1 & H1 & H2). unfold row'. cbn.
    unfold slot in Hslot. rewrite Hr in H1. injection H1 as <-. congruence.
Qed.

Lemma withdraw_wf s row job_id :
  sd_shares db !! s = Some row → sd_jobs db !! job_id = None → sg_publication_status row ≠ UNPUBLISHED →
  shares_wf t (set_job (new_job job_id s DELETE (sg_index_version row) t)
    (mkShareDb (<[s := withdrawn t row]> (sd_shares db)) (superseded s t (sd_jobs db)) (sd_likes db))).
Proof.
  intros Hr Hf Hp. destruct (wf_shares _ _ Hwf _ _ Hr) as [K D V _ (p & Hpp & Hpt & Hpi) L].
  set (nj := new_job job_id s DELETE (sg_index_version row) t).
  refine (guide_change_wf t0 t db s (withdrawn t row) _ (Some nj) (sd_likes db) Hwf Ht _). split; try done.
  - intros r0. rewrite Hr. intros [= <-]. split; [cbn; lia|done].
  - congruence.
  - exists p. cbn. split; [done|]. split; [lia|done].
  - right. split; [by left|]. exists job_id, nj. cbn. rewrite lookup_insert_eq. done.
  - apply superseded_change.
  - intros j [= <-]. split; try done.
    + unfold job_ok. cbn. rewrite !andb_true_iff, Z.leb_le. split_and!; [lia|done..].
    + intros k j Hj. apply not_true_iff_false. rewrite of_version_iff. intros (Hs & Ho & Hv).
      destruct (jw_share _ _ _ (wf_jobs _ _ Hwf _ _ Hj)) as (r & H1 & _ & H3). rewrite Hs, Hr in H1.
      injection H1 as <-. auto.
  - intros u Hu. destruct (wf_likes _ _ Hwf _ _ Hu) as (r1 & H1 & H2).
    rewrite Hr in H1. by injection H1 as <-.
Qed.

Lemma create_wf share_id job_id draft :
  draft_ok draft = true → sd_shares db !! share_id = None → sd_jobs db !! job_id = None →
  (∀ k r, sd_shares db !! k = Some r →
     of_author_session (pd_author_user_id draft) (pd_source_session_id draft) r = false) →
  shares_wf t (set_job (new_job job_id share_id UPSERT 1 t) (set_share (new_record share_id draft t) db)).
Proof.
  intros Hd Hs Hf Hslot. set (nj := new_job job_id share_id UPSERT 1 t).
  assert (Hnone : ∀ k j, sd_jobs db !! k = Some j → jb_share_id j ≠ share_id).
  { intros k j Hj He. destruct (jw_share _ _ _ (wf_jobs _ _ Hwf _ _ Hj)) as (r & H1 & _). congruence. }
  assert (E : set_job nj (set_share (new_record share_id draft t) db)
    = mkShareDb (<[share_id := new_record share_id draft t]> (sd_shares db))
        (with_job (Some nj) (id <$> sd_jobs db)) (sd_likes db)).
  { unfold set_job, set_share. cbn. by rewrite map_fmap_id. }
  rewrite E. refine (guide_change_wf t0 t db share_id _ _ _ _ Hwf Ht _). split; try done.
  - intros r0. by rewrite Hs.
  - intros _ k r Hr He. specialize (Hslot _ _ Hr). apply not_true_iff_false in Hslot.
    by apply Hslot, of_author_session_iff.
  - intros k j Hj He. by destruct (Hnone _ _ Hj).
  - exists t. done.
  - split; [by left|]. split; [done|]. exists job_id, nj. cbn. rewrite lookup_insert_eq. done.
  - intros j [= <-]. split; try done.
    intros k j Hj. apply not_true_iff_false. rewrite of_version_iff. intros (He & _). by destruct (Hnone _ _ Hj).
  - cbn. symmetry. apply Z2Nat.inj; [lia..|]. rewrite Nat2Z.id. apply map_size_empty_iff, map_empty.
    intros [s u]. apply option_eq. intros d. rewrite map_lookup_filter_Some. cbn.
    split; [|done]. intros [Hl ->]. destruct (wf_likes _ _ Hwf share_id u) as (r & H1 & _); [eauto|congruence].
  - intros u Hu. destruct (wf_likes _ _ Hwf _ _ Hu) as (r & H1 & _). congruence.
Qed.

(** Liking: the count follows the table. *)
Lemma likes_change_wf s row n likes' :
  sd_shares db !! s = Some row → likes_off s (sd_likes db) likes' →
  n = Z.of_nat (size (filter (fun e : string * string * datetime => e.1.1 = s) likes')) →
  (∀ u, is_Some (likes' !! (s, u)) → pd_author_user_id (sg_draft row) ≠ u) →
  shares_wf t (mkShareDb (<[s := row <| sg_like_count := n |>]> (sd_shares db)) (sd_jobs db) likes').
Proof.
  intros Hr Hoff Hn Hu. destruct (wf_shares _ _ Hwf _ _ Hr) as [K D V S (p & Hpp & Hpt & Hpi) L].
  assert (E : mkShareDb (<[s := row <| sg_like_count := n |>]> (sd_shares db)) (sd_jobs db) likes'
    = mkShareDb (<[s := row <| sg_like_count := n |>]> (sd_shares db))
        (with_job None (id <$> sd_jobs db)) likes') by (cbn; by rewrite map_fmap_id).
  rewrite E. refine (guide_change_wf t0 t db s _ _ _ _ Hwf Ht _). split; try done.
  - intros r0. rewrite Hr. intros [= <-]. split; [cbn; lia|done].
  - congruence.
  - intros k j Hj Hs Ho Hv. destruct (jw_share _ _ _ (wf_jobs _ _ Hwf _ _ Hj)) as (r1 & H1 & _ & H3).
    rewrite Hs, Hr in H1. injection H1 as <-. by apply H3.
  - exists p. cbn. split; [done|]. split; [lia|done].
  - cbn. rewrite map_fmap_id. exact S.
Qed.
End Preserve.

Lemma share_step_wf actor t0 t db db' :
  shares_wf t0 db → t0 <= t → share_step actor t db db' → shares_wf t db'.
Proof.
  intros Hwf Ht Hs. destruct Hs.
  - by eapply shares_wf_later.
  - by eapply create_wf.
  - by eapply stage_wf.
  - by eapply withdraw_wf.
  - by eapply job_step_wf.
  - by eapply complete_wf.
  - by eapply fail_wf.
  - by eapply expire_wf.
  - by eapply requeue_wf.
  - assert (Hrow := wf_shares _ _ Hwf _ _ H). eapply likes_change_wf; try done.
    + intros s' u Hne. rewrite lookup_insert_ne; [done|congruence].
    + rewrite map_filter_insert_True by done. rewrite map_size_insert_None.
      * rewrite (sw_likes _ _ _ _ Hrow). lia.
      * apply map_lookup_filter_None. by left.
    + intros u. destruct (decide (u = user_id)) as [->|Hne]; [done|].
      rewrite lookup_insert_ne by congruence. intros Hu. destruct (wf_likes _ _ Hwf _ _ Hu) as (r & H3 & H4). congruence.
  - assert (Hrow := wf_shares _ _ Hwf _ _ H). destruct H0 as [d Hd]. eapply likes_change_wf; try done.
    + intros s' u Hne. rewrite lookup_delete_ne; [done|congruence].
    + rewrite (sw_likes _ _ _ _ Hrow).
      set (F := filter (fun e : string * string * datetime => e.1.1 = share_id) (sd_likes db)).
      assert (HF : F !! (share_id, user_id) = Some d) by (by apply map_lookup_filter_Some).
      rewrite map_filter_delete. fold F. rewrite map_size_delete_Some by eauto.
      assert (size F ≠ 0%nat) by (intros E%map_size_empty_iff; by rewrite E in HF).
      destruct (Z.ltb_spec 0 (Z.of_nat (size F))); lia.
    + intros u Hu. assert (is_Some (sd_likes db !! (share_id, u))) as Hu'.
      { destruct Hu as [x Hx]. apply lookup_delete_Some in Hx as [_ Hx]. eauto. }
      destruct (wf_likes _ _ Hwf _ _ Hu') as (r & H3 & H4). congruence.
Qed.
