(* ===== verification/SharedStoreProofs.v ===== *)
(** The sharing store refines its specification: every method takes the tables
    through [share_step]s, so they stay well formed ([shared_tables_wf]). *)

From S2P Require Import Prelude PyData TripSchema SharedGuides SharedStore SharedLifecycle.
From Stdlib Require Import ZArith QArith Lia String.
From stdpp Require Import base tactics option list gmap strings relations.

Open Scope string_scope.
Open Scope Z_scope.

(** ** The calls of the store's clients *)

Inductive ShareCall :=
| CreatePublishIntent (draft : SharePublishDraft) (new_share_id new_job_id : string)
| StageUpdate (share_id author_user_id : string) (draft : SharePublishDraft) (allow : bool)
    (version : option Z) (hash : option string) (published indexed : option datetime) (new_job_id : string)
| StageUnpublish (share_id author_user_id new_job_id : string)
| ClaimIndexJob (job_id worker_id : string) (lease_seconds : Q)
| ClaimNextIndexJob (worker_id : string) (lease_seconds : Q) (max_attempts : Z) (locked : string → bool)
| CompleteIndexOperation (job_id share_id : string) (index_version : Z) (operation : IndexOperation)
    (worker_id : string)
| RecordIndexFailure (job_id share_id : string) (index_version : Z) (operation : IndexOperation)
    (error : option string) (worker_id : string) (next_retry_at : option datetime) (terminal : bool)
| RecordIndexJobFailure (job_id share_id : string) (index_version : Z) (operation : IndexOperation)
    (error : option string) (worker_id : string) (next_retry_at : option datetime) (terminal : bool)
| SupersedeIndexJob (job_id : string) (worker_id : option string)
| RequeueCurrentUpsert (share_id : string) (index_version : Z) (content_hash : string)
| PutLike (share_id user_id : string)
| DeleteLike (share_id user_id : string).

Definition commit {A : Type} (body : result share_error (A * ShareDb)) (db : ShareDb) : ShareDb :=
  match body with Ok (_, db') => db' | Err _ => db end.

(** The worker whose lease a call takes or relies on. *)
Definition call_actor (c : ShareCall) : option string :=
  match c with
  | ClaimIndexJob _ w _ => Some (py_strip w)
  | ClaimNextIndexJob w _ _ _ => Some (py_strip w)
  | CompleteIndexOperation _ _ _ _ w => Some w
  | RecordIndexFailure _ _ _ _ _ w _ _ => Some w
  | RecordIndexJobFailure _ _ _ _ _ w _ _ => Some w
  | _ => None
  end.

(** Drafts are validated before they reach the store. *)
Definition call_ok (c : ShareCall) : bool :=
  match c with
  | CreatePublishIntent draft _ _ => draft_ok draft
  | StageUpdate _ _ draft _ _ _ _ _ _ => draft_ok draft
  | _ => true
  end.

Section Exec.
Context (known_user : string → bool).

Definition share_exec (c : ShareCall) (now : datetime) (db : ShareDb) : ShareDb :=
  match c with
  | CreatePublishIntent draft s j => commit (create_publish_intent known_user draft now s j db) db
  | StageUpdate s a draft allow v h p i j => commit (stage_update s a draft now allow v h p i j db) db
  | StageUnpublish s a j => commit (stage_unpublish s a now j db) db
  | ClaimIndexJob j w lease => commit (claim_index_job j w now lease db) db
  | ClaimNextIndexJob w lease m locked =>
      match claim_next_index_job w now lease m locked db with Some (_, db') => db' | None => db end
  | CompleteIndexOperation j s v op w => (complete_index_operation j s v op w now db).2
  | RecordIndexFailure j s v op e w retry terminal =>
      commit (record_index_failure j s v op e w retry terminal now db) db
  | RecordIndexJobFailure j s v op e w retry terminal =>
      commit (record_index_job_failure j s v op e w retry terminal now db) db
  | SupersedeIndexJob j w => (supersede_index_job j w now db).2
  | RequeueCurrentUpsert s v h => commit (requeue_current_upsert s v h now db) db
  | PutLike s u => commit (put_like known_user s u now db) db
  | DeleteLike s u => commit (delete_like s u db) db
  end.
End Exec.

(** ** The methods as steps *)

Lemma elem_of_share_rows db r : r ∈ share_rows db ↔ ∃ k, sd_shares db !! k = Some r.
Proof.
  unfold share_rows. rewrite list_elem_of_fmap. split.
  - intros ([k x] & -> & Hx%elem_of_map_to_list). eauto.
  - intros [k Hk]. exists (k, r). split; [done|by apply elem_of_map_to_list].
Qed.

Lemma elem_of_job_rows db j : j ∈ job_rows db ↔ ∃ k, sd_jobs db !! k = Some j.
Proof.
  unfold job_rows. rewrite list_elem_of_fmap. split.
  - intros ([k x] & -> & Hx%elem_of_map_to_list). eauto.
  - intros [k Hk]. exists (k, j). split; [done|by apply elem_of_map_to_list].
Qed.

Lemma one_or_none_Some {A} (P : A → Prop) `{∀ x, Decision (P x)} l x :
  one_or_none (filter P l) = Ok (Some x) → x ∈ l ∧ P x.
Proof.
  destruct (filter P l) as [|y [|z k]] eqn:E; cbn; try done. intros [= <-].
  assert (Hy : y ∈ filter P l) by (rewrite E; left). apply list_elem_of_filter in Hy. tauto.
Qed.

Lemma one_or_none_None {A} (P : A → Prop) `{∀ x, Decision (P x)} l :
  one_or_none (filter P l) = Ok None → ∀ x, x ∈ l → ¬ P x.
Proof.
  destruct (filter P l) as [|y [|z k]] eqn:E; cbn; try done. intros _ x Hx HP.
  assert (Hy : x ∈ filter P l) by (by apply list_elem_of_filter). rewrite E in Hy. by apply elem_of_nil in Hy.
Qed.

Lemma existsb_rows_false {A} (f : A → bool) (m : gmap string A) :
  existsb f (map_to_list m).*2 = false → ∀ k x, m !! k = Some x → f x = false.
Proof.
  intros Hf k x Hx. apply not_true_iff_false. intros Ht. apply not_true_iff_false in Hf. apply Hf, existsb_exists.
  exists x. split; [|done]. apply list_elem_of_In, list_elem_of_fmap. exists (k, x).
  split; [done|by apply elem_of_map_to_list].
Qed.

Lemma update_share_true s P f db db' : update_share s P f db = (true, db') →
  ∃ r, sd_shares db !! s = Some r ∧ P r = true
       ∧ db' = mkShareDb (<[s := f r]> (sd_shares db)) (sd_jobs db) (sd_likes db).
Proof.
  unfold update_share. destruct (sd_shares db !! s) as [r|]; [|done].
  destruct (P r) eqn:E; [|done]. intros [= <-]. eauto.
Qed.

Lemma update_job_true k P f db db' : update_job k P f db = (true, db') →
  ∃ j, sd_jobs db !! k = Some j ∧ P j = true
       ∧ db' = mkShareDb (sd_shares db) (<[k := f j]> (sd_jobs db)) (sd_likes db).
Proof.
  unfold update_job. destruct (sd_jobs db !! k) as [j|]; [|done].
  destruct (P j) eqn:E; [|done]. intros [= <-]. eauto.
Qed.

Lemma update_job_false k P f db db' : update_job k P f db = (false, db') → db' = db.
Proof. unfold update_job. destruct (sd_jobs db !! k) as [j|]; [destruct (P j)|]; congruence. Qed.

Lemma insert_job_Ok id s op v now db j db' : insert_job id s op v now db = Ok (j, db') →
  j = new_job id s op v now ∧ sd_jobs db !! id = None ∧ db' = set_job (new_job id s op v now) db.
Proof.
  unfold insert_job. destruct (negb _); [done|].
  destruct (_ || _) eqn:E; [done|]. intros [= <- <-]. split; [done|].
  apply orb_false_iff in E as [[E%bool_decide_eq_false _]%orb_false_iff _].
  split; [|done]. destruct (sd_jobs db !! id); [|done]. exfalso. apply E. eauto.
Qed.

Lemma supersede_Ok s now reject db db' : supersede_old_upserts s now reject db = Ok db' →
  db' = mkShareDb (sd_shares db) (superseded s now (sd_jobs db)) (sd_likes db).
Proof. unfold supersede_old_upserts. destruct (_ && _); [done|]. by intros [= <-]. Qed.

Lemma superseded_None s now jobs k : superseded s now jobs !! k = None ↔ jobs !! k = None.
Proof. unfold superseded. rewrite lookup_fmap. by destruct (jobs !! k). Qed.

Section Refine.
Context (t0 now : datetime) (db : ShareDb) (Hwf : shares_wf t0 db).

Lemma row_valid k r : sd_shares db !! k = Some r → sg_share_id r = k ∧ record_from_row r = Ok r.
Proof.
  intros Hr. destruct (wf_shares _ _ Hwf _ _ Hr) as [K D V S (p & Hp & _ & Hi) L].
  split; [done|]. unfold record_from_row.
  assert (record_ok r = true) as ->; [|done]. unfold record_ok.
  rewrite D, (proj2 (Z.leb_le _ _) V). cbn [andb].
  rewrite (proj2 (Z.leb_le _ _)) by lia. cbn [andb]. unfold timestamps_ok. rewrite Hp.
  revert S. unfold state_wf. destruct (sg_indexed_at r) as [i|] eqn:E.
  - specialize (Hi i eq_refl). rewrite (proj2 (Z.leb_le _ _)) by done.
    destruct (sg_publication_status r), (sg_index_status r); cbn; naive_solver.
  - destruct (sg_publication_status r), (sg_index_status r); cbn; naive_solver.
Qed.

Lemma job_valid k j : sd_jobs db !! k = Some j → jb_job_id j = k ∧ job_from_row j = Ok j.
Proof.
  intros Hj. destruct (wf_jobs _ _ Hwf _ _ Hj) as [K Hok _ _]. split; [done|].
  unfold job_from_row. by rewrite Hok.
Qed.

Lemma stage_step row draft allow expected new_job_id i db' :
  draft_ok draft = true → sd_shares db !! sg_share_id row = Some row →
  of_author_session (pd_author_user_id draft) (pd_source_session_id draft) row = true →
  stage_new_upsert row draft now allow expected new_job_id db = Ok (i, db') → share_step None now db db'.
Proof.
  intros Hd Hr Hs. unfold stage_new_upsert.
  destruct (supersede_old_upserts _ _ _ _) as [db0|] eqn:E0; [|done]. apply supersede_Ok in E0 as ->.
  cbn [mbind result_bind]. destruct (update_share _ _ _ _) as [[] db1] eqn:E; [|done].
  apply update_share_true in E as (r & Hr1 & _ & ->). cbn [sd_shares] in Hr1.
  rewrite Hr in Hr1. injection Hr1 as <-.
  destruct (insert_job _ _ _ _ _ _) as [[j db2]|e] eqn:Ej; [|done]. cbn [mbind result_bind].
  apply insert_job_Ok in Ej as (-> & Hf & ->). cbn [sd_jobs] in Hf. apply superseded_None in Hf.
  destruct (record_from_row _); [|done]. cbn [mbind result_bind]. intros [= _ <-]. by apply ss_stage.
Qed.

Lemma create_share_step known_user draft s j i db' : draft_ok draft = true →
  create_share known_user draft now s j db = Ok (i, db') → share_step None now db db'.
Proof.
  intros Hd. unfold create_share, select_author_session.
  destruct (one_or_none _) as [[row|]|e] eqn:E; [| |done]; cbn [mbind result_bind].
  - apply one_or_none_Some in E as [[k Hr]%elem_of_share_rows Hs]. destruct (row_valid _ _ Hr) as [Hk Hv].
    rewrite Hv. cbn [mbind result_bind]. destruct (bool_decide _).
    + eapply stage_step; [done|by rewrite Hk|done].
    + destruct (negb _); [done|]. destruct (public_ready row); [intros [= _ <-]; constructor|].
      destruct (find_version_job _ _ _ _) as [x|]; [|done]. cbn. intros [= _ <-]. constructor.
  - pose proof (one_or_none_None _ _ E) as Hnone. unfold insert_share. cbn [new_record sg_share_id sg_draft].
    destruct (_ || _) eqn:Hc; [done|]. apply orb_false_iff in Hc as [[Hc _]%orb_false_iff _].
    cbn [mbind result_bind]. destruct (insert_job _ _ _ _ _ _) as [[x db2]|e] eqn:Ej; [|done].
    apply insert_job_Ok in Ej as (-> & Hf & ->). cbn [mbind result_bind].
    destruct (record_from_row _); [|done]. cbn. intros [= _ <-].
    refine (ss_create None now db s j draft Hd _ Hf _).
    + apply bool_decide_eq_false in Hc. destruct (sd_shares db !! s); [|done]. exfalso. apply Hc. eauto.
    + intros k r Hr. apply not_true_iff_false, Hnone, elem_of_share_rows. eauto.
Qed.

Lemma create_publish_step known_user draft s j i db' : draft_ok draft = true →
  create_publish_intent known_user draft now s j db = Ok (i, db') → share_step None now db db'.
Proof.
  intros Hd. unfold create_publish_intent. destruct (create_share _ _ _ _ _ _) as [[x db1]|e] eqn:E.
  - intros [= <- <-]. by eapply create_share_step.
  - destruct e; try done. destruct (select_author_session _ _ _) as [[row|]|]; try done. cbn [mbind result_bind].
    destruct (record_from_row row); [|done]. cbn [mbind result_bind]. destruct (String.eqb _ _); [|done].
    destruct (find_version_job _ _ _ _) as [x|]; [|done]. cbn. intros [= _ <-]. constructor.
Qed.

Lemma select_owned_Some s a r : select_owned s a db = Some r →
  sd_shares db !! s = Some r ∧ pd_author_user_id (sg_draft r) = a.
Proof.
  unfold select_owned. destruct (sd_shares db !! s) as [x|]; [|done]. cbn.
  destruct (String.eqb_spec (pd_author_user_id (sg_draft x)) a); [|done]. by intros [= <-].
Qed.

Lemma stage_update_step s a draft allow v h p x j i db' : draft_ok draft = true →
  stage_update s a draft now allow v h p x j db = Ok (i, db') → share_step None now db db'.
Proof.
  intros Hd. unfold stage_update. destruct (String.eqb_spec (pd_author_user_id draft) a) as [Ha|]; [|done]. cbn [negb].
  destruct (select_owned s a db) as [row|] eqn:E; [|done]. apply select_owned_Some in E as [Hr Hra].
  destruct (validate_expected _ _ _ _ _) as [exp|]; [|done]. cbn [mbind result_bind].
  destruct (String.eqb_spec (pd_source_session_id (sg_draft row)) (pd_source_session_id draft)) as [Hs|]; [|done].
  cbn [negb]. destruct (bool_decide _); [done|]. destruct (row_valid _ _ Hr) as [Hk _].
  eapply stage_step; [done|by rewrite Hk|]. apply of_author_session_iff. unfold slot. congruence.
Qed.

Lemma stage_unpublish_step s a j i db' :
  stage_unpublish s a now j db = Ok (i, db') → share_step None now db db'.
Proof.
  unfold stage_unpublish. destruct (select_owned s a db) as [row|] eqn:E; [|done].
  apply select_owned_Some in E as [Hr _]. destruct (row_valid _ _ Hr) as [Hk Hv]. rewrite Hv.
  clear Hv. cbn [mbind result_bind]. case_bool_decide as Hp; [intros [= _ <-]; constructor|].
  destruct (supersede_old_upserts _ _ _ _) as [db0|] eqn:E0; [|done]. apply supersede_Ok in E0 as ->.
  cbn [mbind result_bind]. destruct (update_share _ _ _ _) as [[] db1] eqn:E; [|done].
  apply update_share_true in E as (r & Hr1 & _ & ->). cbn [sd_shares] in Hr1.
  rewrite Hr in Hr1. injection Hr1 as <-.
  destruct (insert_job _ _ _ _ _ _) as [[x db2]|e] eqn:Ej; [|done]. cbn [mbind result_bind].
  apply insert_job_Ok in Ej as (-> & Hf & ->). cbn [sd_jobs] in Hf. apply superseded_None in Hf.
  destruct (record_from_row _); [|done]. cbn [mbind result_bind]. intros [= _ <-]. by apply ss_withdraw.
Qed.

(** A claim takes a due job; its guide is there because of the foreign key. *)
Lemma claim_move k j worker until : sd_jobs db !! k = Some j → py_len worker <= 128 → job_due now j = true →
  share_step (Some worker) now db (set_job (lease_job worker until now j) db).
Proof.
  intros Hj Hw Hdue. destruct (job_valid _ _ Hj) as [Hk _].
  destruct (jw_share _ _ _ (wf_jobs _ _ Hwf _ _ Hj)) as (r & Hr & _).
  eapply ss_job; [by rewrite Hk|exact Hr|]. by eapply jm_claim.
Qed.

Lemma check_claim_Ok w lease w' : check_claim w lease = Ok w' → w' = py_strip w ∧ py_len w' <= 128.
Proof.
  unfold check_claim. cbv zeta. destruct (_ || _) eqn:E; [done|]. destruct (Qle_bool _ _); [done|].
  intros [= <-]. split; [done|]. apply orb_false_iff in E as [_ E%Z.ltb_ge]. lia.
Qed.

Lemma set_job_at k (j : ShareIndexJob) : jb_job_id j = k →
  mkShareDb (sd_shares db) (<[k := j]> (sd_jobs db)) (sd_likes db) = set_job j db.
Proof. by intros <-. Qed.

Lemma claim_index_job_step k w lease x db' :
  claim_index_job k w now lease db = Ok (x, db') → share_step (Some (py_strip w)) now db db'.
Proof.
  unfold claim_index_job. destruct (check_claim w lease) as [w'|] eqn:E; [|done].
  apply check_claim_Ok in E as [-> Hw]. cbn [mbind result_bind].
  destruct (sd_jobs db !! k) as [j|] eqn:Hj; [|intros [= _ <-]; constructor].
  destruct (job_valid _ _ Hj) as [Hk Hv]. rewrite Hv. clear Hv. cbn [mbind result_bind].
  destruct (job_due now j) eqn:Hdue; cbn [negb]; [|intros [= _ <-]; constructor].
  destruct (update_job _ _ _ _) as [[] db1] eqn:E.
  - apply update_job_true in E as (j1 & Hj1 & _ & ->). assert (j1 = j) as -> by congruence.
    destruct (job_from_row _); [|done]. cbn. intros [= _ <-].
    rewrite set_job_at by done. by eapply claim_move.
  - apply update_job_false in E as ->. intros [= _ <-]. constructor.
Qed.

(** The guide of a job, found by the key of either. *)
Lemma job_guide k j : sd_jobs db !! k = Some j →
  jb_job_id j = k ∧ ∃ r, sd_shares db !! jb_share_id j = Some r ∧ sg_share_id r = jb_share_id j.
Proof.
  intros Hj. destruct (job_valid _ _ Hj) as [Hk _]. split; [done|].
  destruct (jw_share _ _ _ (wf_jobs _ _ Hwf _ _ Hj)) as (r & Hr & _). exists r. split; [done|]. by destruct (row_valid _ _ Hr).
Qed.

Lemma leased_job_Some k s v op w j : leased_job k s v op w now db = Some j →
  sd_jobs db !! k = Some j ∧ jb_share_id j = s ∧ jb_operation j = op ∧ jb_index_version j = v
  ∧ lease_matches w now j = true.
Proof.
  unfold leased_job. destruct (sd_jobs db !! k) as [x|]; [|done]. cbn.
  destruct (of_version s op v x && lease_matches w now x) eqn:E; [|done]. intros [= <-].
  apply andb_true_iff in E as [E1%of_version_iff E2]. tauto.
Qed.

(** An operation's end: nothing, or the guide and the job of a valid lease. *)
Lemma end_operation_cases k s v op w f g :
  end_operation k s v op w now f g db = (false, db)
  ∨ ∃ j row, sd_jobs db !! k = Some j ∧ sd_shares db !! s = Some row ∧ jb_share_id j = s ∧ jb_operation j = op
      ∧ jb_index_version j = sg_index_version row ∧ operation_open op row = true ∧ lease_matches w now j = true
      ∧ end_operation k s v op w now f g db
        = (true, mkShareDb (<[s := f row]> (sd_shares db)) (<[k := g j]> (sd_jobs db)) (sd_likes db)).
Proof.
  unfold end_operation, select_share. destruct (sd_shares db !! s) as [row|] eqn:Hr; [|by left].
  destruct (Z.eqb_spec (sg_index_version row) v) as [Hv|]; cbn [negb]; [|by left].
  destruct (leased_job _ _ _ _ _ _ _) as [j|] eqn:Hl; [|by left].
  apply leased_job_Some in Hl as (Hj & Hs & Ho & Hjv & Hl).
  destruct (update_share _ _ _ _) as [[] db1] eqn:E; [|by left].
  apply update_share_true in E as (r & Hr1 & HP & ->). rewrite Hr in Hr1. injection Hr1 as <-.
  apply andb_true_iff in HP as [_ HP].
  destruct (update_job _ _ _ _) as [[] db2] eqn:E; [|by left].
  apply update_job_true in E as (j1 & Hj1 & _ & ->). cbn [sd_jobs] in Hj1. rewrite Hj in Hj1. injection Hj1 as <-.
  right. exists j, row. split_and!; try done. by subst.
Qed.

Lemma end_operation_db k s j row : jb_job_id j = k → sg_share_id row = s →
  mkShareDb (<[s := row]> (sd_shares db)) (<[k := j]> (sd_jobs db)) (sd_likes db) = set_job j (set_share row db).
Proof. by intros <- <-. Qed.

Lemma complete_step k s v op w :
  share_step (Some w) now db (complete_index_operation k s v op w now db).2.
Proof.
  unfold complete_index_operation.
  destruct (end_operation_cases k s v op w (completed op now)
    (fun j => with_error None (close_job JOB_SUCCEEDED None now j)))
    as [->|(j & row & Hj & Hr & Hs & Ho & Hv & Hop & Hl & ->)]; [constructor|]. cbn [snd].
  destruct (job_valid _ _ Hj) as [Hk _], (row_valid _ _ Hr) as [Hrk _].
  rewrite end_operation_db; [|done|by destruct op]. subst op.
  eapply ss_complete; try done; [by rewrite Hk|by rewrite Hs].
Qed.

Lemma record_failure_step k s v op e w retry terminal b db' :
  record_index_failure k s v op e w retry terminal now db = Ok (b, db') → share_step (Some w) now db db'.
Proof.
  unfold record_index_failure. destruct (check_failure _ _); [|done]. cbn [mbind result_bind].
  destruct (end_operation_cases k s v op w (failed_share op (sanitize_error e) terminal now)
    (failed_job (sanitize_error e) retry terminal now))
    as [->|(j & row & Hj & Hr & Hs & Ho & Hv & Hop & Hl & ->)]; intros [= _ <-]; [constructor|].
  destruct (job_valid _ _ Hj) as [Hk _], (row_valid _ _ Hr) as [Hrk _].
  rewrite end_operation_db; [|by destruct terminal|done]. subst op.
  eapply ss_fail; try done; [by rewrite Hk|by rewrite Hs].
Qed.

Lemma record_job_failure_step k s v op e w retry terminal b db' :
  record_index_job_failure k s v op e w retry terminal now db = Ok (b, db') → share_step (Some w) now db db'.
Proof.
  unfold record_index_job_failure. destruct (check_failure _ _); [|done]. cbn [mbind result_bind].
  destruct (select_share s db); [|intros [= _ <-]; constructor].
  destruct (leased_job _ _ _ _ _ _ _) as [j|] eqn:Hl; [|intros [= _ <-]; constructor].
  apply leased_job_Some in Hl as (Hj & Hs & Ho & Hjv & Hl).
  destruct (update_job _ _ _ _) as [[] db2] eqn:E; [|intros [= _ <-]; constructor].
  apply update_job_true in E as (j1 & Hj1 & _ & ->). rewrite Hj in Hj1. injection Hj1 as <-. intros [= _ <-].
  destruct (job_guide _ _ Hj) as [Hk (r & Hr & _)].
  rewrite set_job_at by (by destruct terminal).
  eapply ss_job; [by rewrite Hk|exact Hr|]. by eapply jm_fail.
Qed.

Lemma supersede_step k w : share_step None now db (supersede_index_job k w now db).2.
Proof.
  unfold supersede_index_job. destruct (sd_jobs db !! k) as [j|] eqn:Hj; [|constructor].
  destruct (sd_shares db !! jb_share_id j) as [r|] eqn:Hr; [|constructor].
  destruct (supersede_allowed w now j) eqn:Ha; cbn [negb]; [|constructor].
  destruct (job_effect_is_obsolete r j) eqn:Ho; cbn [negb]; [|constructor].
  destruct (update_job _ _ _ _) as [[] db2] eqn:E; [|apply update_job_false in E as ->; constructor].
  apply update_job_true in E as (j1 & Hj1 & _ & ->). rewrite Hj in Hj1. injection Hj1 as <-. cbn [snd].
  destruct (job_valid _ _ Hj) as [Hk _]. rewrite set_job_at by done.
  eapply ss_job; [by rewrite Hk|exact Hr|]. apply jm_supersede; [|done].
  revert Ha. unfold supersede_allowed, expired_running. destruct w as [w|].
  - intros Hl%lease_running. by right.
  - rewrite orb_true_iff, andb_true_iff, !bool_decide_eq_true. tauto.
Qed.

Lemma requeue_step s v h b db' :
  requeue_current_upsert s v h now db = Ok (b, db') → share_step None now db db'.
Proof.
  unfold requeue_current_upsert, select_share. destruct (sd_shares db !! s) as [r|] eqn:Hr; [|intros [= _ <-]; constructor].
  destruct (_ && _ && public_ready r) eqn:Hc; cbn [negb]; [|intros [= _ <-]; constructor].
  apply andb_true_iff in Hc as [[Hv%Z.eqb_eq _]%andb_true_iff Hpr].
  destruct (one_or_none _) as [[j|]|] eqn:E; [| |done]; cbn [mbind result_bind]; [|intros [= _ <-]; constructor].
  apply one_or_none_Some in E as [[k Hj]%elem_of_job_rows Hf].
  apply andb_true_iff in Hf as [(Hs & Ho & Hjv)%of_version_iff Hst%bool_decide_eq_true].
  destruct (update_share _ _ _ _) as [[] db1] eqn:E; [|intros [= _ <-]; constructor].
  apply update_share_true in E as (r1 & Hr1 & _ & ->). rewrite Hr in Hr1. injection Hr1 as <-.
  destruct (job_valid _ _ Hj) as [Hk _], (row_valid _ _ Hr) as [Hrk _].
  destruct (update_job _ _ _ _) as [[] db2] eqn:E; [|intros [= _ <-]; constructor].
  apply update_job_true in E as (j1 & Hj1 & _ & ->). cbn [sd_jobs] in Hj1. rewrite Hk, Hj in Hj1. injection Hj1 as <-.
  intros [= _ <-]. cbn [sd_shares sd_jobs sd_likes]. rewrite end_operation_db by done.
  eapply ss_requeue; [by rewrite Hk|by rewrite Hs|done|congruence|done|done].
Qed.

Lemma require_public_Ok s r : require_public_ready s db = Ok r → sd_shares db !! s = Some r.
Proof.
  unfold require_public_ready, select_share. destruct (sd_shares db !! s) as [x|]; [|done].
  destruct (public_ready x); [|done]. by intros [= <-].
Qed.

Lemma put_like_step known_user s u x db' : put_like known_user s u now db = Ok (x, db') → share_step None now db db'.
Proof.
  unfold put_like. destruct (require_public_ready s db) as [r|] eqn:E; [|done]. apply require_public_Ok in E as Hr.
  cbn [mbind result_bind]. destruct (String.eqb_spec (pd_author_user_id (sg_draft r)) u) as [|Hu]; [done|].
  cbv zeta. intros [= _ <-]. destruct (bool_decide _ || _) eqn:Hc; [constructor|].
  apply orb_false_iff in Hc as [Hc%bool_decide_eq_false _].
  unfold set_like_count, update_share. cbn [sd_shares overwrite]. rewrite Hr. cbn [snd].
  refine (ss_like None now db s r u Hr Hu _). destruct (sd_likes db !! (s, u)); [|done]. exfalso. apply Hc. eauto.
Qed.

Lemma delete_like_step s u x db' : delete_like s u db = Ok (x, db') → share_step None now db db'.
Proof.
  unfold delete_like. destruct (require_public_ready s db) as [r|] eqn:E; [|done]. apply require_public_Ok in E as Hr.
  cbn [mbind result_bind]. destruct (String.eqb_spec (pd_author_user_id (sg_draft r)) u) as [|Hu]; [done|].
  cbv zeta. intros [= _ <-]. case_bool_decide as Hc; [|constructor].
  unfold set_like_count, update_share. cbn [sd_shares overwrite]. rewrite Hr. cbn [snd].
  exact (ss_unlike None now db s r u Hr Hc).
Qed.
End Refine.

(** ** Claiming *)

(** A guide and a job changed by the round that gives up an expired claim. *)
Lemma terminalize_step t0 now db actor j b db' : shares_wf t0 db →
  sd_jobs db !! jb_job_id j = Some j → expired_running now j = true →
  terminalize_expired_claim j now db = (b, db') → share_step actor now db db'.
Proof.
  intros Hwf Hj He. unfold terminalize_expired_claim, update_share.
  destruct (job_guide t0 db Hwf _ _ Hj) as (_ & r & Hr & Hrk). rewrite Hr.
  generalize (ss_expire actor now db j r Hj Hr He).
  destruct (_ && operation_open _ _); intros Hstep; unfold update_job; cbn [overwrite sd_jobs]; rewrite Hj.
  all: assert (same_job_snapshot j j = true) as ->
    by (unfold same_job_snapshot; rewrite !String.eqb_refl, !bool_decide_true, Z.eqb_refl by done; done).
  all: rewrite He, Z.eqb_refl; cbn [andb]; intros [= _ <-].
  - assert (Hk : sg_share_id (expired_share now r) = jb_share_id j) by exact Hrk.
    rewrite <- (end_operation_db db (jb_job_id j) (jb_share_id j)) in Hstep by done. exact Hstep.
  - exact Hstep.
Qed.

Lemma claim_candidate_due now m j : claim_candidate now m j = true → job_due now j = true.
Proof.
  unfold claim_candidate, job_due. rewrite !orb_true_iff, andb_true_iff. tauto.
Qed.

Lemma oldest_claim_In now m skipped db j : oldest_claim_candidate now m skipped db = Some j →
  (∃ k, sd_jobs db !! k = Some j) ∧ claim_candidate now m j = true ∧ jb_job_id j ∉ skipped.
Proof.
  unfold oldest_claim_candidate. intros Hh. apply head_Some_elem_of in Hh. rewrite py_sorted_perm in Hh.
  apply list_elem_of_filter in Hh as [Hc Hj%elem_of_job_rows].
  apply andb_true_iff in Hc as [Hc Hs%negb_true_iff%bool_decide_eq_false]. done.
Qed.

Lemma claim_round_step t0 now db w lease m locked skipped x db' : shares_wf t0 db → py_len w <= 128 →
  claim_round w now lease m locked skipped db = Ok (x, db') → share_step (Some w) now db db'.
Proof.
  intros Hwf Hw. unfold claim_round. destruct (oldest_claim_candidate _ _ _ _) as [j|] eqn:E; [|intros [= _ <-]; constructor].
  apply oldest_claim_In in E as ([k Hj] & Hc & _). destruct (job_valid t0 db Hwf _ _ Hj) as [Hk _]. subst k.
  destruct (_ || _); [intros [= _ <-]; constructor|]. rewrite Hj.
  destruct (_ || _); [intros [= _ <-]; constructor|].
  destruct (bool_decide (jb_status j = JOB_RUNNING) && _) eqn:Hrun.
  - apply andb_true_iff in Hrun as [Hrun%bool_decide_eq_true Hm%Z.leb_le].
    assert (He : expired_running now j = true).
    { revert Hc. unfold claim_candidate, pending_due. rewrite Hrun. cbn. done. }
    destruct (terminalize_expired_claim j now db) as [[] db1] eqn:E;
      intros [= _ <-]; eapply terminalize_step; eauto.
  - destruct (m <=? jb_attempt_count j); [intros [= _ <-]; constructor|].
    destruct (update_job _ _ _ _) as [[] db1] eqn:E; [|apply update_job_false in E as ->; intros [= _ <-]; constructor].
    apply update_job_true in E as (j1 & Hj1 & _ & ->). rewrite Hj in Hj1. injection Hj1 as <-.
    destruct (job_from_row _); [|done]. cbn [mbind result_bind]. intros [= _ <-].
    rewrite set_job_at by done. eapply claim_move; eauto using claim_candidate_due.
Qed.

(** A run of steps at one instant. *)
Definition share_steps (actor : option string) (now : datetime) : ShareDb → ShareDb → Prop :=
  rtc (share_step actor now).

Lemma share_steps_wf actor t0 now db db' : shares_wf t0 db → t0 <= now →
  share_steps actor now db db' → shares_wf now db'.
Proof.
  intros Hwf Ht Hs. apply (shares_wf_later _ _ _ Hwf) in Ht as Hwf'. clear Hwf Ht.
  induction Hs as [|x y z Hxy Hyz IH]; [done|]. apply IH. eapply share_step_wf; [done|lia|done].
Qed.

Lemma claim_loop_steps t0 now w lease m locked fuel : t0 <= now → py_len w <= 128 →
  ∀ skipped db x db', shares_wf t0 db →
  claim_loop fuel w now lease m locked skipped db = Some (x, db') → share_steps (Some w) now db db'.
Proof.
  intros Ht Hw. assert (G : ∀ skipped db x db', shares_wf now db →
    claim_loop fuel w now lease m locked skipped db = Some (x, db') → share_steps (Some w) now db db').
  { induction fuel as [|fuel IH]; intros skipped db x db' Hwf; [done|]. cbn [claim_loop].
    destruct (claim_round _ _ _ _ _ _ _) as [[o db1]|e] eqn:E; [|intros [= _ <-]; constructor].
    pose proof (claim_round_step _ _ _ _ _ _ _ _ _ _ Hwf Hw E) as Hstep. destruct o.
    - intros [= _ <-]. by apply rtc_once.
    - intros [= _ <-]. by apply rtc_once.
    - intros Hl. eapply rtc_l; [exact Hstep|]. eapply IH; [|exact Hl]. eapply share_step_wf; [done|lia|done]. }
  intros skipped db x db' Hwf. apply G. by eapply shares_wf_later.
Qed.

(** ** Every call *)

Section Calls.
Context (known_user : string → bool) (t0 now : datetime).

Lemma commit_steps {A} (body : result share_error (A * ShareDb)) actor db :
  (∀ a db', body = Ok (a, db') → share_step actor now db db') → share_steps actor now db (commit body db).
Proof.
  intros Hs. unfold commit. destruct body as [[a db']|e]; [|constructor]. apply rtc_once. by eapply Hs.
Qed.

Lemma share_exec_steps c db : shares_wf t0 db → t0 <= now → call_ok c = true →
  share_steps (call_actor c) now db (share_exec known_user c now db).
Proof.
  intros Hwf Ht Hok. destruct c; cbn [share_exec call_actor call_ok] in *.
  - apply commit_steps. intros a db'. by eapply create_publish_step.
  - apply commit_steps. intros a db'. by eapply stage_update_step.
  - apply commit_steps. intros a db'. by eapply stage_unpublish_step.
  - apply commit_steps. intros a db'. by eapply claim_index_job_step.
  - unfold claim_next_index_job. destruct (check_claim _ _) as [w|] eqn:E; [|constructor].
    apply check_claim_Ok in E as [-> Hw]. destruct (_ <=? _); [constructor|].
    destruct (claim_loop _ _ _ _ _ _ _ _) as [[x db']|] eqn:E; [|constructor]. by eapply claim_loop_steps.
  - apply rtc_once. by eapply complete_step.
  - apply commit_steps. intros a db'. by eapply record_failure_step.
  - apply commit_steps. intros a db'. by eapply record_job_failure_step.
  - apply rtc_once. by eapply supersede_step.
  - apply commit_steps. intros a db'. by eapply requeue_step.
  - apply commit_steps. intros a db'. by eapply put_like_step.
  - apply commit_steps. intros a db'. by eapply delete_like_step.
Qed.
End Calls.

(** ** Runs *)

Fixpoint share_run (known_user : string → bool) (calls : list (ShareCall * datetime)) (db : ShareDb) : ShareDb :=
  match calls with
  | [] => db
  | (c, now) :: rest => share_run known_user rest (share_exec known_user c now db)
  end.

(** The clock of the calls never goes back. *)
Fixpoint clocks_from (t : datetime) (calls : list (ShareCall * datetime)) : Prop :=
  match calls with
  | [] => True
  | (_, now) :: rest => t <= now ∧ clocks_from now rest
  end.

Lemma no_shares_wf t : shares_wf t no_shares.
Proof. split; try done. intros s u [x Hx]. done. Qed.

(** The last instant of a run. *)
Fixpoint run_end (t : datetime) (calls : list (ShareCall * datetime)) : datetime :=
  match calls with [] => t | (_, now) :: rest => run_end now rest end.

Lemma share_run_wf known_user calls : ∀ t db, shares_wf t db → clocks_from t calls →
  Forall (fun e => call_ok e.1 = true) calls → shares_wf (run_end t calls) (share_run known_user calls db).
Proof.
  induction calls as [|[c now] calls IH]; intros t db Hwf Hc Hok; [done|].
  destruct Hc as [Ht Hc]. apply Forall_cons in Hok as [Hok Hoks]. cbn [share_run run_end].
  apply IH; [|done|done]. eapply share_steps_wf; [exact Hwf|exact Ht|]. by apply share_exec_steps with (t0 := t).
Qed.
