(* ===== verification/SharedLater.v ===== *)
(** How a guide changes whatever is called and whatever the clocks say: its
    version never goes back, and a withdrawn version stays withdrawn. *)

From S2P Require Import Prelude PyData TripSchema SharedGuides SharedStore SharedStoreProofs.
From Stdlib Require Import ZArith QArith Lia String.
From stdpp Require Import base tactics option list gmap strings.

Open Scope string_scope.
Open Scope Z_scope.

(** The record ends this version: it is of a later one, or the guide is withdrawn. *)
Definition ends_version (r : SharedGuideRecord) (version : Z) : Prop :=
  version < sg_index_version r ∨ version = sg_index_version r ∧ sg_publication_status r = UNPUBLISHED.

Definition retired (db : ShareDb) (share_id : string) (version : Z) : Prop :=
  ∃ r, sd_shares db !! share_id = Some r ∧ ends_version r version.

Definition guide_later (r r' : SharedGuideRecord) : Prop :=
  sg_index_version r < sg_index_version r'
  ∨ sg_index_version r = sg_index_version r'
    ∧ (sg_publication_status r = UNPUBLISHED → sg_publication_status r' = UNPUBLISHED).

Definition later (db db' : ShareDb) : Prop :=
  ∀ s r, sd_shares db !! s = Some r → ∃ r', sd_shares db' !! s = Some r' ∧ guide_later r r'.

#[export] Instance guide_later_preorder : PreOrder guide_later.
Proof.
  split; [by right|]. intros x y z [H1|[H1 H1']] [H2|[H2 H2']]; [left; lia..|right]. split; [lia|auto].
Qed.

#[export] Instance later_preorder : PreOrder later.
Proof.
  split.
  - intros db s r Hr. by exists r.
  - intros x y z Hxy Hyz s r Hr. destruct (Hxy _ _ Hr) as (r1 & Hr1 & H1).
    destruct (Hyz _ _ Hr1) as (r2 & Hr2 & H2). exists r2. split; [done|by etrans].
Qed.

Lemma retired_later db db' s v : later db db' → retired db s v → retired db' s v.
Proof.
  intros Hl (r & Hr & Hv). destruct (Hl _ _ Hr) as (r' & Hr' & Hg). exists r'. split; [done|].
  destruct Hg as [?|[E Hu]], Hv as [?|[-> ?]]; [left; lia..|]. right. split; [done|auto].
Qed.

(** ** Rows *)

Lemma later_insert db jobs likes s r r' : sd_shares db !! s = Some r → guide_later r r' →
  later db (mkShareDb (<[s := r']> (sd_shares db)) jobs likes).
Proof.
  intros Hr Hg k x Hx. cbn. destruct (decide (k = s)) as [->|Hne].
  - rewrite lookup_insert_eq. exists r'. split; [done|]. congruence.
  - rewrite lookup_insert_ne by done. by exists x.
Qed.

Lemma later_jobs db jobs likes : later db (mkShareDb (sd_shares db) jobs likes).
Proof. intros s r Hr. by exists r. Qed.

Lemma update_share_later s P f db : (∀ r, P r = true → guide_later r (f r)) → later db (update_share s P f db).2.
Proof.
  intros Hf. unfold update_share. destruct (sd_shares db !! s) as [r|] eqn:Hr; [|reflexivity].
  destruct (P r) eqn:HP; [|reflexivity]. eapply later_insert; [done|by apply Hf].
Qed.

Lemma update_job_later k P f db : later db (update_job k P f db).2.
Proof.
  unfold update_job. destruct (sd_jobs db !! k) as [j|]; [|reflexivity]. destruct (P j); [apply later_jobs|reflexivity].
Qed.

Lemma same_later r r' : sg_index_version r' = sg_index_version r →
  sg_publication_status r' = sg_publication_status r → guide_later r r'.
Proof. intros E1 E2. right. split; [done|congruence]. Qed.

Lemma insert_job_later id s op v now db j db' : insert_job id s op v now db = Ok (j, db') → later db db'.
Proof. intros (_ & _ & ->)%insert_job_Ok. apply later_jobs. Qed.

(** ** Methods *)

(** A conditional update of a row and what follows it. *)
Ltac later_update :=
  match goal with
  | |- context [update_share ?s ?P ?f ?db] =>
      let H := fresh "Hup" in
      pose proof (update_share_later s P f db) as H; destruct (update_share s P f db) as [[] ?]; cbn [snd] in H
  | |- context [update_job ?k ?P ?f ?db] =>
      let H := fresh "Hup" in
      pose proof (update_job_later k P f db) as H; destruct (update_job k P f db) as [[] ?]; cbn [snd] in H
  end.

Lemma supersede_old_later s now reject db db' : supersede_old_upserts s now reject db = Ok db' → later db db'.
Proof. unfold supersede_old_upserts. destruct (_ && _); [done|]. intros [= <-]. apply later_jobs. Qed.

Lemma stage_new_later row draft now reject expected id db i db' :
  stage_new_upsert row draft now reject expected id db = Ok (i, db') → later db db'.
Proof.
  unfold stage_new_upsert. destruct (supersede_old_upserts _ _ _ _) as [db1|] eqn:E; [|done].
  apply supersede_old_later in E. cbn [mbind result_bind]. cbv zeta. later_update; [|done].
  destruct (insert_job _ _ _ _ _ _) as [[j db2]|] eqn:Ej; [|done]. apply insert_job_later in Ej.
  cbn [mbind result_bind]. destruct (record_from_row _); [|done]. cbn [mbind result_bind]. intros [= _ <-].
  etrans; [exact E|]. etrans; [|exact Ej]. apply Hup. intros r Hr. left. cbn [staged sg_index_version].
  apply andb_true_iff in Hr as [Hr _]. unfold same_share_state in Hr.
  apply andb_true_iff in Hr as [[Hr%Z.eqb_eq _]%andb_true_iff _]. lia.
Qed.

Lemma insert_share_later known_user r db db' : insert_share known_user r db = Ok db' → later db db'.
Proof.
  unfold insert_share. destruct (_ || _) eqn:E; [done|]. intros [= <-] s x Hx. cbn [sd_shares overwrite].
  apply orb_false_iff in E as [[E%bool_decide_eq_false _]%orb_false_iff _].
  rewrite lookup_insert_ne; [by exists x|]. intros <-. rewrite Hx in E. by apply E.
Qed.

Lemma create_share_later known_user draft now s j db i db' :
  create_share known_user draft now s j db = Ok (i, db') → later db db'.
Proof.
  unfold create_share. cbv zeta. destruct (select_author_session _ _ _) as [[row|]|]; [| |done]; cbn [mbind result_bind].
  - destruct (record_from_row row); [|done]. cbn [mbind result_bind]. destruct (bool_decide _); [by eauto using stage_new_later|].
    destruct (negb _); [done|]. destruct (public_ready _); [by intros [= _ <-]|].
    destruct (find_version_job _ _ _ _); [|done]. cbn [mbind result_bind]. by intros [= _ <-].
  - destruct (insert_share _ _ _) as [db1|] eqn:E1; [|done]. cbn [mbind result_bind].
    destruct (insert_job _ _ _ _ _ _) as [[j' db2]|] eqn:E2; [|done]. cbn [mbind result_bind].
    destruct (record_from_row _); [|done]. cbn [mbind result_bind]. intros [= _ <-].
    etrans; [by eapply insert_share_later|by eapply insert_job_later].
Qed.

Lemma create_publish_later known_user draft now s j db i db' :
  create_publish_intent known_user draft now s j db = Ok (i, db') → later db db'.
Proof.
  unfold create_publish_intent. destruct (create_share _ _ _ _ _ _) as [[i0 db1]|e] eqn:E.
  - intros [= _ <-]. by eapply create_share_later.
  - destruct e; try done. destruct (select_author_session _ _ _) as [[row|]|]; [|done..]; cbn [mbind result_bind].
    destruct (record_from_row _); [|done]. cbn [mbind result_bind]. destruct (String.eqb _ _); [|done].
    destruct (find_version_job _ _ _ _); [|done]. cbn [mbind result_bind]. by intros [= _ <-].
Qed.

Lemma stage_update_later s a draft now allow v h p i id db x db' :
  stage_update s a draft now allow v h p i id db = Ok (x, db') → later db db'.
Proof.
  unfold stage_update. destruct (negb _); [done|]. destruct (select_owned _ _ _) as [row|]; [|done].
  destruct (validate_expected _ _ _ _ _); [|done]. cbn [mbind result_bind].
  destruct (negb _); [done|]. destruct (bool_decide _); [done|]. by eauto using stage_new_later.
Qed.

Lemma stage_unpublish_later s a now id db x db' :
  stage_unpublish s a now id db = Ok (x, db') → later db db'.
Proof.
  unfold stage_unpublish. destruct (select_owned _ _ _) as [row|]; [|done].
  destruct (record_from_row row) as [record|]; cbn [mbind result_bind]; [|done].
  case_bool_decide; [by intros [= _ <-]|].
  destruct (supersede_old_upserts _ _ _ _) as [db1|] eqn:E; [|done]. apply supersede_old_later in E.
  cbn [mbind result_bind]. later_update; [|done].
  destruct (insert_job _ _ _ _ _ _) as [[j db2]|] eqn:Ej; [|done]. apply insert_job_later in Ej.
  cbn [mbind result_bind]. destruct (record_from_row _); [|done]. cbn [mbind result_bind]. intros [= _ <-].
  etrans; [exact E|]. etrans; [|exact Ej]. apply Hup. intros r _. by right.
Qed.

Lemma claim_index_later k w now lease db x db' : claim_index_job k w now lease db = Ok (x, db') → later db db'.
Proof.
  unfold claim_index_job. destruct (check_claim _ _); [|done]. cbn [mbind result_bind].
  destruct (sd_jobs db !! k) as [j|]; [|by intros [= _ <-]].
  destruct (job_from_row j); cbn [mbind result_bind]; [|done].
  destruct (negb _); [by intros [= _ <-]|]. cbv zeta. later_update.
  - destruct (job_from_row _); cbn [mbind result_bind]; [|done]. by intros [= _ <-].
  - by intros [= _ <-].
Qed.

Lemma terminalize_later j now db : later db (terminalize_expired_claim j now db).2.
Proof.
  unfold terminalize_expired_claim.
  pose proof (update_share_later (jb_share_id j)
    (fun r => (sg_index_version r =? jb_index_version j) && operation_open (jb_operation j) r) (expired_share now) db) as Hup.
  destruct (update_share _ _ _ _) as [b db1]. cbn [snd] in Hup.
  etrans; [|apply update_job_later]. apply Hup. intros r _. by apply same_later.
Qed.

Lemma claim_round_later w now lease m locked skipped db x db' :
  claim_round w now lease m locked skipped db = Ok (x, db') → later db db'.
Proof.
  unfold claim_round. destruct (oldest_claim_candidate _ _ _ _) as [j|]; [|by intros [= _ <-]].
  destruct (_ || _); [by intros [= _ <-]|]. destruct (sd_jobs db !! _) as [row|]; [|by intros [= _ <-]].
  destruct (_ || _); [by intros [= _ <-]|]. destruct (bool_decide _ && _).
  - pose proof (terminalize_later row now db). destruct (terminalize_expired_claim _ _ _) as [[] db1]; by intros [= _ <-].
  - destruct (_ <=? _); [by intros [= _ <-]|]. cbv zeta. later_update; [|by intros [= _ <-]].
    destruct (job_from_row _); cbn [mbind result_bind]; [|done]. by intros [= _ <-].
Qed.

Lemma claim_loop_later fuel w now lease m locked : ∀ skipped db x db',
  claim_loop fuel w now lease m locked skipped db = Some (x, db') → later db db'.
Proof.
  induction fuel as [|fuel IH]; intros skipped db x db'; [done|]. cbn [claim_loop].
  destruct (claim_round _ _ _ _ _ _ _) as [[o db1]|e] eqn:E; [|by intros [= _ <-]].
  apply claim_round_later in E. destruct o; [by intros [= _ <-]..|]. intros Hl%IH. by etrans.
Qed.

Lemma end_operation_later k s v op w now f g db :
  (∀ r, operation_open op r = true → guide_later r (f r)) → later db (end_operation k s v op w now f g db).2.
Proof.
  intros Hf. unfold end_operation. destruct (select_share s db) as [r|]; [|reflexivity].
  destruct (negb _); [reflexivity|]. destruct (leased_job _ _ _ _ _ _ _); [|reflexivity].
  later_update; [|reflexivity]. later_update; [|reflexivity].
  etrans; [|exact Hup0]. apply Hup. intros x [_ Hx]%andb_true_iff. by apply Hf.
Qed.

Lemma complete_later k s v op w now db : later db (complete_index_operation k s v op w now db).2.
Proof.
  apply end_operation_later. intros r Ho. right. split; [by destruct op|]. destruct op; [|done].
  intros Hu. unfold operation_open in Ho. rewrite Hu in Ho. done.
Qed.

Lemma supersede_later k w now db : later db (supersede_index_job k w now db).2.
Proof.
  unfold supersede_index_job. destruct (sd_jobs db !! k) as [j|]; [|reflexivity].
  destruct (sd_shares db !! _) as [r|]; [|reflexivity]. destruct (negb _); [reflexivity|].
  destruct (negb _); [reflexivity|]. apply update_job_later.
Qed.

Lemma requeue_later s v h now db b db' : requeue_current_upsert s v h now db = Ok (b, db') → later db db'.
Proof.
  unfold requeue_current_upsert. cbv zeta. destruct (select_share s db) as [r|]; [|by intros [= _ <-]].
  destruct (negb _); [by intros [= _ <-]|]. destruct (one_or_none _) as [[j|]|]; [| |done]; cbn [mbind result_bind];
    [|by intros [= _ <-]].
  later_update; [|by intros [= _ <-]]. later_update; [|by intros [= _ <-]]. intros [= _ <-].
  etrans; [|exact Hup0]. apply Hup. intros x [_ Hx]%andb_true_iff. right. split; [done|].
  unfold public_ready in Hx. apply andb_true_iff in Hx as [Hx%bool_decide_eq_true _]. congruence.
Qed.

Lemma set_like_count_later f s db : later db (set_like_count f s db).
Proof. apply update_share_later. intros r _. by apply same_later. Qed.

Lemma put_like_later known_user s u now db x db' : put_like known_user s u now db = Ok (x, db') → later db db'.
Proof.
  unfold put_like. destruct (require_public_ready s db) as [r|]; [|done]. cbn [mbind result_bind].
  destruct (String.eqb _ _); [done|]. cbv zeta. intros [= _ <-]. destruct (_ || _); [reflexivity|].
  etrans; [|apply set_like_count_later]. apply later_jobs.
Qed.

Lemma delete_like_later s u db x db' : delete_like s u db = Ok (x, db') → later db db'.
Proof.
  unfold delete_like. destruct (require_public_ready s db) as [r|]; [|done]. cbn [mbind result_bind].
  destruct (String.eqb _ _); [done|]. cbv zeta. intros [= _ <-]. destruct (bool_decide _); [|reflexivity].
  etrans; [|apply set_like_count_later]. apply later_jobs.
Qed.

Lemma record_failure_later k s v op e w retry terminal now db b db' :
  record_index_failure k s v op e w retry terminal now db = Ok (b, db') → later db db'.
Proof.
  unfold record_index_failure. destruct (check_failure _ _); [|done]. cbn [mbind result_bind]. cbv zeta.
  intros [= E]. pose proof (end_operation_later k s v op w now (failed_share op (sanitize_error e) terminal now)
    (failed_job (sanitize_error e) retry terminal now) db) as H. rewrite E in H. apply H. intros r _. by apply same_later.
Qed.

Lemma record_job_failure_later k s v op e w retry terminal now db b db' :
  record_index_job_failure k s v op e w retry terminal now db = Ok (b, db') → later db db'.
Proof.
  unfold record_index_job_failure. destruct (check_failure _ _); [|done]. cbn [mbind result_bind]. cbv zeta.
  destruct (select_share _ _); [|by intros [= _ <-]]. destruct (leased_job _ _ _ _ _ _ _); [|by intros [= _ <-]].
  later_update; by intros [= _ <-].
Qed.

Lemma commit_later {A} (body : result share_error (A * ShareDb)) db :
  (∀ a db', body = Ok (a, db') → later db db') → later db (commit body db).
Proof. intros H. destruct body as [[a db']|]; [|reflexivity]. by eapply H. Qed.

(** Whatever is called, by whomever and with whatever clock. *)
Lemma share_exec_later known_user c now db : later db (share_exec known_user c now db).
Proof.
  destruct c; cbn [share_exec].
  - apply commit_later. intros a db'. by apply create_publish_later.
  - apply commit_later. intros a db'. by apply stage_update_later.
  - apply commit_later. intros a db'. by apply stage_unpublish_later.
  - apply commit_later. intros a db'. by apply claim_index_later.
  - unfold claim_next_index_job. destruct (check_claim _ _); [|reflexivity]. destruct (_ <=? _); [reflexivity|].
    destruct (claim_loop _ _ _ _ _ _ _ _) as [[x db']|] eqn:E; [|reflexivity]. by eapply claim_loop_later.
  - apply complete_later.
  - apply commit_later. intros a db'. by apply record_failure_later.
  - apply commit_later. intros a db'. by apply record_job_failure_later.
  - apply supersede_later.
  - apply commit_later. intros a db'. by apply requeue_later.
  - apply commit_later. intros a db'. by apply put_like_later.
  - apply commit_later. intros a db'. by apply delete_like_later.
Qed.

Lemma share_run_later known_user calls : ∀ db, later db (share_run known_user calls db).
Proof.
  induction calls as [|[c now] calls IH]; intros db; cbn [share_run]; [reflexivity|].
  etrans; [apply share_exec_later|apply IH].
Qed.
