(* ===== verification/SharedEffects.v ===== *)
(** What the sharing service and the index worker do to the outside world, as
    programs: the store ([SharedStore]), the embedding provider, the vector
    index and the clock.  Between two effects of a program the others may do
    anything, and every effect may fail.

    The programs of [SharedWorker] and [SharedService] are trees of effects
    ([prog]); a world answers them ([perform]), and [prog_step] runs a program
    among the others.  Store methods raise before or after their commit
    ([Status]).  The vector index holds one point per guide, whose payload
    names the version it was made from; a deletion takes the point of one version
    only (src/app/rag/qdrant_index.py). *)

From S2P Require Import Prelude PyData TripSchema SharedGuides SharedStore SharedStoreProofs.
From Stdlib Require Import ZArith QArith Lia String.
From stdpp Require Import base tactics option list gmap strings relations.

Open Scope string_scope.
Open Scope Z_scope.

(** ** Exceptions *)

Inductive exn :=
| StoreExn (e : share_error)
| Raised (class : string).

(** [type(error).__name__] *)
Definition share_error_class (e : share_error) : string :=
  match e with
  | SharedGuideNotFoundError _ => "SharedGuideNotFoundError"
  | SharedGuideConflictError _ => "SharedGuideConflictError"
  | SharedGuideForbiddenError _ => "SharedGuideForbiddenError"
  | SharedGuideUnavailableError _ => "SharedGuideUnavailableError"
  | InvalidShareCursorError _ => "InvalidShareCursorError"
  | ShareValueError _ => "ValueError"
  | ShareValidationError => "ValidationError"
  | ShareIntegrityError => "IntegrityError"
  | MultipleRows => "MultipleResultsFound"
  end.

Definition exn_class (e : exn) : string :=
  match e with StoreExn e => share_error_class e | Raised class => class end.

(** ** The vector index *)

(** [_index_payload] *)
Record IndexPayload := mkPayload {
  ip_share_id : string; ip_city : string; ip_travel_days : Z; ip_transportation : string;
  ip_quality_score : Q; ip_published_at : Z; ip_index_version : Z; ip_content_hash : string
}.

Record Point := mkPoint { pt_vector : list Q; pt_payload : IndexPayload }.

(** [QdrantSharedGuideIndex.upsert] overwrites the point of the guide. *)
Definition upsert_point (share_id : string) (vector : list Q) (payload : IndexPayload)
    (points : gmap string Point) : gmap string Point :=
  <[share_id := mkPoint vector payload]> points.

(** [QdrantSharedGuideIndex.delete] *)
Definition delete_point (share_id : string) (index_version : Z) (points : gmap string Point) : gmap string Point :=
  match points !! share_id with
  | Some p => if ip_index_version (pt_payload p) =? index_version then delete share_id points else points
  | None => points
  end.

(** ** Embeddings *)

(** What [float(value)] finds. *)
Inductive Embedded := Finite (q : Q) | NotFinite | NotNumeric.

(** [_validated_vector] *)
Definition validated_vector (values : list Embedded) (expected_dimension : Z) : result exn (list Q) :=
  if existsb (fun v => match v with NotNumeric => true | _ => false end) values
  then Err (Raised "InvalidEmbeddingError")
  else if negb (Z.of_nat (length values) =? expected_dimension) then Err (Raised "InvalidEmbeddingError")
  else if existsb (fun v => match v with NotFinite => true | _ => false end) values
  then Err (Raised "InvalidEmbeddingError")
  else Ok (omap (fun v => match v with Finite q => Some q | _ => None end) values).

(** [_index_payload]; [int(timestamp())] truncates towards zero. *)
Definition index_payload (record : SharedGuideRecord) : result exn IndexPayload :=
  match sg_published_at record with
  | None => Err (Raised "ValueError")
  | Some published =>
      let d := sg_draft record in
      Ok (mkPayload (sg_share_id record) (pd_city_normalized d) (pd_travel_days d) (pd_transportation d)
            (default 0%Q (pd_quality_score d)) (Z.quot published 1000000) (sg_index_version record)
            (pd_content_hash d))
  end.

(** ** Programs *)

(** What a store method returns. *)
Definition reply (c : ShareCall) : Type :=
  match c with
  | CreatePublishIntent _ _ _ | StageUpdate _ _ _ _ _ _ _ _ _ | StageUnpublish _ _ _ => ShareIndexIntent
  | ClaimIndexJob _ _ _ | ClaimNextIndexJob _ _ _ _ => option ShareIndexJob
  | PutLike _ _ | DeleteLike _ _ => LikeMutation
  | _ => bool
  end.

Inductive effect : Type → Type :=
| Clock : effect datetime
| Embed (text : string) : effect (list Embedded)
| VectorUpsert (share_id : string) (vector : list Q) (payload : IndexPayload) : effect unit
| VectorDelete (share_id : string) (index_version : Z) : effect unit
| GetIndexRecord (share_id : string) : effect (option SharedGuideRecord)
| GetOwned (share_id author_user_id : string) : effect SharedGuideRecord
| Store (c : ShareCall) (now : datetime) : effect (reply c).

Inductive prog (A : Type) : Type :=
| Ret (a : A)
| Throw (e : exn)
| Do {X : Type} (op : effect X) (k : result exn X → prog A).
Arguments Ret {A} _.
Arguments Throw {A} _.
Arguments Do {A X} _ _.

Fixpoint bind {A B : Type} (p : prog A) (f : A → prog B) : prog B :=
  match p with
  | Ret a => f a
  | Throw e => Throw e
  | Do op k => Do op (fun r => bind (k r) f)
  end.

(** [try: p except Exception as error: handler(error)] *)
Fixpoint try {A : Type} (p : prog A) (handler : exn → prog A) : prog A :=
  match p with
  | Ret a => Ret a
  | Throw e => handler e
  | Do op k => Do op (fun r => try (k r) handler)
  end.

Definition lift {A : Type} (r : result exn A) : prog A := match r with Ok a => Ret a | Err e => Throw e end.
Definition call {X : Type} (op : effect X) : prog X := Do op lift.

#[export] Instance prog_bind : MBind prog := fun A B f p => bind p f.
#[export] Instance prog_ret : MRet prog := @Ret.

(** ** Worlds *)

Inductive Status := Up | Down | Lossy.

Record World := mkWorld {
  wo_db : ShareDb; wo_points : gmap string Point; wo_now : datetime;
  wo_embed : string → result exn (list Embedded); wo_index : Status; wo_store : Status
}.

#[export] Instance world_rebuild : Rebuild World := fun w =>
  mkWorld (wo_db w) (wo_points w) (wo_now w) (wo_embed w) (wo_index w) (wo_store w).

Definition outage : exn := Raised "OperationalError".

(** An outcome seen through a status: [Lossy] does the work and raises. *)
Definition through {X S : Type} (s : Status) (before : S) (after : result exn X * S) : result exn X * S :=
  match s with
  | Up => after
  | Down => (Err outage, before)
  | Lossy => (Err outage, after.2)
  end.

Section Perform.
Context (known_user : string → bool).

Definition outcome {X : Type} (body : result share_error (X * ShareDb)) (db : ShareDb) : result exn X * ShareDb :=
  match body with Ok (x, db') => (Ok x, db') | Err e => (Err (StoreExn e), db) end.

Definition returns {X : Type} (done : X * ShareDb) : result exn X * ShareDb := (Ok done.1, done.2).

(** The answer of a store method and the tables after it. *)
Definition store_call (c : ShareCall) (now : datetime) (db : ShareDb) : result exn (reply c) * ShareDb :=
  match c return result exn (reply c) * ShareDb with
  | CreatePublishIntent draft s j => outcome (create_publish_intent known_user draft now s j db) db
  | StageUpdate s a draft allow v h p i j => outcome (stage_update s a draft now allow v h p i j db) db
  | StageUnpublish s a j => outcome (stage_unpublish s a now j db) db
  | ClaimIndexJob j w lease => outcome (claim_index_job j w now lease db) db
  | ClaimNextIndexJob w lease m locked =>
      match claim_next_index_job w now lease m locked db with
      | Some (Ok o, db') => (Ok o, db')
      | Some (Err e, db') => (Err (StoreExn e), db')
      | None => (Err outage, db)
      end
  | CompleteIndexOperation j s v op w => returns (complete_index_operation j s v op w now db)
  | RecordIndexFailure j s v op e w retry terminal =>
      outcome (record_index_failure j s v op e w retry terminal now db) db
  | RecordIndexJobFailure j s v op e w retry terminal =>
      outcome (record_index_job_failure j s v op e w retry terminal now db) db
  | SupersedeIndexJob j w => returns (supersede_index_job j w now db)
  | RequeueCurrentUpsert s v h => outcome (requeue_current_upsert s v h now db) db
  | PutLike s u => outcome (put_like known_user s u now db) db
  | DeleteLike s u => outcome (delete_like s u db) db
  end.

Definition read {X : Type} (r : result share_error X) : result exn X :=
  match r with Ok x => Ok x | Err e => Err (StoreExn e) end.

Definition set_db (w : World) (r : ShareDb) : World := w <| wo_db := r |>.
Definition set_points (w : World) (p : gmap string Point) : World := w <| wo_points := p |>.

Definition perform {X : Type} (op : effect X) (w : World) : result exn X * World :=
  match op in effect X return result exn X * World with
  | Clock => (Ok (wo_now w), w)
  | Embed text => (wo_embed w text, w)
  | VectorUpsert s vector payload =>
      let '(r, p) := through (wo_index w) (wo_points w) (Ok tt, upsert_point s vector payload (wo_points w)) in
      (r, set_points w p)
  | VectorDelete s v =>
      let '(r, p) := through (wo_index w) (wo_points w) (Ok tt, delete_point s v (wo_points w)) in
      (r, set_points w p)
  | GetIndexRecord s =>
      let '(r, d) := through (wo_store w) (wo_db w) (read (get_index_record s (wo_db w)), wo_db w) in
      (r, set_db w d)
  | GetOwned s a =>
      let '(r, d) := through (wo_store w) (wo_db w) (read (get_owned s a (wo_db w)), wo_db w) in
      (r, set_db w d)
  | Store c now =>
      let '(r, d) := through (wo_store w) (wo_db w) (store_call c now (wo_db w)) in
      (r, set_db w d)
  end.

(** ** Executions *)

Definition config (A : Type) : Type := prog A * World.

(** The next effect of a program. *)
Definition own_next {A : Type} (c : config A) : option (config A) :=
  match c.1 with
  | Do op k => let '(r, w) := perform op c.2 in Some (k r, w)
  | _ => None
  end.

(** A program among the others: its next effect, a store method called by anyone
    with any clock, or any change outside the tables. *)
Inductive prog_step {A : Type} : config A → config A → Prop :=
| own_step c c' : own_next c = Some c' → prog_step c c'
| other_call p w c now : prog_step (p, w) (p, set_db w (share_exec known_user c now (wo_db w)))
| other_change p w w' : wo_db w' = wo_db w → prog_step (p, w) (p, w').

Definition executes {A : Type} : config A → config A → Prop := rtc prog_step.

(** The deletion a program is about to make. *)
Definition next_delete {A : Type} (c : config A) : option (string * Z) :=
  match c.1 with
  | Do op _ => match op with VectorDelete s v => Some (s, v) | _ => None end
  | _ => None
  end.

(** A schedule: effects of the program, methods called by the others, and time. *)
Inductive event := Own | Others (c : ShareCall) | Until (now : datetime).

Fixpoint drive {A : Type} (events : list event) (c : config A) : option (config A) :=
  match events with
  | [] => Some c
  | Own :: rest => match own_next c with Some c' => drive rest c' | None => None end
  | Others o :: rest => drive rest (c.1, set_db c.2 (share_exec known_user o (wo_now c.2) (wo_db c.2)))
  | Until now :: rest => drive rest (c.1, c.2 <| wo_now := now |>)
  end.

Lemma drive_executes {A} events : ∀ (c c' : config A), drive events c = Some c' → executes c c'.
Proof.
  induction events as [|[|o|now] events IH]; intros c c'; cbn [drive]; [by intros [= <-]; constructor|..].
  - destruct (own_next c) as [c1|] eqn:E; [|done]. intros H%IH. eapply rtc_l; [by apply own_step|exact H].
  - intros H%IH. eapply rtc_l; [|exact H]. destruct c. apply other_call.
  - intros H%IH. eapply rtc_l; [|exact H]. destruct c. by apply other_change.
Qed.

(** A program alone in a world that does not change by itself. *)
Fixpoint run_alone {A : Type} (p : prog A) (w : World) : result exn A * World :=
  match p with
  | Ret a => (Ok a, w)
  | Throw e => (Err e, w)
  | Do op k => let '(r, w') := perform op w in run_alone (k r) w'
  end.

Lemma run_alone_executes {A} (p : prog A) : ∀ w,
  ∃ q, executes (p, w) (q, (run_alone p w).2) ∧ q = lift (run_alone p w).1.
Proof.
  induction p as [a|e|X op k IH]; intros w; cbn [run_alone]; [by eexists..|].
  destruct (perform op w) as [r w'] eqn:E. destruct (IH r w') as (q & Hq & ->).
  eexists. split; [|done]. eapply rtc_l; [|exact Hq]. apply own_step. unfold own_next. cbn [fst snd]. by rewrite E.
Qed.

(** The answers of the store come from the calls of [SharedStoreProofs]. *)
Lemma store_call_exec c now db : (store_call c now db).2 = share_exec known_user c now db.
Proof.
  destruct c; cbn [store_call share_exec]; unfold outcome, commit, returns; try done;
    try (by destruct (_ : result share_error _) as [[? ?]|]).
  by destruct (claim_next_index_job _ _ _ _ _ _) as [[[?|?] ?]|].
Qed.
End Perform.
