(* ===== verification/SharedWorker.v ===== *)
(** The index worker ([ShareIndexWorker], src/app/sharing/worker.py) as programs
    of [SharedEffects].  Its metrics and log lines change nothing and are left
    out, its thread (start, stop, poll) is that of the task worker.  [clock()]
    returns and does not raise. *)

From S2P Require Import Prelude PyData TripSchema SharedGuides SharedStore SharedStoreProofs SharedEffects.
From Stdlib Require Import ZArith QArith Lia String.
From stdpp Require Import base tactics option list gmap strings.

Open Scope string_scope.
Open Scope Z_scope.

(** ** Guards *)

(** [_is_public_ready] *)
Definition is_public_ready (record : option SharedGuideRecord) : bool :=
  match record with Some r => public_ready r | None => false end.

(** [_same_ready_record] *)
Definition same_ready_record (current : option SharedGuideRecord) (expected : SharedGuideRecord) : bool :=
  match current with
  | Some r => public_ready r && String.eqb (sg_share_id r) (sg_share_id expected)
              && (sg_index_version r =? sg_index_version expected)
              && String.eqb (pd_content_hash (sg_draft r)) (pd_content_hash (sg_draft expected))
  | None => false
  end.

(** [_matches_upsert] *)
Definition matches_upsert (record : option SharedGuideRecord) (job : ShareIndexJob) : bool :=
  match record with
  | Some r => (sg_index_version r =? jb_index_version job) && operation_open UPSERT r
  | None => false
  end.

(** [_matches_delete] *)
Definition matches_delete (record : option SharedGuideRecord) (job : ShareIndexJob) : bool :=
  match record with
  | Some r => (sg_index_version r =? jb_index_version job) && operation_open DELETE r
  | None => false
  end.

Definition same_content (current : option SharedGuideRecord) (expected : SharedGuideRecord) : bool :=
  match current with
  | Some r => String.eqb (pd_content_hash (sg_draft r)) (pd_content_hash (sg_draft expected))
  | None => false
  end.

(** [_same_upsert_target] *)
Definition same_upsert_target (current : option SharedGuideRecord) (expected : SharedGuideRecord)
    (job : ShareIndexJob) : bool := matches_upsert current job && same_content current expected.

(** [_same_delete_target] *)
Definition same_delete_target (current : option SharedGuideRecord) (expected : SharedGuideRecord)
    (job : ShareIndexJob) : bool := matches_delete current job && same_content current expected.

(** Withdrawn, in any state of its deletion. *)
Definition withdrawal_states (r : SharedGuideRecord) : bool :=
  bool_decide (sg_publication_status r = UNPUBLISHED)
  && bool_decide (sg_index_status r ∈ [DELETE_PENDING; DELETED; INDEX_FAILED]).

(** [_cleanup_is_safe] *)
Definition cleanup_is_safe (current : option SharedGuideRecord) (job : ShareIndexJob)
    (expected : SharedGuideRecord) : bool :=
  match current with
  | None => false
  | Some r =>
      if negb (String.eqb (sg_share_id r) (jb_share_id job))
         || negb (String.eqb (sg_share_id expected) (jb_share_id job)) then false
      else if jb_index_version job <? sg_index_version r then
        bool_decide (sg_publication_status r ∈ [PUBLISHING; UNPUBLISHED])
        && bool_decide (sg_index_status r ∈ [INDEX_PENDING; INDEX_FAILED; DELETE_PENDING; DELETED])
      else if negb (sg_index_version r =? jb_index_version job) then false
      else (sg_index_version expected =? jb_index_version job) && withdrawal_states r
           && String.eqb (pd_content_hash (sg_draft r)) (pd_content_hash (sg_draft expected))
  end.

Record WorkerConfig := mkWorkerConfig {
  wc_worker_id : string; wc_lease_seconds : Q; wc_max_attempts : Z;
  wc_retry_base_seconds : Q; wc_retry_max_seconds : Q
}.

(** [_retry_delay] *)
Definition retry_delay (base most : Q) (attempt_count : Z) : Q :=
  let wait := (base * inject_Z (2 ^ Z.max (attempt_count - 1) 0))%Q in
  if Qlt_bool wait most then wait else most.

Definition next_retry (base most : Q) (max_attempts attempt_count : Z) (now : datetime) : option datetime :=
  if max_attempts <=? attempt_count then None
  else Some (now + timedelta_seconds (retry_delay base most attempt_count)).

Section Worker.
Context (cfg : WorkerConfig).

Notation worker_id := (wc_worker_id cfg).

Definition store_now (c : ShareCall) : prog (reply c) := now ← call Clock; call (Store c now).

Definition worker_retry_at (job : ShareIndexJob) (now : datetime) : option datetime :=
  next_retry (wc_retry_base_seconds cfg) (wc_retry_max_seconds cfg) (wc_max_attempts cfg) (jb_attempt_count job) now.

Definition is_terminal (job : ShareIndexJob) : bool := wc_max_attempts cfg <=? jb_attempt_count job.

(** [_supersede] *)
Definition supersede (job : ShareIndexJob) : prog unit :=
  try (_ ← store_now (SupersedeIndexJob (jb_job_id job) (Some worker_id)); Ret tt) (fun _ => Ret tt).

(** [_record_failure] *)
Definition record_failure (job : ShareIndexJob) (error : exn) : prog unit :=
  now ← call Clock;
  try
    (recorded ← call (Store (RecordIndexFailure (jb_job_id job) (jb_share_id job) (jb_index_version job)
                   (jb_operation job) (Some (exn_class error)) worker_id (worker_retry_at job now)
                   (is_terminal job)) now);
     if (recorded : bool) then Ret tt else supersede job)
    (fun _ => Ret tt).

(** [_record_stale_failure] *)
Definition record_stale_failure (job : ShareIndexJob) : prog unit :=
  now ← call Clock;
  try
    (_ ← call (Store (RecordIndexJobFailure (jb_job_id job) (jb_share_id job) (jb_index_version job)
            (jb_operation job) (Some "RuntimeError") worker_id (worker_retry_at job now) (is_terminal job)) now);
     Ret tt)
    (fun _ => Ret tt).

(** [_cleanup_upsert] *)
Definition cleanup_upsert (job : ShareIndexJob) (expected : SharedGuideRecord)
    (current : option SharedGuideRecord) : prog bool :=
  current ← match current with
            | Some r => Ret (Some r)
            | None => call (GetIndexRecord (jb_share_id job))
            end;
  if negb (cleanup_is_safe current job expected) then Ret false
  else try (_ ← call (VectorDelete (jb_share_id job) (jb_index_version job)); Ret true) (fun _ => Ret false).

(** [_cleanup_unpublished_version] *)
Definition cleanup_unpublished_version (share_id : string) (index_version : Z) (content_hash : string)
    (current : SharedGuideRecord) : prog bool :=
  if negb (String.eqb (sg_share_id current) share_id && (sg_index_version current =? index_version)
           && withdrawal_states current && String.eqb (pd_content_hash (sg_draft current)) content_hash)
  then Ret false
  else try (_ ← call (VectorDelete share_id index_version); Ret true) (fun _ => Ret false).

Fixpoint cleanup_versions (job : ShareIndexJob) (latest : SharedGuideRecord) (hashes : list (Z * string)) : prog bool :=
  match hashes with
  | [] => Ret true
  | (index_version, content_hash) :: rest =>
      if index_version =? jb_index_version job then cleanup_versions job latest rest
      else
        cleaned ← cleanup_unpublished_version (jb_share_id job) index_version content_hash latest;
        if (cleaned : bool) then cleanup_versions job latest rest else Ret false
  end.

(** [sorted(cleanup_hashes.items())] *)
Definition sorted_hashes (m : gmap Z string) : list (Z * string) :=
  py_sorted (fun x y => x.1 <=? y.1) (map_to_list m).

(** [_cleanup_stale_upsert_effects] *)
Definition cleanup_stale_upsert_effects (job : ShareIndexJob) (expected : SharedGuideRecord)
    (current : option SharedGuideRecord) (restored_hashes : gmap Z string) : prog bool :=
  cleaned ← cleanup_upsert job expected current;
  if negb cleaned then Ret false
  else
    latest ← call (GetIndexRecord (jb_share_id job));
    match latest with
    | None => Ret false
    | Some latest =>
        let cleanup_hashes :=
          if withdrawal_states latest && negb (bool_decide (is_Some (restored_hashes !! sg_index_version latest)))
          then <[sg_index_version latest := pd_content_hash (sg_draft latest)]> restored_hashes
          else restored_hashes in
        cleanup_versions job latest (sorted_hashes cleanup_hashes)
    end.

(** The vector of a record. *)
Definition embedded_vector (record : SharedGuideRecord) : prog (list Q) :=
  values ← call (Embed (pd_retrieval_text (sg_draft record)));
  lift (validated_vector values (pd_embedding_dimension (sg_draft record))).

Definition upsert_vector (record : SharedGuideRecord) (vector : list Q) : prog unit :=
  payload ← lift (index_payload record);
  call (VectorUpsert (sg_share_id record) vector payload).

(** [_try_restore_ready_record], with the hashes it has restored. *)
Definition try_restore_ready_record (expected : SharedGuideRecord) (restored_hashes : gmap Z string)
    : prog (option bool * gmap Z string) :=
  vector ← try (v ← embedded_vector expected; Ret (Some v)) (fun _ => Ret None);
  match vector with
  | None => Ret (Some false, restored_hashes)
  | Some vector =>
      current ← call (GetIndexRecord (sg_share_id expected));
      if negb (same_ready_record current expected) then Ret (None, restored_hashes)
      else
        let restored_hashes :=
          <[sg_index_version expected := pd_content_hash (sg_draft expected)]> restored_hashes in
        written ← try (_ ← upsert_vector expected vector; Ret true) (fun _ => Ret false);
        if negb written then Ret (Some false, restored_hashes)
        else
          current ← call (GetIndexRecord (sg_share_id expected));
          Ret (Some (same_ready_record current expected), restored_hashes)
  end.

(** [_requeue_ready_record] *)
Definition requeue_ready_record (record : SharedGuideRecord) : prog bool :=
  try (store_now (RequeueCurrentUpsert (sg_share_id record) (sg_index_version record)
                    (pd_content_hash (sg_draft record))))
    (fun _ => Ret false).

(** [_MAX_RECONCILIATION_PASSES] *)
Definition MAX_RECONCILIATION_PASSES : nat := 3.

(** The passes of [_reconcile_stale_upsert], and what follows the last one. *)
Fixpoint reconcile_passes (passes : nat) (job : ShareIndexJob) (expected : SharedGuideRecord)
    (current : option SharedGuideRecord) (restored_hashes : gmap Z string) : prog bool :=
  match passes with
  | O =>
      current ← call (GetIndexRecord (jb_share_id job));
      match current with
      | None => Ret false
      | Some r =>
          if sg_index_version r =? jb_index_version job then
            if same_ready_record current expected then Ret true
            else cleanup_stale_upsert_effects job expected current restored_hashes
          else if sg_index_version r <? jb_index_version job then Ret false
          else if is_public_ready current then Ret false
          else cleanup_stale_upsert_effects job expected current restored_hashes
      end
  | S passes =>
      match current with
      | None => Ret false
      | Some r =>
          if sg_index_version r =? jb_index_version job then
            if same_ready_record current expected then Ret true
            else cleanup_stale_upsert_effects job expected current restored_hashes
          else if sg_index_version r <? jb_index_version job then Ret false
          else if negb (is_public_ready current) then
            cleanup_stale_upsert_effects job expected current restored_hashes
          else
            '(restored, restored_hashes) ← try_restore_ready_record r restored_hashes;
            match restored with
            | Some true => Ret true
            | Some false =>
                requeued ← requeue_ready_record r;
                latest ← call (GetIndexRecord (jb_share_id job));
                if (requeued : bool) then cleanup_stale_upsert_effects job expected latest restored_hashes
                else reconcile_passes passes job expected latest restored_hashes
            | None =>
                latest ← call (GetIndexRecord (jb_share_id job));
                reconcile_passes passes job expected latest restored_hashes
            end
      end
  end.

(** [_reconcile_stale_upsert] *)
Definition reconcile_stale_upsert (job : ShareIndexJob) (expected : SharedGuideRecord) : prog bool :=
  current ← call (GetIndexRecord (jb_share_id job));
  reconcile_passes MAX_RECONCILIATION_PASSES job expected current ∅.

(** [_finish_stale_upsert] *)
Definition finish_stale_upsert (job : ShareIndexJob) (expected : option SharedGuideRecord) : prog unit :=
  repaired ← match expected with
             | Some expected => try (reconcile_stale_upsert job expected) (fun _ => Ret false)
             | None => Ret false
             end;
  if (repaired : bool) then supersede job else record_stale_failure job.

(** The guarded part of [_execute_upsert]: whether the job is finished. *)
Definition write_upsert (job : ShareIndexJob) (target : SharedGuideRecord) : prog bool :=
  try
    (vector ← embedded_vector target;
     current ← call (GetIndexRecord (jb_share_id job));
     if negb (same_upsert_target current target job)
     then _ ← finish_stale_upsert job (Some target); Ret true
     else _ ← upsert_vector target vector; Ret false)
    (fun error =>
       current ← call (GetIndexRecord (jb_share_id job));
       if negb (same_upsert_target current target job)
       then _ ← finish_stale_upsert job (Some target); Ret true
       else Throw error).

(** [_execute_upsert] *)
Definition execute_upsert (job : ShareIndexJob) : prog unit :=
  target ← call (GetIndexRecord (jb_share_id job));
  match target with
  | Some r =>
      if negb (matches_upsert target job) then finish_stale_upsert job target
      else
        finished ← write_upsert job r;
        if (finished : bool) then Ret tt
        else
          current ← call (GetIndexRecord (jb_share_id job));
          if negb (same_upsert_target current r job) then finish_stale_upsert job (Some r)
          else
            completed ← store_now (CompleteIndexOperation (jb_job_id job) (jb_share_id job)
                                     (jb_index_version job) UPSERT worker_id);
            if (completed : bool) then Ret tt else finish_stale_upsert job (Some r)
  | None => finish_stale_upsert job target
  end.

(** [_execute_delete] *)
Definition execute_delete (job : ShareIndexJob) : prog unit :=
  target ← call (GetIndexRecord (jb_share_id job));
  match target with
  | Some r =>
      if negb (matches_delete target job) then supersede job
      else
        current ← call (GetIndexRecord (jb_share_id job));
        if negb (same_delete_target current r job) then supersede job
        else
          _ ← call (VectorDelete (jb_share_id job) (jb_index_version job));
          current ← call (GetIndexRecord (jb_share_id job));
          if negb (same_delete_target current r job) then supersede job
          else
            completed ← store_now (CompleteIndexOperation (jb_job_id job) (jb_share_id job)
                                     (jb_index_version job) DELETE worker_id);
            if (completed : bool) then Ret tt else supersede job
  | None => supersede job
  end.

(** [_execute_job] *)
Definition execute_job (job : ShareIndexJob) : prog unit :=
  try (match jb_operation job with UPSERT => execute_upsert job | DELETE => execute_delete job end)
    (fun error => record_failure job error).

(** [run_once]; [locked] is what other transactions hold when it claims. *)
Definition run_once (locked : string → bool) : prog bool :=
  job ← store_now (ClaimNextIndexJob worker_id (wc_lease_seconds cfg) (wc_max_attempts cfg) locked);
  match (job : option ShareIndexJob) with
  | None => Ret false
  | Some job => _ ← execute_job job; Ret true
  end.
End Worker.
