(* ===== verification/SharedClaims.v ===== *)
(** Two guides in the sharing tables, for the examples of its theorems: Li's is
    public and liked by Wang, Wang's waits for its index. *)

From S2P Require Import Prelude PyData TripSchema PlanEdits SharedGuides SharedStore SharedLifecycle SharedStoreProofs SharedEffects SharedWorker.
From Stdlib Require Import ZArith QArith Lia String.
From stdpp Require Import base tactics option list gmap strings.

Open Scope string_scope.
Open Scope Z_scope.

Definition sample_hash : string := "0123456789abcdef0123456789abcdef0123456789abcdef0123456789abcdef".

Definition sample_draft (author session : string) : SharePublishDraft :=
  mkDraft author session "v1" 1 "北京2日攻略" "北京" "北京" 2 "公共交通" "经济型酒店" ["历史"]
    (mkGuideSnapshot (mkRequestSnapshot "北京" 2 "公共交通" "经济型酒店" ["历史"]) trip_plan)
    "北京 2 天 公共交通" sample_hash "good" (Some (80 # 1)) "text-embedding-v4" 3 "v1".

Definition known_sample (u : string) : bool := String.eqb u "li" || String.eqb u "wang".
Definition none_locked (k : string) : bool := false.

(** Publication of one guide, from the request to the end of its index job. *)
Definition sample_publication : list (ShareCall * datetime) :=
  [(CreatePublishIntent (sample_draft "li" "s1") "g1" "j1", 1000);
   (ClaimNextIndexJob "w1" 30 5 none_locked, 2000);
   (CompleteIndexOperation "j1" "g1" 1 UPSERT "w1", 3000)].

Definition sample_rest : list (ShareCall * datetime) :=
  [(PutLike "g1" "wang", 4000);
   (CreatePublishIntent (sample_draft "wang" "s2") "g2" "j2", 5000)].

Definition sample_shares : ShareDb := share_run known_sample (sample_publication ++ sample_rest) no_shares.

Lemma sample_shares_wf : shares_wf 5000 sample_shares.
Proof.
  apply (share_run_wf known_sample (sample_publication ++ sample_rest) 0 no_shares); [apply no_shares_wf| |].
  - cbn. lia.
  - repeat constructor.
Qed.

(** Li's guide as it is then. *)
Definition li_guide : SharedGuideRecord :=
  mkRecord "g1" (sample_draft "li" "s1") PUBLIC INDEX_READY 1 1 None (Some 3000) (Some 1000) 1000 3000.

Lemma sample_li : sd_shares sample_shares !! "g1" = Some li_guide.
Proof. vm_compute. reflexivity. Qed.

(** Li withdraws the guide; a late worker still tries to publish it. *)
Definition withdrawal : list (ShareCall * datetime) :=
  [(StageUnpublish "g1" "li" "j3", 7000); (ClaimIndexJob "j3" "w1" 30, 8000);
   (CompleteIndexOperation "j3" "g1" 1 DELETE "w1", 9000); (CompleteIndexOperation "j1" "g1" 1 UPSERT "w1", 9500)].

Definition withdrawn_shares : ShareDb := share_run known_sample (sample_publication ++ take 1 withdrawal) no_shares.

(** The world around the tables: an embedding of three numbers. *)
Definition sample_world (db : ShareDb) (now : datetime) : World :=
  mkWorld db ∅ now (fun _ => Ok [Finite 1; Finite 0; Finite (1 # 2)]) Up Up.

Definition sample_worker : WorkerConfig := mkWorkerConfig "w1" 30 5 2 60.

(** Claims of index jobs end, and take the oldest job that is due. *)

Lemma older_job_total x y : older_job x y = true ∨ older_job y x = true.
Proof. apply lexZ_total, String.leb_total. Qed.

Lemma older_job_trans x y z : older_job x y = true → older_job y z = true → older_job x z = true.
Proof. apply lexZ_trans, leb_trans_str. Qed.

(** What the loop may still look at. *)
Definition open_claim (now : datetime) (m : Z) (skipped : list string) (j : ShareIndexJob) : bool :=
  claim_candidate now m j && negb (bool_decide (jb_job_id j ∈ skipped)).

Definition open_claims (now : datetime) (m : Z) (skipped : list string) (db : ShareDb) : gmap string ShareIndexJob :=
  filter (fun e => open_claim now m skipped e.2 = true) (sd_jobs db).

(** A job, or its guide, is locked by another transaction. *)
Definition job_locked (locked : string → bool) (j : ShareIndexJob) : bool :=
  locked (jb_share_id j) || locked (jb_job_id j).

Section Claims.
Context (now : datetime) (m : Z) (locked : string → bool).

Lemma oldest_claim_Some skipped db j : oldest_claim_candidate now m skipped db = Some j →
  (∃ k, sd_jobs db !! k = Some j) ∧ open_claim now m skipped j = true
  ∧ ∀ k j', sd_jobs db !! k = Some j' → open_claim now m skipped j' = true → older_job j j' = true.
Proof.
  intros Hh. apply (py_sorted_head older_job older_job_total older_job_trans) in Hh as [Hj Hmin].
  apply list_elem_of_filter in Hj as [Hc Hj%elem_of_job_rows]. split_and!; [done..|].
  intros k j' Hj' Hc'. apply Hmin, list_elem_of_filter. split; [done|]. apply elem_of_job_rows. by exists k.
Qed.

Lemma oldest_claim_None skipped db k j : oldest_claim_candidate now m skipped db = None →
  sd_jobs db !! k = Some j → open_claim now m skipped j = false.
Proof.
  intros Hn Hj. apply head_None in Hn. destruct (open_claim now m skipped j) eqn:E; [|done]. exfalso.
  assert (Hin : j ∈ py_sorted older_job (filter (fun j => open_claim now m skipped j = true) (job_rows db))).
  { rewrite py_sorted_perm. apply list_elem_of_filter. split; [done|]. apply elem_of_job_rows. by exists k. }
  change (j ∈ py_sorted older_job (filter (fun j => claim_candidate now m j
            && negb (bool_decide (jb_job_id j ∈ skipped)) = true) (job_rows db))) in Hin.
  rewrite Hn in Hin. by apply elem_of_nil in Hin.
Qed.

Lemma same_snapshot_refl j : same_job_snapshot j j = true.
Proof. unfold same_job_snapshot. rewrite !String.eqb_refl, !bool_decide_true, Z.eqb_refl by done. done. Qed.

Lemma terminalize_jobs j db : sd_jobs db !! jb_job_id j = Some j → expired_running now j = true →
  (terminalize_expired_claim j now db).1 = true
  ∧ sd_jobs (terminalize_expired_claim j now db).2 = <[jb_job_id j := expired_job now j]> (sd_jobs db).
Proof.
  intros Hj He. unfold terminalize_expired_claim, update_share, update_job.
  destruct (sd_shares db !! jb_share_id j) as [r|]; [destruct (_ && operation_open _ _)|];
    cbn [sd_jobs overwrite]; rewrite Hj, same_snapshot_refl, He, Z.eqb_refl; done.
Qed.

Lemma candidate_cases j : claim_candidate now m j = true →
  (jb_attempt_count j < m ∧ job_due now j = true)
  ∨ (m <= jb_attempt_count j ∧ jb_status j = JOB_RUNNING ∧ expired_running now j = true).
Proof.
  unfold claim_candidate, job_due. rewrite !orb_true_iff, andb_true_iff, Z.ltb_lt.
  intros [[H1 H2]|H]; [left; eauto|].
  destruct (Z.lt_ge_cases (jb_attempt_count j) m); [left; eauto|right]. split_and!; try done.
  apply andb_true_iff in H as [H%bool_decide_eq_true _]. done.
Qed.

Lemma job_from_leased w until j : job_from_row j = Ok j → py_len w <= 128 →
  job_from_row (lease_job w until now j) = Ok (lease_job w until now j).
Proof.
  unfold job_from_row. destruct (job_ok j) eqn:Hok; [|done]. intros _ Hw.
  assert (job_ok (lease_job w until now j) = true) as ->; [|done].
  revert Hok. unfold job_ok, lease_job. cbn [jb_index_version jb_attempt_count jb_lease_owner].
  rewrite !andb_true_iff, !Z.leb_le. intros [[? ?] _]. split_and!; [lia..|done].
Qed.

(** One round, on the job it looks at. *)
Lemma claim_round_cases t0 w lease skipped db j : shares_wf t0 db → py_len w <= 128 →
  oldest_claim_candidate now m skipped db = Some j →
  claim_round w now lease m locked skipped db =
    if job_locked locked j then Ok (NextRound (jb_job_id j :: skipped), db)
    else if m <=? jb_attempt_count j then Ok (NextRound skipped, (terminalize_expired_claim j now db).2)
    else Ok (Claimed (lease_job w (now + timedelta_seconds lease) now j),
             set_job (lease_job w (now + timedelta_seconds lease) now j) db).
Proof.
  intros Hwf Hw Ho. unfold claim_round. rewrite Ho.
  apply oldest_claim_Some in Ho as ([k Hj] & [Hc _]%andb_true_iff & _).
  destruct (job_guide t0 db Hwf _ _ Hj) as (Hk & r & Hr & _). subst k.
  rewrite bool_decide_true by eauto. unfold job_locked. cbn [negb orb].
  destruct (locked (jb_share_id j)); [done|]. cbn [orb]. rewrite Hj, Hc.
  destruct (locked (jb_job_id j)); [done|]. cbn [orb negb].
  destruct (candidate_cases _ Hc) as [[Hm Hd]|(Hm & Hs & He)].
  - rewrite (proj2 (Z.leb_gt _ _)) by done. rewrite andb_false_r. cbv zeta. unfold update_job.
    rewrite Hj, same_snapshot_refl, Hd, (proj2 (Z.ltb_lt _ _)) by done. cbn [andb].
    destruct (job_valid t0 db Hwf _ _ Hj) as [_ Hok]. apply (job_from_leased w (now + timedelta_seconds lease)) in Hok; [|done].
    rewrite Hok. done.
  - rewrite (proj2 (Z.leb_le _ _)) by done. rewrite bool_decide_true by done. cbn [andb].
    destruct (terminalize_jobs j db Hj He) as [Hb _].
    destruct (terminalize_expired_claim j now db) as [b db1]. cbn [fst snd] in *. by subst b.
Qed.

(** A round that goes on leaves strictly fewer jobs to look at. *)
Lemma open_claims_skip skipped db j : sd_jobs db !! jb_job_id j = Some j → open_claim now m skipped j = true →
  (size (open_claims now m (jb_job_id j :: skipped) db) < size (open_claims now m skipped db))%nat.
Proof.
  intros Hj Hc. apply map_subset_size, strict_spec_alt. split.
  - apply map_subseteq_spec. intros k x [Hx Hp]%map_lookup_filter_Some. apply map_lookup_filter_Some.
    split; [done|]. revert Hp. unfold open_claim. cbn [snd]. rewrite !andb_true_iff, !negb_true_iff, !bool_decide_eq_false.
    set_solver.
  - intros E. assert (Hin : open_claims now m skipped db !! jb_job_id j = Some j)
      by (apply map_lookup_filter_Some; done).
    rewrite <- E in Hin. apply map_lookup_filter_Some in Hin as [_ Hin].
    revert Hin. unfold open_claim. cbn [snd]. rewrite bool_decide_true by (left). by rewrite andb_false_r.
Qed.

Lemma open_claims_expire skipped db db' j : sd_jobs db !! jb_job_id j = Some j → open_claim now m skipped j = true →
  sd_jobs db' = <[jb_job_id j := expired_job now j]> (sd_jobs db) →
  (size (open_claims now m skipped db') < size (open_claims now m skipped db))%nat.
Proof.
  intros Hj Hc E. apply map_subset_size, strict_spec_alt. unfold open_claims. rewrite E.
  assert (Hno : open_claim now m skipped (expired_job now j) = false) by done.
  split.
  - apply map_subseteq_spec. intros k x [Hx Hp]%map_lookup_filter_Some. apply map_lookup_filter_Some.
    apply lookup_insert_Some in Hx as [[_ <-]|[_ Hx]]; [|done]. cbn [snd] in Hp. congruence.
  - intros E'. assert (Hin : open_claims now m skipped db !! jb_job_id j = Some j)
      by (apply map_lookup_filter_Some; done).
    unfold open_claims in Hin. rewrite <- E' in Hin. apply map_lookup_filter_Some in Hin as [Hin _].
    rewrite lookup_insert_eq in Hin. injection Hin as Hin.
    assert (Hx : jb_status j = JOB_FAILED) by (by rewrite <- Hin).
    revert Hc. unfold open_claim, claim_candidate, pending_due, expired_running. by rewrite Hx.
Qed.

(** What the rounds so far kept: the jobs a claim could take are those of the
    start, and those set aside are locked. *)
Definition claim_inv (db0 db : ShareDb) (skipped : list string) : Prop :=
  shares_wf now db
  ∧ (∀ k j, sd_jobs db !! k = Some j → claim_candidate now m j = true → sd_jobs db0 !! k = Some j)
  ∧ (∀ k j, sd_jobs db0 !! k = Some j → jb_attempt_count j < m → claim_candidate now m j = true →
       sd_jobs db !! k = Some j)
  ∧ (∀ k j, sd_jobs db !! k = Some j → jb_job_id j ∈ skipped → job_locked locked j = true).

(** How a claim ends: a job of the tables, the oldest of those that are not
    locked; or nothing, when all that are due are locked. *)
Definition claim_outcome (w : string) (lease : Q) (db0 : ShareDb) (o : option ShareIndexJob) (db : ShareDb) : Prop :=
  match o with
  | Some leased => ∃ k j, leased = lease_job w (now + timedelta_seconds lease) now j
      ∧ sd_jobs db0 !! k = Some j ∧ sd_jobs db !! k = Some leased
      ∧ job_due now j = true ∧ jb_attempt_count j < m ∧ job_locked locked j = false
      ∧ ∀ k' j', sd_jobs db0 !! k' = Some j' → job_due now j' = true → jb_attempt_count j' < m →
          job_locked locked j' = false → older_job j j' = true
  | None => ∀ k j, sd_jobs db !! k = Some j → claim_candidate now m j = true → job_locked locked j = true
  end.

Lemma due_candidate j : jb_attempt_count j < m → job_due now j = true → claim_candidate now m j = true.
Proof.
  unfold claim_candidate, job_due. rewrite !orb_true_iff, andb_true_iff, Z.ltb_lt. tauto.
Qed.

(** Giving up an expired claim keeps the jobs that can be taken. *)
Lemma claim_inv_expire db0 db skipped j : claim_inv db0 db skipped →
  sd_jobs db !! jb_job_id j = Some j → open_claim now m skipped j = true → m <= jb_attempt_count j →
  claim_inv db0 (terminalize_expired_claim j now db).2 skipped.
Proof.
  intros (Hwf & Hback & Hforth & Hskip) Hj Hopen Hm.
  pose proof Hopen as [Hc Hs%negb_true_iff%bool_decide_eq_false]%andb_true_iff.
  destruct (candidate_cases _ Hc) as [[? _]|(_ & _ & He)]; [lia|].
  destruct (terminalize_jobs j db Hj He) as [_ E].
  assert (Hstep : share_step None now db (terminalize_expired_claim j now db).2)
    by (eapply terminalize_step; [exact Hwf|done|done|apply surjective_pairing]).
  split; [eapply share_step_wf; [exact Hwf|lia|exact Hstep]|]. rewrite E. split_and!.
  - intros k x [[<- <-]|[_ Hx]]%lookup_insert_Some Hcx; [done|by apply Hback].
  - intros k x Hx Hmx Hcx. pose proof (Hforth _ _ Hx Hmx Hcx) as Hx'. rewrite lookup_insert_ne; [done|].
    intros <-. assert (x = j) as -> by congruence. lia.
  - intros k x [[<- <-]|[_ Hx]]%lookup_insert_Some Hin; [done|by eapply Hskip].
Qed.

Lemma claim_loop_ends w lease db0 fuel : py_len w <= 128 → ∀ skipped db,
  claim_inv db0 db skipped → (size (open_claims now m skipped db) < fuel)%nat →
  ∃ o db', claim_loop fuel w now lease m locked skipped db = Some (Ok o, db') ∧ claim_outcome w lease db0 o db'.
Proof.
  intros Hw. induction fuel as [|fuel IH]; intros skipped db (Hwf & Hback & Hforth & Hskip) Hsize; [lia|].
  cbn [claim_loop]. destruct (oldest_claim_candidate now m skipped db) as [j|] eqn:Ho.
  2:{ unfold claim_round. rewrite Ho. exists None, db. split; [done|]. intros k j Hj Hc.
      pose proof (oldest_claim_None _ _ _ _ Ho Hj) as Hn. revert Hn. unfold open_claim. rewrite Hc. cbn [andb].
      intros [=Hn%negb_false_iff%bool_decide_eq_true]. by eapply Hskip. }
  rewrite (claim_round_cases now w lease skipped db j Hwf Hw Ho).
  apply oldest_claim_Some in Ho as ([k Hj] & Hopen & Hmin). destruct (job_valid now db Hwf _ _ Hj) as [Hk _]. subst k.
  pose proof Hopen as [Hc Hs%negb_true_iff%bool_decide_eq_false]%andb_true_iff.
  destruct (job_locked locked j) eqn:Hl; [|destruct (Z.leb_spec m (jb_attempt_count j)) as [Hm|Hm]].
  - apply IH; [|pose proof (open_claims_skip skipped db j Hj Hopen); lia]. split_and!; try done.
    intros k x Hx [Hid|Hid]%elem_of_cons; [|by eapply Hskip].
    destruct (job_valid now db Hwf _ _ Hx) as [Hk _]. assert (x = j) as -> by congruence. done.
  - apply IH; [by eapply claim_inv_expire|].
    destruct (candidate_cases _ Hc) as [[? _]|(_ & _ & He)]; [lia|].
    destruct (terminalize_jobs j db Hj He) as [_ E]. pose proof (open_claims_expire skipped db _ j Hj Hopen E). lia.
  - eexists _, _. split; [done|]. exists (jb_job_id j), j.
    destruct (candidate_cases _ Hc) as [[_ Hd]|[? _]]; [|lia]. split_and!; try done; [by apply Hback|by simplify_map_eq|].
    intros k' j' Hj' Hd' Hm' Hl'. apply due_candidate in Hd' as Hc'; [|done].
    apply (Hforth _ _ Hj' Hm') in Hc' as Hj2. apply (Hmin k'); [done|]. unfold open_claim. rewrite Hc'. cbn [andb].
    apply negb_true_iff, bool_decide_eq_false. intros Hin. rewrite (Hskip _ _ Hj2 Hin) in Hl'. done.
Qed.

End Claims.

Lemma claim_next_ends now worker lease m locked db w :
  shares_wf now db → check_claim worker lease = Ok w → 0 < m →
  ∃ o db', claim_next_index_job worker now lease m locked db = Some (Ok o, db')
           ∧ claim_outcome now m locked w lease db o db'.
Proof.
  intros Hwf Hw Hm. unfold claim_next_index_job. rewrite Hw. apply check_claim_Ok in Hw as [_ Hlen].
  rewrite (proj2 (Z.leb_gt _ _)) by done. apply claim_loop_ends; [done| |].
  - split_and!; [done..|]. intros k j _ Hin. by apply elem_of_nil in Hin.
  - unfold claim_fuel, open_claims. match goal with |- (size (filter ?P ?x) < _)%nat =>
      pose proof (map_size_filter P x) end. lia.
Qed.

Lemma claim_next_wf now worker lease m locked db o db' :
  shares_wf now db → claim_next_index_job worker now lease m locked db = Some (o, db') → shares_wf now db'.
Proof.
  intros Hwf E. pose proof (share_exec_steps (fun _ => true) now now (ClaimNextIndexJob worker lease m locked) db
    Hwf (Z.le_refl _) eq_refl) as Hs. cbn [share_exec] in Hs. rewrite E in Hs.
  by eapply share_steps_wf; [exact Hwf|lia|].
Qed.

(** C18: A claim always ends, within one round per job of the table and one more, and takes the oldest
    job there is: it leases, with one more attempt, the first by creation of the jobs that are due, have
    attempts left and are not locked by another transaction; it finds nothing only when every job it
    could take or give up is locked.  Expired jobs without attempts left never block the ones behind them. *)
Theorem claim_takes_oldest_due t0 now worker lease m locked db w :
  shares_wf t0 db → t0 <= now → check_claim worker lease = Ok w → 0 < m →
  ∃ o db', claim_next_index_job worker now lease m locked db = Some (Ok o, db')
           ∧ claim_outcome now m locked w lease db o db'.
Proof. intros Hwf Ht. apply claim_next_ends. by eapply shares_wf_later. Qed.

Definition wang_claimed : result share_error (option ShareIndexJob) :=
  Ok (Some (mkJob "j2" "g2" UPSERT 1 JOB_RUNNING 1 None (Some "w2") (Some 30006000) None 5000 6000)).

Example claim_takes_oldest_due_witness :
  check_claim " w2 " 30 = Ok "w2"
  ∧ fst <$> claim_next_index_job " w2 " 6000 30 5 none_locked sample_shares = Some wang_claimed
  ∧ ∃ o db', claim_next_index_job " w2 " 6000 30 5 none_locked sample_shares = Some (Ok o, db')
           ∧ claim_outcome 6000 5 none_locked "w2" 30 sample_shares o db'.
Proof.
  split; [vm_compute; reflexivity|]. split; [vm_compute; reflexivity|].
  apply (claim_takes_oldest_due 5000 6000 " w2 " 30 5 none_locked sample_shares "w2");
    [apply sample_shares_wf|lia|vm_compute; reflexivity|lia].
Defined.
