(* ===== verification/SharedWorkerRuns.v ===== *)
(** What the index worker may delete from the vector index: a small logic of
    facts that stay true ([wp]), sound for every interleaving, and the worker's
    programs in it. *)

From S2P Require Import Prelude PyData TripSchema SharedGuides SharedStore SharedLifecycle SharedStoreProofs SharedLater SharedEffects SharedWorker SharedClaims.
From Stdlib Require Import ZArith QArith Lia String.
From stdpp Require Import base tactics option list gmap strings relations.

Open Scope string_scope.
Open Scope Z_scope.

(** ** Facts that stay true *)

(** The versions known to be over. *)
Definition facts : Type := string → Z → Prop.

Definition extends (F F' : facts) : Prop := ∀ s v, F s v → F' s v.

Definition true_in (F : facts) (db : ShareDb) : Prop := ∀ s v, F s v → retired db s v.

Definition deletes_over (F : facts) {X : Type} (op : effect X) : Prop :=
  match op with VectorDelete s v => F s v | _ => True end.

(** A read of a guide teaches which versions it has left behind. *)
Definition learn (F : facts) {X : Type} (op : effect X) : result exn X → facts :=
  match op in effect X return result exn X → facts with
  | GetIndexRecord s => fun r s' v => F s' v ∨ (s' = s ∧ ∃ x, r = Ok (Some x) ∧ ends_version x v)
  | _ => fun _ => F
  end.

(** Every deletion of the program is of a version known to be over by then, and
    its end satisfies [Q]. *)
Fixpoint wp {A : Type} (F : facts) (p : prog A) (Q : facts → result exn A → Prop) : Prop :=
  match p with
  | Ret a => Q F (Ok a)
  | Throw e => Q F (Err e)
  | Do op k => deletes_over F op ∧ ∀ r, wp (learn F op r) (k r) Q
  end.

Lemma extends_refl F : extends F F. Proof. by intros s v. Qed.
Lemma extends_trans F1 F2 F3 : extends F1 F2 → extends F2 F3 → extends F1 F3.
Proof. intros H1 H2 s v H. by apply H2, H1. Qed.

Lemma learn_extends F {X} (op : effect X) r : extends F (learn F op r).
Proof. destruct op; intros s v H; try exact H. by left. Qed.

Lemma wp_mono {A} (p : prog A) : ∀ F (Q Q' : facts → result exn A → Prop),
  (∀ F' r, extends F F' → Q F' r → Q' F' r) → wp F p Q → wp F p Q'.
Proof.
  induction p as [a|e|X op k IH]; intros F Q Q' HQ; cbn [wp]; [apply HQ, extends_refl..|].
  intros [Hd Hk]. split; [done|]. intros r. eapply IH; [|apply Hk].
  intros F' r' He. apply HQ. eapply extends_trans; [apply learn_extends|exact He].
Qed.

Lemma wp_bind {A B} (p : prog A) (f : A → prog B) : ∀ F Q,
  wp F p (fun F' r => match r with Ok a => wp F' (f a) Q | Err e => Q F' (Err e) end) → wp F (p ≫= f) Q.
Proof.
  induction p as [a|e|X op k IH]; intros F Q; cbn; [done..|]. intros [Hd Hk]. split; [done|]. intros r. by apply IH.
Qed.

Lemma wp_try {A} (p : prog A) h : ∀ F Q,
  wp F p (fun F' r => match r with Ok a => Q F' (Ok a) | Err e => wp F' (h e) Q end) → wp F (try p h) Q.
Proof.
  induction p as [a|e|X op k IH]; intros F Q; cbn; [done..|]. intros [Hd Hk]. split; [done|]. intros r. by apply IH.
Qed.

Lemma wp_lift {A} (r : result exn A) F Q : Q F r → wp F (lift r) Q.
Proof. by destruct r. Qed.

Lemma wp_call {X} (op : effect X) F Q :
  deletes_over F op → (∀ r, Q (learn F op r) r) → wp F (call op) Q.
Proof. intros Hd HQ. split; [done|]. intros r. apply wp_lift, HQ. Qed.

(** ** Soundness *)

Lemma perform_db known_user {X} (op : effect X) w :
  (∃ c now, wo_db (perform known_user op w).2 = share_exec known_user c now (wo_db w))
  ∨ wo_db (perform known_user op w).2 = wo_db w.
Proof.
  destruct op; cbn [perform]; try by right.
  - right. by destruct (through _ _ _).
  - right. by destruct (through _ _ _).
  - right. unfold through. by destruct (wo_store w).
  - right. unfold through. by destruct (wo_store w).
  - unfold through. destruct (wo_store w); [left|by right|left]; exists c, now;
      pose proof (store_call_exec known_user c now (wo_db w)) as E; destruct (store_call _ _ _ _); exact E.
Qed.

Lemma perform_later known_user {X} (op : effect X) w : later (wo_db w) (wo_db (perform known_user op w).2).
Proof.
  destruct (perform_db known_user op w) as [(c & now & ->)| ->]; [apply share_exec_later|reflexivity].
Qed.

Lemma true_later F db db' : later db db' → true_in F db → true_in F db'.
Proof. intros Hl H s v Hs. by eapply retired_later, H. Qed.

Lemma learn_true known_user F {X} (op : effect X) w :
  true_in F (wo_db w) → true_in (learn F op (perform known_user op w).1) (wo_db (perform known_user op w).2).
Proof.
  intros HF. apply (true_later F) with (db' := wo_db (perform known_user op w).2) in HF as HF'; [|apply perform_later].
  destruct op; try exact HF'. intros s v [H|(-> & r & Hr & Hv)]; [by apply HF'|]. revert Hr. cbn [perform].
  unfold through, read, get_index_record. destruct (wo_store w); cbn [fst snd]; [|done..].
  destruct (sd_shares (wo_db w) !! share_id) as [x|] eqn:Hx; [|done].
  unfold record_from_row. destruct (record_ok x); cbn [mbind result_bind]; [|done].
  intros [= <-]. exists x. by split.
Qed.

(** In every execution, among whatever the others do. *)
Lemma wp_sound known_user {A} (p : prog A) Q w c : wp (fun _ _ => False) p Q →
  executes known_user (p, w) c → ∃ F, true_in F (wo_db c.2) ∧ wp F c.1 Q.
Proof.
  intros Hp Hex.
  assert (Hinit : ∃ F, true_in F (wo_db (p, w).2) ∧ wp F (p, w).1 Q) by (eexists; split; [|exact Hp]; by intros s v).
  clear Hp. induction Hex as [|x y z Hxy Hyz IH]; [done|]. apply IH. clear IH Hyz.
  destruct Hinit as (F & HF & Hwp). destruct Hxy as [[p1 w1] c' Hn|p1 w1 c' now|p1 w1 w2 E].
  - unfold own_next in Hn. cbn [fst snd] in *. destruct p1 as [a|e|X op k]; [done..|].
    destruct Hwp as [_ Hk]. pose proof (learn_true known_user F op w1 HF) as HF'.
    destruct (perform known_user op w1) as [r w2]. injection Hn as <-. eexists. split; [exact HF'|apply Hk].
  - exists F. split; [|done]. cbn. eapply true_later; [apply share_exec_later|exact HF].
  - exists F. split; [|done]. cbn in *. by rewrite E.
Qed.

(** ** Harmless programs *)

(** Deletes only what is known to be over, from [F] on. *)
Definition harmless {A : Type} (F : facts) (p : prog A) : Prop :=
  ∀ F', extends F F' → wp F' p (fun _ _ => True).

(** What a read of the guide [share_id] found is known. *)
Definition knows (F : facts) (share_id : string) (o : option SharedGuideRecord) : Prop :=
  ∀ x v, o = Some x → ends_version x v → F share_id v.

Section Harmless.
Context {A : Type} (F : facts).

Lemma harmless_ret (a : A) : harmless F (Ret a). Proof. done. Qed.
Lemma harmless_throw e : harmless F (Throw e : prog A). Proof. done. Qed.
Lemma harmless_lift (r : result exn A) : harmless F (lift r). Proof. by destruct r. Qed.

Lemma harmless_bind {B} (p : prog B) (f : B → prog A) :
  harmless F p → (∀ a, harmless F (f a)) → harmless F (p ≫= f).
Proof.
  intros Hp Hf F' He. apply wp_bind. eapply wp_mono; [|by apply Hp].
  intros F'' [a|e] He' _; [|done]. apply Hf. by eapply extends_trans.
Qed.

Lemma harmless_try (p : prog A) h : harmless F p → (∀ e, harmless F (h e)) → harmless F (try p h).
Proof.
  intros Hp Hf F' He. apply wp_try. eapply wp_mono; [|by apply Hp].
  intros F'' [a|e] He' _; [done|]. apply Hf. by eapply extends_trans.
Qed.

Lemma harmless_if (b : bool) (p q : prog A) : (b = true → harmless F p) → (b = false → harmless F q) →
  harmless F (if b then p else q).
Proof. destruct b; auto. Qed.

Lemma harmless_call (op : effect A) : (∀ F', deletes_over F' op) → harmless F (call op).
Proof. intros Hop F' He. by apply wp_call. Qed.

Lemma harmless_extends F' (p : prog A) : extends F F' → harmless F p → harmless F' p.
Proof. intros He Hp F'' He'. apply Hp. by eapply extends_trans. Qed.

(** After a read of a guide, its past is known. *)
Lemma harmless_read s (f : option SharedGuideRecord → prog A) :
  (∀ F' o, extends F F' → knows F' s o → harmless F' (f o)) → harmless F (call (GetIndexRecord s) ≫= f).
Proof.
  intros Hf F' He. apply wp_bind, wp_call; [exact I|]. intros [o|e]; [|done].
  apply (Hf (learn F' (GetIndexRecord s) (Ok o))); [|intros x v -> Hv; right; eauto|apply extends_refl].
  eapply extends_trans; [exact He|apply learn_extends].
Qed.
End Harmless.

Lemma harmless_delete F s v : F s v → harmless F (call (VectorDelete s v)).
Proof. intros Hv F' He. apply wp_call; [by apply He|done]. Qed.

Lemma knows_extends F F' s o : extends F F' → knows F s o → knows F' s o.
Proof. intros He Hk x v Hx Hv. by eapply He, Hk. Qed.

Create HintDb harmless.
#[export] Hint Resolve harmless_ret harmless_throw harmless_lift harmless_delete knows_extends : harmless.

(** Follows a program effect by effect. *)
Ltac harmless :=
  repeat (cbv zeta; first
    [ solve [eauto with harmless]
    | done
    | apply harmless_read; intros ? ? ? ?
    | apply harmless_bind; [|intros ?]
    | apply harmless_try; [|intros ?]
    | apply harmless_if; intros ?
    | apply harmless_call; intros ?; exact I ]).

Section Worker.
Context (cfg : WorkerConfig) (job : ShareIndexJob).

Lemma supersede_harmless F : harmless F (supersede cfg job).
Proof. unfold supersede, store_now. harmless. Qed.

Lemma record_failure_harmless F e : harmless F (record_failure cfg job e).
Proof. unfold record_failure. harmless. Qed.

Lemma record_stale_failure_harmless F : harmless F (record_stale_failure cfg job).
Proof. unfold record_stale_failure. harmless. Qed.

Lemma cleanup_safe_ends current expected x : cleanup_is_safe current job expected = true → current = Some x →
  ends_version x (jb_index_version job).
Proof.
  intros Hs ->. revert Hs. unfold cleanup_is_safe. destruct (_ || _); [done|].
  destruct (Z.ltb_spec (jb_index_version job) (sg_index_version x)) as [?|?]; [by left|].
  destruct (Z.eqb_spec (sg_index_version x) (jb_index_version job)) as [E|?]; [|done]. cbn [negb].
  unfold withdrawal_states. rewrite !andb_true_iff, bool_decide_eq_true. intros [[_ [? _]] _]. by right.
Qed.

Lemma cleanup_upsert_harmless F expected current : knows F (jb_share_id job) current →
  harmless F (cleanup_upsert job expected current).
Proof.
  intros Hk. unfold cleanup_upsert.
  assert (G : ∀ F' o, knows F' (jb_share_id job) o → harmless F' (if negb (cleanup_is_safe o job expected) then Ret false
     else try (_ ← call (VectorDelete (jb_share_id job) (jb_index_version job)); Ret true) (fun _ => Ret false))).
  { intros F' o Ho. destruct (cleanup_is_safe o job expected) eqn:E; cbn [negb]; [|apply harmless_ret].
    harmless. apply harmless_delete. destruct o as [x|]; [|done]. eapply Ho; [done|]. by eapply cleanup_safe_ends. }
  destruct current as [r|]; [by apply G|]. apply harmless_read. intros F' o _ Ho. by apply G.
Qed.

Lemma cleanup_unpublished_harmless F v h current : knows F (jb_share_id job) (Some current) →
  harmless F (cleanup_unpublished_version (jb_share_id job) v h current).
Proof.
  intros Hk. unfold cleanup_unpublished_version. destruct (_ && _ && _ && _) eqn:E; cbn [negb]; [|apply harmless_ret].
  apply andb_true_iff in E as [[[_ Hv%Z.eqb_eq]%andb_true_iff Hw]%andb_true_iff _].
  harmless. apply harmless_delete. eapply Hk; [done|]. right. split; [done|].
  by apply andb_true_iff in Hw as [Hw%bool_decide_eq_true _].
Qed.

Lemma cleanup_versions_harmless F latest l : knows F (jb_share_id job) (Some latest) →
  harmless F (cleanup_versions job latest l).
Proof.
  intros Hk. induction l as [|[v h] l IH]; cbn [cleanup_versions]; [apply harmless_ret|].
  destruct (_ =? _); [done|]. apply harmless_bind; [by apply cleanup_unpublished_harmless|]. intros []; [done|apply harmless_ret].
Qed.

Lemma cleanup_stale_harmless F expected current hashes : knows F (jb_share_id job) current →
  harmless F (cleanup_stale_upsert_effects job expected current hashes).
Proof.
  intros Hk. unfold cleanup_stale_upsert_effects. apply harmless_bind; [by apply cleanup_upsert_harmless|].
  intros []; cbn [negb]; [|apply harmless_ret]. apply harmless_read. intros F' [latest|] _ Ho; [|apply harmless_ret].
  by apply cleanup_versions_harmless.
Qed.

Lemma embedded_vector_harmless F r : harmless F (embedded_vector r).
Proof. unfold embedded_vector. harmless. Qed.
Lemma upsert_vector_harmless F r v : harmless F (upsert_vector r v).
Proof. unfold upsert_vector. harmless. Qed.
#[local] Hint Resolve supersede_harmless record_failure_harmless record_stale_failure_harmless
  cleanup_stale_harmless embedded_vector_harmless upsert_vector_harmless : harmless.

Lemma try_restore_harmless F r hashes : harmless F (try_restore_ready_record r hashes).
Proof.
  unfold try_restore_ready_record. apply harmless_bind; [harmless|]. intros [v|]; [|apply harmless_ret].
  harmless.
Qed.
Lemma requeue_ready_harmless F r : harmless F (requeue_ready_record r).
Proof. unfold requeue_ready_record, store_now. harmless. Qed.
#[local] Hint Resolve try_restore_harmless requeue_ready_harmless : harmless.

Lemma reconcile_harmless passes expected : ∀ F current hashes, knows F (jb_share_id job) current →
  harmless F (reconcile_passes passes job expected current hashes).
Proof.
  induction passes as [|passes IH]; intros F current hashes Hk; cbn [reconcile_passes].
  - apply harmless_read. intros F' [r|] _ Ho; harmless.
  - destruct current as [r|]; [|apply harmless_ret]. harmless. destruct a as [[[]|] restored]; [apply harmless_ret| |].
    + apply harmless_bind; [harmless|]. intros requeued. apply harmless_read. intros F' o _ Ho. harmless.
    + apply harmless_read. intros F' o _ Ho. harmless.
Qed.
#[local] Hint Resolve reconcile_harmless : harmless.

Lemma finish_stale_harmless F expected : harmless F (finish_stale_upsert cfg job expected).
Proof.
  unfold finish_stale_upsert, reconcile_stale_upsert. apply harmless_bind; [|intros []; harmless].
  destruct expected as [r|]; [|apply harmless_ret]. harmless.
Qed.
#[local] Hint Resolve finish_stale_harmless : harmless.

Lemma write_upsert_harmless F r : harmless F (write_upsert cfg job r).
Proof. unfold write_upsert. harmless. Qed.
#[local] Hint Resolve write_upsert_harmless : harmless.

Lemma execute_upsert_harmless F : harmless F (execute_upsert cfg job).
Proof. unfold execute_upsert, store_now. apply harmless_read. intros F' [r|] _ Ho; harmless. Qed.

Lemma matches_delete_ends o x : matches_delete o job = true → o = Some x → ends_version x (jb_index_version job).
Proof.
  intros Hm ->. revert Hm. cbn [matches_delete operation_open].
  rewrite !andb_true_iff, Z.eqb_eq, bool_decide_eq_true. intros (? & ? & _). right. split; [by symmetry|done].
Qed.

Lemma execute_delete_harmless F : harmless F (execute_delete cfg job).
Proof.
  unfold execute_delete. apply harmless_read. intros F' [r|] _ Ho; [|harmless].
  apply harmless_if; intros Hm; [harmless|].
  assert (Hd : ∀ G, extends F' G → harmless G (call (VectorDelete (jb_share_id job) (jb_index_version job)))).
  { intros G HG. apply harmless_delete, HG. eapply Ho; [done|].
    by eapply matches_delete_ends; [apply negb_false_iff in Hm; exact Hm|]. }
  apply harmless_read. intros F'' o HF _. apply harmless_if; intros ?; [harmless|].
  apply harmless_bind; [by apply Hd|]. intros _. unfold store_now. harmless.
Qed.

Lemma execute_job_harmless F : harmless F (execute_job cfg job).
Proof.
  unfold execute_job. apply harmless_try; [|harmless].
  destruct (jb_operation job); [apply execute_upsert_harmless|apply execute_delete_harmless].
Qed.
End Worker.

Lemma run_once_harmless cfg locked F : harmless F (run_once cfg locked).
Proof.
  unfold run_once, store_now. apply harmless_bind; [harmless|]. intros [job|]; [|apply harmless_ret].
  apply harmless_bind; [apply execute_job_harmless|]. intros ?. apply harmless_ret.
Qed.

(** What the index worker does with a job when nobody interferes, and what it
    may delete when they do. *)

(** ** Alone *)

Lemma run_alone_bind known_user {A B} (p : prog A) (f : A → prog B) : ∀ w,
  run_alone known_user (p ≫= f) w =
    match run_alone known_user p w with
    | (Ok a, w') => run_alone known_user (f a) w'
    | (Err e, w') => (Err e, w')
    end.
Proof.
  induction p as [a|e|X op k IH]; intros w; [done..|]. cbn. destruct (perform known_user op w) as [r w']. apply IH.
Qed.

Lemma run_alone_try known_user {A} (p : prog A) h : ∀ w,
  run_alone known_user (try p h) w =
    match run_alone known_user p w with
    | (Ok a, w') => (Ok a, w')
    | (Err e, w') => run_alone known_user (h e) w'
    end.
Proof.
  induction p as [a|e|X op k IH]; intros w; [done..|]. cbn. destruct (perform known_user op w) as [r w']. apply IH.
Qed.

Lemma run_alone_lift known_user {A} (r : result exn A) w : run_alone known_user (lift r) w = (r, w).
Proof. by destruct r. Qed.

Lemma run_alone_call known_user {X} (op : effect X) w : run_alone known_user (call op) w = perform known_user op w.
Proof. unfold call. cbn [run_alone]. destruct (perform known_user op w). apply run_alone_lift. Qed.

(** The embedding and the vector index on one guide: the outcome, and the points
    after it. *)
Definition vector_attempt (w : World) (r : SharedGuideRecord) (operation : IndexOperation)
    : result exn unit * gmap string Point :=
  match operation with
  | UPSERT =>
      match wo_embed w (pd_retrieval_text (sg_draft r)) with
      | Err e => (Err e, wo_points w)
      | Ok values =>
          match validated_vector values (pd_embedding_dimension (sg_draft r)) with
          | Err e => (Err e, wo_points w)
          | Ok vector =>
              match index_payload r with
              | Err e => (Err e, wo_points w)
              | Ok payload =>
                  through (wo_index w) (wo_points w) (Ok tt, upsert_point (sg_share_id r) vector payload (wo_points w))
              end
          end
      end
  | DELETE => through (wo_index w) (wo_points w) (Ok tt, delete_point (sg_share_id r) (sg_index_version r) (wo_points w))
  end.

(** The tables when the outcome is recorded. *)
Definition recorded (cfg : WorkerConfig) (now : datetime) (job : ShareIndexJob) (r : SharedGuideRecord)
    (outcome : result exn unit) (db : ShareDb) : ShareDb :=
  let '(share', job') :=
    match outcome with
    | Ok _ => (completed (jb_operation job) now r, with_error None (close_job JOB_SUCCEEDED None now job))
    | Err e =>
        (failed_share (jb_operation job) (sanitize_error (Some (exn_class e))) (is_terminal cfg job) now r,
         failed_job (sanitize_error (Some (exn_class e))) (worker_retry_at cfg job now) (is_terminal cfg job) now job)
    end in
  mkShareDb (<[jb_share_id job := share']> (sd_shares db)) (<[jb_job_id job := job']> (sd_jobs db)) (sd_likes db).

Lemma end_operation_succeeds db k s op w now f g j r :
  sd_jobs db !! k = Some j → sd_shares db !! s = Some r → of_version s op (sg_index_version r) j = true →
  lease_matches w now j = true → operation_open op r = true →
  end_operation k s (sg_index_version r) op w now f g db
    = (true, mkShareDb (<[s := f r]> (sd_shares db)) (<[k := g j]> (sd_jobs db)) (sd_likes db)).
Proof.
  intros Hj Hr Hv Hl Ho. unfold end_operation, select_share, leased_job, update_share, update_job.
  rewrite Hr, Z.eqb_refl. cbn [negb]. rewrite Hj. cbn [mbind option_bind]. rewrite Hv, Hl. cbn [andb].
  rewrite Ho. cbn [andb sd_jobs overwrite]. rewrite Hj, Hv, Hl. done.
Qed.

Section Settle.
Context (known_user : string → bool) (cfg : WorkerConfig) (t : datetime) (db : ShareDb) (points : gmap string Point)
        (now : datetime) (embed : string → result exn (list Embedded)) (index : Status)
        (job : ShareIndexJob) (r : SharedGuideRecord).
Context (Hwf : shares_wf t db) (Hj : sd_jobs db !! jb_job_id job = Some job)
        (Hr : sd_shares db !! jb_share_id job = Some r) (Hv : jb_index_version job = sg_index_version r)
        (Hl : lease_matches (wc_worker_id cfg) now job = true) (Ho : operation_open (jb_operation job) r = true).

Notation world pts := (mkWorld db pts now embed index Up).

Lemma read_guide pts : perform known_user (GetIndexRecord (jb_share_id job)) (world pts) = (Ok (Some r), world pts).
Proof.
  cbn [perform through wo_store wo_db]. unfold get_index_record. rewrite Hr.
  destruct (row_valid _ _ Hwf _ _ Hr) as [_ ->]. done.
Qed.

Lemma guide_key : sg_share_id r = jb_share_id job.
Proof. by destruct (row_valid _ _ Hwf _ _ Hr). Qed.

Lemma same_guide : same_content (Some r) r = true.
Proof. apply String.eqb_refl. Qed.

Lemma own_version : of_version (jb_share_id job) (jb_operation job) (sg_index_version r) job = true.
Proof. by apply of_version_iff. Qed.

Lemma retry_given : check_failure (worker_retry_at cfg job now) (is_terminal cfg job) = Ok tt.
Proof. unfold check_failure, worker_retry_at, next_retry, is_terminal. by destruct (_ <=? _). Qed.

Lemma record_failure_alone e pts :
  run_alone known_user (record_failure cfg job e) (world pts)
  = (Ok tt, mkWorld (recorded cfg now job r (Err e) db) pts now embed index Up).
Proof.
  unfold record_failure. rewrite run_alone_bind, run_alone_call. cbn [perform wo_now].
  rewrite run_alone_try, run_alone_bind, run_alone_call. cbn [perform through wo_store wo_db store_call].
  unfold record_index_failure. rewrite retry_given. cbn [mbind result_bind outcome]. cbv zeta. rewrite Hv.
  rewrite (end_operation_succeeds db _ _ _ _ _ _ _ job r Hj Hr own_version Hl Ho). done.
Qed.

Lemma complete_alone pts (op : IndexOperation) (k : prog unit) : jb_operation job = op →
  run_alone known_user
    (done ← store_now (CompleteIndexOperation (jb_job_id job) (jb_share_id job) (jb_index_version job) op (wc_worker_id cfg));
     if (done : bool) then Ret tt else k) (world pts)
  = (Ok tt, mkWorld (recorded cfg now job r (Ok tt) db) pts now embed index Up).
Proof.
  intros <-. rewrite run_alone_bind. unfold store_now. rewrite run_alone_bind, run_alone_call. cbn [perform wo_now].
  rewrite run_alone_call. cbn [perform through wo_store wo_db store_call]. unfold complete_index_operation, returns.
  rewrite Hv, (end_operation_succeeds db _ _ _ _ _ _ _ job r Hj Hr own_version Hl Ho). done.
Qed.

Lemma execute_delete_alone : jb_operation job = DELETE →
  run_alone known_user (execute_delete cfg job) (world points) =
    match vector_attempt (world points) r DELETE with
    | (Ok _, pts) => (Ok tt, mkWorld (recorded cfg now job r (Ok tt) db) pts now embed index Up)
    | (Err e, pts) => (Err e, world pts)
    end.
Proof.
  intros Hop.
  assert (Hm : matches_delete (Some r) job = true)
    by (cbn [matches_delete]; rewrite Hv, Z.eqb_refl, <- Hop; exact Ho).
  assert (Hm' : same_delete_target (Some r) r job = true) by (unfold same_delete_target; by rewrite Hm, same_guide).
  unfold execute_delete. rewrite run_alone_bind, run_alone_call, read_guide, Hm. cbn [negb].
  rewrite run_alone_bind, run_alone_call, read_guide, Hm'. cbn [negb].
  rewrite run_alone_bind, run_alone_call. cbn [perform wo_index wo_points vector_attempt]. rewrite guide_key, <- Hv.
  destruct (through _ _ _) as [[[]|e] pts]; cbn [set_points overwrite]; [|done].
  rewrite run_alone_bind, run_alone_call.
  assert (E : ∀ w0, set_points w0 pts = mkWorld (wo_db w0) pts (wo_now w0) (wo_embed w0) (wo_index w0) (wo_store w0)) by done.
  rewrite E. cbn [wo_db wo_now wo_embed wo_index wo_store]. rewrite read_guide, Hm'. cbn [negb]. by apply complete_alone.
Qed.

Lemma execute_upsert_alone : jb_operation job = UPSERT →
  run_alone known_user (execute_upsert cfg job) (world points) =
    match vector_attempt (world points) r UPSERT with
    | (Ok _, pts) => (Ok tt, mkWorld (recorded cfg now job r (Ok tt) db) pts now embed index Up)
    | (Err e, pts) => (Err e, world pts)
    end.
Proof.
  intros Hop.
  assert (Hm : matches_upsert (Some r) job = true)
    by (cbn [matches_upsert]; rewrite Hv, Z.eqb_refl, <- Hop; exact Ho).
  assert (Hm' : same_upsert_target (Some r) r job = true) by (unfold same_upsert_target; by rewrite Hm, same_guide).
  assert (Hhandler : ∀ e pts, run_alone known_user
     (current ← call (GetIndexRecord (jb_share_id job));
      if negb (same_upsert_target current r job) then _ ← finish_stale_upsert cfg job (Some r); Ret true
      else Throw e : prog bool) (world pts) = (Err e, world pts)).
  { intros e pts. by rewrite run_alone_bind, run_alone_call, read_guide, Hm'. }
  assert (Hwrite : run_alone known_user (write_upsert cfg job r) (world points) =
    match vector_attempt (world points) r UPSERT with
    | (Ok _, pts) => (Ok false, world pts)
    | (Err e, pts) => (Err e, world pts)
    end).
  { unfold write_upsert. rewrite run_alone_try, run_alone_bind. unfold embedded_vector.
    rewrite run_alone_bind, run_alone_call. cbn [perform wo_embed vector_attempt wo_points wo_index].
    destruct (embed _) as [values|e]; [|apply Hhandler]. rewrite run_alone_lift.
    destruct (validated_vector _ _) as [vector|e]; [|apply Hhandler].
    rewrite run_alone_bind, run_alone_call, read_guide, Hm'. cbn [negb].
    rewrite run_alone_bind. unfold upsert_vector. rewrite run_alone_bind, run_alone_lift.
    destruct (index_payload r) as [payload|e]; [|apply Hhandler].
    rewrite run_alone_call. cbn [perform wo_index wo_points].
    destruct (through _ _ _) as [[[]|e] pts]; [done|apply Hhandler]. }
  unfold execute_upsert. rewrite run_alone_bind, run_alone_call, read_guide, Hm. cbn [negb].
  rewrite run_alone_bind, Hwrite. destruct (vector_attempt _ _ _) as [[[]|e] pts]; [|done].
  rewrite run_alone_bind, run_alone_call, read_guide, Hm'. cbn [negb]. by apply complete_alone.
Qed.

Lemma execute_job_alone :
  run_alone known_user (execute_job cfg job) (world points) =
    let '(outcome, pts) := vector_attempt (world points) r (jb_operation job) in
    (Ok tt, mkWorld (recorded cfg now job r outcome db) pts now embed index Up).
Proof.
  unfold execute_job. rewrite run_alone_try.
  assert (E : run_alone known_user (match jb_operation job with UPSERT => execute_upsert cfg job
                                    | DELETE => execute_delete cfg job end) (world points) =
    match vector_attempt (world points) r (jb_operation job) with
    | (Ok _, pts) => (Ok tt, mkWorld (recorded cfg now job r (Ok tt) db) pts now embed index Up)
    | (Err e, pts) => (Err e, world pts)
    end).
  { generalize execute_upsert_alone, execute_delete_alone. by destruct (jb_operation job); auto. }
  rewrite E. destruct (vector_attempt _ _ _) as [[[]|e] pts]; [done|]. apply record_failure_alone.
Qed.
End Settle.

(** ** Theorems *)

(** C19: The index worker only ever takes out of the vector index what is over: at every deletion it
    makes, whatever other requests and workers did before it and between any two of its effects,
    and whichever of its own effects failed, the version it deletes is withdrawn or replaced; so the
    point of a guide's public version stays. *)
Theorem worker_deletes_retired_only known_user cfg locked w0 c s v :
  executes known_user (run_once cfg locked, w0) c → next_delete c = Some (s, v) →
  retired (wo_db c.2) s v
  ∧ ∀ r p points, sd_shares (wo_db c.2) !! s = Some r → sg_publication_status r = PUBLIC →
      points !! s = Some p → ip_index_version (pt_payload p) = sg_index_version r →
      delete_point s v points !! s = Some p.
Proof.
  intros Hex Hd. assert (Hret : retired (wo_db c.2) s v).
  { destruct (wp_sound known_user _ (fun _ _ => True) w0 c
      (run_once_harmless cfg locked (fun _ _ => False) _ (extends_refl _)) Hex) as (F & HF & Hwp).
    apply HF. revert Hwp Hd. unfold next_delete. destruct c.1 as [a|e|X op k]; [done..|]. cbn [wp].
    destruct op; try done. cbn [deletes_over]. by intros [H _] [= <- <-]. }
  split; [done|]. intros r p points Hr Hp Hpt Hv. unfold delete_point. rewrite Hpt.
  destruct Hret as (r' & Hr' & Hret). rewrite Hr in Hr'. injection Hr' as <-.
  rewrite (proj2 (Z.eqb_neq _ _)); [done|]. destruct Hret as [?|[_ ?]]; [lia|congruence].
Qed.


(** ** Examples *)

(** Li's guide is withdrawn; the worker polls: clock, claim, two reads, and the
    deletion is next. *)
Definition withdrawal_poll : config bool := (run_once sample_worker none_locked, sample_world withdrawn_shares 8000).

Example worker_deletes_retired_only_witness :
  ∃ c, executes known_sample withdrawal_poll c ∧ next_delete c = Some ("g1", 1) ∧ retired (wo_db c.2) "g1" 1.
Proof.
  assert (E : (c ← drive known_sample [Own; Own; Own; Own] withdrawal_poll; next_delete c) = Some ("g1", 1))
    by (vm_compute; reflexivity).
  destruct (drive known_sample [Own; Own; Own; Own] withdrawal_poll) as [c|] eqn:Hc; [|done].
  apply drive_executes in Hc. exists c. split; [exact Hc|]. split; [exact E|].
  apply (worker_deletes_retired_only known_sample sample_worker none_locked (sample_world withdrawn_shares 8000) c "g1" 1 Hc E).
Defined.

(** Wang's guide waits: the worker publishes it. *)
Definition wang_public : SharedGuideRecord :=
  mkRecord "g2" (sample_draft "wang" "s2") PUBLIC INDEX_READY 1 0 None (Some 6000) (Some 5000) 5000 6000.

