(* ===== verification/SharedService.v ===== *)
(** The publication of guides ([SharedGuideService], src/app/sharing/service.py)
    as programs of [SharedEffects].

    [prepare] is [_prepare_draft], which reads the trip's confirmed version and
    builds the retrieval text; the ids are the results of [uuid4()], and
    [worker_id] is [_sync_worker_id()].  The metrics around a publication change
    nothing and are left out. *)

From S2P Require Import Prelude PyData TripSchema SharedGuides SharedStore SharedLifecycle SharedStoreProofs SharedEffects SharedWorker SharedClaims SharedWorkerRuns.
From Stdlib Require Import ZArith QArith Lia String.
From stdpp Require Import base tactics option list gmap strings.

Open Scope string_scope.
Open Scope Z_scope.

Record ServiceConfig := mkServiceConfig {
  sv_write_enabled : bool; sv_lease_seconds : Q; sv_max_attempts : Z;
  sv_retry_base_seconds : Q; sv_retry_max_seconds : Q
}.

Definition unavailable : exn := StoreExn (SharedGuideUnavailableError "shared guide indexing is temporarily unavailable").

Section Service.
Context (cfg : ServiceConfig) (worker_id : string).

(** [_require_write_enabled] and [_require_user] *)
Definition require_write_enabled : result exn unit :=
  if sv_write_enabled cfg then Ok tt
  else Err (StoreExn (SharedGuideUnavailableError "shared guide writes are unavailable")).

Definition require_user (user_id : string) : result exn string :=
  let normalized := py_strip user_id in
  if String.eqb normalized "" then Err (StoreExn (SharedGuideForbiddenError "authentication is required"))
  else Ok normalized.

(** [_best_effort_failure] *)
Definition best_effort_failure (intent : ShareIndexIntent) (attempt_count : Z) (error : exn) : prog unit :=
  match in_job intent with
  | None => Ret tt
  | Some job =>
      now ← call Clock;
      try
        (_ ← call (Store (RecordIndexFailure (jb_job_id job) (sg_share_id (in_record intent))
               (sg_index_version (in_record intent)) (jb_operation job) (Some (exn_class error)) worker_id
               (next_retry (sv_retry_base_seconds cfg) (sv_retry_max_seconds cfg) (sv_max_attempts cfg) attempt_count now)
               (sv_max_attempts cfg <=? attempt_count)) now);
         Ret tt)
        (fun _ => Ret tt)
  end.

(** [_best_effort_delete] *)
Definition best_effort_delete (record : SharedGuideRecord) : prog unit :=
  try (call (VectorDelete (sg_share_id record) (sg_index_version record))) (fun _ => Ret tt).

(** [_best_effort_supersede] *)
Definition best_effort_supersede (job_id : string) (worker : option string) : prog unit :=
  try (_ ← store_now (SupersedeIndexJob job_id worker); Ret tt) (fun _ => Ret tt).

(** [_index_payload] of the service, with its own error. *)
Definition publish_payload (record : SharedGuideRecord) : result exn IndexPayload :=
  match index_payload record with
  | Ok payload => Ok payload
  | Err _ => Err (StoreExn (SharedGuideConflictError "staged publish has no publication timestamp"))
  end.

Definition publish_vector (record : SharedGuideRecord) : prog unit :=
  vector ← embedded_vector record;
  payload ← lift (publish_payload record);
  call (VectorUpsert (sg_share_id record) vector payload).

(** [_publish_unobserved] *)
Definition publish (intent : ShareIndexIntent) (author_user_id : string) : prog SharedGuideRecord :=
  let record := in_record intent in
  if negb (in_operation_required intent) then
    if public_ready record then Ret record else Throw unavailable
  else
    match in_job intent with
    | None => Throw (StoreExn (SharedGuideConflictError "the publish operation has no index job"))
    | Some job =>
        claimed ← store_now (ClaimIndexJob (jb_job_id job) worker_id (sv_lease_seconds cfg));
        match (claimed : option ShareIndexJob) with
        | None =>
            current ← call (GetOwned (sg_share_id record) author_user_id);
            if same_ready_record (Some current) record then Ret current
            else Throw (StoreExn (SharedGuideConflictError "the publish operation is already in progress"))
        | Some claimed =>
            _ ← try (publish_vector record)
                  (fun error => _ ← best_effort_failure intent (jb_attempt_count claimed) error; Throw unavailable);
            completed ← try (store_now (CompleteIndexOperation (jb_job_id job) (sg_share_id record)
                               (sg_index_version record) UPSERT worker_id))
                          (fun _ => Throw unavailable);
            if (completed : bool) then call (GetOwned (sg_share_id record) author_user_id)
            else
              _ ← best_effort_delete record;
              _ ← best_effort_supersede (jb_job_id job) (Some worker_id);
              Throw (StoreExn (SharedGuideConflictError "the publish operation was superseded"))
        end
    end.

(** [_unpublish] *)
Definition unpublish_guide (share_id author_user_id new_job_id : string) : prog SharedGuideRecord :=
  intent ← store_now (StageUnpublish share_id author_user_id new_job_id);
  let intent : ShareIndexIntent := intent in
  if negb (in_operation_required intent) then Ret (in_record intent)
  else
    match in_job intent with
    | None => call (GetOwned share_id author_user_id)
    | Some job =>
        claimed ← store_now (ClaimIndexJob (jb_job_id job) worker_id (sv_lease_seconds cfg));
        match (claimed : option ShareIndexJob) with
        | None =>
            _ ← best_effort_supersede (jb_job_id job) None;
            call (GetOwned share_id author_user_id)
        | Some claimed =>
            failed ← try (_ ← call (VectorDelete (sg_share_id (in_record intent)) (sg_index_version (in_record intent)));
                          Ret false)
                       (fun error => _ ← best_effort_failure intent (jb_attempt_count claimed) error; Ret true);
            if (failed : bool) then call (GetOwned share_id author_user_id)
            else
              completed ← try (b ← store_now (CompleteIndexOperation (jb_job_id job) (sg_share_id (in_record intent))
                                 (sg_index_version (in_record intent)) DELETE worker_id);
                               Ret (Some (b : bool)))
                            (fun _ => Ret None);
              match completed with
              | Some false =>
                  _ ← best_effort_supersede (jb_job_id job) (Some worker_id);
                  call (GetOwned share_id author_user_id)
              | _ => call (GetOwned share_id author_user_id)
              end
        end
    end.

(** [share_session] *)
Definition share_session (prepare : string → result exn SharePublishDraft) (author_user_id new_share_id new_job_id : string)
    : prog SharedGuideRecord :=
  _ ← lift require_write_enabled;
  author ← lift (require_user author_user_id);
  draft ← lift (prepare author);
  intent ← store_now (CreatePublishIntent draft new_share_id new_job_id);
  publish intent author.

(** [update] *)
Definition update_guide (prepare : string → string → result exn SharePublishDraft)
    (share_id author_user_id new_job_id : string) : prog SharedGuideRecord :=
  _ ← lift require_write_enabled;
  author ← lift (require_user author_user_id);
  current ← call (GetOwned share_id author);
  draft ← lift (prepare (pd_source_session_id (sg_draft current)) author);
  intent ← store_now (StageUpdate share_id author draft true None None None None new_job_id);
  publish intent author.

(** [unpublish] *)
Definition unpublish (share_id author_user_id new_job_id : string) : prog SharedGuideRecord :=
  _ ← lift require_write_enabled;
  author ← lift (require_user author_user_id);
  unpublish_guide share_id author new_job_id.

(** [like] and [unlike] *)
Definition like (share_id user_id : string) : prog LikeMutation :=
  _ ← lift require_write_enabled;
  user ← lift (require_user user_id);
  store_now (PutLike share_id user).

Definition unlike (share_id user_id : string) : prog LikeMutation :=
  _ ← lift require_write_enabled;
  user ← lift (require_user user_id);
  store_now (DeleteLike share_id user).
End Service.

(** What the sharing service does when nobody interferes, and what a publication
    that outlives its lease does. *)

(** The settings of a publication as those of a worker. *)
Definition as_worker (cfg : ServiceConfig) (worker_id : string) : WorkerConfig :=
  mkWorkerConfig worker_id (sv_lease_seconds cfg) (sv_max_attempts cfg) (sv_retry_base_seconds cfg)
    (sv_retry_max_seconds cfg).

Section Alone.
Context (known_user : string → bool) (cfg : ServiceConfig) (worker_id : string).
Context (t : datetime) (points : gmap string Point)
        (now : datetime) (embed : string → result exn (list Embedded)) (index : Status).

Notation world db pts := (mkWorld db pts now embed index Up).

Lemma store_now_alone c db pts :
  run_alone known_user (store_now c) (world db pts)
  = ((store_call known_user c now db).1, world (store_call known_user c now db).2 pts).
Proof.
  unfold store_now. rewrite run_alone_bind, run_alone_call. cbn [perform wo_now].
  rewrite run_alone_call. cbn [perform through wo_store wo_db]. by destruct (store_call known_user c now db).
Qed.

Lemma get_owned_alone t' db pts r : shares_wf t' db → sd_shares db !! sg_share_id r = Some r →
  run_alone known_user (call (GetOwned (sg_share_id r) (pd_author_user_id (sg_draft r)))) (world db pts)
  = (Ok r, world db pts).
Proof.
  intros Hwf Hr. rewrite run_alone_call. cbn [perform through wo_store wo_db].
  unfold get_owned, select_owned. rewrite Hr. cbn [mbind option_bind]. rewrite String.eqb_refl.
  destruct (row_valid _ _ Hwf _ _ Hr) as [_ ->]. done.
Qed.

Lemma claim_index_succeeds t' db job : shares_wf t' db → sd_jobs db !! jb_job_id job = Some job → job_due now job = true →
  check_claim worker_id (sv_lease_seconds cfg) = Ok worker_id →
  claim_index_job (jb_job_id job) worker_id now (sv_lease_seconds cfg) db
  = Ok (Some (lease_job worker_id (now + timedelta_seconds (sv_lease_seconds cfg)) now job),
        set_job (lease_job worker_id (now + timedelta_seconds (sv_lease_seconds cfg)) now job) db).
Proof.
  intros Hwf Hj Hd Hc. unfold claim_index_job. rewrite Hc. cbn [mbind result_bind]. rewrite Hj.
  destruct (job_valid _ _ Hwf _ _ Hj) as [_ Hok]. rewrite Hok. cbn [mbind result_bind]. rewrite Hd. cbn [negb].
  unfold update_job. rewrite Hj, Hd. rewrite (job_from_leased now _ _ _ Hok); [done|].
  by apply check_claim_Ok in Hc as [_ ?].
Qed.

(** A guide that waits, its due job, and the settings of a lease. *)
Context (db : ShareDb) (job : ShareIndexJob) (r : SharedGuideRecord).
Context (Hwf : shares_wf t db) (Ht : t <= now)
        (Hj : sd_jobs db !! jb_job_id job = Some job) (Hd : job_due now job = true)
        (Hr : sd_shares db !! jb_share_id job = Some r) (Hv : jb_index_version job = sg_index_version r)
        (Hop : jb_operation job = UPSERT) (Ho : operation_open UPSERT r = true)
        (Hc : check_claim worker_id (sv_lease_seconds cfg) = Ok worker_id)
        (Hlease : 0 < timedelta_seconds (sv_lease_seconds cfg)).

Definition leased : ShareIndexJob := lease_job worker_id (now + timedelta_seconds (sv_lease_seconds cfg)) now job.

Lemma leased_matches : lease_matches worker_id now leased = true.
Proof.
  unfold leased, lease_matches, lease_job. cbn [jb_status jb_lease_owner jb_lease_expires_at].
  rewrite !bool_decide_true by done. apply Z.ltb_lt. lia.
Qed.

Lemma claimed_wf : shares_wf now (set_job leased db).
Proof.
  eapply share_steps_wf; [exact Hwf|exact Ht|].
  pose proof (share_exec_steps known_user t now (ClaimIndexJob (jb_job_id job) worker_id (sv_lease_seconds cfg)) db Hwf Ht eq_refl) as Hs.
  cbn [share_exec] in Hs. rewrite (claim_index_succeeds t db job) in Hs by done. exact Hs.
Qed.

(** The vector of the service and that of the worker. *)
Lemma publish_vector_alone pts d :
  run_alone known_user (publish_vector r) (world d pts) =
    let '(outcome, pts') := vector_attempt (world d pts) r UPSERT in (outcome, world d pts').
Proof.
  unfold publish_vector, embedded_vector. rewrite run_alone_bind, run_alone_bind, run_alone_call.
  cbn [perform wo_embed vector_attempt wo_points wo_index]. destruct (embed _) as [values|e]; [|done].
  rewrite run_alone_lift. destruct (validated_vector _ _) as [vector|e]; [|done].
  rewrite run_alone_bind, run_alone_lift. unfold publish_payload, index_payload.
  destruct (sw_times _ _ _ _ (wf_shares _ _ Hwf _ _ Hr)) as (p & -> & _). cbv zeta.
  rewrite run_alone_call. cbn [perform wo_index wo_points]. by destruct (through _ _ _) as [[[]|e] pts'].
Qed.

Definition publication_tables (outcome : result exn unit) : ShareDb :=
  recorded (as_worker cfg worker_id) now leased r outcome (set_job leased db).

Lemma publication_wf outcome : shares_wf now (publication_tables outcome).
Proof.
  assert (Hj' : sd_jobs (set_job leased db) !! jb_job_id job = Some leased) by apply lookup_insert_eq.
  assert (Hov : of_version (jb_share_id job) UPSERT (sg_index_version r) leased = true) by (by apply of_version_iff).
  pose proof leased_matches as Hm.
  assert (Hexec : ∃ c, call_ok c = true ∧ share_exec known_user c now (set_job leased db) = publication_tables outcome).
  { unfold publication_tables, recorded. change (jb_operation leased) with (jb_operation job). rewrite Hop.
    destruct outcome as [u|e].
    - exists (CompleteIndexOperation (jb_job_id job) (jb_share_id job) (sg_index_version r) UPSERT worker_id).
      split; [done|]. cbn [share_exec]. unfold complete_index_operation.
      by rewrite (end_operation_succeeds _ _ _ _ _ _ _ _ leased r Hj' Hr Hov Hm Ho).
    - exists (RecordIndexFailure (jb_job_id job) (jb_share_id job) (sg_index_version r) UPSERT (Some (exn_class e)) worker_id
        (worker_retry_at (as_worker cfg worker_id) leased now) (is_terminal (as_worker cfg worker_id) leased)).
      split; [done|]. cbn [share_exec]. unfold record_index_failure. rewrite retry_given. cbn [mbind result_bind commit].
      cbv zeta. by rewrite (end_operation_succeeds _ _ _ _ _ _ _ _ leased r Hj' Hr Hov Hm Ho). }
  destruct Hexec as (c & Hok & <-).
  eapply share_steps_wf; [exact claimed_wf|reflexivity|]. by eapply share_exec_steps; [exact claimed_wf|reflexivity|].
Qed.

Lemma publish_alone intent : in_record intent = r → in_job intent = Some job → in_operation_required intent = true →
  run_alone known_user (publish cfg worker_id intent (pd_author_user_id (sg_draft r))) (world db points) =
    let '(outcome, pts) := vector_attempt (world db points) r UPSERT in
    (match outcome with Ok _ => Ok (completed UPSERT now r) | Err _ => Err unavailable end,
     world (publication_tables outcome) pts).
Proof.
  intros Hir Hij Hreq. unfold publish. rewrite Hir, Hij, Hreq. cbn [negb]. cbv zeta.
  destruct (row_valid _ _ Hwf _ _ Hr) as [Hkey _].
  rewrite run_alone_bind.
  pose proof (store_now_alone (ClaimIndexJob (jb_job_id job) worker_id (sv_lease_seconds cfg)) db points) as Ec.
  cbn [reply store_call] in Ec. rewrite (claim_index_succeeds t db job) in Ec by done. cbn [outcome fst snd] in Ec.
  rewrite Ec. clear Ec. fold leased. rewrite run_alone_bind, run_alone_try, publish_vector_alone.
  assert (Hj' : sd_jobs (set_job leased db) !! jb_job_id job = Some leased) by apply lookup_insert_eq.
  assert (Hov : of_version (jb_share_id job) UPSERT (sg_index_version r) leased = true) by (by apply of_version_iff).
  change (vector_attempt (world (set_job leased db) points) r UPSERT) with (vector_attempt (world db points) r UPSERT).
  destruct (vector_attempt (world db points) r UPSERT) as [[[]|e] pts].
  - cbv beta iota. rewrite run_alone_bind, run_alone_try.
    pose proof (store_now_alone (CompleteIndexOperation (jb_job_id job) (sg_share_id r) (sg_index_version r) UPSERT worker_id)
      (set_job leased db) pts) as Ec.
    cbn [reply store_call returns] in Ec. unfold complete_index_operation in Ec.
    rewrite Hkey, (end_operation_succeeds _ _ _ _ _ _ _ _ leased r Hj' Hr Hov leased_matches Ho) in Ec.
    cbn [fst snd returns] in Ec. rewrite Hkey. cbn [reply]. rewrite Ec. clear Ec.
    assert (E : mkShareDb (<[jb_share_id job := completed UPSERT now r]> (sd_shares (set_job leased db)))
       (<[jb_job_id job := with_error None (close_job JOB_SUCCEEDED None now leased)]> (sd_jobs (set_job leased db)))
       (sd_likes (set_job leased db)) = publication_tables (Ok tt)).
    { unfold publication_tables, recorded. change (jb_operation leased) with (jb_operation job). by rewrite Hop. }
    rewrite E. pose proof (get_owned_alone now (publication_tables (Ok tt)) pts (completed UPSERT now r)) as G.
    change (sg_share_id (completed UPSERT now r)) with (sg_share_id r) in G. rewrite Hkey in G. apply G; clear G.
    + apply publication_wf.
    + rewrite <- E. apply lookup_insert_eq.
  - cbv beta iota. rewrite run_alone_bind. unfold best_effort_failure. rewrite Hij, Hir, run_alone_bind, run_alone_call. cbn [perform wo_now].
    rewrite run_alone_try, run_alone_bind, run_alone_call. cbn [perform through wo_store wo_db store_call].
    unfold record_index_failure.
    pose proof (retry_given (as_worker cfg worker_id) now leased) as Hretry.
    unfold worker_retry_at, is_terminal in Hretry. cbn [as_worker wc_retry_base_seconds wc_retry_max_seconds wc_max_attempts] in Hretry.
    rewrite Hretry. cbn [mbind result_bind outcome]. cbv zeta.
    rewrite Hkey, Hop, (end_operation_succeeds _ _ _ _ _ _ _ _ leased r Hj' Hr Hov leased_matches Ho). cbn [outcome fst snd].
    unfold publication_tables, recorded. change (jb_operation leased) with (jb_operation job). rewrite Hop. done.
Qed.
End Alone.

(** ** A first publication *)

Lemma create_new known_user t db draft now s k : shares_wf t db → draft_ok draft = true →
  known_user (pd_author_user_id draft) = true →
  (∀ i x, sd_shares db !! i = Some x → of_author_session (pd_author_user_id draft) (pd_source_session_id draft) x = false) →
  sd_shares db !! s = None → sd_jobs db !! k = None →
  create_publish_intent known_user draft now s k db
  = Ok (mkIntent (new_record s draft now) (Some (new_job k s UPSERT 1 now)) true true,
        set_job (new_job k s UPSERT 1 now) (set_share (new_record s draft now) db)).
Proof.
  intros Hwf Hd Hu Hfree Hs Hk.
  assert (Hno : ∀ x, x ∈ share_rows db → of_author_session (pd_author_user_id draft) (pd_source_session_id draft) x = false)
    by (intros x [i Hx]%elem_of_share_rows; by eapply Hfree).
  assert (Hsel : select_author_session (pd_author_user_id draft) (pd_source_session_id draft) db = Ok None).
  { unfold select_author_session. assert (filter (fun r => of_author_session (pd_author_user_id draft)
        (pd_source_session_id draft) r = true) (share_rows db) = []) as ->; [|done].
    apply filter_none, Forall_forall. intros x Hx. by rewrite (Hno x Hx). }
  unfold create_publish_intent, create_share. cbv zeta. rewrite Hsel. cbn [mbind result_bind].
  unfold insert_share. cbn [new_record sg_share_id sg_draft]. rewrite Hs, bool_decide_false by (intros [? ?]; done).
  assert (existsb (of_author_session (pd_author_user_id draft) (pd_source_session_id draft)) (share_rows db) = false) as ->.
  { apply not_true_iff_false. rewrite existsb_exists. intros (x & Hx%list_elem_of_In & E). by rewrite (Hno x Hx) in E. }
  rewrite Hu. cbn [orb negb mbind result_bind]. unfold insert_job. cbn [job_ok jb_index_version jb_attempt_count jb_lease_owner].
  assert (Hok : job_ok (mkJob k s UPSERT 1 JOB_PENDING 0 None None None None now now) = true) by done.
  rewrite Hok. cbn [negb sd_jobs sd_shares overwrite]. rewrite Hk, bool_decide_false by (intros [? ?]; done).
  rewrite lookup_insert_eq, (bool_decide_true (is_Some _)) by eauto.
  assert (existsb (of_version s UPSERT 1) (job_rows (mkShareDb (<[s := new_record s draft now]> (sd_shares db)) (sd_jobs db) (sd_likes db))) = false) as Hv.
  { apply not_true_iff_false. rewrite existsb_exists. intros (x & [i Hx]%list_elem_of_In%elem_of_job_rows & [Hxs _]%of_version_iff).
    cbn [sd_jobs] in Hx. destruct (job_guide t db Hwf _ _ Hx) as (_ & y & Hy & _). rewrite Hxs in Hy. congruence. }
  match goal with |- context [existsb ?p ?l] => replace (existsb p l) with false by (symmetry; exact Hv) end.
  cbn [orb negb mbind result_bind]. assert (Hrec : record_from_row (new_record s draft now) = Ok (new_record s draft now)).
  { unfold record_from_row, record_ok, new_record. cbn [sg_draft sg_index_version sg_like_count]. by rewrite Hd. }
  rewrite Hrec. done.
Qed.


(** ** Examples *)

Definition sample_service : ServiceConfig := mkServiceConfig true 30 5 2 60.
Definition sync_worker : string := "sync:1".


(** ** A publication that outlives its lease *)

(** The embedding takes longer than the lease; meanwhile the index worker claims
    the job again, indexes the guide and completes. *)
Definition late_schedule : list event :=
  [Own; Own; Own; Until 40000000; Others (ClaimNextIndexJob "w1" 30 5 none_locked);
   Others (CompleteIndexOperation "j1" "g1" 1 UPSERT "w1"); Own; Own; Own].

Definition late_publication : config SharedGuideRecord :=
  (publish sample_service sync_worker
     (mkIntent (new_record "g1" (sample_draft "li" "s1") 1000) (Some (new_job "j1" "g1" UPSERT 1 1000)) true true) "li",
   sample_world (share_run known_sample (take 1 sample_publication) no_shares) 1000).

(** What is left of it: the answer, the state of the guide, its point, and its job. *)
Definition aftermath (c : config SharedGuideRecord) :
    option exn * option PublicationStatus * option Point * option IndexJobStatus :=
  (match c.1 with Throw e => Some e | _ => None end,
   sg_publication_status <$> sd_shares (wo_db c.2) !! "g1", wo_points c.2 !! "g1",
   jb_status <$> sd_jobs (wo_db c.2) !! "j1").

(** A publication that loses its lease while it works can hide a guide another worker has just
    published: it finds its completion refused, deletes the vector of the very version that is public,
    and answers that it was superseded; the guide stays public, its index job is done, and
    nothing puts its vector back. *)
Theorem late_publication_hides_public_guide :
  ∃ c c', executes known_sample late_publication c
    ∧ next_delete c = Some ("g1", 1) ∧ (sg_publication_status <$> sd_shares (wo_db c.2) !! "g1") = Some PUBLIC
    ∧ executes known_sample c c'
    ∧ aftermath c' = (Some (StoreExn (SharedGuideConflictError "the publish operation was superseded")),
                      Some PUBLIC, None, Some JOB_SUCCEEDED).
Proof.
  assert (E : (c ← drive known_sample late_schedule late_publication;
               c' ← drive known_sample [Own; Own; Own] c;
               Some (next_delete c, sg_publication_status <$> sd_shares (wo_db c.2) !! "g1", aftermath c'))
    = Some (Some ("g1", 1), Some PUBLIC,
        (Some (StoreExn (SharedGuideConflictError "the publish operation was superseded")),
         Some PUBLIC, None, Some JOB_SUCCEEDED))) by (vm_compute; reflexivity).
  destruct (drive known_sample late_schedule late_publication) as [c|] eqn:Hc; cbn [mbind option_bind] in E; [|done].
  destruct (drive known_sample [Own; Own; Own] c) as [c'|] eqn:Hc'; cbn [mbind option_bind] in E; [|done].
  injection E as E1 E2 E3 E4 E5 E6. exists c, c'. apply drive_executes in Hc, Hc'.
  split_and!; try assumption. unfold aftermath. by rewrite E3, E4, E5, E6.
Qed.
