(* ===== verification/SharedListing.v ===== *)
(** Lists of guides: the filters, the keyset cursors and the pages of
    [list_public], [list_owned] and [get_public] (src/app/sharing/mysql_store.py).

    A cursor is the JSON object it carries; its base64 text, the ISO form of its
    timestamp and the check that its share id is a UUID are not modelled.
    [username_of] is the user table of the join. *)

From S2P Require Import Prelude PyData TripSchema SharedGuides SharedStore SharedLifecycle SharedStoreProofs SharedClaims.
From Stdlib Require Import ZArith QArith Lia String Sorted NArith Ascii.
From stdpp Require Import base tactics option list gmap strings sorting.

Open Scope string_scope.
Open Scope Z_scope.

Inductive ListSort := Latest | Popular.

#[export] Instance ListSort_eq_dec : EqDecision ListSort.
Proof. solve_decision. Defined.

(** The payload of a cursor. *)
Record Cursor := mkCursor {
  cu_version : Z; cu_sort : ListSort; cu_like_count : option Z; cu_published_at : datetime; cu_share_id : string
}.

Record SharedGuideListQuery := mkListQuery {
  lq_city_normalized : option string; lq_travel_days : option Z; lq_transportation : option string;
  lq_sort : ListSort; lq_limit : Z; lq_cursor : option Cursor
}.

(** [SharedGuideListQuery]'s validation. *)
Definition list_query_ok (q : SharedGuideListQuery) : bool :=
  match lq_travel_days q with Some d => (1 <=? d) && (d <=? 30) | None => true end
  && (1 <=? lq_limit q) && (lq_limit q <=? 100).

Record SharedGuideListItem := mkListItem {
  li_share_id : string; li_title : string; li_author_username : string; li_city : string;
  li_travel_days : Z; li_transportation : string; li_accommodation : string; li_preferences : list string;
  li_quality_level : string; li_quality_score : option Q; li_like_count : Z; li_published_at : datetime;
  li_cover_image_url : option string; li_liked_by_me : bool
}.

Record SharedGuidePage := mkPage {
  pg_items : list SharedGuideListItem; pg_next_cursor : option Cursor
}.

Definition truthy (o : option string) : option string :=
  s ← o; if String.eqb s "" then None else Some s.

(** The first image of an attraction: its own, or one of its photos. *)
Definition attraction_image (a : Attraction) : option string :=
  match truthy (at_image_url a) with
  | Some url => Some url
  | None => head (filter (fun p => negb (String.eqb p "") = true) (default [] (at_photos a)))
  end.

(** [_cover_image] *)
Definition cover_image (r : SharedGuideRecord) : option string :=
  head (omap attraction_image (concat (map day_attractions (plan_days (gs_trip_plan (pd_snapshot (sg_draft r))))))).

Section Listing.
Context (username_of : string → option string).

(** [_liked_expression] *)
Definition liked_by (viewer : option string) (share_id : string) (db : ShareDb) : bool :=
  match viewer with
  | Some user => bool_decide (is_Some (sd_likes db !! (share_id, user)))
  | None => false
  end.

(** [_list_item_from_row]; the inner join drops the guides of unknown users
    before. *)
Definition list_item_from_row (viewer : option string) (db : ShareDb) (r : SharedGuideRecord)
    : result share_error SharedGuideListItem :=
  record ← record_from_row r;
  let d := sg_draft record in
  match sg_published_at record with
  | None => Err (ShareValueError "listed shared guides require published_at")
  | Some published =>
      Ok (mkListItem (sg_share_id record) (pd_title d) (default "" (username_of (pd_author_user_id d)))
            (pd_city d) (pd_travel_days d) (pd_transportation d) (pd_accommodation d) (pd_preferences d)
            (pd_quality_level d) (pd_quality_score d) (sg_like_count record) published (cover_image record)
            (liked_by viewer (sg_share_id record) db))
  end.

Definition author_known (r : SharedGuideRecord) : bool :=
  bool_decide (is_Some (username_of (pd_author_user_id (sg_draft r)))).

(** [get_public], for what a list item shows; the detail adds the snapshot. *)
Definition get_public (share_id : string) (viewer : option string) (db : ShareDb)
    : result share_error (SharedGuideListItem * SharedGuideSnapshot) :=
  match sd_shares db !! share_id with
  | Some r =>
      if public_ready r && author_known r then
        item ← list_item_from_row viewer db r; Ok (item, pd_snapshot (sg_draft r))
      else Err (SharedGuideNotFoundError share_id)
  | None => Err (SharedGuideNotFoundError share_id)
  end.

(** ** Order and cursors *)

Definition published_of (r : SharedGuideRecord) : datetime := default 0 (sg_published_at r).

(** [ORDER BY]: newest first, or most liked first. *)
Definition listed_before (sort : ListSort) (x y : SharedGuideRecord) : bool :=
  let latest := lexZ (published_of y) (published_of x) (String.leb (sg_share_id y) (sg_share_id x)) in
  match sort with
  | Latest => latest
  | Popular => lexZ (sg_like_count y) (sg_like_count x) latest
  end.

(** [_encode_cursor] *)
Definition encode_cursor (item : SharedGuideListItem) (sort : ListSort) : Cursor :=
  mkCursor 1 sort (match sort with Popular => Some (li_like_count item) | Latest => None end)
    (li_published_at item) (li_share_id item).

(** [_decode_cursor] *)
Definition decode_cursor (c : Cursor) (expected_sort : ListSort) : result share_error Cursor :=
  if (cu_version c =? 1) && bool_decide (cu_sort c = expected_sort)
     && match expected_sort, cu_like_count c with
        | Latest, None => true
        | Popular, Some n => 0 <=? n
        | _, _ => false
        end
  then Ok c else Err (InvalidShareCursorError "无效的分享列表游标").

(** The [WHERE] of [_apply_keyset]. *)
Definition after_cursor (sort : ListSort) (c : Cursor) (r : SharedGuideRecord) : bool :=
  let older := (published_of r <? cu_published_at c)
               || ((published_of r =? cu_published_at c) && String.ltb (sg_share_id r) (cu_share_id c)) in
  match sort with
  | Latest => older
  | Popular =>
      let likes := default 0 (cu_like_count c) in
      (sg_like_count r <? likes) || ((sg_like_count r =? likes) && older)
  end.

(** ** Pages *)

Definition matches_filters (q : SharedGuideListQuery) (r : SharedGuideRecord) : bool :=
  match lq_city_normalized q with Some c => String.eqb (pd_city_normalized (sg_draft r)) c | None => true end
  && match lq_travel_days q with Some d => pd_travel_days (sg_draft r) =? d | None => true end
  && match lq_transportation q with Some t => String.eqb (pd_transportation (sg_draft r)) t | None => true end.

(** A page of the rows a list shows. *)
Definition list_page {A : Type} (item_of : SharedGuideRecord → result share_error (SharedGuideListItem * A))
    (shows : SharedGuideRecord → bool) (q : SharedGuideListQuery) (db : ShareDb)
    : result share_error (list (SharedGuideListItem * A) * option Cursor) :=
  cursor ← match lq_cursor q with
           | Some c => decoded ← decode_cursor c (lq_sort q); Ok (Some decoded)
           | None => Ok None
           end;
  let rows := take (S (Z.to_nat (lq_limit q)))
    (py_sorted (listed_before (lq_sort q))
       (filter (fun r => shows r && author_known r && bool_decide (is_Some (sg_published_at r)) && matches_filters q r
                         && match cursor with Some c => after_cursor (lq_sort q) c r | None => true end = true)
          (share_rows db))) in
  items ← mapM item_of (take (Z.to_nat (lq_limit q)) rows);
  Ok (items, if (lq_limit q <? Z.of_nat (length rows))
             then (fun i => encode_cursor i.1 (lq_sort q)) <$> last items else None).

Definition list_public (q : SharedGuideListQuery) (viewer : option string) (db : ShareDb)
    : result share_error SharedGuidePage :=
  '(items, next) ← list_page (fun r => i ← list_item_from_row viewer db r; Ok (i, tt)) public_ready q db;
  Ok (mkPage items.*1 next).

(** The items of [list_owned] also show the guide's state. *)
Definition list_owned (author : string) (q : SharedGuideListQuery) (db : ShareDb)
    : result share_error (list (SharedGuideListItem * (PublicationStatus * ShareIndexStatus * option string)) * option Cursor) :=
  list_page (fun r => i ← list_item_from_row None db r;
                      Ok (i, (sg_publication_status r, sg_index_status r, sg_last_index_error r)))
    (fun r => String.eqb (pd_author_user_id (sg_draft r)) author) q db.

(** A reader who follows the cursors. *)
Fixpoint all_pages (fuel : nat) (q : SharedGuideListQuery) (viewer : option string) (db : ShareDb)
    : option (result share_error (list SharedGuideListItem)) :=
  match fuel with
  | O => None
  | S fuel =>
      match list_public q viewer db with
      | Err e => Some (Err e)
      | Ok page =>
          match pg_next_cursor page with
          | None => Some (Ok (pg_items page))
          | Some c =>
              match all_pages fuel (mkListQuery (lq_city_normalized q) (lq_travel_days q) (lq_transportation q)
                        (lq_sort q) (lq_limit q) (Some c)) viewer db with
              | Some (Ok rest) => Some (Ok (app (pg_items page) rest))
              | other => other
              end
          end
      end
  end.
End Listing.

(** The pages of the guide lists: following the cursors reads every guide that
    matches, once, in order. *)

(** ** The order *)

Lemma str_ltb_spec s1 s2 : String.ltb s1 s2 = true ↔ String.leb s1 s2 = true ∧ s1 ≠ s2.
Proof.
  unfold String.ltb, String.leb. pose proof (String.compare_eq_iff s1 s2) as E.
  assert (E' : s1 = s2 → String.compare s1 s2 = Eq).
  { intros ->. clear. induction s2 as [|a s IH]; [done|]. cbn [String.compare].
    unfold Ascii.compare. by rewrite N.compare_refl. }
  destruct (String.compare s1 s2).
  - split; [done|]. intros [_ H]. destruct H. by apply E.
  - split; [|done]. intros _. split; [done|]. by intros H%E'.
  - split; [done|]. by intros [H _].
Qed.

Lemma leb_antisym_str s1 s2 : String.leb s1 s2 = true → String.leb s2 s1 = true → s1 = s2.
Proof. apply String.leb_antisym. Qed.

Section Order.
Context (sort : ListSort).

Lemma listed_before_total x y : listed_before sort x y = true ∨ listed_before sort y x = true.
Proof. destruct sort; cbn [listed_before]; repeat apply lexZ_total; apply String.leb_total. Qed.

Lemma listed_before_trans x y z :
  listed_before sort x y = true → listed_before sort y z = true → listed_before sort x z = true.
Proof.
  destruct sort; cbn [listed_before]; intros H1 H2; revert H2 H1; repeat apply lexZ_trans;
    intros H2 H1; by eapply leb_trans_str.
Qed.

Lemma lexZ_iff x y k : lexZ x y k = true ↔ x < y ∨ x = y ∧ k = true.
Proof. unfold lexZ. rewrite orb_true_iff, andb_true_iff, Z.ltb_lt, Z.eqb_eq. tauto. Qed.

Lemma listed_before_antisym x y :
  listed_before sort x y = true → listed_before sort y x = true → sg_share_id x = sg_share_id y.
Proof.
  destruct sort; cbn [listed_before]; rewrite !lexZ_iff; intros H1 H2; apply leb_antisym_str; intuition (try lia; done).
Qed.

(** What comes after the last guide of a page. *)
Lemma after_cursor_iff c x y : (sg_share_id x = sg_share_id y → x = y) → cu_published_at c = published_of x → cu_share_id c = sg_share_id x →
  (sort = Popular → cu_like_count c = Some (sg_like_count x)) →
  after_cursor sort c y = true ↔ listed_before sort x y = true ∧ sg_share_id x ≠ sg_share_id y.
Proof.
  intros Hk Hp Hi Hl.
  assert (Hne : published_of x ≠ published_of y ∨ sg_like_count x ≠ sg_like_count y → sg_share_id x ≠ sg_share_id y)
    by (intros H E; rewrite (Hk E) in H; tauto).
  unfold after_cursor. rewrite Hp, Hi. destruct sort; cbn [listed_before].
  - rewrite lexZ_iff, orb_true_iff, andb_true_iff, Z.ltb_lt, Z.eqb_eq, str_ltb_spec.
    destruct (Z.eq_dec (published_of x) (published_of y)); intuition (try lia; try congruence).
  - rewrite (Hl eq_refl). cbn [default id]. rewrite !lexZ_iff, !orb_true_iff, !andb_true_iff, orb_true_iff, andb_true_iff, !Z.ltb_lt, !Z.eqb_eq, str_ltb_spec.
    destruct (Z.eq_dec (published_of x) (published_of y)), (Z.eq_dec (sg_like_count x) (sg_like_count y));
      intuition (try lia; try congruence).
Qed.
End Order.

(** ** Pages *)

Section Pages.
Context (username_of : string → option string) (t : datetime) (db : ShareDb) (Hwf : shares_wf t db).
Context (q : SharedGuideListQuery) (viewer : option string).

(** What a list shows, wherever it starts. *)
Definition matching (r : SharedGuideRecord) : bool :=
  public_ready r && author_known username_of r && bool_decide (is_Some (sg_published_at r)) && matches_filters q r.

Definition listed : list SharedGuideRecord :=
  py_sorted (listed_before (lq_sort q)) (filter (fun r => matching r = true) (share_rows db)).

Definition listed_item (r : SharedGuideRecord) : SharedGuideListItem :=
  let d := sg_draft r in
  mkListItem (sg_share_id r) (pd_title d) (default "" (username_of (pd_author_user_id d)))
    (pd_city d) (pd_travel_days d) (pd_transportation d) (pd_accommodation d) (pd_preferences d)
    (pd_quality_level d) (pd_quality_score d) (sg_like_count r) (published_of r) (cover_image r)
    (liked_by viewer (sg_share_id r) db).

Lemma elem_of_listed r : r ∈ listed ↔ (∃ k, sd_shares db !! k = Some r) ∧ matching r = true.
Proof. unfold listed. rewrite py_sorted_perm, list_elem_of_filter, elem_of_share_rows. tauto. Qed.

Lemma same_row r r' : (∃ k, sd_shares db !! k = Some r) → (∃ k, sd_shares db !! k = Some r') →
  sg_share_id r = sg_share_id r' → r = r'.
Proof.
  intros [k Hk] [k' Hk'] E. destruct (row_valid _ _ Hwf _ _ Hk) as [<- _], (row_valid _ _ Hwf _ _ Hk') as [<- _].
  congruence.
Qed.

Lemma listed_sorted : StronglySorted (fun x y => listed_before (lq_sort q) x y = true) listed.
Proof. apply py_sorted_sorted; [apply listed_before_total|apply listed_before_trans]. Qed.

Lemma share_rows_nodup : NoDup (share_rows db).
Proof.
  unfold share_rows. apply NoDup_fmap_2_strong; [|apply NoDup_map_to_list].
  intros [k r] [k' r'] Hk%elem_of_map_to_list Hk'%elem_of_map_to_list. cbn. intros ->.
  destruct (row_valid _ _ Hwf _ _ Hk) as [<- _], (row_valid _ _ Hwf _ _ Hk') as [<- _]. done.
Qed.

Lemma listed_nodup : NoDup listed.
Proof. unfold listed. rewrite py_sorted_perm. apply NoDup_filter, share_rows_nodup. Qed.

Lemma matching_item r : (∃ k, sd_shares db !! k = Some r) → matching r = true →
  list_item_from_row username_of viewer db r = Ok (listed_item r).
Proof.
  intros [k Hk] Hm. unfold list_item_from_row. destruct (row_valid _ _ Hwf _ _ Hk) as [_ ->]. cbn [mbind result_bind].
  unfold matching in Hm. apply andb_true_iff in Hm as [[_ Hp%bool_decide_eq_true]%andb_true_iff _].
  unfold listed_item, published_of. by destruct Hp as [p ->].
Qed.

(** The rows after a guide of the list are its tail. *)
Lemma rows_after pre x post c : listed = (pre ++ x :: post)%list → c = encode_cursor (listed_item x) (lq_sort q) →
  py_sorted (listed_before (lq_sort q))
    (filter (fun r => matching r && after_cursor (lq_sort q) c r = true) (share_rows db)) = post.
Proof.
  intros E Hc.
  assert (Hin : ∀ r, r ∈ listed → ∃ k, sd_shares db !! k = Some r) by (intros r Hr; by apply elem_of_listed in Hr as [? _]).
  pose proof listed_sorted as Hsort. pose proof listed_nodup as Hnd. rewrite E in Hsort, Hnd.
  assert (Hx : ∃ k, sd_shares db !! k = Some x) by (apply Hin; rewrite E; set_solver).
  assert (Hafter : ∀ y, y ∈ listed → after_cursor (lq_sort q) c y = true ↔ listed_before (lq_sort q) x y = true ∧ sg_share_id x ≠ sg_share_id y).
  { intros y Hy. apply after_cursor_iff; [by apply same_row; [|by apply Hin]|by rewrite Hc..|].
    intros Hs. rewrite Hc, Hs. done. }
  apply (StronglySorted_unique_strong (fun x y => listed_before (lq_sort q) x y = true)).
  - intros a b Ha Hb H1 H2. rewrite py_sorted_perm in Ha. apply list_elem_of_filter in Ha as [_ Ha%elem_of_share_rows].
    apply same_row; [done|apply Hin; rewrite E; set_solver|]. by eapply listed_before_antisym.
  - apply py_sorted_sorted; [apply listed_before_total|apply listed_before_trans].
  - apply StronglySorted_app_1_r in Hsort as Hs. by apply StronglySorted_inv in Hs as [Hs _].
  - rewrite py_sorted_perm. apply NoDup_Permutation.
    + apply NoDup_filter, share_rows_nodup.
    + apply NoDup_app in Hnd as (_ & _ & Hnd). by apply NoDup_cons in Hnd as [_ Hnd].
    + intros y. rewrite list_elem_of_filter, andb_true_iff, elem_of_share_rows. split.
      * intros [[Hm Ha] Hy]. assert (Hl : y ∈ listed) by (by apply elem_of_listed).
        apply Hafter in Ha as [Hb Hne]; [|done]. rewrite E in Hl. apply elem_of_app in Hl as [Hl|[->|Hl]%elem_of_cons]; [|done..].
        exfalso. apply Hne. eapply listed_before_antisym; [exact Hb|].
        eapply (StronglySorted_app_1_elem_of (fun x y => listed_before (lq_sort q) x y = true));
          [exact Hsort|exact Hl|left].
      * intros Hy. assert (Hl : y ∈ listed) by (rewrite E; set_solver).
        apply elem_of_listed in Hl as [Hk Hm]. split; [|done]. split; [done|]. apply Hafter; [by apply elem_of_listed|].
        apply StronglySorted_app_1_r in Hsort as Hs. apply StronglySorted_inv in Hs as [_ Hs].
        rewrite Forall_forall in Hs. split; [by apply Hs|]. intros Hid.
        apply NoDup_app in Hnd as (_ & _ & Hnd). apply NoDup_cons in Hnd as [Hnd _]. apply Hnd.
        by rewrite (same_row x y).
Qed.

Definition with_cursor (c : option Cursor) : SharedGuideListQuery :=
  mkListQuery (lq_city_normalized q) (lq_travel_days q) (lq_transportation q) (lq_sort q) (lq_limit q) c.

(** Where a request starts. *)
Inductive starts : option Cursor → list SharedGuideRecord → Prop :=
| starts_first : starts None listed
| starts_after pre x post : listed = (pre ++ x :: post)%list →
    starts (Some (encode_cursor (listed_item x) (lq_sort q))) post.

Lemma starts_rows c rows : starts c rows →
  (match c with Some c => decoded ← decode_cursor c (lq_sort q); Ok (Some decoded) | None => Ok None end) = Ok c
  ∧ py_sorted (listed_before (lq_sort q))
     (filter (fun r => matching r && match c with Some c => after_cursor (lq_sort q) c r | None => true end = true)
        (share_rows db)) = rows
  ∧ ∃ pre, listed = (pre ++ rows)%list.
Proof.
  intros [|pre x post E].
  - split; [done|]. split; [|by exists []]. unfold listed. f_equal. apply list_filter_iff. intros r. by rewrite andb_true_r.
  - split; [|split; [by eapply rows_after|exists (pre ++ [x])%list; by rewrite E, <- app_assoc]].
    assert (Hx : x ∈ listed) by (rewrite E; set_solver). apply elem_of_listed in Hx as [[k Hx] _].
    pose proof (sw_likes _ _ _ _ (wf_shares _ _ Hwf _ _ Hx)) as Hl.
    unfold decode_cursor, encode_cursor. cbn [cu_version cu_sort cu_like_count listed_item li_like_count].
    rewrite bool_decide_true by done. destruct (lq_sort q); [done|]. rewrite (proj2 (Z.leb_le _ _)) by lia. done.
Qed.

Lemma mapM_items rows : (∀ r, r ∈ rows → r ∈ listed) →
  mapM (fun r => i ← list_item_from_row username_of viewer db r; Ok (i, tt)) rows = Ok (map (fun r => (listed_item r, tt)) rows).
Proof.
  induction rows as [|r rows IH]; intros Hin; [done|]. cbn [mapM map].
  assert (Hr : r ∈ listed) by (apply Hin; left). apply elem_of_listed in Hr as [Hk Hm].
  rewrite (matching_item r Hk Hm). cbn [mbind result_bind]. rewrite IH by (intros x Hx; apply Hin; by right). done.
Qed.

(** One request. *)
Lemma list_public_page c rows : 1 <= lq_limit q → starts c rows →
  list_public username_of (with_cursor c) viewer db
  = Ok (mkPage (map listed_item (take (Z.to_nat (lq_limit q)) rows))
          (if (lq_limit q <? Z.of_nat (length rows))
           then (fun r => encode_cursor (listed_item r) (lq_sort q)) <$> last (take (Z.to_nat (lq_limit q)) rows)
           else None)).
Proof.
  intros Hn Hs. destruct (starts_rows c rows Hs) as (Hc & Hrows & pre & Hpre).
  unfold list_public, list_page. cbn [with_cursor lq_cursor lq_sort lq_limit]. rewrite Hc. cbn [mbind result_bind].
  unfold matching in Hrows. cbv zeta.
  match goal with |- context [py_sorted _ (filter ?P _)] =>
    assert (E : py_sorted (listed_before (lq_sort q)) (filter P (share_rows db)) = rows) by exact Hrows end.
  rewrite E, take_take, Nat.min_l by lia. rewrite mapM_items.
  2:{ intros r Hr. rewrite Hpre. apply elem_of_app. right. apply elem_of_take in Hr as (i & Hi & _). by eapply list_elem_of_lookup_2. }
  cbn [mbind result_bind]. rewrite length_take. f_equal. f_equal.
  - change (fst <$> map ?f ?l) with (map fst (map f l)). by rewrite map_map.
  - assert (E2 : (lq_limit q <? Z.of_nat (S (Z.to_nat (lq_limit q)) `min` length rows)) = (lq_limit q <? Z.of_nat (length rows)))
      by (apply Bool.eq_iff_eq_true; rewrite !Z.ltb_lt; lia).
    rewrite E2. destruct (lq_limit q <? Z.of_nat (length rows)); [|done]. change (map ?f ?l) with (f <$> l). rewrite fmap_last. by destruct (last _).
Qed.

Lemma all_pages_from fuel : 1 <= lq_limit q → ∀ c rows, starts c rows → (length rows < fuel)%nat →
  all_pages username_of fuel (with_cursor c) viewer db = Some (Ok (map listed_item rows)).
Proof.
  intros Hn. induction fuel as [|fuel IH]; intros c rows Hs Hfuel; [lia|]. cbn [all_pages].
  rewrite (list_public_page c rows Hn Hs). cbn [pg_next_cursor pg_items].
  destruct (Z.ltb_spec (lq_limit q) (Z.of_nat (length rows))) as [Hlt|Hge].
  2:{ by rewrite take_ge by lia. }
  destruct (last (take (Z.to_nat (lq_limit q)) rows)) as [x|] eqn:Hx.
  2:{ apply last_None in Hx. apply (f_equal length) in Hx. rewrite length_take in Hx. cbn in Hx. lia. }
  cbn [fmap option_fmap option_map]. apply last_Some in Hx as [pre' Hx].
  destruct (starts_rows c rows Hs) as (_ & _ & pre & Hpre).
  pose proof (take_drop (Z.to_nat (lq_limit q)) rows) as Hsplit.
  assert (Hs' : starts (Some (encode_cursor (listed_item x) (lq_sort q))) (drop (Z.to_nat (lq_limit q)) rows)).
  { apply (starts_after (pre ++ pre') x). rewrite Hpre, <- Hsplit at 1. rewrite Hx. by rewrite <- !app_assoc. }
  change (mkListQuery _ _ _ _ _ (Some ?c)) with (with_cursor (Some c)).
  rewrite (IH _ _ Hs') by (rewrite length_drop; lia). rewrite <- map_app. by rewrite Hsplit.
Qed.
End Pages.

(** C22: Following the cursors of the public list reads every public guide that matches the filters,
    once and in the list's order, whatever the page size; no request fails and the reading ends. *)
Theorem pages_list_every_guide username_of t db q viewer :
  shares_wf t db → 1 <= lq_limit q → lq_cursor q = None →
  all_pages username_of (S (size (sd_shares db))) q viewer db
    = Some (Ok (map (listed_item username_of db viewer) (listed username_of db q)))
  ∧ NoDup (listed username_of db q)
  ∧ (∀ r, r ∈ listed username_of db q ↔ (∃ s, sd_shares db !! s = Some r) ∧ matching username_of q r = true)
  ∧ StronglySorted (fun x y => listed_before (lq_sort q) x y = true) (listed username_of db q).
Proof.
  intros Hwf Hn Hc. split_and!.
  - assert (Hq : q = with_cursor q None) by (destruct q; cbn in *; by subst). rewrite Hq at 1.
    apply (all_pages_from username_of t db Hwf q viewer); [done|constructor|].
    unfold listed. rewrite (Permutation_length (py_sorted_perm _ _)).
    pose proof (length_filter (fun r => matching username_of q r = true) (share_rows db)) as Hl.
    unfold share_rows in *. rewrite length_fmap, length_map_to_list in Hl. lia.
  - by eapply listed_nodup.
  - intros r. apply elem_of_listed.
  - apply listed_sorted.
Qed.

(** Both guides are public, Li's with a like. *)
Definition both_published : list (ShareCall * datetime) :=
  [(ClaimIndexJob "j2" "w1" 30, 6000); (CompleteIndexOperation "j2" "g2" 1 UPSERT "w1", 7000)].
Definition both_public : ShareDb := share_run known_sample both_published sample_shares.
Definition popular_pages : SharedGuideListQuery := mkListQuery None (Some 2) None Popular 1 None.

Example pages_list_every_guide_witness :
  match all_pages (fun u => Some u) 3 popular_pages (Some "wang") both_public with
  | Some (Ok l) => map (fun i => (li_share_id i, li_liked_by_me i)) l
  | _ => []
  end = [("g1", true); ("g2", false)]
  ∧ all_pages (fun u => Some u) (S (size (sd_shares both_public))) popular_pages (Some "wang") both_public
    = Some (Ok (map (listed_item (fun u => Some u) both_public (Some "wang"))
        (listed (fun u => Some u) both_public popular_pages))).
Proof.
  split; [vm_compute; reflexivity|].
  refine (proj1 (pages_list_every_guide (fun u => Some u) 7000 both_public popular_pages (Some "wang") _ _ eq_refl));
    [|cbn; lia].
  apply (share_run_wf known_sample both_published 5000 sample_shares); [apply sample_shares_wf|cbn; lia|].
  repeat constructor.
Defined.
