(* ===== verification/SharedTheorems.v ===== *)
(** What the sharing tables guarantee: they stay well formed, only the holder of
    a lease publishes, a retired version never comes back, the reader of the
    vector index gets exactly the guides that are public. *)

From S2P Require Import Prelude PyData TripSchema PlanEdits SharedGuides SharedStore SharedLifecycle SharedStoreProofs SharedLater SharedClaims.
From Stdlib Require Import ZArith QArith Lia String Sorted.
From stdpp Require Import base tactics option list gmap strings relations.

Open Scope string_scope.
Open Scope Z_scope.

(** ** The life of a guide *)

(** What a step may do to a guide. *)
Definition guide_step (actor : option string) (now : datetime) (db : ShareDb) (r r' : SharedGuideRecord) : Prop :=
  (sg_index_version r' = sg_index_version r ∧ sg_draft r' = sg_draft r
   ∧ (sg_publication_status r = UNPUBLISHED → sg_publication_status r' = UNPUBLISHED)
   ∧ (sg_publication_status r' = PUBLIC → sg_publication_status r ≠ PUBLIC →
      ∃ worker j, actor = Some worker ∧ sd_jobs db !! jb_job_id j = Some j
                  ∧ jb_share_id j = sg_share_id r ∧ jb_operation j = UPSERT
                  ∧ jb_index_version j = sg_index_version r ∧ lease_matches worker now j = true))
  ∨ (sg_index_version r' = sg_index_version r + 1 ∧ sg_publication_status r' = PUBLISHING
     ∧ slot r' = slot r).

Lemma guide_step_refl actor now db r : guide_step actor now db r r.
Proof. left. by split_and!. Qed.

Lemma guide_step_same actor now db r r' : sg_index_version r' = sg_index_version r → sg_draft r' = sg_draft r →
  sg_publication_status r' = sg_publication_status r → guide_step actor now db r r'.
Proof. intros H1 H2 H3. left. split_and!; try done; congruence. Qed.

Lemma map_at (m : gmap string SharedGuideRecord) (x : SharedGuideRecord) k : sg_share_id x = k →
  <[sg_share_id x := x]> m = <[k := x]> m.
Proof. by intros <-. Qed.

Lemma share_step_guide actor t0 now db db' s r : shares_wf t0 db → share_step actor now db db' →
  sd_shares db !! s = Some r →
  ∃ r', sd_shares db' !! s = Some r' ∧ guide_step actor now db r r'.
Proof.
  intros Hwf Hs Hr.
  assert (Hone : ∀ k x x', sd_shares db !! k = Some x → guide_step actor now db x x' →
            ∃ r', <[k := x']> (sd_shares db) !! s = Some r' ∧ guide_step actor now db r r').
  { intros k x x' Hx Hg. destruct (decide (k = s)) as [->|Hk].
    - rewrite lookup_insert_eq. exists x'. split; [done|]. congruence.
    - rewrite lookup_insert_ne by done. exists r. split; [done|apply guide_step_refl]. }
  assert (Hkey : ∀ k x, sd_shares db !! k = Some x → sg_share_id x = k)
    by (intros k x Hx; by destruct (wf_shares _ _ Hwf _ _ Hx)).
  destruct Hs; unfold set_job, set_share; cbn [sd_shares overwrite].
  - exists r. split; [done|apply guide_step_refl].
  - exists r. split; [|apply guide_step_refl]. cbn. rewrite lookup_insert_ne; [done|congruence].
  - eapply Hone; [done|]. right. cbn. split; [lia|]. split; [done|]. unfold slot. cbn.
    by apply of_author_session_iff in H2.
  - eapply Hone; [done|]. left. cbn. split_and!; try done.
  - exists r. split; [done|apply guide_step_refl].
  - assert (E : sg_share_id (completed (jb_operation j) now row) = jb_share_id j)
      by (rewrite <- (Hkey _ _ H1); by destruct (jb_operation j)).
    rewrite (map_at _ _ _ E). eapply Hone; [done|]. left. destruct (open_operation _ _ H3) as [Hop Hpub].
    destruct (jb_operation j) eqn:Ej; cbn; split_and!; try done.
    + intros Hu. rewrite Hpub in Hu; done.
    + intros _ _. exists worker, j. split_and!; try done; symmetry; by apply Hkey.
  - assert (E : sg_share_id (failed_share (jb_operation j) sanitized terminal now row) = jb_share_id j)
      by (by rewrite <- (Hkey _ _ H1)).
    rewrite (map_at _ _ _ E). eapply Hone; [done|]. by apply guide_step_same.
  - destruct (_ && _).
    + assert (E : sg_share_id (expired_share now row) = jb_share_id j) by (by rewrite <- (Hkey _ _ H0)).
      rewrite (map_at _ _ _ E). eapply Hone; [done|]. by apply guide_step_same.
    + exists r. split; [done|apply guide_step_refl].
  - assert (E : sg_share_id (requeued_share now row) = jb_share_id j) by (by rewrite <- (Hkey _ _ H0)).
    rewrite (map_at _ _ _ E). eapply Hone; [done|]. left. cbn. split_and!; try done.
    apply andb_true_iff in H4 as [Hp%bool_decide_eq_true _]. congruence.
  - eapply Hone; [done|]. by apply guide_step_same.
  - eapply Hone; [done|]. by apply guide_step_same.
Qed.

(** ** Claims never publish *)

Definition same_publication (db db' : ShareDb) : Prop :=
  ∀ s r', sd_shares db' !! s = Some r' →
  ∃ r, sd_shares db !! s = Some r ∧ sg_publication_status r' = sg_publication_status r
       ∧ sg_index_version r' = sg_index_version r ∧ sg_draft r' = sg_draft r.

Lemma same_publication_refl db : same_publication db db.
Proof. intros s r Hr. by exists r. Qed.

Lemma same_publication_trans db1 db2 db3 :
  same_publication db1 db2 → same_publication db2 db3 → same_publication db1 db3.
Proof.
  intros H12 H23 s r Hr. destruct (H23 _ _ Hr) as (r2 & Hr2 & ? & ? & ?).
  destruct (H12 _ _ Hr2) as (r1 & Hr1 & ? & ? & ?). exists r1. split_and!; congruence.
Qed.

Lemma same_publication_insert db s r r' jobs likes : sd_shares db !! s = Some r →
  sg_publication_status r' = sg_publication_status r → sg_index_version r' = sg_index_version r →
  sg_draft r' = sg_draft r → same_publication db (mkShareDb (<[s := r']> (sd_shares db)) jobs likes).
Proof.
  intros Hr H1 H2 H3 k x. cbn. destruct (decide (k = s)) as [->|Hk].
  - rewrite lookup_insert_eq. intros [= <-]. by exists r.
  - rewrite lookup_insert_ne by done. intros Hx. by exists x.
Qed.

Lemma same_publication_jobs db jobs likes : same_publication db (mkShareDb (sd_shares db) jobs likes).
Proof. intros s r Hr. by exists r. Qed.

Lemma update_job_publication k P f db : same_publication db (update_job k P f db).2.
Proof.
  unfold update_job. destruct (sd_jobs db !! k) as [j|]; [|apply same_publication_refl].
  destruct (P j); [apply same_publication_jobs|apply same_publication_refl].
Qed.

Lemma terminalize_publication j now db : same_publication db (terminalize_expired_claim j now db).2.
Proof.
  unfold terminalize_expired_claim, update_share. destruct (sd_shares db !! jb_share_id j) as [r|] eqn:Hr;
    [|apply update_job_publication]. destruct (_ && _); [|apply update_job_publication].
  eapply same_publication_trans; [|apply update_job_publication]. by eapply same_publication_insert.
Qed.

Lemma claim_round_publication w now lease m locked skipped db x db' :
  claim_round w now lease m locked skipped db = Ok (x, db') → same_publication db db'.
Proof.
  unfold claim_round. destruct (oldest_claim_candidate _ _ _ _) as [j|]; [|intros [= _ <-]; apply same_publication_refl].
  destruct (_ || _); [intros [= _ <-]; apply same_publication_refl|].
  destruct (sd_jobs db !! jb_job_id j) as [row|]; [|intros [= _ <-]; apply same_publication_refl].
  destruct (_ || _); [intros [= _ <-]; apply same_publication_refl|].
  destruct (bool_decide _ && _).
  - pose proof (terminalize_publication row now db) as Hp.
    destruct (terminalize_expired_claim row now db) as [[] db1]; by intros [= _ <-].
  - destruct (_ <=? _); [intros [= _ <-]; apply same_publication_refl|].
    match goal with |- context [update_job ?k ?P ?f db] => pose proof (update_job_publication k P f db) as Hp;
      destruct (update_job k P f db) as [[] db1] end.
    + destruct (job_from_row _); [|done]. by intros [= _ <-].
    + by intros [= _ <-].
Qed.

Lemma claim_loop_publication fuel w now lease m locked : ∀ skipped db x db',
  claim_loop fuel w now lease m locked skipped db = Some (x, db') → same_publication db db'.
Proof.
  induction fuel as [|fuel IH]; intros skipped db x db'; [done|]. cbn [claim_loop].
  destruct (claim_round _ _ _ _ _ _ _) as [[o db1]|e] eqn:E; [|intros [= _ <-]; apply same_publication_refl].
  apply claim_round_publication in E. destruct o; [by intros [= _ <-]..|].
  intros Hl%IH. by eapply same_publication_trans.
Qed.

(** The calls whose worker holds a lease but that do not complete anything. *)
Lemma worker_call_publication known_user c now db w : call_actor c = Some w →
  (∀ j s v op, c ≠ CompleteIndexOperation j s v op w) →
  same_publication db (share_exec known_user c now db).
Proof.
  destruct c; try done; cbn [share_exec call_actor]; intros [= <-] Hne.
  - unfold commit, claim_index_job. destruct (check_claim _ _); [|apply same_publication_refl]. cbn [mbind result_bind].
    destruct (sd_jobs db !! job_id) as [j|]; [|apply same_publication_refl].
    destruct (job_from_row j); [|apply same_publication_refl]. cbn [mbind result_bind].
    destruct (negb _); [apply same_publication_refl|].
    match goal with |- context [update_job ?k ?P ?f db] => pose proof (update_job_publication k P f db) as Hp;
      destruct (update_job k P f db) as [[] db1] end; [|done].
    destruct (job_from_row _); [done|apply same_publication_refl].
  - unfold claim_next_index_job. destruct (check_claim _ _); [|apply same_publication_refl].
    destruct (_ <=? _); [apply same_publication_refl|].
    destruct (claim_loop _ _ _ _ _ _ _ _) as [[x db']|] eqn:E; [|apply same_publication_refl].
    by eapply claim_loop_publication.
  - by destruct (Hne job_id share_id index_version operation).
  - unfold commit, record_index_failure. destruct (check_failure _ _); [|apply same_publication_refl].
    cbn [mbind result_bind].
    match goal with |- context [end_operation ?k ?s ?v ?op ?w now ?f ?g db] =>
      destruct (end_operation_cases now db k s v op w f g) as [->|(j & row & Hj & Hr & _ & _ & _ & _ & _ & ->)] end;
      [apply same_publication_refl|]. by eapply same_publication_insert.
  - unfold commit, record_index_job_failure. destruct (check_failure _ _); [|apply same_publication_refl].
    cbn [mbind result_bind]. destruct (select_share _ _); [|apply same_publication_refl].
    destruct (leased_job _ _ _ _ _ _ _); [|apply same_publication_refl].
    match goal with |- context [update_job ?k ?P ?f db] => pose proof (update_job_publication k P f db) as Hp;
      destruct (update_job k P f db) as [[] db1] end; [done|apply same_publication_refl].
Qed.

Lemma inserted_known (m : gmap string SharedGuideRecord) k x x' s r' :
  m !! k = Some x → <[k := x']> m !! s = Some r' → is_Some (m !! s).
Proof. intros Hk. destruct (decide (k = s)) as [->|Hne]; [by eauto|]. rewrite lookup_insert_ne by done. eauto. Qed.

(** A guide comes into the tables in publication. *)
Lemma share_step_new actor t0 now db db' s r' : shares_wf t0 db → share_step actor now db db' →
  sd_shares db' !! s = Some r' → is_Some (sd_shares db !! s) ∨ sg_publication_status r' = PUBLISHING.
Proof.
  intros Hwf Hs.
  assert (Hk : ∀ k x, sd_shares db !! k = Some x → sg_share_id x = k)
    by (intros k x Hx; by destruct (wf_shares _ _ Hwf _ _ Hx)).
  destruct Hs; unfold set_job, set_share; cbn [sd_shares overwrite]; try (intros Hx; left; by eauto).
  - destruct (decide (share_id = s)) as [->|Hne].
    + cbn [new_record sg_share_id]. rewrite lookup_insert_eq. intros [= <-]. by right.
    + cbn [new_record sg_share_id]. rewrite lookup_insert_ne by done. left. eauto.
  - intros Hx. left. by eapply inserted_known.
  - intros Hx. left. by eapply inserted_known.
  - rewrite (map_at _ _ (jb_share_id j)) by (rewrite <- (Hk _ _ H1); by destruct (jb_operation j)).
    intros Hx. left. by eapply inserted_known.
  - rewrite (map_at _ _ (jb_share_id j)) by (by rewrite <- (Hk _ _ H1)).
    intros Hx. left. by eapply inserted_known.
  - destruct (_ && _); [|by eauto].
    rewrite (map_at _ _ (jb_share_id j)) by (by rewrite <- (Hk _ _ H0)).
    intros Hx. left. by eapply inserted_known.
  - rewrite (map_at _ _ (jb_share_id j)) by (by rewrite <- (Hk _ _ H0)).
    intros Hx. left. by eapply inserted_known.
  - intros Hx. left. by eapply inserted_known.
  - intros Hx. left. by eapply inserted_known.
Qed.

Lemma lease_held w now j : lease_matches w now j = true →
  jb_status j = JOB_RUNNING ∧ jb_lease_owner j = Some w ∧ ∃ until, jb_lease_expires_at j = Some until ∧ now < until.
Proof.
  unfold lease_matches. rewrite !andb_true_iff, !bool_decide_eq_true. intros [[? ?] Ht]. split_and!; [done..|].
  destruct (jb_lease_expires_at j) as [t|]; [|done]. exists t. split; [done|]. by apply Z.ltb_lt.
Qed.

(** A call that publishes is a completion. *)
Definition publishes_with (c : ShareCall) (now : datetime) (db : ShareDb) (s : string) (r' : SharedGuideRecord) : Prop :=
  ∃ job_id w j r, c = CompleteIndexOperation job_id s (sg_index_version r') UPSERT w
    ∧ sd_jobs db !! job_id = Some j
    ∧ jb_share_id j = s ∧ jb_operation j = UPSERT ∧ jb_index_version j = sg_index_version r'
    ∧ jb_status j = JOB_RUNNING ∧ jb_lease_owner j = Some w
    ∧ (∃ until, jb_lease_expires_at j = Some until ∧ now < until)
    ∧ sd_shares db !! s = Some r ∧ sg_publication_status r = PUBLISHING ∧ sg_draft r' = sg_draft r.

Lemma complete_publishes t0 now db k s v op w s' r' : shares_wf t0 db →
  sd_shares (complete_index_operation k s v op w now db).2 !! s' = Some r' → sg_publication_status r' = PUBLIC →
  (∃ r, sd_shares db !! s' = Some r ∧ sg_publication_status r = PUBLIC
        ∧ sg_index_version r = sg_index_version r' ∧ sg_draft r = sg_draft r')
  ∨ publishes_with (CompleteIndexOperation k s v op w) now db s' r'.
Proof.
  intros Hwf. unfold complete_index_operation.
  match goal with |- context [end_operation ?k ?s ?v ?op ?w now ?f ?g db] =>
    destruct (end_operation_cases now db k s v op w f g) as [E|(j & row & Hj & Hr & Hs & Ho & Hv & Hop & Hl & E)];
    pose proof E as E' end; rewrite E; cbn [snd sd_shares]; [eauto 10|].
  destruct (decide (s' = s)) as [->|Hne]; [|rewrite lookup_insert_ne by done; eauto 10].
  rewrite lookup_insert_eq. intros [= <-] Hp. destruct op; [|done]. right.
  assert (Hvv : v = sg_index_version row).
  { revert E'. unfold end_operation, select_share. rewrite Hr. destruct (Z.eqb_spec (sg_index_version row) v); [done|done]. }
  destruct (open_operation _ _ Hop) as [_ Hpub]. exists k, w, j, row. cbn. subst v. apply lease_held in Hl as (? & ? & ?).
  split_and!; try done. by apply Hpub.
Qed.

(** C16: Only the worker that holds the lease of a guide's UPSERT job makes the guide public: whatever
    the call and its arguments, a guide that is public afterwards was already public with the same
    version and content, or the call is that worker's completion of exactly this version, and the
    guide was waiting for it. *)
Theorem published_by_lease_holder known_user c t0 now db s r' :
  shares_wf t0 db → t0 <= now → call_ok c = true →
  sd_shares (share_exec known_user c now db) !! s = Some r' → sg_publication_status r' = PUBLIC →
  (∃ r, sd_shares db !! s = Some r ∧ sg_publication_status r = PUBLIC
        ∧ sg_index_version r = sg_index_version r' ∧ sg_draft r = sg_draft r')
  ∨ publishes_with c now db s r'.
Proof.
  intros Hwf Ht Hok Hr' Hp.
  assert (Hsingle : call_actor c = None → ∃ db', share_step None now db db' ∧ db' = share_exec known_user c now db).
  { intros Ha. eexists. split; [|done]. revert Hok. destruct c; try done; cbn [share_exec call_ok]; intros Hok.
    all: try (unfold commit; match goal with |- context [match ?b with _ => _ end] => destruct b as [[a db1]|] eqn:E end;
      [eauto using create_publish_step, stage_update_step, stage_unpublish_step, requeue_step, put_like_step,
         delete_like_step|constructor]).
    by eapply supersede_step. }
  destruct (call_actor c) as [w|] eqn:Ha.
  - destruct c; try done; try (left; destruct (worker_call_publication known_user _ now db w Ha ltac:(done) _ _ Hr')
      as (r & Hr & H1 & H2 & H3); exists r; split_and!; congruence).
    by eapply complete_publishes.
  - left. destruct (Hsingle eq_refl) as (db' & Hs & ->).
    destruct (share_step_new _ _ _ _ _ _ _ Hwf Hs Hr') as [[r Hr]|Hpub]; [|congruence].
    destruct (share_step_guide _ _ _ _ _ _ _ Hwf Hs Hr) as (r1 & Hr1 & Hg).
    assert (r1 = r') as -> by congruence. exists r. split; [done|].
    destruct Hg as [(H1 & H2 & H3 & H4)|(_ & H2 & _)]; [|congruence].
    destruct (decide (sg_publication_status r = PUBLIC)) as [He|Hne]; [by split_and!|].
    destruct (H4 Hp Hne) as (w & j & ? & _). done.
Qed.

(** C17: Withdrawn and replaced versions are gone for good: once a version of a guide is withdrawn or a
    later one is staged, no sequence of calls by anyone, with whatever arguments and clocks, makes it
    public again. *)
Theorem retired_versions_stay_retired known_user calls db s v :
  retired db s v →
  retired (share_run known_user calls db) s v
  ∧ ∀ r, sd_shares (share_run known_user calls db) !! s = Some r → sg_publication_status r = PUBLIC →
         v < sg_index_version r.
Proof.
  intros Hr. pose proof (retired_later _ _ s v (share_run_later known_user calls db) Hr) as Hr'.
  split; [done|]. intros r Hs Hp. destruct Hr' as (r1 & Hr1 & Hv). rewrite Hs in Hr1. injection Hr1 as <-.
  destruct Hv as [?|[_ Hu]]; [done|congruence].
Qed.

(** C15: The sharing tables stay well formed from the empty tables on, whatever calls are made in whatever
    order, as long as the clocks do not go back: one guide per author and session, one job per guide,
    version and operation; a public guide is indexed after it was staged and its UPSERT job is done, one
    in publication has an unfinished job of its version, a withdrawn one a DELETE job; the like count is
    the number of likes, none of them the author's.  So every stored record can be read. *)
Theorem sharing_tables_wf known_user calls t :
  clocks_from t calls → Forall (fun e => call_ok e.1 = true) calls →
  shares_wf (run_end t calls) (share_run known_user calls no_shares)
  ∧ ∀ s r, sd_shares (share_run known_user calls no_shares) !! s = Some r →
      get_index_record s (share_run known_user calls no_shares) = Ok (Some r)
      ∧ get_owned s (pd_author_user_id (sg_draft r)) (share_run known_user calls no_shares) = Ok r.
Proof.
  intros Hc Hok. pose proof (share_run_wf known_user calls t no_shares (no_shares_wf t) Hc Hok) as Hwf.
  split; [done|]. intros s r Hr.
  destruct (row_valid _ _ Hwf _ _ Hr) as [_ Hv]. unfold get_index_record, get_owned, select_owned.
  rewrite Hr. cbn. rewrite String.eqb_refl, Hv. done.
Qed.

(** ** Reading what the vector index found *)

(** The guide an identity stands for, if it may be shown. *)
Definition ready_guide (db : ShareDb) (exclude_session_id : option string) (key : IndexedIdentity)
    : option SharedGuideRecord :=
  r ← sd_shares db !! key.1.1;
  if public_ready r && bool_decide (identity_of r = key)
     && match exclude_session_id with
        | Some session => negb (String.eqb (pd_source_session_id (sg_draft r)) session)
        | None => true
        end
  then Some r else None.

Lemma mapM_record_rows t db l : shares_wf t db → Forall (fun r => ∃ k, sd_shares db !! k = Some r) l →
  mapM record_from_row l = Ok l.
Proof.
  intros Hwf. induction 1 as [|r l [k Hr] Hl IH]; [done|]. cbn [mapM].
  destruct (row_valid _ _ Hwf _ _ Hr) as [_ ->]. cbn [mbind result_bind]. by rewrite IH.
Qed.

Lemma find_identity (l : list SharedGuideRecord) key r :
  (∀ x, x ∈ l → identity_of x = key → x = r) → r ∈ l → identity_of r = key →
  (snd <$> (list_find (fun e : IndexedIdentity * SharedGuideRecord => e.1 = key)
              (map (fun x => (identity_of x, x)) l) ≫= fun p => Some p.2)) = Some r.
Proof.
  intros Hu Hr Hk. induction l as [|x l IH]; [by apply elem_of_nil in Hr|]. cbn [map list_find fst].
  destruct (decide (identity_of x = key)) as [E|E].
  - rewrite (Hu x) by (done || left). done.
  - apply elem_of_cons in Hr as [->|Hr]; [done|].
    specialize (IH ltac:(intros y Hy; apply Hu; by right) Hr).
    by destruct (list_find _ _) as [[i y]|].
Qed.

Lemma find_identity_None (l : list SharedGuideRecord) key : (∀ x, x ∈ l → identity_of x ≠ key) →
  (snd <$> (list_find (fun e : IndexedIdentity * SharedGuideRecord => e.1 = key)
              (map (fun x => (identity_of x, x)) l) ≫= fun p => Some p.2)) = None.
Proof.
  intros Hn. induction l as [|x l IH]; [done|]. cbn [map list_find fst].
  rewrite decide_False by (apply Hn; left). specialize (IH ltac:(intros y Hy; apply Hn; by right)).
  by destruct (list_find _ _) as [[i y]|].
Qed.

(** Whatever the vector index answers, the guides read for it are exactly the ones that are public at
    that very version and content, outside the excluded session, in the order and multiplicity of the
    answer: stale, withdrawn, unfinished or unknown points yield nothing. *)
Theorem search_reads_public_only t db identities exclude :
  shares_wf t db →
  bulk_get_ready identities exclude db = Ok (omap (ready_guide db exclude) identities).
Proof.
  intros Hwf. unfold bulk_get_ready. destruct identities as [|key0 identities]; [done|].
  set (keys := key0 :: identities).
  set (P := fun r : SharedGuideRecord => (public_ready r && bool_decide (identity_of r ∈ keys)
     && match exclude with
        | Some session => negb (String.eqb (pd_source_session_id (sg_draft r)) session)
        | None => true
        end) = true).
  assert (Hl : mapM record_from_row (filter P (share_rows db)) = Ok (filter P (share_rows db))).
  { apply (mapM_record_rows t db); [done|]. rewrite Forall_forall. intros r Hr.
    apply list_elem_of_filter in Hr as [_ Hr]. by apply elem_of_share_rows in Hr. }
  rewrite Hl. clear Hl.
  cbn [mbind result_bind]. f_equal. apply list_omap_ext, Forall_Forall2_diag, Forall_forall. intros key Hkey.
  unfold ready_guide.
  assert (HP : ∀ r, r ∈ filter P (share_rows db) ↔ sd_shares db !! sg_share_id r = Some r ∧ P r).
  { intros r. rewrite list_elem_of_filter, elem_of_share_rows. split; [|intros [? ?]; split; [done|by eexists]].
    intros [HP [k Hr]]. destruct (row_valid _ _ Hwf _ _ Hr) as [Hk _]. split; [by rewrite Hk|exact HP]. }
  destruct (sd_shares db !! key.1.1) as [r|] eqn:Hr; cbn [mbind option_bind].
  - destruct (row_valid _ _ Hwf _ _ Hr) as [Hs _].
    destruct (public_ready r) eqn:Hp; cbn [andb].
    2:{ apply find_identity_None. intros x [Hx Hx']%HP E. rewrite <- E in Hr. cbn in Hr.
        rewrite Hx in Hr. injection Hr as <-. unfold P in Hx'. by rewrite Hp in Hx'. }
    case_bool_decide as Hid; cbn [andb].
    2:{ apply find_identity_None. intros x [Hx Hx']%HP E. rewrite <- E in Hr. cbn in Hr.
        rewrite Hx in Hr. injection Hr as <-. done. }
    destruct (match exclude with Some _ => _ | None => _ end) eqn:Hex.
    + apply find_identity; [| |done].
      * intros x [Hx _]%HP E. rewrite <- E in Hr. cbn in Hr. congruence.
      * apply HP. split; [by rewrite Hs|]. unfold P. rewrite Hp, Hex, bool_decide_true; [done|by rewrite Hid].
    + apply find_identity_None. intros x [Hx Hx']%HP E. rewrite <- E in Hr. cbn in Hr.
      rewrite Hx in Hr. injection Hr as <-. unfold P in Hx'. by rewrite Hex, andb_false_r in Hx'.
  - apply find_identity_None. intros x [Hx _]%HP E. rewrite <- E in Hr. cbn in Hr. congruence.
Qed.

(** ** Refinement *)


(** ** Examples *)


Definition completed_li : SharedGuideRecord :=
  mkRecord "g1" (sample_draft "li" "s1") PUBLIC INDEX_READY 1 0 None (Some 3000) (Some 1000) 1000 3000.

Definition leased_shares : ShareDb := share_run known_sample (take 2 sample_publication) no_shares.
Notation li_completion := (CompleteIndexOperation "j1" "g1" 1 UPSERT "w1").

Example published_by_lease_holder_witness :
  sd_shares (share_exec known_sample li_completion 3000 leased_shares) !! "g1" = Some completed_li
  ∧ ((∃ r, sd_shares leased_shares !! "g1" = Some r ∧ sg_publication_status r = PUBLIC
        ∧ sg_index_version r = 1 ∧ sg_draft r = sample_draft "li" "s1")
     ∨ publishes_with li_completion 3000 leased_shares "g1" completed_li).
Proof.
  assert (E : sd_shares (share_exec known_sample li_completion 3000 leased_shares) !! "g1" = Some completed_li)
    by (vm_compute; reflexivity).
  split; [exact E|].
  refine (published_by_lease_holder known_sample li_completion 2000 3000 leased_shares "g1" completed_li _ _ eq_refl E eq_refl);
    [|lia].
  apply (share_run_wf known_sample (take 2 sample_publication) 0 no_shares); [apply no_shares_wf|cbn; lia|].
  repeat constructor.
Defined.

Example retired_versions_stay_retired_witness :
  (sg_publication_status <$> sd_shares (share_run known_sample (drop 1 withdrawal) withdrawn_shares) !! "g1") = Some UNPUBLISHED
  ∧ retired (share_run known_sample (drop 1 withdrawal) withdrawn_shares) "g1" 1
  ∧ ∀ r, sd_shares (share_run known_sample (drop 1 withdrawal) withdrawn_shares) !! "g1" = Some r →
         sg_publication_status r = PUBLIC → 1 < sg_index_version r.
Proof.
  split; [vm_compute; reflexivity|].
  apply (retired_versions_stay_retired known_sample (drop 1 withdrawal) withdrawn_shares "g1" 1).
  assert (E : (fun r => (sg_index_version r, sg_publication_status r)) <$> sd_shares withdrawn_shares !! "g1" = Some (1, UNPUBLISHED))
    by (vm_compute; reflexivity).
  unfold retired. destruct (sd_shares withdrawn_shares !! "g1") as [r|]; [|done]. exists r. split; [done|].
  right. injection E as -> ->. done.
Defined.

Example sharing_tables_wf_witness :
  shares_wf 5000 (share_run known_sample (sample_publication ++ sample_rest) no_shares)
  ∧ ∀ s r, sd_shares (share_run known_sample (sample_publication ++ sample_rest) no_shares) !! s = Some r →
      get_index_record s (share_run known_sample (sample_publication ++ sample_rest) no_shares) = Ok (Some r)
      ∧ get_owned s (pd_author_user_id (sg_draft r))
          (share_run known_sample (sample_publication ++ sample_rest) no_shares) = Ok r.
Proof.
  apply (sharing_tables_wf known_sample (sample_publication ++ sample_rest) 0); [cbn; lia|repeat constructor].
Defined.

Example search_reads_public_only_witness :
  bulk_get_ready [("g2", 1, sample_hash); ("g1", 1, sample_hash); ("g1", 2, sample_hash); ("g9", 1, "")] None sample_shares
    = Ok [li_guide]
  ∧ bulk_get_ready [("g1", 1, sample_hash)] (Some "s1") sample_shares
    = Ok (omap (ready_guide sample_shares (Some "s1")) [("g1", 1, sample_hash)]).
Proof.
  split; [vm_compute; reflexivity|].
  apply (search_reads_public_only 5000 sample_shares [("g1", 1, sample_hash)] (Some "s1") sample_shares_wf).
Defined.

(** A clock that went back between the publication of a guide and the end of its
    indexing: the completion is stored, and the guide cannot be read any more. *)
Example skewed_clock_hides_guide :
  let db := share_run known_sample
      [(CreatePublishIntent (sample_draft "li" "s1") "g1" "j1", 1000); (ClaimIndexJob "j1" "w1" 30, 1000);
       (CompleteIndexOperation "j1" "g1" 1 UPSERT "w1", 900)] no_shares in
  (sg_publication_status <$> sd_shares db !! "g1") = Some PUBLIC
  ∧ get_owned "g1" "li" db = Err ShareValidationError
  ∧ stage_unpublish "g1" "li" 2000 "j2" db = Err ShareValidationError.
Proof. split_and!; vm_compute; reflexivity. Qed.

(** A guide whose indexing failed for good: sharing the same content again finds
    nothing to do. *)
Example failed_guide_stays_failed :
  let db := share_run known_sample
      [(CreatePublishIntent (sample_draft "li" "s1") "g1" "j1", 1000); (ClaimIndexJob "j1" "w1" 30, 2000);
       (RecordIndexFailure "j1" "g1" 1 UPSERT (Some "EmbeddingUnavailableError") "w1" None true, 3000)] no_shares in
  match create_publish_intent known_sample (sample_draft "li" "s1") 90000000 "g2" "j2" db with
  | Ok (i, _) => (in_operation_required i, sg_publication_status (in_record i))
  | Err _ => (true, PUBLIC)
  end = (false, PUBLISHING)
  ∧ (fst <$> claim_next_index_job "w1" 90000000 30 5 none_locked db) = Some (Ok None).
Proof. split; vm_compute; reflexivity. Qed.
