(* ===== verification/TripDraftProofs.v ===== *)
(** The draft service over any store that keeps the contract: a small program
    logic for its computations, and the invariant of the version history. *)

From S2P Require Import Prelude PyData TripSchema TaskTables OrderedDict AmapModels PlanReports ToolModels PlanRoutes AgentState Convergence AgentDecision AgentAnalysis Acceptance TripVersions TripHistory SessionStore TripDrafts.
From Stdlib Require Import ZArith QArith Lia String.
From stdpp Require Import base tactics option list gmap strings.

Open Scope string_scope.
Open Scope Z_scope.

(** ** The contract of the session stores *)

Class StateStoreLaws `{StateStore} : Prop := {
  law_get_state sid db s : get_state sid None db = Ok s →
    ∃ r, ad_sessions db !! sid = Some r ∧ se_state_json r = Some s;
  law_update_state now s db db' : update_state now s db = Ok db' →
    ∃ r, db' = set_session (st_session_id s) r db ∧ se_state_json r = Some (touch now s)
}.

#[export] Instance sqlite_session_laws : @StateStoreLaws SqliteSessions.store.
Proof.
  split.
  - intros sid db s. cbn. unfold SqliteSessions.get_state. destruct (ad_sessions db !! sid) as [r|]; [|done].
    destruct (se_state_json r) as [s'|] eqn:E; [|done]. cbn. intros [= <-]. eauto.
  - intros now s db db' [= <-]. eexists. split; [done|]. by destruct (ad_sessions db !! _).
Qed.

#[export] Instance mysql_session_laws : @StateStoreLaws MysqlSessions.store.
Proof.
  split.
  - intros sid db s. cbn. unfold MysqlSessions.get_state. destruct (ad_sessions db !! sid) as [r|]; [|done].
    cbn. destruct (se_state_json r) as [s'|] eqn:E; [|done]. intros [= <-]. eauto.
  - intros now s db db'. cbn. unfold MysqlSessions.save_state. cbn [negb].
    destruct (MysqlSessions.owned_row _ _ db) as [r|]; [|done]. intros [= <-]. eexists. split; done.
Qed.

(** ** Program logic *)

Definition at_tick (n : nat) (w : DraftWorld) : DraftWorld := mkDraftWorld (wo_db w) n.

(** A fact that more questions to the environment do not change. *)
Definition stable (P : DraftWorld → Prop) : Prop := ∀ w n, (wo_tick w <= n)%nat → P w → P (at_tick n w).

Section Logic.
Context `{DraftEnv}.

(** The computation keeps the history in order, and establishes [Q] when it returns. *)
Definition keeps {A} (P : DraftWorld → Prop) (m : Svc A) (Q : A → DraftWorld → Prop) : Prop :=
  ∀ w, history_ok w → P w →
    history_ok (m w).2 ∧ grows w (m w).2 ∧ ∀ a, (m w).1 = Ok a → Q a (m w).2.

(** It writes nothing. *)
Definition quiet {A} (m : Svc A) : Prop := ∀ w, ∃ n, (wo_tick w <= n)%nat ∧ (m w).2 = at_tick n w.

Lemma ret_keeps {A} P (a : A) Q : (∀ w, P w → Q a w) → keeps P (mret a) Q.
Proof. intros HQ w Hok HP. cbn. split; [done|]. split; [reflexivity|]. intros ? [= <-]. auto. Qed.

Lemma keeps_raise {A} P e (Q : A → _) : keeps P (raise e) Q.
Proof. intros w Hok HP. cbn. split; [done|]. split; [reflexivity|done]. Qed.

Lemma bind_keeps {A B} P (m : Svc A) (k : A → Svc B) Q R :
  keeps P m Q → (∀ a, keeps (Q a) (k a) R) → keeps P (m ≫= k) R.
Proof.
  intros Hm Hk w Hok HP. destruct (Hm w Hok HP) as (Hok1 & Hg1 & HQ). unfold mbind, svc_bind.
  destruct (m w) as [[a|e] w1]; cbn [fst snd] in *; [|by split].
  destruct (Hk a w1 Hok1 (HQ a eq_refl)) as (Hok2 & Hg2 & HR).
  split; [done|]. split; [by etransitivity|done].
Qed.

Lemma keeps_weaken {A} P P' (m : Svc A) Q Q' :
  keeps P m Q → (∀ w, history_ok w → P' w → P w) → (∀ a w, history_ok w → Q a w → Q' a w) → keeps P' m Q'.
Proof.
  intros Hm HP HQ w Hok HP'. destruct (Hm w Hok (HP w Hok HP')) as (Hok1 & Hg & HQ1). split; [done|]. split; [done|auto].
Qed.

Lemma keeps_lift {A} P (r : result exn A) : keeps P (lift_result r) (λ a w, P w ∧ r = Ok a).
Proof. intros w Hok HP. cbn. split; [done|]. split; [reflexivity|]. auto. Qed.

Lemma keeps_quiet {A} P (m : Svc A) : stable P → quiet m → keeps P m (λ _ w, P w).
Proof.
  intros HP Hm w Hok HPw. destruct (Hm w) as (n & Hn & ->).
  split; [by apply history_tick|]. split; [apply grows_tick|]. intros a _. by apply HP.
Qed.

Lemma keeps_quiet_ret {A} P (a : A) Q : (∀ w, history_ok w → P w → Q a w) → keeps P (mret a) Q.
Proof. intros HQ w Hok HP. cbn. split; [done|]. split; [reflexivity|]. intros ? [= <-]. auto. Qed.

(** A pure fact of the precondition. *)
Lemma keeps_pure_eq {A} (R : Prop) P (m : Svc A) Q : (R → keeps P m Q) → keeps (λ w, R ∧ P w) m Q.
Proof. intros Hm w Hok [HR HP]. by apply Hm. Qed.

Lemma keeps_ask {A} P (f : nat → A) : stable P → keeps P (ask f) (λ a w, P w ∧ ∃ k, (k < wo_tick w)%nat ∧ a = f k).
Proof.
  intros HP w Hok HPw. cbn. split; [apply history_tick; [done|lia]|]. split; [apply grows_tick|].
  intros a [= <-]. split; [apply (HP w); [lia|done]|]. exists (wo_tick w). cbn. split; [lia|done].
Qed.

Lemma keeps_read {A} P (f : AppDb → result exn A) :
  stable P → keeps P (read_store f) (λ a w, P w ∧ f (wo_db w) = Ok a).
Proof.
  intros HP. eapply bind_keeps; [by apply keeps_ask|]. intros [e|]; [apply keeps_raise|].
  intros w Hok [HPw _]. cbn. split; [done|]. split; [reflexivity|done].
Qed.

(** What a write makes of the world of its call. *)
Lemma keeps_write {A} P (f : AppDb → result exn (A * AppDb)) Q :
  stable P →
  (∀ w a db, history_ok w → P w → f (wo_db w) = Ok (a, db) →
     history_ok (mkDraftWorld db (wo_tick w)) ∧ grows w (mkDraftWorld db (wo_tick w)) ∧ Q a (mkDraftWorld db (wo_tick w))) →
  keeps P (write_store f) Q.
Proof.
  intros HP Hf. eapply bind_keeps; [by apply keeps_ask|]. intros [e|]; [apply keeps_raise|].
  intros w Hok [HPw _]. specialize (Hf w). destruct (f (wo_db w)) as [[a db]|e]; cbn.
  - destruct (Hf a db Hok HPw eq_refl) as (? & ? & ?). split; [done|]. split; [done|]. by intros ? [= <-].
  - split; [done|]. split; [reflexivity|done].
Qed.

(** Quiet computations. *)
Lemma quiet_ret {A} (a : A) : quiet (mret a).
Proof. intros w. exists (wo_tick w). by destruct w. Qed.
Lemma quiet_raise {A} e : quiet (A := A) (raise e).
Proof. intros w. exists (wo_tick w). by destruct w. Qed.
Lemma quiet_lift {A} (r : result exn A) : quiet (lift_result r).
Proof. intros w. exists (wo_tick w). by destruct w. Qed.
Lemma quiet_ask {A} (f : nat → A) : quiet (ask f).
Proof. intros w. exists (S (wo_tick w)). split; [lia|done]. Qed.
Lemma quiet_now : quiet utc_now.
Proof. apply quiet_ask. Qed.
Lemma quiet_bind {A B} (m : Svc A) (k : A → Svc B) : quiet m → (∀ a, quiet (k a)) → quiet (m ≫= k).
Proof.
  intros Hm Hk w. destruct (Hm w) as (n & Hn & E). unfold mbind, svc_bind.
  destruct (m w) as [[a|e] w1]; cbn [snd] in *; subst w1; [|by exists n].
  destruct (Hk a (at_tick n w)) as (n' & Hn' & E'). exists n'. rewrite E'. cbn in Hn'. split; [lia|done].
Qed.
End Logic.

Create HintDb quiet.
#[export] Hint Resolve quiet_ret quiet_raise quiet_lift quiet_ask quiet_now : quiet.
Ltac quiet := repeat first [solve [auto with quiet] | apply quiet_bind; [|intros ?] | case_match | progress cbv zeta].

Section Service.
Context `{DraftEnv} `{!VersionStore} `{!VersionStoreLaws} `{!StateStore} `{!StateStoreLaws}.
Context `{HashEnv} `{PydanticModels} `{PlanningServices}.

Lemma quiet_evaluate_plan st plan routes : quiet (evaluate_plan st plan routes).
Proof. unfold evaluate_plan. quiet. Qed.
#[local] Hint Resolve quiet_evaluate_plan : quiet.

Lemma quiet_evaluation_from_state st : quiet (evaluation_from_state st).
Proof. unfold evaluation_from_state. quiet. Qed.

Lemma quiet_incremental_routes st before plan diff : quiet (incremental_routes st before plan diff).
Proof.
  unfold incremental_routes. quiet.
Qed.
#[local] Hint Resolve quiet_evaluation_from_state quiet_incremental_routes : quiet.

(** ** Facts that stay *)

Lemma stable_true : stable (λ _, True).
Proof. done. Qed.
Lemma stable_and P Q : stable P → stable Q → stable (λ w, P w ∧ Q w).
Proof. intros HP HQ w n Hn [? ?]. split; [by apply HP|by apply HQ]. Qed.
Lemma stable_pure (P : Prop) : stable (λ _, P).
Proof. intros w n _ HP. exact HP. Qed.
Lemma stable_tables (p : gmap string TripPlanVersion → gmap string TripDraft → Prop) : stable (λ w, p (history w) (drafts w)).
Proof. intros w n _ HP. exact HP. Qed.
Lemma stable_issued id : stable (issued id).
Proof. intros w n Hn (k & Hk & ->). exists k. cbn. split; [lia|done]. Qed.

Ltac stays := repeat first [apply stable_issued | solve [intros ? ? _ Hw; exact Hw] | apply stable_and].

(** ** Reading *)

Lemma keeps_load_state P sid :
  stable P → keeps P (load_state sid) (λ st w, P w ∧ st_session_id st = sid).
Proof.
  intros HP. eapply keeps_weaken; [by apply keeps_read|done|].
  intros st w Hok [HPw Hst]. split; [done|]. apply law_get_state in Hst as (r & Hr & Hs).
  by eapply (ho_sessions w Hok).
Qed.

Definition stored_draft (sid did : string) (d : TripDraft) (w : DraftWorld) : Prop :=
  drafts w !! did = Some d ∧ dr_session_id d = sid ∧ dr_draft_id d = did.

Lemma keeps_load_draft P sid did :
  stable P → keeps P (load_draft sid did) (λ d w, P w ∧ stored_draft sid did d w).
Proof.
  intros HP. eapply keeps_weaken; [by apply keeps_read|done|].
  intros d w Hok [HPw Hd]. split; [done|]. pose proof (ho_columns w Hok) as Hc. rewrite law_get_draft in Hd by done.
  destruct (drafts_of _ !! did) as [d'|] eqn:E; [|done].
  destruct (String.eqb_spec (dr_session_id d') sid) as [Hs|]; [|done]. injection Hd as ->.
  split; [done|]. split; [done|]. by destruct (draft_row _ _ _ Hc E).
Qed.

Definition confirmed_is (sid : string) (v : TripPlanVersion) (w : DraftWorld) : Prop :=
  history w !! tv_version_id v = Some v ∧ tv_session_id v = sid ∧ tv_status v = version_confirmed.

Lemma confirmed_is_number sid v w : confirmed_is sid v w → confirmed_number sid (tv_version_number v) w.
Proof. intros (Hv & Hs & Hc). by exists (tv_version_id v), v. Qed.

Lemma keeps_load_confirmed P sid :
  stable P →
  keeps P (load_confirmed sid)
    (λ o w, P w ∧ match o with
                  | Some v => confirmed_is sid v w
                  | None => ∀ i u, history w !! i = Some u → tv_session_id u ≠ sid
                  end).
Proof.
  intros HP. eapply keeps_weaken; [by apply keeps_read|done|].
  intros o w Hok [HPw [= <-]]. split; [done|]. rewrite law_confirmed.
  pose proof (ho_columns w Hok) as Hc. destruct (vw_version_json <$> confirmed_row sid _) as [v|] eqn:E.
  - apply confirmed_lookup in E as ((i & Hi) & Hs & Hst); [|done|apply Hok].
    split; [|done]. by rewrite (version_id_of _ _ _ Hc Hi).
  - intros i u Hu Hs. destruct (ho_some w Hok i u Hu) as (j & v & Hv & Hsv & Hcv).
    assert (vw_version_json <$> confirmed_row sid (ad_versions (wo_db w)) = Some v); [|congruence].
    apply confirmed_lookup; [done|apply Hok|]. split; [by exists j|]. split; [congruence|done].
Qed.

(** ** Writing *)

Lemma on_versions_ok {A} (f : VersionDb → result exn (A * VersionDb)) db a v :
  f (ad_versions db) = Ok (a, v) →
  on_versions f db = Ok (a, mkAppDb (ad_sessions db) (ad_tasks db) v (ad_users db)).
Proof. intros E. unfold on_versions. by rewrite E. Qed.

Lemma keeps_store_version P v Q :
  stable P → (∀ w, history_ok w → P w → addable v w ∧ Q tt (add_version v w)) → keeps P (store_version v) Q.
Proof.
  intros HP HQ. apply keeps_write; [done|]. intros w [] db Hok HPw Hf. destruct (HQ w Hok HPw) as [Hadd HQw].
  destruct (add_version_ok v w Hok Hadd) as [Hok' Hg]. destruct Hadd as (Hnew & _ & _ & Habove & _).
  erewrite on_versions_ok in Hf.
  2: { rewrite law_save_new; [done|apply Hok|done|]. intros i u Hu Hs Hn. specialize (Habove i u Hu Hs). lia. }
  injection Hf as <-. done.
Qed.

Lemma keeps_store_draft P d Q :
  stable P → (∀ w, history_ok w → P w → puttable d w ∧ Q d (put_draft d w)) → keeps P (store_draft d) Q.
Proof.
  intros HP HQ. apply keeps_write; [done|]. intros w a db Hok HPw Hf. destruct (HQ w Hok HPw) as [Hput HQw].
  destruct (put_draft_ok d w Hok Hput) as [Hok' Hg]. destruct Hput as (_ & _ & Hold).
  erewrite on_versions_ok in Hf; [|done]. injection Hf as <- <-. rewrite law_save_draft; [done|apply Hok|done].
Qed.

(** A candidate of the table is withdrawn; the drafts and what is confirmed stay. *)
Lemma keeps_withdraw P id Q :
  stable P →
  (∀ w w', history_ok w → history_ok w' → P w → drafts w' = drafts w → wo_tick w' = wo_tick w →
     (∀ sid v, confirmed_is sid v w → confirmed_is sid v w') → Q tt w') →
  keeps P (withdraw_candidate id) Q.
Proof.
  intros HP HQ. apply keeps_write; [done|]. intros w [] db Hok HPw Hf.
  pose proof (law_supersede id (ad_versions (wo_db w)) (ho_columns w Hok)) as E.
  assert (Hsame : Ok (tt, wo_db w) = Ok (E := exn) (tt, db) →
            history_ok (mkDraftWorld db (wo_tick w)) ∧ grows w (mkDraftWorld db (wo_tick w)) ∧ Q tt (mkDraftWorld db (wo_tick w))).
  { intros [= <-]. destruct w as [wdb wt]. split; [done|]. split; [reflexivity|]. by apply (HQ (mkDraftWorld wdb wt)). }
  assert (Hid : mkAppDb (ad_sessions (wo_db w)) (ad_tasks (wo_db w)) (ad_versions (wo_db w)) (ad_users (wo_db w)) = wo_db w)
    by by destruct (wo_db w).
  destruct (truthy id) as [i|]; [destruct (versions_of _ !! i) as [v|] eqn:Hv; [case_bool_decide as Hs|]|].
  - unfold on_versions in Hf. rewrite E in Hf. cbn in Hf. injection Hf as <-.
    destruct (withdraw_ok i v w Hok Hv Hs) as [Hok' Hg]. split; [exact Hok'|]. split; [exact Hg|].
    apply (HQ w (withdraw i v w)); try done. intros sid u (Hu & Hsu & Hcu). split; [|done].
    rewrite history_withdraw, lookup_insert_ne; [done|]. intros ->. unfold history in Hu. congruence.
  - unfold on_versions in Hf. rewrite E in Hf. cbn in Hf. rewrite Hid in Hf. by apply Hsame.
  - unfold on_versions in Hf. rewrite E in Hf. done.
  - unfold on_versions in Hf. rewrite E in Hf. cbn in Hf. rewrite Hid in Hf. by apply Hsame.
Qed.

(** ** The methods *)

Context (uuid_inj : ∀ i j, de_uuid i = de_uuid j → i = j).

Lemma keeps_new_uuid P :
  stable P →
  keeps P new_uuid (λ id w, P w ∧ issued id w ∧ history w !! id = None ∧ drafts w !! id = None).
Proof.
  intros HP w Hok HPw. cbn. split; [apply history_tick; [done|lia]|]. split; [apply grows_tick|].
  intros id [= <-]. split; [apply (HP w); [lia|done]|].
  assert (Hno : ¬ issued (de_uuid (wo_tick w)) w).
  { intros (k & Hk & He). apply uuid_inj in He. lia. }
  split; [exists (wo_tick w); cbn; split; [lia|done]|].
  split; apply eq_None_not_Some; intros Hs; apply Hno, (ho_issued w Hok); auto.
Qed.

Lemma keeps_now P : stable P → keeps P utc_now (λ _ w, P w).
Proof. intros HP. apply keeps_quiet; [done|apply quiet_now]. Qed.

Lemma keeps_original st (p : gmap string TripDraft → Prop) :
  keeps (λ w, p (drafts w)) (ensure_original_version st) (λ v w, p (drafts w) ∧ confirmed_is (st_session_id st) v w).
Proof.
  assert (Hp : stable (λ w, p (drafts w))) by (intros w n _ Hw; exact Hw).
  unfold ensure_original_version. eapply bind_keeps; [by apply keeps_load_confirmed|]. intros [v|].
  { apply ret_keeps. done. }
  set (P := λ w : DraftWorld, p (drafts w) ∧ ∀ i u, history w !! i = Some u → tv_session_id u ≠ st_session_id st).
  assert (HP : stable P) by (intros w n _ Hw; exact Hw).
  change (keeps _ _ _) with (keeps P (match fa_trip_plan (st_facts st) with
    | None => raise (DraftConflictError "当前会话没有可编辑行程")
    | Some _ =>
        '(plan, evaluation) ← evaluation_from_state st;
          id ← new_uuid; confirmed_at ← utc_now; created_at ← utc_now;
          let v := mkVersion id (st_session_id st) 1 version_confirmed source_original None plan evaluation
                     created_at (Some confirmed_at) in
          _ ← store_version v; mret v
    end) (λ v w, p (drafts w) ∧ confirmed_is (st_session_id st) v w)).
  destruct (fa_trip_plan _); [|apply keeps_raise].
  eapply bind_keeps; [apply keeps_quiet; [done|auto with quiet]|]. intros [plan evaluation].
  eapply bind_keeps; [by apply keeps_new_uuid|]. intros id. cbn beta.
  assert (HQ : stable (λ w, P w ∧ issued id w ∧ history w !! id = None ∧ drafts w !! id = None)).
  { apply stable_and; [done|]. apply stable_and; [apply stable_issued|]. intros w n _ Hw. exact Hw. }
  eapply bind_keeps; [by apply keeps_now|]. intros confirmed_at.
  eapply bind_keeps; [by apply keeps_now|]. intros created_at. cbv zeta.
  eapply bind_keeps; [|intros a; apply ret_keeps; exact (λ _ Hw, Hw)].
  apply keeps_store_version; [done|]. intros w Hok ((Hd & Hnone) & Hissued & Hnew & _). split.
  - split; [done|]. split; [done|]. cbn. split; [lia|]. split; [intros i u Hu Hs; by destruct (Hnone i u Hu)|].
    right. split; [done|]. intros i u Hu. by apply (Hnone i u).
  - split; [exact Hd|]. split; [|done]. rewrite history_add. apply lookup_insert_eq.
Qed.

Lemma keeps_create sid payload : keeps (λ _, True) (create_draft sid payload) (λ _ _, True).
Proof.
  unfold create_draft. eapply bind_keeps; [apply keeps_load_state, stable_true|]. intros st.
  eapply bind_keeps; [eapply keeps_weaken; [apply (keeps_original st (λ _, True))|done|exact (λ _ _ _ _, I)]|].
  intros confirmed. cbv zeta. destruct (negb _); [apply keeps_raise|].
  eapply bind_keeps; [apply keeps_quiet; [stays|apply quiet_lift]|]. intros ?.
  eapply bind_keeps; [apply keeps_new_uuid; stays|]. intros id. cbn beta.
  eapply bind_keeps; [apply keeps_now; stays|]. intros created_at.
  eapply bind_keeps; [apply keeps_now; stays|]. intros updated_at. cbn beta.
  apply keeps_store_draft; [stays|]. intros w Hok (_ & Hissued & _ & Hnew). split; [|done].
  split; [exact Hissued|]. split; [intros c; cbn; done|]. intros old Hold. cbn in Hold. congruence.
Qed.

(** The next state of a stored draft without a candidate, or with one that backs it. *)
Lemma stored_puttable sid did d d' w :
  history_ok w → stored_draft sid did d w →
  dr_draft_id d' = dr_draft_id d → dr_session_id d' = dr_session_id d → dr_base_version d' = dr_base_version d →
  dr_created_at d' = dr_created_at d → backed d' w → puttable d' w ∧ stored_draft sid did d' (put_draft d' w).
Proof.
  intros Hok (Hd & Hs & Hi) Hid Hsid Hb Hc Hback. split; [split; [|split; [done|]]|].
  - rewrite Hid, Hi. apply (ho_issued w Hok). right. eauto.
  - intros old. rewrite Hid, Hi. intros Ho. rewrite Hd in Ho. injection Ho as <-. done.
  - split; [|split; congruence]. rewrite drafts_put, Hid, Hi. apply lookup_insert_eq.
Qed.

Lemma keeps_update sid did plan : keeps (λ _, True) (update_draft sid did plan) (λ _ _, True).
Proof.
  unfold update_draft. eapply bind_keeps; [apply keeps_load_state, stable_true|]. intros st.
  eapply bind_keeps; [apply keeps_load_draft; stays|]. intros draft. cbn beta.
  case_bool_decide; [apply keeps_raise|].
  eapply bind_keeps; [apply keeps_quiet; [stays|apply quiet_lift]|]. intros ?.
  eapply bind_keeps.
  { apply (keeps_withdraw _ _ (λ _ w, stored_draft sid did draft w)); [stays|].
    intros w w' _ _ [_ (Hd & Hr)] Hdr _ _. split; [by rewrite Hdr|done]. }
  intros ?. eapply bind_keeps; [apply keeps_now; stays|]. intros now. cbn beta.
  apply keeps_store_draft; [stays|]. intros w Hok Hd. split; [|done].
  by eapply (stored_puttable sid did draft); [done|exact Hd|done..|].
Qed.

Definition evaluated (sid did : string) (c : TripPlanVersion) (base : Z) (w : DraftWorld) : Prop :=
  history w !! tv_version_id c = Some c ∧ tv_session_id c = sid ∧ base < tv_version_number c.

Lemma keeps_evaluate sid did :
  keeps (λ _, True) (evaluate_draft sid did)
    (λ r w, stored_draft sid did (rs_draft r) w ∧ dr_status (rs_draft r) = draft_evaluated
            ∧ dr_candidate_version_id (rs_draft r) = Some (tv_version_id (rs_candidate r))
            ∧ history w !! tv_version_id (rs_candidate r) = Some (rs_candidate r)
            ∧ confirmed_number sid (dr_base_version (rs_draft r)) w).
Proof.
  unfold evaluate_draft. eapply bind_keeps; [apply keeps_load_state, stable_true|]. intros st.
  eapply bind_keeps; [apply keeps_load_draft; stays|]. intros draft. cbn beta.
  eapply bind_keeps; [apply keeps_load_confirmed; stays|]. intros found. cbn beta.
  apply (bind_keeps _ _ _ (λ c w, stored_draft sid did draft w ∧ confirmed_is sid c w)).
  { destruct found as [v|].
    - apply ret_keeps. intros w (([_ _] & Hd) & Hc). done.
    - intros w Hok (([_ Hsid] & Hd) & _).
      destruct (keeps_original st (λ m, m !! did = Some draft ∧ dr_session_id draft = sid ∧ dr_draft_id draft = did)
                  w Hok Hd) as (Hok' & Hg & HQ).
      split; [done|]. split; [done|]. intros a Ha. rewrite <- Hsid at 2. by apply HQ. }
  intros confirmed. cbn beta. destruct (Z.eqb_spec (dr_base_version draft) (tv_version_number confirmed)) as [Hb|];
    cbn [negb]; [|apply keeps_raise].
  eapply bind_keeps.
  { apply (keeps_withdraw _ _ (λ _ w, stored_draft sid did draft w ∧ confirmed_is sid confirmed w)); [stays|].
    intros w w' _ _ [(Hd & Hr) Hc] Hdr _ Hconf. split; [split; [by rewrite Hdr|done]|by apply Hconf]. }
  intros ?. eapply bind_keeps; [apply keeps_quiet; [stays|auto with quiet]|]. intros [routes diff]. cbn beta.
  eapply bind_keeps; [apply keeps_quiet; [stays|auto with quiet]|]. intros [plan evaluation]. cbn beta.
  eapply bind_keeps; [apply keeps_new_uuid; stays|]. intros id. cbn beta.
  eapply bind_keeps; [apply keeps_read; stays|]. intros number. cbn beta.
  set (cand created := mkVersion id sid number version_candidate source_draft (Some (dr_draft_id draft)) plan evaluation
                 created None).
  set (P := λ w, (stored_draft sid did draft w ∧ confirmed_is sid confirmed w) ∧ issued id w ∧ history w !! id = None
            ∧ ∀ i u, history w !! i = Some u → tv_session_id u = sid → tv_version_number u < number).
  apply (bind_keeps _ _ _ (λ _, P)).
  { eapply keeps_weaken; [apply (keeps_now P)| |done].
    - unfold P. repeat (apply stable_and; [stays|]). stays.
    - intros w Hok ((Hw & Hissued & Hnew & _) & [= <-]). split; [done|]. split; [done|]. split; [done|].
      intros i u Hu Hs. rewrite law_next. by apply (next_number_above _ sid i u (ho_columns w Hok)). }
  intros created_at. fold (cand created_at).
  apply (bind_keeps _ _ _ (λ _ w, stored_draft sid did draft w ∧ confirmed_number sid (dr_base_version draft) w
                                  ∧ history w !! id = Some (cand created_at) ∧ dr_base_version draft < number)).
  { apply keeps_store_version; [unfold P; repeat (apply stable_and; [stays|]); stays|].
    intros w Hok ((Hd & Hc) & Hissued & Hnew & Habove).
    pose proof (confirmed_is_number _ _ _ Hc) as Hcn. rewrite <- Hb in Hcn.
    assert (Hlt : dr_base_version draft < number). { destruct Hcn as (i & u & Hu & Hs & _ & <-). by eapply Habove. }
    assert (Hadd : addable (cand created_at) w).
    { split; [done|]. split; [done|]. split; [|split; [done|left; split; [done|by exists (dr_base_version draft)]]].
      cbn. destruct Hcn as (i & u & Hu & _ & _ & Hn). pose proof (ho_positive w Hok i u Hu). lia. }
    split; [done|]. split; [exact Hd|]. split; [|split; [rewrite history_add; apply lookup_insert_eq|done]].
    destruct (add_version_ok _ w Hok Hadd) as [_ Hg]. destruct Hcn as (i & u & Hu & Hs & Hst & Hn). exists i, u.
    rewrite history_add, lookup_insert_ne; [done|]. intros He. cbn in He. congruence. }
  intros ?. eapply bind_keeps; [apply keeps_now; stays|]. intros now. cbv zeta.
  set (d' := mkDraft _ _ _ _ _ _ _ _ _).
  apply (bind_keeps _ _ _ (λ _ w, stored_draft sid did d' w ∧ history w !! id = Some (cand created_at)
                                  ∧ confirmed_number sid (dr_base_version draft) w)).
  { apply keeps_store_draft; [stays|]. intros w Hok (Hd & Hcn & Hcand & Hlt).
    destruct (stored_puttable sid did draft d' w) as [Hput Hst]; [done..| |].
    - intros c Hc. cbn in Hc. destruct (String.eqb id ""); [done|]. injection Hc as <-.
      exists (cand created_at). split; [done|]. split; [symmetry; apply Hd|]. done.
    - split; [done|]. split; [done|]. split; [exact Hcand|exact Hcn]. }
  intros ?. apply ret_keeps. intros w (Hst & Hcand & Hcn). done.
Qed.

(** ** Confirmation *)

(** What the checks of a confirmation establish. *)
Definition may_confirm (sid did : string) (x : AgentState * TripDraft * TripPlanVersion) (w : DraftWorld) : Prop :=
  let '(st, draft, v) := x in
  st_session_id st = sid ∧ stored_draft sid did draft w ∧ dr_status draft = draft_evaluated
  ∧ dr_candidate_version_id draft = Some (tv_version_id v)
  ∧ confirmed_number sid (dr_base_version draft) w
  ∧ history w !! tv_version_id v = Some v ∧ tv_session_id v = sid
  ∧ dr_base_version draft < tv_version_number v ∧ tv_trip_plan v = dr_trip_plan draft.

Lemma keeps_confirmable sid did : keeps (λ _, True) (confirmable sid did) (may_confirm sid did).
Proof.
  unfold confirmable. eapply bind_keeps; [apply keeps_load_state, stable_true|]. intros st.
  eapply bind_keeps; [apply keeps_load_draft; stays|]. intros draft. cbn beta.
  eapply bind_keeps; [apply keeps_load_confirmed; stays|]. intros [c|]; [|apply keeps_raise].
  destruct (Z.eqb_spec (dr_base_version draft) (tv_version_number c)) as [Hb|]; cbn [negb]; [|apply keeps_raise].
  case_bool_decide as Hst; [|apply keeps_raise].
  destruct (truthy (dr_candidate_version_id draft)) as [id|] eqn:Hid; [|apply keeps_raise].
  eapply bind_keeps; [apply keeps_read; stays|]. intros v. cbn beta. apply keeps_quiet_ret.
  intros w Hok [[[[_ Hsid] Hd] Hc] Hv]. rewrite law_get_by_id in Hv.
  destruct (versions_of _ !! id) as [v'|] eqn:E; [|done]. injection Hv as ->.
  destruct (ho_candidates w Hok did draft id (proj1 Hd) Hid) as (v' & Hv' & Hs & Hn & Hp).
  pose proof (version_id_of _ _ _ (ho_columns w Hok) E) as Hvid. unfold history in Hv'. rewrite E in Hv'. injection Hv' as <-.
  split; [done|]. split; [done|]. split; [done|].
  split; [rewrite Hvid; unfold truthy in Hid; destruct (dr_candidate_version_id draft) as [i|]; [|done];
          destruct (String.eqb i ""); congruence|].
  split; [rewrite Hb; by apply confirmed_is_number|]. rewrite Hvid. split; [exact E|].
  split; [rewrite Hs; apply Hd|done].
Qed.

(** The session shows the plan and the verdicts of the version. *)
Definition shows (sid : string) (v : TripPlanVersion) (w : DraftWorld) : Prop :=
  ∃ r s, ad_sessions (wo_db w) !! sid = Some r ∧ se_state_json r = Some s
    ∧ fa_trip_plan (st_facts s) = Some (tv_trip_plan v)
    ∧ ev_validation (st_evals s) = Some (te_validation (tv_evaluation v))
    ∧ ev_acceptance (st_evals s) = Some (te_acceptance (tv_evaluation v)).

Lemma state_of_version_shows st v s :
  state_of_version st v = Ok s →
  st_session_id s = st_session_id st ∧ fa_trip_plan (st_facts s) = Some (tv_trip_plan v)
  ∧ ev_validation (st_evals s) = Some (te_validation (tv_evaluation v))
  ∧ ev_acceptance (st_evals s) = Some (te_acceptance (tv_evaluation v)).
Proof.
  unfold state_of_version. cbv zeta. destruct (content_fingerprint_of _ _ _ _ _); cbn [mbind result_bind]; [|done].
  intros [= <-]. done.
Qed.

(** A save changes one session only. *)
Lemma keeps_save P now st Q :
  stable P →
  (∀ w w' r, history_ok w → P w → history w' = history w → drafts w' = drafts w →
     ad_sessions (wo_db w') !! st_session_id st = Some r → se_state_json r = Some (touch now st) → Q tt w') →
  keeps P (write_store (fun db => db ← update_state now st db; mret (tt, db))) Q.
Proof.
  intros HP HQ. apply keeps_write; [done|]. intros w [] db Hok HPw Hf.
  destruct (update_state now st (wo_db w)) as [db'|] eqn:E; [|done]. cbn in Hf. injection Hf as ->.
  apply law_update_state in E as (r & -> & Hr). split; [|split].
  - split; try apply Hok. intros sid r' s. cbn. rewrite lookup_insert_Some.
    intros [[<- <-]|[_ Hl]] Hs; [|by eapply (ho_sessions w Hok)]. rewrite Hr in Hs. injection Hs as <-. done.
  - split; [|intros sid n Hn; exists n; split; [lia|exact Hn]|intros i d Hd; by exists d].
    intros i v Hv. exists v. split; [exact Hv|apply same_content_refl].
  - apply (HQ w _ r); try done. cbn. apply lookup_insert_eq.
Qed.

Lemma keeps_apply_confirmation sid did st draft v :
  keeps (may_confirm sid did (st, draft, v)) (apply_confirmation st draft v)
    (λ r w, stored_draft sid did r.1 w ∧ dr_status r.1 = draft_confirmed ∧ dr_base_version r.1 = dr_base_version draft
            ∧ confirmed_is sid r.2 w ∧ dr_base_version r.1 < tv_version_number r.2
            ∧ tv_trip_plan r.2 = dr_trip_plan r.1 ∧ shows sid r.2 w).
Proof.
  assert (Hstable : stable (may_confirm sid did (st, draft, v))) by (intros ? ? _ Hw; exact Hw).
  unfold apply_confirmation. eapply bind_keeps; [by apply keeps_now|]. intros confirmed_at. cbn beta.
  set (v' := confirmed_version confirmed_at v).
  set (P := λ w, st_session_id st = sid ∧ stored_draft sid did draft w ∧ confirmed_is sid v' w
            ∧ dr_base_version draft < tv_version_number v' ∧ tv_trip_plan v' = dr_trip_plan draft
            ∧ dr_candidate_version_id draft = Some (tv_version_id v')).
  assert (HP : stable P) by (intros ? ? _ Hw; exact Hw).
  apply (bind_keeps _ _ _ (λ u w, u = v' ∧ P w)).
  { apply keeps_write; [done|]. intros w u db Hok (Hst & Hd & _ & Hcand & Hbase & Hv & Hsid & Hlt & Hplan) Hf.
    unfold on_versions in Hf. rewrite law_confirm in Hf; [|apply Hok|exact Hv]. cbn in Hf. injection Hf as <- <-.
    destruct (confirm_ok confirmed_at v w Hok Hv) as (Hok' & Hg & Hnum).
    { intros n Hn. rewrite Hsid in Hn. rewrite (confirmed_unique w sid n (dr_base_version draft) Hok Hn Hbase). lia. }
    split; [exact Hok'|]. split; [exact Hg|]. split; [done|]. split; [done|]. split; [exact Hd|].
    split; [|done]. split; [|done]. change (mkDraftWorld _ _) with (confirm confirmed_at v w).
    rewrite (history_confirm confirmed_at v w Hok). apply lookup_insert_eq. }
  intros u. apply keeps_pure_eq. intros ->.
  eapply bind_keeps; [apply keeps_lift|]. intros s. cbn beta.
  eapply bind_keeps; [apply keeps_now; stays|]. intros now. cbv zeta.
  eapply bind_keeps; [apply keeps_now; stays|]. intros saved_at. cbn beta.
  set (s' := on_life _ s).
  apply (bind_keeps _ _ _ (λ _ w, P w ∧ shows sid v' w)).
  { apply keeps_save; [stays|]. intros w w' r Hok [HPw Hs] Hh Hdr Hrow Hr.
    apply state_of_version_shows in Hs as (Hsid & Hp & Hval & Hacc). destruct HPw as (Hst & Hd & Hc & Hrest).
    split.
    - split; [done|]. split; [unfold stored_draft; by rewrite Hdr|]. split; [unfold confirmed_is; by rewrite Hh|done].
    - exists r, (touch saved_at s'). change (st_session_id s') with (st_session_id s) in Hrow. rewrite Hsid, Hst in Hrow.
      done. }
  intros ?. eapply bind_keeps; [apply keeps_now; stays|]. intros now'. cbv zeta. cbn beta.
  set (d' := mkDraft _ _ _ _ _ _ _ _ _).
  apply (bind_keeps _ _ _ (λ _ w, stored_draft sid did d' w ∧ confirmed_is sid v' w ∧ shows sid v' w
                                  ∧ dr_base_version draft < tv_version_number v' ∧ tv_trip_plan v' = dr_trip_plan draft)).
  { apply keeps_store_draft; [stays|]. intros w Hok ((Hst & Hd & Hc & Hlt & Hplan & Hcand) & Hshow).
    destruct (stored_puttable sid did draft d' w) as [Hput Hst']; [done..| |done].
    intros c Hcc. change (truthy (dr_candidate_version_id draft) = Some c) in Hcc. rewrite Hcand in Hcc. cbn in Hcc.
    destruct (String.eqb _ ""); [done|]. injection Hcc as <-. destruct Hc as (Hv & Hs & _).
    exists v'. split; [exact Hv|]. split; [rewrite Hs; symmetry; apply Hd|]. done. }
  intros ?. apply ret_keeps. intros w (Hd & Hc & Hshow & Hlt & Hplan). done.
Qed.

Lemma keeps_confirm sid did :
  keeps (λ _, True) (confirm_draft sid did)
    (λ r w, stored_draft sid did r.1 w ∧ dr_status r.1 = draft_confirmed
            ∧ confirmed_is sid r.2 w ∧ dr_base_version r.1 < tv_version_number r.2
            ∧ tv_trip_plan r.2 = dr_trip_plan r.1 ∧ shows sid r.2 w).
Proof.
  unfold confirm_draft. eapply bind_keeps; [apply keeps_confirmable|]. intros [[st draft] v].
  eapply keeps_weaken; [apply keeps_apply_confirmation|done|]. intros [d u] w _ (? & ? & _ & ?). done.
Qed.
End Service.

(** Sequences of calls of the draft service over either backend, where the
    routes of an edited plan come from, and what a confirmation checks and
    leaves. *)

(** ** Calls *)

(** [storage_backend] of the settings selects both stores. *)
Inductive Backend := sqlite_backend | mysql_backend.

Definition versions_on (b : Backend) : VersionStore :=
  match b with sqlite_backend => SqliteVersions.store | mysql_backend => MysqlVersions.store end.
Definition sessions_on (b : Backend) : StateStore :=
  match b with sqlite_backend => SqliteSessions.store | mysql_backend => MysqlSessions.store end.

#[export] Instance versions_on_laws b : @VersionStoreLaws (versions_on b).
Proof. destruct b; [exact sqlite_version_laws|exact mysql_version_laws]. Qed.
#[export] Instance sessions_on_laws b : @StateStoreLaws (sessions_on b).
Proof. destruct b; [exact sqlite_session_laws|exact mysql_session_laws]. Qed.

(** What the handlers call, and the save of a session by its run. *)
Inductive DraftCall :=
  | CreateDraft (sid : string) (payload : TripDraftCreate)
  | UpdateDraft (sid did : string) (plan : TripPlan)
  | EvaluateDraft (sid did : string)
  | ConfirmDraft (sid did : string)
  | SaveSession (s : AgentState).

Section Calls.
Context `{DraftEnv} `{HashEnv} `{PydanticModels} `{PlanningServices}.

Definition perform (b : Backend) (c : DraftCall) : Svc unit :=
  let _ := versions_on b in
  let _ := sessions_on b in
  match c with
  | CreateDraft sid payload => _ ← create_draft sid payload; mret tt
  | UpdateDraft sid did plan => _ ← update_draft sid did plan; mret tt
  | EvaluateDraft sid did => _ ← evaluate_draft sid did; mret tt
  | ConfirmDraft sid did => _ ← confirm_draft sid did; mret tt
  | SaveSession s => now ← utc_now; write_store (fun db => db ← update_state now s db; mret (tt, db))
  end.

Definition confirm_on (b : Backend) (sid did : string) : Svc (TripDraft * TripPlanVersion) :=
  let _ := versions_on b in
  let _ := sessions_on b in
  confirm_draft sid did.

(** A call that raises leaves behind what it wrote. *)
Definition run_calls (b : Backend) (cs : list DraftCall) (w : DraftWorld) : DraftWorld :=
  foldl (fun w c => (perform b c w).2) w cs.

Context (uuid_inj : ∀ i j, de_uuid i = de_uuid j → i = j).

Lemma keeps_discard {A} P (m : Svc A) Q : keeps P m Q → keeps P (_ ← m; mret tt) (λ _ _, True).
Proof. intros Hm. eapply bind_keeps; [exact Hm|]. intros ?. by apply ret_keeps. Qed.

Lemma keeps_perform b c : keeps (λ _, True) (perform b c) (λ _ _, True).
Proof using uuid_inj.
  destruct c; cbn [perform].
  - eapply keeps_discard, keeps_create; try done; apply _.
  - eapply keeps_discard, keeps_update; try done; apply _.
  - eapply keeps_discard, keeps_evaluate; try done; apply _.
  - eapply keeps_discard, keeps_confirm; try done; apply _.
  - eapply bind_keeps; [apply keeps_now, stable_true|]. intros now. by apply keeps_save; [apply stable_true|].
Qed.

Lemma run_calls_ok b cs w : history_ok w → history_ok (run_calls b cs w) ∧ grows w (run_calls b cs w).
Proof using uuid_inj.
  revert w. induction cs as [|c cs IH]; intros w Hok; [split; [done|reflexivity]|].
  destruct (keeps_perform b c w Hok I) as (Hok1 & Hg1 & _). destruct (IH _ Hok1) as [Hok2 Hg2].
  split; [exact Hok2|]. by etransitivity.
Qed.
End Calls.

(** ** Differences *)

Lemma day_pairs_equal old new : Forall (λ p, p.1 = p.2) (day_pairs old new) ↔ old = new.
Proof.
  revert new. induction old as [|o old IH]; intros [|n new]; cbn; [by split| | |].
  - split; [|done]. by intros [[=] _]%Forall_cons.
  - split; [|done]. by intros [[=] _]%Forall_cons.
  - rewrite Forall_cons, IH. cbn. split; [by intros [[= ->] ->]|by intros [= -> ->]].
Qed.

Lemma sorted_set_nil l : sorted_set l = [] ↔ l = [].
Proof.
  unfold sorted_set. split; [|by intros ->]. intros E.
  assert (Hd : remove_dups l = []).
  { apply Permutation_nil. rewrite <- E. apply py_sorted_perm. }
  destruct l as [|x l]; [done|]. exfalso. apply (not_elem_of_nil x). rewrite <- Hd. apply elem_of_remove_dups. by left.
Qed.

Lemma diff_nothing before after :
  df_changed_fields (diff_plans before after) = [] ∧ df_changed_days (diff_plans before after) = [] ↔ before = after.
Proof.
  cbn [diff_plans df_changed_fields df_changed_days]. rewrite sorted_set_nil.
  assert (Hdays : map pair_index (filter (λ p, negb (bool_decide (p.1 = p.2)) = true)
                    (day_pairs (plan_days before) (plan_days after))) = []
                  ↔ plan_days before = plan_days after).
  { rewrite <- day_pairs_equal. rewrite Forall_forall. split.
    - intros E%map_eq_nil p Hp. destruct (decide (p.1 = p.2)) as [|Hne]; [done|]. exfalso.
      apply (not_elem_of_nil p). rewrite <- E. apply list_elem_of_filter. by rewrite bool_decide_false.
    - intros Hall. destruct (filter _ _) as [|p l] eqn:E; [done|]. exfalso.
      assert (Hp : p ∈ filter (λ p, negb (bool_decide (p.1 = p.2)) = true) (day_pairs (plan_days before) (plan_days after)))
        by (rewrite E; by left).
      apply list_elem_of_filter in Hp as [Hn Hp]. by rewrite bool_decide_true in Hn by by apply Hall. }
  rewrite Hdays. unfold changed_fields. split.
  - intros [Hf Hd]. destruct before, after. cbn in *.
    repeat match goal with H : app _ _ = [] |- _ => apply app_eq_nil in H as [? ?] end.
    repeat match goal with H : (if bool_decide (?a = ?b) then _ else _) = [] |- _ => destruct (bool_decide_reflect (a = b)); [|done] end.
    cbn in *. congruence.
  - intros ->. by rewrite !bool_decide_true.
Qed.

(** ** Routes of an edited plan *)

Lemma last_of_Some {K V} `{EqDecision K} (key : K) (l : list (K * V)) v : last_of key l = Some v → (key, v) ∈ l.
Proof.
  unfold last_of. intros [[k x] [Hf ->]]%fmap_Some. apply find_some in Hf as [Hin Hk].
  apply bool_decide_eq_true in Hk. cbn in Hk. subst k. by apply in_rev, list_elem_of_In in Hin.
Qed.

Lemma last_of_None {K V} `{EqDecision K} (key : K) (l : list (K * V)) v : last_of key l = None → (key, v) ∉ l.
Proof.
  unfold last_of. rewrite fmap_None. intros Hf Hin. apply list_elem_of_In, in_rev in Hin.
  pose proof (find_none _ _ Hf _ Hin) as Hk. cbn in Hk. by apply bool_decide_eq_false in Hk.
Qed.

(** An old route that the leg can keep: the route of an old leg between the
    same places, by the same mode, at the same position. *)
Definition keepable (old : list RouteLegRequest) (routes : list RouteEstimate) (leg : RouteLegRequest)
    (r : RouteEstimate) : Prop :=
  ∃ o, o ∈ old ∧ leg_signature o = leg_signature leg ∧ r ∈ routes ∧ route_key r = draft_leg_key leg.

Lemma signature_key o leg : leg_signature o = leg_signature leg → draft_leg_key o = draft_leg_key leg.
Proof. unfold leg_signature. congruence. Qed.

Lemma reuse_leg_sound old routes leg r :
  reuse_leg (reusable_by_signature old routes) leg = Some r → keepable old routes leg r.
Proof.
  intros Hr%last_of_Some. unfold reusable_by_signature in Hr.
  apply list_elem_of_omap in Hr as (o & Ho & Hr). destruct (last_of (draft_leg_key o) _) as [r'|] eqn:E; [|done].
  cbn in Hr. apply (inj Some) in Hr. assert (Hsig := f_equal fst Hr). assert (r' = r) as -> by apply (f_equal snd Hr).
  cbn in Hsig. apply last_of_Some, list_elem_of_fmap in E as (x & Hx & Hin).
  assert (x = r) as -> by exact (f_equal snd (eq_sym Hx)). exists o. do 2 (split; [done|]). split; [done|].
  rewrite <- (signature_key _ _ Hsig). exact (f_equal fst (eq_sym Hx)).
Qed.

Lemma reuse_leg_complete old routes leg r :
  reuse_leg (reusable_by_signature old routes) leg = None → ¬ keepable old routes leg r.
Proof.
  intros Hn (o & Ho & Hsig & Hr & Hk).
  destruct (last_of (draft_leg_key o) (routes_by_key routes)) as [x|] eqn:E.
  - apply (last_of_None _ _ x Hn). unfold reusable_by_signature. apply list_elem_of_omap.
    exists o. split; [done|]. rewrite E. cbn. by rewrite Hsig.
  - apply (last_of_None _ _ r E). apply list_elem_of_fmap. exists r. split; [|done].
    f_equal. rewrite Hk. by apply signature_key.
Qed.

Lemma reused_elem reusable legs k r :
  (k, r) ∈ reused_routes reusable legs ↔ ∃ leg, leg ∈ legs ∧ draft_leg_key leg = k ∧ reuse_leg reusable leg = Some r.
Proof.
  unfold reused_routes. rewrite list_elem_of_omap. split.
  - intros (leg & Hin & E). destruct (reuse_leg reusable leg) as [x|] eqn:Hx; [|done]. cbn in E. injection E as <- ->.
    by exists leg.
  - intros (leg & Hin & <- & E). exists leg. split; [done|]. by rewrite E.
Qed.

Lemma NoDup_fmap_inj {A B} (f : A → B) (l : list A) x y : NoDup (map f l) → x ∈ l → y ∈ l → f x = f y → x = y.
Proof.
  induction l as [|z l IH]; cbn; [by intros _ ?%not_elem_of_nil|].
  intros [Hz Hl]%NoDup_cons [->|Hx]%elem_of_cons [->|Hy]%elem_of_cons E; [done| | |by apply IH].
  - destruct Hz. rewrite E. by apply list_elem_of_fmap_2.
  - destruct Hz. rewrite <- E. by apply list_elem_of_fmap_2.
Qed.

(** With one leg per key, the dictionary of the reused routes is the reuse of each leg. *)
Lemma reused_lookup reusable legs leg :
  NoDup (map draft_leg_key legs) → leg ∈ legs →
  last_of (draft_leg_key leg) (reused_routes reusable legs) = reuse_leg reusable leg.
Proof.
  intros Hnd Hin. destruct (last_of _ _) as [r|] eqn:E.
  - apply last_of_Some, reused_elem in E as (leg' & Hin' & Hk & Hr).
    assert (leg' = leg) as <- by by eapply NoDup_fmap_inj. done.
  - destruct (reuse_leg reusable leg) as [r|] eqn:Hr; [|done].
    destruct (last_of_None _ _ r E). apply reused_elem. by exists leg.
Qed.

Lemma reused_keys reusable legs :
  NoDup (map draft_leg_key legs) →
  Z.of_nat (length (remove_dups (map fst (reused_routes reusable legs)))) + Z.of_nat (length (affected_legs reusable legs))
  = Z.of_nat (length legs).
Proof.
  assert (Hsub : map fst (reused_routes reusable legs)
                 = map draft_leg_key (filter (fun leg => is_Some (reuse_leg reusable leg)) legs)).
  { unfold reused_routes. induction legs as [|leg legs IH]; [done|]. cbn [omap list_omap]. rewrite filter_cons.
    destruct (reuse_leg reusable leg) as [r|]; cbn.
    - rewrite decide_True by eauto. cbn. by f_equal.
    - rewrite decide_False by by intros [? ?]. done. }
  assert (Hlen : (length (filter (fun leg => is_Some (reuse_leg reusable leg)) legs)
                  + length (affected_legs reusable legs) = length legs)%nat).
  { unfold affected_legs. clear Hsub. induction legs as [|leg legs IH]; [done|]. rewrite !filter_cons.
    destruct (reuse_leg reusable leg) as [r|].
    - rewrite decide_True, decide_False by (done || eauto). cbn. lia.
    - rewrite decide_False, decide_True by (done || by intros [? ?]). cbn. lia. }
  intros Hnd. rewrite Hsub. set (kept := filter _ legs) in *.
  assert (Hk : NoDup (map draft_leg_key kept)).
  { apply NoDup_fmap_2_strong.
    - intros x y [_ Hx]%list_elem_of_filter [_ Hy]%list_elem_of_filter. by apply (NoDup_fmap_inj _ legs).
    - apply NoDup_filter. by apply NoDup_fmap_1 in Hnd. }
  clearbody kept. assert (E : length (remove_dups (map draft_leg_key kept)) = length kept).
  { rewrite <- (length_fmap draft_leg_key kept). apply Permutation_length, NoDup_Permutation;
      [apply NoDup_remove_dups|done|]. intros k. by rewrite elem_of_remove_dups. }
  lia.
Qed.

Section Routes.
Context `{DraftEnv} `{HashEnv} `{PydanticModels} `{PlanningServices}.

Lemma route_of_leg_cases reusable queried legs leg :
  NoDup (map draft_leg_key legs) → leg ∈ legs →
  route_of_leg (reused_routes reusable legs) queried leg
  = match reuse_leg reusable leg with Some r => Some r | None => last_of (draft_leg_key leg) queried end.
Proof. intros Hnd Hin. unfold route_of_leg. by rewrite reused_lookup. Qed.

(** The legs without a route that can be kept are sent, and only they. *)
Definition route_request (st : AgentState) (plan : TripPlan) (affected : list RouteLegRequest) : json :=
  JObj [("city", JStr (req_city (st_request st))); ("plan_fingerprint", JStr (route_fingerprint (st_request st) plan));
        ("legs", JArr (map dump_leg_request affected))].

(** The answer of the tool to the [n]-th question. *)
Definition answered (st : AgentState) (plan : TripPlan) (affected : list RouteLegRequest) (n : nat)
    (a : RouteEstimateResult) : Prop :=
  ar_success (de_estimate_routes n (route_request st plan affected)) = true
  ∧ pm_routes (default JNull (ar_data (de_estimate_routes n (route_request st plan affected)))) = Ok a.

Lemma affected_elem old routes legs leg :
  leg ∈ affected_legs (reusable_by_signature old routes) legs ↔ leg ∈ legs ∧ ∀ x, ¬ keepable old routes leg x.
Proof.
  unfold affected_legs. rewrite list_elem_of_filter. split.
  - intros [Hn Hin]. split; [done|]. intros x. by apply reuse_leg_complete.
  - intros [Hin Hno]. split; [|done]. destruct (reuse_leg _ leg) as [x|] eqn:E; [|done].
    by destruct (Hno x (reuse_leg_sound _ _ _ _ E)).
Qed.

(** Where the route of a leg comes from. *)
Definition routed (old : list RouteLegRequest) (routes queried : list RouteEstimate) (leg : RouteLegRequest)
    (x : RouteEstimate) : Prop :=
  keepable old routes leg x
  ∨ (∀ y, ¬ keepable old routes leg y)
    ∧ (x ∈ queried ∧ route_key x = draft_leg_key leg
       ∨ (∀ y, y ∈ queried → route_key y ≠ draft_leg_key leg) ∧ x = missing_route leg).

Lemma ordered_routes_routed old routes queried legs :
  NoDup (map draft_leg_key legs) →
  Forall2 (routed old routes queried) legs
    (ordered_routes (reused_routes (reusable_by_signature old routes) legs) (routes_by_key queried) legs).
Proof.
  intros Hnd. unfold ordered_routes. apply Forall2_fmap_r, Forall_Forall2_diag, Forall_forall. intros leg Hin.
  unfold compose. rewrite route_of_leg_cases by done. destruct (reuse_leg _ leg) as [x|] eqn:E.
  { left. by apply reuse_leg_sound. }
  right. split; [intros y; by apply reuse_leg_complete|].
  destruct (last_of _ _) as [x|] eqn:Eq.
  - left. apply last_of_Some, list_elem_of_fmap in Eq as (y & Hy & Hin').
    assert (y = x) as -> by exact (f_equal snd (eq_sym Hy)). split; [done|]. exact (f_equal fst (eq_sym Hy)).
  - right. split; [|done]. intros y Hy Hk. apply (last_of_None _ _ y Eq), list_elem_of_fmap. exists y. by rewrite Hk.
Qed.

End Routes.

(** ** Confirmation *)

Lemma quiet_read `{DraftEnv} {A} (f : AppDb → result exn A) : quiet (read_store f).
Proof.
  unfold read_store. apply quiet_bind; [apply quiet_ask|]. intros [e|]; [apply quiet_raise|].
  intros w. exists (wo_tick w). by destruct w.
Qed.

Section Confirmation.
Context `{DraftEnv} `{!VersionStore} `{!VersionStoreLaws} `{!StateStore} `{!StateStoreLaws}.
Context `{HashEnv} `{PydanticModels}.

Lemma quiet_confirmable sid did : quiet (confirmable sid did).
Proof.
  unfold confirmable, load_state, load_draft, load_confirmed.
  apply quiet_bind; [apply quiet_read|]. intros st. apply quiet_bind; [apply quiet_read|]. intros d.
  apply quiet_bind; [apply quiet_read|]. intros [c|]; [|apply quiet_raise].
  destruct (negb _); [apply quiet_raise|]. destruct (bool_decide _); [|apply quiet_raise].
  destruct (truthy _); [|apply quiet_raise]. apply quiet_bind; [apply quiet_read|]. intros v. apply quiet_ret.
Qed.

(** What a successful confirmation found and what it leaves. *)
Lemma confirm_effect sid did w d v w' :
  history_ok w → confirm_draft sid did w = (Ok (d, v), w') →
  history_ok w' ∧ grows w w' ∧ confirmed_number sid (dr_base_version d) w
  ∧ stored_draft sid did d w' ∧ dr_status d = draft_confirmed ∧ confirmed_is sid v w'
  ∧ dr_base_version d < tv_version_number v ∧ tv_trip_plan v = dr_trip_plan d ∧ shows sid v w'.
Proof.
  intros Hok Hrun. unfold confirm_draft in Hrun. unfold mbind, svc_bind in Hrun.
  pose proof (quiet_confirmable sid did w) as Hquiet.
  pose proof (keeps_confirmable sid did w Hok I) as (Hok1 & Hg1 & Hmay).
  destruct (confirmable sid did w) as [[[[st draft] u]|e] w1]; cbn [fst snd] in *; [|done].
  specialize (Hmay _ eq_refl). destruct Hquiet as (n & Hn & ->).
  assert (Hbase : confirmed_number sid (dr_base_version draft) w) by apply Hmay.
  pose proof (keeps_apply_confirmation sid did st draft u _ Hok1 Hmay) as (Hok2 & Hg2 & Hpost).
  rewrite Hrun in Hok2, Hg2, Hpost. cbn [fst snd] in *.
  destruct (Hpost _ eq_refl) as (Hd & Hstatus & Hb & Hc & Hlt & Hplan & Hshow). cbn [fst snd] in *.
  split; [done|]. split; [by etransitivity|]. rewrite Hb. split; [done|]. rewrite <- Hb. done.
Qed.
End Confirmation.
