(* ===== verification/TripDraftClaims.v ===== *)
(** What the draft service promises, over either backend and for any
    sequence of calls: versions are never rewritten, confirmation is a
    compare-and-swap on the number of the confirmed version, and only the
    changed legs are asked for again.

    The calls of a sequence follow one another; the last part shows what
    failures in the middle of a call and calls that interleave can do. *)

From S2P Require Import Prelude PyData TripSchema AmapModels PlanReports TaskTables OrderedDict ToolModels PlanRoutes AgentState Acceptance Convergence AgentDecision AgentAnalysis AgentDemo TripVersions TripHistory SessionStore TripDrafts TripDraftProofs.
From Stdlib Require Import ZArith QArith Lia String.
From stdpp Require Import base tactics option list gmap strings.

Open Scope string_scope.
Open Scope Z_scope.

(** ** The claims *)

Section Claims.
Context `{DraftEnv} `{HashEnv} `{PydanticModels} `{PlanningServices}.



End Claims.

(** ** A closed world *)

(** Identifiers: [n] marks. *)
Fixpoint tally (n : nat) : string := match n with O => "u" | S n => "u" ++ tally n end.

Lemma tally_inj i j : tally i = tally j → i = j.
Proof.
  revert j. induction i as [|i IH]; intros [|j]; [done|..].
  - cbn. destruct j; done.
  - cbn. destruct i; done.
  - intros [= E]. f_equal. by apply IH.
Qed.

(** [fault]: what the store access of a question raises. *)
Definition draft_env (fault : nat → option exn) (answers : bool) : DraftEnv :=
  {| de_uuid := tally; de_utc := fun n => Z.of_nat n * 1000;
     de_estimate_routes := fun _ j =>
       if answers then demo_answer "estimate_routes" j
       else mkActionResult "estimate_routes" false None (Some "timeout") (Some TIMEOUT) true 0 0 None None None;
     de_fault := fault |}.

Definition good_env : DraftEnv := draft_env (fun _ => None) true.

(** One session, delivered, without versions. *)
Definition draft_world : DraftWorld :=
  mkDraftWorld (mkAppDb {["s1" := row_of_state None settled_state]} (mkDb ∅ [] 0) (mkVersionDb ∅ ∅) ∅) 0.

Lemma draft_world_ok (E : DraftEnv) : history_ok draft_world.
Proof.
  split; try done.
  - by intros i [[? ?]|[? ?]].
  - intros sid r s. cbn. intros [<- <-]%lookup_singleton_Some [= <-]. done.
Qed.

(** [sample_plan] with a hotel and a second sight. *)
Definition edit_trip (base : option Z) (plan : TripPlan) : DraftCall := CreateDraft "s1" (mkDraftCreate base plan).

Notation demo_calls env b cs w := (@run_calls env demo_hash demo_models (demo_services []) b cs w).
Notation demo_confirm env b did w := (@confirm_on env demo_hash demo_models b "s1" did w).

(** The versions and drafts with their statuses. *)
Definition version_table (w : DraftWorld) : list (string * Z * VersionStatus) :=
  map (fun kv => (kv.1, tv_version_number kv.2, tv_status kv.2)) (map_to_list (history w)).
Definition draft_table (w : DraftWorld) : list (string * Z * DraftStatus) :=
  map (fun kv => (kv.1, dr_base_version kv.2, dr_status kv.2)) (map_to_list (drafts w)).

(** The first edit creates the original version and a draft over it. *)
Definition first_draft : string := tally 7.
Definition edited_world (b : Backend) : DraftWorld := demo_calls good_env b [edit_trip None sample_trip] draft_world.
Definition evaluated_world (b : Backend) : DraftWorld :=
  demo_calls good_env b [EvaluateDraft "s1" first_draft] (edited_world b).

Example edits_and_evaluates b :
  version_table (evaluated_world b) = [(tally 17, 2, version_candidate); (tally 3, 1, version_confirmed)]
  ∧ draft_table (evaluated_world b) = [(first_draft, 1, draft_evaluated)].
Proof. destruct b; vm_compute; split; reflexivity. Qed.

Definition confirmed_world (b : Backend) : DraftWorld :=
  demo_calls good_env b [EvaluateDraft "s1" first_draft; ConfirmDraft "s1" first_draft] (edited_world b).



(** Another second sight: the departure from the hotel is kept, the other two
    legs are asked for. *)
Definition moved_trip : TripPlan :=
  let sight (n id : string) := mkAttraction n "a" (mkLocation 116 39) 60 "d" None None None (Some id) None 0 in
  mkTripPlan "北京" "2025-06-01" "2025-06-01"
    [mkDayPlan "2025-06-01" 0 "" "地铁" "" (Some (mkHotel "如家" "" (Some (mkLocation 116 40)) "" "" "" "" 300))
       [sight "故宫" "B1"; sight "景山" "B3"] []] [] "" None.

(** The route of the departure as the provider answered it. *)
Definition departure_route : RouteEstimate :=
  mkRouteEstimate 0 0 hotel_departure "2025-06-01" "如家" "故宫" transit true (Some 9000) (Some 1800) None None false.

Definition trip_version (routes : list RouteEstimate) : TripPlanVersion :=
  let e := mkVersionEvaluation (mkRouteResult "h" 3 3 0 0 [] routes)
             (mkRouteQuality "h" 0 0 0 0 0 0 0 0 100 false []) (mkScheduleQuality "h" 1 0 0 0 30 0 95 false [])
             (mkCommuteReport "h" 0 0 0 0 false [] []) (mkConstraintReport "h" 0 0 0 0 100 true false [] [])
             (from_issues [] 7) (Acceptance.evaluate settled_state (from_issues [] 7)) in
  mkVersion "v1" "s1" 1 version_confirmed source_original None sample_trip e 0 (Some 0).

Definition moved_routes (routes : list RouteEstimate) : result exn (RouteEstimateResult * TripPlanDiff) * DraftWorld :=
  @incremental_routes good_env demo_hash demo_models settled_state (trip_version routes) moved_trip
    (diff_plans sample_trip moved_trip) draft_world.


(** ** Failures in the middle and calls that interleave *)

Definition outcome {A} (r : result exn A * DraftWorld) : option exn := match r.1 with Err e => Some e | Ok _ => None end.
Definition fault_at (k : nat) : DraftEnv :=
  draft_env (fun n => if Nat.eqb n k then Some (StoreUnavailable "connection lost") else None) true.

Notation stale := (DraftConflictError "草稿基线已过期，请重新创建草稿") (only parsing).

(** The store fails between the confirmation of the version and the save of
    the session: version 2 is confirmed, the session still has the old plan,
    the draft is not confirmed and can no longer be. *)
Theorem interrupted_confirmation_stays b :
  let '(r, w) := demo_confirm (fault_at 31) b first_draft (evaluated_world b) in
  r = Err (StoreUnavailable "connection lost")
  ∧ version_table w = [(tally 17, 2, version_confirmed); (tally 3, 1, version_superseded)]
  ∧ draft_table w = [(first_draft, 1, draft_evaluated)]
  ∧ ad_sessions (wo_db w) = ad_sessions (wo_db draft_world)
  ∧ outcome (demo_confirm good_env b first_draft w) = Some stale.
Proof. destruct b; vm_compute; repeat split. Qed.

(** A second evaluation withdraws the candidate of the first before it asks
    for routes; when that fails the draft still counts as evaluated, and its
    confirmation brings the withdrawn version back. *)
Theorem withdrawn_candidate_confirmed b :
  let w := demo_calls (draft_env (fun _ => None) false) b [EvaluateDraft "s1" first_draft] (evaluated_world b) in
  version_table w = [(tally 17, 2, version_superseded); (tally 3, 1, version_confirmed)]
  ∧ draft_table w = [(first_draft, 1, draft_evaluated)]
  ∧ version_table (demo_calls good_env b [ConfirmDraft "s1" first_draft] w)
    = [(tally 17, 2, version_confirmed); (tally 3, 1, version_superseded)].
Proof. destruct b; vm_compute; repeat split. Qed.

(** Two drafts over version 1, both evaluated. *)
Definition second_draft : string := tally 25.
Definition contended_world (b : Backend) : DraftWorld :=
  demo_calls good_env b [edit_trip None moved_trip; EvaluateDraft "s1" second_draft] (evaluated_world b).

(** Two confirmations that both check before either writes. *)
Definition race (b : Backend) (first second : string) : Svc (Z * Z) :=
  let _ := good_env in let _ := demo_hash in let _ := demo_models in
  let _ := versions_on b in let _ := sessions_on b in
  '(st1, d1, v1) ← confirmable "s1" first;
  '(st2, d2, v2) ← confirmable "s1" second;
  r1 ← apply_confirmation st1 d1 v1;
  r2 ← apply_confirmation st2 d2 v2;
  mret (tv_version_number r1.2, tv_version_number r2.2).

(** Nothing orders the checks of one confirmation and the writes of another:
    both succeed though both drafts are based on version 1, and the confirmed
    version goes back from 3 to 2. *)
Theorem racing_confirmations b :
  let '(r, w) := race b (second_draft) first_draft (contended_world b) in
  r = Ok (3, 2)
  ∧ draft_table w = [(second_draft, 1, draft_confirmed); (first_draft, 1, draft_confirmed)]
  ∧ version_table w
    = [(tally 35, 3, version_superseded); (tally 17, 2, version_confirmed); (tally 3, 1, version_superseded)].
Proof. destruct b; vm_compute; repeat split. Qed.

(** An old route that the provider did not give is kept as well: the leg is
    not asked for again, and the failed legs do not count it. *)
Theorem missing_route_is_kept :
  let missing := mkRouteEstimate 0 0 hotel_departure "2025-06-01" "如家" "故宫" transit false None None
                   (Some "ROUTE_RESULT_MISSING") (Some "路线供应商未返回该分段") false in
  match (moved_routes [missing]).1 with
  | Ok (r, diff) =>
      map re_available (rr_routes r) = [false; false; false] ∧ rr_failed_legs r = 2
      ∧ df_reused_route_legs diff = 1
  | Err _ => False
  end.
Proof. vm_compute. repeat split. Qed.

(** A number that another version of the session has: SQLite refuses the new
    version, MySQL writes it over the row of the other one, which is lost. *)
Theorem taken_number_overwrites v db i r :
  columns_ok db → versions_of db !! tv_version_id v = None →
  number_owner (tv_version_id v) (tv_session_id v) (tv_version_number v) db = Some (i, r) →
  SqliteVersions.save_version v db = Err IntegrityError
  ∧ i ≠ tv_version_id v ∧ versions_of db !! i = Some (vw_version_json r)
  ∧ ∃ db', MysqlVersions.save_version v db = Ok db'
      ∧ versions_of db' !! i = Some v ∧ versions_of db' !! tv_version_id v = None.
Proof.
  intros Hc Hnew Hown.
  assert (Hrow : vd_versions db !! tv_version_id v = None).
  { unfold versions_of in Hnew. rewrite lookup_fmap in Hnew. by apply fmap_None in Hnew. }
  assert (Hi : i ≠ tv_version_id v ∧ vd_versions db !! i = Some r).
  { unfold number_owner in Hown. apply find_some in Hown as [Hin Hk]. cbn in Hk.
    apply andb_prop in Hk as [Hk _]. destruct (String.eqb_spec i (tv_version_id v)) as [|Hne]; [done|].
    split; [done|]. apply list_elem_of_In in Hin. unfold session_rows in Hin.
    apply list_elem_of_filter in Hin as [_ Hin]. by apply elem_of_map_to_list in Hin. }
  destruct Hi as [Hne Hr]. unfold SqliteVersions.save_version, MysqlVersions.save_version. rewrite Hrow, Hown.
  split; [done|]. split; [done|]. split; [unfold versions_of; by rewrite lookup_fmap, Hr|].
  eexists. split; [done|]. unfold versions_of, set_version_row. cbn [vd_versions].
  split; [by rewrite lookup_fmap, lookup_insert_eq|]. by rewrite lookup_fmap, lookup_insert_ne, Hrow.
Qed.
