(* ===== verification/Analytics.v ===== *)
(** Reports over stored sessions: the execution baseline
    (src/app/memory/execution_analytics.py), the quality baseline
    (src/app/memory/quality_analytics.py), the acceptance of the fixed
    scenarios (src/app/evaluation/fixed_baseline.py) and how both stores sample
    the states they are built from. *)

From S2P Require Import Prelude FloatMath PyData Calendar TripSchema AmapModels PlanReports TaskModels TaskTables OrderedDict ToolModels AgentState Acceptance Convergence TripVersions SessionStore.
From Stdlib Require Import ZArith QArith Lia Lqa String Sorted.
From stdpp Require Import base tactics option list gmap strings sorting.

Open Scope string_scope.
Open Scope Z_scope.

(** ** Dictionaries that create what they miss *)

(** [f] applied to [d[k]] of a [defaultdict]: keys keep the order of their creation. *)
Fixpoint dd_update {K V} `{EqDecision K} (fresh : V) (k : K) (f : V → V) (d : list (K * V)) : list (K * V) :=
  match d with
  | [] => [(k, f fresh)]
  | (k', v) :: d => if decide (k' = k) then (k', f v) :: d else (k', v) :: dd_update fresh k f d
  end.

Definition dd_get {K V} `{EqDecision K} (k : K) (d : list (K * V)) : option V :=
  snd <$> find (fun kv => bool_decide (kv.1 = k)) d.

(** [Counter] *)
Definition count_into {K} `{EqDecision K} (d : list (K * Z)) (l : list K) : list (K * Z) :=
  foldl (fun d k => dd_update 0 k (Z.add 1) d) d l.

Definition group_into {K A} `{EqDecision K} (key : A → K) (d : list (K * list A)) (l : list A) : list (K * list A) :=
  foldl (fun d a => dd_update [] (key a) (fun g => g ++ [a])%list d) d l.

(** Larger counts first, then the order of [rest]. *)
Definition larger_first {A} (count : A → Z) (rest : A → A → bool) (x y : A) : bool :=
  (count y <? count x) || ((count x =? count y) && rest x y).

(** Tuples of strings. *)
Fixpoint strings_leb (l k : list string) : bool :=
  match l, k with
  | [], _ => true
  | _ :: _, [] => false
  | x :: l, y :: k => if String.eqb x y then strings_leb l k else String.leb x y
  end.

Definition count_of {A} (p : A → bool) (l : list A) : Z := Z.of_nat (length (filter (fun a => p a = true) l)).

Definition safe_rate (numerator denominator : Z) : Q :=
  if denominator <=? 0 then 0%Q else round_n 4 (inject_Z numerator / inject_Z denominator).

Definition safe_average (total : Q) (count : Z) : Q :=
  if count <=? 0 then 0%Q else round_n 2 (total / inject_Z count).

Definition status_text (s : AgentStatus) : string :=
  match s with
  | pending => "pending" | running => "running" | completed => "completed" | failed => "failed"
  | max_steps_reached => "max_steps_reached" | budget_exhausted => "budget_exhausted"
  | convergence_stopped => "convergence_stopped" | cancelled => "cancelled"
  end.

Definition is_completed (s : AgentState) : bool := bool_decide (lc_status (st_life s) = completed).
Definition history_of (s : AgentState) : list ActionRecord := au_history (st_audit s).
Definition city_of (s : AgentState) : string := req_city (st_request s).

(** [sorted(Counter(...).items())] *)
Definition status_counts (states : list AgentState) : list (AgentStatus * Z) :=
  py_sorted (fun x y => String.leb (status_text x.1) (status_text y.1))
    (count_into [] (map (fun s => lc_status (st_life s)) states)).

(** ** The execution baseline *)

Record ExecutionAggregate := mkExecutionAggregate {
  xa_session_count : Z; xa_completed_session_count : Z; xa_completion_rate : Q;
  xa_avg_physical_steps : Q; xa_avg_completed_physical_steps : Q;
  xa_avg_logical_actions : Q; xa_avg_completed_logical_actions : Q; xa_step_compression_rate : Q
}.

Definition total_steps (states : list AgentState) : Z := zsum (map (fun s => lc_current_step (st_life s)) states).
Definition total_actions (states : list AgentState) : Z := zsum (map (fun s => Z.of_nat (length (history_of s))) states).

Definition aggregate_states (states : list AgentState) : ExecutionAggregate :=
  let done := filter (fun s => is_completed s = true) states in
  let sessions := Z.of_nat (length states) in
  let completed := Z.of_nat (length done) in
  let compressed := zsum (map (fun s => count_of rec_compressed (history_of s)) states) in
  mkExecutionAggregate sessions completed (safe_rate completed sessions)
    (safe_average (inject_Z (total_steps states)) sessions) (safe_average (inject_Z (total_steps done)) completed)
    (safe_average (inject_Z (total_actions states)) sessions)
    (safe_average (inject_Z (total_actions done)) completed)
    (safe_rate compressed (total_actions states)).

Record ActionAccumulator := mkActionAcc {
  aa_execution_count : Z; aa_success_count : Z; aa_failure_count : Z; aa_compressed_count : Z;
  aa_duration_ms : Z; aa_sessions : gset string
}.
Record TransitionAccumulator := mkTransitionAcc {
  ta_transition_count : Z; ta_same_step : Z; ta_cross_step : Z;
  ta_sessions : gset string; ta_completed : gset string
}.
Record CycleAccumulator := mkCycleAcc { ca_cycle_count : Z; ca_sessions : gset string; ca_completed : gset string }.

Definition no_actions : ActionAccumulator := mkActionAcc 0 0 0 0 0 ∅.
Definition no_transitions : TransitionAccumulator := mkTransitionAcc 0 0 0 ∅ ∅.
Definition no_cycles : CycleAccumulator := mkCycleAcc 0 ∅ ∅.

Definition count_action (sid : string) (r : ActionRecord) (a : ActionAccumulator) : ActionAccumulator :=
  mkActionAcc (aa_execution_count a + 1) (aa_success_count a + Z.b2z (rec_success r))
    (aa_failure_count a + Z.b2z (negb (rec_success r))) (aa_compressed_count a + Z.b2z (rec_compressed r))
    (aa_duration_ms a + rec_duration_ms r) ({[sid]} ∪ aa_sessions a).

Definition count_transition (sid : string) (done : bool) (previous current : ActionRecord) (a : TransitionAccumulator)
    : TransitionAccumulator :=
  let same := rec_step previous =? rec_step current in
  mkTransitionAcc (ta_transition_count a + 1) (ta_same_step a + Z.b2z same) (ta_cross_step a + Z.b2z (negb same))
    ({[sid]} ∪ ta_sessions a) (if done then {[sid]} ∪ ta_completed a else ta_completed a).

Definition count_cycle (sid : string) (done : bool) (a : CycleAccumulator) : CycleAccumulator :=
  mkCycleAcc (ca_cycle_count a + 1) ({[sid]} ∪ ca_sessions a)
    (if done then {[sid]} ∪ ca_completed a else ca_completed a).

(** The cycles of a run: what lies between two occurrences of an action that
    are next to each other.  [last]: the last position of each action. *)
Fixpoint cycle_keys (span : Z) (actions : list AgentAction) (index : nat) (last : list (AgentAction * nat))
    (rest : list AgentAction) : list (list AgentAction) :=
  match rest with
  | [] => []
  | a :: rest =>
      ((match dd_get a last with
        | Some previous =>
            if Z.of_nat index - Z.of_nat previous <=? span
            then [take (index + 1 - previous) (drop previous actions)] else []
        | None => []
        end)
       ++ cycle_keys span actions (S index) (dd_update 0%nat a (fun _ => index) last) rest)%list
  end.

Record ExecutionTables := mkExecutionTables {
  et_cities : list (string * list AgentState);
  et_actions : list (AgentAction * ActionAccumulator);
  et_transitions : list ((AgentAction * AgentAction) * TransitionAccumulator);
  et_cycles : list (list AgentAction * CycleAccumulator)
}.

Definition visit_state (span : Z) (t : ExecutionTables) (s : AgentState) : ExecutionTables :=
  let sid := st_session_id s in
  let done := is_completed s in
  let history := history_of s in
  let actions := map rec_action history in
  mkExecutionTables
    (dd_update [] (city_of s) (fun g => g ++ [s])%list (et_cities t))
    (foldl (fun d r => dd_update no_actions (rec_action r) (count_action sid r) d) (et_actions t) history)
    (foldl (fun d pc => dd_update no_transitions (rec_action pc.1, rec_action pc.2) (count_transition sid done pc.1 pc.2) d)
       (et_transitions t) (zip history (tail history)))
    (foldl (fun d k => dd_update no_cycles k (count_cycle sid done) d)
       (et_cycles t) (cycle_keys span actions 0 [] actions)).

Definition execution_tables (span : Z) (states : list AgentState) : ExecutionTables :=
  foldl (visit_state span) (mkExecutionTables [] [] [] []) states.

Record CityExecutionBaseline := mkCityBaseline {
  cb_city : string; cb_status_counts : list (AgentStatus * Z); cb_aggregate : ExecutionAggregate
}.
Record ActionExecutionStats := mkActionStats {
  ax_action : AgentAction; ax_execution_count : Z; ax_session_count : Z; ax_success_count : Z;
  ax_failure_count : Z; ax_compressed_count : Z; ax_compression_rate : Q; ax_avg_duration_ms : Q
}.
Record ActionTransitionStats := mkTransitionStats {
  ts_from_action : AgentAction; ts_to_action : AgentAction; ts_transition_count : Z; ts_session_count : Z;
  ts_completed_session_count : Z; ts_same_physical_step_count : Z; ts_cross_physical_step_count : Z
}.
Record ActionCycleStats := mkCycleStats {
  cs_actions : list AgentAction; cs_cycle_count : Z; cs_session_count : Z; cs_completed_session_count : Z;
  cs_transition_span : Z
}.

Definition city_baselines (t : ExecutionTables) : list CityExecutionBaseline :=
  py_sorted (larger_first (fun c => xa_session_count (cb_aggregate c)) (fun x y => String.leb (cb_city x) (cb_city y)))
    (map (fun kv => mkCityBaseline kv.1 (status_counts kv.2) (aggregate_states kv.2)) (et_cities t)).

Definition action_stats (t : ExecutionTables) : list ActionExecutionStats :=
  py_sorted (larger_first ax_execution_count
               (fun x y => String.leb (action_value (ax_action x)) (action_value (ax_action y))))
    (map (fun kv =>
            let a := kv.2 in
            mkActionStats kv.1 (aa_execution_count a) (Z.of_nat (size (aa_sessions a))) (aa_success_count a)
              (aa_failure_count a) (aa_compressed_count a)
              (safe_rate (aa_compressed_count a) (aa_execution_count a))
              (safe_average (inject_Z (aa_duration_ms a)) (aa_execution_count a))) (et_actions t)).

Definition transition_stats (t : ExecutionTables) : list ActionTransitionStats :=
  py_sorted (larger_first ts_transition_count
               (fun x y => strings_leb [action_value (ts_from_action x); action_value (ts_to_action x)]
                             [action_value (ts_from_action y); action_value (ts_to_action y)]))
    (map (fun kv =>
            let a := kv.2 in
            mkTransitionStats kv.1.1 kv.1.2 (ta_transition_count a) (Z.of_nat (size (ta_sessions a)))
              (Z.of_nat (size (ta_completed a))) (ta_same_step a) (ta_cross_step a)) (et_transitions t)).

Definition cycle_leb (x y : ActionCycleStats) : bool :=
  larger_first cs_cycle_count
    (fun x y => (cs_transition_span x <? cs_transition_span y)
                || ((cs_transition_span x =? cs_transition_span y)
                    && strings_leb (map action_value (cs_actions x)) (map action_value (cs_actions y)))) x y.

Definition cycle_stats (t : ExecutionTables) : list ActionCycleStats :=
  py_sorted cycle_leb
    (map (fun kv =>
            let a := kv.2 in
            mkCycleStats kv.1 (ca_cycle_count a) (Z.of_nat (size (ca_sessions a))) (Z.of_nat (size (ca_completed a)))
              (Z.of_nat (length kv.1) - 1)) (et_cycles t)).

(** What the store found besides the states. *)
Record SampleCounts := mkSampleCounts {
  sc_requested_limit : Z; sc_matching_session_count : Z; sc_sampled_row_count : Z; sc_invalid_session_count : Z
}.

Record ExecutionBaselineReport := mkExecutionBaseline {
  xb_generated_at : datetime; xb_sample : SampleCounts; xb_analyzed_session_count : Z; xb_truncated : bool;
  xb_status_filter : option AgentStatus; xb_city_filter : option string; xb_max_cycle_span : Z;
  xb_status_counts : list (AgentStatus * Z); xb_overall : ExecutionAggregate;
  xb_cities : list CityExecutionBaseline; xb_actions : list ActionExecutionStats;
  xb_common_transitions : list ActionTransitionStats; xb_common_cycles : list ActionCycleStats
}.

Definition truncated (c : SampleCounts) : bool := sc_sampled_row_count c <? sc_matching_session_count c.

Definition build_execution_baseline (now : datetime) (states : list AgentState) (sample : SampleCounts)
    (status : option AgentStatus) (city : option string) (top_n max_cycle_span : Z) : ExecutionBaselineReport :=
  let top := Z.to_nat (Z.max 1 top_n) in
  let span := Z.max 1 max_cycle_span in
  let t := execution_tables span states in
  mkExecutionBaseline now sample (Z.of_nat (length states)) (truncated sample) status city span
    (status_counts states) (aggregate_states states) (city_baselines t) (action_stats t)
    (take top (transition_stats t)) (take top (cycle_stats t)).

(** ** The quality baseline *)

Inductive SessionOutcome := full_outcome | partial_outcome | failed_outcome | in_progress_outcome.
#[export] Instance SessionOutcome_eq_dec : EqDecision SessionOutcome.
Proof. solve_decision. Defined.

(** [_TERMINAL_FAILURE_STATUSES]; a cancelled session is not among them. *)
Definition TERMINAL_FAILURE_STATUSES : list AgentStatus :=
  [failed; max_steps_reached; budget_exhausted; convergence_stopped].

Definition outcome_of (s : AgentState) : SessionOutcome :=
  match infer_completion_mode s with
  | Some mode_full => full_outcome
  | Some mode_partial => partial_outcome
  | None => if bool_decide (lc_status (st_life s) ∈ TERMINAL_FAILURE_STATUSES) then failed_outcome else in_progress_outcome
  end.

Record QualityAggregate := mkQualityAggregate {
  qa_session_count : Z; qa_full_completed_count : Z; qa_partial_completed_count : Z; qa_failed_count : Z;
  qa_in_progress_count : Z; qa_full_completion_rate : Q; qa_partial_completion_rate : Q; qa_success_rate : Q;
  qa_failure_rate : Q; qa_scored_session_count : Z; qa_avg_quality_score : Q; qa_avg_physical_steps : Q;
  qa_avg_logical_actions : Q; qa_avg_tool_calls : Q; qa_avg_llm_calls : Q; qa_avg_duration_ms : Q;
  qa_estimated_avoided_llm_repair_calls : Z; qa_estimated_avoided_repair_steps : Z
}.

Definition scores_of (states : list AgentState) : list Q :=
  omap (fun s => pa_quality_score <$> ev_acceptance (st_evals s)) states.

Definition aggregate_quality (states : list AgentState) : QualityAggregate :=
  let count o := count_of (fun s => bool_decide (outcome_of s = o)) states in
  let full := count full_outcome in
  let partial := count partial_outcome in
  let failures := count failed_outcome in
  let total := Z.of_nat (length states) in
  let scores := scores_of states in
  let average (f : AgentState → Z) := safe_average (inject_Z (zsum (map f states))) total in
  mkQualityAggregate total full partial failures (count in_progress_outcome)
    (safe_rate full total) (safe_rate partial total) (safe_rate (full + partial) total) (safe_rate failures total)
    (Z.of_nat (length scores)) (safe_average (qsum scores) (Z.of_nat (length scores)))
    (average (fun s => lc_current_step (st_life s))) (average (fun s => Z.of_nat (length (history_of s))))
    (average (fun s => us_tool_call_count (st_usage s))) (average (fun s => us_llm_call_count (st_usage s)))
    (average (fun s => us_total_duration_ms (st_usage s))) partial partial.

Inductive QualityDimension := by_city | by_travel_days | by_transportation | by_quality_level.

Record QualityDimensionBaseline := mkDimension {
  qd_dimension : QualityDimension; qd_value : string; qd_aggregate : QualityAggregate
}.

Definition dimension_rows (dimension : QualityDimension) (groups : list (string * list AgentState))
    : list QualityDimensionBaseline :=
  py_sorted (larger_first (fun r => qa_session_count (qd_aggregate r)) (fun x y => String.leb (qd_value x) (qd_value y)))
    (map (fun kv => mkDimension dimension kv.1 (aggregate_quality kv.2)) groups).

Definition level_text (l : PlanQualityLevel) : string :=
  match l with
  | EXCELLENT => "excellent" | ACCEPTABLE => "acceptable" | DEGRADED => "degraded" | UNUSABLE => "unusable"
  end.

Record QualityIssueStats := mkIssueStats {
  qi_issue_code : string; qi_occurrence_count : Z; qi_session_count : Z; qi_partial_session_count : Z
}.

Definition common_issues (states : list AgentState) : list QualityIssueStats :=
  let counts := foldl (fun d s => count_into d (state_issue_codes s)) [] states in
  let partial_counts :=
    foldl (fun d s => if bool_decide (infer_completion_mode s = Some mode_partial)
                      then count_into d (state_issue_codes s) else d) [] states in
  py_sorted (larger_first qi_session_count (fun x y => String.leb (qi_issue_code x) (qi_issue_code y)))
    (map (fun kv => mkIssueStats kv.1 kv.2 kv.2 (default 0 (dd_get kv.1 partial_counts))) counts).

Record QualityFilters := mkQualityFilters {
  qf_status : option AgentStatus; qf_city : option string; qf_travel_days : option Z;
  qf_transportation : option string; qf_completion_mode : option CompletionMode;
  qf_quality_level : option PlanQualityLevel
}.

Record QualityBaselineReport := mkQualityBaseline {
  qb_generated_at : datetime; qb_sample : SampleCounts; qb_analyzed_session_count : Z; qb_truncated : bool;
  qb_filters : QualityFilters; qb_overall : QualityAggregate;
  qb_cities : list QualityDimensionBaseline; qb_travel_days : list QualityDimensionBaseline;
  qb_transportation : list QualityDimensionBaseline; qb_quality_levels : list QualityDimensionBaseline;
  qb_common_issue_codes : list QualityIssueStats
}.

(** The sessions that were accepted, with the text of their level. *)
Definition leveled (states : list AgentState) : list (string * AgentState) :=
  omap (fun s => level ← state_quality_level s; mret (level_text level, s)) states.

Definition level_groups (states : list AgentState) : list (string * list AgentState) :=
  foldl (fun d ls => dd_update [] ls.1 (fun g => g ++ [ls.2])%list d) [] (leveled states).

Definition build_quality_baseline (now : datetime) (states : list AgentState) (sample : SampleCounts)
    (filters : QualityFilters) (top_n : Z) : QualityBaselineReport :=
  mkQualityBaseline now sample (Z.of_nat (length states)) (truncated sample) filters (aggregate_quality states)
    (dimension_rows by_city (group_into city_of [] states))
    (dimension_rows by_travel_days (group_into (fun s => str_of_Z (req_travel_days (st_request s))) [] states))
    (dimension_rows by_transportation (group_into (fun s => req_transportation (st_request s)) [] states))
    (dimension_rows by_quality_level (level_groups states))
    (take (Z.to_nat (Z.max 1 top_n)) (common_issues states)).

(** ** The fixed acceptance scenarios *)

Record AcceptanceThresholds := mkThresholds {
  th_min_quality_score : Q; th_min_attractions_per_day : Z; th_max_unavailable_route_legs : Z;
  th_max_excessive_commute_segments : Z; th_max_schedule_overtime_minutes : Z; th_max_constraint_errors : Z;
  th_max_physical_steps : Z; th_max_llm_calls : Z; th_allowed_completion_modes : list CompletionMode
}.
Definition default_thresholds : AcceptanceThresholds := mkThresholds 70 1 0 0 60 0 24 6 [mode_full; mode_partial].

Record AcceptanceScenario := mkScenario {
  sn_case_id : string; sn_description : string; sn_request : TripRequest; sn_tags : list string;
  sn_thresholds : AcceptanceThresholds
}.

Definition scenario_request (city : string) (start : date) (days : nat) (transportation : string)
    (preferences : list string) : TripRequest :=
  mkTripRequest city (isoformat start) (isoformat (add_days (days - 1) start)) (Z.of_nat days) transportation
    "经济型酒店" preferences (Some "").

(** The cities with their slugs and preferences, the lengths with their transports. *)
Definition scenario_cities : list (string * string * list string) :=
  [("杭州", "hangzhou", ["休闲"; "自然风光"]); ("北京", "beijing", ["历史文化"; "城市观光"]);
   ("上海", "shanghai", ["亲子"; "城市观光"]); ("成都", "chengdu", ["美食"; "休闲"]);
   ("西安", "xian", ["历史文化"; "美食"])].
Definition scenario_lengths : list (nat * string * string) :=
  [(1%nat, "步行", "walking"); (3%nat, "公共交通", "transit"); (5%nat, "驾车", "driving")].

Definition build_fixed_acceptance_scenarios : list AcceptanceScenario :=
  let base_date := mkDate 2026 10 12 in
  concat (imap (fun city_index '(city, slug, preferences) =>
    imap (fun duration_index '(days, transportation, transport_slug) =>
      let start := add_days (city_index * 28 + duration_index * 7)%nat base_date in
      let number := str_of_Z (Z.of_nat days) in
      let day_tag := number ++ "日" in
      mkScenario (slug ++ "-" ++ number ++ "d-" ++ transport_slug)
        (city ++ day_tag ++ transportation ++ "固定验收，覆盖路线、时间轴、通勤、约束和最低景点保障")
        (scenario_request city start days transportation preferences)
        ([city; day_tag; transportation] ++ preferences ++ ["固定端到端"])%list
        default_thresholds) scenario_lengths) scenario_cities).

Definition FIXED_ACCEPTANCE_SCENARIOS : list AcceptanceScenario := Eval vm_compute in build_fixed_acceptance_scenarios.

Definition RequestSignature : Type := string * string * string * Z * string * string * list string * string.

Definition request_signature (r : TripRequest) : RequestSignature :=
  (req_city r, req_start_date r, req_end_date r, req_travel_days r, req_transportation r, req_accommodation r,
   req_preferences r, default "" (req_free_text_input r)).

Record AcceptanceCheckResult := mkCheckResult {
  ck_code : string; ck_passed : bool; ck_message : string; ck_expected : json; ck_actual : json
}.

Inductive CaseStatus := case_missing | case_passed | case_failed.
#[export] Instance CaseStatus_eq_dec : EqDecision CaseStatus.
Proof. solve_decision. Defined.

Record AcceptanceCaseResult := mkCaseResult {
  cr_case_id : string; cr_city : string; cr_travel_days : Z; cr_transportation : string; cr_status : CaseStatus;
  cr_session_id : option string; cr_completion_mode : option CompletionMode;
  cr_quality_level : option PlanQualityLevel; cr_quality_score : option Q;
  cr_checks : list AcceptanceCheckResult; cr_failed_check_codes : list string
}.

Definition mode_text (m : CompletionMode) : string := match m with mode_full => "full" | mode_partial => "partial" end.
Definition optional {A} (f : A → json) (o : option A) : json := match o with Some a => f a | None => JNull end.

Definition plan_identity (p : TripPlan) : string * string * string * Z :=
  (plan_city p, plan_start_date p, plan_end_date p, Z.of_nat (length (plan_days p))).
Definition request_identity (r : TripRequest) : string * string * string * Z :=
  (req_city r, req_start_date r, req_end_date r, req_travel_days r).
Definition identity_json (i : string * string * string * Z) : json :=
  let '(city, start_date, end_date, days) := i in
  JObj [("city", JStr city); ("start_date", JStr start_date); ("end_date", JStr end_date); ("travel_days", JInt days)].

(** [min((len(day.attractions) for day in plan.days), default=0)] *)
Definition minimum_attractions (p : TripPlan) : Z :=
  match map (fun d => Z.of_nat (length (day_attractions d))) (plan_days p) with
  | [] => 0
  | n :: l => foldl Z.min n l
  end.

Section Acceptance.
Context `{HashEnv}.

(** A report that exists with a count that stays within a limit. *)
Definition limit_check {R} (code message : string) (limit : Z) (count : R → Z) (report : option R)
    : AcceptanceCheckResult :=
  mkCheckResult code (match report with Some r => count r <=? limit | None => false end) message
    (JStr ("<=" ++ str_of_Z limit)) (optional (fun r => JInt (count r)) report).

Definition acceptance_checks (scenario : AcceptanceScenario) (s : AgentState) : list AcceptanceCheckResult :=
  let th := sn_thresholds scenario in
  let e := st_evals s in
  let plan := fa_trip_plan (st_facts s) in
  let mode := infer_completion_mode s in
  let score := pa_quality_score <$> ev_acceptance e in
  let attractions := match plan with Some p => minimum_attractions p | None => 0 end in
  let wanted := request_identity (sn_request scenario) in
  [mkCheckResult "session.completed" (is_completed s) "会话必须由执行循环正常完成"
     (JStr "completed") (JStr (status_text (lc_status (st_life s))));
   mkCheckResult "completion.mode"
     (match mode with Some m => bool_decide (m ∈ th_allowed_completion_modes th) | None => false end)
     "完成模式必须是允许的完整或部分交付"
     (JArr (map (fun m => JStr (mode_text m)) (th_allowed_completion_modes th)))
     (optional (fun m => JStr (mode_text m)) mode);
   mkCheckResult "quality.score" (match score with Some q => Qle_bool (th_min_quality_score th) q | None => false end)
     "综合质量分必须达到固定基线" (JStr (">=" ++ he_float_repr (th_min_quality_score th))) (optional JFloat score);
   mkCheckResult "plan.identity"
     (match plan with Some p => bool_decide (plan_identity p = wanted) | None => false end)
     "城市、日期和行程天数必须与固定请求一致" (identity_json wanted)
     (optional (fun p => identity_json (plan_identity p)) plan);
   mkCheckResult "plan.minimum_attractions" (th_min_attractions_per_day th <=? attractions) "每天必须满足最低景点数量"
     (JStr (">=" ++ str_of_Z (th_min_attractions_per_day th))) (JInt attractions);
   limit_check "route.available" "真实路线不可用分段不得超过阈值" (th_max_unavailable_route_legs th)
     rq_unavailable_legs (ev_route_quality e);
   limit_check "commute.segment_limit" "过长单段通勤不得超过阈值" (th_max_excessive_commute_segments th)
     cm_excessive_segment_count (ev_commute e);
   limit_check "schedule.overtime" "完整地点时间轴的总超时不得超过阈值" (th_max_schedule_overtime_minutes th)
     sq_total_overtime_minutes (ev_schedule e);
   limit_check "constraints.errors" "可执行性约束错误不得超过阈值" (th_max_constraint_errors th)
     ct_error_count (ev_constraints e);
   limit_check "execution.steps" "物理执行步骤不得超过固定预算" (th_max_physical_steps th)
     (fun s => lc_current_step (st_life s)) (Some s);
   limit_check "execution.llm_calls" "LLM 调用次数不得超过固定预算" (th_max_llm_calls th)
     (fun s => us_llm_call_count (st_usage s)) (Some s)].

Definition evaluate_acceptance_case (scenario : AcceptanceScenario) (s : AgentState) : AcceptanceCaseResult :=
  let r := sn_request scenario in
  let checks := acceptance_checks scenario s in
  let failed_codes := map ck_code (filter (fun c => ck_passed c = false) checks) in
  mkCaseResult (sn_case_id scenario) (req_city r) (req_travel_days r) (req_transportation r)
    (match failed_codes with [] => case_passed | _ => case_failed end)
    (Some (st_session_id s)) (infer_completion_mode s) (state_quality_level s)
    (pa_quality_score <$> ev_acceptance (st_evals s)) checks failed_codes.

Definition missing_case (scenario : AcceptanceScenario) : AcceptanceCaseResult :=
  let r := sn_request scenario in
  mkCaseResult (sn_case_id scenario) (req_city r) (req_travel_days r) (req_transportation r) case_missing
    None None None None [] ["baseline.session_missing"].

(** [d[k] = v] *)
Definition dd_set {K V} `{EqDecision K} (k : K) (v : V) (d : list (K * V)) : list (K * V) :=
  dd_update v k (fun _ => v) d.

(** Of the sessions with the same request the one that was updated last. *)
Definition latest_by_signature (states : list AgentState) : list (RequestSignature * AgentState) :=
  foldl (fun d s =>
           let k := request_signature (st_request s) in
           match dd_get k d with
           | Some previous => if lc_updated_at (st_life previous) <? lc_updated_at (st_life s) then dd_set k s d else d
           | None => dd_set k s d
           end) [] states.

Record FixedAcceptanceBaselineReport := mkAcceptanceBaseline {
  fb_generated_at : datetime; fb_requested_limit : Z; fb_sampled_session_count : Z; fb_invalid_session_count : Z;
  fb_total_case_count : Z; fb_covered_case_count : Z; fb_passed_case_count : Z; fb_failed_case_count : Z;
  fb_missing_case_count : Z; fb_coverage_rate : Q; fb_overall_pass_rate : Q; fb_evaluated_pass_rate : Q;
  fb_cases : list AcceptanceCaseResult
}.

(** [scenarios or FIXED_ACCEPTANCE_SCENARIOS] *)
Definition suite_of (scenarios : option (list AcceptanceScenario)) : list AcceptanceScenario :=
  match scenarios with Some (_ :: _ as l) => l | _ => FIXED_ACCEPTANCE_SCENARIOS end.

Definition case_of (states : list AgentState) (scenario : AcceptanceScenario) : AcceptanceCaseResult :=
  match dd_get (request_signature (sn_request scenario)) (latest_by_signature states) with
  | Some s => evaluate_acceptance_case scenario s
  | None => missing_case scenario
  end.

Definition build_fixed_acceptance_baseline (now : datetime) (states : list AgentState)
    (requested_limit sampled_session_count invalid_session_count : Z)
    (scenarios : option (list AcceptanceScenario)) : FixedAcceptanceBaselineReport :=
  let cases := map (case_of states) (suite_of scenarios) in
  let count status := count_of (fun c => bool_decide (cr_status c = status)) cases in
  let total := Z.of_nat (length cases) in
  let covered := count_of (fun c => negb (bool_decide (cr_status c = case_missing))) cases in
  mkAcceptanceBaseline now requested_limit sampled_session_count invalid_session_count total covered
    (count case_passed) (count case_failed) (total - covered)
    (safe_rate covered total) (safe_rate (count case_passed) total) (safe_rate (count case_passed) covered) cases.
End Acceptance.

(** ** The reports of the stores *)

(** [x.strip() if x and x.strip() else None] *)
Definition normalized_filter (x : option string) : option string :=
  match x with
  | Some t => if String.eqb (py_strip t) "" then None else Some (py_strip t)
  | None => None
  end.

Definition execution_matches (status : option AgentStatus) (city : option string) (r : SessionRow) : bool :=
  accepts_value status (se_status r) && accepts_value city (se_city r).

(** A column that is [NULL] equals no value. *)
Definition accepts_column {A} `{EqDecision A} (wanted value : option A) : bool :=
  match wanted with Some w => bool_decide (value = Some w) | None => true end.

Definition quality_matches (f : QualityFilters) (r : SessionRow) : bool :=
  let q := se_quality r in
  accepts_value (qf_status f) (se_status r) && accepts_value (qf_city f) (se_city r)
  && accepts_column (qf_travel_days f) (qv_travel_days q)
  && accepts_column (qf_transportation f) (qv_transportation q)
  && accepts_column (qf_completion_mode f) (qv_completion_mode q)
  && accepts_column (qf_quality_level f) (qv_quality_level q).

Definition normalized_filters (f : QualityFilters) : QualityFilters :=
  mkQualityFilters (qf_status f) (normalized_filter (qf_city f)) (qf_travel_days f)
    (normalized_filter (qf_transportation f)) (qf_completion_mode f) (qf_quality_level f).

(** [max(1, min(n, cap))] *)
Definition clamped (n cap : Z) : Z := Z.max 1 (Z.min n cap).

Section Reports.
(** How a store samples: the matching rows, the user, the limit. *)
Context (sample : (SessionRow → bool) → option string → nat → AppDb → list AgentState * Z * Z * Z).

Definition get_execution_baseline (now : datetime) (limit : Z) (status : option AgentStatus) (city : option string)
    (top_n max_cycle_span : Z) (user_id : option string) (db : AppDb) : ExecutionBaselineReport :=
  let city := normalized_filter city in
  let '(states, matching, sampled, invalid) :=
    sample (execution_matches status city) user_id (Z.to_nat (clamped limit 5000)) db in
  build_execution_baseline now states (mkSampleCounts (clamped limit 5000) matching sampled invalid) status city
    (clamped top_n 100) (clamped max_cycle_span 50).

Definition get_quality_baseline (now : datetime) (limit : Z) (filters : QualityFilters) (top_n : Z)
    (user_id : option string) (db : AppDb) : QualityBaselineReport :=
  let filters := normalized_filters filters in
  let '(states, matching, sampled, invalid) :=
    sample (quality_matches filters) user_id (Z.to_nat (clamped limit 5000)) db in
  build_quality_baseline now states (mkSampleCounts (clamped limit 5000) matching sampled invalid) filters
    (clamped top_n 100).
End Reports.

Section AcceptanceReports.
Context `{HashEnv}.

(** SQLite counts the states, MySQL the rows it read. *)
Definition sqlite_acceptance_baseline (now : datetime) (limit : Z) (user_id : option string) (db : AppDb)
    : FixedAcceptanceBaselineReport :=
  let '(states, _, _, invalid) :=
    SqliteSessions.sampled_states (fun _ => true) user_id (Z.to_nat (clamped limit 10000)) db in
  build_fixed_acceptance_baseline now states (clamped limit 10000) (Z.of_nat (length states)) invalid None.

Definition mysql_acceptance_baseline (now : datetime) (limit : Z) (user_id : option string) (db : AppDb)
    : FixedAcceptanceBaselineReport :=
  let '(states, _, sampled, invalid) :=
    MysqlSessions.sampled_states (fun _ => true) user_id (Z.to_nat (clamped limit 10000)) db in
  build_fixed_acceptance_baseline now states (clamped limit 10000) sampled invalid None.
End AcceptanceReports.
