(* ===== verification/AnalyticsTheorems.v ===== *)
(** What the reports count: the theorems about [Analytics]. *)

From S2P Require Import Prelude FloatMath PyData Calendar TripSchema AmapModels PlanReports TaskModels TaskTables OrderedDict ToolModels AgentState Acceptance Convergence TripVersions SessionStore Analytics.
From Stdlib Require Import ZArith QArith Lia Lqa String Sorted.
From stdpp Require Import base tactics option list gmap strings sorting.

Open Scope string_scope.
Open Scope Z_scope.

(** ** Dictionaries *)

Section Dictionaries.
Context {K V : Type} `{EqDecision K} (fresh : V).
Implicit Types (d : list (K * V)).

Lemma dd_get_update k k' f d :
  dd_get k' (dd_update fresh k f d)
  = if decide (k' = k) then Some (f (default fresh (dd_get k d))) else dd_get k' d.
Proof.
  induction d as [|[j v] d IH]; unfold dd_get in *; cbn.
  - destruct (decide (k' = k)) as [->|Hne]; [by rewrite bool_decide_true|by rewrite bool_decide_false by congruence].
  - destruct (decide (j = k)) as [->|Hj]; cbn.
    + rewrite (bool_decide_true (k = k)) by done. cbn. destruct (decide (k' = k)) as [->|Hne].
      * by rewrite bool_decide_true.
      * rewrite bool_decide_false by congruence. done.
    + rewrite (bool_decide_false (j = k)) by done. destruct (decide (j = k')) as [->|Hj'].
      * rewrite bool_decide_true by done. cbn. by rewrite decide_False.
      * rewrite bool_decide_false by done. exact IH.
Qed.

Lemma dd_keys_update k f d :
  (dd_update fresh k f d).*1 = if decide (k ∈ d.*1) then d.*1 else (d.*1 ++ [k])%list.
Proof.
  induction d as [|[j v] d IH]; cbn; [done|].
  destruct (decide (j = k)) as [->|Hj]; cbn.
  - rewrite decide_True; [done|by left].
  - rewrite IH. destruct (decide (k ∈ d.*1)) as [Hin|Hin].
    + rewrite decide_True; [done|by right].
    + rewrite decide_False; [done|]. by intros [->|?]%elem_of_cons.
Qed.

Lemma dd_get_elem k v d : NoDup d.*1 → dd_get k d = Some v ↔ (k, v) ∈ d.
Proof.
  induction d as [|[j w] d IH]; intros Hnd; unfold dd_get in *; cbn in *; [split; [done|by intros ?%not_elem_of_nil]|].
  apply NoDup_cons in Hnd as [Hj Hnd]. destruct (decide (j = k)) as [->|Hne].
  - rewrite bool_decide_true by done. cbn. split; [intros [= ->]; by left|].
    intros [[= <-]|Hin]%elem_of_cons; [done|]. destruct Hj. by apply (list_elem_of_fmap_2 fst) in Hin.
  - rewrite bool_decide_false by done. rewrite IH by done. split; [by right|].
    intros [[= ->]|?]%elem_of_cons; [done|done].
Qed.

Context {X : Type} (key : X → K) (f : X → V → V).

(** A loop that updates one entry per element. *)
Definition dd_fold (l : list X) d : list (K * V) := foldl (fun d x => dd_update fresh (key x) (f x) d) d l.

Lemma dd_fold_keys l d : NoDup d.*1 → NoDup (dd_fold l d).*1.
Proof.
  revert d. induction l as [|x l IH]; intros d Hd; [done|]. apply IH. rewrite dd_keys_update.
  destruct (decide _); [done|]. apply NoDup_app. split; [done|]. split; [|apply NoDup_singleton].
  intros k Hk ->%list_elem_of_singleton. done.
Qed.

(** The entry of a key is the loop over the elements with that key. *)
Lemma dd_fold_get l k d :
  dd_get k (dd_fold l d)
  = match filter (fun x => key x = k) l with
    | [] => dd_get k d
    | l' => Some (foldl (fun v x => f x v) (default fresh (dd_get k d)) l')
    end.
Proof.
  revert d. induction l as [|x l IH]; intros d; [done|]. change (dd_fold (x :: l) d) with (dd_fold l (dd_update fresh (key x) (f x) d)).
  rewrite IH, filter_cons, dd_get_update.
  destruct (decide (k = key x)) as [->|Hne].
  - rewrite decide_True by done. cbn. by destruct (filter _ l).
  - rewrite decide_False by congruence. done.
Qed.

(** A number that each update raises by the weight of the element. *)
Lemma dd_fold_sum (m : V → Z) (weight : X → Z) l d :
  m fresh = 0 → (∀ x v, m (f x v) = m v + weight x) →
  zsum (map (fun kv => m kv.2) (dd_fold l d)) = zsum (map (fun kv => m kv.2) d) + zsum (map weight l).
Proof.
  intros Hfresh Hstep. revert d. induction l as [|x l IH]; intros d; [symmetry; apply Z.add_0_r|]. cbn [map]. rewrite zsum_cons.
  change (dd_fold (x :: l) d) with (dd_fold l (dd_update fresh (key x) (f x) d)). rewrite IH.
  assert (Hup : zsum (map (fun kv => m kv.2) (dd_update fresh (key x) (f x) d)) = zsum (map (fun kv => m kv.2) d) + weight x).
  { clear IH. induction d as [|[j v] d IH]; cbn [dd_update map].
    - rewrite zsum_cons. cbn [snd]. rewrite Hstep. change (zsum []) with 0. lia.
    - destruct (decide (j = key x)); cbn [map]; rewrite !zsum_cons; cbn [snd]; [rewrite Hstep|rewrite IH]; lia. }
  rewrite Hup. lia.
Qed.
End Dictionaries.

(** A loop inside a loop. *)
Definition events {X} (h : AgentState → list X) (states : list AgentState) : list (AgentState * X) :=
  concat (map (fun s => map (pair s) (h s)) states).

Lemma foldl_events {D X} (g : AgentState → D → X → D) (h : AgentState → list X) states d :
  foldl (fun d s => foldl (g s) d (h s)) d states = foldl (fun d e => g e.1 d e.2) d (events h states).
Proof.
  revert d. induction states as [|s states IH]; intros d; [done|]. cbn. unfold events in *. cbn.
  rewrite foldl_app, IH. f_equal. generalize (h s) as l. intros l. revert d. induction l as [|x l IHl]; intros d; [done|].
  cbn. apply IHl.
Qed.

(** ** Cycles *)

(** The actions from one occurrence of an action to the next one. *)
Definition cycle_at (span : Z) (actions : list AgentAction) (p i : nat) : Prop :=
  (p < i)%nat ∧ Z.of_nat i - Z.of_nat p <= span
  ∧ ∃ a, actions !! p = Some a ∧ actions !! i = Some a ∧ ∀ j, (p < j < i)%nat → actions !! j ≠ Some a.

Definition segment (actions : list AgentAction) (p i : nat) : list AgentAction := take (i + 1 - p) (drop p actions).

(** [p] is the last position of [a] before [index]. *)
Definition last_position (actions : list AgentAction) (index : nat) (a : AgentAction) (p : nat) : Prop :=
  (p < index)%nat ∧ actions !! p = Some a ∧ ∀ j, (p < j < index)%nat → actions !! j ≠ Some a.

Lemma cycle_keys_spec span actions index last rest k :
  drop index actions = rest → (∀ a p, dd_get a last = Some p ↔ last_position actions index a p) →
  k ∈ cycle_keys span actions index last rest
  ↔ ∃ p i, (index <= i)%nat ∧ cycle_at span actions p i ∧ k = segment actions p i.
Proof.
  revert index last. induction rest as [|a rest IH]; intros index last Hdrop Hlast; cbn [cycle_keys].
  { split; [by intros ?%not_elem_of_nil|]. intros (p & i & Hi & (_ & _ & b & _ & Hb & _) & _). exfalso.
    assert (Hn : drop index actions !! (i - index)%nat = Some b)
      by (rewrite lookup_drop; by replace (index + (i - index))%nat with i by lia).
    by rewrite Hdrop in Hn. }
  assert (Ha : actions !! index = Some a).
  { pose proof (lookup_drop actions index 0) as E. rewrite Hdrop, Nat.add_0_r in E. by rewrite <- E. }
  rewrite elem_of_app, (IH (S index)); first last.
  - intros b p. rewrite dd_get_update. unfold last_position. destruct (decide (b = a)) as [->|Hne].
    + split.
      * intros [= <-]. split; [lia|]. split; [done|]. intros j Hj. lia.
      * intros (Hp & Hpa & Hlater). f_equal. destruct (decide (p = index)) as [->|Hn]; [done|].
        by destruct (Hlater index ltac:(lia)).
    + rewrite Hlast. unfold last_position. split; intros (Hp & Hpb & Hlater).
      * split; [lia|]. split; [done|]. intros j Hj. destruct (decide (j = index)) as [->|]; [congruence|apply Hlater; lia].
      * assert (p ≠ index) by congruence. split; [lia|]. split; [done|]. intros j Hj. apply Hlater. lia.
  - pose proof (drop_drop actions 1 index) as E. rewrite Hdrop in E. cbn in E. by rewrite Nat.add_1_r in E.
  - split.
    + intros [Hk|(p & i & Hi & Hc & Hk)]; [|exists p, i; split; [lia|done]].
      destruct (dd_get a last) as [p|] eqn:Hp; [|by apply not_elem_of_nil in Hk].
      apply Hlast in Hp as (Hp & Hpa & Hlater).
      destruct (Z.leb_spec (Z.of_nat index - Z.of_nat p) span); [|by apply not_elem_of_nil in Hk].
      apply list_elem_of_singleton in Hk as ->. exists p, index. split; [lia|]. split; [|done].
      split; [done|]. split; [done|]. by exists a.
    + intros (p & i & Hi & Hc & ->). destruct (decide (i = index)) as [->|Hn]; [left|right; exists p, i; split; [lia|done]].
      destruct Hc as (Hp & Hs & b & Hpb & Hib & Hlater). assert (b = a) as -> by congruence.
      assert (dd_get a last = Some p) as -> by by apply Hlast.
      destruct (Z.leb_spec (Z.of_nat index - Z.of_nat p) span); [|lia]. by apply list_elem_of_singleton.
Qed.

Lemma cycle_keys_all span actions k :
  k ∈ cycle_keys span actions 0 [] actions ↔ ∃ p i, cycle_at span actions p i ∧ k = segment actions p i.
Proof.
  rewrite (cycle_keys_spec span actions 0 [] actions k); [|done|].
  - split; intros (p & i & H); exists p, i; naive_solver lia.
  - intros a p. split; [done|]. intros [Hp _]. lia.
Qed.

(** ** The tables of the execution baseline *)

Definition transitions_of (s : AgentState) : list (ActionRecord * ActionRecord) := zip (history_of s) (tail (history_of s)).
Definition cycles_of (span : Z) (s : AgentState) : list (list AgentAction) :=
  let actions := map rec_action (history_of s) in cycle_keys span actions 0 [] actions.

Lemma execution_tables_folds span states :
  let t := execution_tables span states in
  et_cities t = dd_fold [] city_of (fun s g => g ++ [s])%list states []
  ∧ et_actions t = dd_fold no_actions (fun e => rec_action e.2) (fun e => count_action (st_session_id e.1) e.2)
                     (events history_of states) []
  ∧ et_transitions t
    = dd_fold no_transitions (fun e => (rec_action e.2.1, rec_action e.2.2))
        (fun e => count_transition (st_session_id e.1) (is_completed e.1) e.2.1 e.2.2) (events transitions_of states) []
  ∧ et_cycles t = dd_fold no_cycles snd (fun e => count_cycle (st_session_id e.1) (is_completed e.1))
                    (events (cycles_of span) states) [].
Proof.
  unfold execution_tables, dd_fold.
  assert (Hgen : ∀ t, let t' := foldl (visit_state span) t states in
    et_cities t' = foldl (fun d s => dd_update [] (city_of s) (fun g => g ++ [s])%list d) (et_cities t) states
    ∧ et_actions t' = foldl (fun d s => foldl (fun d r => dd_update no_actions (rec_action r)
                         (count_action (st_session_id s) r) d) d (history_of s)) (et_actions t) states
    ∧ et_transitions t' = foldl (fun d s => foldl (fun d pc => dd_update no_transitions (rec_action pc.1, rec_action pc.2)
                         (count_transition (st_session_id s) (is_completed s) pc.1 pc.2) d) d (transitions_of s))
                         (et_transitions t) states
    ∧ et_cycles t' = foldl (fun d s => foldl (fun d k => dd_update no_cycles k
                         (count_cycle (st_session_id s) (is_completed s)) d) d (cycles_of span s)) (et_cycles t) states).
  { induction states as [|s states IH]; intros t; [done|]. apply (IH (visit_state span t s)). }
  destruct (Hgen (mkExecutionTables [] [] [] [])) as (-> & -> & -> & ->). cbn [et_cities et_actions et_transitions et_cycles].
  rewrite !foldl_events. done.
Qed.

(** The sessions of some events, each once. *)
Definition sessions_of {X} (l : list (AgentState * X)) : gset string := list_to_set (map (fun e => st_session_id e.1) l).

Lemma fold_actions (l : list (AgentState * ActionRecord)) v :
  let v' := foldl (fun v e => count_action (st_session_id e.1) e.2 v) v l in
  aa_execution_count v' = aa_execution_count v + Z.of_nat (length l)
  ∧ aa_success_count v' = aa_success_count v + count_of (fun e => rec_success e.2) l
  ∧ aa_failure_count v' = aa_failure_count v + count_of (fun e => negb (rec_success e.2)) l
  ∧ aa_compressed_count v' = aa_compressed_count v + count_of (fun e => rec_compressed e.2) l
  ∧ aa_sessions v' = sessions_of l ∪ aa_sessions v.
Proof.
  revert v. induction l as [|e l IH]; intros v; cbn [foldl].
  { unfold count_of, sessions_of. cbn. repeat split; try lia. set_solver. }
  destruct (IH (count_action (st_session_id e.1) e.2 v)) as (-> & -> & -> & -> & ->). unfold count_of, sessions_of.
  rewrite !filter_cons. cbn [count_action aa_execution_count aa_success_count aa_failure_count aa_compressed_count aa_sessions map list_to_set].
  repeat split; [cbn [length]; lia| | | |set_solver];
    match goal with |- context [Z.b2z ?b] => destruct b end; cbn [Z.b2z negb length]; repeat case_decide; cbn [length]; try done; lia.
Qed.

Lemma fold_transitions (l : list (AgentState * (ActionRecord * ActionRecord))) v :
  let v' := foldl (fun v e => count_transition (st_session_id e.1) (is_completed e.1) e.2.1 e.2.2 v) v l in
  ta_transition_count v' = ta_transition_count v + Z.of_nat (length l)
  ∧ ta_same_step v' + ta_cross_step v' = ta_same_step v + ta_cross_step v + Z.of_nat (length l)
  ∧ ta_same_step v' = ta_same_step v + count_of (fun e => rec_step e.2.1 =? rec_step e.2.2) l
  ∧ ta_sessions v' = sessions_of l ∪ ta_sessions v.
Proof.
  revert v. induction l as [|e l IH]; intros v; cbn [foldl].
  { unfold count_of, sessions_of. cbn. repeat split; try lia. set_solver. }
  destruct (IH (count_transition (st_session_id e.1) (is_completed e.1) e.2.1 e.2.2 v)) as (-> & -> & -> & ->).
  unfold count_of, sessions_of. rewrite !filter_cons.
  cbn [count_transition ta_transition_count ta_same_step ta_cross_step ta_sessions map list_to_set].
  repeat split; [cbn [length]; lia| | |set_solver];
    destruct (rec_step e.2.1 =? rec_step e.2.2); cbn [Z.b2z negb length]; repeat case_decide; cbn [length]; try done; lia.
Qed.

Lemma fold_cycles (l : list (AgentState * list AgentAction)) v :
  let v' := foldl (fun v e => count_cycle (st_session_id e.1) (is_completed e.1) v) v l in
  ca_cycle_count v' = ca_cycle_count v + Z.of_nat (length l) ∧ ca_sessions v' = sessions_of l ∪ ca_sessions v.
Proof.
  revert v. induction l as [|e l IH]; intros v; cbn [foldl].
  { unfold sessions_of. cbn. repeat split; try lia. set_solver. }
  destruct (IH (count_cycle (st_session_id e.1) (is_completed e.1) v)) as (-> & ->). unfold sessions_of.
  cbn [count_cycle ca_cycle_count ca_sessions length map list_to_set]. split; [lia|set_solver].
Qed.

(** The entries of a table that starts empty. *)
Lemma dd_fold_entry {K V X} `{EqDecision K} (fresh : V) (key : X → K) (f : X → V → V) l k v :
  (k, v) ∈ dd_fold fresh key f l []
  ↔ (∃ x, x ∈ l ∧ key x = k) ∧ v = foldl (fun v x => f x v) fresh (filter (fun x => key x = k) l).
Proof.
  rewrite <- dd_get_elem by (apply dd_fold_keys; constructor). rewrite dd_fold_get. cbn.
  destruct (filter _ l) as [|x rest] eqn:E.
  - split; [done|]. intros [(x & Hx & Hk) _]. exfalso. apply (not_elem_of_nil x). rewrite <- E. by apply list_elem_of_filter.
  - assert (Hx : x ∈ filter (fun x => key x = k) l) by (rewrite E; by left). apply list_elem_of_filter in Hx as [Hk Hx].
    split; [intros [= <-]; split; [by exists x|done]|]. intros [_ ->]. done.
Qed.

Lemma elem_of_py_sorted {A} (le : A → A → bool) l x : x ∈ py_sorted le l ↔ x ∈ l.
Proof. by rewrite py_sorted_perm. Qed.

Lemma elem_of_events {X} (h : AgentState → list X) states e : e ∈ events h states ↔ e.1 ∈ states ∧ e.2 ∈ h e.1.
Proof.
  unfold events. rewrite list_elem_of_In, in_concat. split.
  - intros (l & Hl & He). apply in_map_iff in Hl as (s & <- & Hs). apply in_map_iff in He as (x & <- & Hx).
    cbn. by rewrite !list_elem_of_In.
  - intros [Hs Hx]. exists (map (pair e.1) (h e.1)). split.
    + apply in_map_iff. exists e.1. by rewrite <- list_elem_of_In.
    + apply in_map_iff. exists e.2. rewrite <- list_elem_of_In. by destruct e.
Qed.

Lemma length_events {X} (h : AgentState → list X) states :
  Z.of_nat (length (events h states)) = zsum (map (fun s => Z.of_nat (length (h s))) states).
Proof.
  induction states as [|s states IH]; [done|]. unfold events in *. cbn [map concat]. rewrite length_app, length_map, zsum_cons. lia.
Qed.

Lemma safe_rate_range n d : 0 <= n <= d → (0 <= safe_rate n d <= 1)%Q.
Proof.
  intros Hn. unfold safe_rate. destruct (Z.leb_spec d 0); [split; lra|].
  assert (Hd : (0 < inject_Z d)%Q) by (change 0%Q with (inject_Z 0); by rewrite <- Zlt_Qlt).
  apply (round_n_range 4 _ 0 1).
  - apply Qle_shift_div_l; [done|]. rewrite Qmult_0_l. change 0%Q with (inject_Z 0). rewrite <- Zle_Qle. lia.
  - apply Qle_shift_div_r; [done|]. rewrite Qmult_1_l. rewrite <- Zle_Qle. lia.
Qed.

Lemma count_of_range {A} (p : A → bool) (l : list A) : 0 <= count_of p l <= Z.of_nat (length l).
Proof. unfold count_of. pose proof (length_filter (λ a, p a = true) l). lia. Qed.

(** ** The execution baseline counts what happened *)

(** The rates of an aggregate are rates. *)
Definition aggregate_ok (x : ExecutionAggregate) : Prop :=
  0 <= xa_completed_session_count x <= xa_session_count x
  ∧ (0 <= xa_completion_rate x <= 1)%Q ∧ (0 <= xa_step_compression_rate x <= 1)%Q.

Lemma aggregate_states_ok states : aggregate_ok (aggregate_states states).
Proof.
  unfold aggregate_states, aggregate_ok. cbn.
  pose proof (count_of_range is_completed states) as Hc. unfold count_of in Hc.
  split; [exact Hc|]. split; [by apply safe_rate_range|]. apply safe_rate_range. unfold total_actions.
  clear Hc. induction states as [|s states IH]; cbn [map]; rewrite ?zsum_cons; [done|].
  pose proof (count_of_range rec_compressed (history_of s)). lia.
Qed.

Lemma count_of_cons {A} (p : A → bool) x (l : list A) : count_of p (x :: l) = Z.b2z (p x) + count_of p l.
Proof. unfold count_of. rewrite filter_cons. destruct (p x); case_decide; try done; cbn [length Z.b2z]; lia. Qed.

Lemma count_of_split {A} (p : A → bool) (l : list A) : count_of p l + count_of (λ a, negb (p a)) l = Z.of_nat (length l).
Proof.
  induction l as [|x l IH]; [done|]. rewrite !count_of_cons. destruct (p x); cbn [negb Z.b2z length]; lia.
Qed.

(** ** Rankings *)

Lemma insert_sorted_by {A} (le : A → A → bool) (R : A → A → Prop) x l :
  (∀ x y, le x y = true → R x y) → (∀ x y, le x y = false → R y x) → Transitive R →
  StronglySorted R l → StronglySorted R (insert_sorted le x l).
Proof.
  intros Hle Hgt Htr. induction 1 as [|y l Hl IH Hy]; cbn; [repeat constructor|]. destruct (le x y) eqn:E.
  - apply Hle in E. constructor; [by constructor|]. constructor; [done|]. eapply Forall_impl; [exact Hy|]. intros z. by apply Htr.
  - apply Hgt in E. constructor; [done|]. rewrite insert_sorted_perm. by constructor.
Qed.

Lemma py_sorted_by {A} (le : A → A → bool) (R : A → A → Prop) l :
  (∀ x y, le x y = true → R x y) → (∀ x y, le x y = false → R y x) → Transitive R → StronglySorted R (py_sorted le l).
Proof. intros Hle Hgt Htr. induction l as [|x l IH]; cbn; [constructor|by apply insert_sorted_by]. Qed.

(** The first rows of a ranking are its rows, and no other row has a larger count. *)
Lemma top_rows {A} (count : A → Z) (rest : A → A → bool) (l : list A) (n : nat) x y :
  let ranked := py_sorted (larger_first count rest) l in
  x ∈ take n ranked → x ∈ l ∧ (y ∈ l → y ∈ take n ranked ∨ count y <= count x).
Proof.
  intros ranked Hx.
  assert (Hs : StronglySorted (λ x y, count y <= count x) ranked).
  { apply py_sorted_by.
    - intros a b. unfold larger_first. intros [?%Z.ltb_lt|[?%Z.eqb_eq _]%andb_prop]%orb_prop; lia.
    - intros a b [?%Z.ltb_ge _]%orb_false_elim. lia.
    - intros a b c. lia. }
  rewrite <- (take_drop n ranked) in Hs. split.
  - apply (elem_of_py_sorted (larger_first count rest)). fold ranked. rewrite <- (take_drop n ranked), elem_of_app. by left.
  - rewrite <- (elem_of_py_sorted (larger_first count rest)). fold ranked.
    rewrite <- (take_drop n ranked) at 1. rewrite elem_of_app. intros [Hy|Hy]; [by left|right].
    revert Hs Hx. generalize (take n ranked) as t. induction t as [|z t IH]; cbn; intros Hs Hx; [by apply not_elem_of_nil in Hx|].
    apply StronglySorted_inv in Hs as [Hs Hz]. apply elem_of_cons in Hx as [->|Hx]; [|by apply IH].
    rewrite Forall_forall in Hz. apply Hz, elem_of_app. by right.
Qed.

Definition executed (states : list AgentState) (a : AgentAction) : list (AgentState * ActionRecord) :=
  filter (λ e, rec_action e.2 = a) (events history_of states).
Definition taken (states : list AgentState) (a b : AgentAction) : list (AgentState * (ActionRecord * ActionRecord)) :=
  filter (λ e, (rec_action e.2.1, rec_action e.2.2) = (a, b)) (events transitions_of states).
Definition cycled (span : Z) (states : list AgentState) (k : list AgentAction) : list (AgentState * list AgentAction) :=
  filter (λ e, e.2 = k) (events (cycles_of span) states).

Section Rows.
Context (span : Z) (states : list AgentState).
Notation tables := (execution_tables span states).

Lemma action_rows a v :
  (a, v) ∈ et_actions tables
  ↔ (∃ s x, s ∈ states ∧ x ∈ history_of s ∧ rec_action x = a)
    ∧ v = foldl (λ v e, count_action (st_session_id e.1) e.2 v) no_actions (executed states a).
Proof.
  destruct (execution_tables_folds span states) as (_ & -> & _). rewrite dd_fold_entry. apply and_iff_compat_r. split.
  - intros (e & [Hs Hx]%elem_of_events & Ha). by exists e.1, e.2.
  - intros (s & x & Hs & Hx & Ha). exists (s, x). by rewrite elem_of_events.
Qed.

Lemma action_stats_rows x :
  x ∈ action_stats tables →
  ax_execution_count x = Z.of_nat (length (executed states (ax_action x)))
  ∧ ax_success_count x = count_of (λ e, rec_success e.2) (executed states (ax_action x))
  ∧ ax_success_count x + ax_failure_count x = ax_execution_count x
  ∧ ax_session_count x = Z.of_nat (size (sessions_of (executed states (ax_action x))))
  ∧ (0 <= ax_compression_rate x <= 1)%Q.
Proof.
  intros ([k v] & -> & [_ ->]%action_rows)%elem_of_py_sorted%list_elem_of_fmap.
  cbn [ax_action ax_execution_count ax_success_count ax_failure_count ax_session_count ax_compression_rate fst snd].
  destruct (fold_actions (executed states k) no_actions) as (-> & -> & -> & -> & ->).
  cbn [no_actions aa_execution_count aa_success_count aa_failure_count aa_compressed_count aa_sessions].
  rewrite !Z.add_0_l, (right_id_L ∅ (∪)). split; [done|]. split; [done|]. split; [apply count_of_split|].
  split; [done|]. apply safe_rate_range, count_of_range.
Qed.

Lemma action_stats_listed a :
  (∃ x, x ∈ action_stats tables ∧ ax_action x = a) ↔ ∃ s x, s ∈ states ∧ x ∈ history_of s ∧ rec_action x = a.
Proof.
  unfold action_stats. split.
  - intros (x & ([k v] & -> & [Hk _]%action_rows)%elem_of_py_sorted%list_elem_of_fmap & <-). exact Hk.
  - intros Ha. eexists. rewrite elem_of_py_sorted. split; [apply list_elem_of_fmap_2, action_rows; by split|done].
Qed.

Lemma zsum_perm (l k : list Z) : l ≡ₚ k → zsum l = zsum k.
Proof. induction 1; rewrite ?zsum_cons in *; lia. Qed.

Lemma zsum_sorted {A B} (le : A → A → bool) (f : A → Z) (g : B → A) (l : list B) :
  zsum (map f (py_sorted le (map g l))) = zsum (map (λ b, f (g b)) l).
Proof. rewrite (zsum_perm _ (map f (map g l))); [by rewrite map_map|]. apply Permutation_map, py_sorted_perm. Qed.

Lemma action_stats_total : zsum (map ax_execution_count (action_stats tables)) = total_actions states.
Proof.
  unfold action_stats. rewrite zsum_sorted. cbn [ax_execution_count].
  destruct (execution_tables_folds span states) as (_ & -> & _).
  rewrite (dd_fold_sum no_actions _ _ aa_execution_count (λ _, 1)); [|done|done]. cbn [map].
  unfold total_actions. rewrite <- length_events. generalize (events history_of states) as l.
  induction l as [|e l IH]; [done|]. cbn [map length]. rewrite zsum_cons. change (zsum []) with 0 in *. lia.
Qed.

Lemma transition_stats_rows x :
  x ∈ transition_stats tables →
  ts_transition_count x = Z.of_nat (length (taken states (ts_from_action x) (ts_to_action x)))
  ∧ 0 < ts_transition_count x
  ∧ ts_same_physical_step_count x + ts_cross_physical_step_count x = ts_transition_count x
  ∧ ts_session_count x = Z.of_nat (size (sessions_of (taken states (ts_from_action x) (ts_to_action x)))).
Proof.
  intros ([[a b] v] & -> & Hkv)%elem_of_py_sorted%list_elem_of_fmap.
  destruct (execution_tables_folds span states) as (_ & _ & E & _). rewrite E in Hkv.
  apply dd_fold_entry in Hkv as [(e & He & Hk) ->]. fold (taken states a b).
  cbn [ts_transition_count ts_from_action ts_to_action ts_same_physical_step_count ts_cross_physical_step_count ts_session_count fst snd].
  destruct (fold_transitions (taken states a b) no_transitions) as (-> & Hsum & _ & ->).
  cbn [no_transitions ta_transition_count ta_same_step ta_cross_step ta_sessions] in *.
  rewrite Hsum, !Z.add_0_l, (right_id_L ∅ (∪)). split; [done|]. split; [|done].
  assert (Hin : e ∈ taken states a b) by by apply list_elem_of_filter.
  destruct (taken states a b); [by apply not_elem_of_nil in Hin|]. cbn [length]. lia.
Qed.

Lemma cycle_stats_rows x :
  x ∈ cycle_stats tables →
  cs_cycle_count x = Z.of_nat (length (cycled span states (cs_actions x)))
  ∧ ∃ s p i, s ∈ states ∧ cycle_at span (map rec_action (history_of s)) p i
      ∧ cs_actions x = segment (map rec_action (history_of s)) p i
      ∧ cs_transition_span x = Z.of_nat i - Z.of_nat p.
Proof.
  intros ([k v] & -> & Hkv)%elem_of_py_sorted%list_elem_of_fmap.
  destruct (execution_tables_folds span states) as (_ & _ & _ & E). rewrite E in Hkv.
  apply dd_fold_entry in Hkv as [([s k'] & [Hs Hk']%elem_of_events & <-) ->]. cbn [fst snd] in *. fold (cycled span states k').
  cbn [cs_cycle_count cs_actions cs_transition_span]. split.
  { destruct (fold_cycles (cycled span states k') no_cycles) as [-> _]. done. }
  apply cycle_keys_all in Hk' as (p & i & Hc & ->). exists s, p, i. do 3 (split; [done|]).
  destruct Hc as (Hp & _ & a & _ & Hi & _). apply lookup_lt_Some in Hi. unfold segment.
  rewrite length_take, length_drop. lia.
Qed.

Lemma city_baselines_total :
  zsum (map (λ c, xa_session_count (cb_aggregate c)) (city_baselines tables)) = Z.of_nat (length states).
Proof.
  unfold city_baselines. rewrite zsum_sorted. cbn [cb_aggregate aggregate_states xa_session_count].
  destruct (execution_tables_folds span states) as (-> & _).
  rewrite (dd_fold_sum [] _ _ (λ g, Z.of_nat (length g)) (λ _, 1)); [|done|intros; rewrite length_app; cbn; lia]. cbn [map].
  clear. induction states as [|s l IH]; [done|]. cbn [map length]. rewrite zsum_cons. change (zsum []) with 0 in *. lia.
Qed.
End Rows.


(** ** The quality baseline accounts for every session *)

(** Every session has one outcome, and the rates are rates. *)
Definition quality_ok (x : QualityAggregate) : Prop :=
  qa_full_completed_count x + qa_partial_completed_count x + qa_failed_count x + qa_in_progress_count x = qa_session_count x
  ∧ 0 <= qa_full_completed_count x ∧ 0 <= qa_partial_completed_count x ∧ 0 <= qa_failed_count x
  ∧ 0 <= qa_in_progress_count x
  ∧ 0 <= qa_scored_session_count x <= qa_session_count x
  ∧ (0 <= qa_full_completion_rate x <= 1)%Q ∧ (0 <= qa_partial_completion_rate x <= 1)%Q
  ∧ (0 <= qa_success_rate x <= 1)%Q ∧ (0 <= qa_failure_rate x <= 1)%Q.

Lemma outcomes_add_up states :
  let count o := count_of (fun s => bool_decide (outcome_of s = o)) states in
  count full_outcome + count partial_outcome + count failed_outcome + count in_progress_outcome = Z.of_nat (length states).
Proof.
  assert (Hone : ∀ o, Z.b2z (bool_decide (o = full_outcome)) + Z.b2z (bool_decide (o = partial_outcome))
            + Z.b2z (bool_decide (o = failed_outcome)) + Z.b2z (bool_decide (o = in_progress_outcome)) = 1) by by intros [].
  cbv zeta. induction states as [|s states IH]; [done|]. rewrite !count_of_cons. cbn [length].
  specialize (Hone (outcome_of s)). lia.
Qed.

Lemma length_scores states : Z.of_nat (length (scores_of states)) <= Z.of_nat (length states).
Proof. unfold scores_of. induction states as [|s states IH]; [done|]. cbn. destruct (ev_acceptance _); cbn; lia. Qed.

Lemma aggregate_quality_ok states : quality_ok (aggregate_quality states).
Proof.
  pose proof (outcomes_add_up states) as Hsum. cbv zeta in Hsum. pose proof (length_scores states) as Hscores.
  assert (Hnn : ∀ o, 0 <= count_of (fun s => bool_decide (outcome_of s = o)) states) by (intros o; apply count_of_range).
  pose proof (Hnn full_outcome). pose proof (Hnn partial_outcome). pose proof (Hnn failed_outcome).
  pose proof (Hnn in_progress_outcome). unfold aggregate_quality, quality_ok. cbn.
  repeat (split; [first [exact Hsum|done|lia|apply safe_rate_range; lia]|]). apply safe_rate_range. lia.
Qed.

(** The average score stays among the scores. *)
Lemma quality_score_range states lo hi :
  (lo <= 0 <= hi) → Forall (λ q, inject_Z lo <= q <= inject_Z hi)%Q (scores_of states) →
  (inject_Z lo <= qa_avg_quality_score (aggregate_quality states) <= inject_Z hi)%Q.
Proof.
  intros Hz Hq. cbn. unfold safe_average. destruct (Z.leb_spec (Z.of_nat (length (scores_of states))) 0).
  - change 0%Q with (inject_Z 0). rewrite <- !Zle_Qle. lia.
  - assert (Hne : scores_of states ≠ []) by (intros E; rewrite E in *; cbn in *; lia).
    pose proof (mean_between (scores_of states) lo hi Hne Hq) as [H1 H2]. by apply round_n_range.
Qed.

(** A dimension: one row per value, about the sessions with that value. *)
Lemma foldl_snoc {A} (l g : list A) : foldl (fun g a => g ++ [a])%list g l = (g ++ l)%list.
Proof. revert g. induction l as [|a l IH]; intros g; cbn; [by rewrite app_nil_r|]. by rewrite IH, <- app_assoc. Qed.

Lemma dimension_row dim (key : AgentState → string) states row :
  row ∈ dimension_rows dim (group_into key [] states)
  ↔ ∃ s, s ∈ states ∧ row = mkDimension dim (key s) (aggregate_quality (filter (λ x, key x = key s) states)).
Proof.
  unfold dimension_rows. rewrite elem_of_py_sorted. split.
  - intros ([k g] & -> & Hkg)%list_elem_of_fmap.
    apply (dd_fold_entry [] key (fun s g => g ++ [s])%list) in Hkg as [(s & Hs & <-) ->].
    exists s. split; [done|]. cbn [fst snd]. by rewrite foldl_snoc.
  - intros (s & Hs & ->). apply list_elem_of_fmap. exists (key s, filter (λ x, key x = key s) states). split; [done|].
    apply (dd_fold_entry [] key (fun s g => g ++ [s])%list). split; [by exists s|]. by rewrite foldl_snoc.
Qed.

Lemma dimension_total dim (key : AgentState → string) states :
  zsum (map (λ r, qa_session_count (qd_aggregate r)) (dimension_rows dim (group_into key [] states)))
  = Z.of_nat (length states).
Proof.
  unfold dimension_rows. rewrite zsum_sorted. cbn [qd_aggregate aggregate_quality qa_session_count].
  change (group_into key [] states) with (dd_fold [] key (fun s g => g ++ [s])%list states []).
  rewrite (dd_fold_sum [] _ _ (λ g, Z.of_nat (length g)) (λ _, 1)); [|done|intros; rewrite length_app; cbn; lia]. cbn [map].
  induction states as [|s l IH]; [done|]. cbn [map length]. rewrite zsum_cons. change (zsum []) with 0 in *. lia.
Qed.

(** *** Problems *)

Lemma dedup_from_spec seen l : NoDup (dedup_from seen l) ∧ ∀ x, x ∈ dedup_from seen l → x ∉ seen.
Proof.
  revert seen. induction l as [|x l IH]; intros seen; cbn; [split; [constructor|by intros ? ?%not_elem_of_nil]|].
  destruct (existsb (String.eqb x) seen) eqn:E; [apply IH|]. destruct (IH (x :: seen)) as [Hnd Hnew].
  assert (Hx : x ∉ seen).
  { intros Hx. apply not_true_iff_false in E. apply E, existsb_exists. exists x. rewrite <- list_elem_of_In.
    split; [done|apply String.eqb_refl]. }
  split.
  - constructor; [|done]. intros Hin. apply (Hnew x Hin). by left.
  - intros y [->|Hy]%elem_of_cons; [done|]. intros Hs. apply (Hnew y Hy). by right.
Qed.

Lemma issue_codes_once s : NoDup (state_issue_codes s).
Proof. unfold state_issue_codes. destruct (ev_acceptance _); [apply dedup_from_spec|constructor]. Qed.

(** The sessions with a problem. *)
Definition with_issue (code : string) (states : list AgentState) : list AgentState :=
  filter (λ s, code ∈ state_issue_codes s) states.

Lemma with_issue_among code (P : AgentState → Prop) `{∀ s, Decision (P s)} states :
  (length (with_issue code (filter P states)) <= length (with_issue code states))%nat.
Proof.
  unfold with_issue. induction states as [|s states IH]; [done|]. rewrite (filter_cons P), (filter_cons _ s states).
  repeat case_decide; rewrite ?filter_cons; repeat case_decide; cbn [length]; try done; lia.
Qed.

Lemma length_code_events code states :
  length (filter (λ e, e.2 = code) (events state_issue_codes states)) = length (with_issue code states).
Proof.
  unfold events, with_issue. induction states as [|s states IH]; [done|]. cbn [map concat].
  rewrite filter_app, length_app, filter_cons, IH. pose proof (issue_codes_once s) as Hnd. clear IH.
  assert (E : length (filter (λ e : AgentState * string, e.2 = code) (map (pair s) (state_issue_codes s)))
              = if decide (code ∈ state_issue_codes s) then 1%nat else 0%nat).
  { revert Hnd. induction (state_issue_codes s) as [|c l IH]; intros Hnd; [done|]. apply NoDup_cons in Hnd as [Hc Hnd].
    cbn [map]. rewrite filter_cons. cbn [snd].
    destruct (decide (c = code)) as [->|Hne]; cbn [length]; rewrite (IH Hnd).
    - rewrite decide_False, decide_True by (done || by left). done.
    - destruct (decide (code ∈ l)); [rewrite decide_True by (by right)|rewrite decide_False by (by intros [->|?]%elem_of_cons)]; done. }
  rewrite E. destruct (decide (code ∈ state_issue_codes s)); done.
Qed.

Lemma issue_rows states x :
  x ∈ common_issues states →
  qi_session_count x = Z.of_nat (length (with_issue (qi_issue_code x) states))
  ∧ 0 < qi_session_count x ∧ qi_occurrence_count x = qi_session_count x
  ∧ qi_partial_session_count x
    = Z.of_nat (length (with_issue (qi_issue_code x) (filter (λ s, infer_completion_mode s = Some mode_partial) states))).
Proof.
  assert (Hcount : ∀ (l : list (AgentState * string)) n, foldl (λ v _, 1 + v) n l = n + Z.of_nat (length l)).
  { intros l. induction l as [|y l IH]; intros n; cbn [foldl length]; [lia|]. rewrite IH. lia. }
  assert (Hfold : ∀ states, foldl (λ d s, count_into d (state_issue_codes s)) [] states
            = dd_fold 0 snd (λ _, Z.add 1) (events state_issue_codes states) []).
  { intros l. unfold count_into, dd_fold.
    apply (foldl_events (λ s d k, dd_update 0 k (Z.add 1) d) state_issue_codes l []). }
  assert (Hpartial : ∀ l d, foldl (λ d s, if bool_decide (infer_completion_mode s = Some mode_partial)
                      then count_into d (state_issue_codes s) else d) d l
                    = foldl (λ d s, count_into d (state_issue_codes s)) d
                        (filter (λ s, infer_completion_mode s = Some mode_partial) l)).
  { intros l. induction l as [|s l IH]; intros d; [done|]. cbn [foldl]. rewrite IH, filter_cons. unfold bool_decide.
    destruct (decide_rel _ _ _); case_decide; done. }
  intros ([k n] & -> & Hk)%elem_of_py_sorted%list_elem_of_fmap.
  cbn [qi_session_count qi_issue_code qi_occurrence_count qi_partial_session_count fst snd].
  rewrite Hfold in Hk. apply dd_fold_entry in Hk as [(e & He & Hek) ->]. rewrite Hcount, length_code_events, Z.add_0_l.
  split; [done|]. split; [|split; [done|]].
  - rewrite <- length_code_events. assert (Hin : e ∈ filter (λ e, e.2 = k) (events state_issue_codes states)) by by apply list_elem_of_filter.
    destruct (filter _ _); [by apply not_elem_of_nil in Hin|]. cbn [length]. lia.
  - rewrite Hpartial, Hfold, dd_fold_get. rewrite <- length_code_events. cbn [dd_get find option_map].
    destruct (filter _ (events _ _)) as [|e' l]; [done|]. cbn [default]. rewrite Hcount. cbn. lia.
Qed.

Lemma level_row dim states row :
  row ∈ dimension_rows dim (level_groups states)
  ↔ ∃ level, (∃ s, s ∈ states ∧ state_quality_level s = Some level)
      ∧ row = mkDimension dim (level_text level)
                (aggregate_quality (filter (λ s, state_quality_level s = Some level) states)).
Proof.
  assert (Hinj : ∀ l l', level_text l = level_text l' → l = l') by by intros [] [].
  assert (Hleveled : ∀ ls, ls ∈ leveled states ↔ ls.2 ∈ states ∧ level_text <$> state_quality_level ls.2 = Some ls.1).
  { intros [t s]. unfold leveled. rewrite list_elem_of_omap. cbn. split.
    - intros (s' & Hs & E). destruct (state_quality_level s') as [l|] eqn:El; [|done]. cbn in E. injection E as <- <-.
      by rewrite El.
    - intros [Hs E]. exists s. destruct (state_quality_level s) as [l|]; [|done]. cbn in *. by injection E as ->. }
  assert (Hgroup : ∀ level, map snd (filter (λ ls, ls.1 = level_text level) (leveled states))
                   = filter (λ s, state_quality_level s = Some level) states).
  { intros level. unfold leveled. clear Hleveled. induction states as [|s l IH]; [done|]. cbn [omap list_omap].
    rewrite (filter_cons _ s l). destruct (state_quality_level s) as [q|]; cbn [mbind option_bind mret option_ret]; [|done].
    rewrite filter_cons. cbn [fst]. destruct (decide (level_text q = level_text level)) as [->%Hinj|Hne].
    - rewrite decide_True by done. cbn [map snd]. by f_equal.
    - rewrite decide_False by by intros [= ->]. done. }
  assert (Hfold : ∀ (l : list (string * AgentState)) g, foldl (λ g x, g ++ [x.2])%list g l = (g ++ map snd l)%list).
  { intros l. induction l as [|x l IH]; intros g; cbn [foldl map]; [by rewrite app_nil_r|]. by rewrite IH, <- app_assoc. }
  unfold dimension_rows. rewrite elem_of_py_sorted. split.
  - intros ([k g] & -> & Hkg)%list_elem_of_fmap.
    apply (dd_fold_entry [] fst (fun ls g => g ++ [ls.2])%list) in Hkg as [(ls & [Hs Hl]%Hleveled & <-) ->].
    destruct (state_quality_level ls.2) as [level|] eqn:E; [|done]. cbn in Hl. injection Hl as Hl.
    exists level. split; [by exists ls.2|]. cbn [fst snd]. rewrite Hfold, <- Hl, Hgroup. done.
  - intros (level & (s & Hs & Hl) & ->). apply list_elem_of_fmap.
    exists (level_text level, filter (λ s, state_quality_level s = Some level) states). split; [done|].
    apply (dd_fold_entry [] fst (fun ls g => g ++ [ls.2])%list). split.
    + exists (level_text level, s). split; [|done]. apply Hleveled. cbn. by rewrite Hl.
    + by rewrite Hfold, Hgroup.
Qed.

(** the quality baseline accounts for every session.  In the report and
    in each of its rows every session is complete, partial, failed or still
    running, and the rates lie between 0 and 1.  A row of a city (a length, a
    transport, a quality level) is about the sessions with exactly that value;
    the rows of the first three add up to all sessions.  A listed problem is
    counted once per session that ended with it, the partial ones among them
    apart, and no problem that is not listed was met by more sessions. *)
Theorem quality_baseline_accounts now states sample filters top_n :
  let r := build_quality_baseline now states sample filters top_n in
  quality_ok (qb_overall r) ∧ qa_session_count (qb_overall r) = Z.of_nat (length states)
  ∧ (∀ row, row ∈ (qb_cities r ++ qb_travel_days r ++ qb_transportation r ++ qb_quality_levels r)%list →
       quality_ok (qd_aggregate row) ∧ 0 < qa_session_count (qd_aggregate row))
  ∧ (∀ row, row ∈ qb_cities r ↔ ∃ s, s ∈ states
       ∧ row = mkDimension by_city (city_of s) (aggregate_quality (filter (λ x, city_of x = city_of s) states)))
  ∧ (∀ row, row ∈ qb_quality_levels r ↔ ∃ level, (∃ s, s ∈ states ∧ state_quality_level s = Some level)
       ∧ row = mkDimension by_quality_level (level_text level)
                 (aggregate_quality (filter (λ s, state_quality_level s = Some level) states)))
  ∧ Forall (λ rows, zsum (map (λ row, qa_session_count (qd_aggregate row)) rows) = Z.of_nat (length states))
      [qb_cities r; qb_travel_days r; qb_transportation r]
  ∧ (∀ x, x ∈ qb_common_issue_codes r →
       qi_session_count x = Z.of_nat (length (with_issue (qi_issue_code x) states))
       ∧ 0 <= qi_partial_session_count x <= qi_session_count x
       ∧ ∀ y, y ∈ common_issues states → y ∈ qb_common_issue_codes r ∨ qi_session_count y <= qi_session_count x).
Proof.
  intros r. assert (Hpos : ∀ (P : AgentState → Prop) `{∀ s, Decision (P s)} s, s ∈ states → P s →
            0 < qa_session_count (aggregate_quality (filter P states))).
  { intros P HP s Hs HPs. cbn. assert (Hin : s ∈ filter P states) by by apply list_elem_of_filter.
    destruct (filter P states); [by apply not_elem_of_nil in Hin|]. cbn [length]. lia. }
  split; [apply aggregate_quality_ok|]. split; [done|]. split; [|split; [|split; [|split]]].
  - intros row Hrow. rewrite !elem_of_app in Hrow.
    destruct Hrow as [Hrow|[Hrow|[Hrow|Hrow]]]; [apply dimension_row in Hrow as (s & Hs & ->)..|].
    1-3: split; [apply aggregate_quality_ok|by apply (Hpos _ _ s)].
    apply level_row in Hrow as (level & (s & Hs & Hl) & ->). split; [apply aggregate_quality_ok|by apply (Hpos _ _ s)].
  - intros row. apply dimension_row.
  - intros row. apply level_row.
  - repeat constructor; apply dimension_total.
  - intros x Hx. assert (Hin : x ∈ common_issues states).
    { unfold common_issues. rewrite elem_of_py_sorted. by apply (top_rows _ _ _ _ x x Hx). }
    apply issue_rows in Hin as (Hc & _ & _ & ->). split; [done|]. split.
    + rewrite Hc. split; [lia|]. apply inj_le, with_issue_among.
    + intros y Hy. apply (top_rows _ _ _ _ x y Hx). unfold common_issues in Hy. by rewrite elem_of_py_sorted in Hy.
Qed.

(** ** The fixed acceptance *)

(** [s] is a session of the request that no other session of it was updated after. *)
Definition newest (states : list AgentState) (k : RequestSignature) (s : AgentState) : Prop :=
  s ∈ states ∧ request_signature (st_request s) = k
  ∧ ∀ s', s' ∈ states → request_signature (st_request s') = k →
      lc_updated_at (st_life s') <= lc_updated_at (st_life s).

Lemma latest_spec states k :
  match dd_get k (latest_by_signature states) with
  | Some s => newest states k s
  | None => ∀ s, s ∈ states → request_signature (st_request s) ≠ k
  end.
Proof.
  induction states as [|s states IH] using rev_ind; [by intros s ?%not_elem_of_nil|].
  unfold latest_by_signature in *. rewrite foldl_app. cbn [foldl].
  set (d := foldl _ [] states) in *. clearbody d. set (ks := request_signature (st_request s)).
  assert (Hset : dd_get k (dd_set ks s d) = if decide (k = ks) then Some s else dd_get k d) by apply dd_get_update.
  assert (Hold : ks ≠ k → match dd_get k d with
                          | Some s' => newest (states ++ [s]) k s'
                          | None => ∀ s', s' ∈ (states ++ [s])%list → request_signature (st_request s') ≠ k
                          end).
  { intros Hne. destruct (dd_get k d) as [s'|].
    - destruct IH as (Hin & Hk & Hmax). split; [apply elem_of_app; by left|]. split; [done|].
      intros u [Hu| ->%list_elem_of_singleton]%elem_of_app Huk; [by apply Hmax|done].
    - intros u [Hu| ->%list_elem_of_singleton]%elem_of_app; [by apply IH|done]. }
  assert (Hnew : ks = k → (∀ s', s' ∈ states → request_signature (st_request s') = k →
                             lc_updated_at (st_life s') <= lc_updated_at (st_life s)) → newest (states ++ [s]) k s).
  { intros Hk Hmax. split; [apply elem_of_app; right; by left|]. split; [done|].
    intros u [Hu| ->%list_elem_of_singleton]%elem_of_app Huk; [by apply Hmax|done]. }
  destruct (decide (k = ks)) as [Hk|Hne].
  - symmetry in Hk. rewrite Hk in *. destruct (dd_get k d) as [s'|] eqn:E.
    + destruct IH as (Hin & Hks & Hmax). destruct (Z.ltb_spec (lc_updated_at (st_life s')) (lc_updated_at (st_life s))).
      * rewrite Hset. apply Hnew; [done|]. intros u Hu Huk. specialize (Hmax u Hu Huk). lia.
      * rewrite E. split; [apply elem_of_app; by left|]. split; [done|].
        intros u [Hu| ->%list_elem_of_singleton]%elem_of_app Huk; [by apply Hmax|lia].
    + rewrite Hset. apply Hnew; [done|]. intros u Hu Huk. by destruct (IH u Hu).
  - assert (Hkeep : dd_get k (dd_set ks s d) = dd_get k d) by done.
    destruct (dd_get ks d) as [s'|]; [destruct (_ <? _)|]; rewrite ?Hkeep; apply Hold; congruence.
Qed.

(** The fifteen fixed requests differ. *)
Lemma fixed_scenarios :
  FIXED_ACCEPTANCE_SCENARIOS = build_fixed_acceptance_scenarios
  ∧ length FIXED_ACCEPTANCE_SCENARIOS = 15%nat
  ∧ NoDup (map (λ n, request_signature (sn_request n)) FIXED_ACCEPTANCE_SCENARIOS)
  ∧ NoDup (map sn_case_id FIXED_ACCEPTANCE_SCENARIOS).
Proof.
  split; [vm_compute; reflexivity|]. split; [reflexivity|].
  split; apply (bool_decide_unpack (NoDup _)); vm_compute; exact I.
Qed.

Section FixedAcceptance.
Context `{HashEnv}.

Definition case_counts (r : FixedAcceptanceBaselineReport) : Prop :=
  fb_covered_case_count r + fb_missing_case_count r = fb_total_case_count r
  ∧ fb_passed_case_count r + fb_failed_case_count r = fb_covered_case_count r
  ∧ (0 <= fb_coverage_rate r <= 1)%Q ∧ (0 <= fb_overall_pass_rate r <= 1)%Q ∧ (0 <= fb_evaluated_pass_rate r <= 1)%Q.

Lemma case_statuses (cases : list AcceptanceCaseResult) :
  count_of (λ c, bool_decide (cr_status c = case_passed)) cases
  + count_of (λ c, bool_decide (cr_status c = case_failed)) cases
  = count_of (λ c, negb (bool_decide (cr_status c = case_missing))) cases.
Proof.
  assert (Hone : ∀ st, Z.b2z (bool_decide (st = case_passed)) + Z.b2z (bool_decide (st = case_failed))
            = Z.b2z (negb (bool_decide (st = case_missing)))) by by intros [].
  induction cases as [|c cases IH]; [done|]. rewrite !count_of_cons. specialize (Hone (cr_status c)). lia.
Qed.

Lemma case_counts_ok now states limit sampled invalid scenarios :
  case_counts (build_fixed_acceptance_baseline now states limit sampled invalid scenarios).
Proof.
  unfold build_fixed_acceptance_baseline, case_counts. cbn. set (cases := map _ _). clearbody cases.
  pose proof (case_statuses cases) as Hsplit.
  pose proof (count_of_range (λ c, bool_decide (cr_status c = case_passed)) cases).
  pose proof (count_of_range (λ c, bool_decide (cr_status c = case_failed)) cases).
  pose proof (count_of_range (λ c, negb (bool_decide (cr_status c = case_missing))) cases).
  split; [lia|]. split; [exact Hsplit|]. split; [apply safe_rate_range; lia|]. split; apply safe_rate_range; lia.
Qed.

(** A session passes a scenario when every check passes. *)
Lemma case_passes scenario s :
  cr_status (evaluate_acceptance_case scenario s) = case_passed
  ↔ Forall (λ c, ck_passed c = true) (acceptance_checks scenario s).
Proof.
  unfold evaluate_acceptance_case. cbn [cr_status]. generalize (acceptance_checks scenario s) as l. induction l as [|c l IH]; [split; [constructor|done]|].
  rewrite Forall_cons, filter_cons. destruct (ck_passed c).
  - rewrite decide_False by done. rewrite IH. naive_solver.
  - rewrite decide_True by done. split; [done|]. by intros [? _].
Qed.

(** The checks of a scenario, read as one condition on the session. *)
Definition meets (scenario : AcceptanceScenario) (s : AgentState) : Prop :=
  let th := sn_thresholds scenario in
  lc_status (st_life s) = completed
  ∧ (∃ m, infer_completion_mode s = Some m ∧ m ∈ th_allowed_completion_modes th)
  ∧ (∃ a, ev_acceptance (st_evals s) = Some a ∧ (th_min_quality_score th <= pa_quality_score a)%Q)
  ∧ (∃ p, fa_trip_plan (st_facts s) = Some p ∧ plan_identity p = request_identity (sn_request scenario)
          ∧ th_min_attractions_per_day th <= minimum_attractions p)
  ∧ (∃ r, ev_route_quality (st_evals s) = Some r ∧ rq_unavailable_legs r <= th_max_unavailable_route_legs th)
  ∧ (∃ r, ev_commute (st_evals s) = Some r ∧ cm_excessive_segment_count r <= th_max_excessive_commute_segments th)
  ∧ (∃ r, ev_schedule (st_evals s) = Some r ∧ sq_total_overtime_minutes r <= th_max_schedule_overtime_minutes th)
  ∧ (∃ r, ev_constraints (st_evals s) = Some r ∧ ct_error_count r <= th_max_constraint_errors th)
  ∧ lc_current_step (st_life s) <= th_max_physical_steps th
  ∧ us_llm_call_count (st_usage s) <= th_max_llm_calls th.

Lemma meets_checks scenario s :
  Forall (λ c, ck_passed c = true) (acceptance_checks scenario s) ↔ meets scenario s.
Proof.
  unfold acceptance_checks, meets, is_completed, limit_check. cbv zeta.
  rewrite !Forall_cons, Forall_nil. cbn [ck_passed]. rewrite !bool_decide_eq_true, !Z.leb_le.
  destruct (infer_completion_mode s) as [m|]; [rewrite bool_decide_eq_true|];
    destruct (ev_acceptance _) as [a|]; cbn [fmap option_fmap option_map]; rewrite ?Qle_bool_iff;
    destruct (fa_trip_plan _) as [p|]; rewrite ?bool_decide_eq_true;
    destruct (ev_route_quality _), (ev_commute _), (ev_schedule _), (ev_constraints _); rewrite ?Z.leb_le; naive_solver.
Qed.

End FixedAcceptance.

(** ** What the numbers leave out *)

(** A cancelled session counts as one that is still running. *)
Lemma cancelled_counts_in_progress s :
  lc_status (st_life s) = cancelled → outcome_of s = in_progress_outcome.
Proof. unfold outcome_of, infer_completion_mode. intros ->. reflexivity. Qed.

(** The SQLite report of one user never says that its sample was cut off. *)
Lemma sqlite_user_sample_never_truncated matches uid limit db requested :
  let '(states, matching, sampled, invalid) := SqliteSessions.sampled_states matches (Some uid) limit db in
  truncated (mkSampleCounts requested matching sampled invalid) = false.
Proof.
  unfold SqliteSessions.sampled_states, truncated. cbn [sc_sampled_row_count sc_matching_session_count].
  apply Z.ltb_ge, inj_le. etransitivity; [apply length_filter|].
  generalize (take limit (recent_first (filter (λ kr, matches kr.2 = true) (session_list db)))) as l.
  induction l as [|kr l IH]; [done|]. cbn. destruct (se_state_json kr.2); cbn; lia.
Qed.
