(* ===== verification/AmapCache.v ===== *)
(** The layered cache of the map provider: the TTL policy, the versioned JSON
    envelope, the Redis store (L1), the table of the database (L2) and the two
    levels together (src/app/infrastructure/cache, src/app/infrastructure/redis/cache_store.py,
    src/app/memory/sqlite_route_cache.py, src/app/providers/amap/layered_cache.py).

    What the outside does during a call is an argument of the call: the clock
    readings, what the Redis server answers ([RedisReply]) and whether the
    database is reachable. *)

From S2P Require Import Prelude PyData.
From Stdlib Require Import ZArith QArith Lia String.
From stdpp Require Import base tactics option list gmap strings.

Open Scope string_scope.
Open Scope Z_scope.

Create HintDb cache.

(** ** Counters *)

Notation Metrics := (gmap string Z).
Definition bump (field : string) (m : Metrics) : Metrics :=
  <[field := default 0 (m !! field) + 1]> m.
Definition count (field : string) (m : Metrics) : Z := default 0 (m !! field).

Lemma count_bump f g m : count f (bump g m) = count f m + (if String.eqb f g then 1 else 0).
Proof.
  unfold count, bump. destruct (String.eqb_spec f g) as [->|Hne].
  - by rewrite lookup_insert_eq.
  - rewrite lookup_insert_ne by congruence. lia.
Qed.

(** ** TTL policy (cache/ttl.py) *)

Record CacheTTLDecision := mkDecision {
  td_cacheable : bool; td_seconds : option Z; td_adjusted : bool; td_reason : option string
}.

Record CacheTTLPolicy := mkPolicy { tp_default : Z; tp_min : Z; tp_max : Z }.

(** The checks of [__post_init__]. *)
Definition policy_ok (p : CacheTTLPolicy) : bool :=
  (0 <? tp_min p) && (tp_min p <=? tp_max p)
  && (tp_min p <=? tp_default p) && (tp_default p <=? tp_max p).

Definition resolve_ttl (p : CacheTTLPolicy) (ttl_seconds : option Z) : CacheTTLDecision :=
  let requested := default (tp_default p) ttl_seconds in
  if requested <=? 0 then mkDecision false None false (Some "non_positive_ttl")
  else if requested <? tp_min p
  then mkDecision true (Some (tp_min p)) true (Some "clamped_to_minimum")
  else if tp_max p <? requested
  then mkDecision true (Some (tp_max p)) true (Some "clamped_to_maximum")
  else mkDecision true (Some requested) false None.

(** ** The envelope (cache/serialization.py) *)

(** [datetime.isoformat] and [datetime.fromisoformat] of the standard library;
    [read_iso] finds an aware time only. *)
Class DatetimeText := { iso : datetime → string; read_iso : string → option datetime }.
Class DatetimeTextLaws `{DatetimeText} := read_iso_iso t : read_iso (iso t) = Some t.

(** What a Redis key holds: the JSON value of the bytes, [None] when they are
    not UTF-8 JSON. *)
Definition RawText := option json.

Record CacheEnvelope := mkEnvelope {
  ce_schema_version : Z; ce_created_at : datetime; ce_expires_at : datetime; ce_payload : json
}.

Section Envelope.
Context `{DatetimeText}.

(** [CacheEnvelopeSerializer.dumps] *)
Definition dumps (schema_version : Z) (now : datetime) (payload : json) (ttl_seconds : Z)
    : result exn RawText :=
  if ttl_seconds <=? 0 then Err (ValueError "缓存 TTL 必须大于 0")
  else Ok (Some (JObj [("schema_version", JInt schema_version); ("created_at", JStr (iso now));
                       ("expires_at", JStr (iso (now + ttl_seconds * 1000000)));
                       ("payload", payload)])).

Definition envelope_fields : gset string :=
  list_to_set ["schema_version"; "created_at"; "expires_at"; "payload"].

(** A time field of the envelope. *)
Definition envelope_time (v : option json) : result exn datetime :=
  match v with
  | Some (JStr s) =>
      match read_iso s with Some t => Ok t | None => Err (ValueError "缓存信封时间字段无效") end
  | _ => Err (ValueError "缓存信封时间字段无效")
  end.

(** [CacheEnvelopeSerializer.loads] *)
Definition loads (schema_version : Z) (raw : RawText) : result exn CacheEnvelope :=
  match raw with
  | None => Err (ValueError "缓存内容不是合法 UTF-8 JSON")
  | Some (JObj data) =>
      if negb (bool_decide (list_to_set data.*1 = envelope_fields))
      then Err (ValueError "缓存信封字段必须与当前 JSON 规范完全一致")
      else
        match obj_get "schema_version" data with
        | Some (JInt version) =>
            if negb (version =? schema_version) then Err (ValueError "缓存 schema_version")
            else
              created ← envelope_time (obj_get "created_at" data);
              expires ← envelope_time (obj_get "expires_at" data);
              if expires <=? created then Err (ValueError "缓存 expires_at 必须晚于 created_at")
              else Ok (mkEnvelope version created expires (default JNull (obj_get "payload" data)))
        | _ => Err (ValueError "缓存 schema_version 必须是整数")
        end
  | Some _ => Err (ValueError "缓存信封必须是 JSON 对象")
  end.

(** [CacheEnvelopeSerializer.is_expired] *)
Definition is_expired (now : datetime) (e : CacheEnvelope) : bool := ce_expires_at e <=? now.

(** An envelope reads back as it was written. *)
Lemma loads_dumps `{!DatetimeTextLaws} version now payload ttl raw :
  dumps version now payload ttl = Ok raw →
  loads version raw = Ok (mkEnvelope version now (now + ttl * 1000000) payload).
Proof.
  unfold dumps. destruct (ttl <=? 0) eqn:Ht; [done|]. intros [= <-]. unfold loads.
  rewrite bool_decide_eq_true_2 by reflexivity.
  cbn [negb]. change (obj_get "schema_version" _) with (Some (JInt version)).
  cbv iota beta. rewrite Z.eqb_refl. cbn [negb].
  change (obj_get "created_at" _) with (Some (JStr (iso now))).
  change (obj_get "expires_at" _) with (Some (JStr (iso (now + ttl * 1000000)))).
  cbn [envelope_time]. rewrite !read_iso_iso. cbn [mbind result_bind].
  destruct (_ <=? now) eqn:E; [lia|]. reflexivity.
Qed.
End Envelope.

(** ** The Redis server behind [RedisClientManager.execute] *)

(** [Gone]: the server dropped the key, by its own expiry or by eviction.
    [Failed applied]: [execute] falls back; the command may have been applied. *)
Inductive RedisReply := Served | Gone | Failed (applied : bool).

(** What happens around one call of the cache store. *)
Record L1Call := mkL1Call { lc_now : datetime; lc_reply : RedisReply; lc_evict : RedisReply }.

Section Server.
Context (keys : gmap string RawText).

Definition redis_get (r : RedisReply) (key : string) : option (option RawText) * gmap string RawText :=
  match r with
  | Served => (Some (keys !! key), keys)
  | Gone => (Some None, delete key keys)
  | Failed _ => (None, keys)
  end.

(** Whether the server answered that the value is stored. *)
Definition redis_set (r : RedisReply) (key : string) (raw : RawText) : bool * gmap string RawText :=
  match r with
  | Served => (true, <[key := raw]> keys)
  | Gone => (true, delete key keys)
  | Failed applied => (false, if applied then <[key := raw]> keys else keys)
  end.

Definition redis_delete (r : RedisReply) (key : string) : option bool * gmap string RawText :=
  match r with
  | Served => (Some (bool_decide (is_Some (keys !! key))), delete key keys)
  | Gone => (Some false, delete key keys)
  | Failed applied => (None, if applied then delete key keys else keys)
  end.
End Server.

(** ** The cache store (redis/cache_store.py, cache/noop_store.py) *)

Inductive CacheReadStatus := READ_HIT | READ_MISS | READ_BYPASS | READ_DEGRADED.
Inductive CacheWriteStatus := WRITE_STORED | WRITE_SKIPPED | WRITE_DEGRADED.

#[export] Instance CacheReadStatus_eq_dec : EqDecision CacheReadStatus.
Proof. solve_decision. Defined.

Definition read_status_value (s : CacheReadStatus) : string :=
  match s with
  | READ_HIT => "hit" | READ_MISS => "miss" | READ_BYPASS => "bypass" | READ_DEGRADED => "degraded"
  end.

Record CacheLookup := mkLookup {
  cl_status : CacheReadStatus; cl_value : json; cl_reason : option string
}.
Record CacheWriteResult := mkWrite {
  wr_status : CacheWriteStatus; wr_ttl_seconds : option Z; wr_reason : option string
}.

(** The L1 level: a Redis store or the store of a deployment without Redis. *)
Inductive L1Backend := RedisL1 | NoOpL1.

Record StoreConfig := mkStoreConfig {
  sc_backend : L1Backend; sc_schema_version : Z; sc_ttl_policy : CacheTTLPolicy;
  sc_delete_invalid : bool
}.

(** The keys the server holds and the counters of the store ([CacheMetrics]). *)
Record L1State := mkL1 { l1_keys : gmap string RawText; l1_metrics : Metrics }.

(** [CacheMetrics.record_read], [record_write], [record_delete] *)
Definition record_read (status : CacheReadStatus) (reason : option string) (m : Metrics) : Metrics :=
  let m := bump "read_requests" m in
  let m := match status with
           | READ_HIT => bump "hits" m
           | READ_MISS => bump "misses" m
           | READ_BYPASS => bump "bypasses" m
           | READ_DEGRADED => bump "degraded_reads" m
           end in
  if bool_decide (reason = Some "invalid_entry") then bump "invalid_entries" m
  else if bool_decide (reason = Some "expired_entry") then bump "expired_entries" m else m.

Definition record_write (status : CacheWriteStatus) (m : Metrics) : Metrics :=
  let m := bump "write_requests" m in
  match status with
  | WRITE_STORED => bump "writes" m
  | WRITE_SKIPPED => bump "skipped_writes" m
  | WRITE_DEGRADED => bump "degraded_writes" m
  end.

Definition record_delete (deleted degraded : bool) (m : Metrics) : Metrics :=
  let m := bump "delete_requests" m in
  let m := if deleted then bump "deletes" m else m in
  if degraded then bump "degraded_deletes" m else m.

(** [validate_cache_key] *)
Definition validate_cache_key (key : string) : result exn string :=
  if is_blank key then Err (ValueError "缓存 Key 必须是非空字符串")
  else if 512 <? Z.of_nat (String.length key) then Err (ValueError "缓存 Key 不能超过 512 字节")
  else Ok key.

Section Store.
Context `{DatetimeText} (cfg : StoreConfig).

(** [RedisCacheStore._evict_invalid] *)
Definition evict_invalid (w : L1Call) (key : string) (s : L1State) : L1State :=
  if negb (sc_delete_invalid cfg) then s
  else
    match redis_delete (l1_keys s) (lc_evict w) key with
    | (None, keys) => mkL1 keys (record_delete false true (l1_metrics s))
    | (Some deleted, keys) => mkL1 keys (record_delete deleted false (l1_metrics s))
    end.

(** A read that ends with this lookup. *)
Definition read_done (l : CacheLookup) (s : L1State) : result exn CacheLookup * L1State :=
  (Ok l, mkL1 (l1_keys s) (record_read (cl_status l) (cl_reason l) (l1_metrics s))).

(** [RedisCacheStore.get] *)
Definition redis_store_get (w : L1Call) (key : string) (s : L1State) : result exn CacheLookup * L1State :=
  match validate_cache_key key with
  | Err e => (Err e, s)
  | Ok key =>
      match redis_get (l1_keys s) (lc_reply w) key with
      | (None, keys) =>
          read_done (mkLookup READ_DEGRADED JNull (Some "redis_unavailable")) (mkL1 keys (l1_metrics s))
      | (Some None, keys) => read_done (mkLookup READ_MISS JNull None) (mkL1 keys (l1_metrics s))
      | (Some (Some raw), keys) =>
          let s := mkL1 keys (l1_metrics s) in
          match loads (sc_schema_version cfg) raw with
          | Err _ => read_done (mkLookup READ_MISS JNull (Some "invalid_entry")) (evict_invalid w key s)
          | Ok envelope =>
              if is_expired (lc_now w) envelope
              then read_done (mkLookup READ_MISS JNull (Some "expired_entry")) (evict_invalid w key s)
              else read_done (mkLookup READ_HIT (ce_payload envelope) None) s
          end
      end
  end.

(** A write that ends with this result. *)
Definition write_done (r : CacheWriteResult) (s : L1State) : result exn CacheWriteResult * L1State :=
  (Ok r, mkL1 (l1_keys s) (record_write (wr_status r) (l1_metrics s))).

(** [RedisCacheStore.set] *)
Definition redis_store_set (w : L1Call) (key : string) (value : json) (ttl_seconds : option Z) (s : L1State)
    : result exn CacheWriteResult * L1State :=
  match validate_cache_key key with
  | Err e => (Err e, s)
  | Ok key =>
      let decision := resolve_ttl (sc_ttl_policy cfg) ttl_seconds in
      match td_cacheable decision, td_seconds decision with
      | true, Some seconds =>
          match dumps (sc_schema_version cfg) (lc_now w) value seconds with
          | Err e => (Err e, mkL1 (l1_keys s) (record_write WRITE_SKIPPED (l1_metrics s)))
          | Ok encoded =>
              match redis_set (l1_keys s) (lc_reply w) key encoded with
              | (false, keys) =>
                  write_done (mkWrite WRITE_DEGRADED (Some seconds) (Some "redis_unavailable"))
                    (mkL1 keys (l1_metrics s))
              | (true, keys) =>
                  write_done (mkWrite WRITE_STORED (Some seconds) (td_reason decision))
                    (mkL1 keys (l1_metrics s))
              end
          end
      | _, _ => write_done (mkWrite WRITE_SKIPPED None (td_reason decision)) s
      end
  end.

(** [RedisCacheStore.delete] *)
Definition redis_store_delete (w : L1Call) (key : string) (s : L1State) : result exn bool * L1State :=
  match validate_cache_key key with
  | Err e => (Err e, s)
  | Ok key =>
      match redis_delete (l1_keys s) (lc_reply w) key with
      | (None, keys) => (Ok false, mkL1 keys (record_delete false true (l1_metrics s)))
      | (Some deleted, keys) => (Ok deleted, mkL1 keys (record_delete deleted false (l1_metrics s)))
      end
  end.

(** [NoOpCacheStore] *)
Definition noop_get (key : string) (s : L1State) : result exn CacheLookup * L1State :=
  match validate_cache_key key with
  | Err e => (Err e, s)
  | Ok _ => read_done (mkLookup READ_BYPASS JNull (Some "cache_disabled")) s
  end.
Definition noop_set (key : string) (s : L1State) : result exn CacheWriteResult * L1State :=
  match validate_cache_key key with
  | Err e => (Err e, s)
  | Ok _ => write_done (mkWrite WRITE_SKIPPED None (Some "cache_disabled")) s
  end.
Definition noop_delete (key : string) (s : L1State) : result exn bool * L1State :=
  match validate_cache_key key with
  | Err e => (Err e, s)
  | Ok _ => (Ok false, mkL1 (l1_keys s) (record_delete false false (l1_metrics s)))
  end.

(** The [CacheStore] the application was built with. *)
Definition store_get (w : L1Call) (key : string) (s : L1State) : result exn CacheLookup * L1State :=
  match sc_backend cfg with RedisL1 => redis_store_get w key s | NoOpL1 => noop_get key s end.
Definition store_set (w : L1Call) (key : string) (value : json) (ttl_seconds : option Z) (s : L1State) :=
  match sc_backend cfg with RedisL1 => redis_store_set w key value ttl_seconds s | NoOpL1 => noop_set key s end.
Definition store_delete (w : L1Call) (key : string) (s : L1State) : result exn bool * L1State :=
  match sc_backend cfg with RedisL1 => redis_store_delete w key s | NoOpL1 => noop_delete key s end.

(** ** What the keys may hold after a call *)

(** A key of the server after a call: what it held, or nothing, or the entry
    that was written. *)
Lemma store_get_keys w key s k raw :
  l1_keys (store_get w key s).2 !! k = Some raw → l1_keys s !! k = Some raw.
Proof.
  unfold store_get, redis_store_get, noop_get, read_done, evict_invalid.
  destruct (sc_backend cfg), (validate_cache_key key); try done.
  unfold redis_get, redis_delete.
  repeat (case_match; simplify_eq/=; try done; try (rewrite lookup_delete_Some in *; naive_solver)).
Qed.

Lemma store_delete_keys w key s k raw :
  l1_keys (store_delete w key s).2 !! k = Some raw → l1_keys s !! k = Some raw.
Proof.
  unfold store_delete, redis_store_delete, noop_delete.
  destruct (sc_backend cfg), (validate_cache_key key); try done.
  unfold redis_delete.
  repeat (case_match; simplify_eq/=; try done; try (rewrite lookup_delete_Some in *; naive_solver)).
Qed.

(** A hit is a live envelope of the server. *)
Lemma store_get_hit w key s l s' :
  store_get w key s = (Ok l, s') → cl_status l = READ_HIT →
  ∃ raw e, l1_keys s !! key = Some raw ∧ loads (sc_schema_version cfg) raw = Ok e
           ∧ lc_now w < ce_expires_at e ∧ cl_value l = ce_payload e.
Proof.
  unfold store_get, redis_store_get, noop_get, read_done, validate_cache_key, redis_get, is_expired.
  intros Hget Hhit. repeat (case_match; simplify_eq/=). eexists _, _. repeat split; [done..|lia].
Qed.

(** The lifetime the store gives an entry it was asked to keep for a while. *)
Lemma resolve_ttl_seconds p ttl sec :
  policy_ok p = true → td_seconds (resolve_ttl p (Some ttl)) = Some sec →
  0 < ttl ∧ 0 < sec ≤ Z.max (tp_min p) ttl.
Proof.
  unfold policy_ok, resolve_ttl. intros Hp. cbn [default].
  repeat (case_match; simplify_eq/=; try done); intros; simplify_eq; lia.
Qed.

Lemma store_set_keys w key value ttl s k raw :
  policy_ok (sc_ttl_policy cfg) = true →
  l1_keys (store_set w key value (Some ttl) s).2 !! k = Some raw →
  l1_keys s !! k = Some raw
  ∨ k = key ∧ 0 < ttl ∧ ∃ sec, 0 < sec ≤ Z.max (tp_min (sc_ttl_policy cfg)) ttl
      ∧ dumps (sc_schema_version cfg) (lc_now w) value sec = Ok raw.
Proof.
  intros Hp. unfold store_set, redis_store_set, noop_set, write_done, validate_cache_key, redis_set.
  destruct (td_seconds (resolve_ttl (sc_ttl_policy cfg) (Some ttl))) as [sec|] eqn:Hs;
    [pose proof (resolve_ttl_seconds _ _ _ Hp Hs)|];
    repeat (case_match; simplify_eq/=; try (by left));
    rewrite ?lookup_delete_Some, ?lookup_insert_Some; intros; naive_solver.
Qed.
End Store.

(** ** The table of the database (memory/sqlite_route_cache.py) *)

(** A value of a cache domain: its JSON, the form a row keeps, the further
    columns of the row; [validate] is pydantic's [model_validate]. *)
Class Cached (T : Type) := {
  cd_dump : T → json; cd_validate : json → option T;
  cd_stored : T → T; cd_columns : T → list string
}.

Record CacheRow := mkCacheRow {
  cr_columns : list string; cr_json : json; cr_created_at : datetime; cr_expires_at : datetime
}.

(** What happens around one call of the table. *)
Record L2Call := mkL2Call { dc_now : datetime; dc_available : bool }.

Record CacheStoreEntry (T : Type) := mkEntry { en_value : T; en_remaining_ttl_seconds : Z }.
Arguments mkEntry {T} _ _.
Arguments en_value {T} _.
Arguments en_remaining_ttl_seconds {T} _.

(** [math.ceil] of a difference of times in seconds. *)
Definition ceil_seconds (delta : Z) : Z := (delta + 999999) / 1000000.

Section Table.
Context {T : Type} `{Cached T}.

(** A call on a connection of its own. *)
Definition with_connection {A : Type} (w : L2Call) (body : gmap string CacheRow → result exn (A * gmap string CacheRow))
    (rows : gmap string CacheRow) : result exn A * gmap string CacheRow :=
  if dc_available w then commit_or_rollback body rows else (Err (StoreUnavailable "route_cache"), rows).

(** [get_entry] *)
Definition get_entry (w : L2Call) (cache_key : string)
    : gmap string CacheRow → result exn (option (CacheStoreEntry T)) * gmap string CacheRow :=
  with_connection w (fun rows =>
    match rows !! cache_key with
    | None => Ok (None, rows)
    | Some row =>
        if cr_expires_at row <=? dc_now w then Ok (None, delete cache_key rows)
        else
          match cd_validate (cr_json row) with
          | None => Err ValidationError
          | Some v =>
              Ok (Some (mkEntry v (Z.max 1 (ceil_seconds (cr_expires_at row - dc_now w)))), rows)
          end
    end).

(** [set] *)
Definition put_entry (w : L2Call) (cache_key : string) (v : T) (ttl_seconds : Z)
    (rows : gmap string CacheRow) : result exn unit * gmap string CacheRow :=
  if ttl_seconds <=? 0 then (Ok tt, rows)
  else
    with_connection w (fun rows =>
      let stored := cd_stored v in
      Ok (tt, <[cache_key := mkCacheRow (cd_columns stored) (cd_dump stored) (dc_now w)
                               (dc_now w + ttl_seconds * 1000000)]> rows)) rows.

(** [purge_expired] *)
Definition purge_expired (w : L2Call) : gmap string CacheRow → result exn Z * gmap string CacheRow :=
  with_connection w (fun rows =>
    let kept := filter (fun kv : string * CacheRow => dc_now w < cr_expires_at kv.2) rows in
    Ok (Z.of_nat (size rows) - Z.of_nat (size kept), kept)).

Lemma get_entry_rows w key rows k row :
  (get_entry w key rows).2 !! k = Some row → rows !! k = Some row.
Proof.
  unfold get_entry, with_connection, commit_or_rollback.
  repeat (case_match; simplify_eq/=; try done). rewrite lookup_delete_Some. naive_solver.
Qed.

(** An entry found is a live row. *)
Lemma get_entry_found w key rows e rows' :
  get_entry w key rows = (Ok (Some e), rows') →
  ∃ row, rows !! key = Some row ∧ dc_now w < cr_expires_at row
         ∧ cd_validate (cr_json row) = Some (en_value e)
         ∧ en_remaining_ttl_seconds e * 1000000 < cr_expires_at row - dc_now w + 1000000.
Proof.
  unfold get_entry, with_connection, commit_or_rollback, ceil_seconds.
  intros Hget. repeat (case_match; simplify_eq/=). eexists. split_and!; [done|lia|done|].
  match goal with |- context [(?d + 999999) / 1000000] =>
    pose proof (Z.mul_div_le (d + 999999) 1000000 ltac:(lia)) end. lia.
Qed.

Lemma put_entry_rows w key v ttl rows k row :
  (put_entry w key v ttl rows).2 !! k = Some row →
  rows !! k = Some row
  ∨ k = key ∧ 0 < ttl ∧ cr_json row = cd_dump (cd_stored v)
    ∧ cr_expires_at row = dc_now w + ttl * 1000000.
Proof.
  unfold put_entry, with_connection, commit_or_rollback.
  repeat (case_match; simplify_eq/=; try (by left)).
  rewrite lookup_insert_Some. intros [[<- <-]|[_ ?]]; [right|by left].
  split_and!; try done; lia.
Qed.

Lemma purge_expired_rows w rows k row :
  (purge_expired w rows).2 !! k = Some row → rows !! k = Some row.
Proof.
  unfold purge_expired, with_connection, commit_or_rollback.
  case_match; simplify_eq/=; [|done]. rewrite map_lookup_filter_Some. tauto.
Qed.
End Table.

(** ** The two levels (providers/amap/layered_cache.py) *)

Inductive LayeredCacheSource := FROM_L1 | FROM_L2 | FROM_MISS.

Definition source_value (s : LayeredCacheSource) : string :=
  match s with FROM_L1 => "l1" | FROM_L2 => "l2" | FROM_MISS => "miss" end.

Record LayeredCacheLookup (T : Type) := mkLayered {
  ll_source : LayeredCacheSource; ll_value : option T; ll_l1_status : string; ll_l2_status : string
}.
Arguments mkLayered {T} _ _ _ _.
Arguments ll_source {T} _.
Arguments ll_value {T} _.
Arguments ll_l1_status {T} _.
Arguments ll_l2_status {T} _.

Record LayeredState := mkState {
  ls_l1 : L1State; ls_rows : gmap string CacheRow; ls_metrics : Metrics
}.

(** What happens around one operation of the layered cache: it reads L1, may
    drop an invalid entry, calls L2 and may write L1. *)
Record Weather := mkWeather {
  wt_start : datetime; wt_read : L1Call; wt_drop : L1Call; wt_l2 : L2Call; wt_write : L1Call
}.

Section Layered.
Context {T : Type} `{Cached T} `{DatetimeText} (cfg : StoreConfig) (l1_key : string → string).

Definition count_event (field : string) (s : LayeredState) : LayeredState :=
  mkState (ls_l1 s) (ls_rows s) (bump field (ls_metrics s)).
Definition with_l1 (l1 : L1State) (s : LayeredState) : LayeredState :=
  mkState l1 (ls_rows s) (ls_metrics s).
Definition with_rows (rows : gmap string CacheRow) (s : LayeredState) : LayeredState :=
  mkState (ls_l1 s) rows (ls_metrics s).

(** The write of a value to L1, counted under [fields] when it is stored:
    [_backfill_l1] and the second half of [set]. *)
Definition write_l1 (fields : list string) (w : L1Call) (key : string) (v : T) (ttl_seconds : Z)
    (s : LayeredState) : LayeredState :=
  let '(r, l1) := store_set cfg w key (cd_dump v) (Some ttl_seconds) (ls_l1 s) in
  let s := with_l1 l1 s in
  match r with
  | Err _ => count_event "l1_write_degraded" s
  | Ok res =>
      match wr_status res with
      | WRITE_STORED => foldl (fun s f => count_event f s) s fields
      | WRITE_DEGRADED => count_event "l1_write_degraded" s
      | WRITE_SKIPPED => s
      end
  end.

(** [_LayeredAmapCache._backfill_l1] *)
Definition backfill_l1 (w : L1Call) (key : string) (e : CacheStoreEntry T) (s : LayeredState) : LayeredState :=
  if en_remaining_ttl_seconds e <=? 0 then s
  else write_l1 ["l1_backfills"; "l1_writes"] w key (en_value e) (en_remaining_ttl_seconds e) s.

(** The L1 half of [lookup]: a value, or the status the miss is reported with. *)
Definition lookup_l1 (w : Weather) (key : string) (s : LayeredState) : (option T * string) * LayeredState :=
  let s := count_event "l1_reads" s in
  let '(r, l1) := store_get cfg (wt_read w) key (ls_l1 s) in
  let s := with_l1 l1 s in
  match r with
  | Err _ => ((None, "degraded"), count_event "l1_degraded" s)
  | Ok l =>
      let status := read_status_value (cl_status l) in
      match cl_status l with
      | READ_HIT =>
          match cd_validate (cl_value l) with
          | None =>
              let s := count_event "l1_misses" (count_event "l1_invalid_payloads" s) in
              ((None, "invalid"), with_l1 (store_delete cfg (wt_drop w) key (ls_l1 s)).2 s)
          | Some v => ((Some v, status), count_event "provider_calls_avoided_by_l1" (count_event "l1_hits" s))
          end
      | READ_MISS => ((None, status), count_event "l1_misses" s)
      | READ_BYPASS => ((None, status), count_event "l1_bypasses" s)
      | READ_DEGRADED => ((None, status), count_event "l1_degraded" s)
      end
  end.

(** [_LayeredAmapCache.lookup] *)
Definition layered_lookup (w : Weather) (cache_key : string) (s : LayeredState)
    : LayeredCacheLookup T * LayeredState :=
  let key := l1_key cache_key in
  match lookup_l1 w key s with
  | ((Some v, status), s) => (mkLayered FROM_L1 (Some v) status "skipped", s)
  | ((None, status), s) =>
      let s := count_event "l2_reads" s in
      let '(r, rows) := get_entry (wt_l2 w) cache_key (ls_rows s) in
      let s := with_rows rows s in
      match r with
      | Err _ => (mkLayered FROM_MISS None status "error", count_event "l2_errors" s)
      | Ok None => (mkLayered FROM_MISS None status "miss", count_event "l2_misses" s)
      | Ok (Some e) =>
          (mkLayered FROM_L2 (Some (en_value e)) status "hit",
           backfill_l1 (wt_write w) key e (count_event "provider_calls_avoided_by_l2" (count_event "l2_hits" s)))
      end
  end.

(** [_LayeredAmapCache.set] *)
Definition layered_set (w : Weather) (cache_key : string) (v : T) (ttl_seconds : Z)
    (s : LayeredState) : LayeredState :=
  let '(r, rows) := put_entry (wt_l2 w) cache_key v ttl_seconds (ls_rows s) in
  let s := with_rows rows s in
  let s := count_event (match r with Ok _ => "l2_writes" | Err _ => "l2_write_errors" end) s in
  write_l1 ["l1_writes"] (wt_write w) (l1_key cache_key) v ttl_seconds s.

(** [_LayeredAmapCache.purge_expired] *)
Definition layered_purge (w : L2Call) (s : LayeredState) : result exn Z * LayeredState :=
  let '(r, rows) := purge_expired w (ls_rows s) in (r, with_rows rows s).

(** [_LayeredAmapCache.record_provider_call] *)
Definition record_provider_call (s : LayeredState) : LayeredState := count_event "provider_calls" s.
End Layered.

(** ** The business cache (providers/amap/business_cache.py) *)

Record BusinessState := mkBusiness { bs_l1 : L1State; bs_domains : gmap string Metrics }.

Section Business.
Context {T E : Type} `{Cached T} `{DatetimeText} (cfg : StoreConfig) (domain key : string) (ttl_seconds : Z).

(** [AmapBusinessCache._increment]; a counter never touched reads as 0. *)
Definition increment_domain (field : string) (s : BusinessState) : BusinessState :=
  mkBusiness (bs_l1 s) (<[domain := bump field (default ∅ (bs_domains s !! domain))]> (bs_domains s)).

(** The read of [get_or_load]: the value of a valid hit. *)
Definition business_read (w : Weather) (s : BusinessState) : option T * BusinessState :=
  let '(r, l1) := store_get cfg (wt_read w) key (bs_l1 s) in
  let s := mkBusiness l1 (bs_domains s) in
  match r with
  | Err _ => (None, increment_domain "degraded_reads" s)
  | Ok l =>
      match cl_status l with
      | READ_HIT =>
          match cd_validate (cl_value l) with
          | Some v => (Some v, increment_domain "hits" s)
          | None =>
              let s := increment_domain "invalid_payloads" s in
              (None, mkBusiness (store_delete cfg (wt_drop w) key (bs_l1 s)).2 (bs_domains s))
          end
      | READ_DEGRADED => (None, increment_domain "degraded_reads" s)
      | READ_BYPASS => (None, increment_domain "bypasses" s)
      | READ_MISS => (None, increment_domain "misses" s)
      end
  end.

(** [AmapBusinessCache.get_or_load]; the loader asks the provider. *)
Definition get_or_load (loader : unit → result E T) (w : Weather) (s : BusinessState)
    : result E T * BusinessState :=
  match business_read w s with
  | (Some v, s) => (Ok v, s)
  | (None, s) =>
      let s := increment_domain "provider_calls" s in
      match loader tt with
      | Err e => (Err e, s)
      | Ok v =>
          let '(r, l1) := store_set cfg (wt_write w) key (cd_dump v) (Some ttl_seconds) (bs_l1 s) in
          let s := mkBusiness l1 (bs_domains s) in
          (Ok v, match r with
                 | Err _ => increment_domain "degraded_writes" s
                 | Ok res =>
                     match wr_status res with
                     | WRITE_STORED => increment_domain "writes" s
                     | WRITE_DEGRADED => increment_domain "degraded_writes" s
                     | WRITE_SKIPPED => s
                     end
                 end)
      end
  end.

(** Whatever Redis does, the caller gets a value of a live entry of its key, or
    what the loader ends with. *)
Theorem get_or_load_transparent loader w s r s' :
  get_or_load loader w s = (r, s') →
  r = loader tt
  ∨ ∃ v raw e, r = Ok v ∧ l1_keys (bs_l1 s) !! key = Some raw ∧ loads (sc_schema_version cfg) raw = Ok e
      ∧ lc_now (wt_read w) < ce_expires_at e ∧ cd_validate (ce_payload e) = Some v.
Proof.
  unfold get_or_load, business_read.
  destruct (store_get _ _ _ _) as [rr l1] eqn:Hget.
  intros Hl. repeat (case_match; simplify_eq/=; try (by left)).
  right. destruct (store_get_hit _ _ _ _ _ _ Hget ltac:(eassumption)) as (raw & e & Hraw & Hload & Hlive & Hpay).
  eexists _, raw, e. rewrite Hpay in *. done.
Qed.
End Business.

(** ** What a hit can be *)

(** The readings of an operation lie within [d] of its start. *)
Definition steady (d : Z) (w : Weather) : Prop :=
  Forall (fun t => wt_start w ≤ t ≤ wt_start w + d)
    [lc_now (wt_read w); dc_now (wt_l2 w); lc_now (wt_write w)].

Section Fresh.
Context {T : Type} `{Cached T} `{DatetimeText} `{!DatetimeTextLaws}.
Context (cfg : StoreConfig) (l1_key : string → string) (d : Z).
Context (value_ok : T → Prop).
(** [written key v ttl t]: the value was handed to [set] by an operation that
    started at [t]. *)
Context (written : string → T → Z → datetime → Prop).

Definition covers_entry (slack : Z) (key : string) (v : T) (expires : datetime) : Prop :=
  ∃ v0 ttl t, written key v0 ttl t ∧ (v = v0 ∨ v = cd_stored v0)
              ∧ expires ≤ t + ttl * 1000000 + slack.

Definition l1_slack : Z := 2 * d + tp_min (sc_ttl_policy cfg) * 1000000.

(** Every entry that reads back is a write of its key, and expires with it. *)
Record cache_fresh (s : LayeredState) : Prop := {
  fresh_l1 : ∀ key raw e v,
    l1_keys (ls_l1 s) !! l1_key key = Some raw → loads (sc_schema_version cfg) raw = Ok e →
    cd_validate (ce_payload e) = Some v → covers_entry l1_slack key v (ce_expires_at e);
  fresh_l2 : ∀ key row v,
    ls_rows s !! key = Some row → cd_validate (cr_json row) = Some v →
    covers_entry d key v (cr_expires_at row)
}.

Hypothesis Hpolicy : policy_ok (sc_ttl_policy cfg) = true.
Hypothesis Hinj : ∀ k k', l1_key k = l1_key k' → k = k'.
Hypothesis Hread : ∀ v, value_ok v → cd_validate (cd_dump v) = Some v.
Hypothesis Hstored : ∀ v, value_ok v → value_ok (cd_stored v).
Hypothesis Hwritten : ∀ k v ttl t, written k v ttl t → value_ok v.

Lemma min_positive : 0 < tp_min (sc_ttl_policy cfg).
Proof. unfold policy_ok in Hpolicy. lia. Qed.

Lemma covers_ok slack key v expires : covers_entry slack key v expires → value_ok v.
Proof. intros (v0 & ttl & t & Hw & [->| ->] & _); eauto. Qed.

(** The invariant looks at the entries alone. *)
Lemma fresh_sub s s' :
  cache_fresh s →
  (∀ k raw, l1_keys (ls_l1 s') !! k = Some raw → l1_keys (ls_l1 s) !! k = Some raw) →
  (∀ k row, ls_rows s' !! k = Some row → ls_rows s !! k = Some row) → cache_fresh s'.
Proof. intros [F1 F2] Hl1 Hl2. split; eauto. Qed.

Lemma fresh_tally f s : cache_fresh s → cache_fresh (count_event f s).
Proof. intros. by eapply fresh_sub. Qed.

Lemma foldl_tally_keeps fields s :
  ls_l1 (foldl (fun s f => count_event f s) s fields) = ls_l1 s
  ∧ ls_rows (foldl (fun s f => count_event f s) s fields) = ls_rows s.
Proof. revert s. induction fields as [|f fields IH]; intros s; [done|]. apply (IH (count_event f s)). Qed.

(** The entries after a write to L1. *)
Lemma write_l1_state fields w key v ttl s :
  ls_l1 (write_l1 cfg fields w key v ttl s) = (store_set cfg w key (cd_dump v) (Some ttl) (ls_l1 s)).2
  ∧ ls_rows (write_l1 cfg fields w key v ttl s) = ls_rows s.
Proof.
  unfold write_l1. destruct (store_set _ _ _ _ _ _) as [r l1].
  destruct r as [res|e]; [|done]. destruct (wr_status res); [|done..].
  destruct (foldl_tally_keeps fields (with_l1 l1 s)) as [-> ->]. done.
Qed.

Lemma write_l1_fresh fields w key v ttl s :
  cache_fresh s → value_ok v →
  (∀ sec, 0 < sec ≤ Z.max (tp_min (sc_ttl_policy cfg)) ttl → 0 < ttl →
     covers_entry l1_slack key v (lc_now w + sec * 1000000)) →
  cache_fresh (write_l1 cfg fields w (l1_key key) v ttl s).
Proof.
  intros [F1 F2] Hok Hcov. destruct (write_l1_state fields w (l1_key key) v ttl s) as [El1 Erows].
  split; intros k x; [|rewrite Erows; eauto].
  rewrite El1. intros e v' Hraw Hload Hval.
  apply store_set_keys in Hraw as [?|(Hk & Httl & sec & Hsec & Hdump)]; [by eauto| |done].
  apply Hinj in Hk as ->. apply loads_dumps in Hdump. rewrite Hdump in Hload. simplify_eq/=.
  rewrite Hread in Hval by done. simplify_eq. by apply Hcov.
Qed.

(** A write that has been recorded leaves the caches fresh. *)
Theorem layered_set_fresh w key v ttl s :
  cache_fresh s → steady d w → written key v ttl (wt_start w) → cache_fresh (layered_set cfg l1_key w key v ttl s).
Proof.
  intros Hs Hw Hwr. pose proof min_positive as Hmin. unfold steady in Hw. rewrite !Forall_cons in Hw.
  destruct Hw as (Hr & Hd & Hl & _). pose proof (Hwritten _ _ _ _ Hwr) as Hok. unfold layered_set.
  destruct (put_entry _ _ _ _ _) as [r rows] eqn:Hset. apply write_l1_fresh; [|done|].
  - apply fresh_tally. destruct Hs as [F1 F2]. split; [exact F1|]. cbn. intros k row v' Hrow Hval.
    change rows with (r, rows).2 in Hrow. rewrite <- Hset in Hrow.
    apply put_entry_rows in Hrow as [?|(-> & Httl & Hj & He)]; [by eauto|].
    rewrite Hj, Hread in Hval by eauto. simplify_eq. exists v, ttl, (wt_start w). rewrite He.
    split_and!; [done|by right|lia].
  - intros sec Hsec Httl. exists v, ttl, (wt_start w). split_and!; [done|by left|].
    unfold l1_slack. lia.
Qed.

Lemma layered_purge_fresh w s : cache_fresh s → cache_fresh (layered_purge w s).2.
Proof.
  intros Hs. unfold layered_purge. destruct (purge_expired _ _) as [r rows] eqn:E.
  eapply fresh_sub; [exact Hs|done|]. cbn. intros k row Hrow.
  change rows with (r, rows).2 in Hrow. rewrite <- E in Hrow. by eapply purge_expired_rows.
Qed.

(** What the L1 half of a lookup returns was live in L1. *)
Lemma lookup_l1_fresh w key s ov status s' :
  cache_fresh s → lookup_l1 cfg w (l1_key key) s = ((ov, status), s') →
  cache_fresh s' ∧ ls_rows s' = ls_rows s
  ∧ ∀ v, ov = Some v → ∃ e, lc_now (wt_read w) < e ∧ covers_entry l1_slack key v e.
Proof.
  intros Hs. unfold lookup_l1.
  destruct (store_get _ _ _ _) as [r l1] eqn:Hget.
  assert (Hkeys : ∀ k raw, l1_keys l1 !! k = Some raw → l1_keys (ls_l1 s) !! k = Some raw).
  { intros k raw. change l1 with (r, l1).2. rewrite <- Hget. apply store_get_keys. }
  destruct r as [l|e].
  2:{ intros [= <- <- <-]. split_and!; [by eapply fresh_sub|done|done]. }
  destruct (cl_status l) eqn:Hst.
  2-4: intros [= <- <- <-]; split_and!; [by eapply fresh_sub|done|done].
  destruct (cd_validate (cl_value l)) as [v|] eqn:Hval; intros [= <- <- <-].
  - split_and!; [by eapply fresh_sub|done|]. intros ? [= <-].
    destruct (store_get_hit _ _ _ _ _ _ Hget Hst) as (raw & e & Hraw & Hload & Hlive & Hpay).
    exists (ce_expires_at e). split; [done|]. rewrite Hpay in Hval. by eapply fresh_l1.
  - split_and!; [|done|done]. eapply fresh_sub; [exact Hs| |done]. cbn. intros k raw Hraw.
    apply store_delete_keys in Hraw. eauto.
Qed.

(** A lookup keeps the caches fresh, and what it returns was handed to [set]
    under the same key, less than its time to live ago but for the slack. *)
Theorem layered_lookup_fresh w key s l s' :
  cache_fresh s → steady d w → layered_lookup cfg l1_key w key s = (l, s') →
  cache_fresh s'
  ∧ ∀ v, ll_value l = Some v →
      ∃ v0 ttl t, written key v0 ttl t ∧ (v = v0 ∨ v = cd_stored v0)
                  ∧ wt_start w < t + ttl * 1000000 + l1_slack.
Proof.
  intros Hs Hw. pose proof min_positive as Hmin. unfold steady in Hw. rewrite !Forall_cons in Hw.
  destruct Hw as (Hr & Hd & Hl & _). unfold layered_lookup.
  destruct (lookup_l1 _ _ _ _) as [[ov status] s1] eqn:E1.
  destruct (lookup_l1_fresh _ _ _ _ _ _ Hs E1) as (Hs1 & Hrows & Hv1).
  destruct ov as [v|].
  { intros [= <- <-]. split; [done|]. intros ? [= <-].
    destruct (Hv1 v eq_refl) as (e & Hlive & v0 & ttl & t & Hwr & Heq & Hexp).
    exists v0, ttl, t. split_and!; [done..|lia]. }
  destruct (get_entry _ _ _) as [r rows] eqn:E2.
  assert (Hsub : ∀ k row, rows !! k = Some row → ls_rows s1 !! k = Some row).
  { intros k row. change rows with (r, rows).2. rewrite <- E2. apply get_entry_rows. }
  destruct r as [[e|]|e].
  2,3: intros [= <- <-]; split; [by eapply fresh_sub|done].
  intros [= <- <-]. destruct (get_entry_found _ _ _ _ _ E2) as (row & Hrow & Hlive & Hval & Hrem).
  destruct (fresh_l2 _ Hs1 _ _ _ Hrow Hval) as (v0 & ttl & t & Hwr & Heq & Hexp).
  split.
  - assert (Hsx : cache_fresh (count_event "provider_calls_avoided_by_l2"
                   (count_event "l2_hits" (with_rows rows (count_event "l2_reads" s1)))))
      by (eapply fresh_sub; [exact Hs1|done|exact Hsub]).
    unfold backfill_l1. destruct (_ <=? 0); [done|]. apply write_l1_fresh; [done| |].
    + eapply (covers_ok d). by exists v0, ttl, t.
    + intros sec Hsec _. exists v0, ttl, t. split_and!; [done..|]. unfold l1_slack. lia.
  - intros ? [= <-]. exists v0, ttl, t. split_and!; [done..|]. unfold l1_slack. lia.
Qed.
End Fresh.

Lemma fresh_mono {T : Type} `{Cached T} `{DatetimeText} cfg l1_key d (written written' : string → T → Z → datetime → Prop) s :
  (∀ k v ttl t, written k v ttl t → written' k v ttl t) →
  cache_fresh cfg l1_key d written s → cache_fresh cfg l1_key d written' s.
Proof.
  intros Hsub [F1 F2].
  assert (Hc : ∀ slack k v e, covers_entry written slack k v e → covers_entry written' slack k v e).
  { intros slack k v e (v0 & ttl & t & ? & ? & ?). exists v0, ttl, t. eauto. }
  split; eauto.
Qed.

(** Caches none of whose entries reads back: empty, or written by another
    version of the program. *)
Definition unreadable {T : Type} `{Cached T} `{DatetimeText} (cfg : StoreConfig) (s : LayeredState) : Prop :=
  map_Forall (fun _ raw => match loads (sc_schema_version cfg) raw with
                           | Ok e => cd_validate (ce_payload e) = None
                           | Err _ => True
                           end) (l1_keys (ls_l1 s))
  ∧ map_Forall (fun _ row => cd_validate (cr_json row) = None) (ls_rows s).

Lemma unreadable_fresh {T : Type} `{Cached T} `{DatetimeText} cfg l1_key d written s :
  unreadable cfg s → cache_fresh cfg l1_key d written s.
Proof.
  intros [U1 U2]. split.
  - intros key raw e v Hraw Hload Hval. specialize (U1 _ _ Hraw). cbn in U1. rewrite Hload in U1. congruence.
  - intros key row v Hrow Hval. specialize (U2 _ _ Hrow). cbn in U2. congruence.
Qed.

(** ** The counters *)

(** Every read ends in exactly one of its outcomes, L2 is read exactly when L1
    did not answer, and every hit is a provider call avoided. *)
Definition accounted (m : Metrics) : Prop :=
  count "l1_reads" m
    = count "l1_hits" m + count "l1_misses" m + count "l1_bypasses" m + count "l1_degraded" m
  ∧ count "l1_reads" m = count "l1_hits" m + count "l2_reads" m
  ∧ count "l2_reads" m = count "l2_hits" m + count "l2_misses" m + count "l2_errors" m
  ∧ count "provider_calls_avoided_by_l1" m = count "l1_hits" m
  ∧ count "provider_calls_avoided_by_l2" m = count "l2_hits" m
  ∧ count "l1_invalid_payloads" m ≤ count "l1_misses" m
  ∧ count "l1_backfills" m ≤ count "l2_hits" m.

(** What a write to L1 may count, apart from a backfill. *)
Lemma write_l1_metrics {T : Type} `{Cached T} `{DatetimeText} cfg fields w key (v : T) ttl s f :
  Forall (fun g => String.eqb f g = false) ("l1_write_degraded" :: fields) →
  count f (ls_metrics (write_l1 cfg fields w key v ttl s)) = count f (ls_metrics s).
Proof.
  rewrite Forall_cons. intros [Hd Hf]. unfold write_l1.
  destruct (store_set _ _ _ _ _ _) as [[res|e] l1]; [destruct (wr_status res)|].
  2-4: cbn [ls_metrics count_event with_l1]; rewrite ?count_bump, ?Hd; lia.
  change (ls_metrics s) with (ls_metrics (with_l1 l1 s)).
  generalize (with_l1 l1 s). induction Hf as [|g fields Hg Hf IH]; intros s0; [done|].
  cbn [foldl]. rewrite IH. cbn [ls_metrics count_event]. rewrite count_bump, Hg. lia.
Qed.

Lemma backfill_metrics {T : Type} `{Cached T} `{DatetimeText} cfg w key (e : CacheStoreEntry T) s :
  count "l1_backfills" (ls_metrics (backfill_l1 cfg w key e s))
    ≤ count "l1_backfills" (ls_metrics s) + 1.
Proof.
  unfold backfill_l1, write_l1. destruct (_ <=? 0); [lia|].
  destruct (store_set _ _ _ _ _ _) as [[res|ex] l1]; [destruct (wr_status res)|];
    cbn [foldl ls_metrics count_event with_l1]; rewrite ?count_bump; cbn [String.eqb Ascii.eqb Bool.eqb]; lia.
Qed.

(** The counters of the layered cache add up after every operation. *)
Theorem layered_lookup_accounted {T : Type} `{Cached T} `{DatetimeText} cfg l1_key w key s
    (l : LayeredCacheLookup T) s' :
  accounted (ls_metrics s) → layered_lookup cfg l1_key w key s = (l, s') → accounted (ls_metrics s').
Proof.
  unfold accounted, layered_lookup, lookup_l1. intros Hs.
  destruct (store_get _ _ _ _) as [r l1].
  assert (Hb : ∀ f e s0, Forall (fun g => String.eqb f g = false) ["l1_write_degraded"; "l1_backfills"; "l1_writes"] →
    count f (ls_metrics (backfill_l1 (T:=T) cfg (wt_write w) (l1_key key) e s0)) = count f (ls_metrics s0)).
  { intros f e s0 Hf. unfold backfill_l1. destruct (_ <=? 0); [done|]. by apply write_l1_metrics. }
  destruct r as [c|ex]; [destruct (cl_status c); [destruct (cd_validate _)|..]|]; cbn [count_event with_l1];
    try (destruct (get_entry _ _ _) as [[[e|]|ex2] rows]);
    intros [= <- <-];
    try match goal with |- context [backfill_l1 ?c ?k ?ke ?e ?s0] =>
      pose proof (backfill_metrics c k ke e s0) as Hbf end;
    rewrite ?Hb by (repeat constructor);
    cbn [ls_metrics count_event with_l1 with_rows] in *; rewrite ?count_bump in *;
    cbn [String.eqb Ascii.eqb Bool.eqb] in *; lia.
Qed.

Theorem layered_set_accounted {T : Type} `{Cached T} `{DatetimeText} cfg l1_key w key (v : T) ttl s :
  accounted (ls_metrics s) → accounted (ls_metrics (layered_set cfg l1_key w key v ttl s)).
Proof.
  unfold accounted, layered_set. intros Hs. destruct (put_entry _ _ _ _ _) as [[u|e] rows];
    rewrite !write_l1_metrics by (repeat constructor);
    cbn [ls_metrics count_event with_rows]; rewrite !count_bump;
    cbn [String.eqb Ascii.eqb Bool.eqb]; lia.
Qed.
