(* ===== verification/AmapClient.v ===== *)
(** The map provider's client: its errors, the HTTP transport, the normalizer
    of a route and the estimation of the legs of a trip through the layered
    cache (src/app/providers/amap/errors.py, client.py, normalizers.py,
    route_cache.py).

    A float is a rational here and float texts are ASCII.  The HTTP library, the
    quota of the deployment, pydantic's reader and the digest of a cache key are
    arguments. *)

From S2P Require Import Prelude PyData ClockText TripSchema AmapModels AmapCache.
From Stdlib Require Import ZArith QArith Qabs Lia String Ascii.
From stdpp Require Import base tactics option list gmap strings.

Open Scope string_scope.
Open Scope Z_scope.

(** ** Errors (errors.py) *)

Inductive AmapErrorKind :=
| INVALID_INPUT | INVALID_OUTPUT | AUTHORIZATION | RATE_LIMIT | TIMEOUT | UPSTREAM.

#[export] Instance AmapErrorKind_eq_dec : EqDecision AmapErrorKind.
Proof. solve_decision. Defined.

(** [exc.kind.value.upper()] *)
Definition kind_upper (k : AmapErrorKind) : string :=
  match k with
  | INVALID_INPUT => "INVALID_INPUT" | INVALID_OUTPUT => "INVALID_OUTPUT"
  | AUTHORIZATION => "AUTHORIZATION" | RATE_LIMIT => "RATE_LIMIT"
  | TIMEOUT => "TIMEOUT" | UPSTREAM => "UPSTREAM"
  end.

Record AmapProviderError := mkAmapError {
  ae_message : string; ae_kind : AmapErrorKind; ae_retryable : bool;
  ae_provider_code : option string; ae_provider_message : option string
}.

(** What the client raises; [round] and [float] raise [OverflowError]. *)
Inductive ClientExn := Amap (e : AmapProviderError) | OverflowError.

Definition authorization_markers : list string :=
  ["invalid_user_key"; "invalid_user_signature"; "userkey_plat_nomatch"; "userkey_suspended";
   "userkey_recycled"; "invalid_user_ip"; "invalid_user_domain"; "invalid key"; "signature";
   "401"; "403"; "无权"; "鉴权"].
Definition rate_limit_markers : list string :=
  ["daily_query_over_limit"; "access_too_frequent"; "user_daily_query_over_limit";
   "ip_query_over_limit"; "rate limit"; "too many requests"; "429"; "限流"; "超限"].
Definition invalid_input_markers : list string :=
  ["invalid_params"; "missing_required_params"; "illegal_request"; "请求参数非法"; "缺少必填参数"].

Definition failure_kind (detail : string) : AmapErrorKind * bool :=
  let mentions := existsb (fun marker => str_contains marker (ascii_lower detail)) in
  if mentions authorization_markers then (AUTHORIZATION, false)
  else if mentions rate_limit_markers then (RATE_LIMIT, true)
  else if mentions invalid_input_markers then (INVALID_INPUT, false)
  else (UPSTREAM, true).

(** [raise_amap_failure] *)
Definition raise_amap_failure (detail : string) (provider_code : option string) : ClientExn :=
  let '(kind, retryable) := failure_kind detail in
  let message := match provider_code with
                 | Some code => if String.eqb code "" then detail
                                else detail ++ " (infocode=" ++ code ++ ")"
                 | None => detail
                 end in
  Amap (mkAmapError message kind retryable provider_code (Some detail)).

(** [bool(value)] *)
Definition truthy (v : json) : bool :=
  match v with
  | JNull => false
  | JBool b => b
  | JInt z => negb (z =? 0)
  | JFloat q => negb (Qeq_bool q 0)
  | JStr s => negb (String.eqb s "")
  | JArr l => match l with [] => false | _ => true end
  | JObj l => match l with [] => false | _ => true end
  end.

(** [a or b] on the results of [dict.get]. *)
Definition get_or (a b : option json) : option json :=
  match a with Some v => if truthy v then Some v else b | None => b end.

(** [value in (0, "0", False, "failed", "failure", "error")] *)
Definition failed_status (v : option json) : bool :=
  match v with
  | Some (JInt z) => z =? 0
  | Some (JFloat q) => Qeq_bool q 0
  | Some (JBool b) => negb b
  | Some (JStr s) => existsb (String.eqb s) ["0"; "failed"; "failure"; "error"]
  | _ => false
  end.

(** [type(value).__name__] *)
Definition type_name (v : json) : string :=
  match v with
  | JNull => "NoneType" | JBool _ => "bool" | JInt _ => "int" | JFloat _ => "float"
  | JStr _ => "str" | JArr _ => "list" | JObj _ => "dict"
  end.

(** [repr] of floats and of containers. *)
Class PyRepr := py_repr : json → string.

(** [str(value)] *)
Definition py_str `{PyRepr} (v : json) : string :=
  match v with
  | JNull => "None"
  | JBool b => if b then "True" else "False"
  | JInt z => str_of_Z z
  | JStr s => s
  | v => py_repr v
  end.

(** [validate_amap_response] *)
Definition validate_amap_response `{PyRepr} (result : json) : Prelude.result ClientExn (list (string * json)) :=
  match result with
  | JObj kvs =>
      let get key := obj_get key kvs in
      let text v fallback := match v with Some x => py_str x | None => fallback end in
      let provider_code :=
        match get_or (get "infocode") (get "code") with
        | Some JNull | None => None
        | Some v => Some (py_strip (py_str v))
        end in
      match get_or (get "error") None with
      | Some error => Err (raise_amap_failure (py_str error) provider_code)
      | None =>
          if failed_status (get "status")
          then Err (raise_amap_failure
                      (text (get_or (get "info") (get_or (get "message") None)) "地图服务返回失败状态")
                      provider_code)
          else
            match get "success" with
            | Some (JBool false) =>
                Err (raise_amap_failure (text (get_or (get "message") None) "地图工具执行失败") provider_code)
            | _ => Ok kvs
            end
      end
  | v => Err (Amap (mkAmapError ("地图工具返回了无效数据类型: " ++ type_name v) INVALID_OUTPUT true None None))
  end.

(** ** HTTP transport *)

(** What [http_get], [raise_for_status] and [json()] end with. *)
Inductive HttpOutcome :=
| HttpJson (payload : json)
| HttpTimeout
| HttpConnectionError
| HttpStatusError (status_code : option Z)
| HttpRequestError
| HttpInvalidJson. (* a [ValueError] that is no [RequestException] *)

Definition amap_error (message : string) (kind : AmapErrorKind) (retryable : bool) : ClientExn :=
  Amap (mkAmapError message kind retryable None None).

Definition status_error (status_code : option Z) : ClientExn :=
  let shown := match status_code with
               | Some z => if z =? 0 then "unknown" else str_of_Z z
               | None => "unknown"
               end in
  let message := "高德地图 HTTP 请求失败（status=" ++ shown ++ "）" in
  match status_code with
  | Some z =>
      if (z =? 401) || (z =? 403) then amap_error message AUTHORIZATION false
      else if z =? 429 then amap_error message RATE_LIMIT true
      else if 500 <=? z then amap_error message UPSTREAM true
      else amap_error message INVALID_INPUT false
  | None => amap_error message INVALID_INPUT false
  end.

(** The outside world during one request: the quota controller's refusal, if
    any, and the HTTP server. *)
Record Transport := mkTransport {
  tr_quota : option string; tr_http : string → list (string * json) → HttpOutcome
}.

(** [AmapClient._get_json] *)
Definition get_json (t : Transport) (url : string) (params : list (string * json)) : result ClientExn json :=
  match tr_quota t with
  | Some refusal =>
      Err (Amap (mkAmapError refusal RATE_LIMIT true (Some "LOCAL_AMAP_QUOTA_EXCEEDED") (Some refusal)))
  | None =>
      match tr_http t url params with
      | HttpTimeout => Err (amap_error "高德地图请求超时" TIMEOUT true)
      | HttpConnectionError => Err (amap_error "无法连接高德地图服务" UPSTREAM true)
      | HttpStatusError code => Err (status_error code)
      | HttpRequestError => Err (amap_error "高德地图请求执行失败" UPSTREAM true)
      | HttpInvalidJson => Err (amap_error "高德地图返回了无效 JSON" INVALID_OUTPUT true)
      | HttpJson (JObj kvs) => Ok (JObj kvs)
      | HttpJson _ => Err (amap_error "高德地图返回了非对象 JSON" INVALID_OUTPUT true)
      end
  end.

(** The digits of [n] on at least [k] places. *)
Fixpoint zfill (k : nat) (n : Z) : string :=
  match k with
  | O => ""
  | S k => zfill k (n / 10) ++ str_of_Z (n mod 10)
  end.

(** [f"{x:.6f}"] *)
Definition format_6f (x : Q) : string :=
  let n := py_round (Qabs x * 1000000) in
  (if Qle_bool 0 x then "" else "-") ++ str_of_Z (n / 1000000) ++ "." ++ zfill 6 (n mod 1000000).

Example format_6f_examples :
  map format_6f [116397128 # 1000000; -(1 # 10000000); 0; -(45 # 10)]%Q
  = ["116.397128"; "-0.000000"; "0.000000"; "-4.500000"].
Proof. vm_compute. reflexivity. Qed.

(** [AmapClient._coordinate] *)
Definition coordinate (p : Location) : string :=
  format_6f (longitude p) ++ "," ++ format_6f (latitude p).

Record AmapSettings := mkAmapSettings {
  as_api_key : string; as_max_route_legs : Z; as_route_ttl : Z; as_unavailable_ttl : Z
}.

Definition nonempty (s : string) : bool := negb (String.eqb s "").

(** [AmapClient.district_search] *)
Definition district_search (cfg : AmapSettings) (t : Transport) (city : string) : result ClientExn json :=
  get_json t "https://restapi.amap.com/v3/config/district"
    [("key", JStr (as_api_key cfg)); ("keywords", JStr city); ("subdistrict", JInt 0);
     ("extensions", JStr "base"); ("output", JStr "json")].

(** [AmapClient.route] for the end points of a leg. *)
Definition amap_route (cfg : AmapSettings) (t : Transport) (leg : RouteLegRequest) : result ClientExn json :=
  let o := lr_origin leg in let d := lr_destination leg in
  let params := [("key", JStr (as_api_key cfg)); ("origin", JStr (coordinate (rp_location o)));
                 ("destination", JStr (coordinate (rp_location d))); ("show_fields", JStr "cost");
                 ("output", JStr "json")] in
  let poi := ((if nonempty (rp_poi_id o) then [("origin_id", JStr (rp_poi_id o))] else [])
              ++ (if nonempty (rp_poi_id d) then [("destination_id", JStr (rp_poi_id d))] else []))%list in
  match lr_mode leg with
  | driving =>
      get_json t "https://restapi.amap.com/v5/direction/driving"
        (params ++ [("strategy", JInt 32)] ++ poi)%list
  | walking => get_json t "https://restapi.amap.com/v5/direction/walking" (params ++ poi)%list
  | transit =>
      if String.eqb (rp_city_code o) "" || String.eqb (rp_city_code d) ""
      then Err (amap_error "Transit route requires origin and destination city codes" INVALID_INPUT false)
      else
        get_json t "https://restapi.amap.com/v5/direction/transit/integrated"
          (params ++ [("city1", JStr (rp_city_code o)); ("city2", JStr (rp_city_code d));
                      ("strategy", JInt 0); ("AlternativeRoute", JInt 1)]
           ++ (if nonempty (rp_poi_id o) && nonempty (rp_poi_id d)
               then [("originpoi", JStr (rp_poi_id o)); ("destinationpoi", JStr (rp_poi_id d))]
               else []))%list
  end.

(** ** Normalizers (normalizers.py) *)

Inductive FloatText := FT_finite (q : Q) | FT_infinite (negative : bool) | FT_nan | FT_invalid.

Definition split_sign (s : string) : bool * string :=
  match s with
  | String "-" rest => (true, rest)
  | String "+" rest => (false, rest)
  | _ => (false, s)
  end.

(** How many decimal digits a text has. *)
Fixpoint digit_count (s : string) : Z :=
  match s with
  | EmptyString => 0
  | String c rest => (if is_digit c then 1 else 0) + digit_count rest
  end.

(** The digits and the number of decimals of ["12.50"], ["12."] or [".5"]. *)
Definition mantissa (s : string) : option (Z * Z) :=
  match split_once "." s with
  | (whole, None) => option_map (fun v => (v, 0)) (digits_value 0 false whole)
  | (whole, Some fraction) =>
      if String.eqb whole "" && String.eqb fraction "" then None
      else
        a ← (if String.eqb whole "" then Some 0 else digits_value 0 false whole);
        b ← (if String.eqb fraction "" then Some 0 else digits_value 0 false fraction);
        let k := digit_count fraction in Some (a * 10 ^ k + b, k)
  end.

(** The least magnitude [float] rounds to infinity. *)
Definition float_overflow : Z := 2 ^ 1024 - 2 ^ 970.

(** [float(s)] *)
Definition float_text (s : string) : FloatText :=
  let '(negative, rest) := split_sign (ascii_lower (py_strip s)) in
  if existsb (String.eqb rest) ["inf"; "infinity"] then FT_infinite negative
  else if String.eqb rest "nan" then FT_nan
  else
    let '(digits, exponent) := split_once "e" rest in
    let exp := match exponent with
               | None => Some 0
               | Some text =>
                   let '(minus, text) := split_sign text in
                   option_map (fun v => if minus then - v else v) (digits_value 0 false text)
               end in
    match mantissa digits, exp with
    | Some (v, k), Some e =>
        let e := e - k in
        let q := if 0 <=? e then inject_Z (v * 10 ^ e) else (v # Z.to_pos (10 ^ (- e)))%Q in
        if Qle_bool (inject_Z float_overflow) q then FT_infinite negative
        else FT_finite (if negative then - q else q)%Q
    | _, _ => FT_invalid
    end.

Example float_text_examples :
  map float_text ["1200"; " 12.50 "; "-3e2"; "1e999"; "-inf"; "nan"; "1_0"; "1__0"; "."; "abc"; "5e-1"]
  = [FT_finite 1200; FT_finite (1250 # 100); FT_finite (- 300); FT_infinite false; FT_infinite true;
     FT_nan; FT_finite 10; FT_invalid; FT_invalid; FT_invalid; FT_finite (5 # 10)].
Proof. vm_compute. reflexivity. Qed.

(** [_nonnegative_int] over [_nonnegative_number] and [_number]. *)
Definition nonnegative_int (value : json) : result ClientExn (option Z) :=
  let of_float q := if Qle_bool 0 q then Some (Z.max 0 (py_round q)) else None in
  match value with
  | JInt z =>
      if float_overflow <=? Z.abs z then Err OverflowError else Ok (of_float (inject_Z z))
  | JFloat q => Ok (of_float q)
  | JStr s =>
      match float_text s with
      | FT_finite q => Ok (of_float q)
      | FT_infinite false => Err OverflowError
      | _ => Ok None
      end
  | _ => Ok None
  end.

(** [dict.get(key)], absent or [null]. *)
Definition get_item (key : string) (kvs : list (string * json)) : json := default JNull (obj_get key kvs).
Definition as_object (v : json) : list (string * json) := match v with JObj kvs => kvs | _ => [] end.
Definition as_array (v : json) : list json := match v with JArr l => l | _ => [] end.
Definition is_object (v : json) : bool := match v with JObj _ => true | _ => false end.

Section Text.
Context `{PyRepr}.

(** [_text] *)
Fixpoint amap_text (value : json) : string :=
  match value with
  | JStr s => squeeze s
  | JInt _ | JFloat _ => py_str value
  | JArr l => String.concat "," (List.filter nonempty (map amap_text l))
  | _ => ""
  end.

(** [normalize_city_code] *)
Definition normalize_city_code (payload : list (string * json)) : string :=
  default "" (head (List.filter nonempty
    (map (fun raw => amap_text (get_item "citycode" (as_object raw)))
       (List.filter is_object (as_array (get_item "districts" payload)))))).
End Text.

(** An estimate of a leg, without the fields a constructor call adds. *)
Definition estimate_of_leg (leg : RouteLegRequest) (available : bool) (distance duration : option Z)
    (error_code error_message : option string) : RouteEstimate :=
  mkRouteEstimate (lr_day_index leg) (lr_leg_index leg) (lr_leg_type leg) (lr_date leg)
    (rp_name (lr_origin leg)) (rp_name (lr_destination leg)) (lr_mode leg)
    available distance duration error_code error_message false.

(** [normalize_route] with the mode of the leg. *)
Definition normalize_route (payload : list (string * json)) (leg : RouteLegRequest) : result ClientExn RouteEstimate :=
  let collection := match lr_mode leg with transit => "transits" | _ => "paths" end in
  let candidates := as_array (get_item collection (as_object (get_item "route" payload))) in
  match List.filter is_object candidates with
  | [] => Ok (estimate_of_leg leg false None None (Some "NO_ROUTE") (Some "Amap returned no available route"))
  | candidate :: _ =>
      let candidate := as_object candidate in
      let cost := as_object (get_item "cost" candidate) in
      distance ← nonnegative_int (get_item "distance" candidate);
      duration ← nonnegative_int (default (get_item "duration" candidate) (obj_get "duration" cost));
      Ok match distance, duration with
         | Some _, Some _ => estimate_of_leg leg true distance duration None None
         | _, _ => estimate_of_leg leg false None None (Some "INVALID_ROUTE_METRICS")
                     (Some "Amap route is missing valid distance or duration")
         end
  end.

(** ** Cache keys (route_cache.py) *)

(** The SHA-256 of the canonical JSON text of a payload. *)
Class PayloadDigest := payload_digest : json → string.

Definition key_point (p : RoutePoint) : json :=
  JObj [("poi_id", JStr (py_strip (rp_poi_id p)));
        ("longitude", JStr (format_6f (longitude (rp_location p))));
        ("latitude", JStr (format_6f (latitude (rp_location p))));
        ("city_code", JStr (py_strip (rp_city_code p)))].

Definition route_key_payload (leg : RouteLegRequest) : json :=
  JObj [("version", JInt 1); ("provider", JStr "amap"); ("mode", JStr (mode_value (lr_mode leg)));
        ("origin", key_point (lr_origin leg)); ("destination", key_point (lr_destination leg))].

(** [route_leg_cache_key] *)
Definition route_leg_cache_key `{PayloadDigest} (leg : RouteLegRequest) : string :=
  payload_digest (route_key_payload leg).

(** ** Cached estimates *)

(** [RouteEstimate.model_validate] *)
Class RouteReader := read_route : json → option RouteEstimate.

(** The field constraints of [RouteEstimate]. *)
Definition estimate_ok (e : RouteEstimate) : bool :=
  (0 <=? re_day_index e) && (0 <=? re_leg_index e)
  && (0 <=? default 0 (re_distance_meters e)) && (0 <=? default 0 (re_duration_seconds e)).

Definition with_cache_hit (hit : bool) (e : RouteEstimate) : RouteEstimate :=
  mkRouteEstimate (re_day_index e) (re_leg_index e) (re_leg_type e) (re_date e) (re_origin_name e)
    (re_destination_name e) (re_mode e) (re_available e) (re_distance_meters e)
    (re_duration_seconds e) (re_error_code e) (re_error_message e) hit.

(** A row keeps the estimate with [cache_hit=False]. *)
#[export] Instance route_cached `{RouteReader} : Cached RouteEstimate := {|
  cd_dump := dump_route; cd_validate := read_route; cd_stored := with_cache_hit false;
  cd_columns e := ["amap"; mode_value (re_mode e)] |}.

(** ** [AmapProviderClient]: the routes of a trip *)

(** The route cache the provider was built with: none, the layered one of
    main.py, or the table alone ([get] and [set] without [lookup]). *)
Inductive RouteCacheKind := NoRouteCache | LayeredCache | TableCache.

(** What was handed to [_cache_set]: the prepared leg, its estimate and when. *)
Record Answer := mkAnswer {
  aw_key : string; aw_leg : RouteLegRequest; aw_estimate : RouteEstimate; aw_ttl : Z; aw_start : datetime
}.

(** The city codes and the caches; [ps_answers] records the answers given to
    [_cache_set], newest first, for the statements only. *)
Record ProviderState := mkProvider {
  ps_city_codes : gmap string string; ps_cache : LayeredState; ps_answers : list Answer
}.

(** What happens around the handling of one leg. *)
Record LegWeather := mkLegWeather {
  lg_lookup : Weather; lg_district : Transport; lg_route : Transport; lg_store : Weather
}.

(** The local counters of [estimate_routes]. *)
Record RouteCounters := mkCounters {
  rc_hits : Z; rc_misses : Z; rc_l1_hits : Z; rc_l1_misses : Z; rc_l1_degraded : Z;
  rc_l2_hits : Z; rc_l2_misses : Z; rc_l2_errors : Z; rc_calls : Z;
  rc_avoided_l1 : Z; rc_avoided_l2 : Z
}.
Definition no_counters : RouteCounters := mkCounters 0 0 0 0 0 0 0 0 0 0 0.

#[export] Instance RouteCounters_rebuild : Rebuild RouteCounters := fun c =>
  mkCounters (rc_hits c) (rc_misses c) (rc_l1_hits c) (rc_l1_misses c) (rc_l1_degraded c)
    (rc_l2_hits c) (rc_l2_misses c) (rc_l2_errors c) (rc_calls c) (rc_avoided_l1 c) (rc_avoided_l2 c).

Definition fatal (e : AmapProviderError) : bool :=
  bool_decide (ae_kind e = AUTHORIZATION) || bool_decide (ae_kind e = RATE_LIMIT).

Definition with_city_codes (city_code : string) (p : RoutePoint) : RoutePoint :=
  mkRoutePoint (rp_name p) (rp_location p) (rp_poi_id p)
    (if nonempty (rp_city_code p) then rp_city_code p else city_code).

(** [_unavailable_route] *)
Definition unavailable_route (leg : RouteLegRequest) (e : AmapProviderError) : RouteEstimate :=
  estimate_of_leg leg false None None (Some ("AMAP_" ++ kind_upper (ae_kind e))) (Some (ae_message e)).

(** [_bind_cached_route] *)
Definition bind_cached_route (e : RouteEstimate) (leg : RouteLegRequest) : RouteEstimate :=
  with_cache_hit true
    (estimate_of_leg leg (re_available e) (re_distance_meters e) (re_duration_seconds e)
       (re_error_code e) (re_error_message e)).

Section Client.
Context `{PyRepr} `{PayloadDigest} `{RouteReader} `{DatetimeText}.
Context (cfg : AmapSettings) (store : StoreConfig) (l1_key : string → string) (kind : RouteCacheKind).

(** [resolve_city_code] *)
Definition resolve_city_code (city : string) (w : LegWeather) (s : ProviderState)
    : result ClientExn string * ProviderState :=
  let cache_key := ascii_lower (py_strip city) in
  match ps_city_codes s !! cache_key with
  | Some (String c code) => (Ok (String c code), s)
  | _ =>
      match raw ← district_search cfg (lg_district w) city; validate_amap_response raw with
      | Err e => (Err e, s)
      | Ok payload =>
          let city_code := normalize_city_code payload in
          if String.eqb city_code ""
          then (Err (amap_error ("Amap returned no citycode for " ++ city) INVALID_OUTPUT true), s)
          else (Ok city_code,
                mkProvider (<[cache_key := city_code]> (ps_city_codes s)) (ps_cache s) (ps_answers s))
      end
  end.

(** [_prepare_leg] *)
Definition prepare_leg (city : string) (w : LegWeather) (leg : RouteLegRequest) (s : ProviderState)
    : result ClientExn RouteLegRequest * ProviderState :=
  match lr_mode leg with
  | transit =>
      let origin_city_code := rp_city_code (lr_origin leg) in
      let destination_city_code := rp_city_code (lr_destination leg) in
      let fallback := if nonempty origin_city_code then origin_city_code else destination_city_code in
      let '(r, s) := if nonempty fallback then (Ok fallback, s) else resolve_city_code city w s in
      match r with
      | Err e => (Err e, s)
      | Ok fallback =>
          (Ok (mkLegRequest (lr_day_index leg) (lr_leg_index leg) (lr_leg_type leg) (lr_date leg)
                 (with_city_codes fallback (lr_origin leg)) (with_city_codes fallback (lr_destination leg))
                 (lr_mode leg)), s)
      end
  | _ => (Ok leg, s)
  end.

(** [_cache_get]: the bound estimate, its source and the two read states. *)
Definition cache_get (w : Weather) (cache_key : string) (leg : RouteLegRequest) (c : LayeredState)
    : (option RouteEstimate * string * string * string) * LayeredState :=
  match kind with
  | NoRouteCache => ((None, "disabled", "skipped", "skipped"), c)
  | LayeredCache =>
      let '(l, c) := layered_lookup store l1_key w cache_key c in
      ((option_map (fun e => bind_cached_route e leg) (ll_value l), source_value (ll_source l),
        ll_l1_status l, ll_l2_status l), c)
  | TableCache =>
      let '(r, rows) := get_entry (wt_l2 w) cache_key (ls_rows c) in
      let c := with_rows rows c in
      match r with
      | Err _ => ((None, "miss", "degraded", "error"), c)
      | Ok None => ((None, "miss", "skipped", "skipped"), c)
      | Ok (Some e) => ((Some (bind_cached_route (en_value e) leg), "legacy", "skipped", "skipped"), c)
      end
  end.

(** [_record_provider_call] *)
Definition note_provider_call (c : LayeredState) : LayeredState :=
  match kind with LayeredCache => record_provider_call c | _ => c end.

(** [_cache_set] *)
Definition cache_set (w : Weather) (cache_key : string) (estimate : RouteEstimate) (c : LayeredState)
    : LayeredState :=
  let ttl_seconds := if re_available estimate then as_route_ttl cfg else as_unavailable_ttl cfg in
  if ttl_seconds <=? 0 then c
  else
    match kind with
    | NoRouteCache => c
    | LayeredCache => layered_set store l1_key w cache_key estimate ttl_seconds c
    | TableCache => with_rows (put_entry (wt_l2 w) cache_key estimate ttl_seconds (ls_rows c)).2 c
    end.

Definition count_hit (source : string) (c : RouteCounters) : RouteCounters :=
  let c := c <| rc_hits := rc_hits c + 1 |> in
  if String.eqb source "l1"
  then c <| rc_l1_hits := rc_l1_hits c + 1 |> <| rc_avoided_l1 := rc_avoided_l1 c + 1 |>
  else if String.eqb source "l2"
  then c <| rc_l2_hits := rc_l2_hits c + 1 |> <| rc_avoided_l2 := rc_avoided_l2 c + 1 |>
  else c.

Definition count_miss (l1_status l2_status : string) (c : RouteCounters) : RouteCounters :=
  let c := match kind with NoRouteCache => c | _ => c <| rc_misses := rc_misses c + 1 |> end in
  let c := if existsb (String.eqb l1_status) ["miss"; "invalid"]
           then c <| rc_l1_misses := rc_l1_misses c + 1 |>
           else if String.eqb l1_status "degraded"
           then c <| rc_l1_degraded := rc_l1_degraded c + 1 |> else c in
  let c := if String.eqb l2_status "miss"
           then c <| rc_l2_misses := rc_l2_misses c + 1 |>
           else if String.eqb l2_status "error"
           then c <| rc_l2_errors := rc_l2_errors c + 1 |> else c in
  c <| rc_calls := rc_calls c + 1 |>.

(** The provider's answer for a leg. *)
Definition ask_provider (w : LegWeather) (leg : RouteLegRequest) : result ClientExn RouteEstimate :=
  raw ← amap_route cfg (lg_route w) leg;
  payload ← validate_amap_response raw;
  normalize_route payload leg.

(** The [except AmapProviderError] of the loop. *)
Definition recover (original : RouteLegRequest) (r : result ClientExn RouteEstimate)
    : result ClientExn RouteEstimate :=
  match r with
  | Err (Amap e) => if fatal e then Err (Amap e) else Ok (unavailable_route original e)
  | r => r
  end.

(** [_cache_set] with its record. *)
Definition keep_answer (w : Weather) (cache_key : string) (leg : RouteLegRequest) (estimate : RouteEstimate)
    (s : ProviderState) : ProviderState :=
  mkProvider (ps_city_codes s) (cache_set w cache_key estimate (ps_cache s))
    (mkAnswer cache_key leg estimate
       (if re_available estimate then as_route_ttl cfg else as_unavailable_ttl cfg) (wt_start w)
     :: ps_answers s).

(** One turn of the loop of [estimate_routes]. *)
Definition estimate_leg (city : string) (w : LegWeather) (original : RouteLegRequest)
    (c : RouteCounters) (s : ProviderState)
    : result ClientExn (RouteEstimate * RouteCounters) * ProviderState :=
  match prepare_leg city w original s with
  | (Err e, s) => (recover original (Err e) ≫= fun estimate => Ok (estimate, c), s)
  | (Ok leg, s) =>
      let cache_key := route_leg_cache_key leg in
      let '((cached, source, l1_status, l2_status), cache) :=
        cache_get (lg_lookup w) cache_key leg (ps_cache s) in
      let s := mkProvider (ps_city_codes s) cache (ps_answers s) in
      match cached with
      | Some estimate => (Ok (estimate, count_hit source c), s)
      | None =>
          let c := count_miss l1_status l2_status c in
          let s := mkProvider (ps_city_codes s) (note_provider_call (ps_cache s)) (ps_answers s) in
          match recover original (ask_provider w leg) with
          | Err e => (Err e, s)
          | Ok estimate => (Ok (estimate, c), keep_answer (lg_store w) cache_key leg estimate s)
          end
      end
  end.

Fixpoint estimate_legs (city : string) (weather : nat → LegWeather) (legs : list RouteLegRequest)
    (c : RouteCounters) (s : ProviderState)
    : result ClientExn (list RouteEstimate * RouteCounters) * ProviderState :=
  match legs with
  | [] => (Ok ([], c), s)
  | leg :: legs =>
      match estimate_leg city (weather 0%nat) leg c s with
      | (Err e, s) => (Err e, s)
      | (Ok (estimate, c), s) =>
          match estimate_legs city (fun i => weather (S i)) legs c s with
          | (Err e, s) => (Err e, s)
          | (Ok (estimates, c), s) => (Ok (estimate :: estimates, c), s)
          end
      end
  end.

Definition level_hit_rate (hits misses : Z) : json :=
  JFloat (if hits + misses =? 0 then 0 else inject_Z hits / inject_Z (hits + misses))%Q.

Definition route_metrics (c : RouteCounters) : list (string * json) :=
  [("cache_hits", JInt (rc_hits c)); ("cache_misses", JInt (rc_misses c));
   ("l1_cache_hits", JInt (rc_l1_hits c)); ("l1_cache_misses", JInt (rc_l1_misses c));
   ("l1_cache_degraded", JInt (rc_l1_degraded c));
   ("l1_cache_hit_rate", level_hit_rate (rc_l1_hits c) (rc_l1_misses c));
   ("l2_cache_hits", JInt (rc_l2_hits c)); ("l2_cache_misses", JInt (rc_l2_misses c));
   ("l2_cache_errors", JInt (rc_l2_errors c));
   ("l2_cache_hit_rate", level_hit_rate (rc_l2_hits c) (rc_l2_misses c));
   ("provider_calls", JInt (rc_calls c));
   ("provider_calls_avoided_by_l1", JInt (rc_avoided_l1 c));
   ("provider_calls_avoided_by_l2", JInt (rc_avoided_l2 c))].

Definition len {A} (l : list A) : Z := Z.of_nat (length l).

(** How many legs a call selects. *)
Definition leg_limit (limit : option Z) : nat :=
  Z.to_nat (Z.max 0 (default (as_max_route_legs cfg) limit)).

(** [estimate_routes] *)
Definition estimate_routes (city plan_fingerprint : string) (legs : list RouteLegRequest)
    (limit : option Z) (weather : nat → LegWeather) (s : ProviderState)
    : result ClientExn RouteEstimateResult * ProviderState :=
  let selected := take (leg_limit limit) legs in
  match estimate_legs city weather selected no_counters s with
  | (Err e, s) => (Err e, s)
  | (Ok (estimates, c), s) =>
      (Ok (mkRouteResult plan_fingerprint (len legs) (len selected)
             (Z.max 0 (len legs - len selected))
             (len (filter (fun e => re_available e = false) estimates))
             (route_metrics c) estimates), s)
  end.
End Client.

(** What the estimation of routes promises ([AmapClient]): one estimate per
    selected leg whatever the caches do, counters that add up, errors that are
    the provider's alone, and cached routes that an earlier answer of the
    provider for the same query explains. *)

(** ** Estimates of a leg *)

(** The fields that say which leg an estimate is about. *)
Definition bound_to (leg : RouteLegRequest) (e : RouteEstimate) : Prop :=
  re_day_index e = lr_day_index leg ∧ re_leg_index e = lr_leg_index leg
  ∧ re_leg_type e = lr_leg_type leg ∧ re_date e = lr_date leg
  ∧ re_origin_name e = rp_name (lr_origin leg) ∧ re_destination_name e = rp_name (lr_destination leg)
  ∧ re_mode e = lr_mode leg.

(** [leg'] is [leg] as [_prepare_leg] completes it. *)
Definition prepared (leg leg' : RouteLegRequest) : Prop :=
  ∃ codes, leg' = leg
           ∨ leg' = mkLegRequest (lr_day_index leg) (lr_leg_index leg) (lr_leg_type leg) (lr_date leg)
                      (with_city_codes codes (lr_origin leg)) (with_city_codes codes (lr_destination leg))
                      (lr_mode leg).

Lemma prepared_bound leg leg' e : prepared leg leg' → bound_to leg' e → bound_to leg e.
Proof. intros [codes [->| ->]]; done. Qed.

Lemma nonnegative_int_ok v o : nonnegative_int v = Ok o → 0 <= default 0 o.
Proof.
  unfold nonnegative_int. intros Hv.
  repeat (case_match; simplify_eq/=); cbn; try lia.
Qed.

(** A normalized route is the estimate of its leg, well formed and new. *)
Lemma normalize_route_ok payload leg e :
  normalize_route payload leg = Ok e →
  bound_to leg e ∧ re_cache_hit e = false
  ∧ 0 <= default 0 (re_distance_meters e) ∧ 0 <= default 0 (re_duration_seconds e).
Proof.
  unfold normalize_route. destruct (List.filter _ _) as [|candidate rest].
  { intros [= <-]. repeat split; cbn; lia. }
  destruct (nonnegative_int (get_item "distance" _)) as [dist|] eqn:Hd; [|done].
  cbn [mbind result_bind].
  destruct (nonnegative_int (default _ _)) as [dur|] eqn:Ht; [|done].
  intros [= <-]. apply nonnegative_int_ok in Hd, Ht.
  destruct dist, dur; repeat split; cbn in *; lia.
Qed.

(** ** The counters *)

Definition hits_of (es : list RouteEstimate) : Z :=
  len (List.filter re_cache_hit es).

Lemma hits_of_cons e es : hits_of (e :: es) = (if re_cache_hit e then 1 else 0) + hits_of es.
Proof. unfold hits_of, len. cbn [List.filter]. destruct (re_cache_hit e); cbn [length]; lia. Qed.

(** What the legs of [es] add to the counters. *)
Record adds (kind : RouteCacheKind) (es : list RouteEstimate) (c c' : RouteCounters) : Prop := {
  adds_hits : rc_hits c' = rc_hits c + hits_of es;
  adds_asked : rc_hits c' + rc_calls c' <= rc_hits c + rc_calls c + len es;
  adds_calls : rc_calls c <= rc_calls c';
  adds_misses : rc_misses c' - rc_misses c
                = match kind with NoRouteCache => 0 | _ => rc_calls c' - rc_calls c end;
  adds_levels : kind = LayeredCache →
    (rc_l1_hits c' + rc_l2_hits c') - (rc_l1_hits c + rc_l2_hits c) = rc_hits c' - rc_hits c
    ∧ (rc_l2_misses c' + rc_l2_errors c') - (rc_l2_misses c + rc_l2_errors c) = rc_calls c' - rc_calls c;
  adds_avoided1 : rc_avoided_l1 c' - rc_avoided_l1 c = rc_l1_hits c' - rc_l1_hits c;
  adds_avoided2 : rc_avoided_l2 c' - rc_avoided_l2 c = rc_l2_hits c' - rc_l2_hits c
}.

Lemma adds_nil kind c : adds kind [] c c.
Proof. split; unfold hits_of, len; cbn; try lia; destruct kind; intros; lia. Qed.

Lemma adds_cons kind e es c c1 c2 : adds kind [e] c c1 → adds kind es c1 c2 → adds kind (e :: es) c c2.
Proof.
  intros [h1 k1 n1 m1 l1 a1 b1] [h2 k2 n2 m2 l2 a2 b2].
  rewrite hits_of_cons in h1. change (hits_of []) with 0 in h1. unfold len in *. cbn [length] in *.
  split; rewrite ?hits_of_cons; unfold len; cbn [length]; try lia.
  - destruct kind; lia.
  - intros Hk. specialize (l1 Hk). specialize (l2 Hk). lia.
Qed.

Section Provider.
Context `{PyRepr} `{PayloadDigest} `{RouteReader} `{DatetimeText}.
Context (cfg : AmapSettings) (store : StoreConfig) (l1_key : string → string) (kind : RouteCacheKind).

Notation prepare_leg := (prepare_leg cfg).
Notation estimate_leg := (estimate_leg cfg store l1_key kind).
Notation estimate_legs := (estimate_legs cfg store l1_key kind).
Notation estimate_routes := (estimate_routes cfg store l1_key kind).

Lemma prepare_leg_prepared city w leg s leg' s' :
  prepare_leg city w leg s = (Ok leg', s') → prepared leg leg'.
Proof.
  unfold AmapClient.prepare_leg. intros Hp.
  destruct (lr_mode leg) eqn:Hm; [simplify_eq; exists ""; by left..|].
  destruct (if nonempty _ then _ else _) as [[codes|e] s1]; simplify_eq.
  exists codes. right. by rewrite Hm.
Qed.

(** Preparing a leg touches the city codes alone. *)
Lemma prepare_leg_state city w leg s r s' :
  prepare_leg city w leg s = (r, s') → ps_cache s' = ps_cache s ∧ ps_answers s' = ps_answers s.
Proof.
  unfold AmapClient.prepare_leg, resolve_city_code. intros Hp.
  repeat (case_match; simplify_eq/=; try done).
Qed.

(** The exchanges with the provider around one leg. *)
Definition district_answer (city : string) (w : LegWeather) : result ClientExn (list (string * json)) :=
  raw ← district_search cfg (lg_district w) city; validate_amap_response raw.

(** An error of the provider: an exchange raised it, or no city code came back. *)
Definition provider_raised (city : string) (w : LegWeather) (e : ClientExn) : Prop :=
  district_answer city w = Err e
  ∨ (∃ payload, district_answer city w = Ok payload ∧ normalize_city_code payload = ""
                ∧ e = amap_error ("Amap returned no citycode for " ++ city) INVALID_OUTPUT true)
  ∨ ∃ leg, ask_provider cfg w leg = Err e.

(** What reaches the caller: the errors that concern the whole provider. *)
Definition escapes (e : ClientExn) : Prop :=
  match e with Amap e => fatal e = true | OverflowError => True end.

Lemma prepare_leg_raised city w leg s e s' :
  prepare_leg city w leg s = (Err e, s') → provider_raised city w e.
Proof.
  unfold AmapClient.prepare_leg, resolve_city_code, provider_raised, district_answer. intros Hp.
  repeat (case_match; simplify_eq/=; try done); try (by left).
  all: right; left; eexists; split_and!; [done| |done]; by apply String.eqb_eq.
Qed.

Lemma recover_raised original r e : recover original r = Err e → r = Err e ∧ escapes e.
Proof.
  unfold recover. destruct r as [|[ex|]]; [done| |by intros [= <-]].
  destruct (fatal ex) eqn:Hf; [|done]. by intros [= <-].
Qed.

(** The estimate made for a leg by an exchange with the provider. *)
Definition answered (city : string) (w : LegWeather) (leg : RouteLegRequest) (e : RouteEstimate) : Prop :=
  (∃ leg', prepared leg leg' ∧ ask_provider cfg w leg' = Ok e)
  ∨ ∃ ex, provider_raised city w (Amap ex) ∧ fatal ex = false ∧ e = unavailable_route leg ex.

Lemma ask_provider_ok w leg e :
  ask_provider cfg w leg = Ok e →
  bound_to leg e ∧ re_cache_hit e = false
  ∧ 0 <= default 0 (re_distance_meters e) ∧ 0 <= default 0 (re_duration_seconds e).
Proof.
  unfold ask_provider. destruct (amap_route _ _ _) as [raw|]; [|done]. cbn [mbind result_bind].
  destruct (validate_amap_response raw) as [payload|]; [|done]. apply normalize_route_ok.
Qed.

Lemma answered_ok city w leg e :
  answered city w leg e →
  bound_to leg e ∧ re_cache_hit e = false
  ∧ 0 <= default 0 (re_distance_meters e) ∧ 0 <= default 0 (re_duration_seconds e).
Proof.
  intros [(leg' & Hp & Ha)|(ex & _ & _ & ->)]; [|repeat split; cbn; lia].
  apply ask_provider_ok in Ha as (Hb & ?). split; [|done]. by eapply prepared_bound.
Qed.

Lemma recover_answered city w original leg e :
  prepared original leg → recover original (ask_provider cfg w leg) = Ok e → answered city w original e.
Proof.
  intros Hp. unfold recover. destruct (ask_provider cfg w leg) as [e'|[ex|]] eqn:Ha; [|destruct (fatal ex) eqn:Hf; [done|]|done].
  - intros [= <-]. left. eauto.
  - intros [= <-]. right. exists ex. split_and!; [|done..]. right. right. eauto.
Qed.

(** A cache read that misses, by the statuses it reports. *)
Lemma cache_get_sources w key leg c o src l1s l2s c' :
  cache_get store l1_key kind w key leg c = ((o, src, l1s, l2s), c') →
  match kind, o with
  | LayeredCache, Some _ => src = "l1" ∨ src = "l2"
  | LayeredCache, None => l2s = "miss" ∨ l2s = "error"
  | TableCache, Some _ => src = "legacy"
  | NoRouteCache, Some _ => False
  | _, None => True
  end.
Proof.
  unfold cache_get. destruct kind; [intros; by simplify_eq|..].
  - unfold layered_lookup. intros Hg. repeat (case_match; simplify_eq/=; eauto).
  - intros Hg. repeat (case_match; simplify_eq/=; eauto).
Qed.

Lemma cache_get_bound w key leg c e src l1s l2s c' :
  cache_get store l1_key kind w key leg c = ((Some e, src, l1s, l2s), c') →
  bound_to leg e ∧ re_cache_hit e = true.
Proof.
  unfold cache_get. destruct kind; [intros; by simplify_eq|..].
  - destruct (layered_lookup _ _ _ _ _) as [l c1]. destruct (ll_value l); intros; simplify_eq/=. done.
  - intros Hg. repeat (case_match; simplify_eq/=; try done).
Qed.

(** One turn of the loop: its estimate is bound to the leg and comes from the
    cache or from the provider; its counters are accounted for. *)
Lemma estimate_leg_ok city w leg c s e c' s' :
  estimate_leg city w leg c s = (Ok (e, c'), s') →
  bound_to leg e ∧ (re_cache_hit e = true ∨ answered city w leg e) ∧ adds kind [e] c c'.
Proof.
  unfold AmapClient.estimate_leg. destruct (prepare_leg city w leg s) as [[leg'|ex] s1] eqn:Hp.
  - pose proof (prepare_leg_prepared _ _ _ _ _ _ Hp) as Hprep.
    destruct (cache_get _ _ _ _ _ _ _) as [[[[o src] l1s] l2s] cache] eqn:Hg.
    pose proof (cache_get_sources _ _ _ _ _ _ _ _ _ Hg) as Hsrc.
    destruct o as [e0|].
    + intros [= <- <- <-]. apply cache_get_bound in Hg as [Hb Hh].
      split_and!; [by eapply prepared_bound|by left|].
      unfold count_hit. destruct kind; [done| |subst src];
        [destruct Hsrc as [->| ->]|]; split; rewrite ?hits_of_cons, ?Hh; unfold hits_of, len; cbn; intros; try done; lia.
    + destruct (recover leg _) as [e0|ex] eqn:Hr; [|done]. intros [= <- <- <-].
      pose proof (recover_answered city _ _ _ _ Hprep Hr) as Ha.
      destruct (answered_ok _ _ _ _ Ha) as (Hb & Hh & _).
      split_and!; [done|by right|]. unfold count_miss.
      destruct kind; [|destruct Hsrc as [->| ->]|]; cbn [String.eqb Ascii.eqb Bool.eqb];
        repeat case_match; split; rewrite ?hits_of_cons, ?Hh; unfold hits_of, len; cbn; intros; try done; lia.
  - destruct (recover leg (Err ex)) as [e0|] eqn:Hr; [|done]. intros [= <- <- <-].
    apply prepare_leg_raised in Hp. unfold recover in Hr. destruct ex as [ex|]; [|done].
    destruct (fatal ex) eqn:Hf; [done|]. simplify_eq.
    assert (Ha : answered city w leg (unavailable_route leg ex)) by (right; eauto).
    destruct (answered_ok _ _ _ _ Ha) as (Hb & Hh & _). split_and!; [done|by right|].
    split; rewrite ?hits_of_cons, ?Hh; unfold hits_of, len; cbn; try lia; destruct kind; intros; lia.
Qed.

Lemma estimate_leg_raised city w leg c s e s' :
  estimate_leg city w leg c s = (Err e, s') → provider_raised city w e ∧ escapes e.
Proof.
  unfold AmapClient.estimate_leg. destruct (prepare_leg city w leg s) as [[leg'|ex] s1] eqn:Hp.
  - destruct (cache_get _ _ _ _ _ _ _) as [[[[o src] l1s] l2s] cache].
    destruct o; [done|]. destruct (recover leg _) as [e0|ex] eqn:Hr; [done|]. intros [= <- <-].
    apply recover_raised in Hr as [Hr He]. split; [|done]. right. right. eauto.
  - destruct (recover leg (Err ex)) as [e0|ex'] eqn:Hr; [done|]. intros [= <- <-].
    apply recover_raised in Hr as [[= ->] He]. split; [|done]. by eapply prepare_leg_raised.
Qed.

(** The whole loop: an estimate per leg, in order. *)
Lemma estimate_legs_ok city weather legs c s es c' s' :
  estimate_legs city weather legs c s = (Ok (es, c'), s') →
  adds kind es c c' ∧ length es = length legs
  ∧ ∀ i leg e, legs !! i = Some leg → es !! i = Some e →
      bound_to leg e ∧ (re_cache_hit e = true ∨ answered city (weather i) leg e).
Proof.
  revert weather c s es c' s'. induction legs as [|leg legs IH]; intros weather c s es c' s'; cbn.
  { intros [= <- <- <-]. split_and!; [apply adds_nil|done|]. intros i. by rewrite lookup_nil. }
  destruct (estimate_leg city (weather 0%nat) leg c s) as [[[e c1]|ex] s1] eqn:E1; [|done].
  destruct (estimate_legs city _ legs c1 s1) as [[[es1 c2]|ex] s2] eqn:E2; [|done].
  intros [= <- <- <-]. apply estimate_leg_ok in E1 as (Hb & Ha & A1). apply IH in E2 as (A2 & Hlen & Hall).
  split_and!; [by eapply adds_cons|cbn; lia|].
  intros [|i] leg0 e0; cbn; [intros; by simplify_eq|]. apply Hall.
Qed.

Lemma estimate_legs_raised city weather legs c s e s' :
  estimate_legs city weather legs c s = (Err e, s') →
  escapes e ∧ ∃ i, (i < length legs)%nat ∧ provider_raised city (weather i) e.
Proof.
  revert weather c s s'. induction legs as [|leg legs IH]; intros weather c s s'; cbn; [done|].
  destruct (estimate_leg city (weather 0%nat) leg c s) as [[[e1 c1]|ex] s1] eqn:E1.
  - destruct (estimate_legs city _ legs c1 s1) as [[[es1 c2]|ex] s2] eqn:E2; [done|].
    intros [= <- <-]. apply IH in E2 as (He & i & Hi & Hr). split; [done|]. exists (S i). split; [lia|done].
  - intros [= <- <-]. apply estimate_leg_raised in E1 as [Hr He]. split; [done|]. exists 0%nat. split; [lia|done].
Qed.

Definition counters_of (r : RouteEstimateResult) (c : RouteCounters) : Prop :=
  rr_metrics r = route_metrics c.

(** C13: [estimate_routes] ends with an estimate for each leg it selects, in
    order, each bound to its leg and either cached or the answer of an exchange
    made for that leg; the counters add up and the failed legs are those
    unavailable.  It raises only what an exchange with the provider raised, and
    only an authorization or quota error or an overflow: whatever Redis and the
    database do, the caches raise nothing. *)
Theorem route_estimation_accounts city plan_fingerprint legs limit weather s r s' :
  estimate_routes city plan_fingerprint legs limit weather s = (r, s') →
  let selected := take (leg_limit cfg limit) legs in
  match r with
  | Err e => escapes e ∧ ∃ i, (i < length selected)%nat ∧ provider_raised city (weather i) e
  | Ok res =>
      length (rr_routes res) = length selected
      ∧ (∀ i leg e, selected !! i = Some leg → rr_routes res !! i = Some e →
           bound_to leg e ∧ (re_cache_hit e = true ∨ answered city (weather i) leg e))
      ∧ rr_requested_legs res = len legs ∧ rr_evaluated_legs res = len selected
      ∧ rr_evaluated_legs res + rr_truncated_legs res = rr_requested_legs res
      ∧ rr_failed_legs res = len (filter (fun e => re_available e = false) (rr_routes res))
      ∧ ∃ c, counters_of res c
          ∧ rc_hits c = hits_of (rr_routes res)
          ∧ 0 <= rc_calls c ∧ rc_hits c + rc_calls c <= rr_evaluated_legs res
          ∧ rc_misses c = match kind with NoRouteCache => 0 | _ => rc_calls c end
          ∧ (kind = LayeredCache →
               rc_l1_hits c + rc_l2_hits c = rc_hits c ∧ rc_l2_misses c + rc_l2_errors c = rc_calls c)
          ∧ rc_avoided_l1 c = rc_l1_hits c ∧ rc_avoided_l2 c = rc_l2_hits c
  end.
Proof.
  intros He selected. unfold AmapClient.estimate_routes in He. fold selected in He.
  destruct (estimate_legs city weather selected no_counters s) as [[[es c]|e] s1] eqn:E;
    simplify_eq/=; [|by eapply estimate_legs_raised].
  apply estimate_legs_ok in E as ([h k n m l a b] & Hlen & Hall). cbn in h, k, n, m, l, a, b.
  unfold len in *. assert (length selected ≤ length legs)%nat by (unfold selected; rewrite length_take; lia).
  split_and!; try done; try lia.
  exists c. unfold counters_of. cbn.
  split_and!; [done|lia..|destruct kind; lia|intros Hk; specialize (l Hk); lia|lia|lia].
Qed.

(** ** Cached routes *)

Section Cached.
Context `{!DatetimeTextLaws} (d : Z).

Definition written (answers : list Answer) (key : string) (v : RouteEstimate) (ttl : Z) (t : datetime) : Prop :=
  ∃ a, a ∈ answers ∧ aw_key a = key ∧ aw_estimate a = v ∧ aw_ttl a = ttl ∧ aw_start a = t.

(** An answer of the provider for the query of its key. *)
Definition answer_ok (a : Answer) : Prop :=
  aw_key a = route_leg_cache_key (aw_leg a) ∧ estimate_ok (aw_estimate a) = true
  ∧ re_cache_hit (aw_estimate a) = false
  ∧ ∃ w original, prepared original (aw_leg a)
      ∧ recover original (ask_provider cfg w (aw_leg a)) = Ok (aw_estimate a).

(** The caches hold answers only. *)
Definition caches_fresh (s : ProviderState) : Prop :=
  Forall answer_ok (ps_answers s) ∧ cache_fresh store l1_key d (written (ps_answers s)) (ps_cache s).

Definition steady_leg (w : LegWeather) : Prop := steady d (lg_lookup w) ∧ steady d (lg_store w).

Hypothesis Hpolicy : policy_ok (sc_ttl_policy store) = true.
Hypothesis Hinj : ∀ k k', l1_key k = l1_key k' → k = k'.
Hypothesis Hread : ∀ e, estimate_ok e = true → read_route (dump_route e) = Some e.

Lemma reads_back e : estimate_ok e = true → cd_validate (cd_dump e) = Some e.
Proof. apply Hread. Qed.

Lemma stored_ok e : estimate_ok e = true → estimate_ok (cd_stored e) = true.
Proof. done. Qed.

Lemma steady_pos w : steady d w → 0 <= d.
Proof. unfold steady. rewrite !Forall_cons. lia. Qed.

Lemma written_ok answers k v ttl t :
  Forall answer_ok answers → written answers k v ttl t → estimate_ok v = true ∧ cd_stored v = v.
Proof.
  rewrite Forall_forall. intros Hall (a & Ha & _ & <- & _). destruct (Hall a Ha) as (_ & Hok & Hh & _).
  split; [done|]. cbn. destruct (aw_estimate a). cbn in *. by subst.
Qed.

Lemma written_estimate_ok answers :
  Forall answer_ok answers → ∀ k v ttl t, written answers k v ttl t → estimate_ok v = true.
Proof. intros Hall k v ttl t Hw. by eapply written_ok. Qed.

(** What a cache read returns, bound to the leg, was answered for its key. *)
Lemma cache_get_fresh w key leg s o src l1s l2s c' :
  caches_fresh s → steady d w →
  cache_get store l1_key kind w key leg (ps_cache s) = ((o, src, l1s, l2s), c') →
  cache_fresh store l1_key d (written (ps_answers s)) c'
  ∧ ∀ e, o = Some e → ∃ a, a ∈ ps_answers s ∧ aw_key a = key
      ∧ e = bind_cached_route (aw_estimate a) leg
      ∧ wt_start w < aw_start a + aw_ttl a * 1000000 + l1_slack store d.
Proof.
  intros [Hall Hf] Hw. pose proof (steady_pos w Hw) as Hd.
  pose proof (min_positive store Hpolicy) as Hmin. unfold cache_get. destruct kind.
  - intros [= <- <- <- <- <-]. done.
  - destruct (layered_lookup _ _ _ _ _) as [l c1] eqn:E. intros [= <- <- <- <- <-].
    destruct (layered_lookup_fresh store l1_key d (fun e => estimate_ok e = true) _ Hpolicy Hinj reads_back stored_ok
                (written_estimate_ok _ Hall) _ _ _ _ _ Hf Hw E) as [Hc Hv]. split; [exact Hc|].
    intros e. destruct (ll_value l) as [v|]; [|done]. intros [= <-].
    destruct (Hv v eq_refl) as (v0 & ttl & t & Hwr & Heq & Hlt).
    destruct (written_ok _ _ _ _ _ Hall Hwr) as [_ Hst]. rewrite Hst in Heq.
    destruct Hwr as (a & Ha & Hk & <- & <- & <-). exists a.
    split_and!; [done..|by destruct Heq as [->| ->]|done].
  - destruct (get_entry _ _ _) as [r rows] eqn:E.
    assert (Hc : cache_fresh store l1_key d (written (ps_answers s)) (with_rows rows (ps_cache s))).
    { eapply fresh_sub; [exact Hf|done|]. cbn. intros k row. change rows with (r, rows).2.
      rewrite <- E. apply get_entry_rows. }
    destruct r as [[e|]|]; intros [= <- <- <- <- <-]; (split; [exact Hc|]); [|done..].
    intros ? [= <-]. destruct (get_entry_found _ _ _ _ _ E) as (row & Hrow & Hlive & Hval & _).
    destruct (fresh_l2 _ _ _ _ _ Hf _ _ _ Hrow Hval) as (v0 & ttl & t & Hwr & Heq & Hexp).
    destruct (written_ok _ _ _ _ _ Hall Hwr) as [_ Hst]. rewrite Hst in Heq.
    destruct Hwr as (a & Ha & Hk & <- & <- & <-). exists a. split_and!; [done..|by destruct Heq as [->| ->]|].
    unfold steady in Hw. rewrite !Forall_cons in Hw. unfold l1_slack. lia.
Qed.

Lemma written_more a answers k v ttl t : written answers k v ttl t → written (a :: answers) k v ttl t.
Proof. intros (b & Hb & ?). exists b. split; [by right|done]. Qed.

(** Storing an answer keeps the caches fresh. *)
Lemma keep_answer_fresh w key leg e s :
  caches_fresh s → steady d w → key = route_leg_cache_key leg →
  estimate_ok e = true → re_cache_hit e = false →
  (∃ w0 original, prepared original leg ∧ recover original (ask_provider cfg w0 leg) = Ok e) →
  caches_fresh (keep_answer cfg store l1_key kind w key leg e s).
Proof.
  intros [Hall Hf] Hw -> Hok Hh Hfrom. unfold keep_answer. set (a := mkAnswer _ _ _ _ _).
  assert (Hall' : Forall answer_ok (a :: ps_answers s)) by (constructor; [by split_and!|done]).
  split; [exact Hall'|]. cbn [ps_cache ps_answers].
  pose proof (fresh_mono _ _ _ _ _ _ (written_more a (ps_answers s)) Hf) as Hf'.
  assert (Hwr : written (a :: ps_answers s) (route_leg_cache_key leg) e (aw_ttl a) (wt_start w))
    by (exists a; split; [by left|done]).
  unfold cache_set. cbv zeta.
  change (if re_available e then as_route_ttl cfg else as_unavailable_ttl cfg) with (aw_ttl a).
  destruct (aw_ttl a <=? 0); [exact Hf'|]. destruct kind; [exact Hf'|..].
  - by apply (layered_set_fresh store l1_key d (fun e => estimate_ok e = true) _ Hpolicy Hinj reads_back
             stored_ok (written_estimate_ok _ Hall')).
  - destruct Hf' as [F1 F2]. split; [exact F1|]. cbn [ls_rows with_rows]. intros k row v Hrow Hval.
    apply put_entry_rows in Hrow as [?|(-> & Httl & Hj & He)]; [by eauto|].
    rewrite Hj, reads_back in Hval by by apply stored_ok. simplify_eq.
    exists e, (aw_ttl a), (wt_start w). rewrite He.
    unfold steady in Hw. rewrite !Forall_cons in Hw. split_and!; [done|by right|lia].
Qed.

(** What explains a cached route of a leg: an answer for the same query, no
    older than its time to live but for the slack. *)
Definition explained (answers : list Answer) (w : LegWeather) (leg : RouteLegRequest) (e : RouteEstimate) : Prop :=
  ∃ leg' a, prepared leg leg' ∧ a ∈ answers ∧ answer_ok a
    ∧ aw_key a = route_leg_cache_key leg' ∧ e = bind_cached_route (aw_estimate a) leg'
    ∧ wt_start (lg_lookup w) < aw_start a + aw_ttl a * 1000000 + l1_slack store d.

Lemma explained_more answers answers' w leg e :
  answers ⊆ answers' → explained answers w leg e → explained answers' w leg e.
Proof. intros Hsub (leg' & a & Hp & Ha & ?). exists leg', a. split_and!; [done|by apply Hsub|naive_solver..]. Qed.

Lemma ask_fresh leg leg' w e :
  leg_request_ok leg = true → prepared leg leg' → recover leg (ask_provider cfg w leg') = Ok e →
  estimate_ok e = true ∧ re_cache_hit e = false.
Proof.
  intros Hleg Hp Hr. apply (recover_answered "" _ _ _ _ Hp) in Hr.
  apply answered_ok in Hr as ((Hd & Hl & _) & Hh & H1' & H2'). split; [|done].
  unfold leg_request_ok in Hleg. unfold estimate_ok. rewrite Hd, Hl. lia.
Qed.

(** A turn of the loop keeps the invariant and explains what it read. *)
Lemma estimate_leg_fresh city w leg c s r s' :
  leg_request_ok leg = true → caches_fresh s → steady_leg w →
  estimate_leg city w leg c s = (r, s') →
  caches_fresh s' ∧ ps_answers s ⊆ ps_answers s'
  ∧ ∀ e c', r = Ok (e, c') → re_cache_hit e = true → explained (ps_answers s') w leg e.
Proof.
  intros Hleg Hs [Hw1 Hw2]. unfold AmapClient.estimate_leg.
  destruct (prepare_leg city w leg s) as [[leg'|ex] s1] eqn:Hp;
    pose proof (prepare_leg_state _ _ _ _ _ _ Hp) as [Hc Ha];
    assert (Hs1 : caches_fresh s1) by (unfold caches_fresh; rewrite Hc, Ha; exact Hs).
  - pose proof (prepare_leg_prepared _ _ _ _ _ _ Hp) as Hprep.
    destruct (cache_get _ _ _ _ _ _ _) as [[[[o src] l1s] l2s] cache] eqn:Hg.
    destruct (cache_get_fresh _ _ _ _ _ _ _ _ _ Hs1 Hw1 Hg) as [Hf Ho].
    destruct o as [e0|].
    + intros [= <- <-]. rewrite <- Ha. split_and!; [by destruct Hs1|done|].
      intros e c' [= <- <-] _. destruct (Ho e0 eq_refl) as (a & Hin & Hk & He & Hlt).
      exists leg', a. split_and!; [done..| |done|done|done].
      destruct Hs1 as [Hall _]. rewrite Forall_forall in Hall. by apply Hall.
    + set (s2 := mkProvider _ (note_provider_call _ _) _).
      assert (Hs2 : caches_fresh s2).
      { split; [by destruct Hs1|]. cbn. unfold note_provider_call.
        destruct kind; try exact Hf. by apply fresh_tally. }
      destruct (recover leg _) as [e0|ex] eqn:Hr; intros [= <- <-].
      * destruct (ask_fresh _ _ _ _ Hleg Hprep Hr) as [Hok Hh].
        split_and!; [apply keep_answer_fresh; eauto|cbn; rewrite Ha; intros x Hx; by right|].
        intros e c' [= <- <-]. congruence.
      * split_and!; [done|cbn; by rewrite Ha|done].
  - destruct (recover leg (Err ex)) as [e0|ex'] eqn:Hr; intros [= <- <-];
      (split_and!; [done|by rewrite Ha|]); [|done].
    intros e c' [= <- <-]. unfold recover in Hr. by repeat (case_match; simplify_eq/=).
Qed.

Lemma estimate_legs_fresh city weather legs c s r s' :
  Forall (fun leg => leg_request_ok leg = true) legs → caches_fresh s → (∀ i, steady_leg (weather i)) →
  estimate_legs city weather legs c s = (r, s') →
  caches_fresh s' ∧ ps_answers s ⊆ ps_answers s'
  ∧ ∀ es c', r = Ok (es, c') → ∀ i leg e, legs !! i = Some leg → es !! i = Some e →
      re_cache_hit e = true → explained (ps_answers s') (weather i) leg e.
Proof.
  intros Hlegs. revert weather c s r s'. induction Hlegs as [|leg legs Hleg Hlegs IH];
    intros weather c s r s' Hs Hw; cbn.
  { intros [= <- <-]. split_and!; [done..|]. intros es c' [= <- <-] i. by rewrite lookup_nil. }
  destruct (estimate_leg city (weather 0%nat) leg c s) as [r1 s1] eqn:E1.
  destruct (estimate_leg_fresh _ _ _ _ _ _ _ Hleg Hs (Hw 0%nat) E1) as (Hs1 & Hsub1 & Hex1).
  destruct r1 as [[e1 c1]|ex]; [|intros [= <- <-]; by split_and!].
  destruct (estimate_legs city _ legs c1 s1) as [r2 s2] eqn:E2.
  destruct (IH _ _ _ _ _ Hs1 (fun i => Hw (S i)) E2) as (Hs2 & Hsub2 & Hex2).
  assert (Hsub : ps_answers s ⊆ ps_answers s2) by (etrans; eassumption).
  destruct r2 as [[es c2]|ex]; intros [= <- <-]; (split_and!; [done..|]); [|done].
  intros es' c' [= <- <-] [|i] leg0 e0; cbn; [|by apply (Hex2 _ _ eq_refl)].
  intros [= <-] [= <-] Hh. eapply explained_more; [exact Hsub2|]. by eapply Hex1.
Qed.
End Cached.

(** ** A run of requests *)

(** One call of [estimate_routes] and what happens around its legs. *)
Record RouteCall := mkRouteCall {
  cc_city : string; cc_fingerprint : string; cc_legs : list RouteLegRequest; cc_limit : option Z;
  cc_weather : nat → LegWeather
}.

Definition route_call (c : RouteCall) : ProviderState → result ClientExn RouteEstimateResult * ProviderState :=
  estimate_routes (cc_city c) (cc_fingerprint c) (cc_legs c) (cc_limit c) (cc_weather c).

Definition run_route_calls (calls : list RouteCall) (s : ProviderState) : ProviderState :=
  foldl (fun s c => (route_call c s).2) s calls.

Definition call_ok (d : Z) (c : RouteCall) : Prop :=
  Forall (fun leg => leg_request_ok leg = true) (cc_legs c) ∧ ∀ i, steady_leg d (cc_weather c i).

Lemma route_call_fresh `{!DatetimeTextLaws} d c s r s' :
  policy_ok (sc_ttl_policy store) = true → (∀ k k', l1_key k = l1_key k' → k = k') →
  (∀ e, estimate_ok e = true → read_route (dump_route e) = Some e) →
  call_ok d c → caches_fresh d s → route_call c s = (r, s') →
  caches_fresh d s' ∧ ∀ res, r = Ok res → ∀ i leg e, cc_legs c !! i = Some leg →
    rr_routes res !! i = Some e → re_cache_hit e = true →
    explained d (ps_answers s') (cc_weather c i) leg e.
Proof.
  intros Hp Hi Hr [Hlegs Hw] Hs. unfold route_call, AmapClient.estimate_routes.
  set (selected := take _ _).
  assert (Hsel : Forall (fun leg => leg_request_ok leg = true) selected) by by apply Forall_take.
  destruct (estimate_legs _ _ selected _ s) as [r1 s1] eqn:E.
  destruct (estimate_legs_fresh d Hp Hi Hr _ _ _ _ _ _ _ Hsel Hs Hw E) as (Hs1 & _ & Hex).
  pose proof (estimate_legs_ok (cc_city c) (cc_weather c) selected no_counters s) as Hlen.
  rewrite E in Hlen. destruct r1 as [[es c1]|ex]; intros [= <- <-]; (split; [done|]); [|done].
  intros res [= <-] i leg e Hleg He Hh. cbn in He. apply (Hex _ _ eq_refl) with (i := i); [|done..].
  specialize (Hlen _ _ _ eq_refl). destruct Hlen as (_ & Hlen & _). unfold selected in *.
  rewrite lookup_take. apply lookup_lt_Some in He. rewrite Hlen, length_take in He.
  rewrite decide_True by lia. done.
Qed.

(** The two end points as the provider is asked about them. *)
Definition same_point (p q : RoutePoint) : Prop :=
  coordinate (rp_location p) = coordinate (rp_location q)
  ∧ py_strip (rp_poi_id p) = py_strip (rp_poi_id q) ∧ py_strip (rp_city_code p) = py_strip (rp_city_code q).

(** Two legs that ask the provider the same question. *)
Definition same_query (leg leg' : RouteLegRequest) : Prop :=
  lr_mode leg = lr_mode leg' ∧ same_point (lr_origin leg) (lr_origin leg')
  ∧ same_point (lr_destination leg) (lr_destination leg').

Lemma key_payload_same_query leg leg' :
  route_key_payload leg = route_key_payload leg' → same_query leg leg'.
Proof.
  unfold route_key_payload, key_point, same_query, same_point, coordinate. intros [=].
  split_and!; try congruence. by destruct (lr_mode leg), (lr_mode leg').
Qed.

End Provider.

(** ** A demonstration *)

Module RouteDemo.

Fixpoint bits (p : positive) : string :=
  match p with xH => "" | xO p => String "0"%char (bits p) | xI p => String "1"%char (bits p) end.
Fixpoint read_bits (s : string) : positive :=
  match s with
  | EmptyString => xH
  | String c rest => if Ascii.eqb c "0"%char then xO (read_bits rest) else xI (read_bits rest)
  end.

Lemma read_bits_bits p : read_bits (bits p) = p.
Proof. induction p; cbn; congruence. Qed.

#[export] Instance demo_datetime : DatetimeText := {|
  iso t := match t with Z0 => "" | Zpos p => String "+"%char (bits p) | Zneg p => String "-"%char (bits p) end;
  read_iso s := match s with
                | EmptyString => Some 0
                | String c rest => Some (if Ascii.eqb c "+"%char then Zpos (read_bits rest) else Zneg (read_bits rest))
                end |}.
#[export] Instance demo_datetime_laws : DatetimeTextLaws.
Proof. intros [|p|p]; cbn; by rewrite ?read_bits_bits. Qed.

(** The texts of a payload, in order. *)
Fixpoint texts (v : json) : list string :=
  match v with JStr s => [s] | JObj kvs => flat_map (fun kv => texts kv.2) kvs | _ => [] end.

(** Texts joined with a bar after each, bars and backslashes escaped. *)
Fixpoint quoted (s : string) : string :=
  match s with
  | EmptyString => ""
  | String c rest =>
      if Ascii.eqb c "|"%char || Ascii.eqb c "\"%char then String "\"%char (String c (quoted rest))
      else String c (quoted rest)
  end.
Fixpoint read_texts (cur s : string) : list string :=
  match s with
  | EmptyString => []
  | String c rest =>
      if Ascii.eqb c "|"%char then cur :: read_texts "" rest
      else if Ascii.eqb c "\"%char
      then match rest with
           | String c' rest => read_texts (cur ++ String c' "") rest
           | EmptyString => []
           end
      else read_texts (cur ++ String c "") rest
  end.
#[export] Instance demo_digest : PayloadDigest :=
  fun v => foldr (fun s rest => quoted s ++ String "|"%char rest) "" (texts v).

Lemma read_quoted cur s rest : read_texts cur (quoted s ++ rest) = read_texts (cur ++ s) rest.
Proof.
  revert cur. induction s as [|c s IH]; intros cur; [by rewrite append_empty_r|].
  replace (cur ++ String c s) with ((cur ++ String c "") ++ s)
    by (by rewrite <- append_assoc_str).
  rewrite <- IH. cbn [quoted]. destruct (Ascii.eqb_spec c "|"%char) as [->|Hb]; [done|].
  destruct (Ascii.eqb_spec c "\"%char) as [->|Hs]; [done|].
  cbn [orb]. rewrite append_cons. cbn [read_texts].
  rewrite (proj2 (Ascii.eqb_neq _ _) Hb), (proj2 (Ascii.eqb_neq _ _) Hs). done.
Qed.

Lemma read_joined l : read_texts "" (foldr (fun s rest => quoted s ++ String "|"%char rest) "" l) = l.
Proof. induction l as [|s l IH]; [done|]. cbn [foldr]. rewrite read_quoted. cbn. by rewrite IH. Qed.

Lemma demo_digest_injective leg leg' :
  route_leg_cache_key leg = route_leg_cache_key leg' → route_key_payload leg = route_key_payload leg'.
Proof.
  unfold route_leg_cache_key, payload_digest, demo_digest. intros Hd.
  apply (f_equal (read_texts "")) in Hd. rewrite !read_joined in Hd.
  cbn in Hd. unfold route_key_payload, key_point. congruence.
Qed.

#[export] Instance demo_repr : PyRepr := fun _ => "".

Definition parse_mode (s : string) : option RouteMode :=
  if String.eqb s "walking" then Some walking
  else if String.eqb s "driving" then Some driving
  else if String.eqb s "transit" then Some transit else None.
Definition parse_leg_type (s : string) : option RouteLegType :=
  if String.eqb s "hotel_departure" then Some hotel_departure
  else if String.eqb s "between_attractions" then Some between_attractions
  else if String.eqb s "hotel_return" then Some hotel_return else None.
Definition parse_count (v : json) : option (option Z) :=
  match v with JNull => Some None | JInt z => if 0 <=? z then Some (Some z) else None | _ => None end.
Definition parse_text (v : json) : option (option string) :=
  match v with JNull => Some None | JStr s => Some (Some s) | _ => None end.

(** A strict reader of estimates. *)
#[export] Instance demo_reader : RouteReader := fun v =>
  match v with
  | JObj [(_, JStr _); (_, JInt day); (_, JInt leg); (_, JStr leg_type); (_, JStr date); (_, JStr origin);
          (_, JStr destination); (_, JStr mode); (_, JBool available); (_, distance); (_, duration);
          (_, code); (_, message); (_, JBool hit)] =>
      leg_type ← parse_leg_type leg_type; mode ← parse_mode mode;
      distance ← parse_count distance; duration ← parse_count duration;
      code ← parse_text code; message ← parse_text message;
      if (0 <=? day) && (0 <=? leg)
      then Some (mkRouteEstimate day leg leg_type date origin destination mode available distance duration
                   code message hit)
      else None
  | _ => None
  end.

Lemma parse_count_dump o : 0 <= default 0 o → parse_count (json_opt JInt o) = Some o.
Proof. destruct o as [z|]; cbn; [|done]. intros. destruct (0 <=? z) eqn:E; [done|lia]. Qed.

Lemma demo_reads e : estimate_ok e = true → read_route (dump_route e) = Some e.
Proof.
  unfold estimate_ok, read_route, demo_reader, dump_route. intros Hok.
  assert (parse_leg_type (leg_type_value (re_leg_type e)) = Some (re_leg_type e)) as -> by by destruct (re_leg_type e).
  assert (parse_mode (mode_value (re_mode e)) = Some (re_mode e)) as -> by by destruct (re_mode e).
  cbn [mbind option_bind]. rewrite !parse_count_dump by lia. cbn [mbind option_bind].
  assert (∀ o, parse_text (jstr_opt o) = Some o) as Ht by by intros [].
  rewrite !Ht. cbn [mbind option_bind].
  assert ((0 <=? re_day_index e) && (0 <=? re_leg_index e) = true) as -> by lia. by destruct e.
Qed.

Definition settings : AmapSettings := mkAmapSettings "key" 12 3600 300.
Definition redis : StoreConfig := mkStoreConfig RedisL1 1 (mkPolicy 1800 1 604800) true.
Definition l1_key (key : string) : string := "travel:cache:route:" ++ key.

Lemma l1_key_injective k k' : l1_key k = l1_key k' → k = k'.
Proof. unfold l1_key. cbn. intros [=]. done. Qed.

Definition place (name id : string) (lon lat : Q) : RoutePoint := mkRoutePoint name (mkLocation lon lat) id "".
Definition lake : RoutePoint := place "西湖" "B1" (12015 # 100) (3025 # 100).
Definition temple : RoutePoint := place "灵隐寺" "B2" (12010 # 100) (3024 # 100).
Definition walk (day : Z) : RouteLegRequest :=
  mkLegRequest day 0 between_attractions "2026-05-01" lake temple walking.
Definition back (day : Z) : RouteLegRequest :=
  mkLegRequest day 1 between_attractions "2026-05-01" temple lake walking.

Definition path_answer (distance : json) : HttpOutcome :=
  HttpJson (JObj [("status", JStr "1");
    ("route", JObj [("paths", JArr [JObj [("distance", distance); ("cost", JObj [("duration", JStr "900")])]])])]).

(** An operation at [now] microseconds with the servers answering. *)
Definition calm (now : datetime) : Weather :=
  let c := mkL1Call now Served Served in mkWeather now c c (mkL2Call now true) c.
(** The same while Redis is down. *)
Definition redis_down (now : datetime) : Weather :=
  let c := mkL1Call now (Failed false) (Failed false) in mkWeather now c c (mkL2Call now true) c.

Definition leg_weather (at_ : datetime → Weather) (now : datetime) (answer : HttpOutcome) : LegWeather :=
  mkLegWeather (at_ now) (mkTransport None (fun _ _ => HttpTimeout))
    (mkTransport None (fun _ _ => answer)) (at_ now).

Definition cold : ProviderState := mkProvider ∅ (mkState (mkL1 ∅ ∅) ∅ ∅) [].
Definition request (now : datetime) (day : Z) (weather : datetime → Weather) (answers : list HttpOutcome) : RouteCall :=
  mkRouteCall "杭州" "plan" (take (length answers) [walk day; back day]) None
    (fun i => leg_weather weather now (default HttpTimeout (answers !! i))).

Notation call := (route_call settings redis l1_key LayeredCache).
Notation run := (run_route_calls settings redis l1_key LayeredCache).

Definition routes_of (r : result ClientExn RouteEstimateResult) : list RouteEstimate :=
  match r with Ok r => rr_routes r | Err _ => [] end.
Definition reported (field : string) (r : result ClientExn RouteEstimateResult) : option json :=
  match r with Ok r => obj_get field (rr_metrics r) | Err _ => None end.

(** The provider is asked once; later requests read Redis, or the database
    while Redis is down. *)
Definition asked : RouteCall := request 1000000 0 calm [path_answer (JStr "1200")].
Definition again : RouteCall := request 5000000 2 calm [HttpTimeout].
Definition without_redis : RouteCall := request 6000000 3 redis_down [HttpTimeout].

Example a_route_is_asked_once :
  map (fun c => map (fun e => (re_day_index e, re_distance_meters e, re_cache_hit e))
                  (routes_of (call c (run [asked] cold)).1)) [again; without_redis]
    = [[(2, Some 1200, true)]; [(3, Some 1200, true)]]
  ∧ reported "provider_calls" (call asked cold).1 = Some (JInt 1)
  ∧ reported "provider_calls_avoided_by_l1" (call again (run [asked] cold)).1 = Some (JInt 1)
  ∧ reported "provider_calls_avoided_by_l2" (call without_redis (run [asked] cold)).1 = Some (JInt 1).
Proof. vm_compute. repeat split; reflexivity. Qed.

End RouteDemo.
Import RouteDemo.

Example route_estimation_accounts_witness :
  ∃ r c, (call asked cold).1 = Ok r ∧ counters_of r c ∧ rc_hits c = 0
         ∧ rc_l2_misses c + rc_l2_errors c = rc_calls c ∧ rc_calls c <= 1.
Proof.
  destruct (call asked cold) as [r s'] eqn:Hrun.
  assert (Hh : map re_cache_hit (routes_of r) = [false])
    by (change r with (r, s').1; rewrite <- Hrun; vm_compute; reflexivity).
  destruct r as [r|]; [cbn in Hh|done].
  destruct (route_estimation_accounts settings redis l1_key LayeredCache "杭州" "plan" [walk 0] None
              (cc_weather asked) cold _ _ Hrun)
    as (_ & _ & _ & Hev & _ & _ & c & Hc & Hhits & _ & Hcalls & _ & Hl & _ & _).
  assert (Hz : hits_of (rr_routes r) = 0).
  { destruct (rr_routes r) as [|e [|]]; [done| |done]. rewrite hits_of_cons. by injection Hh as ->. }
  exists r, c. split_and!; [done|done|lia|by apply Hl|]. assert (rr_evaluated_legs r = 1) by (rewrite Hev; reflexivity). lia.
Defined.


(** ** What the code does not mean to do *)

(** One leg whose distance reads as infinity loses the whole batch: [round]
    raises an [OverflowError] that the loop does not catch, and the leg after it
    is never asked about. *)
Theorem infinite_distance_loses_every_leg :
  (call (request 1000000 0 calm [path_answer (JStr "1e999"); path_answer (JStr "1200")]) cold).1
    = Err OverflowError
  ∧ map re_available (routes_of (call (request 1000000 0 calm [path_answer (JStr "x"); path_answer (JStr "1200")]) cold).1)
    = [false; true].
Proof. vm_compute. split; reflexivity. Qed.

(** A request whose L1 read misses and whose L2 read hits reports no L1 miss,
    while the counters of the cache do: its L1 hit rate leaves that read out. *)
Theorem l1_miss_unreported_on_l2_hit :
  let warm := mkProvider ∅ (mkState (mkL1 ∅ ∅) (ls_rows (ps_cache (run [asked] cold))) ∅) [] in
  let '(r, s) := call again warm in
  reported "l2_cache_hits" r = Some (JInt 1) ∧ reported "l1_cache_misses" r = Some (JInt 0)
  ∧ count "l1_misses" (ls_metrics (ps_cache s)) = 1.
Proof. vm_compute. repeat split; reflexivity. Qed.

(** A backfill rounds the remaining time up: a row with half a second left is
    served from L1 after it has expired in the database. *)
Theorem backfill_outlives_the_row :
  let row := mkCacheRow [] (dump_route (estimate_of_leg (walk 0) true (Some 1200) (Some 900) None None)) 0 10500000 in
  let s0 := mkProvider ∅ (mkState (mkL1 ∅ ∅) {[ route_leg_cache_key (walk 0) := row ]} ∅) [] in
  let s1 := (call (request 10000000 0 calm [HttpTimeout]) s0).2 in
  map re_cache_hit (routes_of (call (request 10900000 0 calm [HttpTimeout]) s0).1) = [false]
  ∧ map re_cache_hit (routes_of (call (request 10900000 0 calm [HttpTimeout]) s1).1) = [true].
Proof. vm_compute. split; reflexivity. Qed.
